(* ===== verification/_CoqProject ===== *)
-Q . S2P
Prelude.v
GoLib.v
GoText.v
Json.v
Keyset.v
Oldest.v
Execution.v
ExecStore.v
ExecInv.v
ExecProps.v
Backoff.v
Ports.v
PgStore.v
Dispatcher.v
Recovery.v
Worker.v
WorkerProps.v
ExecService.v
Throttle.v
Publish.v
PublishService.v
PublishProps.v
Delivery.v
Pipeline.v
PipelineService.v
PipelineProps.v
PipelineFlow.v
Composition.v
Consumer.v
Rbac.v
Authz.v
AuthzProps.v
AuditChain.v
AuditProps.v
Refresh.v
RefreshProps.v
Tasks.v
TasksProps.v
Org.v
OrgProps.v
Knowledge.v
KnowledgeProps.v
Config.v
ConfigProps.v
Schema.v
Boot.v
BootProps.v
Http.v
Surface.v
TaskHttp.v
TaskHttpProps.v
OrgHttp.v
OrgHttpProps.v
KnowledgeHttp.v
KnowledgeHttpProps.v
PublicationHttp.v
PublicationHttpProps.v
PipelineHttp.v
PipelineHttpProps.v
ExecHttp.v
ExecHttpProps.v
Gateway.v
GatewayProps.v
Compose.v
Bus.v
BusProps.v
Reconnector.v
Consumption.v
Health.v
HealthProps.v
Workspaces.v
Users.v
Login.v
LoginProps.v
Memory.v
MemoryProps.v
MemoryHttp.v
MemoryHttpProps.v
AuditRead.v
AuditReadProps.v
