(* ===== verification/Prelude.v ===== *)
(** * AUSTRO OS: verification of the execution, publishing, orchestration,
    tenant data and security core

    AUSTRO OS runs AI work for tenants ("workspaces") under human oversight.  An
    API server admits executions, tasks, pipelines and publications into
    PostgreSQL; a dispatcher leases due executions and sends them to workers
    through RabbitMQ; workers call an AI provider and settle the execution; a
    pipeline runs a creator's idea through research, draft and review to a
    publication; a human approves; a publisher delivers to a platform.  Every
    request passes an authentication and a deny-by-default authorisation layer,
    and every decision goes on a hash-linked audit chain.

    The development is a shallow embedding of the Go sources under src/.  A Go
    function that returns [(A, error)] is a Rocq function into [res err A]; a
    method that changes state is an action [act S err A] over an explicit state
    (its effect is kept on the error paths); a mutex-protected in-memory table
    or a database transaction is one atomic step, and where a call makes several
    of them other callers come in between - but a call of the token service from
    the endpoints of Login, whose visits interleave in RefreshProps only.  Where
    an update of the organisation checks a name in one statement and writes it
    in another, the two statements are two steps.

    ** Shared files

    - Prelude: the [res] and [act] monads with their notations, database
      transactions with faults and interference ([run_tx]), 64-bit wrap-around,
      lemmas and tactics.
    - GoLib: what the code computes with Go's library: SHA-256 and hexadecimal,
      strconv, encoding/json strings, UTF-8 validity, text forms of UUIDs.
    - GoText: integers read from text; searching, lowering, splitting and folding
      strings.
    - Json: encoding/json as a reader and a printer of values, and how members
      are assigned to a struct; what is printed is read back.
    - Keyset: ORDER BY created_at DESC, id DESC with a cursor, the shape every
      listing shares, and a client that follows the cursors while the table
      changes; and rules for programs whose every statement keeps a
      relation between the tables before and after, under interference.
    - Oldest: the eviction of the oldest entries of a map, used by two tables.

    ** Executions (src/internal/execution, infrastructure/postgres/executions.go)

    - Execution: execution.go - stages, error codes, classification.
    - ExecStore: the tables, their constraints, one definition per store
      transaction (admission, claim, heartbeat, settlements, reclaim, dispatch
      record, cancel, reads).
    - ExecInv, ExecProps: the board as a transition system; the invariant of
      its reachable states; refinement of the abstract lifecycle of a row;
      lease exclusivity, fencing of predecessors, retry budget, capacity, dead
      letters, absorbing terminal states.
    - Ports: the store, publisher, materializer and clock interfaces as type
      classes, and the contract [BoardStore] the dispatcher and the worker are
      proved against.  PgStore: the PostgreSQL adapter, an instance of it.
    - Backoff (retrypolicy.go and the two other backoffs), ExecService
      (service.go), Dispatcher and Recovery (dispatcher.go), Worker and
      WorkerProps (worker.go).

    ** Publishing and orchestration

    - Publish, PublishService, PublishProps: internal/publish (publish.go,
      service.go) over infrastructure/postgres/publications.go: human oversight
      under any interleaving, the lifecycle, delivery failures.
    - Delivery: generic_http.go, publisher_stub.go, publisher_factory.go.
    - Pipeline, PipelineService, PipelineProps, PipelineFlow:
      internal/orchestration over infrastructure/postgres/pipelines.go: the
      approval gate, redelivery, the run from creation to publication.
    - Composition: internal/composition, the two services together.
    - Gateway, GatewayProps: internal/ai and internal/composition/reviewer.go:
      the budget of a workspace, the decisions recorded, the stub and the HTTP
      provider, the key.
    - Consumer: internal/worker/worker.go and cmd/worker/handler.go: when a
      message is acknowledged, requeued or dropped.

    - Bus, BusProps: internal/event, infrastructure/rabbitmq/sinks.go and
      executions.go, and the reading of a delivery: what gets onto a queue is
      received as it was sent.  Reconnector: reconnect.go.  Consumption: the
      connection, channel, consumer and stop of internal/worker/worker.go.  Both
      are supervised until closed and find their way back; a close that overlaps
      a dial is undone.

    ** Security

    - Throttle: internal/security/throttle.go, internal/api/ratelimit.go.
    - Rbac, Authz, AuthzProps: internal/rbac, internal/authz, the routes of
      internal/api/routes.go and the middleware of main.go: the tables agree
      with each other, tenants are isolated.
    - AuditChain, AuditProps: internal/audit and infrastructure/auditstore: a
      verified chain binds its history, the store keeps it verified.
    - Refresh, RefreshProps: the refresh tokens of internal/auth/auth.go: calls
      whose visits of the table interleave; a replay kills its family unless a
      rotation of it is in flight.
    - Users: internal/auth/users.go and infrastructure/postgres/users.go with the
      constraints and the row-level security of the users table.
    - Http, Login, LoginProps: internal/api/handler.go and middleware.go: what
      handlers share; signing in, refreshing, signing out, founding.  Refusals
      do not tell who exists, a session carries the row, one founder at most.

    ** Tenant data

    - Tasks, TasksProps: internal/task and infrastructure/postgres/tasks.go: the
      cursor text, the bounded listing and its pages, the lifecycle.
    - Org, OrgProps: internal/department, internal/team, internal/aiemployee and
      their stores: one set of tables with foreign keys, unique names and
      row-level security; well-formedness, isolation, exact deletion, pages.
    - Knowledge, KnowledgeProps: internal/knowledge and
      infrastructure/postgres/knowledge.go: documents with embeddings.
    - Memory, MemoryProps: internal/memory, infrastructure/redis/memory.go and
      the audit sink: cells, lifetimes, the write throttle, the refusal of
      credentials.
    - AuditRead, AuditReadProps: internal/audit/read.go,
      infrastructure/auditstore/read.go and internal/api/audit_handlers.go: the
      pages of the audit history and who may read them.  Also the rows the audit
      store writes and scans, and that they implement the chain of AuditChain.

    ** Routes of a workspace (src/internal/api)

    - Surface: what these handlers share: the caller and the workspace of the
      claims, the audit record of a decision, best effort or fail closed, query
      and body checks, the caller a change is signed with, the relation a
      request of one workspace keeps on shared tables, and the rules to reason
      about a handler over a service.
    - TaskHttp, TaskHttpProps: task_handlers.go.
    - OrgHttp, OrgHttpProps: department_handlers.go, team_handlers.go,
      aiemployee_handlers.go.
    - KnowledgeHttp, KnowledgeHttpProps: knowledge_handlers.go.
    - PublicationHttp, PublicationHttpProps: publication_handlers.go.
      PipelineHttp, PipelineHttpProps: pipeline_handlers.go.
    - MemoryHttp, MemoryHttpProps: memory_handlers.go: what is put is got.
    - Workspaces: workspace_handlers.go over
      infrastructure/postgres/workspaces.go, a panic included.
    - ExecHttp, ExecHttpProps: execution_handlers.go, over the tasks, the
      employees and the port of the execution store.
      A route shows and touches rows of the claims' workspace only; a success
      that changes something is recorded where the code promises it; a task
      offers the transitions its service accepts; approvals bear the identifier
      of an admin of the workspace; an execution is admitted for what was read,
      and read and cancelled as the service is asked to in the own workspace.

    ** Starting a process

    - Config, ConfigProps: internal/config and the topology of
      infrastructure/database/roles.go: what a validated environment
      guarantees - the part the process plays, its timing, its credentials, the
      address of Redis - and the three database principals.
    - Schema: infrastructure/database/database.go: every statement of the schema,
      the migrations and row-level security as data, run over a catalogue; what a
      statement leaves settled stays settled under the ones that follow.
    - Boot, BootProps: roles.go, the policies, Bootstrap and runtime_verify.go:
      the two roles, the order of the steps, PostgreSQL's row-level security as
      documented, and the checks of a connection about to serve, the probe with
      two temporary workspaces included.  A process that came up is confined to
      the workspace its sessions are bound to; a bootstrap changes no other role
      and, run again, nothing.  [refused] stands for what the server refuses for
      reasons outside the catalogue: violated rows, missing privileges, a broken
      connection.
    - Compose: internal/composition/composition.go, main.go and
      cmd/worker/main.go: a validated configuration becomes what its role says.
      [up] stands for the connections a process opens.
    - Health, HealthProps: internal/health,
      infrastructure/postgres/heartbeats.go, both heartbeat.go and the readiness
      endpoint of main.go: ready means that the declared companions beat, and a
      beat is seen while it is fresh.

    ** Time, identifiers, text

    An instant is an integer number of nanoseconds ([time]); where a column
    keeps less than that, the rounding is the parameter [StoredTime].  A UUID is
    a number below which nothing is assumed but what its text form needs
    ([UuidText], [UuidParse]).  Strings are Coq strings read as bytes.  Database
    clocks, random draws and the moves of other processes are functions of a
    step counter ([env]), so that theorems quantify over all of them.

    ** Bounds and fuel

    Recursion over Go slices and maps is structural.  [recoverStale] takes the
    number of batches as fuel; [recoverStale_complete] shows that more than the
    running executions is enough.  [walk] of the listing takes the number of
    requests, and [pages_enumerate] shows that one more than the rows is enough.
    The reader of JSON takes twice the text; [read_enough] shows that more makes
    no difference.
    The text functions of GoLib and AuditChain take the length of the text.  The
    retry loops of Delivery are bounded by the configured number of attempts.

    ** Assumptions

    Theorems that need a hash to bind its input assume that the finitely many
    messages at hand do not collide ([collision_free]), never that SHA-256 has
    no collision.  Third-party code is a parameter with its documented
    behaviour: the UUID text forms, the text of an instant, JWT signing, the
    HTTP exchange of a delivery and of a call to an AI endpoint, the AI provider
    of the worker, the JSON of a request body.

    The program publishes without confirms, so that nothing is assumed of a
    message it sent: whether the broker keeps it is a parameter of every
    publication, independent of the error the client reports.  That a message
    kept is put on the named queue once, when the queue is declared, is assumed;
    so is that a connection the broker closes ends its consumers, and that it may
    close a channel or a consumer alone.

    ** Not modelled

    The ranking of the similarity index is a parameter of the knowledge service,
    and the AI provider one of the worker and of the knowledge service, which
    call it without the gateway.  Signals, the drain of the listener and log
    lines are I/O.  Of the database's rows the catalogue of Schema holds the
    workspaces only: a migration that validates rows is a statement that may be
    refused, and the constraints are modelled again with the tables they
    constrain.  Signing and parsing tokens belongs to a third-party module.  The
    layer wrappers of internal/memory/memory.go, internal/authfoundation and
    internal/principlemapping are used by no program; the audit sinks of
    publishing and orchestration carry no logic beyond their statements;
    internal/security/redact.go filters one log line with regular expressions.
    bcrypt and the JWT library are parameters. *)

From stdpp Require Export base tactics numbers option list gmap strings relations sorting.
From Stdlib Require Export ZArith Lia Bool.

#[global] Set Default Goal Selector "!".

Declare Scope austro_scope.
Delimit Scope austro_scope with austro.

(** ** Fallible computations

    A Go function [func (...) (A, error)] returns [Ok a] or [Err e]. *)

Inductive res (E A : Type) : Type :=
| Ok (a : A)
| Err (e : E).
Arguments Ok {E A} a.
Arguments Err {E A} e.

Definition res_bind {E A B : Type} (r : res E A) (f : A -> res E B) : res E B :=
  match r with Ok a => f a | Err e => Err e end.

Notation "'try!' x := r 'in' k" := (res_bind r (fun x => k))
  (at level 10, x name, r at level 100, k at level 200) : austro_scope.
Notation "'guard!' b 'else' e 'in' k" := (if b then k else Err e)
  (at level 10, b at level 100, e at level 100, k at level 200) : austro_scope.
Open Scope austro_scope.

Definition is_ok {E A : Type} (r : res E A) : bool :=
  match r with Ok _ => true | Err _ => false end.

#[export] Instance res_eq_dec {E A : Type} `{EqDecision E, EqDecision A} : EqDecision (res E A).
Proof. solve_decision. Defined.

Lemma res_bind_Ok {E A B : Type} (r : res E A) (f : A -> res E B) b :
  res_bind r f = Ok b <-> exists a, r = Ok a /\ f a = Ok b.
Proof. destruct r; simpl; naive_solver. Qed.

Lemma res_bind_Err {E A B : Type} (r : res E A) (f : A -> res E B) e :
  res_bind r f = Err e <-> r = Err e \/ exists a, r = Ok a /\ f a = Err e.
Proof. destruct r; simpl; naive_solver. Qed.

Lemma guard_Ok {E A : Type} (b : bool) (e : E) (k : res E A) a :
  (if b then k else Err e) = Ok a <-> b = true /\ k = Ok a.
Proof. destruct b; naive_solver. Qed.

(** ** State and failure

    A service method runs against mutable state: it returns its result together
    with the state it leaves behind, on the error paths too. *)

Definition act (S E A : Type) : Type := S -> res E A * S.

Definition act_ret {S E A : Type} (a : A) : act S E A := fun s => (Ok a, s).
Definition act_fail {S E A : Type} (e : E) : act S E A := fun s => (Err e, s).
Definition act_bind {S E A B : Type} (m : act S E A) (f : A -> act S E B) : act S E B :=
  fun s => match m s with
           | (Ok a, s') => f a s'
           | (Err e, s') => (Err e, s')
           end.
(** Run [m] and hand its outcome to the continuation, error included. *)
Definition act_try {S E A : Type} (m : act S E A) : act S E (res E A) :=
  fun s => let '(r, s') := m s in (Ok r, s').
Definition act_get {S E : Type} : act S E S := fun s => (Ok s, s).
Definition act_mod {S E : Type} (f : S -> S) : act S E unit := fun s => (Ok tt, f s).
Definition act_lift {S E A : Type} (r : res E A) : act S E A := fun s => (r, s).

Notation "x <~ m ;; k" := (act_bind m (fun x => k))
  (at level 100, m at next level, right associativity) : austro_scope.
Notation "m ;;! k" := (act_bind m (fun _ => k))
  (at level 100, right associativity) : austro_scope.
Notation "'require!' b 'else' e ';;' k" := (if b then k else act_fail e)
  (at level 100, b at level 99, e at level 99, k at level 100, right associativity) : austro_scope.

Lemma act_bind_assoc {S E A B C : Type} (m : act S E A) (f : A -> act S E B) (g : B -> act S E C) s :
  act_bind (act_bind m f) g s = act_bind m (fun a => act_bind (f a) g) s.
Proof. unfold act_bind. destruct (m s) as [[a|e] s']; done. Qed.

Lemma act_bind_Ok {S E A B : Type} (m : act S E A) (f : A -> act S E B) s b s'' :
  act_bind m f s = (Ok b, s'') <->
  exists a s', m s = (Ok a, s') /\ f a s' = (Ok b, s'').
Proof. unfold act_bind. destruct (m s) as [[a|e] s']; naive_solver. Qed.

(** Running an action whose outcome is known. *)
Lemma act_bind_run {S E A B : Type} (m : act S E A) (f : A -> act S E B) s a s' :
  m s = (Ok a, s') -> act_bind m f s = f a s'.
Proof. unfold act_bind. by intros ->. Qed.

Lemma act_bind_err {S E A B : Type} (m : act S E A) (f : A -> act S E B) s e s' :
  m s = (Err e, s') -> act_bind m f s = (Err e, s').
Proof. unfold act_bind. by intros ->. Qed.

Lemma act_try_run {S E A : Type} (m : act S E A) s r s' : m s = (r, s') -> act_try m s = (Ok r, s').
Proof. unfold act_try. by intros ->. Qed.

(** A property of states that every action of a program preserves. *)
Definition preserves {S E A : Type} (P : S -> S -> Prop) (m : act S E A) : Prop :=
  forall s, P s (snd (m s)).

Section preserves.
Context {S E : Type} (P : S -> S -> Prop) `{!PreOrder P}.

Lemma preserves_ret {A} (a : A) : preserves P (act_ret a : act S E A).
Proof. intros s. simpl. reflexivity. Qed.
Lemma preserves_fail {A} (e : E) : preserves P (act_fail e : act S E A).
Proof. intros s. simpl. reflexivity. Qed.
Lemma preserves_lift {A} (r : res E A) : preserves P (act_lift r : act S E A).
Proof. intros s. simpl. reflexivity. Qed.
Lemma preserves_get : preserves P (act_get : act S E S).
Proof. intros s. simpl. reflexivity. Qed.
Lemma preserves_bind {A B} (m : act S E A) (f : A -> act S E B) :
  preserves P m -> (forall a, preserves P (f a)) -> preserves P (act_bind m f).
Proof.
  intros Hm Hf s. specialize (Hm s). unfold act_bind.
  destruct (m s) as [[a|e] s']; simpl in *; [|done].
  etrans; [exact Hm | apply Hf].
Qed.
Lemma preserves_try {A} (m : act S E A) : preserves P m -> preserves P (act_try m).
Proof. intros Hm s. specialize (Hm s). unfold act_try. by destruct (m s). Qed.
Lemma preserves_if {A} (b : bool) (m1 m2 : act S E A) :
  preserves P m1 -> preserves P m2 -> preserves P (if b then m1 else m2).
Proof. by destruct b. Qed.
End preserves.

Create HintDb preserves.
#[export] Hint Resolve preserves_ret preserves_fail preserves_lift preserves_get
  preserves_bind preserves_try preserves_if : preserves.

(** *** Triples

    [spec P m Q X]: from [P], [m] ends in [Q] with a value, or in [X] with an
    error. *)

Definition spec {S E A : Type} (P : S -> Prop) (m : act S E A) (Q : A -> S -> Prop) (X : S -> Prop) : Prop :=
  forall s, P s -> match m s with (Ok a, s') => Q a s' | (Err _, s') => X s' end.

Section spec_rules.
Context {S E : Type}.
Implicit Types (P X : S -> Prop).

Lemma spec_weaken {A} P P' (m : act S E A) Q Q' X X' :
  spec P' m Q' X' -> (forall s, P s -> P' s) -> (forall a s, Q' a s -> Q a s) -> (forall s, X' s -> X s) ->
  spec P m Q X.
Proof. intros Hm HP HQ HX s Hs. specialize (Hm s (HP s Hs)). destruct (m s) as [[a|e] s']; auto. Qed.
Lemma spec_ret {A} P (a : A) (Q : A -> S -> Prop) X : (forall s, P s -> Q a s) -> spec P (act_ret a : act S E A) Q X.
Proof. intros HQ s Hs. by apply HQ. Qed.
Lemma spec_fail {A} P (e : E) (Q : A -> S -> Prop) X : (forall s, P s -> X s) -> spec P (act_fail e) Q X.
Proof. intros HX s Hs. by apply HX. Qed.
Lemma spec_bind {A B} P (m : act S E A) (f : A -> act S E B) Q R X :
  spec P m Q X -> (forall a, spec (Q a) (f a) R X) -> spec P (act_bind m f) R X.
Proof.
  intros Hm Hf s Hs. specialize (Hm s Hs). unfold act_bind.
  destruct (m s) as [[a|e] s']; [by apply Hf|done].
Qed.
Lemma spec_try {A} P (m : act S E A) Q X X' :
  spec P m Q X -> spec P (act_try m) (fun r s => match r with Ok a => Q a s | Err _ => X s end) X'.
Proof. intros Hm s Hs. specialize (Hm s Hs). unfold act_try. by destruct (m s) as [[a|e] s']. Qed.
Lemma spec_if {A} P (b : bool) (m1 m2 : act S E A) Q X :
  (b = true -> spec P m1 Q X) -> (b = false -> spec P m2 Q X) -> spec P (if b then m1 else m2) Q X.
Proof. intros H1 H2. destruct b; auto. Qed.
Lemma spec_mod P (f : S -> S) (Q : unit -> S -> Prop) X :
  (forall s, P s -> Q tt (f s)) -> spec P (act_mod f : act S E unit) Q X.
Proof. intros HQ s Hs. by apply HQ. Qed.
Lemma spec_get P (Q : S -> S -> Prop) X : (forall s, P s -> Q s s) -> spec P (act_get : act S E S) Q X.
Proof. intros HQ s Hs. by apply HQ. Qed.
(** A pure fact the precondition carries. *)
Lemma spec_pure {A} (F : Prop) P (m : act S E A) Q X :
  (F -> spec P m Q X) -> spec (fun s => F /\ P s) m Q X.
Proof. intros Hm s [HF Hs]. by apply Hm. Qed.
End spec_rules.

(** ** Transactions

    One store call is one serialisable transaction over the tables [T]: other
    processes may have committed anything before it, beginning or committing it
    may fail, and a commit that reports a failure may still have been applied. *)

Inductive Fault : Type :=
| NoFault
| FailBegin (msg : string)
| FailCommit (applied : bool) (msg : string).

Record TxTick (T : Type) : Type := mkTxTick {
  tt_now : Z;
  tt_others : T -> T;
  tt_fault : Fault
}.
Arguments mkTxTick {T}.
Arguments tt_now {T}.
Arguments tt_others {T}.
Arguments tt_fault {T}.

Definition run_tx {T E A : Type} (lift : string -> E) (t : TxTick T)
    (op : Z -> T -> res E (A * T)) (s0 : T) : res E A * T :=
  let s := tt_others t s0 in
  match tt_fault t with
  | FailBegin m => (Err (lift m), s)
  | fault =>
      match op (tt_now t) s with
      | Err e => (Err e, s)
      | Ok (a, s') =>
          match fault with
          | FailCommit applied m => (Err (lift m), if applied then s' else s)
          | _ => (Ok a, s')
          end
      end
  end.

(** What a transaction leaves is what the others left, or what it committed on top. *)
Lemma run_tx_cases {T E A : Type} (lift : string -> E) (t : TxTick T) (op : Z -> T -> res E (A * T)) s0 :
  (run_tx lift t op s0).2 = tt_others t s0 \/
  exists a s', op (tt_now t) (tt_others t s0) = Ok (a, s') /\ (run_tx lift t op s0).2 = s'.
Proof.
  unfold run_tx. destruct (tt_fault t) as [|m|ap m]; [|by left|].
  - destruct (op _ _) as [[a s']|e]; [right; by exists a, s'|by left].
  - destruct (op _ _) as [[a s']|e]; [|by left]. destruct ap; [right; by exists a, s'|by left].
Qed.

Lemma run_tx_Ok {T E A : Type} (lift : string -> E) (t : TxTick T) (op : Z -> T -> res E (A * T)) s0 a s' :
  run_tx lift t op s0 = (Ok a, s') -> op (tt_now t) (tt_others t s0) = Ok (a, s').
Proof. unfold run_tx. destruct (tt_fault t), (op _ _) as [[? ?]|]; naive_solver. Qed.

Lemma run_tx_rel {T E A : Type} (R : T -> T -> Prop) `{!PreOrder R} (lift : string -> E) (t : TxTick T)
    (op : Z -> T -> res E (A * T)) s0 :
  R s0 (tt_others t s0) ->
  (forall a s', op (tt_now t) (tt_others t s0) = Ok (a, s') -> R (tt_others t s0) s') ->
  R s0 (run_tx lift t op s0).2.
Proof.
  intros H1 H2. destruct (run_tx_cases lift t op s0) as [->|(a & s' & Hop & ->)]; [done|].
  etrans; [done|by eapply H2].
Qed.

(** ** Machine integers

    Go's [int64], [int] and [time.Duration] wrap around modulo [2^64]. *)

Definition wrap64 (z : Z) : Z := (z + 2 ^ 63) mod 2 ^ 64 - 2 ^ 63.
Definition in_int64 (z : Z) : Prop := (- 2 ^ 63 <= z < 2 ^ 63)%Z.

Lemma wrap64_id z : in_int64 z -> wrap64 z = z.
Proof. unfold in_int64, wrap64. intros H. rewrite Z.mod_small; lia. Qed.

Lemma wrap64_range z : in_int64 (wrap64 z).
Proof. unfold in_int64, wrap64. pose proof (Z.mod_pos_bound (z + 2 ^ 63) (2 ^ 64)). lia. Qed.

(** Go's [/] on signed integers truncates towards zero. *)
Definition go_div (a b : Z) : Z := Z.quot a b.

(** ** Identifiers, instants and durations

    A [uuid.UUID] is its 128-bit value and [uuid.Nil] is zero; instants and
    durations are counted in nanoseconds. *)

Abbreviation uuid := N (only parsing).
Definition uuid_Nil : uuid := 0%N.
Abbreviation time := Z (only parsing).
Abbreviation duration := Z (only parsing).
Definition Second : duration := 1000000000%Z.
Definition Minute : duration := (60 * Second)%Z.

(** ** strings.TrimSpace

    The UTF-8 encodings of the runes for which [unicode.IsSpace] holds, as byte
    sequences; [TrimSpace] strips them from both ends. *)

Definition bytes_of (l : list nat) : list Ascii.ascii := map Ascii.ascii_of_nat l.

Definition space_runes : list (list Ascii.ascii) :=
  map bytes_of
    ([[9]; [10]; [11]; [12]; [13]; [32]; [194; 133]; [194; 160]; [225; 154; 128];
      [226; 128; 168]; [226; 128; 169]; [226; 128; 175]; [226; 129; 159]; [227; 128; 128]]
     ++ map (fun i => [226; 128; 128 + i]) (seq 0 11))%nat.

Fixpoint strip_prefix (p l : list Ascii.ascii) : option (list Ascii.ascii) :=
  match p, l with
  | [], _ => Some l
  | a :: p', b :: l' => if Ascii.eqb a b then strip_prefix p' l' else None
  | _ :: _, [] => None
  end.

Fixpoint strip_any (ps : list (list Ascii.ascii)) (l : list Ascii.ascii) : option (list Ascii.ascii) :=
  match ps with
  | [] => None
  | p :: ps' => match strip_prefix p l with Some r => Some r | None => strip_any ps' l end
  end.

Fixpoint trim_with (fuel : nat) (ps : list (list Ascii.ascii)) (l : list Ascii.ascii) : list Ascii.ascii :=
  match fuel with
  | O => l
  | S fuel' => match strip_any ps l with Some r => trim_with fuel' ps r | None => l end
  end.

Definition trim_bytes (l : list Ascii.ascii) : list Ascii.ascii :=
  let l1 := trim_with (length l) space_runes l in
  rev (trim_with (length l1) (map (@rev _) space_runes) (rev l1)).

Definition TrimSpace (s : string) : string :=
  String.string_of_list_ascii (trim_bytes (String.list_ascii_of_string s)).

Definition blank (s : string) : bool := String.eqb (TrimSpace s) "".

(** Byte slicing [s[:n]]. *)
Definition take_bytes (n : nat) (s : string) : string := String.substring 0 n s.

Lemma take_bytes_length n s : (String.length (take_bytes n s) <= n)%nat.
Proof.
  unfold take_bytes. revert n. induction s as [|a s IH]; intros [|n]; simpl; try lia.
  specialize (IH n). lia.
Qed.

Example trim_ascii : TrimSpace "  a b	 " = "a b"%string.
Proof. reflexivity. Qed.
Example blank_spaces : blank "  	" = true.
Proof. reflexivity. Qed.

(** ** Filtered and sorted lists *)

Lemma filter_all {A} (P : A -> Prop) `{forall x, Decision (P x)} l : Forall P l -> filter P l = l.
Proof. induction 1 as [|x l Hx _ IH]; [done|]. rewrite filter_cons_True by done. by rewrite IH. Qed.

Lemma filter_none {A} (P : A -> Prop) `{forall x, Decision (P x)} l : Forall (fun x => ~ P x) l -> filter P l = [].
Proof. induction 1 as [|x l Hx _ IH]; [done|]. by rewrite filter_cons_False. Qed.

Lemma length_filter_le {A} (P Q : A -> Prop) `{forall x, Decision (P x), forall x, Decision (Q x)} l :
  (forall x, P x -> Q x) -> length (filter P l) <= length (filter Q l).
Proof.
  intros HPQ. replace (filter P l) with (filter P (filter Q l)) by (rewrite list_filter_filter; apply list_filter_iff; naive_solver).
  apply length_filter.
Qed.

Lemma StronglySorted_filter {A} (R : A -> A -> Prop) (P : A -> Prop) `{forall x, Decision (P x)} l :
  StronglySorted R l -> StronglySorted R (filter P l).
Proof.
  induction 1 as [|x l Hl IH Hx]; [constructor|]. rewrite filter_cons. case_decide; [|done].
  constructor; [done|]. rewrite Forall_forall in Hx |- *. intros y [_ Hy]%list_elem_of_filter. by apply Hx.
Qed.

Lemma StronglySorted_reverse {A} (R : A -> A -> Prop) l : StronglySorted R l -> StronglySorted (flip R) (reverse l).
Proof.
  induction 1 as [|x l Hl IH Hx]; [constructor|]. rewrite reverse_cons. apply StronglySorted_app.
  split_and!; [|done|by apply StronglySorted_cons; split; constructor].
  intros y z Hy ->%list_elem_of_singleton. rewrite elem_of_reverse in Hy. rewrite Forall_forall in Hx. exact (Hx y Hy).
Qed.

(** ** Shared tactics *)

(** Case analysis on the innermost scrutinee of the goal. *)
Ltac case_goal :=
  match goal with
  | |- context [match ?x with _ => _ end] =>
      lazymatch x with
      | context [match _ with _ => _ end] => fail
      | _ => destruct x eqn:?
      end
  end.

(** Turn boolean tests of the code into the propositions they decide. *)
Ltac bool_prop :=
  repeat match goal with
  | H : (_ && _) = true |- _ => apply andb_true_iff in H; destruct H
  | H : (_ || _) = false |- _ => apply orb_false_iff in H; destruct H
  | H : negb _ = true |- _ => apply negb_true_iff in H
  | H : negb _ = false |- _ => apply negb_false_iff in H
  | H : bool_decide _ = true |- _ => apply bool_decide_eq_true in H
  | H : bool_decide _ = false |- _ => apply bool_decide_eq_false in H
  | H : (_ <? _)%Z = true |- _ => apply Z.ltb_lt in H
  | H : (_ <? _)%Z = false |- _ => apply Z.ltb_ge in H
  | H : (_ <=? _)%Z = true |- _ => apply Z.leb_le in H
  | H : (_ <=? _)%Z = false |- _ => apply Z.leb_gt in H
  | H : (_ =? _)%Z = true |- _ => apply Z.eqb_eq in H
  | H : (_ =? _)%Z = false |- _ => apply Z.eqb_neq in H
  | H : (_ =? _)%N = true |- _ => apply N.eqb_eq in H
  | H : (_ =? _)%N = false |- _ => apply N.eqb_neq in H
  | H : String.eqb _ _ = true |- _ => apply String.eqb_eq in H
  | H : String.eqb _ _ = false |- _ => apply String.eqb_neq in H
  end.
