(* ===== verification/GoLib.v ===== *)
(** * The parts of Go's standard library the program computes with

    SHA-256 and hexadecimal encoding (crypto/sha256, encoding/hex), decimal
    integers (strconv) and the string encoding of encoding/json. *)

From S2P Require Import Prelude.
From stdpp Require Export pretty.

(** ** Bytes *)

Definition byte_of (a : Ascii.ascii) : Z := Z.of_N (Ascii.N_of_ascii a).
Definition char_of (z : Z) : Ascii.ascii := Ascii.ascii_of_N (Z.to_N z).
Definition bytes (s : string) : list Z := map byte_of (String.list_ascii_of_string s).
Definition of_bytes (l : list Z) : string := String.string_of_list_ascii (map char_of l).

(** ** encoding/hex *)

Definition hex_digit (n : Z) : Z := if (n <? 10)%Z then (48 + n)%Z else (87 + n)%Z.
Definition hex_bytes (l : list Z) : list Z :=
  flat_map (fun b => [hex_digit (Z.shiftr b 4); hex_digit (Z.land b 15)]) l.
Definition hex_EncodeToString (l : list Z) : string := of_bytes (hex_bytes l).

(** ** crypto/sha256 *)

Definition w32 (z : Z) : Z := Z.land z 4294967295.
Definition rotr (n x : Z) : Z := Z.lor (Z.shiftr x n) (w32 (Z.shiftl x (32 - n))).

(** The constants of FIPS 180-4: the first 32 bits of the fractional parts of
    the cube roots and of the square roots of the first primes. *)
Definition is_prime (n : nat) : bool := forallb (fun d => negb (n mod d =? 0)) (seq 2 (n - 2)).
Definition primes (below : nat) : list Z :=
  map Z.of_nat (List.filter is_prime (seq 2 (below - 2))).

(** The integer cube root, one bit at a time. *)
Fixpoint cube_root (bits : nat) (acc n : Z) : Z :=
  match bits with
  | O => acc
  | S b =>
      let acc' := (acc + 2 ^ Z.of_nat b)%Z in
      cube_root b (if (acc' ^ 3 <=? n)%Z then acc' else acc) n
  end.

Definition sha_k : list Z :=
  Eval vm_compute in map (fun p => w32 (cube_root 36 0 (p * 2 ^ 96))) (primes 312).
Definition sha_init : list Z :=
  Eval vm_compute in map (fun p => w32 (Z.sqrt (p * 2 ^ 64))) (primes 20).

Definition be_bytes (n : nat) (z : Z) : list Z :=
  map (fun i => Z.land (Z.shiftr z (8 * Z.of_nat (n - 1 - i))) 255) (seq 0 n).

Definition sha_pad (m : list Z) : list Z :=
  let n := Z.of_nat (length m) in
  m ++ [128%Z] ++ replicate (Z.to_nat ((55 - n) mod 64)) 0%Z ++ be_bytes 8 (8 * n).

Fixpoint chunks (fuel k : nat) (l : list Z) : list (list Z) :=
  match fuel, l with
  | O, _ | _, [] => []
  | S fuel', _ => take k l :: chunks fuel' k (drop k l)
  end.

Definition be_word (l : list Z) : Z := fold_left (fun a b => (a * 256 + b)%Z) l 0%Z.

(** The message schedule, newest word first. *)
Fixpoint sha_extend (n : nat) (w : list Z) : list Z :=
  match n with
  | O => w
  | S n' =>
      let a := nth 14 w 0%Z in let b := nth 1 w 0%Z in
      let s0 := Z.lxor (Z.lxor (rotr 7 a) (rotr 18 a)) (Z.shiftr a 3) in
      let s1 := Z.lxor (Z.lxor (rotr 17 b) (rotr 19 b)) (Z.shiftr b 10) in
      sha_extend n' (w32 (nth 15 w 0 + s0 + nth 6 w 0 + s1)%Z :: w)
  end.

Definition sha_round (st : list Z) (kw : Z * Z) : list Z :=
  match st with
  | [a; b; c; d; e; f; g; h] =>
      let s1 := Z.lxor (Z.lxor (rotr 6 e) (rotr 11 e)) (rotr 25 e) in
      let ch := Z.lxor (Z.land e f) (Z.land (Z.lxor e 4294967295) g) in
      let t1 := (h + s1 + ch + kw.1 + kw.2)%Z in
      let s0 := Z.lxor (Z.lxor (rotr 2 a) (rotr 13 a)) (rotr 22 a) in
      let maj := Z.lxor (Z.lxor (Z.land a b) (Z.land a c)) (Z.land b c) in
      [w32 (t1 + s0 + maj); a; b; c; w32 (d + t1); e; f; g]
  | _ => st
  end.

Definition sha_block (st : list Z) (block : list Z) : list Z :=
  let w := rev (sha_extend 48 (rev (map be_word (chunks 16 4 block)))) in
  zip_with (fun x y => w32 (x + y)) st (fold_left sha_round (zip sha_k w) st).

Definition sha256_Sum256 (m : list Z) : list Z :=
  let p := sha_pad m in
  flat_map (be_bytes 4) (fold_left sha_block (chunks (length p) 64 p) sha_init).

(** [hex.EncodeToString(sha256.Sum256(...))] *)
Definition sha256_hex (s : string) : string := hex_EncodeToString (sha256_Sum256 (bytes s)).

Example sha256_abc :
  sha256_hex "abc" = "ba7816bf8f01cfea414140de5dae2223b00361a396177a9cb410ff61f20015ad".
Proof. vm_compute. reflexivity. Qed.
Example sha256_empty :
  sha256_hex "" = "e3b0c44298fc1c149afbf4c8996fb92427ae41e4649b934ca495991b7852b855".
Proof. vm_compute. reflexivity. Qed.
Example sha256_two_blocks :
  sha256_hex "abcdbcdecdefdefgefghfghighijhijkijkljklmklmnlmnomnopnopq" =
  "248d6a61d20638b8e5c026930c3e6039a33ce45964ff2167f6ecedd419db06c1".
Proof. vm_compute. reflexivity. Qed.

(** ** strconv *)

Definition strconv_Itoa (z : Z) : string := pretty z.

(** ** encoding/json: a string literal, HTML escaping on *)

Definition json_safe (b : Z) : bool :=
  (32 <=? b)%Z && (b <? 128)%Z && negb (existsb (Z.eqb b) [34; 92; 60; 62; 38]%Z).

Definition json_escape (b : Z) : list Z :=
  if (b =? 34)%Z || (b =? 92)%Z then [92%Z; b]
  else if (b =? 8)%Z then [92; 98]%Z
  else if (b =? 12)%Z then [92; 102]%Z
  else if (b =? 10)%Z then [92; 110]%Z
  else if (b =? 13)%Z then [92; 114]%Z
  else if (b =? 9)%Z then [92; 116]%Z
  else [92; 117; 48; 48]%Z ++ hex_bytes [b].

Definition cont (b : Z) : bool := (128 <=? b)%Z && (b <=? 191)%Z.

(** [utf8.DecodeRune]: the length of the well-formed sequence at the head. *)
Definition utf8_len (l : list Z) : option nat :=
  match l with
  | b0 :: l' =>
      if (b0 <? 128)%Z then Some 1
      else if (194 <=? b0)%Z && (b0 <=? 223)%Z then
        match l' with b1 :: _ => if cont b1 then Some 2 else None | _ => None end
      else if (224 <=? b0)%Z && (b0 <=? 239)%Z then
        match l' with
        | b1 :: b2 :: _ =>
            let lo := if (b0 =? 224)%Z then 160%Z else 128%Z in
            let hi := if (b0 =? 237)%Z then 159%Z else 191%Z in
            if (lo <=? b1)%Z && (b1 <=? hi)%Z && cont b2 then Some 3 else None
        | _ => None
        end
      else if (240 <=? b0)%Z && (b0 <=? 244)%Z then
        match l' with
        | b1 :: b2 :: b3 :: _ =>
            let lo := if (b0 =? 240)%Z then 144%Z else 128%Z in
            let hi := if (b0 =? 244)%Z then 143%Z else 191%Z in
            if (lo <=? b1)%Z && (b1 <=? hi)%Z && cont b2 && cont b3 then Some 4 else None
        | _ => None
        end
      else None
  | [] => None
  end.

(** PostgreSQL text holds well-formed UTF-8 without the NUL byte. *)
Fixpoint text_ok_bytes (fuel : nat) (l : list Z) : bool :=
  match fuel, l with
  | _, [] => true
  | O, _ => false
  | S fuel', b :: _ =>
      negb (b =? 0)%Z && match utf8_len l with Some n => text_ok_bytes fuel' (drop n l) | None => false end
  end.
Definition text_ok (s : string) : bool := text_ok_bytes (length (bytes s)) (bytes s).
Definition otext_ok (o : option string) : bool := match o with Some s => text_ok s | None => true end.

Fixpoint json_chars (fuel : nat) (l : list Z) : list Z :=
  match fuel, l with
  | O, _ | _, [] => []
  | S fuel', b :: l' =>
      if (b <? 128)%Z then (if json_safe b then [b] else json_escape b) ++ json_chars fuel' l'
      else match utf8_len l with
           | None => bytes "\ufffd" ++ json_chars fuel' l'
           | Some n =>
               (if bool_decide (take 3 l = [226; 128; 168]%Z) then bytes "\u2028"
                else if bool_decide (take 3 l = [226; 128; 169]%Z) then bytes "\u2029"
                else take n l) ++ json_chars fuel' (drop n l)
           end
  end.

Definition quote : string := String.String (char_of 34) "".

Definition json_string (s : string) : string :=
  quote +:+ of_bytes (json_chars (length (bytes s)) (bytes s)) +:+ quote.

Definition json_key (k : string) : string := quote +:+ k +:+ quote +:+ ":".

Example json_string_plain : json_string "a b" = quote +:+ "a b" +:+ quote.
Proof. reflexivity. Qed.
Example json_string_html : json_string "<" = quote +:+ "\u003c" +:+ quote.
Proof. reflexivity. Qed.

(** ** Facts *)

Lemma char_of_byte_of a : char_of (byte_of a) = a.
Proof. unfold char_of, byte_of. by rewrite N2Z.id, Ascii.ascii_N_embedding. Qed.

Lemma of_bytes_bytes s : of_bytes (bytes s) = s.
Proof.
  unfold of_bytes, bytes. rewrite map_map, (map_ext _ id) by apply char_of_byte_of.
  by rewrite map_id, String.string_of_list_ascii_of_string.
Qed.

(** Text the JSON encoder leaves verbatim. *)
Definition json_plain (s : string) : Prop := Forall (fun b => json_safe b = true) (bytes s).

Lemma json_chars_plain l : Forall (fun b => json_safe b = true) l -> json_chars (length l) l = l.
Proof.
  induction 1 as [|b l Hb _ IH]; [done|]. simpl. unfold json_safe in Hb. rewrite IH.
  assert (b < 128)%Z as Hlt by (bool_prop; lia). rewrite (proj2 (Z.ltb_lt _ _) Hlt).
  unfold json_safe. by rewrite Hb.
Qed.

Lemma json_string_plain_id s : json_plain s -> json_string s = quote +:+ s +:+ quote.
Proof. intros H. unfold json_string. by rewrite json_chars_plain, of_bytes_bytes. Qed.

(** ** github.com/google/uuid

    The module is not part of the repository; the code relies on its canonical
    text form being injective and made of characters JSON leaves alone. *)

Class UuidText : Type := uuid_String : uuid -> string.

Class UuidTextLaws `{UuidText} : Prop := {
  uuid_String_inj :: Inj (=) (=) uuid_String;
  uuid_String_plain u : json_plain (uuid_String u)
}.

(** A text form for concrete runs: as many zeros as the value. *)
Definition unary_uuid : UuidText := fun u => String.string_of_list_ascii (replicate (N.to_nat u) (char_of 48)).

Lemma bytes_of_list l : bytes (String.string_of_list_ascii l) = map byte_of l.
Proof. unfold bytes. by rewrite String.list_ascii_of_string_of_list_ascii. Qed.

Lemma unary_uuid_laws : @UuidTextLaws unary_uuid.
Proof.
  split.
  - intros u v Huv. unfold uuid_String, unary_uuid in Huv.
    apply (f_equal String.list_ascii_of_string) in Huv.
    rewrite !String.list_ascii_of_string_of_list_ascii in Huv.
    apply (f_equal length) in Huv. rewrite !length_replicate in Huv. lia.
  - intros u. unfold json_plain, uuid_String, unary_uuid. rewrite bytes_of_list, Forall_map.
    by apply Forall_replicate.
Qed.

(** [uuid.Parse] of the uuid module, which reads its own text form back. *)
Class UuidParse : Type := uuid_Parse : string -> option uuid.
Class UuidParseLaws `{UuidText, UuidParse} : Prop :=
  uuid_Parse_String u : uuid_Parse (uuid_String u) = Some u.

(** Reading the unary text back. *)
Definition unary_parse : UuidParse := fun s => Some (N.of_nat (String.length s)).

Lemma unary_parse_laws : @UuidParseLaws unary_uuid unary_parse.
Proof.
  intros u. unfold uuid_Parse, unary_parse, uuid_String, unary_uuid. f_equal.
  assert (forall n, String.length (String.string_of_list_ascii (replicate n (char_of 48))) = n) as ->.
  { intros n. induction n as [|n IH]; simpl; [done|by rewrite IH]. }
  apply N2Nat.id.
Qed.

(** ** trim of PostgreSQL

    It removes spaces only; nothing is left of a text of spaces. *)
Definition only_spaces (s : string) : bool := forallb (fun b => (b =? 32)%Z) (bytes s).

(** ** TIMESTAMP columns *)

(** What a TIMESTAMP column keeps of an instant: its microseconds. *)
Class StoredTime : Type := stored_time : time -> time.
Class StoredTimeLaws `{StoredTime} : Prop := stored_time_idem t : stored_time (stored_time t) = stored_time t.

(** Microseconds. *)
Definition microseconds : StoredTime := fun t => (t / 1000 * 1000)%Z.
Lemma microseconds_laws : @StoredTimeLaws microseconds.
Proof. intros t. unfold stored_time, microseconds. by rewrite Z.div_mul. Qed.

(** ** Reading off delimited text *)

Lemma bytes_app s t : bytes (s +:+ t) = bytes s ++ bytes t.
Proof. induction s as [|a s IH]; [done|]. unfold bytes in *. simpl. f_equal. apply IH. Qed.

Lemma bytes_inj s t : bytes s = bytes t -> s = t.
Proof. intros H. by rewrite <-(of_bytes_bytes s), <-(of_bytes_bytes t), H. Qed.

Lemma split_at_sep (sep : Z) (a b r r' : list Z) :
  sep ∉ a -> sep ∉ b -> a ++ sep :: r = b ++ sep :: r' -> a = b /\ r = r'.
Proof.
  revert b. induction a as [|x a IH]; intros [|y b] Ha Hb Heq; simpl in *; simplify_eq; try done.
  - by rewrite elem_of_cons in Hb; destruct Hb; left.
  - by rewrite elem_of_cons in Ha; destruct Ha; left.
  - destruct (IH b) as [-> ->]; set_solver.
Qed.

Lemma json_plain_no_quote s : json_plain s -> 34%Z ∉ bytes s.
Proof. unfold json_plain. intros H Hin. rewrite Forall_forall in H. by specialize (H _ Hin). Qed.

Lemma hex_digit_inj a b : (0 <= a < 16)%Z -> (0 <= b < 16)%Z -> hex_digit a = hex_digit b -> a = b.
Proof. unfold hex_digit. intros. destruct (Z.ltb_spec a 10), (Z.ltb_spec b 10); lia. Qed.

Definition is_byte (b : Z) : Prop := (0 <= b < 256)%Z.

Lemma nibbles b : is_byte b -> (b = Z.shiftr b 4 * 16 + Z.land b 15 /\
  0 <= Z.shiftr b 4 < 16 /\ 0 <= Z.land b 15 < 16)%Z.
Proof.
  unfold is_byte. intros Hb. change 15%Z with (Z.ones 4). rewrite Z.land_ones, Z.shiftr_div_pow2 by lia.
  change (2 ^ 4)%Z with 16%Z. pose proof (Z.div_mod b 16). pose proof (Z.mod_pos_bound b 16). lia.
Qed.

Lemma hex_bytes_inj l l' : Forall is_byte l -> Forall is_byte l' -> hex_bytes l = hex_bytes l' -> l = l'.
Proof.
  intros Hl. revert l'. induction Hl as [|x l Hx _ IH]; intros [|y l'] Hl' Heq; simpl in Heq; try done.
  apply Forall_cons in Hl' as [Hy Hl']. injection Heq as H1 H2 H3.
  destruct (nibbles x Hx) as (Ex & ? & ?), (nibbles y Hy) as (Ey & ? & ?).
  apply hex_digit_inj in H1; [|done..]. apply hex_digit_inj in H2; [|done..].
  f_equal; [|by apply IH]. rewrite Ex, Ey. congruence.
Qed.

Lemma byte_of_char b : is_byte b -> byte_of (char_of b) = b.
Proof.
  unfold is_byte, byte_of, char_of. intros Hb. rewrite Ascii.N_ascii_embedding by lia. lia.
Qed.

Lemma bytes_of_bytes l : Forall is_byte l -> bytes (of_bytes l) = l.
Proof.
  intros Hl. unfold of_bytes. rewrite bytes_of_list, map_map.
  induction Hl as [|b l Hb _ IH]; [done|]. simpl. by rewrite IH, byte_of_char.
Qed.

Lemma hex_digit_byte n : (0 <= n < 16)%Z -> is_byte (hex_digit n).
Proof. unfold hex_digit, is_byte. intros. destruct (Z.ltb_spec n 10); lia. Qed.

Lemma hex_bytes_byte l : Forall is_byte l -> Forall is_byte (hex_bytes l).
Proof.
  induction 1 as [|b l Hb _ IH]; [done|]. destruct (nibbles b Hb) as (_ & ? & ?). simpl.
  repeat constructor; try done; by apply hex_digit_byte.
Qed.

Lemma hex_EncodeToString_inj l l' :
  Forall is_byte l -> Forall is_byte l' -> hex_EncodeToString l = hex_EncodeToString l' -> l = l'.
Proof.
  intros Hl Hl' Heq%(f_equal bytes). unfold hex_EncodeToString in Heq.
  rewrite !bytes_of_bytes in Heq by (by apply hex_bytes_byte). by apply hex_bytes_inj.
Qed.

Lemma be_bytes_byte n z : Forall is_byte (be_bytes n z).
Proof.
  unfold be_bytes. rewrite Forall_map. apply Forall_true. intros i. unfold compose, is_byte.
  change 255%Z with (Z.ones 8). rewrite Z.land_ones by lia. apply Z.mod_pos_bound. lia.
Qed.

Lemma sha256_Sum256_byte m : Forall is_byte (sha256_Sum256 m).
Proof.
  unfold sha256_Sum256. set (st := fold_left _ _ _). clearbody st.
  induction st as [|z st IH]; [done|].
  apply (proj2 (Forall_app _ (be_bytes 4 z) _)). split; [apply be_bytes_byte|exact IH].
Qed.

(** A digest has 32 bytes. *)
Lemma sha_round_length st kw : length st = 8 -> length (sha_round st kw) = 8.
Proof. by destruct st as [|? [|? [|? [|? [|? [|? [|? [|? [|]]]]]]]]]. Qed.

Lemma sha_block_length st block : length st = 8 -> length (sha_block st block) = 8.
Proof.
  intros Hst. unfold sha_block. rewrite length_zip_with.
  generalize (zip sha_k (rev (sha_extend 48 (rev (map be_word (chunks 16 4 block)))))). intros l.
  enough (length (fold_left sha_round l st) = 8) by lia. revert st Hst.
  induction l as [|kw l IH]; intros st Hst; [done|]. by apply IH, sha_round_length.
Qed.

Lemma sha256_length m : length (sha256_Sum256 m) = 32.
Proof.
  unfold sha256_Sum256. generalize (chunks (length (sha_pad m)) 64 (sha_pad m)). intros l.
  assert (length (fold_left sha_block l sha_init) = 8) as Hst.
  { assert (length sha_init = 8) as H0 by done. revert H0. generalize sha_init.
    induction l as [|b l IH]; intros st Hst; [done|]. by apply IH, sha_block_length. }
  destruct (fold_left sha_block l sha_init) as [|? [|? [|? [|? [|? [|? [|? [|? [|]]]]]]]]]; done.
Qed.

Lemma sha256_hex_nonempty s : sha256_hex s <> ""%string.
Proof.
  intros H%(f_equal bytes). unfold sha256_hex, hex_EncodeToString in H.
  rewrite bytes_of_bytes in H by apply hex_bytes_byte, sha256_Sum256_byte.
  pose proof (sha256_length (bytes s)) as Hl. by destruct (sha256_Sum256 (bytes s)).
Qed.

(** No two of the messages have one digest: the reach of a statement that
    rests on SHA-256's resistance to collisions. *)
Definition collision_free (ms : list (list Z)) : Prop :=
  forall m m', m ∈ ms -> m' ∈ ms -> sha256_Sum256 m = sha256_Sum256 m' -> m = m'.

Lemma collision_free_sub ms ms' : ms ⊆ ms' -> collision_free ms' -> collision_free ms.
Proof. intros Hs Hc m m' Hm Hm'. apply Hc; by apply Hs. Qed.

Lemma collision_free_pair m m' :
  (sha256_Sum256 m = sha256_Sum256 m' -> m = m') -> collision_free [m; m'].
Proof. intros Hc x y. rewrite !elem_of_cons, !elem_of_nil. naive_solver. Qed.

Definition collision_freeb (ms : list (list Z)) : bool :=
  forallb (fun m => forallb (fun m' =>
    implb (bool_decide (sha256_Sum256 m = sha256_Sum256 m')) (bool_decide (m = m'))) ms) ms.

Lemma collision_freeb_sound ms : collision_freeb ms = true -> collision_free ms.
Proof.
  unfold collision_freeb. rewrite forallb_forall. intros Hc m m' Hm%list_elem_of_In Hm'%list_elem_of_In Heq.
  specialize (Hc m Hm). rewrite forallb_forall in Hc. specialize (Hc m' Hm').
  rewrite (bool_decide_eq_true_2 _ Heq) in Hc. by apply bool_decide_eq_true in Hc.
Qed.

Lemma sha256_hex_binds s t :
  collision_free [bytes s; bytes t] -> sha256_hex s = sha256_hex t -> s = t.
Proof.
  intros Hc H%hex_EncodeToString_inj; [|apply sha256_Sum256_byte..].
  apply bytes_inj, Hc; [left|right; left|done].
Qed.

(** [UnixNano] of an instant out of its range wraps around. *)
Definition UnixNano (t : time) : Z := wrap64 t.
