(* ===== verification/GoText.v ===== *)
(** * Text

    [strconv.ParseInt] (and [strconv.Atoi]), and that it reads back what
    [strconv.FormatInt] writes, cut off by a separator too; and the functions of
    Go's [strings] the policies of the program are written with: [HasPrefix],
    [Index], [Contains], [ContainsAny], [ToLower], [Split], [Join] and
    [EqualFold]; and net's [SplitHostPort]. *)

From S2P Require Import Prelude GoLib.

(** ** strconv.ParseInt(s, 10, 64) *)

Definition is_digit (b : Z) : bool := (48 <=? b)%Z && (b <=? 57)%Z.

Fixpoint parse_digits (l : list Z) (acc : Z) : option Z :=
  match l with
  | [] => Some acc
  | b :: l' => if is_digit b then parse_digits l' (acc * 10 + (b - 48))%Z else None
  end.

Definition parse_unsigned (l : list Z) : option Z := match l with [] => None | _ => parse_digits l 0 end.

Definition ParseInt (s : string) : option Z :=
  match (match bytes s with
         | 45%Z :: l => option_map Z.opp (parse_unsigned l)
         | 43%Z :: l => parse_unsigned l
         | l => parse_unsigned l
         end) with
  | Some z => if (- 2 ^ 63 <=? z)%Z && (z <? 2 ^ 63)%Z then Some z else None
  | None => None
  end.

Example ParseInt_negative : ParseInt "-120" = Some (-120)%Z. Proof. reflexivity. Qed.
Example ParseInt_junk : ParseInt "12x" = None. Proof. reflexivity. Qed.
Example ParseInt_range : ParseInt "9223372036854775808" = None. Proof. reflexivity. Qed.

(** ** Reading back *)

Lemma pretty_N_char_byte d : (d < 10)%N -> byte_of (pretty_N_char d) = (48 + Z.of_N d)%Z.
Proof. intros Hd. do 10 (destruct d as [|d] using N.peano_ind; [done|clear IHd]; rewrite <-?N.add_1_l in * ); lia. Qed.

Lemma parse_digits_pretty x s :
  parse_digits (bytes (pretty_N_go x s)) 0 = parse_digits (bytes s) (Z.of_N x).
Proof.
  revert s. induction (N.lt_wf_0 x) as [x _ IH]; intros s.
  assert (x = 0 \/ 0 < x)%N as [->|Hx] by lia; [by rewrite pretty_N_go_0|].
  rewrite pretty_N_go_step by done. rewrite IH by (by apply N.div_lt).
  pose proof (N.mod_lt x 10 ltac:(lia)) as Hm. pose proof (N.div_mod x 10 ltac:(lia)) as Hx10.
  revert Hm Hx10. generalize (x `mod` 10)%N, (x `div` 10)%N. intros d q Hd ->.
  unfold bytes. cbn [String.list_ascii_of_string map parse_digits]. rewrite pretty_N_char_byte by done.
  unfold is_digit. replace (48 <=? _)%Z with true by lia. replace (_ <=? 57)%Z with true by lia.
  cbn [andb]. f_equal. lia.
Qed.

(** Decimal digits, at least one. *)
Definition decimal (l : list Z) : Prop := l <> [] /\ Forall (fun b => (48 <= b <= 57)%Z) l.

Lemma pretty_N_go_decimal x s :
  Forall (fun b => (48 <= b <= 57)%Z) (bytes s) -> (0 < x)%N \/ s <> ""%string -> decimal (bytes (pretty_N_go x s)).
Proof.
  revert s. induction (N.lt_wf_0 x) as [x _ IH]; intros s Hs Hne.
  assert (x = 0 \/ 0 < x)%N as [->|Hx] by lia.
  { rewrite pretty_N_go_0. destruct Hne as [?|Hne]; [lia|]. split; [|done]. by destruct s. }
  rewrite pretty_N_go_step by done. apply IH; [by apply N.div_lt| |by right].
  pose proof (N.mod_lt x 10 ltac:(lia)) as Hm. revert Hm. generalize (x `mod` 10)%N. intros d Hd.
  unfold bytes in *. simpl. constructor; [|done]. rewrite pretty_N_char_byte by done. lia.
Qed.

Lemma pretty_pos p :
  decimal (bytes (pretty (N.pos p))) /\ parse_unsigned (bytes (pretty (N.pos p))) = Some (Z.pos p).
Proof.
  change (pretty (N.pos p)) with (pretty_N_go (N.pos p) "").
  pose proof (pretty_N_go_decimal (N.pos p) "" ltac:(constructor) ltac:(left; lia)) as Hd. split; [done|].
  pose proof (parse_digits_pretty (N.pos p) "") as Hp. destruct Hd as [Hne _].
  unfold parse_unsigned. destruct (bytes (pretty_N_go (N.pos p) "")); [done|]. by rewrite Hp.
Qed.

Lemma ParseInt_Itoa z : in_int64 z -> ParseInt (strconv_Itoa z) = Some z.
Proof.
  intros [Hlo Hhi]. unfold ParseInt, strconv_Itoa.
  assert ((match bytes (pretty z) with
           | 45%Z :: l => option_map Z.opp (parse_unsigned l)
           | 43%Z :: l => parse_unsigned l
           | l => parse_unsigned l
           end) = Some z) as ->.
  { destruct z as [|p|p]; [done| |].
    - change (pretty (Z.pos p)) with (pretty (N.pos p)). destruct (pretty_pos p) as [[Hne Hd] Hp].
      destruct (bytes (pretty (N.pos p))) as [|b l]; [done|]. apply Forall_cons in Hd as [Hb _].
      rewrite <-Hp. destruct b as [|b|b]; [lia| |lia]. do 6 (destruct b as [b|b|]; try done; try lia).
    - change (pretty (Z.neg p)) with ("-" +:+ pretty (N.pos p)). rewrite bytes_app. simpl.
      destruct (pretty_pos p) as [_ ->]. done. }
  by rewrite (proj2 (Z.leb_le _ _)), (proj2 (Z.ltb_lt _ _)) by lia.
Qed.

(** ** Text cut at a separator, [strings.Cut] *)

Fixpoint cut_bytes (sep : Z) (l : list Z) : option (list Z * list Z) :=
  match l with
  | [] => None
  | b :: l' => if (b =? sep)%Z then Some ([], l')
               else match cut_bytes sep l' with Some (x, y) => Some (b :: x, y) | None => None end
  end.

Lemma Itoa_no_dot z : 46%Z ∉ bytes (strconv_Itoa z).
Proof.
  assert (forall l, decimal l -> 46%Z ∉ l) as Hdec.
  { intros l [_ Hl] Hin. rewrite Forall_forall in Hl. specialize (Hl _ Hin). lia. }
  unfold strconv_Itoa. destruct z as [|p|p]; [set_solver| |].
  - apply Hdec, pretty_pos.
  - change (pretty (Z.neg p)) with ("-" +:+ pretty (N.pos p)). rewrite bytes_app. simpl.
    rewrite not_elem_of_cons. split; [done|]. apply Hdec, pretty_pos.
Qed.

Lemma cut_bytes_app sep a b : sep ∉ a -> cut_bytes sep (a ++ sep :: b) = Some (a, b).
Proof.
  induction a as [|x a IH]; intros Hn; simpl; [by rewrite Z.eqb_refl|].
  rewrite not_elem_of_cons in Hn. destruct Hn as [Hx Hn].
  rewrite (proj2 (Z.eqb_neq x sep)) by done. by rewrite IH.
Qed.

(** A number, a point, and more text. *)
Lemma cut_position n s :
  cut_bytes 46 (bytes (strconv_Itoa n +:+ "." +:+ s)) = Some (bytes (strconv_Itoa n), bytes s).
Proof. rewrite !bytes_app. apply (cut_bytes_app 46), Itoa_no_dot. Qed.

Lemma position_nonempty n s : String.eqb (strconv_Itoa n +:+ "." +:+ s) "" = false.
Proof.
  apply String.eqb_neq. intros E%(f_equal bytes). rewrite !bytes_app in E. by destruct (bytes (strconv_Itoa n)).
Qed.


(** ** strings.HasPrefix, strings.Index, strings.Contains *)

Fixpoint has_prefix (p l : list Z) : bool :=
  match p, l with
  | [], _ => true
  | a :: p', b :: l' => (a =? b)%Z && has_prefix p' l'
  | _ :: _, [] => false
  end.

Fixpoint index_of (p l : list Z) : option nat :=
  if has_prefix p l then Some 0
  else match l with [] => None | _ :: l' => option_map S (index_of p l') end.

Definition HasPrefix (s p : string) : bool := has_prefix (bytes p) (bytes s).
Definition Contains (s p : string) : bool := match index_of (bytes p) (bytes s) with Some _ => true | None => false end.
(** For separators in ASCII. *)
Definition ContainsAny (s : string) (chars : list Z) : bool := existsb (fun b => existsb (Z.eqb b) chars) (bytes s).

Lemma has_prefix_spec p l : has_prefix p l = true <-> exists r, l = p ++ r.
Proof.
  revert l. induction p as [|a p IH]; intros l; simpl; [split; [by exists l|done]|].
  destruct l as [|b l]; [split; [done|by intros [r [=]]]|].
  rewrite andb_true_iff, Z.eqb_eq, IH. split; [intros [-> [r ->]]; by exists r|intros [r [= -> ->]]; eauto].
Qed.

(** The first occurrence, and none before it. *)
Lemma has_prefix_app p l : has_prefix p (p ++ l) = true.
Proof. apply has_prefix_spec. by exists l. Qed.

Lemma index_of_spec p l :
  match index_of p l with
  | Some i => i <= length l /\ has_prefix p (drop i l) = true /\ forall j, j < i -> has_prefix p (drop j l) = false
  | None => forall j, j <= length l -> has_prefix p (drop j l) = false
  end.
Proof.
  induction l as [|b l IH]; cbn [index_of].
  - destruct (has_prefix p []) eqn:Hp; [simpl; split_and!; [done|done|lia]|]. intros j _. by rewrite drop_nil.
  - destruct (has_prefix p (b :: l)) eqn:Hp; [simpl; split_and!; [lia|done|lia]|].
    destruct (index_of p l) as [i|]; simpl.
    + destruct IH as (Hi & Hat & Hbefore). split_and!; [lia|done|]. intros [|j] Hj; [done|]. apply Hbefore. lia.
    + intros [|j] Hj; [done|]. simpl in *. apply IH. lia.
Qed.

(** Some part of [s] is [p]. *)
Definition occurs (p s : list Z) : Prop := exists a b, s = a ++ p ++ b.

Lemma has_prefix_at p l i :
  has_prefix p (drop i l) = true <-> exists b, drop i l = p ++ b.
Proof. apply has_prefix_spec. Qed.

Lemma Contains_spec s p : Contains s p = true <-> occurs (bytes p) (bytes s).
Proof.
  unfold Contains, occurs. pose proof (index_of_spec (bytes p) (bytes s)) as Hi.
  destruct (index_of (bytes p) (bytes s)) as [i|].
  - split; [intros _|done]. destruct Hi as (_ & [b Hb]%has_prefix_spec & _).
    exists (take i (bytes s)), b. by rewrite <-Hb, take_drop.
  - split; [done|]. intros (a & b & Hs). specialize (Hi (length a)).
    rewrite Hs, drop_app_length, !length_app, (proj2 (has_prefix_spec _ _)) in Hi by (by exists b).
    discriminate Hi. lia.
Qed.

(** ** strings.ToLower *)

(** The lower-case form of the code points beyond ASCII, as Unicode tabulates it. *)
Class RuneLower : Type := rune_lower : Z -> Z.

Definition lower_ascii (b : Z) : Z := if (65 <=? b)%Z && (b <=? 90)%Z then (b + 32)%Z else b.

(** [utf8.DecodeRune]: a malformed byte stands for U+FFFD. *)
Definition decode_rune (l : list Z) : Z * nat :=
  match utf8_len l, l with
  | Some 1, b0 :: _ => (b0, 1)
  | Some 2, b0 :: b1 :: _ => (((b0 - 192) * 64 + (b1 - 128))%Z, 2)
  | Some 3, b0 :: b1 :: b2 :: _ => (((b0 - 224) * 4096 + (b1 - 128) * 64 + (b2 - 128))%Z, 3)
  | Some 4, b0 :: b1 :: b2 :: b3 :: _ =>
      (((b0 - 240) * 262144 + (b1 - 128) * 4096 + (b2 - 128) * 64 + (b3 - 128))%Z, 4)
  | _, _ => (65533%Z, 1)
  end.

Fixpoint runes (fuel : nat) (l : list Z) : list Z :=
  match fuel, l with
  | O, _ | _, [] => []
  | S fuel', _ => let '(r, n) := decode_rune l in r :: runes fuel' (drop n l)
  end.

(** [utf8.RuneCountInString], [len([]rune(s))] *)
Definition rune_count (s : string) : nat := length (runes (length (bytes s)) (bytes s)).

Definition encode_rune (r : Z) : list Z :=
  if (r <? 0)%Z || (1114111 <? r)%Z || ((55296 <=? r)%Z && (r <=? 57343)%Z) then [239; 191; 189]%Z
  else if (r <? 128)%Z then [r]
  else if (r <? 2048)%Z then [192 + r / 64; 128 + r mod 64]%Z
  else if (r <? 65536)%Z then [224 + r / 4096; 128 + r / 64 mod 64; 128 + r mod 64]%Z
  else [240 + r / 262144; 128 + r / 4096 mod 64; 128 + r / 64 mod 64; 128 + r mod 64]%Z.

Definition ToLower `{RuneLower} (s : string) : string :=
  let l := bytes s in
  of_bytes (if forallb (fun b => (b <? 128)%Z) l then map lower_ascii l
            else concat (map (fun r => encode_rune (if (r <? 128)%Z then lower_ascii r else rune_lower r))
                           (runes (length l) l))).

Example ToLower_ascii `{RuneLower} : ToLower "Bearer-Z_9" = "bearer-z_9". Proof. reflexivity. Qed.
(** U+212A, the Kelvin sign, is lowered to the letter k. *)
Example ToLower_kelvin : @ToLower (fun r => if (r =? 8490)%Z then 107%Z else r) ("s" +:+ of_bytes [226; 132; 170]%Z +:+ "-") = "sk-".
Proof. reflexivity. Qed.

(** ** strings.Join, strings.Split *)

Definition join (sep : string) (l : list string) : string := String.concat sep l.

(** For a separator of one byte. *)
Fixpoint split_bytes (sep : Z) (l : list Z) : list (list Z) :=
  match l with
  | [] => [[]]
  | b :: l' =>
      match split_bytes sep l' with
      | p :: ps => if (b =? sep)%Z then [] :: p :: ps else (b :: p) :: ps
      | [] => []
      end
  end.

Lemma split_bytes_cons sep l : exists p ps, split_bytes sep l = p :: ps.
Proof.
  induction l as [|b l (p & ps & IH)]; simpl; [by exists [], []|]. rewrite IH. case_match; by do 2 eexists.
Qed.

Lemma split_bytes_one sep a : sep ∉ a -> split_bytes sep a = [a].
Proof.
  induction a as [|x a IH]; intros Hn; simpl; [done|]. apply not_elem_of_cons in Hn as [Hx Hn].
  rewrite IH, (proj2 (Z.eqb_neq x sep)) by done. done.
Qed.

Lemma split_bytes_app sep a b : sep ∉ a -> split_bytes sep (a ++ sep :: b) = a :: split_bytes sep b.
Proof.
  destruct (split_bytes_cons sep b) as (p & ps & Eb).
  induction a as [|x a IH]; intros Hn; simpl; [by rewrite Eb, Z.eqb_refl|]. apply not_elem_of_cons in Hn as [Hx Hn].
  rewrite IH, Eb, (proj2 (Z.eqb_neq x sep)) by done. done.
Qed.

Definition Split (s : string) (sep : Z) : list string := map of_bytes (split_bytes sep (bytes s)).

Definition TrimSuffix (s suffix : string) : string :=
  if has_prefix (rev (bytes suffix)) (rev (bytes s)) then of_bytes (take (length (bytes s) - length (bytes suffix)) (bytes s)) else s.

(** ** Ranging over a map *)

(** The order in which a map is ranged over. *)
Class MapOrder : Type := map_order : forall {A}, list A -> list A.
Class MapOrderLaws `{MapOrder} : Prop := map_order_perm : forall A (l : list A), map_order l ≡ₚ l.

Definition in_order : MapOrder := fun _ l => l.
Lemma in_order_laws : @MapOrderLaws in_order.
Proof. by intros A l. Qed.

(** ** strings.EqualFold *)

(** The representative of a code point's simple case-folding orbit, as Unicode
    tabulates it. *)
Class RuneFold : Type := rune_fold : Z -> Z.

Definition EqualFold `{RuneFold} (s t : string) : bool :=
  bool_decide (map rune_fold (runes (String.length s) (bytes s)) = map rune_fold (runes (String.length t) (bytes t))).

(** ** strconv.ParseBool, strconv.ParseUint's digits *)

Definition ParseBool (s : string) : option bool :=
  if bool_decide (s ∈ ["1"; "t"; "T"; "TRUE"; "true"; "True"]%string) then Some true
  else if bool_decide (s ∈ ["0"; "f"; "F"; "FALSE"; "false"; "False"]%string) then Some false
  else None.

(** ** net.SplitHostPort *)

Fixpoint last_index (b : Z) (l : list Z) : option nat :=
  match l with
  | [] => None
  | x :: l' => match last_index b l' with
               | Some i => Some (S i)
               | None => if (x =? b)%Z then Some 0 else None
               end
  end.
Definition has_byte (b : Z) (l : list Z) : bool := existsb (Z.eqb b) l.

Definition addr_error (addr why : string) : string :=
  if String.eqb addr "" then why else "address " +:+ addr +:+ ": " +:+ why.

Definition SplitHostPort (hostport : string) : res string (string * string) :=
  let l := bytes hostport in
  match last_index 58 l with
  | None => Err (addr_error hostport "missing port in address")
  | Some i =>
      try! hjk := (if bool_decide (head l = Some 91%Z) then
                     match index_of [93%Z] l with
                     | None => Err (addr_error hostport "missing ']' in address")
                     | Some end_ =>
                         if Nat.eqb (end_ + 1) (length l) then Err (addr_error hostport "missing port in address")
                         else if Nat.eqb (end_ + 1) i then Ok (take (end_ - 1) (drop 1 l), 1, end_ + 1)
                         else if bool_decide (l !! (end_ + 1) = Some 58%Z) then Err (addr_error hostport "too many colons in address")
                         else Err (addr_error hostport "missing port in address")
                     end
                   else
                     if has_byte 58 (take i l) then Err (addr_error hostport "too many colons in address")
                     else Ok (take i l, 0, 0)) in
      let '(host, j, k) := hjk in
      if has_byte 91 (drop j l) then Err (addr_error hostport "unexpected '[' in address")
      else if has_byte 93 (drop k l) then Err (addr_error hostport "unexpected ']' in address")
      else Ok (of_bytes host, of_bytes (drop (i + 1) l))
  end.

Example split_host : SplitHostPort "redis:6379" = Ok ("redis", "6379")%string. Proof. reflexivity. Qed.
Example split_bracketed : SplitHostPort "[::1]:6379" = Ok ("::1", "6379")%string. Proof. reflexivity. Qed.
Example split_colons : SplitHostPort "::1:6379" = Err "address ::1:6379: too many colons in address"%string. Proof. reflexivity. Qed.

Lemma last_index_spec b l i : last_index b l = Some i -> l = take i l ++ b :: drop (S i) l /\ b ∉ drop (S i) l.
Proof.
  revert i. induction l as [|x l IH]; intros i Hi; [done|]. simpl in Hi. destruct (last_index b l) as [j|] eqn:Hj.
  - injection Hi as <-. destruct (IH j eq_refl) as [E Hn]. simpl. split; [by rewrite <-E|done].
  - destruct (Z.eqb_spec x b) as [->|]; [|done]. injection Hi as <-. simpl. split; [done|]. rewrite drop_0. clear IH.
    induction l as [|y l IH]; [set_solver|]. simpl in Hj. destruct (last_index b l); [done|].
    destruct (Z.eqb_spec y b); [done|]. specialize (IH eq_refl). set_solver.
Qed.

Lemma index_of_one b l i : index_of [b] l = Some i -> l = take i l ++ b :: drop (S i) l.
Proof.
  intros Hi. pose proof (index_of_spec [b] l) as Hs. rewrite Hi in Hs. destruct Hs as (_ & [r Hr]%has_prefix_spec & _).
  rewrite <-(take_drop i l) at 1. f_equal. rewrite Hr. f_equal. replace (S i) with (i + 1) by lia.
  by rewrite <-drop_drop, Hr.
Qed.

Lemma bytes_byte s : Forall is_byte (bytes s).
Proof.
  unfold bytes. apply Forall_map, Forall_true. intros c. unfold is_byte, byte_of. simpl.
  pose proof (Ascii.N_ascii_bounded c). lia.
Qed.

Lemma bytes_part s l : l ⊆ bytes s -> bytes (of_bytes l) = l.
Proof.
  intros Hl. apply bytes_of_bytes, Forall_forall. intros b Hb. pose proof (bytes_byte s) as Hs. rewrite Forall_forall in Hs.
  by apply Hs, Hl.
Qed.

(** The text is the host, a colon and the port, with brackets around the host
    if it has colons of its own. *)
Lemma SplitHostPort_Ok s host port :
  SplitHostPort s = Ok (host, port) ->
  s = host +:+ ":" +:+ port \/ s = "[" +:+ host +:+ "]:" +:+ port.
Proof.
  unfold SplitHostPort. destruct (last_index 58 (bytes s)) as [i|] eqn:Hi; [|done].
  apply last_index_spec in Hi as [Es Hn].
  intros Hr. apply res_bind_Ok in Hr as ([[h j] k] & Hh & Hr).
  destruct (has_byte 91 _); [done|]. destruct (has_byte 93 _); [done|]. injection Hr as <- <-.
  replace (i + 1) with (S i) in * by lia.
  assert (bytes (of_bytes (drop (S i) (bytes s))) = drop (S i) (bytes s)) as Eport by apply (bytes_part s), subseteq_drop.
  case_bool_decide as Hhead.
  - destruct (index_of [93%Z] (bytes s)) as [e|] eqn:He; [|done].
    destruct (Nat.eqb _ _); [done|]. destruct (Nat.eqb_spec (e + 1) i) as [Ei|]; [|by destruct (bool_decide _)].
    injection Hh as <- _ _. right. apply index_of_one in He. apply bytes_inj. rewrite !bytes_app, Eport, (bytes_part s).
    2: { intros x Hx%subseteq_take. by apply subseteq_drop in Hx. }
    destruct (bytes s) as [|x l]; [done|]. injection Hhead as ->. subst i. destruct e as [|e]; [done|].
    cbn [take drop app] in He, Es. injection He as He. rewrite Nat.add_1_r in *. cbn [take drop app] in Es. injection Es as Es.
    simpl. rewrite Nat.sub_0_r, drop_0. f_equal. rewrite Es at 1. rewrite (take_S_r _ _ 93%Z), <-app_assoc; [done|].
    rewrite He, lookup_app_r; rewrite length_take; [|lia].
    apply (f_equal length) in He. rewrite length_app, length_take in He. simpl in He.
    by replace (e - e `min` length l) with 0 by lia.
  - destruct (has_byte 58 _); [done|]. injection Hh as <- _ _. left. apply bytes_inj. rewrite !bytes_app, Eport, (bytes_part s); [exact Es|].
    apply subseteq_take.
Qed.

Lemma index_of_scheme p l i : index_of p l = Some i -> l = take i l ++ p ++ drop (i + length p) l.
Proof.
  intros Hi. pose proof (index_of_spec p l) as Hs. rewrite Hi in Hs. destruct Hs as (_ & [r Hr]%has_prefix_spec & _).
  rewrite <-(take_drop i l) at 1. f_equal. rewrite <-drop_drop, Hr. by rewrite drop_app_length.
Qed.

Lemma ContainsAny_false s chars : ContainsAny s chars = false -> forall b, b ∈ chars -> b ∉ bytes s.
Proof.
  unfold ContainsAny. rewrite <-not_true_iff_false, existsb_exists. intros Hn b Hb Hin. apply Hn. exists b.
  split; [by apply list_elem_of_In|]. apply existsb_exists. exists b. split; [by apply list_elem_of_In|]. apply Z.eqb_refl.
Qed.

(** ** strings.TrimSpace *)

Lemma strip_any_none ps a l :
  Forall (fun p => match p with c :: _ => Ascii.eqb c a = false | [] => False end) ps -> strip_any ps (a :: l) = None.
Proof. induction 1 as [|p ps Hp _ IH]; [done|]. simpl. destruct p as [|c p]; [done|]. simpl. by rewrite Hp. Qed.

Lemma trim_with_none fuel ps a l : strip_any ps (a :: l) = None -> trim_with fuel ps (a :: l) = a :: l.
Proof. destruct fuel; [done|]. simpl. by intros ->. Qed.

(** Text that begins and ends with a printable ASCII character. *)
Definition solid (b : Z) : bool := (32 <? b)%Z && (b <? 128)%Z.
Definition not_solid (p : list Ascii.ascii) : Prop := match p with c :: _ => solid (byte_of c) = false | [] => False end.

Lemma solid_not_space a ps l : solid (byte_of a) = true -> Forall not_solid ps -> strip_any ps (a :: l) = None.
Proof.
  intros Ha Hps. apply strip_any_none. eapply Forall_impl; [exact Hps|]. intros [|c p] Hc; [done|].
  apply Ascii.eqb_neq. intros ->. unfold not_solid in Hc. congruence.
Qed.

Lemma space_runes_solid : Forall not_solid space_runes /\ Forall not_solid (map (@rev _) space_runes).
Proof. split; repeat constructor. Qed.

Lemma TrimSpace_solid s :
  (forall b, head (bytes s) = Some b -> solid b = true) -> (forall b, last (bytes s) = Some b -> solid b = true) -> TrimSpace s = s.
Proof.
  intros Hh Hl. unfold TrimSpace. destruct (String.list_ascii_of_string s) as [|a l] eqn:Hs.
  - apply (f_equal String.string_of_list_ascii) in Hs. by rewrite String.string_of_list_ascii_of_string in Hs.
  - unfold bytes in Hh, Hl. rewrite Hs in Hh, Hl. destruct space_runes_solid as [Hr Hr'].
    unfold trim_bytes. rewrite trim_with_none by by apply solid_not_space; [apply Hh|].
    assert (exists b r, rev (a :: l) = b :: r /\ solid (byte_of b) = true) as (b & r & Er & Hb).
    { destruct (@exists_last _ (a :: l) ltac:(done)) as (r & b & E). rewrite E, rev_app_distr. exists b, (rev r). split; [done|].
      apply Hl. rewrite E, map_app. apply last_snoc. }
    rewrite Er, trim_with_none by by apply solid_not_space.
    rewrite <-Er, rev_involutive, <-Hs. apply String.string_of_list_ascii_of_string.
Qed.
