(* ===== verification/Json.v ===== *)
(** * encoding/json: values, their text, and reading it back

    [json.Marshal] of a value is [json_print]; [json.Unmarshal] reads a value
    ([json_parse]) and assigns its members to the fields of a struct
    ([decode_struct]). *)

From S2P Require Import Prelude GoLib GoText.

(** A number is kept as its text, as the scanner does. *)
Inductive Json : Type :=
| JNull
| JBool (b : bool)
| JNumber (text : string)
| JString (s : string)
| JArray (l : list Json)
| JObject (m : list (string * Json)).

(** ** Printing *)

Fixpoint commas (l : list (list Z)) : list Z :=
  match l with [] => [] | [x] => x | x :: l' => x ++ 44%Z :: commas l' end.

Fixpoint print_bytes (v : Json) : list Z :=
  match v with
  | JNull => bytes "null"
  | JBool b => bytes (if b then "true" else "false")
  | JNumber t => bytes t
  | JString s => bytes (json_string s)
  | JArray l => 91%Z :: commas (map print_bytes l) ++ [93%Z]
  | JObject m => 123%Z :: commas (map (fun p => bytes (json_string p.1) ++ 58%Z :: print_bytes p.2) m) ++ [125%Z]
  end.
Definition json_print (v : Json) : string := of_bytes (print_bytes v).

(** ** Reading *)

Definition is_space (b : Z) : bool := existsb (Z.eqb b) [32; 9; 13; 10]%Z.
Fixpoint skip_ws (l : list Z) : list Z := match l with b :: l' => if is_space b then skip_ws l' else l | [] => [] end.

Definition hex_value (b : Z) : option Z :=
  if (48 <=? b)%Z && (b <=? 57)%Z then Some (b - 48)%Z
  else if (97 <=? b)%Z && (b <=? 102)%Z then Some (b - 87)%Z
  else if (65 <=? b)%Z && (b <=? 70)%Z then Some (b - 55)%Z else None.
(** [getu4], of four digits. *)
Definition u4 (l : list Z) : option Z :=
  match l with
  | a :: b :: c :: d :: _ =>
      match hex_value a, hex_value b, hex_value c, hex_value d with
      | Some x, Some y, Some z, Some w => Some (((x * 16 + y) * 16 + z) * 16 + w)%Z
      | _, _, _, _ => None
      end
  | _ => None
  end.

Definition replacement : list Z := [239; 191; 189]%Z.
Definition surrogate (r : Z) : bool := (55296 <=? r)%Z && (r <=? 57343)%Z.
(** [utf16.DecodeRune] *)
Definition utf16_pair (r r2 : Z) : option Z :=
  if (55296 <=? r)%Z && (r <? 56320)%Z && (56320 <=? r2)%Z && (r2 <=? 57343)%Z
  then Some ((r - 55296) * 1024 + (r2 - 56320) + 65536)%Z else None.

(** What the escapes of one letter stand for. *)
Definition short_escape (b : Z) : option Z :=
  match find (fun p => (p.1 =? b)%Z) [(34, 34); (92, 92); (47, 47); (98, 8); (102, 12); (110, 10); (114, 13); (116, 9)]%Z with
  | Some p => Some p.2
  | None => None
  end.
(** The half of a pair that may follow, after its backslash and u. *)
Definition second_half (l : list Z) : option Z := if has_prefix [92; 117]%Z l then u4 (drop 2 l) else None.

(** After a backslash: what it stands for, and how many bytes it takes. *)
Definition read_escape (l : list Z) : option (list Z * nat) :=
  match l with
  | [] => None
  | b :: h =>
      if (b =? 117)%Z then
        match u4 h with
        | None => None
        | Some r =>
            if surrogate r then
              match second_half (drop 4 h) with
              | Some r2 => match utf16_pair r r2 with Some c => Some (encode_rune c, 11) | None => Some (replacement, 5) end
              | None => Some (replacement, 5)
              end
            else Some (encode_rune r, 5)
        end
      else match short_escape b with Some c => Some ([c], 1) | None => None end
  end.

Definition prepend {B} (c : list Z) (r : option (list Z * B)) : option (list Z * B) :=
  match r with Some (s, rest) => Some (c ++ s, rest) | None => None end.

(** After the opening quote of a string. *)
Fixpoint read_chars (fuel : nat) (l : list Z) : option (list Z * list Z) :=
  match fuel, l with
  | O, _ | _, [] => None
  | S f, b :: l' =>
      if (b =? 34)%Z then Some ([], l')
      else if (b =? 92)%Z then
        match read_escape l' with Some (c, n) => prepend c (read_chars f (drop n l')) | None => None end
      else if (b <? 32)%Z then None
      else match utf8_len l with
           | Some n => prepend (take n l) (read_chars f (drop n l))
           | None => prepend replacement (read_chars f l')
           end
  end.

Fixpoint digits (l : list Z) : list Z * list Z :=
  match l with
  | b :: l' => if is_digit b then let '(d, r) := digits l' in (b :: d, r) else ([], l)
  | [] => ([], [])
  end.
Definition some_digits (l : list Z) : option (list Z * list Z) :=
  match digits l with ([], _) => None | (d, r) => Some (d, r) end.

Definition read_sign (l : list Z) : list Z * list Z :=
  match l with b :: l' => if (b =? 45)%Z then ([b], l') else ([], l) | [] => ([], []) end.
Definition read_int (l : list Z) : option (list Z * list Z) :=
  match l with b :: l' => if (b =? 48)%Z then Some ([b], l') else some_digits l | [] => None end.
Definition read_frac (l : list Z) : option (list Z * list Z) :=
  match l with b :: l' => if (b =? 46)%Z then prepend [b] (some_digits l') else Some ([], l) | [] => Some ([], []) end.
Definition read_exp (l : list Z) : option (list Z * list Z) :=
  match l with
  | b :: l' =>
      if (b =? 101)%Z || (b =? 69)%Z then
        match l' with
        | c :: l2 => if (c =? 43)%Z || (c =? 45)%Z then prepend [b; c] (some_digits l2) else prepend [b] (some_digits l')
        | [] => None
        end
      else Some ([], l)
  | [] => Some ([], [])
  end.
Definition read_number (l : list Z) : option (list Z * list Z) :=
  let '(sign, l1) := read_sign l in
  match read_int l1 with
  | None => None
  | Some (i, l2) =>
      match read_frac l2 with
      | None => None
      | Some (fr, l3) => prepend (sign ++ i ++ fr) (read_exp l3)
      end
  end.

(** The rest after the next byte that is no space, if that is [b]. *)
Definition next (b : Z) (l : list Z) : option (list Z) :=
  match skip_ws l with c :: r => if (c =? b)%Z then Some r else None | [] => None end.

(** A literal, or a number. *)
Definition read_atom (l : list Z) : option (Json * list Z) :=
  if has_prefix (bytes "null") l then Some (JNull, drop 4 l)
  else if has_prefix (bytes "true") l then Some (JBool true, drop 4 l)
  else if has_prefix (bytes "false") l then Some (JBool false, drop 5 l)
  else match read_number l with Some (t, r) => Some (JNumber (of_bytes t), r) | None => None end.
Definition read_string (l : list Z) : option (string * list Z) :=
  match read_chars (S (length l)) l with Some (s, r) => Some (of_bytes s, r) | None => None end.

(** The scanner refuses deeper nesting. *)
Definition maxNestingDepth : N := 10000.

Fixpoint read_value (fuel : nat) (depth : N) (l : list Z) {struct fuel} : option (Json * list Z) :=
  match fuel, skip_ws l with
  | O, _ | _, [] => None
  | S f, b :: l' =>
      if (b =? 34)%Z then match read_string l' with Some (s, r) => Some (JString s, r) | None => None end
      else if (b =? 91)%Z then
        if (depth =? 0)%N then None
        else match next 93 l' with
             | Some r => Some (JArray [], r)
             | None => match read_elements f (depth - 1) l' with Some (vs, r) => Some (JArray vs, r) | None => None end
             end
      else if (b =? 123)%Z then
        if (depth =? 0)%N then None
        else match next 125 l' with
             | Some r => Some (JObject [], r)
             | None => match read_members f (depth - 1) l' with Some (m, r) => Some (JObject m, r) | None => None end
             end
      else read_atom (b :: l')
  end
with read_elements (fuel : nat) (depth : N) (l : list Z) {struct fuel} : option (list Json * list Z) :=
  match fuel with
  | O => None
  | S f =>
      match read_value f depth l with
      | None => None
      | Some (v, r) =>
          match next 44 r with
          | Some r' => match read_elements f depth r' with Some (vs, r2) => Some (v :: vs, r2) | None => None end
          | None => match next 93 r with Some r' => Some ([v], r') | None => None end
          end
      end
  end
with read_members (fuel : nat) (depth : N) (l : list Z) {struct fuel} : option (list (string * Json) * list Z) :=
  match fuel with
  | O => None
  | S f =>
      match next 34 l with
      | None => None
      | Some l' =>
          match read_string l' with
          | None => None
          | Some (k, r) =>
              match next 58 r with
              | None => None
              | Some r' =>
                  match read_value f depth r' with
                  | None => None
                  | Some (v, r2) =>
                      match next 44 r2 with
                      | Some r3 => match read_members f depth r3 with Some (m, r4) => Some ((k, v) :: m, r4) | None => None end
                      | None => match next 125 r2 with Some r3 => Some ([(k, v)], r3) | None => None end
                      end
                  end
              end
          end
      end
  end.

(** Twice the text is more than the calls one inside another. *)
Definition read_fuel (l : list Z) : nat := S (2 * length l).

Definition json_parse (s : string) : option Json :=
  match read_value (read_fuel (bytes s)) maxNestingDepth (bytes s) with
  | Some (v, r) => match skip_ws r with [] => Some v | _ => None end
  | None => None
  end.

Definition q (s : string) : string := quote +:+ s +:+ quote.
Example parse_nested : json_parse ("{ " +:+ q "a" +:+ " : [1, -2.5e3 , null], " +:+ q "\u0062\n" +:+ ":{} }") =
  Some (JObject [("a", JArray [JNumber "1"; JNumber "-2.5e3"; JNull]); ("b" +:+ of_bytes [10%Z], JObject [])]).
Proof. vm_compute. reflexivity. Qed.
Example parse_surrogates : json_parse (q "\ud83d\ude00\ud83d!") = Some (JString (of_bytes [240; 159; 152; 128; 239; 191; 189; 33]%Z)).
Proof. vm_compute. reflexivity. Qed.
Example parse_refuses : map json_parse ["01"; "1."; "[1,]"; "nul"; "{} x"; "-"; q (of_bytes [9%Z]); q "\x"]%string = replicate 8 None.
Proof. vm_compute. reflexivity. Qed.

(** ** Reading terminates with the fuel given *)

Lemma skip_ws_length l : length (skip_ws l) <= length l.
Proof. induction l as [|b l IH]; [done|]. simpl. destruct (is_space b); simpl; lia. Qed.

Lemma read_chars_length f l s r : read_chars f l = Some (s, r) -> length r < length l.
Proof.
  revert l s r. induction f as [|f IH]; intros [|b l] s r; try done. cbn [read_chars].
  destruct (b =? 34)%Z; [intros [= _ <-]; simpl; lia|]. destruct (b =? 92)%Z.
  - destruct (read_escape l) as [[c n]|]; [|done]. destruct (read_chars f (drop n l)) as [[s1 r1]|] eqn:E; [|done].
    intros [= _ <-]. apply IH in E. rewrite length_drop in E. simpl. lia.
  - destruct (b <? 32)%Z; [done|]. destruct (utf8_len (b :: l)) as [n|].
    + destruct (read_chars f (drop n (b :: l))) as [[s1 r1]|] eqn:E; [|done]. intros [= _ <-]. apply IH in E. rewrite length_drop in E. lia.
    + destruct (read_chars f l) as [[s1 r1]|] eqn:E; [|done]. intros [= _ <-]. apply IH in E. simpl. lia.
Qed.

Lemma read_digits_length l d r : digits l = (d, r) -> length d + length r = length l.
Proof.
  revert d r. induction l as [|b l IH]; intros d r; simpl; [by intros [= <- <-]|].
  destruct (is_digit b); [|by intros [= <- <-]]. destruct (digits l) as [d1 r1] eqn:E. intros [= <- <-]. simpl. by rewrite (IH _ _ eq_refl).
Qed.
Lemma some_digits_length l d r : some_digits l = Some (d, r) -> length r < length l.
Proof.
  unfold some_digits. destruct (digits l) as [[|x d1] r1] eqn:E; [done|]. intros [= _ <-]. apply read_digits_length in E. simpl in E. lia.
Qed.
Lemma prepend_length {B} c (o : option (list Z * B)) s r : prepend c o = Some (s, r) -> exists s', o = Some (s', r).
Proof. destruct o as [[s' r']|]; [|done]. intros [= _ <-]. by eexists. Qed.

Lemma read_number_length l t r : read_number l = Some (t, r) -> length r < length l.
Proof.
  unfold read_number. destruct (read_sign l) as [sg l1] eqn:E1.
  assert (length l1 <= length l) as H1.
  { unfold read_sign in E1. repeat case_match; simplify_eq/=; lia. }
  destruct (read_int l1) as [[i l2]|] eqn:E2; [|done].
  assert (length l2 < length l1) as H2.
  { unfold read_int in E2. repeat case_match; simplify_eq/=; try lia. by apply some_digits_length in E2. }
  destruct (read_frac l2) as [[fr l3]|] eqn:E3; [|done].
  assert (length l3 <= length l2) as H3.
  { unfold read_frac in E3. repeat case_match; simplify_eq/=; try lia. apply prepend_length in E3 as [? E3]; apply some_digits_length in E3; lia. }
  intros (s & E4)%prepend_length.
  assert (length r <= length l3) as H4; [|lia].
  unfold read_exp in E4. repeat case_match; simplify_eq/=; try lia;
    apply prepend_length in E4 as [? E4]; apply some_digits_length in E4; simpl in *; lia.
Qed.

Lemma next_length b l r : next b l = Some r -> length r < length l.
Proof.
  unfold next. pose proof (skip_ws_length l) as Hs. destruct (skip_ws l) as [|c l']; [done|]. destruct (c =? b)%Z; [|done].
  intros [= <-]. simpl in Hs. lia.
Qed.
Lemma read_string_length l s r : read_string l = Some (s, r) -> length r < length l.
Proof. unfold read_string. destruct (read_chars _ l) as [[s1 r1]|] eqn:E; [|done]. intros [= _ <-]. by apply read_chars_length in E. Qed.
Lemma read_atom_length l v r : read_atom l = Some (v, r) -> length r < length l.
Proof.
  unfold read_atom. assert (forall p, p <> [] -> has_prefix p l = true -> length (drop (length p) l) < length l) as Hp.
  { intros p Hne [x ->]%has_prefix_spec. rewrite length_drop, length_app. destruct p; [done|]. simpl. lia. }
  destruct (has_prefix (bytes "null") l) eqn:E1; [intros [= _ <-]; by apply (Hp (bytes "null"))|].
  destruct (has_prefix (bytes "true") l) eqn:E2; [intros [= _ <-]; by apply (Hp (bytes "true"))|].
  destruct (has_prefix (bytes "false") l) eqn:E3; [intros [= _ <-]; by apply (Hp (bytes "false"))|].
  destruct (read_number l) as [[t r1]|] eqn:E; [|done]. intros [= _ <-]. by apply read_number_length in E.
Qed.

Definition shrinks {A} (l : list Z) (o : option (A * list Z)) : Prop := forall v r, o = Some (v, r) -> length r < length l.

Ltac lengths := repeat match goal with
  | H : read_string _ = Some _ |- _ => apply read_string_length in H
  | H : read_atom _ = Some _ |- _ => apply read_atom_length in H
  | H : next _ _ = Some _ |- _ => apply next_length in H
  | IH : (forall d l, shrinks l (?f d l)), H : ?f _ _ = Some _ |- _ => apply IH in H
  end.

Lemma read_shrinks f :
  (forall d l, shrinks l (read_value f d l)) /\ (forall d l, shrinks l (read_elements f d l)) /\ (forall d l, shrinks l (read_members f d l)).
Proof.
  induction f as [|f (IHv & IHe & IHm)]; [done|]. split_and!; intros d l v r; cbn [read_value read_elements read_members].
  - pose proof (skip_ws_length l) as Hs. destruct (skip_ws l) as [|b l'] eqn:E; [done|].
    intros H. repeat (case_match; simplify_eq); lengths; simpl in *; lia.
  - intros H. repeat (case_match; simplify_eq); lengths; lia.
  - intros H. repeat (case_match; simplify_eq); lengths; lia.
Qed.

(** More fuel than twice the text makes no difference. *)
Lemma read_enough f :
  (forall f' d l, 2 * length l < f -> 2 * length l < f' -> read_value f d l = read_value f' d l) /\
  (forall f' d l, 2 * length l + 1 < f -> 2 * length l + 1 < f' -> read_elements f d l = read_elements f' d l) /\
  (forall f' d l, 2 * length l + 1 < f -> 2 * length l + 1 < f' -> read_members f d l = read_members f' d l).
Proof.
  induction f as [|f (IHv & IHe & IHm)]; [split_and!; lia|].
  split_and!; intros [|f'] d l Hf Hf'; try lia; cbn [read_value read_elements read_members].
  - pose proof (skip_ws_length l) as Hs. destruct (skip_ws l) as [|b l']; [done|]. simpl in Hs.
    by rewrite (IHe f'), (IHm f') by lia.
  - rewrite (IHv f') by lia. destruct (read_value f' d l) as [[v r]|] eqn:E; [|done].
    destruct (next 44 r) as [r'|] eqn:E'; [|done]. apply read_shrinks in E. apply next_length in E'. by rewrite (IHe f') by lia.
  - destruct (next 34 l) as [l'|] eqn:E1; [|done]. destruct (read_string l') as [[k r]|] eqn:E2; [|done].
    destruct (next 58 r) as [r'|] eqn:E3; [|done]. lengths. rewrite (IHv f') by lia.
    destruct (read_value f' d r') as [[v r2]|] eqn:E4; [|done]. destruct (next 44 r2) as [r3|] eqn:E5; [|done].
    apply read_shrinks in E4. lengths. by rewrite (IHm f') by lia.
Qed.

Lemma json_parse_fuel f s : read_fuel (bytes s) <= f ->
  json_parse s = match read_value f maxNestingDepth (bytes s) with Some (v, r) => match skip_ws r with [] => Some v | _ => None end | None => None end.
Proof. intros Hf. unfold json_parse, read_fuel in *. by rewrite (proj1 (read_enough f) (read_fuel (bytes s))) by (unfold read_fuel; lia). Qed.

(** ** What is printed is read back *)

(** [utf8.Valid] *)
Fixpoint valid_bytes (fuel : nat) (l : list Z) : bool :=
  match fuel, l with
  | _, [] => true
  | O, _ => false
  | S f, _ => match utf8_len l with Some n => valid_bytes f (drop n l) | None => false end
  end.
Definition utf8_ValidString (s : string) : bool := valid_bytes (length (bytes s)) (bytes s).

Lemma utf8_len_take l n r : utf8_len l = Some n -> utf8_len (take n l ++ r) = Some n /\ 0 < n <= length l.
Proof.
  destruct l as [|b0 l]; [done|]. cbn [utf8_len].
  destruct (b0 <? 128)%Z eqn:E0; [intros [= <-]; simpl; rewrite E0; split; [done|lia]|].
  destruct ((194 <=? b0)%Z && (b0 <=? 223)%Z) eqn:E1.
  { destruct l as [|b1 l]; [done|]. destruct (cont b1) eqn:C1; [|done]. intros [= <-]. cbn [take app utf8_len].
    rewrite E0, E1, C1. simpl. split; [done|lia]. }
  destruct ((224 <=? b0)%Z && (b0 <=? 239)%Z) eqn:E2.
  { destruct l as [|b1 [|b2 l]]; [done|done|]. cbv zeta. destruct (_ && _ && cont b2) eqn:C; [|done]. intros [= <-].
    cbn [take app utf8_len]. rewrite E0, E1, E2. cbv zeta. rewrite C. simpl. split; [done|lia]. }
  destruct ((240 <=? b0)%Z && (b0 <=? 244)%Z) eqn:E3; [|done].
  destruct l as [|b1 [|b2 [|b3 l]]]; [done|done|done|]. cbv zeta. destruct (_ && _ && cont b2 && cont b3) eqn:C; [|done]. intros [= <-].
  cbn [take app utf8_len]. rewrite E0, E1, E2, E3. cbv zeta. rewrite C. simpl. split; [done|lia].
Qed.

Lemma read_escaped b r : (0 <= b < 128)%Z -> json_safe b = false ->
  exists e, json_escape b = 92%Z :: e /\ read_escape (e ++ r) = Some ([b], length e).
Proof.
  intros Hb Hs. rewrite <-(Z2Nat.id b) in * by lia. assert (Z.to_nat b < 128) as Hk by lia. revert Hs. clear Hb. revert Hk.
  generalize (Z.to_nat b). intros k Hk. do 128 (destruct k as [|k]; [intros Hs; try done; eexists; by split|]). lia.
Qed.

Lemma prepend_Some {B} c (o : option (list Z * B)) s r : o = Some (s, r) -> prepend c o = Some (c ++ s, r).
Proof. by intros ->. Qed.

Lemma take3_len l x y z n : take 3 l = [x; y; z] -> (224 <= x <= 239)%Z -> utf8_len l = Some n -> n = 3.
Proof.
  intros Ht Hx. destruct l as [|a [|b [|c l]]]; try done. injection Ht as -> -> ->. cbn [utf8_len].
  destruct (Z.ltb_spec x 128); [lia|]. destruct (Z.leb_spec 194 x), (Z.leb_spec x 223); try lia. cbn [andb].
  destruct (Z.leb_spec 224 x), (Z.leb_spec x 239); try lia. cbv zeta. by destruct (_ && _ && cont z); intros [= <-].
Qed.

Lemma read_chars_printed f n l r : length l <= n -> Forall is_byte l -> valid_bytes n l = true -> length (json_chars n l) < f ->
  read_chars f (json_chars n l ++ 34%Z :: r) = Some (l, r).
Proof.
  revert l f. induction n as [|n IH]; intros l f Hn Hby Hv Hf.
  { destruct l; [|simpl in Hn; lia]. destruct f; [simpl in Hf; lia|]. done. }
  destruct l as [|b l]; [destruct f; [simpl in Hf; lia|done]|].
  assert (forall m f', 0 < m -> valid_bytes n (drop m (b :: l)) = true -> length (json_chars n (drop m (b :: l))) < f' ->
    read_chars f' (json_chars n (drop m (b :: l)) ++ 34%Z :: r) = Some (drop m (b :: l), r)) as Hrest.
  { intros m f' Hm Hv' Hf'. apply IH; [rewrite length_drop; simpl in *; lia|by apply Forall_drop|done|done]. }
  cbn [valid_bytes] in Hv. destruct (utf8_len (b :: l)) as [m|] eqn:Hm; [|done].
  pose proof (utf8_len_take _ _ [] Hm) as [_ [Hm0 _]].
  assert (is_byte b) as Hbb by (by apply Forall_cons in Hby as [? _]). unfold is_byte in Hbb.
  cbn [json_chars] in *. destruct (Z.ltb_spec b 128) as [Hb|Hb].
  - assert (m = 1) as ->. { cbn [utf8_len] in Hm. rewrite (proj2 (Z.ltb_lt _ _) Hb) in Hm. by injection Hm. }
    specialize (Hrest 1). change (drop 1 (b :: l)) with l in Hrest, Hv. rewrite <-app_assoc. rewrite length_app in Hf.
    revert Hf. destruct (json_safe b) eqn:Hs; intros Hf.
    + destruct f as [|f]; [simpl in Hf; lia|]. unfold json_safe in Hs. cbn [existsb] in Hs. bool_prop.
      cbn [app read_chars]. rewrite (proj2 (Z.eqb_neq b 34)), (proj2 (Z.eqb_neq b 92)), (proj2 (Z.ltb_ge b 32)) by lia.
      cbn [utf8_len]. rewrite (proj2 (Z.ltb_lt _ _) Hb). cbn [take drop].
      change (b :: l) with ([b] ++ l). apply prepend_Some, Hrest; [lia|done|simpl in Hf; lia].
    + destruct (read_escaped b (json_chars n l ++ 34%Z :: r) ltac:(lia) Hs) as (e & He & Hre).
      rewrite He in *. destruct f as [|f]; [simpl in Hf; lia|]. cbn [app read_chars]. cbn [Z.eqb Pos.eqb]. rewrite Hre, drop_app_length.
      change (b :: l) with ([b] ++ l). apply prepend_Some, Hrest; [lia|done|simpl in Hf; lia].
  - rewrite Hm in *. assert (forall x y z e, take 3 (b :: l) = [x; y; z] -> (224 <= x <= 239)%Z ->
      read_escape (e ++ json_chars n (drop m (b :: l)) ++ 34%Z :: r) = Some ([x; y; z], length e) ->
      length (json_chars n (drop m (b :: l))) + 1 < f ->
      read_chars f (92%Z :: e ++ json_chars n (drop m (b :: l)) ++ 34%Z :: r) = Some (b :: l, r)) as Hesc.
    { intros x y z e Ht Hx He Hlen. assert (m = 3) as -> by (by eapply take3_len).
      destruct f as [|f]; [lia|]. cbn [read_chars]. cbn [Z.eqb Pos.eqb]. rewrite He, drop_app_length.
      rewrite <-(take_drop 3 (b :: l)) at 2. rewrite Ht. apply prepend_Some, Hrest; [lia|done|lia]. }
    revert Hf. case_bool_decide as H1; [|case_bool_decide as H2]; intros Hf.
    + rewrite length_app in Hf. change (length (bytes "\u2028")) with 6 in Hf. rewrite <-app_assoc.
      apply (Hesc 226 128 168 (tail (bytes "\u2028")))%Z; [done|lia|by vm_compute|lia].
    + rewrite length_app in Hf. change (length (bytes "\u2029")) with 6 in Hf. rewrite <-app_assoc.
      apply (Hesc 226 128 169 (tail (bytes "\u2029")))%Z; [done|lia|by vm_compute|lia].
    + destruct f as [|f]; [simpl in Hf; lia|]. rewrite <-app_assoc. destruct m as [|m]; [lia|].
      pose proof (utf8_len_take _ _ (json_chars n (drop (S m) (b :: l)) ++ 34%Z :: r) Hm) as [Hlen Hle].
      rewrite length_app, length_take in Hf. cbn [take app] in Hlen |- *. cbn [read_chars].
      rewrite (proj2 (Z.eqb_neq b 34)), (proj2 (Z.eqb_neq b 92)), (proj2 (Z.ltb_ge b 32)) by lia. rewrite Hlen.
      change (b :: take m l ++ ?x) with ((b :: take m l) ++ x).
      assert (length (b :: take m l) = S m) as Hlm by (simpl in *; rewrite length_take; lia).
      rewrite take_app_length' by done. rewrite drop_app_length' by done.
      replace (Some (b :: l, r)) with (Some ((b :: take m l) ++ drop (S m) (b :: l), r)) by (do 2 f_equal; exact (take_drop (S m) (b :: l))).
      apply prepend_Some, Hrest; [lia|done|lia].
Qed.

Lemma json_chars_byte n l : Forall is_byte l -> Forall is_byte (json_chars n l).
Proof.
  revert l. induction n as [|n IH]; intros [|b l] Hl; try constructor. cbn [json_chars].
  assert (is_byte b /\ Forall is_byte l) as [Hb Hl'] by (by apply Forall_cons).
  assert (forall s, Forall is_byte (bytes s)) as Hs by (intros s; apply bytes_byte).
  destruct (Z.ltb_spec b 128).
  - apply Forall_app. split; [|by apply IH]. destruct (json_safe b); [by constructor|]. unfold json_escape.
    repeat case_match; repeat constructor; try done; try (unfold is_byte; lia); try apply Hb;
      apply hex_digit_byte; by apply nibbles.
  - destruct (utf8_len (b :: l)) as [m|]; (apply Forall_app; split; [|apply IH]); [|by apply Forall_drop|apply Hs|done].
    repeat case_match; [apply Hs..|]. by apply Forall_take.
Qed.

Lemma json_string_bytes s : bytes (json_string s) = 34%Z :: json_chars (length (bytes s)) (bytes s) ++ [34%Z].
Proof. unfold json_string. by rewrite !bytes_app, bytes_of_bytes by apply json_chars_byte, bytes_byte. Qed.

(** A string literal is read back. *)
Lemma read_string_printed s r : utf8_ValidString s = true ->
  exists l, bytes (json_string s) ++ r = 34%Z :: l /\ read_string l = Some (s, r).
Proof.
  intros Hv. eexists. rewrite json_string_bytes. split; [cbn [app]; by rewrite <-app_assoc|]. unfold read_string. cbn [app].
  rewrite (read_chars_printed _ (length (bytes s)) (bytes s)); [by rewrite of_bytes_bytes|done|apply bytes_byte|done|].
  rewrite length_app. simpl. lia.
Qed.

(** A number does not go on with what follows a value. *)
Definition stops (l : list Z) : Prop := match l with b :: _ => b ∈ [44; 93; 125]%Z | [] => True end.

Lemma digits_decimal l r : Forall (fun b => (48 <= b <= 57)%Z) l -> stops r -> digits (l ++ r) = (l, r).
Proof.
  intros Hl Hr. induction Hl as [|b l Hb _ IH]; cbn [app digits].
  - destruct r as [|b r]; [done|]. simpl in Hr. cbn [digits]. unfold is_digit.
    assert (b = 44 \/ b = 93 \/ b = 125)%Z as [->|[->| ->]] by set_solver; done.
  - unfold is_digit. rewrite (proj2 (Z.leb_le _ _)), (proj2 (Z.leb_le _ _)) by lia. by rewrite IH.
Qed.

Lemma pretty_N_go_head x s : (0 < x)%N -> exists d l, bytes (pretty_N_go x s) = d :: l /\ (49 <= d <= 57)%Z.
Proof.
  revert s. induction (N.lt_wf_0 x) as [x _ IH]; intros s Hx. rewrite pretty_N_go_step by done.
  destruct (decide (x `div` 10 = 0)%N) as [E|E].
  - rewrite E, pretty_N_go_0. eexists _, _. split; [reflexivity|].
    pose proof (N.div_mod x 10 ltac:(lia)) as Hdm. pose proof (N.mod_lt x 10 ltac:(lia)) as Hm. rewrite E in Hdm.
    rewrite pretty_N_char_byte by done. lia.
  - apply IH; [by apply N.div_lt|by apply N.neq_0_lt_0].
Qed.

Lemma read_int_pos p r : stops r -> read_int (bytes (pretty (N.pos p)) ++ r) = Some (bytes (pretty (N.pos p)), r).
Proof.
  intros Hr. change (pretty (N.pos p)) with (pretty_N_go (N.pos p) "").
  destruct (pretty_N_go_head (N.pos p) "" ltac:(lia)) as (d & l & E & Hd).
  destruct (pretty_N_go_decimal (N.pos p) "" ltac:(constructor) ltac:(left; lia)) as [_ Hl]. rewrite E in *.
  cbn [app read_int]. rewrite (proj2 (Z.eqb_neq d 48)) by lia. unfold some_digits.
  pose proof (digits_decimal (d :: l) r Hl Hr) as Hdd. cbn [app] in Hdd. by rewrite Hdd.
Qed.

Lemma stops_frac r : stops r -> read_frac r = Some ([], r) /\ read_exp r = Some ([], r).
Proof.
  destruct r as [|b r]; [done|]. intros Hr. assert (b = 44 \/ b = 93 \/ b = 125)%Z as [->|[->| ->]] by (simpl in Hr; set_solver); done.
Qed.

Lemma read_number_Itoa z r : stops r -> read_number (bytes (strconv_Itoa z) ++ r) = Some (bytes (strconv_Itoa z), r).
Proof.
  intros Hr. destruct (stops_frac r Hr) as [Hf He]. unfold read_number, strconv_Itoa. destruct z as [|p|p].
  - change (bytes (pretty 0%Z)) with [48%Z]. cbn [app read_sign read_int Z.eqb Pos.eqb]. by rewrite Hf, He.
  - change (pretty (Z.pos p)) with (pretty (N.pos p)). pose proof (read_int_pos p r Hr) as Hi.
    destruct (pretty_N_go_head (N.pos p) "" ltac:(lia)) as (d & l & E & Hd). change (pretty_N_go (N.pos p) "") with (pretty (N.pos p)) in E.
    rewrite E in *. cbn [app read_sign]. rewrite (proj2 (Z.eqb_neq d 45)) by lia. cbn [app] in Hi. rewrite Hi, Hf, He. simpl. by rewrite !app_nil_r.
  - change (pretty (Z.neg p)) with ("-" +:+ pretty (N.pos p)). rewrite bytes_app. change (bytes "-") with [45%Z].
    cbn [app read_sign]. cbn [Z.eqb Pos.eqb]. rewrite (read_int_pos p r Hr), Hf, He. simpl. by rewrite !app_nil_r.
Qed.

(** Induction over what a value contains. *)
Lemma Json_nested_ind (P : Json -> Prop) :
  P JNull -> (forall b, P (JBool b)) -> (forall t, P (JNumber t)) -> (forall s, P (JString s)) ->
  (forall l, Forall P l -> P (JArray l)) -> (forall m, Forall (fun p => P p.2) m -> P (JObject m)) -> forall v, P v.
Proof.
  intros Hn Hb Ht Hs Ha Ho. fix IH 1. intros [|b|t|s|l|m]; [done|done|done|done| |].
  - apply Ha. induction l as [|v l IHl]; constructor; [apply IH|exact IHl].
  - apply Ho. induction m as [|[k v] m IHm]; constructor; [apply IH|exact IHm].
Qed.

(** Valid text, integers, and the depth. *)
Fixpoint wf_json (v : Json) : Prop :=
  match v with
  | JNull | JBool _ => True
  | JNumber t => exists z, t = strconv_Itoa z
  | JString s => utf8_ValidString s = true
  | JArray l => foldr (fun v P => wf_json v /\ P) True l
  | JObject m => foldr (fun p P => (utf8_ValidString p.1 = true /\ wf_json p.2) /\ P) True m
  end.
Fixpoint json_depth (v : Json) : N :=
  match v with
  | JArray l => (1 + foldr (fun v d => N.max (json_depth v) d) 0 l)%N
  | JObject m => (1 + foldr (fun p d => N.max (json_depth p.2) d) 0 m)%N
  | _ => 0%N
  end.

Lemma next_self b r : is_space b = false -> next b (b :: r) = Some r.
Proof. intros Hs. unfold next. cbn [skip_ws]. rewrite Hs. by rewrite Z.eqb_refl. Qed.
Lemma next_other b c r : is_space c = false -> c <> b -> next b (c :: r) = None.
Proof. intros Hs Hne. unfold next. cbn [skip_ws]. rewrite Hs. by rewrite (proj2 (Z.eqb_neq c b) Hne). Qed.

(** A printed value begins with a byte that is no space and closes nothing. *)
Lemma print_head v : wf_json v -> exists b l, print_bytes v = b :: l /\ is_space b = false /\ b <> 93%Z /\ b <> 125%Z.
Proof.
  destruct v as [|[]|t|s|l|m]; intros Hwf; try (by eexists _, _).
  destruct Hwf as [z ->]. cbn [print_bytes]. unfold strconv_Itoa. destruct z as [|p|p]; [by eexists _, _| |].
  - destruct (pretty_N_go_head (N.pos p) "" ltac:(lia)) as (d & l & E & Hd). exists d, l. split; [exact E|].
    split; [|lia]. unfold is_space. simpl. lia.
  - change (pretty (Z.neg p)) with ("-" +:+ pretty (N.pos p)). rewrite bytes_app. by eexists _, _.
Qed.

Lemma read_atom_number z r : stops r -> read_atom (bytes (strconv_Itoa z) ++ r) = Some (JNumber (strconv_Itoa z), r).
Proof.
  intros Hr. unfold read_atom. pose proof (read_number_Itoa z r Hr) as Hn.
  destruct (print_head (JNumber (strconv_Itoa z)) ltac:(by exists z)) as (b & l & E & _). cbn [print_bytes] in E.
  assert (b <> 110 /\ b <> 116 /\ b <> 102)%Z as (H1 & H2 & H3).
  { destruct z as [|p|p]; unfold strconv_Itoa in E.
    - injection E as <- _. done.
    - destruct (pretty_N_go_head (N.pos p) "" ltac:(lia)) as (d & l' & E' & Hd).
      change (bytes (pretty (Z.pos p))) with (bytes (pretty_N_go (N.pos p) "")) in E. rewrite E' in E. injection E as <- _. lia.
    - change (pretty (Z.neg p)) with ("-" +:+ pretty (N.pos p)) in E. rewrite bytes_app in E. injection E as <- _. done. }
  rewrite Hn, of_bytes_bytes. rewrite E. cbn [app]. unfold bytes. cbn [String.list_ascii_of_string map has_prefix].
  rewrite !(proj2 (Z.eqb_neq _ b)) by (vm_compute byte_of; lia). done.
Qed.

Lemma commas_head x l : exists r, commas (x :: l) = x ++ r.
Proof. destruct l as [|y l]; [exists []; by rewrite app_nil_r|by eexists]. Qed.
Lemma commas_cons x l : l <> [] -> commas (x :: l) = x ++ 44%Z :: commas l.
Proof. by destruct l. Qed.

(** What is printed is read back, in front of any text that may follow a
    value, with more fuel than twice what is printed. *)
Definition reads (v : Json) : Prop := forall f d r, wf_json v -> stops r -> (json_depth v <= d)%N -> 2 * length (print_bytes v) < f ->
  read_value f d (print_bytes v ++ r) = Some (v, r).

Lemma read_elements_printed l f d r : l <> [] -> Forall reads l -> wf_json (JArray l) -> (json_depth (JArray l) <= d + 1)%N ->
  2 * length (commas (map print_bytes l)) + 1 < f ->
  read_elements f d (commas (map print_bytes l) ++ 93%Z :: r) = Some (l, r).
Proof.
  revert f. induction l as [|v l IH]; intros f Hne HF Hwf Hd Hf; [done|]. apply Forall_cons in HF as [Hv HF].
  destruct Hwf as [Hwv Hwl]. cbn [json_depth foldr] in Hd. destruct f as [|f]; [lia|]. cbn [read_elements map] in *.
  destruct (decide (l = [])) as [->|Hl].
  - cbn [map commas] in *. rewrite Hv; [|done|set_solver|lia|lia]. rewrite next_other by done. by rewrite next_self by done.
  - rewrite commas_cons in * by (by destruct l). rewrite <-app_assoc. rewrite length_app in Hf. cbn [length] in Hf. cbn [app].
    rewrite Hv; [|done|set_solver|lia|lia]. rewrite next_self by done.
    rewrite IH; [done|done|done|done|cbn [json_depth]; lia|lia].
Qed.

Definition member (p : string * Json) : list Z := bytes (json_string p.1) ++ 58%Z :: print_bytes p.2.

Lemma read_members_printed m f d r : m <> [] -> Forall (fun p => reads p.2) m -> wf_json (JObject m) -> (json_depth (JObject m) <= d + 1)%N ->
  2 * length (commas (map member m)) + 1 < f ->
  read_members f d (commas (map member m) ++ 125%Z :: r) = Some (m, r).
Proof.
  revert f. induction m as [|[k v] m IH]; intros f Hne HF Hwf Hd Hf; [done|]. apply Forall_cons in HF as [Hv HF].
  destruct Hwf as [[Hk Hwv] Hwl]. cbn [json_depth foldr fst snd] in Hd, Hv, Hk, Hwv. destruct f as [|f]; [lia|]. cbn [read_members map] in *.
  assert (forall rest, exists l, member (k, v) ++ rest = 34%Z :: l /\ read_string l = Some (k, 58%Z :: print_bytes v ++ rest)) as Hmem.
  { intros rest. unfold member. cbn [fst snd]. rewrite <-app_assoc. destruct (read_string_printed k ((58%Z :: print_bytes v) ++ rest) Hk) as (l & -> & Hl).
    by exists l. }
  assert (2 * length (print_bytes v) + 2 <= 2 * length (member (k, v))) as Hlen.
  { unfold member. cbn [snd]. rewrite length_app. simpl. lia. }
  destruct (decide (m = [])) as [->|Hl].
  - cbn [map commas] in *. destruct (Hmem (125%Z :: r)) as (l & -> & Hrs). rewrite next_self, Hrs by done. cbv iota. rewrite next_self by done.
    rewrite Hv; [|done|set_solver|lia|lia]. rewrite next_other by done. by rewrite next_self by done.
  - rewrite commas_cons in * by (by destruct m). rewrite <-app_assoc. rewrite length_app in Hf. cbn [length] in Hf. cbn [app].
    destruct (Hmem (44%Z :: commas (map member m) ++ 125%Z :: r)) as (l & -> & Hrs). rewrite next_self, Hrs by done. cbv iota. rewrite next_self by done.
    rewrite Hv; [|done|set_solver|lia|lia]. rewrite next_self by done.
    rewrite IH; [done|done|done|done|cbn [json_depth]; lia|lia].
Qed.

Lemma read_value_printed v : reads v.
Proof.
  induction v as [|b|t|s|l HF|m HF] using Json_nested_ind; intros f d r Hwf Hs Hd Hf; (destruct f as [|f]; [lia|]).
  - done.
  - by destruct b.
  - destruct Hwf as [z ->]. pose proof (read_atom_number z r Hs) as Ha. cbn [print_bytes] in *.
    destruct (print_head (JNumber (strconv_Itoa z)) ltac:(by exists z)) as (b & l & E & Hsp & _). cbn [print_bytes] in E.
    assert (b <> 34 /\ b <> 91 /\ b <> 123)%Z as (H1 & H2 & H3).
    { destruct (decide (b = 34 \/ b = 91 \/ b = 123)%Z) as [Hb|]; [|lia]. exfalso. rewrite E in Ha. cbn [app] in Ha.
      destruct Hb as [->|[->| ->]]; by vm_compute in Ha. }
    rewrite E in *. cbn [app read_value skip_ws] in *. rewrite Hsp. by rewrite !(proj2 (Z.eqb_neq b _)) by done.
  - cbn [print_bytes]. destruct (read_string_printed s r Hwf) as (l & -> & Hl). cbn [read_value skip_ws is_space existsb]. simpl.
    by rewrite Hl.
  - cbn [print_bytes json_depth] in *. cbn [app read_value skip_ws]. change (is_space 91) with false. cbn [Z.eqb Pos.eqb].
    rewrite (proj2 (N.eqb_neq d 0)) by lia. rewrite <-app_assoc. cbn [app].
    destruct (decide (l = [])) as [->|Hne]; [done|].
    assert (next 93 (commas (map print_bytes l) ++ 93%Z :: r) = None) as ->.
    { destruct l as [|v l]; [done|]. destruct (print_head v (proj1 Hwf)) as (b & l' & E & Hsp & Hb & _). cbn [map].
      destruct (commas_head (print_bytes v) (map print_bytes l)) as [t ->]. rewrite E. by apply next_other. }
    cbn [length] in Hf. rewrite length_app in Hf. rewrite read_elements_printed; [done|done|done|done|cbn [json_depth]; lia|lia].
  - cbn [print_bytes json_depth] in *. cbn [app read_value skip_ws]. change (is_space 123) with false. cbn [Z.eqb Pos.eqb].
    rewrite (proj2 (N.eqb_neq d 0)) by lia. rewrite <-app_assoc. cbn [app].
    destruct (decide (m = [])) as [->|Hne]; [done|]. fold member in *.
    assert (next 125 (commas (map member m) ++ 125%Z :: r) = None) as ->.
    { destruct m as [|p m]; [done|]. cbn [map].
      destruct (commas_head (member p) (map member m)) as [t ->]. unfold member at 1. rewrite json_string_bytes. by apply next_other. }
    cbn [length] in Hf. rewrite length_app in Hf. rewrite read_members_printed; [done|done|done|done|cbn [json_depth]; lia|lia].
Qed.

Lemma commas_byte l : Forall (Forall is_byte) l -> Forall is_byte (commas l).
Proof.
  induction 1 as [|x l Hx Hl IH]; [constructor|]. destruct l as [|y l]; [done|]. rewrite commas_cons by done.
  apply Forall_app. split; [done|]. constructor; [by unfold is_byte|done].
Qed.

Lemma print_byte v : Forall is_byte (print_bytes v).
Proof.
  induction v as [|b|t|s|l HF|m HF] using Json_nested_ind; cbn [print_bytes]; try apply bytes_byte.
  - constructor; [by unfold is_byte|]. apply Forall_app. split; [|by repeat constructor; unfold is_byte]. apply commas_byte. by apply Forall_map.
  - constructor; [by unfold is_byte|]. apply Forall_app. split; [|by repeat constructor; unfold is_byte]. apply commas_byte, Forall_map.
    eapply Forall_impl; [exact HF|]. intros p Hp. apply Forall_app. split; [apply bytes_byte|]. constructor; [by unfold is_byte|done].
Qed.

(** Printing loses nothing: what is printed of a value is read back as the
    value. *)
Lemma json_parse_print v : wf_json v -> (json_depth v <= maxNestingDepth)%N -> json_parse (json_print v) = Some v.
Proof.
  intros Hwf Hd. assert (bytes (json_print v) = print_bytes v) as Eb by apply bytes_of_bytes, print_byte.
  rewrite (json_parse_fuel _ _ (le_n _)). rewrite Eb. pose proof (read_value_printed v (read_fuel (print_bytes v)) maxNestingDepth []) as Hr.
  rewrite app_nil_r in Hr. rewrite Hr; [done|done|done|done|unfold read_fuel; lia].
Qed.

(** ** Assigning to a struct *)

(** The folding of a key: names are in ASCII, and of the runes beyond it only
    the long s and the Kelvin sign fold to a letter of ASCII. *)
Definition fold_rune (r : Z) : Z :=
  if (97 <=? r)%Z && (r <=? 122)%Z then (r - 32)%Z else if (r =? 383)%Z then 83%Z else if (r =? 8490)%Z then 75%Z else r.
Definition fold_name (s : string) : list Z := map fold_rune (runes (length (bytes s)) (bytes s)).

(** How a value is assigned to a field of [A]; [None] is an error of type. *)
Record Field (A : Type) : Type := mkField { fld_name : string; fld_set : Json -> A -> option A }.
Arguments mkField {A}.
Arguments fld_name {A}.
Arguments fld_set {A}.

(** Members without a field are ignored, later ones override earlier ones. *)
Definition assign {A} (fields : list (Field A)) (p : string * Json) (a : A) : option A :=
  match find (fun f => bool_decide (fold_name (fld_name f) = fold_name p.1)) fields with
  | Some f => fld_set f p.2 a
  | None => Some a
  end.
Definition assign_all {A} (fields : list (Field A)) (m : list (string * Json)) (o : option A) : option A :=
  foldl (fun o p => match o with Some a => assign fields p a | None => None end) o m.
Definition decode_struct {A} (fields : list (Field A)) (v : Json) (a : A) : option A :=
  match v with
  | JNull => Some a
  | JObject m => assign_all fields m (Some a)
  | _ => None
  end.

(** null leaves a field as it is; a pointer becomes nil. *)
Definition into_string {A} (set : string -> A -> A) (v : Json) (a : A) : option A :=
  match v with JNull => Some a | JString s => Some (set s a) | _ => None end.
Definition into_bool {A} (set : bool -> A -> A) (v : Json) (a : A) : option A :=
  match v with JNull => Some a | JBool b => Some (set b a) | _ => None end.
(** A number goes to an [int] or [int64] when [strconv.ParseInt] reads it. *)
Definition into_int {A} (set : Z -> A -> A) (v : Json) (a : A) : option A :=
  match v with JNull => Some a | JNumber t => option_map (fun z => set z a) (ParseInt t) | _ => None end.
(** A type that reads its own text. *)
Definition into_text {A B} (parse : string -> option B) (set : B -> A -> A) (v : Json) (a : A) : option A :=
  match v with JNull => Some a | JString s => option_map (fun b => set b a) (parse s) | _ => None end.
Definition into_text_ptr {A B} (parse : string -> option B) (set : option B -> A -> A) (v : Json) (a : A) : option A :=
  match v with JNull => Some (set None a) | JString s => option_map (fun b => set (Some b) a) (parse s) | _ => None end.
(** [json.RawMessage], kept as its value. *)
Definition into_raw {A} (set : option Json -> A -> A) (v : Json) (a : A) : option A := Some (set (Some v) a).
(** [map[string]bool], kept as its entries; null is the zero value. *)
Definition flag_of (v : Json) : option bool := match v with JNull => Some false | JBool b => Some b | _ => None end.
Definition put_flag (k : string) (b : bool) (l : list (string * bool)) : list (string * bool) :=
  List.filter (fun kv => negb (String.eqb kv.1 k)) l ++ [(k, b)].
Definition read_flags (m : list (string * Json)) (l : list (string * bool)) : option (list (string * bool)) :=
  foldl (fun o p => match o, flag_of p.2 with Some l, Some b => Some (put_flag p.1 b l) | _, _ => None end) (Some l) m.
Definition into_flags {A} (get : A -> list (string * bool)) (set : list (string * bool) -> A -> A) (v : Json) (a : A) : option A :=
  match v with
  | JNull => Some (set [] a)
  | JObject m => option_map (fun l => set l a) (read_flags m (get a))
  | _ => None
  end.

(** [json.Unmarshal] into a struct. *)
Definition unmarshal {A} (fields : list (Field A)) (s : string) (a : A) : option A :=
  match json_parse s with Some v => decode_struct fields v a | None => None end.

(** *** Reading back what was printed *)

Lemma assign_all_app {A} (fields : list (Field A)) m m' o : assign_all fields (m ++ m') o = assign_all fields m' (assign_all fields m o).
Proof. apply foldl_app. Qed.
Lemma assign_all_cons {A} (fields : list (Field A)) p m a : assign_all fields (p :: m) (Some a) = assign_all fields m (assign fields p a).
Proof. done. Qed.

Lemma assign_field {A} (fields : list (Field A)) k v a f :
  find (fun f => bool_decide (fold_name (fld_name f) = fold_name k)) fields = Some f -> assign fields (k, v) a = fld_set f v a.
Proof. unfold assign. cbn [fst snd]. by intros ->. Qed.

Lemma read_flags_printed l acc : NoDup (map fst (acc ++ l)) ->
  read_flags (map (fun p => (p.1, JBool p.2)) l) acc = Some (acc ++ l).
Proof.
  revert acc. induction l as [|[k b] l IH]; intros acc Hnd; [by rewrite app_nil_r|].
  unfold read_flags. cbn [map foldl fst snd flag_of]. unfold put_flag.
  assert (List.filter (fun kv => negb (String.eqb kv.1 k)) acc = acc) as ->.
  { rewrite map_app, NoDup_app in Hnd. destruct Hnd as (_ & Hd & _). clear IH. induction acc as [|[k' b'] acc IH]; [done|].
    simpl. destruct (String.eqb_spec k' k) as [->|Hne].
    - exfalso. apply (Hd k); simpl; left.
    - simpl. f_equal. apply IH. intros x Hx. apply Hd. simpl. by right. }
  change (read_flags (map (fun p => (p.1, JBool p.2)) l) (acc ++ [(k, b)]) = Some (acc ++ (k, b) :: l)).
  rewrite (IH (acc ++ [(k, b)])); by rewrite <-app_assoc.
Qed.

Lemma json_plain_valid s : json_plain s -> utf8_ValidString s = true.
Proof.
  unfold json_plain, utf8_ValidString. induction (bytes s) as [|b l IH]; [done|]. intros [Hb Hl]%Forall_cons. cbn [length valid_bytes utf8_len].
  assert (b < 128)%Z as Hlt by (unfold json_safe in Hb; bool_prop; lia). rewrite (proj2 (Z.ltb_lt _ _) Hlt). by apply IH.
Qed.

Lemma wf_object m : Forall (fun p => utf8_ValidString p.1 = true /\ wf_json p.2) m -> wf_json (JObject m).
Proof. by induction 1. Qed.
Lemma depth_object m d : Forall (fun p => (json_depth p.2 <= d)%N) m -> (json_depth (JObject m) <= 1 + d)%N.
Proof.
  intros HF. enough (foldr (fun p d => N.max (json_depth p.2) d) 0 m <= d)%N by (cbn [json_depth]; lia).
  induction HF as [|p m Hp _ IH]; cbn [foldr]; lia.
Qed.
Lemma depth_text v : match v with JArray _ | JObject _ => False | _ => True end -> json_depth v = 0%N.
Proof. by destruct v. Qed.
