(* ===== verification/Keyset.v ===== *)
(** * Tables that others change

    Keyset pagination: the bounded listings of the PostgreSQL stores share one
    shape: the rows that match, ORDER BY created_at DESC, id DESC, one more than
    the page holds, and a cursor that names the last row shown.  The order, a
    page, and a client that follows the cursors while the table changes.

    Programs that keep a relation on the tables: the services run against a
    world of which the tables are a part; other processes move between their
    statements.  [keeps F m]: from tables that satisfy [F], whatever [m] does
    ends in tables related by [R] to where it began.  The rules follow the
    program; what a step learns of the tables goes on to the next one as its
    [F], if [R] keeps it. *)

From S2P Require Import Prelude.

Section keyset.
Context {A : Type} (at_ : A -> time) (id_ : A -> uuid).

(** ORDER BY created_at DESC, id DESC *)
Definition newer (a b : A) : Prop :=
  (at_ b < at_ a)%Z \/ (at_ a = at_ b /\ (id_ b <= id_ a)%N).
#[export] Instance newer_dec a b : Decision (newer a b).
Proof. unfold newer. apply _. Defined.

(** One page of at most [limit] rows, and the row its cursor names when more
    follow. *)
Definition keyset_page (limit : nat) (rows : list A) : list A * option A :=
  let out := take (limit + 1) (merge_sort newer rows) in
  if Nat.ltb limit (length out) then (take limit out, last (take limit out)) else (out, None).

Lemma keyset_page_sub limit rows : (keyset_page limit rows).1 ⊆ rows.
Proof.
  unfold keyset_page. intros t Ht. rewrite <- (merge_sort_Permutation newer).
  destruct (Nat.ltb _ _); simpl in Ht; repeat apply subseteq_take in Ht; done.
Qed.

(** A position in the listing: (created_at, id) < (t, i) *)
Definition past (p : option (time * uuid)) (x : A) : bool :=
  match p with
  | None => true
  | Some (t, i) => (at_ x <? t)%Z || ((at_ x =? t)%Z && (id_ x <? i)%N)
  end.
Definition position (x : A) : option (time * uuid) := Some (at_ x, id_ x).

(** Strictly later in the listing. *)
Definition precedes (a b : A) : Prop := (at_ b < at_ a)%Z \/ (at_ b = at_ a /\ (id_ b < id_ a)%N).
#[export] Instance precedes_dec a b : Decision (precedes a b).
Proof. unfold precedes. apply _. Defined.
#[export] Instance newer_total : Total newer.
Proof. intros a b. unfold newer. lia. Qed.
#[export] Instance newer_trans : Transitive newer.
Proof. intros a b c. unfold newer. lia. Qed.
#[export] Instance precedes_trans : Transitive precedes.
Proof. intros a b c. unfold precedes. lia. Qed.

Lemma precedes_irrefl a : ~ precedes a a.
Proof. unfold precedes. lia. Qed.
Lemma newer_precedes a b : newer a b -> id_ a <> id_ b -> precedes a b.
Proof. unfold precedes, newer. lia. Qed.
Lemma past_spec t x : past (position t) x = true <-> precedes t x.
Proof. unfold past, position, precedes. rewrite orb_true_iff, andb_true_iff, Z.ltb_lt, Z.eqb_eq, N.ltb_lt. lia. Qed.
(** Where one row is past a position, whatever it precedes is too. *)
Lemma past_mono p t x : past p t = true -> precedes t x -> past p x = true.
Proof.
  unfold past, precedes. destruct p as [[s i]|]; [|done].
  rewrite !orb_true_iff, !andb_true_iff, !Z.ltb_lt, !Z.eqb_eq, !N.ltb_lt. lia.
Qed.

Lemma sorted_strict l : NoDup (map id_ l) -> StronglySorted newer l -> StronglySorted precedes l.
Proof.
  intros Hnd Hs. induction Hs as [|a l Hs IH Ha]; [constructor|].
  simpl in Hnd. apply NoDup_cons in Hnd as [Hni Hnd]. constructor; [by apply IH|].
  apply Forall_forall. intros b Hb. rewrite Forall_forall in Ha. apply newer_precedes; [by apply Ha|].
  intros E. apply Hni. rewrite E. apply list_elem_of_fmap. by exists b.
Qed.

(** The elements after one of a strictly sorted list are the ones it precedes. *)
Lemma filter_after l n t :
  StronglySorted precedes l -> l !! n = Some t -> filter (precedes t) l = drop (S n) l.
Proof.
  revert n. induction l as [|a l IH]; intros n Hs Hn; [done|].
  apply StronglySorted_inv in Hs as [Hs Ha]. destruct n as [|n]; simpl in *.
  - injection Hn as ->. rewrite filter_cons_False by apply precedes_irrefl. rewrite drop_0.
    by apply filter_all.
  - rewrite filter_cons_False; [by rewrite (IH n)|].
    intros Ht. rewrite Forall_forall in Ha. apply (precedes_irrefl a).
    transitivity t; [|done]. apply Ha. by eapply list_elem_of_lookup_2.
Qed.

Lemma sorted_take n l :
  StronglySorted precedes l ->
  StronglySorted precedes (take n l) /\ forall t, l !! (n - 1) = Some t -> 0 < n ->
    Forall (fun x => x = t \/ precedes x t) (take n l).
Proof.
  intros Hl. assert (StronglySorted precedes (take n l)) as Ht.
  { rewrite <-(take_drop n l) in Hl. by apply StronglySorted_app in Hl as (_ & ? & _). }
  split; [done|]. intros t Hn Hpos. apply Forall_forall. intros x Hx.
  rewrite <-(take_drop_middle l (n - 1) t Hn) in Hl. replace n with (S (n - 1)) in Hx by lia.
  rewrite (take_S_r _ _ t) in Hx by done. apply elem_of_app in Hx as [Hx|Hx%list_elem_of_singleton]; [right|by left].
  eapply (StronglySorted_app_1_elem_of precedes); [exact Hl|done|apply list_elem_of_here].
Qed.

(** ** Walking the pages *)

(** What other requests may do to the table between two pages: whatever is
    there afterwards either was there at the same position or is newer than
    everything that was there. *)
Definition moves_on (rows rows' : list A) : Prop := forall t', t' ∈ rows' ->
  (exists t, t ∈ rows /\ id_ t = id_ t' /\ at_ t = at_ t') \/ (forall t, t ∈ rows -> precedes t' t).

Lemma moves_on_refl rows : moves_on rows rows.
Proof. intros t Ht. left. by exists t. Qed.

Definition distinct (rows : list A) : Prop := NoDup (map id_ rows).

(** The number of rows behind a position shrinks from page to page. *)
Definition behind (p : option (time * uuid)) (rows : list A) : gset uuid :=
  list_to_set (map id_ (filter (fun x => past p x = true) rows)).

Lemma elem_of_behind p rows i : i ∈ behind p rows <-> exists x, x ∈ rows /\ past p x = true /\ id_ x = i.
Proof.
  unfold behind. rewrite elem_of_list_to_set, list_elem_of_fmap. setoid_rewrite list_elem_of_filter. naive_solver.
Qed.

Lemma behind_le p rows : size (behind p rows) <= length rows.
Proof.
  trans (size (list_to_set (map id_ rows) : gset uuid)).
  - apply subseteq_size. intros i (x & Hx & _ & <-)%elem_of_behind. apply elem_of_list_to_set, list_elem_of_fmap. by exists x.
  - induction rows as [|x rows IH]; [done|]. simpl. rewrite size_union_alt, size_singleton.
    pose proof (subseteq_size (list_to_set (map id_ rows) ∖ {[id_ x]} : gset uuid) (list_to_set (map id_ rows)) ltac:(set_solver)). lia.
Qed.

Lemma behind_lt p rows rows' t :
  distinct rows -> moves_on rows rows' -> t ∈ rows -> past p t = true ->
  size (behind (position t) rows') < size (behind p rows).
Proof.
  intros Hd Hmv Ht Hp. apply subset_size, strict_spec_alt.
  assert (forall x, x ∈ rows' -> past (position t) x = true -> exists y, y ∈ rows /\ id_ y = id_ x /\ precedes t y) as Hrow.
  { intros x Hx Ha%past_spec. destruct (Hmv x Hx) as [(y & Hy & Ei & Ec)|Hnew].
    - exists y. split_and!; [done..|]. revert Ha. unfold precedes. by rewrite Ei, Ec.
    - exfalso. apply (precedes_irrefl x). transitivity t; [by apply Hnew|done]. }
  assert (forall y, y ∈ rows -> id_ y = id_ t -> y = t) as Hinj.
  { intros y Hy E. unfold distinct in Hd. apply list_elem_of_lookup in Hy as [i Hi], Ht as [j Hj].
    assert (i = j) as ->; [|congruence].
    eapply (NoDup_lookup (map id_ rows)); [done|rewrite list_lookup_fmap, Hi; done|].
    rewrite list_lookup_fmap, Hj. simpl. congruence. }
  split.
  - intros i (x & Hx & Ha & <-)%elem_of_behind. destruct (Hrow x Hx Ha) as (y & Hy & Ei & Hty).
    apply elem_of_behind. exists y. split_and!; [done| |done]. by eapply past_mono.
  - intros E. assert (id_ t ∈ behind (position t) rows') as Hin by (rewrite E; apply elem_of_behind; by exists t).
    apply elem_of_behind in Hin as (x & Hx & Ha & Ei). destruct (Hrow x Hx Ha) as (y & Hy & Ey & Hty).
    rewrite (Hinj y Hy) in Hty by congruence. by apply precedes_irrefl in Hty.
Qed.

Section walk.
Variables (want : A -> bool) (limit : nat).

Definition remaining (p : option (time * uuid)) (rows : list A) : list A :=
  filter (fun x => want x && past p x = true) rows.

(** The matching rows behind a position, in order. *)
Definition listing (p : option (time * uuid)) (rows : list A) : list A := merge_sort newer (remaining p rows).

(** A client that follows the cursors, its [n]-th request answered from the
    [n]-th state of the table. *)
Fixpoint keyset_walk (rows : nat -> list A) (fuel n : nat) (p : option (time * uuid)) : option (list A) :=
  match fuel with
  | O => None
  | S fuel' =>
      let '(page, next) := keyset_page limit (remaining p (rows n)) in
      match next with
      | None => Some page
      | Some t => option_map (app page) (keyset_walk rows fuel' (S n) (position t))
      end
  end.

Lemma remaining_distinct p rows : distinct rows -> distinct (remaining p rows).
Proof.
  unfold distinct, remaining. induction rows as [|x rows IH]; simpl; [done|]. intros [Hx Hd]%NoDup_cons.
  rewrite filter_cons. case_decide; [|by apply IH]. simpl. apply NoDup_cons. split; [|by apply IH].
  intros (y & E & [_ Hy]%list_elem_of_filter)%list_elem_of_fmap. apply Hx, list_elem_of_fmap. by exists y.
Qed.

Lemma listing_elem p rows t : t ∈ listing p rows <-> t ∈ rows /\ want t = true /\ past p t = true.
Proof. unfold listing. rewrite merge_sort_Permutation. unfold remaining. rewrite list_elem_of_filter, andb_true_iff. tauto. Qed.

Lemma listing_sorted p rows : distinct rows -> StronglySorted precedes (listing p rows).
Proof.
  intros Hd. apply sorted_strict; [|by apply Sorted_StronglySorted, Sorted_merge_sort; apply _].
  unfold listing. rewrite merge_sort_Permutation. by apply remaining_distinct.
Qed.

Lemma keyset_page_spec p rows :
  0 < limit ->
  keyset_page limit (remaining p rows) =
    (take limit (listing p rows),
     match listing p rows !! (limit - 1), drop limit (listing p rows) with
     | Some t, _ :: _ => Some t
     | _, _ => None
     end).
Proof.
  intros Hn. unfold keyset_page. fold (listing p rows). set (L := listing p rows). rewrite length_take.
  destruct (Nat.ltb_spec limit ((limit + 1) `min` length L)) as [Hlt|Hge].
  - rewrite take_take, Nat.min_l by lia. rewrite last_lookup, length_take, Nat.min_l by lia.
    replace (pred limit) with (limit - 1) by lia. rewrite lookup_take_lt by lia.
    destruct (lookup_lt_is_Some_2 L (limit - 1) ltac:(lia)) as [t ->].
    destruct (drop limit L) eqn:Hd; [|done]. apply (f_equal length) in Hd. rewrite length_drop in Hd. simpl in Hd. lia.
  - rewrite (drop_ge L limit) by lia. rewrite !take_ge by lia. by destruct (L !! (limit - 1)).
Qed.

(** A page is the rest of the listing, or the listing goes on behind the row
    its cursor names. *)
Lemma keyset_page_cases p rows :
  0 < limit ->
  (length (listing p rows) <= limit /\ keyset_page limit (remaining p rows) = (listing p rows, None)) \/
  exists t, listing p rows !! (limit - 1) = Some t /\ limit < length (listing p rows) /\
    keyset_page limit (remaining p rows) = (take limit (listing p rows), Some t).
Proof.
  intros Hn. rewrite keyset_page_spec by done. set (L := listing p rows).
  destruct (drop limit L) as [|x rest] eqn:Hd; apply (f_equal length) in Hd; rewrite length_drop in Hd; simpl in Hd.
  - left. split; [lia|]. rewrite take_ge by lia. by destruct (L !! _).
  - right. destruct (lookup_lt_is_Some_2 L (limit - 1) ltac:(lia)) as [t Ht]. exists t. rewrite Ht. split_and!; [done|lia|done].
Qed.

Lemma keyset_walk_moving rows fuel n p :
  0 < limit -> (forall m, distinct (rows m)) -> (forall m, moves_on (rows m) (rows (S m))) ->
  size (behind p (rows n)) < fuel ->
  exists l, keyset_walk rows fuel n p = Some l /\ StronglySorted precedes l /\
    (forall t, t ∈ l -> want t = true /\ past p t = true /\ exists m, n <= m /\ t ∈ rows m) /\
    (forall t, want t = true -> past p t = true -> (forall m, n <= m -> t ∈ rows m) -> t ∈ l).
Proof.
  intros Hlim Hd Hmv. revert n p. induction fuel as [|fuel IH]; intros n p Hfuel; [lia|]. cbn [keyset_walk].
  destruct (keyset_page_cases p (rows n) Hlim) as [[_ ->]|(t & Ht & Hlen & ->)].
  - eexists. split; [done|]. split; [by apply listing_sorted|]. split.
    + intros t (? & ? & ?)%listing_elem. split_and!; [done..|]. by exists n.
    + intros t Hw Hp Hrow. apply listing_elem. split_and!; [by apply Hrow|done..].
  - assert (t ∈ listing p (rows n)) as Hin by (by eapply list_elem_of_lookup_2).
    apply listing_elem in Hin as (Hrow & _ & Hp).
    pose proof (behind_lt p (rows n) (rows (S n)) t (Hd n) (Hmv n) Hrow Hp) as Hlt.
    destruct (IH (S n) (position t) ltac:(lia)) as (l & -> & Hsl & Hsound & Hcomplete).
    destruct (sorted_take limit _ (listing_sorted p (rows n) (Hd n))) as [Hst1 Hlast].
    specialize (Hlast t Ht Hlim). eexists. split; [done|].
    assert (forall x, x ∈ l -> precedes t x) as Hafter by (intros x (_ & Hx & _)%Hsound; by apply past_spec).
    split_and!.
    + apply StronglySorted_app. split_and!; [|done|done]. intros x y Hx Hy. specialize (Hafter y Hy).
      rewrite Forall_forall in Hlast. destruct (Hlast x Hx) as [->|?]; [done|by transitivity t].
    + intros x [Hx|Hx]%elem_of_app.
      * apply (subseteq_take limit) in Hx. apply listing_elem in Hx as (? & ? & ?). split_and!; [done..|]. by exists n.
      * destruct (Hsound x Hx) as (Hw & Hpx & m & Hle & Hr). split_and!; [done|by eapply past_mono, Hafter|].
        exists m. split; [lia|done].
    + intros x Hw Hpx Hrows. apply elem_of_app.
      assert (x ∈ listing p (rows n)) as Hx by (apply listing_elem; split_and!; [by apply Hrows|done..]).
      rewrite <-(take_drop limit (listing p (rows n))) in Hx. apply elem_of_app in Hx as [Hx|Hx]; [by left|right].
      apply Hcomplete; [done| |intros m Hle; apply Hrows; lia]. apply past_spec.
      replace limit with (S (limit - 1)) in Hx by lia.
      rewrite <-(filter_after _ _ t) in Hx; [|by apply listing_sorted|done]. by apply list_elem_of_filter in Hx as [? _].
Qed.
End walk.
End keyset.

(** ** Keeping a relation *)

Section keeping.
Context {S T E : Type} (tables : S -> T) (R : T -> T -> Prop) `{!PreOrder R}.

Definition keeps {A} (F : T -> Prop) (m : act S E A) : Prop := forall s, F (tables s) -> R (tables s) (tables (m s).2).
Definition stable (F : T -> Prop) : Prop := forall a b, F a -> R a b -> F b.
Definition anything : T -> Prop := fun _ => True.

Lemma stable_anything : stable anything.
Proof. done. Qed.

Lemma keeps_weaken {A} (F G : T -> Prop) (m : act S E A) : keeps G m -> (forall t, F t -> G t) -> keeps F m.
Proof. intros Hm HF s Hs. by apply Hm, HF. Qed.

(** A step that leaves the tables alone. *)
Lemma keeps_idle {A} F (m : act S E A) : (forall s, tables (m s).2 = tables s) -> keeps F m.
Proof. intros Hm s _. rewrite Hm. reflexivity. Qed.
Lemma keeps_ret {A} F (a : A) : keeps F (act_ret a).
Proof. by apply keeps_idle. Qed.
Lemma keeps_fail {A} F e : keeps F (act_fail e : act S E A).
Proof. by apply keeps_idle. Qed.
Lemma keeps_lift {A} F (r : res E A) : keeps F (act_lift r).
Proof. by apply keeps_idle. Qed.
Lemma keeps_mod F (f : S -> S) : (forall s, tables (f s) = tables s) -> keeps F (act_mod f).
Proof. intros Hf. by apply keeps_idle. Qed.
Lemma keeps_if {A} F (b : bool) (m1 m2 : act S E A) : keeps F m1 -> keeps F m2 -> keeps F (if b then m1 else m2).
Proof. by destruct b. Qed.
Lemma keeps_try {A} F (m : act S E A) : keeps F m -> keeps F (act_try m).
Proof. intros Hm s Hs. specialize (Hm s Hs). unfold act_try. by destruct (m s). Qed.

(** What the first step learns, [Q], of its result and of the tables. *)
Lemma keeps_bind_learn {A B} (F : T -> Prop) (Q : A -> T -> Prop) (m : act S E A) (f : A -> act S E B) :
  (forall s a s', F (tables s) -> m s = (Ok a, s') -> Q a (tables s')) -> keeps F m -> (forall a, keeps (Q a) (f a)) ->
  keeps F (act_bind m f).
Proof.
  intros HQ Hm Hf s Hs. specialize (Hm s Hs). unfold act_bind. destruct (m s) as [[a|e] s'] eqn:Em; [|done].
  simpl in Hm. etrans; [exact Hm|]. apply Hf. by eapply HQ.
Qed.

Lemma keeps_bind {A B} F (m : act S E A) (f : A -> act S E B) :
  stable F -> keeps F m -> (forall a, keeps F (f a)) -> keeps F (act_bind m f).
Proof.
  intros HF Hm. apply keeps_bind_learn; [|done]. intros s a s' Hs Em. specialize (Hm s Hs). rewrite Em in Hm. by eapply HF.
Qed.

(** A fact of the value a step gives. *)
Lemma keeps_bind_post {A B} (F : T -> Prop) (Q : A -> Prop) (m : act S E A) (f : A -> act S E B) :
  stable F -> (forall s a s', m s = (Ok a, s') -> Q a) -> keeps F m -> (forall a, Q a -> keeps F (f a)) ->
  keeps F (act_bind m f).
Proof.
  intros HF HQ Hm Hf. apply (keeps_bind_learn F (fun a t => Q a /\ F t)); [|done|].
  - intros s a s' Hs Em. split; [by eapply HQ|]. specialize (Hm s Hs). rewrite Em in Hm. by eapply HF.
  - intros a s [Ha Hs]. by apply Hf.
Qed.

(** One transaction on the tables. *)
Definition is_tx {A} (m : act S E A) (op : time -> T -> res E (A * T)) : Prop :=
  forall s, exists lift t, R (tables s) (tt_others t (tables s)) /\
    run_tx lift t op (tables s) = ((m s).1, tables (m s).2).

Lemma is_tx_Ok {A} (m : act S E A) op s a s' :
  is_tx m op -> m s = (Ok a, s') ->
  exists t, R (tables s) (tt_others t (tables s)) /\ op (tt_now t) (tt_others t (tables s)) = Ok (a, tables s').
Proof.
  intros Hm Em. destruct (Hm s) as (lift & t & Ht & Hr). exists t. split; [done|].
  rewrite Em in Hr. simpl in Hr. by apply run_tx_Ok in Hr.
Qed.

Lemma keeps_tx {A} F (m : act S E A) op :
  stable F -> is_tx m op -> (forall now t a t', F t -> op now t = Ok (a, t') -> R t t') -> keeps F m.
Proof.
  intros HF Hm Hop s Hs. destruct (Hm s) as (lift & t & Ht & Hr). apply (f_equal snd) in Hr. simpl in Hr. rewrite <-Hr.
  apply run_tx_rel; [done|done|]. intros a t' Ho. eapply Hop; [|exact Ho]. by eapply HF.
Qed.

(** A read, which learns what its query shows. *)
Definition is_read {A} (m : act S E A) (op : T -> res E A) : Prop := is_tx m (fun _ t => try! a := op t in Ok (a, t)).

Lemma keeps_read {A} F (m : act S E A) op : stable F -> is_read m op -> keeps F m.
Proof.
  intros HF Hm. eapply keeps_tx; [done|exact Hm|]. intros now t a t' _ Ho.
  apply res_bind_Ok in Ho as (? & _ & [= _ <-]). reflexivity.
Qed.

Lemma is_read_Ok {A} (m : act S E A) op s a s' :
  is_read m op -> m s = (Ok a, s') -> R (tables s) (tables s') /\ op (tables s') = Ok a.
Proof.
  intros Hm Em. destruct (is_tx_Ok _ _ _ _ _ Hm Em) as (t & Ht & Ho).
  apply res_bind_Ok in Ho as (a' & Ho & [= <- <-]). by split.
Qed.

Lemma keeps_read_learn {A B} (F : T -> Prop) (Q : A -> T -> Prop) (m : act S E A) op (f : A -> act S E B) :
  stable F -> is_read m op -> (forall a t, F t -> op t = Ok a -> Q a t) -> (forall a, keeps (Q a) (f a)) -> keeps F (act_bind m f).
Proof.
  intros HF Hm HQ Hf. apply (keeps_bind_learn F Q); [|by eapply keeps_read|done].
  intros s a s' Hs Em. destruct (is_read_Ok _ _ _ _ _ Hm Em) as [HR Ho]. apply HQ; [by eapply HF|done].
Qed.
End keeping.

#[export] Hint Resolve keeps_ret keeps_fail keeps_lift keeps_if : preserves.

(** ** What a program hands out

    [gives m Φ]: a value [m] ends with satisfies [Φ]. *)
Section giving.
Context {S E : Type}.

Definition gives {A} (m : act S E A) (Φ : A -> Prop) : Prop := forall s a s', m s = (Ok a, s') -> Φ a.

Lemma gives_ret {A} (a : A) (Φ : A -> Prop) : Φ a -> gives (act_ret a) Φ.
Proof. by intros Ha s a' s' [= <- _]. Qed.
Lemma gives_fail {A} e (Φ : A -> Prop) : gives (act_fail e) Φ.
Proof. by intros s a s'. Qed.
Lemma gives_any {A} (m : act S E A) : gives m (fun _ => True).
Proof. by intros s a s'. Qed.
Lemma gives_if {A} (b : bool) (m1 m2 : act S E A) (Φ : A -> Prop) : gives m1 Φ -> gives m2 Φ -> gives (if b then m1 else m2) Φ.
Proof. by destruct b. Qed.
Lemma gives_bind {A B} (m : act S E A) (f : A -> act S E B) (Ψ : A -> Prop) (Φ : B -> Prop) :
  gives m Ψ -> (forall a, Ψ a -> gives (f a) Φ) -> gives (act_bind m f) Φ.
Proof. intros Hm Hf s b s'. intros (a & s1 & Ha & Hb)%act_bind_Ok. eapply Hf; [by eapply Hm|done]. Qed.
Lemma gives_tx {T A} (op : Z -> T -> res E (A * T)) (lift : string -> E) (t : S -> TxTick T) (tables : S -> T) (Φ : A -> Prop) (m : act S E A) :
  (forall s, (m s).1 = (run_tx lift (t s) op (tables s)).1) -> (forall now db a db', op now db = Ok (a, db') -> Φ a) -> gives m Φ.
Proof.
  intros Hm Hop s a s' Ha. specialize (Hm s). rewrite Ha in Hm. simpl in Hm. destruct (run_tx _ _ _ _) as [x db'] eqn:Hr. simpl in Hm. subst x.
  apply run_tx_Ok in Hr. by eapply Hop.
Qed.
End giving.
