(* ===== verification/Oldest.v ===== *)
(** * Dropping the oldest entries of a map

    The in-memory tables of internal/api/ratelimit.go and internal/auth/auth.go
    are bounded the same way: one pass over the map, in whatever order [range]
    visits it, keeps a batch of the oldest entries, which are then deleted. *)

From S2P Require Import Prelude.

(** A key and the time its entry counts from. *)
Abbreviation aged := (string * time)%type (only parsing).

Definition start_at (l : list aged) (i : nat) : time := match l !! i with Some e => e.2 | None => 0%Z end.

(** The index of the newest entry of a full batch. *)
Definition newest_index (l : list aged) : nat :=
  fold_left (fun n i => if (start_at l n <? start_at l i)%Z then i else n) (seq 1 (length l - 1)) 0.

Definition pick_one (batch : Z) (oldest : list aged) (e : aged) : list aged :=
  if (Z.of_nat (length oldest) <? batch)%Z then oldest ++ [e]
  else
    let n := newest_index oldest in
    if (e.2 <? start_at oldest n)%Z then <[n := e]> oldest else oldest.

Definition pick_oldest (batch : Z) (entries : list aged) : list aged :=
  fold_left (pick_one batch) entries [].

Definition drop_keys {A} (keys : list string) (m : gmap string A) : gmap string A :=
  fold_left (fun m k => delete k m) keys m.

(** The candidates of a visit, [age] telling what an entry counts from. *)
Definition aged_entries {A} (age : A -> time) (visit : list (string * A)) : list aged :=
  map (fun kv => (kv.1, age kv.2)) visit.

(** *** The selection keeps the oldest entries *)

(** [n] indexes a maximal entry among the first [k]. *)
Lemma newest_fold l k n :
  n < k -> (forall j, j < k -> (start_at l j <= start_at l n)%Z) -> forall m,
  let r := fold_left (fun n i => if (start_at l n <? start_at l i)%Z then i else n) (seq k m) n in
  r < k + m /\ forall j, j < k + m -> (start_at l j <= start_at l r)%Z.
Proof.
  intros Hn Hmax m. revert k n Hn Hmax. induction m as [|m IH]; intros k n Hn Hmax; simpl.
  { rewrite Nat.add_0_r. done. }
  rewrite <-Nat.add_succ_comm. apply IH.
  - destruct (Z.ltb_spec (start_at l n) (start_at l k)); lia.
  - intros j Hj. destruct (decide (j = k)) as [->|Hne].
    + destruct (Z.ltb_spec (start_at l n) (start_at l k)); lia.
    + specialize (Hmax j ltac:(lia)). destruct (Z.ltb_spec (start_at l n) (start_at l k)); lia.
Qed.

Lemma newest_index_spec l : l <> [] ->
  newest_index l < length l /\ forall e, e ∈ l -> (e.2 <= start_at l (newest_index l))%Z.
Proof.
  intros Hl. destruct (newest_fold l 1 0 ltac:(lia)) with (m := length l - 1) as [Hlt Hmax].
  { intros j Hj. assert (j = 0) as -> by lia. lia. }
  assert (0 < length l) by (destruct l; [done|simpl; lia]).
  fold (newest_index l) in Hlt, Hmax. replace (1 + (length l - 1)) with (length l) in Hlt, Hmax by lia.
  split; [done|]. intros e (j & Hj)%list_elem_of_lookup.
  specialize (Hmax j (lookup_lt_Some _ _ _ Hj)). unfold start_at at 1 in Hmax. by rewrite Hj in Hmax.
Qed.

(** [sel] of the entries seen are selected: a batch of the oldest. *)
Definition selected (batch : Z) (seen sel : list aged) : Prop :=
  exists rest, seen ≡ₚ sel ++ rest /\ (Z.of_nat (length sel) <= batch)%Z /\
    (rest <> [] -> Z.of_nat (length sel) = batch) /\
    forall x y, x ∈ sel -> y ∈ rest -> (x.2 <= y.2)%Z.

Lemma pick_one_selected batch seen sel e :
  (0 < batch)%Z -> selected batch seen sel -> selected batch (seen ++ [e]) (pick_one batch sel e).
Proof.
  intros Hb (rest & Hp & Hle & Hfull & Hord). unfold pick_one.
  destruct (Z.ltb_spec (Z.of_nat (length sel)) batch) as [Hlt|Hge].
  - assert (rest = []) as -> by (destruct rest; [done|]; specialize (Hfull ltac:(done)); lia).
    exists []. rewrite app_nil_r in *. split_and!; [by rewrite Hp| |done|].
    + rewrite length_app. simpl. lia.
    + intros x y _ Hy. by apply elem_of_nil in Hy.
  - assert (sel <> []) as Hne by (intros ->; simpl in Hge; lia).
    destruct (newest_index_spec sel Hne) as [Hi Hmax]. set (n := newest_index sel) in *.
    destruct (lookup_lt_is_Some_2 sel n Hi) as [o Ho].
    assert (start_at sel n = o.2) as Hos by (unfold start_at; by rewrite Ho).
    destruct (Z.ltb_spec e.2 (start_at sel n)) as [Hnew|Hold].
    + assert (sel = take n sel ++ o :: drop (S n) sel) as E1 by (by rewrite take_drop_middle).
      assert (<[n := e]> sel = take n sel ++ e :: drop (S n) sel) as E2 by (by apply insert_take_drop).
      set (A := take n sel) in *. set (B := drop (S n) sel) in *. clearbody A B n.
      exists (o :: rest). rewrite E2. split_and!.
      * rewrite Hp, E1. solve_Permutation.
      * rewrite E1, length_app in Hle. rewrite length_app. simpl in *. lia.
      * intros _. rewrite E1, length_app in Hle, Hge. rewrite length_app. simpl in *. lia.
      * intros x y Hx Hy. assert (x = e \/ x ∈ sel) as Hx' by (rewrite E1; set_solver). clear Hx.
        apply elem_of_cons in Hy as [->|Hy].
        -- destruct Hx' as [->|Hx]; [lia|]. rewrite <-Hos. by apply Hmax.
        -- destruct Hx' as [->|Hx]; [|by apply Hord].
           specialize (Hord o y (list_elem_of_lookup_2 _ _ _ Ho) Hy). lia.
    + exists (rest ++ [e]). split_and!.
      * by rewrite Hp, app_assoc.
      * lia.
      * intros _. lia.
      * intros x y Hx [Hy| ->%list_elem_of_singleton]%elem_of_app; [by apply Hord|].
        specialize (Hmax x Hx). lia.
Qed.

Lemma pick_oldest_selected batch entries :
  (0 < batch)%Z -> selected batch entries (pick_oldest batch entries).
Proof.
  intros Hb. unfold pick_oldest.
  assert (forall l seen sel, selected batch seen sel -> selected batch (seen ++ l) (fold_left (pick_one batch) l sel)) as H.
  { induction l as [|e l IH]; intros seen sel Hs; simpl; [by rewrite app_nil_r|].
    rewrite cons_middle, app_assoc. by apply IH, pick_one_selected. }
  apply (H entries [] []). exists []. split_and!; [done|simpl; lia|done|].
  intros x y Hx. by apply elem_of_nil in Hx.
Qed.

(** *** Deleting them *)

Lemma drop_keys_lookup {A} keys (m : gmap string A) k :
  drop_keys keys m !! k = if decide (k ∈ keys) then None else m !! k.
Proof.
  revert m. induction keys as [|k0 keys IH]; intros m; simpl; [done|]. rewrite IH.
  destruct (decide (k ∈ keys)) as [Hin|Hnin]; [by rewrite decide_True by (by right)|].
  destruct (decide (k = k0)) as [->|Hne].
  - by rewrite lookup_delete_eq, decide_True by left.
  - rewrite lookup_delete_ne by done. by rewrite decide_False by (intros [?|?]%elem_of_cons; done).
Qed.

Lemma drop_keys_size {A} keys (m : gmap string A) :
  NoDup keys -> (forall k, k ∈ keys -> is_Some (m !! k)) -> size (drop_keys keys m) + length keys = size m.
Proof.
  revert m. induction keys as [|k keys IH]; intros m Hnd Hin; simpl; [lia|].
  apply NoDup_cons in Hnd as [Hk Hnd]. destruct (Hin k) as [w Hw]; [left|].
  assert (size m <> 0) by (intros Hz%map_size_empty_iff; by rewrite Hz in Hw).
  assert (size (delete k m) = Nat.pred (size m)) as Hs by (by apply map_size_delete_Some).
  specialize (IH (delete k m) Hnd).
  enough (size (drop_keys keys (delete k m)) + length keys = size (delete k m)) by lia.
  apply IH. intros j Hj. rewrite lookup_delete_ne by (intros ->; done). apply Hin. by right.
Qed.

(** *** One pass over a map *)

Section pass.
Context {A : Type} (age : A -> time) (visit : list (string * A)) (batch : Z) (m : gmap string A).
Hypothesis batch_pos : (0 < batch)%Z.
Hypothesis visit_all : visit ≡ₚ map_to_list m.

Lemma ages_elem k t : (k, t) ∈ aged_entries age visit <-> exists w, m !! k = Some w /\ age w = t.
Proof.
  unfold aged_entries. rewrite visit_all, list_elem_of_fmap. split.
  - intros ([k' w] & [= -> ->] & Hin%elem_of_map_to_list). by exists w.
  - intros (w & Hw & <-). exists (k, w). split; [done|]. by apply elem_of_map_to_list.
Qed.

Lemma ages_keys : NoDup (map fst (aged_entries age visit)).
Proof. unfold aged_entries. rewrite map_map, visit_all. apply (NoDup_fst_map_to_list m). Qed.

Lemma ages_length : length (aged_entries age visit) = size m.
Proof. unfold aged_entries. rewrite length_map, visit_all. by rewrite length_map_to_list. Qed.

(** The keys a pass selects: keys of the map, a full batch when there are so
    many, and none newer than a key left behind. *)
Lemma oldest_picked :
  let keys := map fst (pick_oldest batch (aged_entries age visit)) in
  NoDup keys /\ (forall k, k ∈ keys -> is_Some (m !! k)) /\
  ((batch <= Z.of_nat (size m))%Z -> Z.of_nat (length keys) = batch) /\
  forall k k' w w', m !! k = Some w -> m !! k' = Some w' -> k ∈ keys -> k' ∉ keys -> (age w <= age w')%Z.
Proof.
  simpl. destruct (pick_oldest_selected batch (aged_entries age visit) batch_pos) as (rest & Hp & Hle & Hfull & Hord).
  set (sel := pick_oldest _ _) in *. pose proof ages_keys as Hnd. rewrite Hp, map_app in Hnd.
  apply NoDup_app in Hnd as (Hnd & Hdisj & _). split_and!.
  - done.
  - intros k ([k' t] & -> & Hin)%list_elem_of_fmap. simpl.
    assert ((k', t) ∈ aged_entries age visit) as (w & Hw & _)%ages_elem; [|by exists w]. rewrite Hp. set_solver.
  - intros Hbig. rewrite length_map. destruct rest as [|e rest]; [|by apply Hfull].
    pose proof ages_length as Hlen. rewrite Hp, app_nil_r in Hlen. lia.
  - intros k k' w w' Hw Hw' ([k1 t] & -> & Hin)%list_elem_of_fmap Hnin. simpl in *.
    assert ((k1, t) ∈ aged_entries age visit) as (w1 & Hw1 & <-)%ages_elem by (rewrite Hp; set_solver). simplify_eq.
    assert ((k', age w') ∈ aged_entries age visit) as Hin' by (apply ages_elem; by exists w').
    rewrite Hp in Hin'. apply elem_of_app in Hin' as [Hin'|Hin'].
    + destruct Hnin. apply list_elem_of_fmap. by exists (k', age w').
    + by apply (Hord _ _ Hin Hin').
Qed.
End pass.
