(* ===== verification/Execution.v ===== *)
(** * internal/execution/execution.go: the execution domain

    The lifecycle stages of an execution and of a retry, the persisted error
    codes, the error classification taxonomy and the aggregates. *)

From S2P Require Import Prelude.

(** ** Sentinel errors *)

Inductive err : Type :=
| ErrInvalidInput
| ErrNotFound
| ErrWorkspaceMismatch
| ErrStatus
| ErrCapacityExceeded
| ErrIdempotencyKey
| ErrStaleLease
| ErrNotRetryable
(** any other error a store returns: a lost connection, a failed commit, a
    constraint the database refused *)
| ErrStore (msg : string).

#[export] Instance err_eq_dec : EqDecision err.
Proof. solve_decision. Defined.

(** ** Lifecycle of an execution *)

Inductive Status : Type :=
| StatusPending | StatusRunning | StatusCompleted | StatusFailed | StatusCancelled
| StatusOther (s : string).

#[export] Instance Status_eq_dec : EqDecision Status.
Proof. solve_decision. Defined.

Definition ValidStatus (s : Status) : bool :=
  match s with
  | StatusPending | StatusRunning | StatusCompleted | StatusFailed | StatusCancelled => true
  | StatusOther _ => false
  end.

Definition Terminal (s : Status) : bool :=
  bool_decide (s = StatusCompleted) || bool_decide (s = StatusFailed) || bool_decide (s = StatusCancelled).

(** ** Lifecycle of a retry *)

Inductive RetryState : Type :=
| RetryPending | RetryClaimed | RetryDispatched | RetryProcessed
| RetryStateOther (s : string).

#[export] Instance RetryState_eq_dec : EqDecision RetryState.
Proof. solve_decision. Defined.

Definition ValidRetryState (s : RetryState) : bool :=
  match s with
  | RetryPending | RetryClaimed | RetryDispatched | RetryProcessed => true
  | RetryStateOther _ => false
  end.

Inductive RetryOutcome : Type :=
| RetrySuccess | RetryFailed | RetryCancelled
| RetryOutcomeOther (s : string).

#[export] Instance RetryOutcome_eq_dec : EqDecision RetryOutcome.
Proof. solve_decision. Defined.

Definition ValidRetryOutcome (o : RetryOutcome) : bool :=
  match o with
  | RetrySuccess | RetryFailed | RetryCancelled => true
  | RetryOutcomeOther _ => false
  end.

(** ** Error codes: [type ErrorCode int], the numbers of the storage contract *)

Abbreviation ErrorCode := Z (only parsing).

Definition CodeNone : ErrorCode := 0%Z.
Definition CodeDeadlineExceeded : ErrorCode := 1%Z.
Definition CodeProviderTimeout : ErrorCode := 2%Z.
Definition CodeRateLimit : ErrorCode := 3%Z.
Definition CodeUnavailable : ErrorCode := 4%Z.
Definition CodeCanceled : ErrorCode := 5%Z.
Definition CodeNotFound : ErrorCode := 6%Z.
Definition CodeUnknown : ErrorCode := 7%Z.
Definition CodeWorkerLeaseExpired : ErrorCode := 8%Z.

Definition Retryable (c : ErrorCode) : bool :=
  existsb (Z.eqb c)
    [CodeDeadlineExceeded; CodeProviderTimeout; CodeRateLimit; CodeUnavailable; CodeWorkerLeaseExpired].

Definition ErrorCode_String (c : ErrorCode) : string :=
  if (c =? CodeNone)%Z then "none"
  else if (c =? CodeDeadlineExceeded)%Z then "deadline_exceeded"
  else if (c =? CodeProviderTimeout)%Z then "provider_timeout"
  else if (c =? CodeRateLimit)%Z then "rate_limit"
  else if (c =? CodeUnavailable)%Z then "unavailable"
  else if (c =? CodeCanceled)%Z then "canceled"
  else if (c =? CodeNotFound)%Z then "not_found"
  else if (c =? CodeUnknown)%Z then "unknown"
  else if (c =? CodeWorkerLeaseExpired)%Z then "worker_lease_expired"
  else "unknown".

(** ** Errors as [errors.Is] and [errors.As] see them

    A Go error value is a sentinel compared by identity, a [net.Error] with its
    [Timeout] method, an opaque leaf, a wrapper around the errors its [Unwrap]
    exposes, or a classified error of this package. *)

Inductive sentinel : Type :=
| SqlErrNoRows | CtxCanceled | CtxDeadlineExceeded | AiErrUsageLimitExceeded
| NetErrClosed | IoEOF | ECONNREFUSED | ECONNRESET | ETIMEDOUT
| SErrNotRetryable | SErrWorkerLeaseExpired | SErrNotFoundClassified.

#[export] Instance sentinel_eq_dec : EqDecision sentinel.
Proof. solve_decision. Defined.

Inductive goerror : Type :=
| ESentinel (s : sentinel)
| ENet (msg : string) (timeout : bool)
| EOpaque (msg : string)
| EWrap (msg : string) (inner : list goerror)
| EClassified (code : ErrorCode) (retry : bool) (cause : option goerror).

(** [ClassifiedError.Is] *)
Definition Classified_Is (retry : bool) (target : sentinel) : bool :=
  match target with SErrNotRetryable => negb retry | _ => false end.

(** The two package-level [*ClassifiedError] values are compared by identity
    and also answer through their own [Is] method. *)
Definition sentinel_Is (s target : sentinel) : bool :=
  bool_decide (s = target)
  || match s with
     | SErrWorkerLeaseExpired => Classified_Is true target
     | SErrNotFoundClassified => Classified_Is false target
     | _ => false
     end.

(** [errors.Is]: depth-first over the tree of wrapped errors. *)
Fixpoint errors_Is (e : goerror) (target : sentinel) : bool :=
  match e with
  | ESentinel s => sentinel_Is s target
  | ENet _ _ | EOpaque _ => false
  | EWrap _ inner => existsb (fun e' => errors_Is e' target) inner
  | EClassified _ retry cause =>
      Classified_Is retry target
      || match cause with Some e' => errors_Is e' target | None => false end
  end.

(** [errors.As(err, &netErr)]: the first [net.Error] in the same order.
    [context.DeadlineExceeded] and the [syscall.Errno] values implement
    [net.Error] too; of these only the deadline and [ETIMEDOUT] time out. *)
Fixpoint errors_As_net (e : goerror) : option bool :=
  match e with
  | ESentinel CtxDeadlineExceeded | ESentinel ETIMEDOUT => Some true
  | ESentinel ECONNREFUSED | ESentinel ECONNRESET => Some false
  | ESentinel NetErrClosed => Some false
  | ESentinel _ | EOpaque _ => None
  | ENet _ t => Some t
  | EWrap _ inner =>
      (fix first (l : list goerror) : option bool :=
         match l with
         | [] => None
         | x :: l' => match errors_As_net x with Some t => Some t | None => first l' end
         end) inner
  | EClassified _ _ cause => match cause with Some e' => errors_As_net e' | None => None end
  end.

(** ** Classification *)

Record ClassifiedError : Type := mkClassified {
  ce_Code : ErrorCode;
  ce_Retry : bool;
  ce_Cause : option goerror
}.

Definition NewClassifiedError (code : ErrorCode) (cause : goerror) : ClassifiedError :=
  mkClassified code (Retryable code) (Some cause).

Definition Classify (cause : option goerror) : ClassifiedError :=
  match cause with
  | None => mkClassified CodeNone false None
  | Some c =>
      if errors_Is c SqlErrNoRows then mkClassified CodeNotFound false (Some c)
      else if errors_Is c CtxCanceled then mkClassified CodeCanceled false (Some c)
      else if errors_Is c CtxDeadlineExceeded then mkClassified CodeDeadlineExceeded true (Some c)
      else if errors_Is c AiErrUsageLimitExceeded then mkClassified CodeRateLimit true (Some c)
      else if errors_Is c SErrWorkerLeaseExpired then mkClassified CodeWorkerLeaseExpired true (Some c)
      else if errors_Is c NetErrClosed || errors_Is c IoEOF || errors_Is c ECONNREFUSED
              || errors_Is c ECONNRESET || errors_Is c ETIMEDOUT
      then mkClassified CodeUnavailable true (Some c)
      else if match errors_As_net c with Some t => t | None => false end
      then mkClassified CodeProviderTimeout true (Some c)
      else mkClassified CodeUnknown false (Some c)
  end.

(** ** Aggregates *)

Record Execution : Type := mkExecution {
  x_ID : uuid;
  x_WorkspaceID : uuid;
  x_AIEmployeeID : uuid;
  x_TaskID : option uuid;
  x_Status : Status;
  x_Attempt : Z;
  x_MaxAttempts : Z;
  x_IdempotencyKey : option string;
  x_RequestHash : string;
  x_LeaseOwner : option string;
  x_LeaseGeneration : Z;
  x_LeaseExpiresAt : option time;
  x_NextRetryAt : option time;
  x_LastErrorCode : option ErrorCode;
  x_Retryable : option bool;
  x_ErrorDetail : option string;
  x_ResultJSON : option string;
  x_CompletedAt : option time;
  x_FailedAt : option time;
  x_CancelledAt : option time;
  x_CreatedAt : time;
  x_UpdatedAt : time
}.

Record Retry : Type := mkRetry {
  r_ID : uuid;
  r_ExecutionID : uuid;
  r_WorkspaceID : uuid;
  r_RetrySeq : Z;
  r_State : RetryState;
  r_Outcome : option RetryOutcome;
  r_WorkerID : option string;
  r_Generation : Z;
  r_NextRetryAt : option time;
  r_ClaimedAt : option time;
  r_DispatchedAt : option time;
  r_CompletedAt : option time
}.

Record FencedExecution : Type := mkFenced {
  f_ExecutionID : uuid;
  f_WorkspaceID : uuid;
  f_LeaseOwner : string;
  f_LeaseGeneration : Z;
  f_LeaseExpiresAt : time;
  f_Attempt : Z;
  f_MaxAttempts : Z;
  f_RetryID : uuid;
  f_AIEmployeeID : uuid;
  f_LastErrorCode : option ErrorCode;
  f_Retryable : option bool;
  f_NextRetryAt : option time
}.

(** internal/execution/materializer.go *)
Record MaterializedRequest : Type := mkMaterialized {
  m_TaskTitle : string;
  m_TaskDescription : string;
  m_AIEmployeeName : string;
  m_AIEmployeeRole : string;
  m_TeamName : string;
  m_DepartmentName : string;
  m_Capabilities : list string
}.

(** internal/execution/publisher.go *)
Record PublishMessage : Type := mkMessage {
  pm_WorkspaceID : uuid;
  pm_ExecutionID : uuid;
  pm_AIEmployeeID : uuid;
  pm_TaskID : option uuid;
  pm_Attempt : Z;
  pm_MaxAttempts : Z;
  pm_RetryID : uuid;
  pm_Generation : Z;
  pm_LeaseExpiresAt : time;
  pm_LeaseOwner : string
}.

(** internal/execution/store.go *)
Record AdmitRequest : Type := mkAdmit {
  a_WorkspaceID : uuid;
  a_AIEmployeeID : uuid;
  a_TaskID : option uuid;
  a_MaxAttempts : Z;
  a_IdempotencyKey : string;
  a_Context : option MaterializedRequest
}.

Record AdmitResult : Type := mkAdmitResult {
  ar_Execution : Execution;
  ar_Created : bool;
  ar_Completed : bool
}.

(** ** Facts *)

Lemma Terminal_spec s :
  Terminal s = true <-> s = StatusCompleted \/ s = StatusFailed \/ s = StatusCancelled.
Proof. unfold Terminal. rewrite !orb_true_iff, !bool_decide_eq_true. tauto. Qed.

Lemma existsb_single {A} (f : A -> bool) x : existsb f [x] = f x.
Proof. simpl. by rewrite orb_false_r. Qed.

Lemma errors_Is_wrap msg c t : errors_Is (EWrap msg [c]) t = errors_Is c t.
Proof. simpl. by rewrite orb_false_r. Qed.

Lemma errors_As_net_wrap msg c : errors_As_net (EWrap msg [c]) = errors_As_net c.
Proof. simpl. by destruct (errors_As_net c). Qed.

(** The persisted retry flag always agrees with the code, whatever the cause:
    the [Retry] literals of [Classify] never drift from [Retryable]. *)
Theorem Classify_retry_agrees (cause : option goerror) :
  ce_Retry (Classify cause) = Retryable (ce_Code (Classify cause)).
Proof. unfold Classify. repeat case_match; reflexivity. Qed.

(** Wrapping an error any number of times does not change its classification. *)
Theorem Classify_wrap_transparent (msgs : list string) (c : goerror) :
  let wrapped := foldr (fun m e => EWrap m [e]) c msgs in
  ce_Code (Classify (Some wrapped)) = ce_Code (Classify (Some c)) /\
  ce_Retry (Classify (Some wrapped)) = ce_Retry (Classify (Some c)).
Proof.
  induction msgs as [|m msgs [IHc IHr]]; simpl foldr; [done|].
  rewrite <-IHc, <-IHr. unfold Classify.
  rewrite !errors_Is_wrap, errors_As_net_wrap. repeat case_match; done.
Qed.
