(* ===== verification/ExecStore.v ===== *)
(** * infrastructure/postgres/executions.go: the execution store

    The tables as finite maps, the constraints of infrastructure/database, and
    one definition per store method: the body of its transaction, run against
    the tables at the instant [now] the database reports.  A body that ends in
    [Err] rolls back. *)

From S2P Require Import Prelude Execution.

(** ** Column updates *)

Definition set_x_Status (v : Status) (e : Execution) : Execution :=
  mkExecution (x_ID e) (x_WorkspaceID e) (x_AIEmployeeID e) (x_TaskID e) v (x_Attempt e)
    (x_MaxAttempts e) (x_IdempotencyKey e) (x_RequestHash e) (x_LeaseOwner e)
    (x_LeaseGeneration e) (x_LeaseExpiresAt e) (x_NextRetryAt e) (x_LastErrorCode e)
    (x_Retryable e) (x_ErrorDetail e) (x_ResultJSON e) (x_CompletedAt e) (x_FailedAt e)
    (x_CancelledAt e) (x_CreatedAt e) (x_UpdatedAt e).
Definition set_x_Attempt (v : Z) (e : Execution) : Execution :=
  mkExecution (x_ID e) (x_WorkspaceID e) (x_AIEmployeeID e) (x_TaskID e) (x_Status e) v
    (x_MaxAttempts e) (x_IdempotencyKey e) (x_RequestHash e) (x_LeaseOwner e)
    (x_LeaseGeneration e) (x_LeaseExpiresAt e) (x_NextRetryAt e) (x_LastErrorCode e)
    (x_Retryable e) (x_ErrorDetail e) (x_ResultJSON e) (x_CompletedAt e) (x_FailedAt e)
    (x_CancelledAt e) (x_CreatedAt e) (x_UpdatedAt e).
Definition set_x_LeaseOwner (v : option string) (e : Execution) : Execution :=
  mkExecution (x_ID e) (x_WorkspaceID e) (x_AIEmployeeID e) (x_TaskID e) (x_Status e)
    (x_Attempt e) (x_MaxAttempts e) (x_IdempotencyKey e) (x_RequestHash e) v
    (x_LeaseGeneration e) (x_LeaseExpiresAt e) (x_NextRetryAt e) (x_LastErrorCode e)
    (x_Retryable e) (x_ErrorDetail e) (x_ResultJSON e) (x_CompletedAt e) (x_FailedAt e)
    (x_CancelledAt e) (x_CreatedAt e) (x_UpdatedAt e).
Definition set_x_LeaseGeneration (v : Z) (e : Execution) : Execution :=
  mkExecution (x_ID e) (x_WorkspaceID e) (x_AIEmployeeID e) (x_TaskID e) (x_Status e)
    (x_Attempt e) (x_MaxAttempts e) (x_IdempotencyKey e) (x_RequestHash e) (x_LeaseOwner e)
    v (x_LeaseExpiresAt e) (x_NextRetryAt e) (x_LastErrorCode e) (x_Retryable e)
    (x_ErrorDetail e) (x_ResultJSON e) (x_CompletedAt e) (x_FailedAt e) (x_CancelledAt e)
    (x_CreatedAt e) (x_UpdatedAt e).
Definition set_x_LeaseExpiresAt (v : option time) (e : Execution) : Execution :=
  mkExecution (x_ID e) (x_WorkspaceID e) (x_AIEmployeeID e) (x_TaskID e) (x_Status e)
    (x_Attempt e) (x_MaxAttempts e) (x_IdempotencyKey e) (x_RequestHash e) (x_LeaseOwner e)
    (x_LeaseGeneration e) v (x_NextRetryAt e) (x_LastErrorCode e) (x_Retryable e)
    (x_ErrorDetail e) (x_ResultJSON e) (x_CompletedAt e) (x_FailedAt e) (x_CancelledAt e)
    (x_CreatedAt e) (x_UpdatedAt e).
Definition set_x_NextRetryAt (v : option time) (e : Execution) : Execution :=
  mkExecution (x_ID e) (x_WorkspaceID e) (x_AIEmployeeID e) (x_TaskID e) (x_Status e)
    (x_Attempt e) (x_MaxAttempts e) (x_IdempotencyKey e) (x_RequestHash e) (x_LeaseOwner e)
    (x_LeaseGeneration e) (x_LeaseExpiresAt e) v (x_LastErrorCode e) (x_Retryable e)
    (x_ErrorDetail e) (x_ResultJSON e) (x_CompletedAt e) (x_FailedAt e) (x_CancelledAt e)
    (x_CreatedAt e) (x_UpdatedAt e).
Definition set_x_LastErrorCode (v : option ErrorCode) (e : Execution) : Execution :=
  mkExecution (x_ID e) (x_WorkspaceID e) (x_AIEmployeeID e) (x_TaskID e) (x_Status e)
    (x_Attempt e) (x_MaxAttempts e) (x_IdempotencyKey e) (x_RequestHash e) (x_LeaseOwner e)
    (x_LeaseGeneration e) (x_LeaseExpiresAt e) (x_NextRetryAt e) v (x_Retryable e)
    (x_ErrorDetail e) (x_ResultJSON e) (x_CompletedAt e) (x_FailedAt e) (x_CancelledAt e)
    (x_CreatedAt e) (x_UpdatedAt e).
Definition set_x_Retryable (v : option bool) (e : Execution) : Execution :=
  mkExecution (x_ID e) (x_WorkspaceID e) (x_AIEmployeeID e) (x_TaskID e) (x_Status e)
    (x_Attempt e) (x_MaxAttempts e) (x_IdempotencyKey e) (x_RequestHash e) (x_LeaseOwner e)
    (x_LeaseGeneration e) (x_LeaseExpiresAt e) (x_NextRetryAt e) (x_LastErrorCode e) v
    (x_ErrorDetail e) (x_ResultJSON e) (x_CompletedAt e) (x_FailedAt e) (x_CancelledAt e)
    (x_CreatedAt e) (x_UpdatedAt e).
Definition set_x_ErrorDetail (v : option string) (e : Execution) : Execution :=
  mkExecution (x_ID e) (x_WorkspaceID e) (x_AIEmployeeID e) (x_TaskID e) (x_Status e)
    (x_Attempt e) (x_MaxAttempts e) (x_IdempotencyKey e) (x_RequestHash e) (x_LeaseOwner e)
    (x_LeaseGeneration e) (x_LeaseExpiresAt e) (x_NextRetryAt e) (x_LastErrorCode e)
    (x_Retryable e) v (x_ResultJSON e) (x_CompletedAt e) (x_FailedAt e) (x_CancelledAt e)
    (x_CreatedAt e) (x_UpdatedAt e).
Definition set_x_ResultJSON (v : option string) (e : Execution) : Execution :=
  mkExecution (x_ID e) (x_WorkspaceID e) (x_AIEmployeeID e) (x_TaskID e) (x_Status e)
    (x_Attempt e) (x_MaxAttempts e) (x_IdempotencyKey e) (x_RequestHash e) (x_LeaseOwner e)
    (x_LeaseGeneration e) (x_LeaseExpiresAt e) (x_NextRetryAt e) (x_LastErrorCode e)
    (x_Retryable e) (x_ErrorDetail e) v (x_CompletedAt e) (x_FailedAt e) (x_CancelledAt e)
    (x_CreatedAt e) (x_UpdatedAt e).
Definition set_x_CompletedAt (v : option time) (e : Execution) : Execution :=
  mkExecution (x_ID e) (x_WorkspaceID e) (x_AIEmployeeID e) (x_TaskID e) (x_Status e)
    (x_Attempt e) (x_MaxAttempts e) (x_IdempotencyKey e) (x_RequestHash e) (x_LeaseOwner e)
    (x_LeaseGeneration e) (x_LeaseExpiresAt e) (x_NextRetryAt e) (x_LastErrorCode e)
    (x_Retryable e) (x_ErrorDetail e) (x_ResultJSON e) v (x_FailedAt e) (x_CancelledAt e)
    (x_CreatedAt e) (x_UpdatedAt e).
Definition set_x_FailedAt (v : option time) (e : Execution) : Execution :=
  mkExecution (x_ID e) (x_WorkspaceID e) (x_AIEmployeeID e) (x_TaskID e) (x_Status e)
    (x_Attempt e) (x_MaxAttempts e) (x_IdempotencyKey e) (x_RequestHash e) (x_LeaseOwner e)
    (x_LeaseGeneration e) (x_LeaseExpiresAt e) (x_NextRetryAt e) (x_LastErrorCode e)
    (x_Retryable e) (x_ErrorDetail e) (x_ResultJSON e) (x_CompletedAt e) v (x_CancelledAt e)
    (x_CreatedAt e) (x_UpdatedAt e).
Definition set_x_CancelledAt (v : option time) (e : Execution) : Execution :=
  mkExecution (x_ID e) (x_WorkspaceID e) (x_AIEmployeeID e) (x_TaskID e) (x_Status e)
    (x_Attempt e) (x_MaxAttempts e) (x_IdempotencyKey e) (x_RequestHash e) (x_LeaseOwner e)
    (x_LeaseGeneration e) (x_LeaseExpiresAt e) (x_NextRetryAt e) (x_LastErrorCode e)
    (x_Retryable e) (x_ErrorDetail e) (x_ResultJSON e) (x_CompletedAt e) (x_FailedAt e) v
    (x_CreatedAt e) (x_UpdatedAt e).
Definition set_x_UpdatedAt (v : time) (e : Execution) : Execution :=
  mkExecution (x_ID e) (x_WorkspaceID e) (x_AIEmployeeID e) (x_TaskID e) (x_Status e)
    (x_Attempt e) (x_MaxAttempts e) (x_IdempotencyKey e) (x_RequestHash e) (x_LeaseOwner e)
    (x_LeaseGeneration e) (x_LeaseExpiresAt e) (x_NextRetryAt e) (x_LastErrorCode e)
    (x_Retryable e) (x_ErrorDetail e) (x_ResultJSON e) (x_CompletedAt e) (x_FailedAt e)
    (x_CancelledAt e) (x_CreatedAt e) v.

Definition set_r_State (v : RetryState) (r : Retry) : Retry :=
  mkRetry (r_ID r) (r_ExecutionID r) (r_WorkspaceID r) (r_RetrySeq r) v (r_Outcome r)
    (r_WorkerID r) (r_Generation r) (r_NextRetryAt r) (r_ClaimedAt r) (r_DispatchedAt r)
    (r_CompletedAt r).
Definition set_r_Outcome (v : option RetryOutcome) (r : Retry) : Retry :=
  mkRetry (r_ID r) (r_ExecutionID r) (r_WorkspaceID r) (r_RetrySeq r) (r_State r) v
    (r_WorkerID r) (r_Generation r) (r_NextRetryAt r) (r_ClaimedAt r) (r_DispatchedAt r)
    (r_CompletedAt r).
Definition set_r_WorkerID (v : option string) (r : Retry) : Retry :=
  mkRetry (r_ID r) (r_ExecutionID r) (r_WorkspaceID r) (r_RetrySeq r) (r_State r) (r_Outcome
    r) v (r_Generation r) (r_NextRetryAt r) (r_ClaimedAt r) (r_DispatchedAt r)
    (r_CompletedAt r).
Definition set_r_Generation (v : Z) (r : Retry) : Retry :=
  mkRetry (r_ID r) (r_ExecutionID r) (r_WorkspaceID r) (r_RetrySeq r) (r_State r) (r_Outcome
    r) (r_WorkerID r) v (r_NextRetryAt r) (r_ClaimedAt r) (r_DispatchedAt r) (r_CompletedAt
    r).
Definition set_r_ClaimedAt (v : option time) (r : Retry) : Retry :=
  mkRetry (r_ID r) (r_ExecutionID r) (r_WorkspaceID r) (r_RetrySeq r) (r_State r) (r_Outcome
    r) (r_WorkerID r) (r_Generation r) (r_NextRetryAt r) v (r_DispatchedAt r) (r_CompletedAt
    r).
Definition set_r_DispatchedAt (v : option time) (r : Retry) : Retry :=
  mkRetry (r_ID r) (r_ExecutionID r) (r_WorkspaceID r) (r_RetrySeq r) (r_State r) (r_Outcome
    r) (r_WorkerID r) (r_Generation r) (r_NextRetryAt r) (r_ClaimedAt r) v (r_CompletedAt r).
Definition set_r_CompletedAt (v : option time) (r : Retry) : Retry :=
  mkRetry (r_ID r) (r_ExecutionID r) (r_WorkspaceID r) (r_RetrySeq r) (r_State r) (r_Outcome
    r) (r_WorkerID r) (r_Generation r) (r_NextRetryAt r) (r_ClaimedAt r) (r_DispatchedAt r)
    v.

(** ** Tables *)

(** A row of [ai_execution_dlq] *)
Record DlqRow : Type := mkDlq {
  q_WorkspaceID : uuid;
  q_ExecutionID : uuid;
  q_Attempt : Z;
  q_ErrorCode : ErrorCode;
  q_ErrorDetail : option string;
  q_Snapshot : option string
}.

(** A row of [retry_dispatch_log] *)
Record DispatchRow : Type := mkDispatch {
  d_WorkspaceID : uuid;
  d_RetryID : uuid;
  d_WorkerID : string;
  d_Generation : Z;
  d_Success : bool
}.

(** A row of [execution_contexts]; [workspace_id] is the nullable value an
    INSERT supplies for the column. *)
Record ContextRow : Type := mkContext {
  c_WorkspaceID : option uuid;
  c_ExecutionID : uuid;
  c_Request : MaterializedRequest
}.

Record DB : Type := mkDB {
  db_execs : gmap uuid Execution;
  db_retries : gmap uuid Retry;
  db_dlq : list DlqRow;
  db_dispatch_log : list DispatchRow;
  db_contexts : list ContextRow;
  (** [ai_employees]: the workspace and [max_concurrent_executions] *)
  db_employees : gmap uuid (uuid * Z);
  (** [tasks]: the workspace of each task *)
  db_tasks : gmap uuid uuid;
  (** the next identifier [uuid.New] or [gen_random_uuid] yields *)
  db_next : uuid
}.

Definition with_execs (m : gmap uuid Execution) (db : DB) : DB :=
  mkDB m (db_retries db) (db_dlq db) (db_dispatch_log db) (db_contexts db)
    (db_employees db) (db_tasks db) (db_next db).
Definition with_retries (m : gmap uuid Retry) (db : DB) : DB :=
  mkDB (db_execs db) m (db_dlq db) (db_dispatch_log db) (db_contexts db)
    (db_employees db) (db_tasks db) (db_next db).
Definition with_dlq (l : list DlqRow) (db : DB) : DB :=
  mkDB (db_execs db) (db_retries db) l (db_dispatch_log db) (db_contexts db)
    (db_employees db) (db_tasks db) (db_next db).
Definition with_dispatch_log (l : list DispatchRow) (db : DB) : DB :=
  mkDB (db_execs db) (db_retries db) (db_dlq db) l (db_contexts db)
    (db_employees db) (db_tasks db) (db_next db).
Definition with_contexts (l : list ContextRow) (db : DB) : DB :=
  mkDB (db_execs db) (db_retries db) (db_dlq db) (db_dispatch_log db) l
    (db_employees db) (db_tasks db) (db_next db).
Definition with_next (n : uuid) (db : DB) : DB :=
  mkDB (db_execs db) (db_retries db) (db_dlq db) (db_dispatch_log db) (db_contexts db)
    (db_employees db) (db_tasks db) n.

(** ** Constraints (infrastructure/database) *)

Definition outstanding (s : RetryState) : bool :=
  bool_decide (s = RetryPending) || bool_decide (s = RetryClaimed) || bool_decide (s = RetryDispatched).

(** The CHECK constraints of [ai_executions] *)
Definition exec_row_ok (e : Execution) : bool :=
  ValidStatus (x_Status e)
  && (0 <? x_MaxAttempts e)%Z && (0 <=? x_Attempt e)%Z && (x_Attempt e <=? x_MaxAttempts e)%Z
  && (if bool_decide (x_Status e = StatusRunning)
      then bool_decide (x_LeaseOwner e <> None) && bool_decide (x_LeaseExpiresAt e <> None)
      else bool_decide (x_LeaseOwner e = None) && bool_decide (x_LeaseExpiresAt e = None)).

(** The CHECK constraints of [ai_execution_retries] *)
Definition retry_row_ok (r : Retry) : bool :=
  (0 <? r_RetrySeq r)%Z && ValidRetryState (r_State r)
  && match r_Outcome r with None => true | Some o => ValidRetryOutcome o end
  && (negb (bool_decide (r_State r = RetryProcessed)) || bool_decide (r_WorkerID r = None)).

(** [uq_ai_execution_retries_one_outstanding] *)
Definition clash (r r' : Retry) : Prop :=
  outstanding (r_State r) = true /\ outstanding (r_State r') = true /\
  r_ExecutionID r = r_ExecutionID r' /\ r_WorkspaceID r = r_WorkspaceID r'.

#[export] Instance clash_dec r r' : Decision (clash r r').
Proof. unfold clash. apply _. Defined.

Definition one_outstanding (m : gmap uuid Retry) : Prop :=
  map_Forall (fun i r => map_Forall (fun j r' => clash r r' -> i = j) m) m.

#[export] Instance one_outstanding_dec m : Decision (one_outstanding m).
Proof. unfold one_outstanding. apply _. Defined.

Definition retries_ok (m : gmap uuid Retry) : bool :=
  bool_decide (map_Forall (fun _ r => retry_row_ok r = true) m) && bool_decide (one_outstanding m).

(** SQLSTATE classes of the constraint violations a statement can raise *)
Definition not_null_violation : err := ErrStore "23502".
Definition foreign_key_violation : err := ErrStore "23503".
Definition unique_violation : err := ErrStore "23505".
Definition check_violation : err := ErrStore "23514".

Definition isUniqueViolation (e : err) : bool := bool_decide (e = unique_violation).

(** An UPDATE of one execution row, and of every retry row selected by [p]. *)
Definition put_exec (e : Execution) (db : DB) : res err DB :=
  guard! exec_row_ok e else check_violation in
  Ok (with_execs (<[x_ID e := e]> (db_execs db)) db).

Definition upd_retries (p : Retry -> bool) (f : Retry -> Retry) (m : gmap uuid Retry) : gmap uuid Retry :=
  (fun r => if p r then f r else r) <$> m.

Definition update_retries (p : Retry -> bool) (f : Retry -> Retry) (db : DB) : res err DB :=
  let m := upd_retries p f (db_retries db) in
  guard! retries_ok m else check_violation in
  Ok (with_retries m db).

(** INSERT INTO ai_execution_retries, under its composite foreign key *)
Definition insert_retry (r : Retry) (db : DB) : res err DB :=
  guard! match db_execs db !! r_ExecutionID r with
         | Some e => (x_WorkspaceID e =? r_WorkspaceID r)%N
         | None => false
         end else foreign_key_violation in
  guard! retry_row_ok r else check_violation in
  let m := <[r_ID r := r]> (db_retries db) in
  guard! bool_decide (db_retries db !! r_ID r = None) && bool_decide (one_outstanding m)
  else unique_violation in
  Ok (with_retries m db).

(** [uq_ai_executions_workspace_idempotency] *)
Definition same_key (e e' : Execution) : bool :=
  (x_WorkspaceID e =? x_WorkspaceID e')%N
  && match x_IdempotencyKey e, x_IdempotencyKey e' with
     | Some k, Some k' => String.eqb k k'
     | _, _ => false
     end.

(** INSERT INTO ai_executions, under its unique indexes and foreign keys *)
Definition insert_exec (e : Execution) (db : DB) : res err DB :=
  guard! exec_row_ok e else check_violation in
  guard! bool_decide (db_execs db !! x_ID e = None)
         && bool_decide (map_Forall (fun _ e' => same_key e e' = false) (db_execs db))
  else unique_violation in
  guard! bool_decide (is_Some (db_employees db !! x_AIEmployeeID e))
         && match x_TaskID e with
            | None => true
            | Some t => bool_decide (db_tasks db !! t = Some (x_WorkspaceID e))
            end
  else foreign_key_violation in
  Ok (with_execs (<[x_ID e := e]> (db_execs db)) db).

(** INSERT INTO execution_contexts: [workspace_id] is NOT NULL and has no
    default; [execution_id] is unique. *)
Definition insert_context (c : ContextRow) (db : DB) : res err DB :=
  match c_WorkspaceID c with
  | None => Err not_null_violation
  | Some _ =>
      guard! bool_decide (Forall (fun c' => c_ExecutionID c' <> c_ExecutionID c) (db_contexts db))
      else unique_violation in
      Ok (with_contexts (c :: db_contexts db) db)
  end.

(** ** Queries *)

(** Rows a transaction bound to [ws] can see: the row-level security policy. *)
Definition visible (ws : uuid) (e : Execution) : bool := (x_WorkspaceID e =? ws)%N.

Definition find_exec (ws id : uuid) (db : DB) : option Execution :=
  match db_execs db !! id with
  | Some e => if visible ws e then Some e else None
  | None => None
  end.

Definition by_key (ws : uuid) (key : string) (e : Execution) : bool :=
  visible ws e && match x_IdempotencyKey e with Some k => String.eqb k key | None => false end.

Definition find_by_key (ws : uuid) (key : string) (db : DB) : option Execution :=
  snd <$> head (filter (fun kv => by_key ws key kv.2 = true) (map_to_list (db_execs db))).

Definition active (s : Status) : bool :=
  bool_decide (s = StatusPending) || bool_decide (s = StatusRunning).

Definition active_of (ws emp : uuid) (e : Execution) : Prop :=
  visible ws e = true /\ x_AIEmployeeID e = emp /\ active (x_Status e) = true.

#[export] Instance active_of_dec ws emp e : Decision (active_of ws emp e).
Proof. unfold active_of. apply _. Defined.

Definition count_active (ws emp : uuid) (db : DB) : Z :=
  Z.of_nat (size (filter (fun kv : uuid * Execution => active_of ws emp kv.2) (db_execs db))).

Definition find_capacity (ws emp : uuid) (db : DB) : option Z :=
  match db_employees db !! emp with
  | Some (ws', cap) => if (ws' =? ws)%N then Some cap else None
  | None => None
  end.

(** [NULLIF]-style helpers of the adapter *)
Definition nullableString (s : string) : option string :=
  if String.eqb s "" then None else Some s.
Definition nullableBytes (b : string) : option string :=
  if String.eqb b "" then None else Some b.

Definition lease_until (now : time) (leaseTTL : duration) : time :=
  (now + go_div leaseTTL Second * Second)%Z.

(** ** Read methods *)

Definition Get (ws id : uuid) (db : DB) : res err Execution :=
  match find_exec ws id db with Some e => Ok e | None => Err ErrNotFound end.

Definition GetByIdempotencyKey (ws : uuid) (key : string) (db : DB) : res err Execution :=
  match find_by_key ws key db with Some e => Ok e | None => Err ErrNotFound end.

Definition Capacity (ws emp : uuid) (db : DB) : res err Z :=
  match find_capacity ws emp db with Some c => Ok c | None => Err ErrNotFound end.

Definition ActiveCount (ws emp : uuid) (db : DB) : res err Z := Ok (count_active ws emp db).

Definition due (now : time) (e : Execution) : bool :=
  match x_NextRetryAt e with None => true | Some t => (t <=? now)%Z end.

Definition expired (now : time) (e : Execution) : bool :=
  match x_LeaseExpiresAt e with None => false | Some t => (t <? now)%Z end.

Definition is_due (ws : uuid) (now : time) (e : Execution) : bool :=
  visible ws e && bool_decide (x_Status e = StatusPending) && due now e.

Definition is_stale (ws : uuid) (now : time) (e : Execution) : bool :=
  visible ws e && bool_decide (x_Status e = StatusRunning) && expired now e.

(** SELECT id ... ORDER BY [key] ASC LIMIT [limit] *)
Definition le_key (key : Execution -> Z) (a b : Execution) : Prop := (key a <= key b)%Z.
#[export] Instance le_key_dec key a b : Decision (le_key key a b).
Proof. unfold le_key. apply _. Defined.

Definition select_ids (p : Execution -> bool) (key : Execution -> Z) (limit : nat) (db : DB) : list uuid :=
  take limit (map x_ID (merge_sort (le_key key)
    (filter (fun e => p e = true) (map snd (map_to_list (db_execs db)))))).

Definition GetDue (ws : uuid) (limit : nat) (now : time) (db : DB) : res err (list uuid) :=
  Ok (select_ids (is_due ws now) x_CreatedAt limit db).

Definition GetStale (ws : uuid) (limit : nat) (now : time) (db : DB) : res err (list uuid) :=
  Ok (select_ids (is_stale ws now) (fun e => default 0%Z (x_LeaseExpiresAt e)) limit db).

Definition Materialize (ws id : uuid) (db : DB) : res err MaterializedRequest :=
  match head (filter (fun c => c_ExecutionID c = id /\ c_WorkspaceID c = Some ws) (db_contexts db)) with
  | Some c => Ok (c_Request c)
  | None => Err ErrNotFound
  end.

(** ** Admission *)

(** The INSERT INTO execution_contexts of the admission lists every column but
    [workspace_id]. *)
Definition admission_context (id : uuid) (m : MaterializedRequest) : ContextRow :=
  mkContext None id m.

Definition admitted_row (req : AdmitRequest) (requestHash : string) (id : uuid) (now : time) : Execution :=
  mkExecution id (a_WorkspaceID req) (a_AIEmployeeID req) (a_TaskID req) StatusPending
    0 (a_MaxAttempts req) (nullableString (a_IdempotencyKey req)) requestHash
    None 0 None None None None None None None None None now now.

Definition first_retry (req : AdmitRequest) (rid id : uuid) : Retry :=
  mkRetry rid id (a_WorkspaceID req) 1 RetryPending None None 0 None None None None.

Definition AdmissionAdmit (req : AdmitRequest) (requestHash : string) (now : time) (db : DB)
  : res err (AdmitResult * DB) :=
  let ws := a_WorkspaceID req in
  let existing :=
    if String.eqb (a_IdempotencyKey req) "" then None
    else find_by_key ws (a_IdempotencyKey req) db in
  match existing with
  | Some e => Ok (mkAdmitResult e false (bool_decide (x_Status e = StatusCompleted)), db)
  | None =>
      match find_capacity ws (a_AIEmployeeID req) db with
      | None => Err ErrNotFound
      | Some cap =>
          guard! negb (cap <=? count_active ws (a_AIEmployeeID req) db)%Z else ErrCapacityExceeded in
          let id := db_next db in
          let rid := (db_next db + 1)%N in
          let e := admitted_row req requestHash id now in
          match insert_exec e db with
          | Err x => if isUniqueViolation x then Err ErrIdempotencyKey else Err x
          | Ok db1 =>
              try! db2 := insert_retry (first_retry req rid id) db1 in
              try! db3 := match a_Context req with
                          | None => Ok db2
                          | Some m => insert_context (admission_context id m) db2
                          end in
              Ok (mkAdmitResult e true false, with_next (db_next db + 2)%N db3)
          end
      end
  end.

(** ** Lease methods *)

Definition claimable (now : time) (e : Execution) : bool :=
  bool_decide (x_Status e = StatusPending) && (x_Attempt e <? x_MaxAttempts e)%Z && due now e.

Definition claim_row (workerID : string) (now : time) (leaseTTL : duration) (e : Execution) : Execution :=
  set_x_Status StatusRunning
    (set_x_Attempt (x_Attempt e + 1)%Z
      (set_x_LeaseOwner (Some workerID)
        (set_x_LeaseGeneration (x_LeaseGeneration e + 1)%Z
          (set_x_LeaseExpiresAt (Some (lease_until now leaseTTL)) e)))).

Definition retry_of (id ws : uuid) (r : Retry) : bool :=
  (r_ExecutionID r =? id)%N && (r_WorkspaceID r =? ws)%N.

Definition claimable_retry (id ws : uuid) (r : Retry) : bool :=
  retry_of id ws r && bool_decide (r_State r = RetryPending).

Definition claim_retry (workerID : string) (gen : Z) (now : time) (r : Retry) : Retry :=
  set_r_State RetryClaimed (set_r_WorkerID (Some workerID)
    (set_r_Generation gen (set_r_ClaimedAt (Some now) r))).

Definition fenced (e : Execution) (owner : string) (expires : time) (rid : uuid)
    (code : option ErrorCode) (retryable : option bool) (next : option time) : FencedExecution :=
  mkFenced (x_ID e) (x_WorkspaceID e) owner (x_LeaseGeneration e) expires
    (x_Attempt e) (x_MaxAttempts e) rid (x_AIEmployeeID e) code retryable next.

Definition Claim (ws id : uuid) (workerID : string) (leaseTTL : duration) (now : time) (db : DB)
  : res err (FencedExecution * DB) :=
  match find_exec ws id db with
  | None => Err ErrNotFound
  | Some e =>
      guard! claimable now e else ErrNotFound in
      let e' := claim_row workerID now leaseTTL e in
      try! db1 := put_exec e' db in
      let p := claimable_retry id ws in
      try! db2 := update_retries p (claim_retry workerID (x_LeaseGeneration e') now) db1 in
      match filter (fun kv => p kv.2 = true) (map_to_list (db_retries db)) with
      | [] => Err ErrNotFound
      | (rid, _) :: _ =>
          Ok (fenced e' workerID (lease_until now leaseTTL) rid None None None, db2)
      end
  end.

Definition reclaim_row (workerID : string) (now : time) (leaseTTL : duration) (e : Execution) : Execution :=
  set_x_LeaseOwner (Some workerID)
    (set_x_LeaseGeneration (x_LeaseGeneration e + 1)%Z
      (set_x_LeaseExpiresAt (Some (lease_until now leaseTTL)) e)).

(** The sub-select of the RETURNING clause asks for a [pending] retry; a NULL
    scans into the nil UUID. *)
Definition ReclaimStale (ws id : uuid) (workerID : string) (leaseTTL : duration) (now : time) (db : DB)
  : res err (FencedExecution * DB) :=
  match find_exec ws id db with
  | None => Err ErrNotFound
  | Some e =>
      guard! bool_decide (x_Status e = StatusRunning) && expired now e else ErrNotFound in
      let e' := reclaim_row workerID now leaseTTL e in
      try! db1 := put_exec e' db in
      let rid := match filter (fun kv => claimable_retry id ws kv.2 = true) (map_to_list (db_retries db)) with
                 | (r, _) :: _ => r
                 | [] => uuid_Nil
                 end in
      Ok (fenced e' workerID (lease_until now leaseTTL) rid
            (x_LastErrorCode e') (x_Retryable e') (x_NextRetryAt e'), db1)
  end.

(** The fence every later mutation re-asserts in its WHERE clause. *)
Definition holds_lease (f : FencedExecution) (e : Execution) : bool :=
  (x_WorkspaceID e =? f_WorkspaceID f)%N
  && bool_decide (x_Status e = StatusRunning)
  && bool_decide (x_LeaseOwner e = Some (f_LeaseOwner f))
  && (x_LeaseGeneration e =? f_LeaseGeneration f)%Z.

(** UPDATE ai_executions SET [upd] WHERE the fence holds; no row is a stale lease. *)
Definition fenced_update (f : FencedExecution) (upd : Execution -> Execution) (db : DB) : res err DB :=
  match find_exec (f_WorkspaceID f) (f_ExecutionID f) db with
  | None => Err ErrStaleLease
  | Some e =>
      guard! holds_lease f e else ErrStaleLease in
      put_exec (upd e) db
  end.

Definition Heartbeat (f : FencedExecution) (leaseTTL : duration) (now : time) (db : DB) : res err DB :=
  fenced_update f (set_x_LeaseExpiresAt (Some (lease_until now leaseTTL))) db.

Definition PersistError (f : FencedExecution) (code : ErrorCode) (retryable : bool) (detail : string)
    (now : time) (db : DB) : res err DB :=
  fenced_update f (fun e =>
    set_x_LastErrorCode (Some code) (set_x_Retryable (Some retryable)
      (set_x_ErrorDetail (nullableString detail) (set_x_UpdatedAt now e)))) db.

(** [state IN ('claimed', 'dispatched')] *)
Definition in_flight (s : RetryState) : bool :=
  bool_decide (s = RetryClaimed) || bool_decide (s = RetryDispatched).

Definition flying_retry (f : FencedExecution) (r : Retry) : bool :=
  retry_of (f_ExecutionID f) (f_WorkspaceID f) r && in_flight (r_State r).

Definition resolve_retry (outcome : RetryOutcome) (now : time) (r : Retry) : Retry :=
  set_r_State RetryProcessed (set_r_Outcome (Some outcome)
    (set_r_WorkerID None (set_r_CompletedAt (Some now) r))).

Definition release_lease (e : Execution) : Execution :=
  set_x_LeaseOwner None (set_x_LeaseExpiresAt None e).

Definition complete_row (result : string) (now : time) (e : Execution) : Execution :=
  set_x_Status StatusCompleted (set_x_ResultJSON (Some result)
    (set_x_CompletedAt (Some now) (set_x_UpdatedAt now (release_lease e)))).

Definition Complete (f : FencedExecution) (result : string) (now : time) (db : DB) : res err DB :=
  try! db1 := fenced_update f (complete_row result now) db in
  update_retries (flying_retry f) (resolve_retry RetrySuccess now) db1.

Definition fail_row (code : ErrorCode) (detail : string) (now : time) (e : Execution) : Execution :=
  set_x_Status StatusFailed (set_x_LastErrorCode (Some code) (set_x_Retryable (Some false)
    (set_x_ErrorDetail (nullableString detail) (set_x_FailedAt (Some now)
      (set_x_UpdatedAt now (release_lease e)))))).

Definition dlq_row (f : FencedExecution) (code : ErrorCode) (detail snapshot : string) : DlqRow :=
  mkDlq (f_WorkspaceID f) (f_ExecutionID f) (f_Attempt f) code (nullableString detail) (nullableBytes snapshot).

Definition FailAndDLQ (f : FencedExecution) (code : ErrorCode) (detail snapshot : string)
    (now : time) (db : DB) : res err DB :=
  try! db1 := fenced_update f (fail_row code detail now) db in
  try! db2 := update_retries (flying_retry f) (resolve_retry RetryFailed now) db1 in
  guard! (0 <=? code)%Z else check_violation in
  Ok (with_dlq (dlq_row f code detail snapshot :: db_dlq db2) db2).

Definition resched_row (nextRetryAt now : time) (e : Execution) : Execution :=
  set_x_Status StatusPending (set_x_NextRetryAt (Some nextRetryAt)
    (set_x_UpdatedAt now (release_lease e))).

Definition next_retry (f : FencedExecution) (rid : uuid) (nextRetryAt : time) (seq : Z) : Retry :=
  mkRetry rid (f_ExecutionID f) (f_WorkspaceID f) seq RetryPending None None
    (f_LeaseGeneration f) (Some nextRetryAt) None None None.

Definition Reschedule (f : FencedExecution) (nextRetryAt : time) (seq : Z) (now : time) (db : DB)
  : res err DB :=
  try! db1 := fenced_update f (resched_row nextRetryAt now) db in
  try! db2 := update_retries (flying_retry f) (resolve_retry RetryFailed now) db1 in
  try! db3 := insert_retry (next_retry f (db_next db) nextRetryAt seq) db2 in
  Ok (with_next (db_next db + 1)%N db3).

(** ** Dispatch log *)

Definition dispatched_retry (ws retryID : uuid) (workerID : string) (generation : Z) (r : Retry) : bool :=
  (r_ID r =? retryID)%N && (r_WorkspaceID r =? ws)%N && bool_decide (r_State r = RetryClaimed)
  && bool_decide (r_WorkerID r = Some workerID) && (r_Generation r =? generation)%Z.

Definition dispatch_retry (now : time) (r : Retry) : Retry :=
  set_r_State RetryDispatched (set_r_DispatchedAt (Some now) r).

Definition logged_retry (ws : uuid) (workerID : string) (generation : Z) (r : Retry) : bool :=
  (r_WorkspaceID r =? ws)%N && bool_decide (r_WorkerID r = Some workerID)
  && (r_Generation r =? generation)%Z && in_flight (r_State r).

Definition RecordDispatch (ws retryID : uuid) (workerID : string) (generation : Z) (success : bool)
    (now : time) (db : DB) : res err DB :=
  try! db1 := if success
              then update_retries (dispatched_retry ws retryID workerID generation) (dispatch_retry now) db
              else Ok db in
  match db_retries db1 !! retryID with
  | Some r =>
      if logged_retry ws workerID generation r
      then Ok (with_dispatch_log (mkDispatch ws retryID workerID generation success :: db_dispatch_log db1) db1)
      else Ok db1
  | None => Ok db1
  end.

(** ** Cancellation *)

Definition cancel_row (now : time) (e : Execution) : Execution :=
  set_x_Status StatusCancelled (set_x_LastErrorCode None (set_x_Retryable None (set_x_ErrorDetail None
    (set_x_CancelledAt (Some now) (release_lease e))))).

Definition cancelled_retry (id ws : uuid) (r : Retry) : bool :=
  retry_of id ws r && outstanding (r_State r).

Definition Cancel (ws id : uuid) (now : time) (db : DB) : res err DB :=
  match find_exec ws id db with
  | None => Err ErrNotFound
  | Some e =>
      if active (x_Status e) then
        try! db1 := put_exec (cancel_row now e) db in
        update_retries (cancelled_retry id ws) (resolve_retry RetryCancelled now) db1
      else Ok db
  end.
