(* ===== verification/ExecInv.v ===== *)
(** * The execution runtime as a transition system

    Every store transaction is one atomic step; workers, dispatchers and API
    callers interleave them arbitrarily, crash between them, and keep fenced
    identities ([Token]s) for ever.  The invariant of the reachable states and
    what follows from it. *)

From S2P Require Import Prelude Execution ExecStore.

(** ** Fenced identities in circulation *)

Record Token : Type := mkToken {
  t_exec : uuid;
  t_ws : uuid;
  t_owner : string;
  t_gen : Z;
  t_attempt : Z;
  t_max : Z
}.

Definition token_of (f : FencedExecution) : Token :=
  mkToken (f_ExecutionID f) (f_WorkspaceID f) (f_LeaseOwner f) (f_LeaseGeneration f)
    (f_Attempt f) (f_MaxAttempts f).

Record sys : Type := mkSys { s_db : DB; s_tokens : list Token }.

(** One step: a committed transaction of any process at any instant.  A caller
    only mutates with a fenced identity that [Claim] or [ReclaimStale] handed
    out, and reschedules only while attempts remain. *)
Inductive step : sys -> sys -> Prop :=
| step_admit req hash now db db' T r :
    (0 < a_MaxAttempts req)%Z ->
    AdmissionAdmit req hash now db = Ok (r, db') ->
    step (mkSys db T) (mkSys db' T)
| step_claim ws id w ttl now db db' T f :
    Claim ws id w ttl now db = Ok (f, db') ->
    step (mkSys db T) (mkSys db' (token_of f :: T))
| step_reclaim ws id w ttl now db db' T f :
    ReclaimStale ws id w ttl now db = Ok (f, db') ->
    step (mkSys db T) (mkSys db' (token_of f :: T))
| step_heartbeat f ttl now db db' T :
    token_of f ∈ T ->
    Heartbeat f ttl now db = Ok db' -> step (mkSys db T) (mkSys db' T)
| step_persist f code retryable detail now db db' T :
    token_of f ∈ T -> (0 <= code)%Z ->
    PersistError f code retryable detail now db = Ok db' -> step (mkSys db T) (mkSys db' T)
| step_complete f result now db db' T :
    token_of f ∈ T ->
    Complete f result now db = Ok db' -> step (mkSys db T) (mkSys db' T)
| step_fail f code detail snapshot now db db' T :
    token_of f ∈ T ->
    FailAndDLQ f code detail snapshot now db = Ok db' -> step (mkSys db T) (mkSys db' T)
| step_reschedule f next now db db' T :
    token_of f ∈ T -> (f_Attempt f < f_MaxAttempts f)%Z ->
    Reschedule f next (f_Attempt f + 1) now db = Ok db' -> step (mkSys db T) (mkSys db' T)
| step_dispatch ws rid w gen success now db db' T :
    RecordDispatch ws rid w gen success now db = Ok db' -> step (mkSys db T) (mkSys db' T)
| step_cancel ws id now db db' T :
    Cancel ws id now db = Ok db' -> step (mkSys db T) (mkSys db' T).

Definition steps : sys -> sys -> Prop := rtc step.

(** An empty board over given employees and tasks. *)
Definition initial (emps : gmap uuid (uuid * Z)) (tasks : gmap uuid uuid) : sys :=
  mkSys (mkDB ∅ ∅ [] [] [] emps tasks 1%N) [].

(** [ai_employees_max_concurrent_valid] *)
Definition employees_ok (emps : gmap uuid (uuid * Z)) : Prop :=
  map_Forall (fun _ p => (1 <= p.2)%Z) emps.

Definition reachable (s : sys) : Prop :=
  exists emps tasks, employees_ok emps /\ steps (initial emps tasks) s.

(** ** The invariant *)

Definition owned (e : Execution) (r : Retry) : Prop :=
  r_ExecutionID r = x_ID e /\ r_WorkspaceID r = x_WorkspaceID e.

Definition has_retry (m : gmap uuid Retry) (e : Execution) (P : Retry -> Prop) : Prop :=
  exists rid r, m !! rid = Some r /\ owned e r /\ P r.

Definition lifecycle (m : gmap uuid Retry) (e : Execution) : Prop :=
  match x_Status e with
  | StatusPending =>
      (x_Attempt e < x_MaxAttempts e)%Z /\
      has_retry m e (fun r => r_State r = RetryPending /\ r_RetrySeq r = (x_Attempt e + 1)%Z)
  | StatusRunning =>
      (1 <= x_Attempt e)%Z /\
      has_retry m e (fun r => in_flight (r_State r) = true /\ r_RetrySeq r = x_Attempt e
                              /\ (r_Generation r <= x_LeaseGeneration e)%Z)
  | _ =>
      forall rid r, m !! rid = Some r -> owned e r -> outstanding (r_State r) = false
  end.

Definition dlq_count (id : uuid) (l : list DlqRow) : nat :=
  length (filter (fun q => q_ExecutionID q = id) l).

Definition token_ok (e : Execution) (t : Token) : Prop :=
  t_ws t = x_WorkspaceID e /\ t_max t = x_MaxAttempts e /\
  (t_gen t <= x_LeaseGeneration e)%Z /\
  (t_gen t = x_LeaseGeneration e ->
     t_attempt t = x_Attempt e /\ (x_Status e = StatusRunning -> x_LeaseOwner e = Some (t_owner t))).

Record inv (s : sys) : Prop := mkInv {
  i_exec : forall i e, db_execs (s_db s) !! i = Some e ->
    x_ID e = i /\ (i < db_next (s_db s))%N /\ exec_row_ok e = true /\
    lifecycle (db_retries (s_db s)) e /\
    dlq_count i (db_dlq (s_db s)) = (if bool_decide (x_Status e = StatusFailed) then 1 else 0) /\
    (exists cap, db_employees (s_db s) !! x_AIEmployeeID e = Some (x_WorkspaceID e, cap));
  i_retry : forall j r, db_retries (s_db s) !! j = Some r ->
    r_ID r = j /\ (j < db_next (s_db s))%N /\ retry_row_ok r = true /\
    exists e, db_execs (s_db s) !! r_ExecutionID r = Some e /\
      r_WorkspaceID r = x_WorkspaceID e /\ (r_RetrySeq r <= x_MaxAttempts e)%Z /\
      (outstanding (r_State r) = false -> x_Status e = StatusRunning -> r_RetrySeq r < x_Attempt e)%Z /\
      (outstanding (r_State r) = false -> x_Status e = StatusPending -> r_RetrySeq r <= x_Attempt e)%Z;
  i_index : one_outstanding (db_retries (s_db s));
  i_seq : forall j j' r r', db_retries (s_db s) !! j = Some r -> db_retries (s_db s) !! j' = Some r' ->
    r_ExecutionID r = r_ExecutionID r' -> r_RetrySeq r = r_RetrySeq r' -> j = j';
  i_dlq : forall q, q ∈ db_dlq (s_db s) -> is_Some (db_execs (s_db s) !! q_ExecutionID q);
  i_token : forall t, t ∈ s_tokens s ->
    exists e, db_execs (s_db s) !! t_exec t = Some e /\ token_ok e t;
  i_token_uniq : forall t t', t ∈ s_tokens s -> t' ∈ s_tokens s ->
    t_exec t = t_exec t' -> t_gen t = t_gen t' -> t = t';
  i_keys : forall i j e e', db_execs (s_db s) !! i = Some e -> db_execs (s_db s) !! j = Some e' ->
    same_key e e' = true -> i = j;
  i_cap : forall emp ws cap, db_employees (s_db s) !! emp = Some (ws, cap) ->
    (count_active ws emp (s_db s) <= cap)%Z
}.

(** ** Framing: changing one execution and its retries *)

Definition retry_good (n : uuid) (e : Execution) (j : uuid) (r : Retry) : Prop :=
  r_ID r = j /\ (j < n)%N /\ retry_row_ok r = true /\
  r_WorkspaceID r = x_WorkspaceID e /\ (r_RetrySeq r <= x_MaxAttempts e)%Z /\
  (outstanding (r_State r) = false -> x_Status e = StatusRunning -> r_RetrySeq r < x_Attempt e)%Z /\
  (outstanding (r_State r) = false -> x_Status e = StatusPending -> r_RetrySeq r <= x_Attempt e)%Z.

(** [m'] differs from [m] only in rows of execution [id]. *)
Definition only_of (id : uuid) (m m' : gmap uuid Retry) : Prop :=
  forall j r, r_ExecutionID r <> id -> (m' !! j = Some r <-> m !! j = Some r).

Definition distinct_rows (id : uuid) (m : gmap uuid Retry) : Prop :=
  forall j j' r r', m !! j = Some r -> m !! j' = Some r' ->
    r_ExecutionID r = id -> r_ExecutionID r' = id ->
    (outstanding (r_State r) = true -> outstanding (r_State r') = true -> j = j') /\
    (r_RetrySeq r = r_RetrySeq r' -> j = j').

Definition same_identity (e e' : Execution) : Prop :=
  x_ID e' = x_ID e /\ x_WorkspaceID e' = x_WorkspaceID e /\ x_AIEmployeeID e' = x_AIEmployeeID e /\
  x_MaxAttempts e' = x_MaxAttempts e /\ x_IdempotencyKey e' = x_IdempotencyKey e /\
  x_TaskID e' = x_TaskID e /\ x_RequestHash e' = x_RequestHash e.

Lemma lifecycle_other m m' id e :
  only_of id m m' -> x_ID e <> id -> lifecycle m e -> lifecycle m' e.
Proof.
  intros Ho Hne. unfold lifecycle, has_retry, owned.
  assert (forall P, (exists rid r, m !! rid = Some r /\ (r_ExecutionID r = x_ID e /\ r_WorkspaceID r = x_WorkspaceID e) /\ P r) ->
     exists rid r, m' !! rid = Some r /\ (r_ExecutionID r = x_ID e /\ r_WorkspaceID r = x_WorkspaceID e) /\ P r) as Hex.
  { intros P (rid & r & Hr & [HE HW] & HP). exists rid, r. split_and!; try done.
    apply Ho; [congruence|done]. }
  case_match; try (intros Hl rid r Hr [HE HW]; apply (Hl rid r); [apply (Ho rid r); [congruence|done]|done]);
    intros [? ?]; split; auto.
Qed.

Lemma size_filter_insert_le (P : Execution -> Prop) `{!forall x, Decision (P x)} (m : gmap uuid Execution) i e e' :
  m !! i = Some e -> (P e' -> P e) ->
  size (filter (fun kv : uuid * Execution => P kv.2) (<[i:=e']> m)) <=
  size (filter (fun kv : uuid * Execution => P kv.2) m).
Proof.
  intros Hi HP. rewrite <-!size_dom. apply subseteq_size.
  intros k. rewrite !elem_of_dom. intros [x Hx].
  apply map_lookup_filter_Some in Hx as [Hx HPx]. simpl in HPx.
  destruct (decide (i = k)) as [->|Hne].
  - rewrite lookup_insert_eq in Hx. simplify_eq. exists e. apply map_lookup_filter_Some. auto.
  - rewrite lookup_insert_ne in Hx by done. exists x. apply map_lookup_filter_Some. auto.
Qed.

Lemma same_key_identity e e' e2 :
  same_identity e e' -> same_key e' e2 = same_key e e2.
Proof. intros (HI & HW & HE & HM & HK & _). unfold same_key. by rewrite HW, HK. Qed.

Lemma same_key_sym e e' : same_key e e' = same_key e' e.
Proof.
  unfold same_key. rewrite N.eqb_sym. f_equal.
  destruct (x_IdempotencyKey e), (x_IdempotencyKey e'); try done. apply String.eqb_sym.
Qed.

Lemma inv_change (s : sys) id e e' m' q' dl c n' T' :
  inv s -> db_execs (s_db s) !! id = Some e ->
  same_identity e e' -> exec_row_ok e' = true ->
  (active (x_Status e') = true -> active (x_Status e) = true) ->
  lifecycle m' e' ->
  (db_next (s_db s) <= n')%N ->
  dlq_count id q' = (if bool_decide (x_Status e' = StatusFailed) then 1 else 0) ->
  (forall k, k <> id -> dlq_count k q' = dlq_count k (db_dlq (s_db s))) ->
  (forall q, q ∈ q' -> q ∈ db_dlq (s_db s) \/ q_ExecutionID q = id) ->
  only_of id (db_retries (s_db s)) m' ->
  (forall j r, m' !! j = Some r -> r_ExecutionID r = id -> retry_good n' e' j r) ->
  distinct_rows id m' ->
  (forall t, t ∈ T' -> (t ∈ s_tokens s /\ t_exec t <> id) \/ (t_exec t = id /\ token_ok e' t)) ->
  (forall t t', t ∈ T' -> t' ∈ T' -> t_exec t = id -> t_exec t' = id -> t_gen t = t_gen t' -> t = t') ->
  inv (mkSys (mkDB (<[id := e']> (db_execs (s_db s))) m' q' dl c
                (db_employees (s_db s)) (db_tasks (s_db s)) n') T').
Proof.
  intros Hinv He (HI & HW & HE & HM & HK) Hok Hact Hlife Hn Hq Hq' Hq'' Honly Hmine Hdist HT HTu.
  pose proof (i_exec _ Hinv _ _ He) as (HIe & Hlt & _ & _ & _ & [cap Hcap]).
  split; simpl.
  - intros i x. destruct (decide (id = i)) as [<-|Hne].
    + rewrite lookup_insert_eq. intros [= <-]. split_and!; try done; [congruence|lia|].
      exists cap. congruence.
    + rewrite lookup_insert_ne by done. intros Hx.
      pose proof (i_exec _ Hinv _ _ Hx) as (? & ? & ? & ? & ? & ?).
      split_and!; try done; [lia| |rewrite Hq'; done].
      eapply lifecycle_other; [exact Honly|congruence|done].
  - intros j r Hr. destruct (decide (r_ExecutionID r = id)) as [Heq|Hne].
    + destruct (Hmine j r Hr Heq) as (? & ? & ? & ? & ? & ? & ?). split_and!; try done.
      exists e'. rewrite Heq, lookup_insert_eq. split_and!; done.
    + apply (Honly j r Hne) in Hr. pose proof (i_retry _ Hinv _ _ Hr) as (? & ? & ? & x & Hx & ?).
      split_and!; try done; [lia|]. exists x. by rewrite lookup_insert_ne.
  - intros j r Hr j' r' Hr' (Ho & Ho' & Hee & Hww).
    destruct (decide (r_ExecutionID r = id)) as [Heq|Hne].
    + eapply (proj1 (Hdist j j' r r' Hr Hr' Heq ltac:(congruence))); done.
    + apply (Honly j r Hne) in Hr. apply (Honly j' r') in Hr'; [|congruence].
      pose proof (i_index _ Hinv) as Hix. unfold one_outstanding in Hix.
      by apply (Hix j r Hr j' r' Hr').
  - intros j j' r r' Hr Hr' Hee Hs.
    destruct (decide (r_ExecutionID r = id)) as [Heq|Hne].
    + eapply (proj2 (Hdist j j' r r' Hr Hr' Heq ltac:(congruence))); done.
    + apply (Honly j r Hne) in Hr. apply (Honly j' r') in Hr'; [|congruence].
      by eapply (i_seq _ Hinv).
  - intros q Hin. rewrite lookup_insert_is_Some'.
    destruct (Hq'' q Hin) as [Hold|<-]; [right; by apply (i_dlq _ Hinv)|by left].
  - intros t Hin. destruct (HT t Hin) as [[Hold Hne]|[<- Htok]].
    + destruct (i_token _ Hinv _ Hold) as (x & Hx & Hok'). exists x. by rewrite lookup_insert_ne by done.
    + exists e'. by rewrite lookup_insert_eq.
  - intros t t' Hin Hin' Hex Hg.
    destruct (HT t Hin) as [[Hold Hne]|[Hid _]]; destruct (HT t' Hin') as [[Hold' Hne']|[Hid' _]]; try congruence.
    + by eapply (i_token_uniq _ Hinv).
    + by apply HTu.
  - intros i j x x'. assert (Hsame : same_identity e e') by done.
    destruct (decide (id = i)) as [<-|Hi], (decide (id = j)) as [<-|Hj]; try done.
    + rewrite lookup_insert_eq, lookup_insert_ne by done. intros [= <-] Hx'.
      rewrite (same_key_identity _ _ _ Hsame). by apply (i_keys _ Hinv).
    + rewrite lookup_insert_ne, lookup_insert_eq by done. intros Hx' [= <-].
      rewrite same_key_sym, (same_key_identity _ _ _ Hsame), same_key_sym. by apply (i_keys _ Hinv).
    + rewrite !lookup_insert_ne by done. by apply (i_keys _ Hinv).
  - intros emp ws cp Hc. etrans; [|by apply (i_cap _ Hinv _ _ _ Hc)].
    unfold count_active; simpl. apply Nat2Z.inj_le.
    apply (size_filter_insert_le (fun x => active_of ws emp x) _ _ e); [done|].
    unfold active_of, visible. rewrite HW, HE. naive_solver.
Qed.

(** ** Updates of the retry table *)

Definition keeps (f : Retry -> Retry) : Prop := forall r,
  r_ID (f r) = r_ID r /\ r_ExecutionID (f r) = r_ExecutionID r /\
  r_WorkspaceID (f r) = r_WorkspaceID r /\ r_RetrySeq (f r) = r_RetrySeq r.

Lemma upd_lookup p f m j r' :
  upd_retries p f m !! j = Some r' <-> exists r, m !! j = Some r /\ r' = if p r then f r else r.
Proof. unfold upd_retries. rewrite lookup_fmap, fmap_Some. done. Qed.

Lemma upd_only id p f m :
  keeps f -> (forall r, p r = true -> r_ExecutionID r = id) -> only_of id m (upd_retries p f m).
Proof.
  intros Hk Hp j r Hne. rewrite upd_lookup. split.
  - intros (r0 & Hr0 & ->). destruct (p r0) eqn:E; [|done].
    destruct Hne. rewrite (proj1 (proj2 (Hk r0))). auto.
  - intros Hr. exists r. split; [done|]. destruct (p r) eqn:E; [|done]. destruct Hne. auto.
Qed.

Lemma upd_distinct id p f m :
  keeps f -> (forall r, p r = true -> outstanding (r_State r) = true) ->
  distinct_rows id m -> distinct_rows id (upd_retries p f m).
Proof.
  intros Hk Hout Hd j j' r r'. rewrite !upd_lookup.
  intros (r0 & Hr0 & ->) (r0' & Hr0' & ->) He He'.
  pose proof (Hk r0) as (_ & HE & _ & HS). pose proof (Hk r0') as (_ & HE' & _ & HS').
  assert (r_ExecutionID r0 = id) by (destruct (p r0); congruence).
  assert (r_ExecutionID r0' = id) by (destruct (p r0'); congruence).
  destruct (Hd j j' r0 r0') as [Hd1 Hd2]; try done.
  split.
  - intros Ho Ho'. apply Hd1; [destruct (p r0) eqn:E|destruct (p r0') eqn:E]; auto.
  - intros Hs. apply Hd2. destruct (p r0), (p r0'); congruence.
Qed.

Lemma inv_distinct s id : inv s -> distinct_rows id (db_retries (s_db s)).
Proof.
  intros Hinv j j' r r' Hr Hr' He He'. split.
  - intros Ho Ho'. pose proof (i_index _ Hinv) as Hix. unfold one_outstanding in Hix.
    apply (Hix j r Hr j' r' Hr'). split_and!; try done; [congruence|].
    destruct (i_retry _ Hinv _ _ Hr) as (_ & _ & _ & e & Hx & HW & _).
    destruct (i_retry _ Hinv _ _ Hr') as (_ & _ & _ & e' & Hx' & HW' & _). congruence.
  - intros. eapply (i_seq _ Hinv); eauto. congruence.
Qed.

(** Every row of execution [id] is a row of its workspace. *)
Lemma inv_owned s id e j r :
  inv s -> db_execs (s_db s) !! id = Some e -> db_retries (s_db s) !! j = Some r ->
  r_ExecutionID r = id -> retry_good (db_next (s_db s)) e j r /\ owned e r.
Proof.
  intros Hinv He Hr Hid. destruct (i_retry _ Hinv _ _ Hr) as (? & ? & ? & x & Hx & ?).
  destruct (i_exec _ Hinv _ _ He) as (HI & _).
  rewrite Hid in Hx. simplify_eq. split; [split_and!; naive_solver|]. split; [congruence|naive_solver].
Qed.

Lemma tokens_keep s id e e' :
  inv s -> db_execs (s_db s) !! id = Some e -> same_identity e e' ->
  x_Attempt e' = x_Attempt e -> x_LeaseGeneration e' = x_LeaseGeneration e ->
  (x_Status e' = StatusRunning -> x_Status e = StatusRunning /\ x_LeaseOwner e' = x_LeaseOwner e) ->
  (forall t, t ∈ s_tokens s -> (t ∈ s_tokens s /\ t_exec t <> id) \/ (t_exec t = id /\ token_ok e' t)) /\
  (forall t t', t ∈ s_tokens s -> t' ∈ s_tokens s -> t_exec t = id -> t_exec t' = id ->
     t_gen t = t_gen t' -> t = t').
Proof.
  intros Hinv He (_ & HW & _ & HM & _) HA HG HS. split.
  - intros t Ht. destruct (decide (t_exec t = id)) as [Heq|]; [right; split; [done|]|by left].
    destruct (i_token _ Hinv _ Ht) as (x & Hx & Hok). rewrite Heq in Hx. simplify_eq.
    unfold token_ok in *. rewrite HW, HM, HA, HG. destruct Hok as (-> & -> & Hle & Hg).
    split_and!; try done. intros Heqg. destruct (Hg Heqg) as [-> Ho]. split; [done|].
    intros Hr. destruct (HS Hr) as [Hr' ->]. auto.
  - intros. eapply (i_token_uniq _ Hinv); eauto. congruence.
Qed.

(** ** Inversion of the statements *)

Lemma find_exec_Some ws id db e :
  find_exec ws id db = Some e <-> db_execs db !! id = Some e /\ x_WorkspaceID e = ws.
Proof.
  unfold find_exec, visible. destruct (db_execs db !! id) as [x|]; [|naive_solver].
  destruct (N.eqb_spec (x_WorkspaceID x) ws); naive_solver.
Qed.

Lemma put_exec_Ok e db db' :
  put_exec e db = Ok db' <-> exec_row_ok e = true /\ db' = with_execs (<[x_ID e := e]> (db_execs db)) db.
Proof. unfold put_exec. destruct (exec_row_ok e); naive_solver. Qed.

Lemma update_retries_Ok p f db db' :
  update_retries p f db = Ok db' <->
  retries_ok (upd_retries p f (db_retries db)) = true /\ db' = with_retries (upd_retries p f (db_retries db)) db.
Proof. unfold update_retries. destruct (retries_ok _); naive_solver. Qed.

Lemma holds_lease_spec f e :
  holds_lease f e = true <->
  x_WorkspaceID e = f_WorkspaceID f /\ x_Status e = StatusRunning /\
  x_LeaseOwner e = Some (f_LeaseOwner f) /\ x_LeaseGeneration e = f_LeaseGeneration f.
Proof.
  unfold holds_lease. rewrite !andb_true_iff, N.eqb_eq, Z.eqb_eq, !bool_decide_eq_true. tauto.
Qed.

Lemma fenced_update_Ok f upd db db' :
  fenced_update f upd db = Ok db' ->
  exists e, db_execs db !! f_ExecutionID f = Some e /\ x_WorkspaceID e = f_WorkspaceID f /\
    x_Status e = StatusRunning /\ x_LeaseOwner e = Some (f_LeaseOwner f) /\
    x_LeaseGeneration e = f_LeaseGeneration f /\ exec_row_ok (upd e) = true /\
    db' = with_execs (<[x_ID (upd e) := upd e]> (db_execs db)) db.
Proof.
  unfold fenced_update. destruct (find_exec _ _ db) as [e|] eqn:Hf; [|done].
  apply find_exec_Some in Hf as [He HW].
  destruct (holds_lease f e) eqn:Hh; [|done]. apply holds_lease_spec in Hh as (? & ? & ? & ?).
  rewrite put_exec_Ok. intros [? ->]. exists e. split_and!; done.
Qed.

Lemma retry_of_spec id ws r : retry_of id ws r = true <-> r_ExecutionID r = id /\ r_WorkspaceID r = ws.
Proof. unfold retry_of. by rewrite andb_true_iff, !N.eqb_eq. Qed.

Lemma in_flight_outstanding s : in_flight s = true -> outstanding s = true.
Proof. destruct s; done. Qed.

Lemma keeps_resolve o now : keeps (resolve_retry o now).
Proof. intros r. done. Qed.
Lemma keeps_claim w g now : keeps (claim_retry w g now).
Proof. intros r. done. Qed.
Lemma keeps_dispatch now : keeps (dispatch_retry now).
Proof. intros r. done. Qed.

Lemma exec_row_ok_spec e :
  exec_row_ok e = true <->
  ValidStatus (x_Status e) = true /\ (0 < x_MaxAttempts e)%Z /\ (0 <= x_Attempt e <= x_MaxAttempts e)%Z /\
  (x_Status e = StatusRunning -> x_LeaseOwner e <> None /\ x_LeaseExpiresAt e <> None) /\
  (x_Status e <> StatusRunning -> x_LeaseOwner e = None /\ x_LeaseExpiresAt e = None).
Proof.
  unfold exec_row_ok. rewrite !andb_true_iff, Z.ltb_lt, !Z.leb_le.
  destruct (bool_decide (x_Status e = StatusRunning)) eqn:Hs; bool_prop;
    rewrite andb_true_iff, !bool_decide_eq_true; intuition (try done; try lia).
Qed.

Lemma retry_row_ok_spec r :
  retry_row_ok r = true <->
  (0 < r_RetrySeq r)%Z /\ ValidRetryState (r_State r) = true /\
  match r_Outcome r with None => True | Some o => ValidRetryOutcome o = true end /\
  (r_State r = RetryProcessed -> r_WorkerID r = None).
Proof.
  unfold retry_row_ok. rewrite !andb_true_iff, orb_true_iff, Z.ltb_lt, negb_true_iff,
    bool_decide_eq_false, bool_decide_eq_true.
  assert (forall b : bool, match r_Outcome r with None => true | Some o => ValidRetryOutcome o end = b ->
    (b = true <-> match r_Outcome r with None => True | Some o => ValidRetryOutcome o = true end)) as Ho.
  { intros b <-. by destruct (r_Outcome r). }
  rewrite (Ho _ eq_refl). destruct (decide (r_State r = RetryProcessed)); tauto.
Qed.

(** ** Preservation, operation by operation *)

Lemma unique_outstanding s j j' r r' :
  inv s -> db_retries (s_db s) !! j = Some r -> db_retries (s_db s) !! j' = Some r' ->
  r_ExecutionID r = r_ExecutionID r' ->
  outstanding (r_State r) = true -> outstanding (r_State r') = true -> j = j'.
Proof.
  intros Hinv Hr Hr' HE Ho Ho'.
  exact (proj1 (inv_distinct s (r_ExecutionID r') Hinv j j' r r' Hr Hr' HE eq_refl) Ho Ho').
Qed.

(** The one outstanding retry of a running execution is in flight. *)
Lemma running_in_flight s id e j r :
  inv s -> db_execs (s_db s) !! id = Some e -> x_Status e = StatusRunning ->
  db_retries (s_db s) !! j = Some r -> r_ExecutionID r = id -> outstanding (r_State r) = true ->
  in_flight (r_State r) = true /\ r_RetrySeq r = x_Attempt e.
Proof.
  intros Hinv He Hs Hr Hid Ho.
  destruct (i_exec _ Hinv _ _ He) as (HI & _ & _ & Hl & _). unfold lifecycle in Hl. rewrite Hs in Hl.
  destruct Hl as (_ & j' & r' & Hr' & [HE _] & Hf & Hq & _).
  pose proof (unique_outstanding s j j' r r' Hinv Hr Hr' ltac:(congruence) Ho
    (in_flight_outstanding _ Hf)) as ->. by simplify_eq.
Qed.

Lemma flying_spec f r :
  flying_retry f r = true <->
  r_ExecutionID r = f_ExecutionID f /\ r_WorkspaceID r = f_WorkspaceID f /\ in_flight (r_State r) = true.
Proof. unfold flying_retry. rewrite andb_true_iff, retry_of_spec. tauto. Qed.

(** What resolving the in-flight retry of a running execution leaves behind. *)
Lemma settle_rows s f e o now m' :
  inv s -> db_execs (s_db s) !! f_ExecutionID f = Some e -> x_Status e = StatusRunning ->
  x_WorkspaceID e = f_WorkspaceID f -> ValidRetryOutcome o = true ->
  m' = upd_retries (flying_retry f) (resolve_retry o now) (db_retries (s_db s)) ->
  only_of (f_ExecutionID f) (db_retries (s_db s)) m' /\ distinct_rows (f_ExecutionID f) m' /\
  (forall j r, m' !! j = Some r -> r_ExecutionID r = f_ExecutionID f ->
     r_ID r = j /\ (j < db_next (s_db s))%N /\ retry_row_ok r = true /\
     r_WorkspaceID r = x_WorkspaceID e /\ (r_RetrySeq r <= x_Attempt e)%Z /\
     outstanding (r_State r) = false).
Proof.
  intros Hinv He Hs HW Ho ->. split_and!.
  - apply upd_only; [apply keeps_resolve|]. intros r Hp. apply flying_spec in Hp. tauto.
  - apply upd_distinct; [apply keeps_resolve| |by apply inv_distinct].
    intros r Hp. apply flying_spec in Hp as (_ & _ & ?). by apply in_flight_outstanding.
  - intros j r' (r & Hr & ->)%upd_lookup Hid.
    assert (r_ExecutionID r = f_ExecutionID f) as Hid' by (destruct (flying_retry f r); done).
    destruct (inv_owned _ _ _ _ _ Hinv He Hr Hid') as [(HI & Hlt & Hok & HWr & Hseq & Hrun & _) _].
    pose proof (running_in_flight _ _ _ _ _ Hinv He Hs Hr Hid') as Hfly.
    destruct (flying_retry f r) eqn:Hp.
    + apply flying_spec in Hp as (_ & _ & Hfl).
      split_and!; try done.
      * apply retry_row_ok_spec in Hok. apply retry_row_ok_spec. simpl. naive_solver.
      * simpl. rewrite (proj2 (Hfly (in_flight_outstanding _ Hfl))). lia.
    + assert (outstanding (r_State r) = false) as Hout.
      { destruct (outstanding (r_State r)) eqn:E; [|done]. destruct (Hfly eq_refl) as [Hfl _].
        rewrite (proj2 (flying_spec f r)) in Hp; [done|]. split_and!; congruence. }
      split_and!; try done. specialize (Hrun Hout Hs). lia.
Qed.

Lemma inv_same_rows (s : sys) id e e' c dl n T' :
  inv s -> db_execs (s_db s) !! id = Some e -> same_identity e e' -> exec_row_ok e' = true ->
  x_Status e' = x_Status e -> x_Attempt e' = x_Attempt e ->
  (x_LeaseGeneration e <= x_LeaseGeneration e')%Z -> n = db_next (s_db s) ->
  (forall t, t ∈ T' -> (t ∈ s_tokens s /\ t_exec t <> id) \/ (t_exec t = id /\ token_ok e' t)) ->
  (forall t t', t ∈ T' -> t' ∈ T' -> t_exec t = id -> t_exec t' = id -> t_gen t = t_gen t' -> t = t') ->
  inv (mkSys (mkDB (<[id := e']> (db_execs (s_db s))) (db_retries (s_db s)) (db_dlq (s_db s)) dl c
                (db_employees (s_db s)) (db_tasks (s_db s)) n) T').
Proof.
  intros Hinv He Hid Hok HS HA HG -> HT HTu. pose proof Hid as (HI & HW & _ & HM & _).
  destruct (i_exec _ Hinv _ _ He) as (HIe & _ & _ & Hl & Hq & _).
  eapply inv_change; try done.
  - by rewrite HS.
  - unfold lifecycle, has_retry, owned in *. rewrite HS, HI, HW, HA, HM.
    revert Hl. destruct (x_Status e); try done.
    intros (? & j & r & ? & ? & ? & ? & ?). split; [done|]. exists j, r. split_and!; naive_solver lia.
  - by rewrite HS.
  - by left.
  - intros j r Hr Hrid. destruct (inv_owned _ _ _ _ _ Hinv He Hr Hrid) as [Hg _].
    unfold retry_good in *. by rewrite HW, HM, HS, HA.
  - by apply inv_distinct.
Qed.

Lemma inv_heartbeat f ttl now db db' T :
  inv (mkSys db T) -> Heartbeat f ttl now db = Ok db' -> inv (mkSys db' T).
Proof.
  intros Hinv Hh. unfold Heartbeat in Hh.
  apply fenced_update_Ok in Hh as (e & He & HW & HS & HO & HG & Hok & ->).
  destruct (i_exec _ Hinv _ _ He) as (HI & _). simpl in HI. simpl. rewrite HI.
  edestruct (tokens_keep (mkSys db T) (f_ExecutionID f) e (set_x_LeaseExpiresAt (Some (lease_until now ttl)) e)) as [HT HTu];
    try done.
  by apply (inv_same_rows (mkSys db T) _ e).
Qed.

Lemma inv_persist f code rt detail now db db' T :
  inv (mkSys db T) -> PersistError f code rt detail now db = Ok db' -> inv (mkSys db' T).
Proof.
  intros Hinv Hh. unfold PersistError in Hh.
  apply fenced_update_Ok in Hh as (e & He & HW & HS & HO & HG & Hok & ->).
  destruct (i_exec _ Hinv _ _ He) as (HI & _). simpl in HI. simpl. rewrite HI.
  match goal with |- context [<[f_ExecutionID f := ?x]> _] =>
    edestruct (tokens_keep (mkSys db T) (f_ExecutionID f) e x) as [HT HTu]; try done end.
  by apply (inv_same_rows (mkSys db T) _ e).
Qed.

Lemma inv_complete f result now db db' T :
  inv (mkSys db T) -> Complete f result now db = Ok db' -> inv (mkSys db' T).
Proof.
  intros Hinv Hh. unfold Complete in Hh. apply res_bind_Ok in Hh as (db1 & Hf & Hr).
  apply fenced_update_Ok in Hf as (e & He & HW & HS & HO & HG & Hok & ->).
  apply update_retries_Ok in Hr as [_ ->].
  destruct (i_exec _ Hinv _ _ He) as (HI & _ & _ & _ & Hq & _). simpl in HI. simpl. rewrite HI.
  edestruct (settle_rows (mkSys db T) f e RetrySuccess now) as (Ho & Hd & Hm); try done.
  edestruct (tokens_keep (mkSys db T) (f_ExecutionID f) e (complete_row result now e)) as [HT HTu]; try done.
  eapply (inv_change (mkSys db T) _ e); try done; simpl.
  - intros j r Hj [HE _]. simpl in HE. apply (Hm j r Hj). congruence.
  - simpl in Hq. rewrite Hq. by rewrite HS.
  - by left.
  - intros j r Hj Hid. destruct (Hm j r Hj Hid) as (? & ? & ? & ? & ? & ?).
    apply exec_row_ok_spec in Hok. simpl in Hok. split_and!; try done. simpl; lia.
Qed.

Lemma dlq_count_cons id q l :
  dlq_count id (q :: l) = if bool_decide (q_ExecutionID q = id) then S (dlq_count id l) else dlq_count id l.
Proof.
  unfold dlq_count. rewrite filter_cons. case_decide; case_bool_decide; done.
Qed.

Lemma inv_fail f code detail snapshot now db db' T :
  inv (mkSys db T) -> FailAndDLQ f code detail snapshot now db = Ok db' -> inv (mkSys db' T).
Proof.
  intros Hinv Hh. unfold FailAndDLQ in Hh. apply res_bind_Ok in Hh as (db1 & Hf & Hr).
  apply fenced_update_Ok in Hf as (e & He & HW & HS & HO & HG & Hok & ->).
  apply res_bind_Ok in Hr as (db2 & Hr & Hq'). apply update_retries_Ok in Hr as [_ ->].
  apply guard_Ok in Hq' as [_ [= <-]].
  destruct (i_exec _ Hinv _ _ He) as (HI & _ & _ & _ & Hq & _). simpl in HI. simpl. rewrite HI.
  edestruct (settle_rows (mkSys db T) f e RetryFailed now) as (Ho & Hd & Hm); try done.
  edestruct (tokens_keep (mkSys db T) (f_ExecutionID f) e (fail_row code detail now e)) as [HT HTu]; try done.
  eapply (inv_change (mkSys db T) _ e); try done; simpl.
  - intros j r Hj [HE _]. simpl in HE. apply (Hm j r Hj). congruence.
  - simpl in Hq. rewrite dlq_count_cons, Hq, HS. simpl. by rewrite bool_decide_eq_true_2.
  - intros k Hk. rewrite dlq_count_cons. simpl. by rewrite bool_decide_eq_false_2 by congruence.
  - intros q [->|Hin]%elem_of_cons; [by right|by left].
  - intros j r Hj Hid. destruct (Hm j r Hj Hid) as (? & ? & ? & ? & ? & ?).
    apply exec_row_ok_spec in Hok. simpl in Hok. split_and!; try done. simpl; lia.
Qed.

Lemma insert_retry_Ok r db db' :
  insert_retry r db = Ok db' ->
  retry_row_ok r = true /\ db_retries db !! r_ID r = None /\
  db' = with_retries (<[r_ID r := r]> (db_retries db)) db.
Proof.
  unfold insert_retry. rewrite !guard_Ok. intros (_ & Hok & Hb & [= <-]).
  apply andb_true_iff in Hb as [Hb _]. apply bool_decide_eq_true in Hb. done.
Qed.

(** A token whose generation is current carries the current attempt. *)
Lemma token_current s f e :
  inv s -> token_of f ∈ s_tokens s -> db_execs (s_db s) !! f_ExecutionID f = Some e ->
  x_LeaseGeneration e = f_LeaseGeneration f ->
  f_Attempt f = x_Attempt e /\ f_MaxAttempts f = x_MaxAttempts e.
Proof.
  intros Hinv Hin He HG. destruct (i_token _ Hinv _ Hin) as (x & Hx & _ & HM & _ & Hg).
  simpl in *. simplify_eq. destruct (Hg (eq_sym HG)). auto.
Qed.

Lemma inv_reschedule f next now db db' T :
  inv (mkSys db T) -> token_of f ∈ T -> (f_Attempt f < f_MaxAttempts f)%Z ->
  Reschedule f next (f_Attempt f + 1) now db = Ok db' -> inv (mkSys db' T).
Proof.
  intros Hinv Hin Hlt Hh. unfold Reschedule in Hh. apply res_bind_Ok in Hh as (db1 & Hf & Hr).
  apply fenced_update_Ok in Hf as (e & He & HW & HS & HO & HG & Hok & ->).
  apply res_bind_Ok in Hr as (db2 & Hr & Hi). apply update_retries_Ok in Hr as [_ ->].
  apply res_bind_Ok in Hi as (db3 & Hi & [= <-]).
  apply insert_retry_Ok in Hi as (Hrok & Hnone & ->).
  destruct (i_exec _ Hinv _ _ He) as (HI & _ & _ & _ & Hq & _).
  destruct (token_current (mkSys db T) f e Hinv Hin He HG) as [HA HM].
  simpl in *. rewrite HI. rewrite HA in *.
  edestruct (settle_rows (mkSys db T) f e RetryFailed now) as (Ho & Hd & Hm); try done.
  edestruct (tokens_keep (mkSys db T) (f_ExecutionID f) e (resched_row next now e)) as [HT HTu]; try done.
  simpl in Ho, Hd, Hm.
  set (m' := upd_retries (flying_retry f) (resolve_retry RetryFailed now) (db_retries db)) in *.
  eapply (inv_change (mkSys db T) _ e); try done; simpl.
  - by rewrite HS.
  - split; [simpl; lia|]. exists (db_next db), (next_retry f (db_next db) next (x_Attempt e + 1)).
    simpl. rewrite lookup_insert_eq. split_and!; try done; simpl; congruence.
  - lia.
  - rewrite Hq. by rewrite HS.
  - by left.
  - intros j r Hne. rewrite <-(Ho j r Hne). destruct (decide (db_next db = j)) as [<-|Hj].
    + rewrite lookup_insert_eq, Hnone. split; [|done]. intros [= <-]. by destruct Hne.
    + by rewrite lookup_insert_ne.
  - intros j r Hj Hid. destruct (decide (db_next db = j)) as [<-|Hne].
    + rewrite lookup_insert_eq in Hj. simplify_eq. split_and!; try done; simpl; lia.
    + rewrite lookup_insert_ne in Hj by done. destruct (Hm j r Hj Hid) as (? & ? & ? & ? & ? & ?).
      apply exec_row_ok_spec in Hok. simpl in Hok. split_and!; try done; simpl; lia.
  - intros j j' r r' Hj Hj' Hid Hid'.
    destruct (decide (db_next db = j)) as [<-|Hne], (decide (db_next db = j')) as [<-|Hne']; try done.
    + rewrite lookup_insert_eq in Hj. rewrite lookup_insert_ne in Hj' by done. simplify_eq.
      destruct (Hm j' r' Hj' Hid') as (_ & _ & _ & _ & Hs & Hout). rewrite Hout. simpl. split; [done|lia].
    + rewrite lookup_insert_ne in Hj by done. rewrite lookup_insert_eq in Hj'. simplify_eq.
      destruct (Hm j r Hj Hid) as (_ & _ & _ & _ & Hs & Hout). rewrite Hout. simpl. split; [done|lia].
    + rewrite !lookup_insert_ne in * by done. by apply (Hd j j' r r').
Qed.

Lemma claimable_retry_spec id ws r :
  claimable_retry id ws r = true <->
  r_ExecutionID r = id /\ r_WorkspaceID r = ws /\ r_State r = RetryPending.
Proof. unfold claimable_retry. rewrite andb_true_iff, retry_of_spec, bool_decide_eq_true. tauto. Qed.

(** A new lease generation: earlier tokens of the row stop being current. *)
Lemma tokens_bump s id e e' t0 :
  inv s -> db_execs (s_db s) !! id = Some e -> same_identity e e' ->
  x_LeaseGeneration e' = (x_LeaseGeneration e + 1)%Z -> t_exec t0 = id -> token_ok e' t0 ->
  t_gen t0 = x_LeaseGeneration e' ->
  (forall t, t ∈ t0 :: s_tokens s -> (t ∈ s_tokens s /\ t_exec t <> id) \/ (t_exec t = id /\ token_ok e' t)) /\
  (forall t t', t ∈ t0 :: s_tokens s -> t' ∈ t0 :: s_tokens s -> t_exec t = id -> t_exec t' = id ->
     t_gen t = t_gen t' -> t = t').
Proof.
  intros Hinv He (_ & HW & _ & HM & _) HG H0 Hok0 Hg0.
  assert (forall t, t ∈ s_tokens s -> t_exec t = id -> token_ok e t) as Hold.
  { intros t Ht Hid. destruct (i_token _ Hinv _ Ht) as (x & Hx & Hok). rewrite Hid in Hx. by simplify_eq. }
  split.
  - intros t [->|Ht]%elem_of_cons; [by right|].
    destruct (decide (t_exec t = id)) as [Hid|]; [right; split; [done|]|by left].
    destruct (Hold t Ht Hid) as (? & ? & ? & ?). unfold token_ok. rewrite HW, HM, HG.
    split_and!; try done; lia.
  - intros t t' [->|Ht]%elem_of_cons [->|Ht']%elem_of_cons Hid Hid' Hg; try done.
    + destruct (Hold t' Ht' Hid') as (_ & _ & ? & _). lia.
    + destruct (Hold t Ht Hid) as (_ & _ & ? & _). lia.
    + eapply (i_token_uniq _ Hinv); try done. congruence.
Qed.

Lemma Claim_Ok ws id w ttl now db f db' :
  Claim ws id w ttl now db = Ok (f, db') ->
  exists e rid r, db_execs db !! id = Some e /\ x_WorkspaceID e = ws /\
    x_Status e = StatusPending /\ (x_Attempt e < x_MaxAttempts e)%Z /\ due now e = true /\
    exec_row_ok (claim_row w now ttl e) = true /\
    db_retries db !! rid = Some r /\ claimable_retry id ws r = true /\
    f = fenced (claim_row w now ttl e) w (lease_until now ttl) rid None None None /\
    db' = mkDB (<[x_ID e := claim_row w now ttl e]> (db_execs db))
            (upd_retries (claimable_retry id ws) (claim_retry w (x_LeaseGeneration e + 1) now) (db_retries db))
            (db_dlq db) (db_dispatch_log db) (db_contexts db) (db_employees db) (db_tasks db) (db_next db).
Proof.
  unfold Claim. destruct (find_exec ws id db) as [e|] eqn:Hf; [|done].
  apply find_exec_Some in Hf as [He HW]. rewrite guard_Ok. intros [Hc Hk].
  apply res_bind_Ok in Hk as (db1 & Hp & Hk). apply put_exec_Ok in Hp as [Hok ->].
  apply res_bind_Ok in Hk as (db2 & Hu & Hk). apply update_retries_Ok in Hu as [_ ->].
  unfold claimable in Hc. bool_prop.
  destruct (filter _ (map_to_list (db_retries db))) as [|[rid r] l] eqn:Hl; [done|]. simplify_eq.
  assert ((rid, r) ∈ filter (fun kv : uuid * Retry => claimable_retry id (x_WorkspaceID e) kv.2 = true)
            (map_to_list (db_retries db))) as Hin by (rewrite Hl; left).
  apply list_elem_of_filter in Hin as [Hp Hin]. apply elem_of_map_to_list in Hin.
  exists e, rid, r. split_and!; done.
Qed.

Lemma inv_claim ws id w ttl now db db' T f :
  inv (mkSys db T) -> Claim ws id w ttl now db = Ok (f, db') -> inv (mkSys db' (token_of f :: T)).
Proof.
  intros Hinv Hc.
  apply Claim_Ok in Hc as (e & rid & r & He & HW & HS & Hlt & _ & Hok & Hr & Hcl & -> & ->).
  destruct (i_exec _ Hinv _ _ He) as (HI & _ & Hrow & Hl & Hq & _). simpl in *. rewrite HI.
  apply exec_row_ok_spec in Hrow.
  set (p := claimable_retry id ws). set (g := claim_retry w (x_LeaseGeneration e + 1) now).
  assert (forall r, p r = true -> r_ExecutionID r = id) as Hp by (intros r0 Hp; apply claimable_retry_spec in Hp; tauto).
  edestruct (tokens_bump (mkSys db T) id e (claim_row w now ttl e)
    (token_of (fenced (claim_row w now ttl e) w (lease_until now ttl) rid None None None))) as [HT HTu]; try done.
  eapply (inv_change (mkSys db T) _ e); try done; simpl.
  - by rewrite HS.
  - split; [simpl; lia|]. unfold lifecycle in Hl. rewrite HS in Hl. destruct Hl as (_ & j & r0 & Hj & [HE0 HW0] & Hst & Hsq).
    exists j, (g r0). simpl. rewrite upd_lookup. split_and!; try done.
    exists r0. split; [done|]. replace (p r0) with true; [done|]. symmetry.
    apply claimable_retry_spec. split_and!; congruence.
  - by rewrite Hq, HS.
  - by left.
  - by apply upd_only.
  - intros j r' (r0 & Hj & ->)%upd_lookup Hid'.
    assert (r_ExecutionID r0 = id) as Hid by (destruct (p r0); done).
    destruct (inv_owned (mkSys db T) _ _ _ _ Hinv He Hj Hid) as [(? & ? & Hrok & ? & ? & ? & Hpend) _].
    apply retry_row_ok_spec in Hrok. destruct (p r0) eqn:Hp0.
    + split_and!; try done. apply retry_row_ok_spec. simpl. naive_solver.
    + split_and!; try done; [by apply retry_row_ok_spec|].
      simpl. intros Hout _. specialize (Hpend Hout HS). lia.
  - apply upd_distinct; [done| |by apply (inv_distinct (mkSys db T))].
    intros r0 (_ & _ & ->)%claimable_retry_spec. done.
Qed.

Lemma ReclaimStale_Ok ws id w ttl now db f db' :
  ReclaimStale ws id w ttl now db = Ok (f, db') ->
  exists e rid, db_execs db !! id = Some e /\ x_WorkspaceID e = ws /\
    x_Status e = StatusRunning /\ expired now e = true /\
    exec_row_ok (reclaim_row w now ttl e) = true /\
    f = fenced (reclaim_row w now ttl e) w (lease_until now ttl) rid
          (x_LastErrorCode e) (x_Retryable e) (x_NextRetryAt e) /\
    db' = with_execs (<[x_ID e := reclaim_row w now ttl e]> (db_execs db)) db.
Proof.
  unfold ReclaimStale. destruct (find_exec ws id db) as [e|] eqn:Hf; [|done].
  apply find_exec_Some in Hf as [He HW]. rewrite guard_Ok. intros [Hc Hk].
  apply res_bind_Ok in Hk as (db1 & Hp & [= <- <-]). apply put_exec_Ok in Hp as [Hok ->].
  bool_prop. eexists e, _. split_and!; done.
Qed.

Lemma inv_reclaim ws id w ttl now db db' T f :
  inv (mkSys db T) -> ReclaimStale ws id w ttl now db = Ok (f, db') -> inv (mkSys db' (token_of f :: T)).
Proof.
  intros Hinv Hc. apply ReclaimStale_Ok in Hc as (e & rid & He & HW & HS & _ & Hok & -> & ->).
  destruct (i_exec _ Hinv _ _ He) as (HI & _). simpl in HI. rewrite HI.
  edestruct (tokens_bump (mkSys db T) id e (reclaim_row w now ttl e)
    (token_of (fenced (reclaim_row w now ttl e) w (lease_until now ttl) rid
       (x_LastErrorCode e) (x_Retryable e) (x_NextRetryAt e)))) as [HT HTu]; try done.
  apply (inv_same_rows (mkSys db T) _ e); try done. simpl. lia.
Qed.

(** An update that only moves in-flight retries between the two in-flight states. *)
Definition touches (p : Retry -> bool) (f : Retry -> Retry) : Prop :=
  keeps f /\ forall r, p r = true ->
    in_flight (r_State r) = true /\ in_flight (r_State (f r)) = true /\
    r_Generation (f r) = r_Generation r /\ (retry_row_ok r = true -> retry_row_ok (f r) = true).

Lemma touches_row p f r :
  touches p f -> let r' := if p r then f r else r in
  r_ID r' = r_ID r /\ r_ExecutionID r' = r_ExecutionID r /\ r_WorkspaceID r' = r_WorkspaceID r /\
  r_RetrySeq r' = r_RetrySeq r /\ r_Generation r' = r_Generation r /\
  outstanding (r_State r') = outstanding (r_State r) /\ in_flight (r_State r') = in_flight (r_State r) /\
  (r_State r = RetryPending -> r' = r) /\
  (retry_row_ok r = true -> retry_row_ok r' = true).
Proof.
  intros [Hk Hp]. simpl. destruct (p r) eqn:E; [|done].
  destruct (Hp r E) as (Hf & Hf' & Hg & Hok). destruct (Hk r) as (? & ? & ? & ?).
  rewrite !in_flight_outstanding, Hf, Hf' by done. split_and!; try done. intros Hst. by rewrite Hst in Hf.
Qed.

Lemma touches_lifecycle p f m e : touches p f -> lifecycle m e -> lifecycle (upd_retries p f m) e.
Proof.
  intros Ht. unfold lifecycle, has_retry, owned. case_match; try done;
    try (intros Hl j r' (r & Hj & ->)%upd_lookup Hown; destruct (touches_row p f r Ht) as (_ & HE & HW & _ & _ & -> & _);
         apply (Hl j r Hj); by rewrite <-HE, <-HW).
  - intros (Hlt & j & r & Hj & Hown & Hst & Hsq). split; [done|]. exists j, r.
    split_and!; try apply Hown; try done. apply upd_lookup. exists r. split; [done|].
    destruct (touches_row p f r Ht) as (_ & _ & _ & _ & _ & _ & _ & Heq & _). symmetry. by apply Heq.
  - intros (Hlt & j & r & Hj & Hown & Hst & Hsq & Hg). split; [done|]. exists j, (if p r then f r else r).
    destruct (touches_row p f r Ht) as (_ & -> & -> & -> & -> & _ & -> & _).
    split_and!; try apply Hown; try done. apply upd_lookup. by exists r.
Qed.

Lemma inv_touch p f db T :
  touches p f -> inv (mkSys db T) -> inv (mkSys (with_retries (upd_retries p f (db_retries db)) db) T).
Proof.
  intros Ht Hinv. destruct Hinv as [Hexec Hretry Hindex Hseq Hdlq Htok Htoku Hkeys Hcap].
  split; simpl in *; try done.
  - intros i e He. destruct (Hexec i e He) as (? & ? & ? & ? & ? & ?).
    split_and!; try done. by apply touches_lifecycle.
  - intros j r' (r & Hj & ->)%upd_lookup.
    destruct (touches_row p f r Ht) as (-> & -> & -> & -> & _ & -> & _ & _ & Hok).
    destruct (Hretry j r Hj) as (? & ? & ? & ?). split_and!; auto.
  - intros j r1 (r & Hj & ->)%upd_lookup j' r1' (r' & Hj' & ->)%upd_lookup (Ho & Ho' & HE & HW).
    destruct (touches_row p f r Ht) as (_ & E1 & E2 & _ & _ & E3 & _).
    destruct (touches_row p f r' Ht) as (_ & E1' & E2' & _ & _ & E3' & _).
    apply (Hindex j r Hj j' r' Hj'). split_and!; congruence.
  - intros j j' r1 r1' (r & Hj & ->)%upd_lookup (r' & Hj' & ->)%upd_lookup HE HS.
    destruct (touches_row p f r Ht) as (_ & E1 & _ & E2 & _).
    destruct (touches_row p f r' Ht) as (_ & E1' & _ & E2' & _).
    apply (Hseq j j' r r' Hj Hj'); congruence.
Qed.

Lemma dispatch_touches ws rid w gen now :
  touches (dispatched_retry ws rid w gen) (dispatch_retry now).
Proof.
  split; [apply keeps_dispatch|]. intros r Hp. unfold dispatched_retry in Hp. bool_prop.
  split_and!; try done; [by rewrite H2|]. rewrite !retry_row_ok_spec. simpl. naive_solver.
Qed.

Lemma inv_dispatch ws rid w gen ok now db db' T :
  inv (mkSys db T) -> RecordDispatch ws rid w gen ok now db = Ok db' -> inv (mkSys db' T).
Proof.
  intros Hinv. unfold RecordDispatch. intros (db1 & Hu & Hk)%res_bind_Ok.
  assert (inv (mkSys db1 T)) as Hinv1.
  { destruct ok; [|by simplify_eq]. apply update_retries_Ok in Hu as [_ ->].
    by apply inv_touch; [apply dispatch_touches|]. }
  destruct (db_retries db1 !! rid) as [r|]; [destruct (logged_retry ws w gen r)|]; simplify_eq; try done.
  by destruct Hinv1.
Qed.

Lemma cancelled_retry_spec id ws r :
  cancelled_retry id ws r = true <->
  r_ExecutionID r = id /\ r_WorkspaceID r = ws /\ outstanding (r_State r) = true.
Proof. unfold cancelled_retry. rewrite andb_true_iff, retry_of_spec. tauto. Qed.

Lemma inv_cancel ws id now db db' T :
  inv (mkSys db T) -> Cancel ws id now db = Ok db' -> inv (mkSys db' T).
Proof.
  intros Hinv. unfold Cancel. destruct (find_exec ws id db) as [e|] eqn:Hf; [|done].
  apply find_exec_Some in Hf as [He HW]. destruct (active (x_Status e)) eqn:Ha; [|by intros [= <-]].
  intros (db1 & Hp & Hu)%res_bind_Ok. apply put_exec_Ok in Hp as [Hok ->].
  apply update_retries_Ok in Hu as [_ ->].
  destruct (i_exec _ Hinv _ _ He) as (HI & _ & _ & _ & Hq & _). simpl in *. rewrite HI.
  set (p := cancelled_retry id ws). set (g := resolve_retry RetryCancelled now).
  assert (forall r, p r = true -> r_ExecutionID r = id /\ outstanding (r_State r) = true) as Hp.
  { intros r Hp. apply cancelled_retry_spec in Hp. tauto. }
  assert (forall j r, db_retries db !! j = Some r -> r_ExecutionID r = id -> outstanding (r_State r) = p r) as Hpo.
  { intros j r Hj Hid. destruct (inv_owned (mkSys db T) _ _ _ _ Hinv He Hj Hid) as [_ [_ HWr]].
    destruct (p r) eqn:E; [by apply Hp|]. destruct (outstanding (r_State r)) eqn:E'; [|done].
    rewrite <-E. symmetry. apply cancelled_retry_spec. split_and!; congruence. }
  edestruct (tokens_keep (mkSys db T) id e (cancel_row now e)) as [HT HTu]; try done.
  apply (inv_change (mkSys db T) _ e); try done; simpl.
  - intros j r' (r & Hj & ->)%upd_lookup [HE _]. simpl in HE.
    assert (r_ExecutionID r = id) as Hid by (destruct (p r); simpl in *; congruence).
    destruct (p r) eqn:E; [done|]. rewrite (Hpo j r Hj Hid). done.
  - rewrite Hq. destruct (x_Status e); done.
  - by left.
  - apply upd_only; [done|]. intros r Hr. by apply Hp.
  - intros j r' (r & Hj & ->)%upd_lookup Hid.
    assert (r_ExecutionID r = id) as Hid' by (by destruct (p r)).
    destruct (inv_owned (mkSys db T) _ _ _ _ Hinv He Hj Hid') as [(? & ? & Hrok & ? & ? & ? & ?) _].
    destruct (p r) eqn:E; split_and!; try done.
    apply retry_row_ok_spec in Hrok. apply retry_row_ok_spec. simpl. naive_solver.
  - apply upd_distinct; [done| |by apply (inv_distinct (mkSys db T))]. intros r Hr. by apply Hp.
Qed.

Lemma insert_exec_Ok e db db' :
  insert_exec e db = Ok db' ->
  exec_row_ok e = true /\ db_execs db !! x_ID e = None /\
  map_Forall (fun _ e' => same_key e e' = false) (db_execs db) /\
  db' = with_execs (<[x_ID e := e]> (db_execs db)) db.
Proof.
  unfold insert_exec. rewrite !guard_Ok. intros (Hok & Hu & _ & [= <-]).
  apply andb_true_iff in Hu as [H1 H2]. apply bool_decide_eq_true in H1, H2. done.
Qed.

Lemma find_capacity_Some ws emp db cap :
  find_capacity ws emp db = Some cap <-> db_employees db !! emp = Some (ws, cap).
Proof.
  unfold find_capacity. destruct (db_employees db !! emp) as [[ws' c]|]; [|done].
  destruct (N.eqb_spec ws' ws); naive_solver.
Qed.

(** The two ways an admission commits: a replay leaves the tables alone, a
    fresh one adds one pending execution and its first retry. *)
Lemma AdmissionAdmit_Ok req hash now db r db' :
  AdmissionAdmit req hash now db = Ok (r, db') ->
  (ar_Created r = false /\ db' = db /\ a_IdempotencyKey req <> ""%string /\
   find_by_key (a_WorkspaceID req) (a_IdempotencyKey req) db = Some (ar_Execution r)) \/
  (exists cap e rt ctx, let id := db_next db in
     e = admitted_row req hash id now /\ rt = first_retry req (id + 1)%N id /\
     ar_Created r = true /\ ar_Execution r = e /\
     find_capacity (a_WorkspaceID req) (a_AIEmployeeID req) db = Some cap /\
     (count_active (a_WorkspaceID req) (a_AIEmployeeID req) db < cap)%Z /\
     exec_row_ok e = true /\ db_execs db !! id = None /\
     map_Forall (fun _ e' => same_key e e' = false) (db_execs db) /\
     db' = mkDB (<[id := e]> (db_execs db)) (<[(id + 1)%N := rt]> (db_retries db)) (db_dlq db)
             (db_dispatch_log db) ctx (db_employees db) (db_tasks db) (id + 2)%N).
Proof.
  unfold AdmissionAdmit.
  destruct (if String.eqb (a_IdempotencyKey req) "" then None else _) as [e|] eqn:Hex.
  { intros [= <- <-]. left. destruct (String.eqb_spec (a_IdempotencyKey req) ""); done. }
  clear Hex. destruct (find_capacity _ _ db) as [cap|] eqn:Hcap; [|done].
  rewrite guard_Ok. intros [Hlt Hk]. bool_prop. right.
  destruct (insert_exec _ db) as [db1|x] eqn:Hi; [|by destruct (isUniqueViolation x)].
  apply insert_exec_Ok in Hi as (Hok & Hnone & Hkeys & ->).
  apply res_bind_Ok in Hk as (db2 & Hr & Hk). apply insert_retry_Ok in Hr as (_ & _ & ->).
  apply res_bind_Ok in Hk as (db3 & Hc & [= <- <-]).
  eexists cap, _, _, (db_contexts db3). simpl in *. split_and!; try done.
  destruct (a_Context req) as [m|]; [done|]. by simplify_eq.
Qed.

Lemma inv_fresh s : inv s -> db_execs (s_db s) !! db_next (s_db s) = None.
Proof.
  intros Hinv. destruct (_ !! _) as [e|] eqn:He; [|done]. destruct (i_exec _ Hinv _ _ He) as (_ & ? & _). lia.
Qed.

Lemma inv_fresh_rows s n j r :
  inv s -> (db_next (s_db s) <= n)%N -> db_retries (s_db s) !! j = Some r -> j <> n /\ r_ExecutionID r <> n.
Proof.
  intros Hinv Hn Hj. destruct (i_retry _ Hinv _ _ Hj) as (_ & ? & _ & e & He & _).
  destruct (i_exec _ Hinv _ _ He) as (_ & ? & _). split; lia.
Qed.

Lemma count_active_insert ws emp i e (m : gmap uuid Execution) :
  m !! i = None ->
  size (filter (fun kv : uuid * Execution => active_of ws emp kv.2) (<[i:=e]> m)) =
  (if decide (active_of ws emp e) then 1 else 0) +
  size (filter (fun kv : uuid * Execution => active_of ws emp kv.2) m).
Proof.
  intros Hi. rewrite map_filter_insert. case_decide as Ha; simpl in Ha.
  - rewrite (decide_True _ _ Ha), map_size_insert_None; [lia|]. by apply map_lookup_filter_None_2; left.
  - rewrite (decide_False _ _ Ha), delete_id by done. lia.
Qed.

Lemma inv_insert db T req hash now cap ctx :
  let id := db_next db in let e := admitted_row req hash id now in
  inv (mkSys db T) -> (0 < a_MaxAttempts req)%Z ->
  find_capacity (a_WorkspaceID req) (a_AIEmployeeID req) db = Some cap ->
  (count_active (a_WorkspaceID req) (a_AIEmployeeID req) db < cap)%Z ->
  exec_row_ok e = true -> map_Forall (fun _ e' => same_key e e' = false) (db_execs db) ->
  inv (mkSys (mkDB (<[id := e]> (db_execs db)) (<[(id + 1)%N := first_retry req (id + 1)%N id]> (db_retries db))
         (db_dlq db) (db_dispatch_log db) ctx (db_employees db) (db_tasks db) (id + 2)%N) T).
Proof.
  intros id e Hinv Hmax Hcap Hlt Hok Hkeys. pose proof (inv_fresh _ Hinv) as Hnone. simpl in Hnone. fold id in Hnone.
  apply find_capacity_Some in Hcap.
  assert (forall j r, db_retries db !! j = Some r -> j <> (id + 1)%N /\ r_ExecutionID r <> id) as Hrows.
  { intros j r Hj. split; [by apply (inv_fresh_rows (mkSys db T) (id + 1)%N j r Hinv ltac:(simpl; lia) Hj)|].
    by apply (inv_fresh_rows (mkSys db T) id j r Hinv ltac:(simpl; lia) Hj). }
  assert (forall i x, db_execs db !! i = Some x -> i <> id) as Hids by (intros i x Hi ->; congruence).
  pose proof Hinv as [Hexec Hretry Hindex Hseq Hdlq Htok Htoku Hk Hc]. simpl in *.
  split; simpl; try done.
  - intros i x [[<- <-]|[Hne Hx]]%lookup_insert_Some.
    + split_and!; try done; [lia| | |by exists cap].
      * split; [simpl; lia|]. exists (id + 1)%N, (first_retry req (id + 1) id).
        simpl. by rewrite lookup_insert_eq.
      * unfold dlq_count. simpl. destruct (filter _ (db_dlq db)) as [|q l] eqn:Hf; [done|].
        assert (q ∈ filter (fun q => q_ExecutionID q = id) (db_dlq db)) as Hq by (rewrite Hf; left).
        apply list_elem_of_filter in Hq as [Hq Hin]. destruct (Hdlq q Hin). congruence.
    + destruct (Hexec i x Hx) as (HIx & ? & ? & Hl & ? & ?). split_and!; try done; [lia|].
      eapply (lifecycle_other _ _ id); [|rewrite HIx; by apply (Hids i x)|done].
      intros j r Hne'. destruct (decide (j = (id + 1)%N)) as [->|Hj]; [|by rewrite lookup_insert_ne].
      rewrite lookup_insert_eq. split; [by intros [= <-]|]. intros Hj. by destruct (Hrows _ _ Hj).
  - intros j r [[<- <-]|[Hne Hr]]%lookup_insert_Some.
    + split_and!; try done; [simpl; lia|]. exists e. simpl. rewrite lookup_insert_eq. split_and!; done || (simpl; lia).
    + destruct (Hretry j r Hr) as (? & ? & ? & x & Hx & ?). split_and!; try done; [lia|].
      exists x. by rewrite lookup_insert_ne by (symmetry; by apply (Hids _ x)).
  - intros j r Hj j' r' Hj' (Ho & Ho' & HE & HW).
    apply lookup_insert_Some in Hj as [[<- <-]|[Hne Hj]]; apply lookup_insert_Some in Hj' as [[<- <-]|[Hne' Hj']]; try done.
    + simpl in HE. by destruct (Hrows _ _ Hj').
    + simpl in HE. by destruct (Hrows _ _ Hj).
    + by apply (Hindex j r Hj j' r' Hj').
  - intros j j' r r' Hj Hj' HE HS.
    apply lookup_insert_Some in Hj as [[<- <-]|[Hne Hj]]; apply lookup_insert_Some in Hj' as [[<- <-]|[Hne' Hj']]; try done.
    + simpl in HE. by destruct (Hrows _ _ Hj').
    + simpl in HE. by destruct (Hrows _ _ Hj).
    + by apply (Hseq j j' r r').
  - intros q Hq. apply lookup_insert_is_Some'. right. by apply Hdlq.
  - intros t Ht. destruct (Htok t Ht) as (x & Hx & ?). exists x.
    by rewrite lookup_insert_ne by (symmetry; by apply (Hids _ x)).
  - intros i j x x' Hi Hj Hsk.
    apply lookup_insert_Some in Hi as [[<- <-]|[Hne Hi]]; apply lookup_insert_Some in Hj as [[<- <-]|[Hne' Hj]]; try done.
    + rewrite (Hkeys j x' Hj) in Hsk. done.
    + rewrite same_key_sym, (Hkeys i x Hi) in Hsk. done.
    + by apply (Hk i j x x').
  - intros emp ws cp Hemp. unfold count_active in *. simpl. rewrite count_active_insert by done.
    case_decide as Ha; [|simpl; by apply (Hc emp ws)]. destruct Ha as (Hv & HE & _). simpl in *. subst emp.
    unfold visible in Hv. simpl in Hv. apply N.eqb_eq in Hv. subst ws. simplify_eq. lia.
Qed.

Lemma inv_step s s' : inv s -> step s s' -> inv s'.
Proof.
  intros Hinv Hstep. destruct Hstep.
  - match goal with H : AdmissionAdmit _ _ _ _ = _ |- _ => apply AdmissionAdmit_Ok in H as
      [(_ & -> & _)|(cap & e & rt & ctx & -> & -> & _ & _ & Hcap & Hlt & Hok & _ & Hkeys & ->)] end; [done|].
    by eapply inv_insert.
  - by eapply inv_claim.
  - by eapply inv_reclaim.
  - by eapply inv_heartbeat.
  - by eapply inv_persist.
  - by eapply inv_complete.
  - by eapply inv_fail.
  - by eapply inv_reschedule.
  - by eapply inv_dispatch.
  - by eapply inv_cancel.
Qed.

Lemma inv_initial emps tasks : employees_ok emps -> inv (initial emps tasks).
Proof.
  intros Hok. split; simpl; try done; try (intros; set_solver).
  intros emp ws cap Hemp. pose proof (Hok emp _ Hemp) as Hc. simpl in Hc.
  unfold count_active. simpl. rewrite map_filter_empty, map_size_empty. lia.
Qed.

Lemma inv_steps s s' : inv s -> steps s s' -> inv s'.
Proof. intros Hinv Hs. induction Hs as [|x y z Hxy _ IH]; [done|]. apply IH. by eapply inv_step. Qed.

Lemma reachable_inv s : reachable s -> inv s.
Proof. intros (emps & tasks & Hok & Hs). eapply inv_steps; [by apply inv_initial|done]. Qed.
