(* ===== verification/ExecProps.v ===== *)
(** * What the execution board guarantees

    Properties of the reachable states of [ExecInv]: lease exclusivity, bounded
    retries, absorbing terminal states, capacity, and that no settlement of a
    current lease is ever refused by a database constraint. *)

From S2P Require Import Prelude Execution ExecStore ExecInv.

(** ** The lifecycle as an abstract machine

    The view of one execution a caller can rely on: its stage, the attempts it
    has started and the lease generation. *)

Record Life : Type := mkLife { l_status : Status; l_attempt : Z; l_gen : Z }.

Definition life_of (e : Execution) : Life := mkLife (x_Status e) (x_Attempt e) (x_LeaseGeneration e).

Inductive life_step (max : Z) : Life -> Life -> Prop :=
| life_claim a g : (a < max)%Z ->
    life_step max (mkLife StatusPending a g) (mkLife StatusRunning (a + 1) (g + 1))
| life_reclaim a g : life_step max (mkLife StatusRunning a g) (mkLife StatusRunning a (g + 1))
| life_complete a g : life_step max (mkLife StatusRunning a g) (mkLife StatusCompleted a g)
| life_fail a g : life_step max (mkLife StatusRunning a g) (mkLife StatusFailed a g)
| life_reschedule a g : (a < max)%Z ->
    life_step max (mkLife StatusRunning a g) (mkLife StatusPending a g)
| life_cancel s a g : s = StatusPending \/ s = StatusRunning ->
    life_step max (mkLife s a g) (mkLife StatusCancelled a g)
| life_stutter l : life_step max l l.

(** ** Refinement *)

Definition row_simulates (s s' : sys) : Prop := forall id e,
  db_execs (s_db s) !! id = Some e ->
  exists e', db_execs (s_db s') !! id = Some e' /\ same_identity e e' /\
    life_step (x_MaxAttempts e) (life_of e) (life_of e').

Lemma same_identity_refl e : same_identity e e.
Proof. done. Qed.

Lemma row_simulates_put (db db' : DB) T T' id e0 e1 :
  db_execs db !! id = Some e0 -> x_ID e0 = id -> same_identity e0 e1 ->
  life_step (x_MaxAttempts e0) (life_of e0) (life_of e1) ->
  db_execs db' = <[x_ID e0 := e1]> (db_execs db) ->
  row_simulates (mkSys db T) (mkSys db' T').
Proof.
  intros He HI Hsame Hlife Hdb i e Hi. simpl in *. rewrite Hdb, HI.
  destruct (decide (id = i)) as [->|Hne].
  - rewrite lookup_insert_eq. simplify_eq. by exists e1.
  - rewrite lookup_insert_ne by done. exists e. by split_and!; [| |constructor].
Qed.

Lemma row_simulates_same (db db' : DB) T T' :
  db_execs db' = db_execs db -> row_simulates (mkSys db T) (mkSys db' T').
Proof. intros Hdb id e He. simpl in *. rewrite Hdb. exists e. by split_and!; [| |constructor]. Qed.

Lemma fenced_update_simulates f upd db db1 db' T T' :
  inv (mkSys db T) -> fenced_update f upd db = Ok db1 -> db_execs db' = db_execs db1 ->
  (forall e, same_identity e (upd e)) ->
  (forall e, db_execs db !! f_ExecutionID f = Some e -> x_Status e = StatusRunning ->
     x_LeaseGeneration e = f_LeaseGeneration f ->
     life_step (x_MaxAttempts e) (life_of e) (life_of (upd e))) ->
  row_simulates (mkSys db T) (mkSys db' T').
Proof.
  intros Hinv Hf Hdb Hsame Hlife.
  apply fenced_update_Ok in Hf as (e & He & _ & HS & _ & HG & _ & ->).
  destruct (i_exec _ Hinv _ _ He) as (HI & _). simpl in HI.
  eapply row_simulates_put; eauto. rewrite Hdb. simpl. by rewrite (proj1 (Hsame e)).
Qed.

Lemma life_of_running e : x_Status e = StatusRunning ->
  life_of e = mkLife StatusRunning (x_Attempt e) (x_LeaseGeneration e).
Proof. unfold life_of. by intros ->. Qed.

(** The tables a settlement leaves: those of its fenced update, retries aside. *)
Lemma Complete_execs f r now db db' :
  Complete f r now db = Ok db' ->
  exists db1, fenced_update f (complete_row r now) db = Ok db1 /\ db_execs db' = db_execs db1.
Proof. intros (db1 & Hf & [_ ->]%update_retries_Ok)%res_bind_Ok. by exists db1. Qed.

Lemma FailAndDLQ_execs f c d sn now db db' :
  FailAndDLQ f c d sn now db = Ok db' ->
  exists db1, fenced_update f (fail_row c d now) db = Ok db1 /\ db_execs db' = db_execs db1.
Proof.
  intros (db1 & Hf & (db2 & [_ ->]%update_retries_Ok & [_ [= <-]]%guard_Ok)%res_bind_Ok)%res_bind_Ok.
  by exists db1.
Qed.

Lemma Reschedule_execs f nxt seq now db db' :
  Reschedule f nxt seq now db = Ok db' ->
  exists db1, fenced_update f (resched_row nxt now) db = Ok db1 /\ db_execs db' = db_execs db1.
Proof.
  intros (db1 & Hf & (db2 & [_ ->]%update_retries_Ok & (db3 & Hi & [= <-])%res_bind_Ok)%res_bind_Ok)%res_bind_Ok.
  apply insert_retry_Ok in Hi as (_ & _ & ->). by exists db1.
Qed.

Lemma RecordDispatch_execs ws rid w gen ok now db db' :
  RecordDispatch ws rid w gen ok now db = Ok db' -> db_execs db' = db_execs db.
Proof.
  unfold RecordDispatch. intros (db1 & Hu & Hk)%res_bind_Ok.
  assert (db_execs db1 = db_execs db) as <-.
  { destruct ok; [|by simplify_eq]. by apply update_retries_Ok in Hu as [_ ->]. }
  repeat case_match; by simplify_eq.
Qed.

Lemma Cancel_Ok ws id now db db' :
  Cancel ws id now db = Ok db' ->
  exists e, db_execs db !! id = Some e /\ x_WorkspaceID e = ws /\
    ((active (x_Status e) = false /\ db' = db) \/
     (active (x_Status e) = true /\ db_execs db' = <[x_ID e := cancel_row now e]> (db_execs db))).
Proof.
  unfold Cancel. destruct (find_exec ws id db) as [e|] eqn:Hf; [|done].
  apply find_exec_Some in Hf as [He HW]. intros Hk. exists e. split_and!; try done.
  destruct (active (x_Status e)); [right|left; by simplify_eq].
  apply res_bind_Ok in Hk as (db1 & [_ ->]%put_exec_Ok & [_ ->]%update_retries_Ok). done.
Qed.

Lemma step_simulates (s s' : sys) : inv s -> step s s' -> row_simulates s s'.
Proof.
  intros Hr Hstep. destruct Hstep as
    [req hash now db db' T r Hmax Ha|ws id w ttl now db db' T f Hc|ws id w ttl now db db' T f Hc
    |f ttl now db db' T Hin Hh|f c rt d now db db' T Hin Hcode Hh|f r now db db' T Hin Hh
    |f c d sn now db db' T Hin Hh|f nxt now db db' T Hin Hlt Hh|ws rid w g ok now db db' T Hh|ws id now db db' T Hh].
  - apply AdmissionAdmit_Ok in Ha as [(_ & -> & _)|(cap & e & rt & ctx & -> & -> & _ & _ & _ & _ & _ & Hn & _ & ->)];
      [by apply row_simulates_same|].
    intros i x Hx. simpl in *. rewrite lookup_insert_ne by congruence. exists x. by split_and!; [| |constructor].
  - apply Claim_Ok in Hc as (e & rid & r & He & HW & HS & Hlt & _ & _ & _ & _ & _ & ->).
    destruct (i_exec _ Hr _ _ He) as (HI & _). simpl in HI.
    apply (row_simulates_put db _ T _ id e (claim_row w now ttl e)); try done.
    unfold life_of. rewrite HS. by apply life_claim.
  - apply ReclaimStale_Ok in Hc as (e & rid & He & HW & HS & _ & _ & _ & ->).
    destruct (i_exec _ Hr _ _ He) as (HI & _). simpl in HI.
    apply (row_simulates_put db _ T _ id e (reclaim_row w now ttl e)); try done.
    unfold life_of. simpl. rewrite HS. constructor.
  - eapply fenced_update_simulates; try done. intros e He HS _. apply life_stutter.
  - eapply fenced_update_simulates; try done. intros e He HS _. apply life_stutter.
  - apply Complete_execs in Hh as (db1 & Hf & Hdb). eapply fenced_update_simulates; try done.
    intros e He HS _. rewrite (life_of_running _ HS). constructor.
  - apply FailAndDLQ_execs in Hh as (db1 & Hf & Hdb). eapply fenced_update_simulates; try done.
    intros e He HS _. rewrite (life_of_running _ HS). constructor.
  - apply Reschedule_execs in Hh as (db1 & Hf & Hdb). eapply fenced_update_simulates; try done.
    intros e He HS HG. rewrite (life_of_running _ HS).
    destruct (token_current (mkSys db T) f e Hr Hin He HG) as [HA HM]. constructor. lia.
  - apply row_simulates_same. by eapply RecordDispatch_execs.
  - apply Cancel_Ok in Hh as (e & He & HW & [[_ ->]|[Ha Hdb]]); [by apply row_simulates_same|].
    destruct (i_exec _ Hr _ _ He) as (HI & _). simpl in HI.
    apply (row_simulates_put db _ T _ id e (cancel_row now e)); try done.
    unfold life_of. constructor. destruct (x_Status e); naive_solver.
Qed.

(** C1. Refinement: whatever transactions workers, dispatchers, recovery and
    API callers interleave, each committed step moves every execution along
    the lifecycle machine or leaves it alone.  In particular only a claim
    starts an attempt, and nothing moves an execution out of a final stage. *)
Theorem step_refines_lifecycle (s s' : sys) :
  reachable s -> step s s' -> row_simulates s s'.
Proof. intros Hr%reachable_inv. by apply step_simulates. Qed.

(** A concrete board: one employee with two slots in workspace 7, one execution
    admitted and claimed. *)
Definition demo_emps : gmap uuid (uuid * Z) := {[ 5%N := (7%N, 2%Z) ]}.
Definition demo_req : AdmitRequest := mkAdmit 7 5 None 3 "k1" None.
Definition run_db {A} (d : DB) (r : res err (A * DB)) : DB := match r with Ok (_, db) => db | Err _ => d end.
Definition run_tok (r : res err (FencedExecution * DB)) : list FencedExecution :=
  match r with Ok (f, _) => [f] | Err _ => [] end.
Definition demo0 : DB := s_db (initial demo_emps ∅).
Definition demo1 : DB := run_db demo0 (AdmissionAdmit demo_req "h" 100 demo0).
Definition demo_claim := Claim 7 1 "w1" (30 * Second) 200 demo1.
Definition demo2 : DB := run_db demo1 demo_claim.
Definition demo_f : FencedExecution :=
  Eval vm_compute in List.hd (mkFenced 0 0 "" 0 0 0 0 0 0 None None None) (run_tok demo_claim).
(** The row of execution 1 on a demonstration board. *)
Definition demo_row (db : DB) : Execution := default (admitted_row demo_req "" 0 0) (db_execs db !! 1%N).
Definition demo_e2 : Execution := Eval vm_compute in demo_row demo2.
Definition demo_sys2 : sys := mkSys demo2 [token_of demo_f].

Lemma demo_reachable1 : reachable (mkSys demo1 []).
Proof.
  exists demo_emps, ∅. split; [by apply map_Forall_singleton|].
  eapply rtc_l; [|apply rtc_refl]. eapply (step_admit demo_req "h" 100); [done|vm_compute; reflexivity].
Defined.

Lemma demo_reachable2 : reachable demo_sys2.
Proof.
  destruct demo_reachable1 as (emps & tasks & Hok & Hs). exists emps, tasks. split; [done|].
  eapply rtc_r; [exact Hs|]. eapply (step_claim 7 1 "w1" (30 * Second) 200). vm_compute. reflexivity.
Defined.

Lemma step_refines_lifecycle_witness :
  exists s s', step s s' /\ row_simulates s s'.
Proof.
  exists (mkSys demo1 []), demo_sys2.
  assert (step (mkSys demo1 []) demo_sys2) as Hs.
  { eapply (step_claim 7 1 "w1" (30 * Second) 200). vm_compute. reflexivity. }
  split; [exact Hs|]. exact (step_refines_lifecycle _ _ demo_reachable1 Hs).
Defined.

Lemma reachable_step s s' : reachable s -> step s s' -> reachable s'.
Proof. intros (emps & tasks & Hok & Hs) Hst. exists emps, tasks. split; [done|]. by eapply rtc_r. Qed.

Lemma life_step_terminal max l l' :
  life_step max l l' -> Terminal (l_status l) = true -> l_status l' = l_status l /\ l_attempt l' = l_attempt l.
Proof. destruct 1; simpl; try done. intros Ht. destruct H as [-> | ->]; done. Qed.

(** Final stages are absorbing: once an execution is completed, failed or
    cancelled, no sequence of transactions changes its stage or its attempt
    count again. *)
Theorem terminal_absorbing (s s' : sys) id e :
  reachable s -> steps s s' -> db_execs (s_db s) !! id = Some e -> Terminal (x_Status e) = true ->
  exists e', db_execs (s_db s') !! id = Some e' /\
    x_Status e' = x_Status e /\ x_Attempt e' = x_Attempt e.
Proof.
  intros Hr Hs. revert e Hr. induction Hs as [s|s1 s2 s3 Hst _ IH]; intros e Hr He Ht; [by exists e|].
  destruct (step_simulates _ _ (reachable_inv _ Hr) Hst id e He) as (e2 & He2 & _ & Hl).
  destruct (life_step_terminal _ _ _ Hl Ht) as [HS HA]. simpl in HS, HA.
  destruct (IH e2) as (e3 & He3 & HS3 & HA3); [by eapply reachable_step|done|by rewrite HS|].
  exists e3. split_and!; congruence.
Qed.

(** C2. Exclusive leases: of all the fenced identities ever handed out, at most
    one can write to an execution at any reachable moment. *)
Theorem lease_exclusive (s : sys) f1 f2 e :
  reachable s -> token_of f1 ∈ s_tokens s -> token_of f2 ∈ s_tokens s ->
  f_ExecutionID f1 = f_ExecutionID f2 ->
  holds_lease f1 e = true -> holds_lease f2 e = true -> token_of f1 = token_of f2.
Proof.
  intros Hr%reachable_inv H1 H2 HE (_ & _ & _ & HG1)%holds_lease_spec (_ & _ & _ & HG2)%holds_lease_spec.
  apply (i_token_uniq _ Hr); try done. simpl. congruence.
Qed.

Lemma fenced_update_stale f upd db :
  (forall e, db_execs db !! f_ExecutionID f = Some e -> holds_lease f e = false) ->
  fenced_update f upd db = Err ErrStaleLease.
Proof.
  intros Hno. unfold fenced_update. destruct (find_exec _ _ db) as [e|] eqn:Hf; [|done].
  apply find_exec_Some in Hf as [He _]. by rewrite (Hno e He).
Qed.

(** Every mutation a worker can attempt with [f] is refused as a stale lease. *)
Definition fenced_out (f : FencedExecution) (db : DB) : Prop := forall now,
  (forall ttl, Heartbeat f ttl now db = Err ErrStaleLease) /\
  (forall code rt detail, PersistError f code rt detail now db = Err ErrStaleLease) /\
  (forall result, Complete f result now db = Err ErrStaleLease) /\
  (forall code detail snap, FailAndDLQ f code detail snap now db = Err ErrStaleLease) /\
  (forall next seq, Reschedule f next seq now db = Err ErrStaleLease).

Lemma stale_fenced_out f db :
  (forall e, db_execs db !! f_ExecutionID f = Some e -> holds_lease f e = false) -> fenced_out f db.
Proof.
  intros Hno now. unfold Heartbeat, PersistError, Complete, FailAndDLQ, Reschedule.
  split_and!; intros; by rewrite fenced_update_stale.
Qed.

Lemma life_step_gen max l l' : life_step max l l' -> (l_gen l <= l_gen l')%Z.
Proof. destruct 1; simpl; lia. Qed.

Lemma gen_grows s s' id e :
  inv s -> steps s s' -> db_execs (s_db s) !! id = Some e -> forall g, (g < x_LeaseGeneration e)%Z ->
  exists e', db_execs (s_db s') !! id = Some e' /\ (g < x_LeaseGeneration e')%Z.
Proof.
  intros Hinv Hs. revert e Hinv. induction Hs as [s|s1 s2 s3 Hst _ IH]; intros e Hinv He g Hg; [by exists e|].
  destruct (step_simulates _ _ Hinv Hst id e He) as (e2 & He2 & _ & Hl).
  apply life_step_gen in Hl. simpl in Hl.
  apply (IH e2); [by eapply inv_step|done|lia].
Qed.

(** C3. Takeover fences the predecessor: after recovery reclaims an expired
    lease, every identity handed out before for that execution is refused on
    every mutation, and keeps being refused whatever happens next. *)
Theorem takeover_fences_predecessor db T ws id w ttl now f' db' s'' f :
  reachable (mkSys db T) -> ReclaimStale ws id w ttl now db = Ok (f', db') ->
  token_of f ∈ T -> f_ExecutionID f = id ->
  steps (mkSys db' (token_of f' :: T)) s'' -> fenced_out f (s_db s'').
Proof.
  intros Hr Hrec Hin Hid Hs. apply stale_fenced_out.
  pose proof (reachable_inv _ Hr) as Hinv.
  destruct (i_token _ Hinv _ Hin) as (e0 & He0 & _ & _ & Hg & _). simpl in He0, Hg. rewrite Hid in He0.
  assert (reachable (mkSys db' (token_of f' :: T))) as Hr' by (eapply reachable_step; [done|by econstructor]).
  apply ReclaimStale_Ok in Hrec as (e & rid & He & _ & _ & _ & _ & _ & ->). simplify_eq.
  destruct (i_exec _ Hinv _ _ He) as (HI & _). simpl in HI. simpl in Hr', Hs. rewrite HI in *.
  assert (exists x, db_execs (s_db s'') !! f_ExecutionID f = Some x /\ (f_LeaseGeneration f < x_LeaseGeneration x)%Z)
    as (x & Hx & Hlt).
  { eapply (gen_grows _ _ _ _ (reachable_inv _ Hr') Hs).
    - simpl. by rewrite lookup_insert_eq.
    - simpl. lia. }
  intros x' Hx'. assert (x' = x) as -> by congruence. destruct (holds_lease f x) eqn:Hh; [|done].
  apply holds_lease_spec in Hh as (_ & _ & _ & ?). lia.
Qed.

(** C33. Bounded retries: an execution never accumulates more retry rows than
    its attempt budget, however often workers fail and crash. *)
Theorem retry_budget (s : sys) id e :
  reachable s -> db_execs (s_db s) !! id = Some e ->
  (Z.of_nat (size (filter (fun kv : uuid * Retry => r_ExecutionID kv.2 = id) (db_retries (s_db s))))
     <= x_MaxAttempts e)%Z.
Proof.
  intros Hr%reachable_inv He.
  set (l := map_to_list (filter (fun kv : uuid * Retry => r_ExecutionID kv.2 = id) (db_retries (s_db s)))).
  assert (forall j r, (j, r) ∈ l -> db_retries (s_db s) !! j = Some r /\ r_ExecutionID r = id) as Hl.
  { intros j r Hin. unfold l in Hin. apply elem_of_map_to_list, map_lookup_filter_Some in Hin. done. }
  rewrite <-length_map_to_list. fold l.
  set (seqs := map (fun kv => Z.to_nat (r_RetrySeq kv.2)) l).
  assert (forall j r, (j, r) ∈ l -> (0 < r_RetrySeq r <= x_MaxAttempts e)%Z) as Hseq.
  { intros j r Hin. destruct (Hl j r Hin) as [Hj Hid].
    destruct (inv_owned _ _ _ _ _ Hr He Hj Hid) as [(_ & _ & Hok & _ & Hle & _) _].
    apply retry_row_ok_spec in Hok. lia. }
  assert (NoDup seqs) as Hnd.
  { apply NoDup_fmap_2_strong; [|apply NoDup_map_to_list].
    intros [j r] [j' r'] Hin Hin' Heq. simpl in Heq.
    pose proof (Hseq _ _ Hin). pose proof (Hseq _ _ Hin').
    destruct (Hl _ _ Hin) as [Hj HE]. destruct (Hl _ _ Hin') as [Hj' HE'].
    assert (j = j') as -> by (eapply (i_seq _ Hr); [done|done|congruence|lia]). by simplify_eq. }
  assert (length seqs <= Z.to_nat (x_MaxAttempts e)) as Hlen.
  { rewrite <-(length_seq (Z.to_nat (x_MaxAttempts e)) 1). apply submseteq_length, NoDup_submseteq; [done|].
    intros n Hn. unfold seqs in Hn. apply list_elem_of_fmap in Hn as ([j r] & -> & Hin).
    apply elem_of_seq. simpl. specialize (Hseq _ _ Hin). lia. }
  unfold seqs in Hlen. rewrite length_map in Hlen.
  destruct (i_exec _ Hr _ _ He) as (_ & _ & Hrow%exec_row_ok_spec & _). lia.
Qed.

(** ** No settlement is refused by the database *)

Lemma inv_retries_ok s p f :
  inv s -> keeps f -> (forall r, p r = true -> outstanding (r_State r) = true) ->
  (forall r, p r = true -> retry_row_ok r = true -> retry_row_ok (f r) = true) ->
  retries_ok (upd_retries p f (db_retries (s_db s))) = true.
Proof.
  intros Hinv Hk Ho Hok. unfold retries_ok. rewrite andb_true_iff, !bool_decide_eq_true. split.
  - intros j r' (r & Hj & ->)%upd_lookup. destruct (i_retry _ Hinv _ _ Hj) as (_ & _ & Hrow & _).
    destruct (p r) eqn:E; auto.
  - intros j r1 Hj j' r1' Hj' (Hc & Hc' & HE & HW).
    eapply (proj1 (upd_distinct (r_ExecutionID r1) p f (db_retries (s_db s)) Hk Ho
      (inv_distinct _ _ Hinv) j j' r1 r1' Hj Hj' eq_refl (eq_sym HE))); done.
Qed.

Lemma resolve_row_ok o now r :
  ValidRetryOutcome o = true -> retry_row_ok r = true -> retry_row_ok (resolve_retry o now r) = true.
Proof. intros Ho. rewrite !retry_row_ok_spec. simpl. naive_solver. Qed.

Lemma settle_ok s f o now :
  inv s -> ValidRetryOutcome o = true ->
  retries_ok (upd_retries (flying_retry f) (resolve_retry o now) (db_retries (s_db s))) = true.
Proof.
  intros Hinv Ho. apply inv_retries_ok; [done|apply keeps_resolve| |].
  - intros r (_ & _ & ?)%flying_spec. by apply in_flight_outstanding.
  - intros r _. by apply resolve_row_ok.
Qed.

(** A fenced update either succeeds or is a stale lease, when the new row is
    one the CHECK constraints accept. *)
Lemma fenced_update_total s f upd :
  inv s -> (forall e, x_ID (upd e) = x_ID e) ->
  (forall e, db_execs (s_db s) !! f_ExecutionID f = Some e -> x_Status e = StatusRunning ->
     exec_row_ok e = true -> exec_row_ok (upd e) = true) ->
  fenced_update f upd (s_db s) = Err ErrStaleLease \/
  exists e, db_execs (s_db s) !! f_ExecutionID f = Some e /\ holds_lease f e = true /\
    fenced_update f upd (s_db s) = Ok (with_execs (<[f_ExecutionID f := upd e]> (db_execs (s_db s))) (s_db s)).
Proof.
  intros Hinv HI Hok. unfold fenced_update.
  destruct (find_exec _ _ (s_db s)) as [e|] eqn:Hf; [|by left]. apply find_exec_Some in Hf as [He _].
  destruct (holds_lease f e) eqn:Hh; [|by left]. right. exists e. split_and!; try done.
  destruct (i_exec _ Hinv _ _ He) as (HIe & _ & Hrow & _).
  apply put_exec_Ok. apply holds_lease_spec in Hh as (_ & HS & _).
  split; [by apply Hok|]. by rewrite HI, HIe.
Qed.

Definition settled {A} (r : res err A) : Prop := r = Err ErrStaleLease \/ is_ok r = true.

Lemma row_ok_release (e e' : Execution) :
  exec_row_ok e = true -> ValidStatus (x_Status e') = true -> x_Status e' <> StatusRunning ->
  x_MaxAttempts e' = x_MaxAttempts e -> x_Attempt e' = x_Attempt e ->
  x_LeaseOwner e' = None -> x_LeaseExpiresAt e' = None -> exec_row_ok e' = true.
Proof. rewrite !exec_row_ok_spec. intros (_ & ? & ? & _) ? ? -> -> ? ?. split_and!; naive_solver lia. Qed.

Lemma complete_total s f result now : inv s -> settled (Complete f result now (s_db s)).
Proof.
  intros Hinv. unfold Complete.
  destruct (fenced_update_total s f (complete_row result now)) as [->|(e & He & _ & ->)]; try done; [|by left|].
  - intros e _ _ Hrow. by eapply row_ok_release.
  - right. simpl. unfold update_retries. simpl. by rewrite settle_ok.
Qed.

Lemma fail_total s f code detail snap now :
  inv s -> (0 <= code)%Z -> settled (FailAndDLQ f code detail snap now (s_db s)).
Proof.
  intros Hinv Hc. unfold FailAndDLQ.
  destruct (fenced_update_total s f (fail_row code detail now)) as [->|(e & He & _ & ->)]; try done; [|by left|].
  - intros e _ _ Hrow. by eapply row_ok_release.
  - right. simpl. unfold update_retries. simpl. rewrite settle_ok by done. simpl.
    by rewrite (proj2 (Z.leb_le 0 code)).
Qed.

Lemma reschedule_total s f next now :
  inv s -> token_of f ∈ s_tokens s -> (f_Attempt f < f_MaxAttempts f)%Z ->
  settled (Reschedule f next (f_Attempt f + 1) now (s_db s)).
Proof.
  intros Hinv Hin Hlt. unfold Reschedule.
  destruct (fenced_update_total s f (resched_row next now)) as [->|(e & He & Hh & ->)]; try done; [|by left|].
  { intros e _ _ Hrow. by eapply row_ok_release. }
  right. simpl. unfold update_retries. simpl. rewrite settle_ok by done. simpl.
  apply holds_lease_spec in Hh as (HW & HS & _ & HG).
  destruct (token_current _ _ _ Hinv Hin He HG) as [HA HM].
  destruct (i_exec _ Hinv _ _ He) as (HI & _ & Hrow & _). apply exec_row_ok_spec in Hrow.
  destruct (settle_rows s f e RetryFailed now _ Hinv He HS HW eq_refl eq_refl) as (Ho & Hd & Hm).
  set (m' := upd_retries (flying_retry f) (resolve_retry RetryFailed now) (db_retries (s_db s))) in *.
  assert (forall j r, m' !! j = Some r -> j <> db_next (s_db s)) as Hfresh.
  { intros j r' (r & Hj & _)%upd_lookup. by apply (inv_fresh_rows s (db_next (s_db s)) j r Hinv ltac:(lia)). }
  unfold insert_retry. simpl. rewrite lookup_insert_eq. simpl. rewrite HW, N.eqb_refl.
  rewrite (proj2 (retry_row_ok_spec _)) by (simpl; split_and!; done || lia). simpl.
  rewrite bool_decide_eq_true_2; [|destruct (m' !! _) eqn:E; [by destruct (Hfresh _ _ E)|done]].
  rewrite bool_decide_eq_true_2; [done|].
  pose proof (settle_ok s f RetryFailed now Hinv eq_refl) as [_ Hone]%andb_true_iff. fold m' in Hone.
  apply bool_decide_eq_true in Hone.
  intros j r Hj j' r' Hj' (Hc & Hc' & HE & HWr).
  apply lookup_insert_Some in Hj as [[<- <-]|[Hne Hj]]; apply lookup_insert_Some in Hj' as [[<- <-]|[Hne' Hj']]; try done.
  - simpl in HE. destruct (Hm _ _ Hj' (eq_sym HE)) as (_ & _ & _ & _ & _ & Hout). by rewrite Hout in Hc'.
  - simpl in HE. destruct (Hm _ _ Hj HE) as (_ & _ & _ & _ & _ & Hout). by rewrite Hout in Hc.
  - by apply (Hone j r Hj j' r' Hj').
Qed.

(** Settlement is total: in every reachable state the holder of a fenced
    identity can complete, dead-letter or (while attempts remain) reschedule
    its execution, and the only refusal it can meet is a lost lease.  No CHECK
    constraint, unique index or foreign key of the schema ever fires. *)
Theorem settlement_total (s : sys) f result code detail snap next now :
  reachable s -> token_of f ∈ s_tokens s -> (0 <= code)%Z ->
  settled (Complete f result now (s_db s)) /\
  settled (FailAndDLQ f code detail snap now (s_db s)) /\
  ((f_Attempt f < f_MaxAttempts f)%Z ->
     settled (Reschedule f next (f_Attempt f + 1) now (s_db s))).
Proof.
  intros Hr%reachable_inv Hin Hc.
  split_and!; [by apply complete_total|by apply fail_total|]. intros. by apply reschedule_total.
Qed.

(** Claims are total: a pending execution that is due is claimed whenever
    it is asked for, because its first or next retry row is always there. *)
Theorem claim_total (s : sys) id e w ttl now :
  reachable s -> db_execs (s_db s) !! id = Some e -> x_Status e = StatusPending -> due now e = true ->
  exists f db', Claim (x_WorkspaceID e) id w ttl now (s_db s) = Ok (f, db') /\
    f_Attempt f = (x_Attempt e + 1)%Z /\ f_LeaseGeneration f = (x_LeaseGeneration e + 1)%Z /\
    exists r, db_retries db' !! f_RetryID f = Some r /\ r_State r = RetryClaimed /\
      r_WorkerID r = Some w /\ r_Generation r = f_LeaseGeneration f /\ r_RetrySeq r = f_Attempt f.
Proof.
  intros Hr%reachable_inv He HS Hdue.
  destruct (i_exec _ Hr _ _ He) as (HI & _ & Hrow & Hl & _).
  unfold lifecycle in Hl. rewrite HS in Hl. destruct Hl as (Hlt & j & r & Hj & [HE HW] & Hst & Hsq).
  unfold Claim. rewrite (proj2 (find_exec_Some _ _ _ _) (conj He eq_refl)).
  unfold claimable. rewrite HS, Hdue, (proj2 (Z.ltb_lt _ _) Hlt). simpl.
  unfold put_exec. apply exec_row_ok_spec in Hrow.
  rewrite (proj2 (exec_row_ok_spec _)) by (simpl; split_and!; done || lia). simpl.
  unfold update_retries. simpl. rewrite inv_retries_ok; [|done|apply keeps_claim| |]; simpl.
  2: { by intros r0 (_ & _ & ->)%claimable_retry_spec. }
  2: { intros r0 (_ & _ & Hp)%claimable_retry_spec. rewrite !retry_row_ok_spec. simpl. naive_solver. }
  destruct (filter _ (map_to_list (db_retries (s_db s)))) as [|[rid r'] l] eqn:Hf.
  - assert ((j, r) ∈ filter (fun kv : uuid * Retry => claimable_retry id (x_WorkspaceID e) kv.2 = true)
      (map_to_list (db_retries (s_db s)))) as Hin.
    { apply list_elem_of_filter. split; [|by apply elem_of_map_to_list].
      simpl. apply claimable_retry_spec. split_and!; congruence. }
    rewrite Hf in Hin. by apply elem_of_nil in Hin.
  - assert ((rid, r') ∈ filter (fun kv : uuid * Retry => claimable_retry id (x_WorkspaceID e) kv.2 = true)
      (map_to_list (db_retries (s_db s)))) as Hin by (rewrite Hf; left).
    apply list_elem_of_filter in Hin as [Hp Hin]. apply elem_of_map_to_list in Hin. simpl in Hp.
    pose proof Hp as (HE' & HW' & Hst')%claimable_retry_spec.
    pose proof (unique_outstanding s j rid r r' Hr Hj Hin ltac:(congruence) ltac:(by rewrite Hst) ltac:(by rewrite Hst')) as ->.
    simplify_eq. eexists _, _. split_and!; try done. exists (claim_retry w (x_LeaseGeneration e + 1) now r).
    simpl. rewrite upd_lookup. split_and!; try done. exists r. by rewrite Hp.
Qed.

(** ** Recorded error codes *)

Definition codes_ok (s : sys) : Prop := forall id e c,
  db_execs (s_db s) !! id = Some e -> x_LastErrorCode e = Some c -> (0 <= c)%Z.

Lemma codes_put (db db' : DB) T T' id e0 e1 :
  codes_ok (mkSys db T) -> db_execs db !! id = Some e0 -> x_ID e0 = id ->
  (x_LastErrorCode e1 = x_LastErrorCode e0 \/ forall c, x_LastErrorCode e1 = Some c -> (0 <= c)%Z) ->
  db_execs db' = <[x_ID e0 := e1]> (db_execs db) -> codes_ok (mkSys db' T').
Proof.
  intros Hok He HI Hc Hdb i e c Hi. simpl in Hi. rewrite Hdb, HI in Hi.
  apply lookup_insert_Some in Hi as [[_ <-]|[_ Hi]]; [|by apply (Hok i e)].
  destruct Hc as [->|Hc]; [by apply (Hok id e0)|apply Hc].
Qed.

Lemma codes_fenced f upd (db db1 db' : DB) T T' :
  inv (mkSys db T) -> codes_ok (mkSys db T) -> fenced_update f upd db = Ok db1 ->
  db_execs db' = db_execs db1 -> (forall e, x_ID (upd e) = x_ID e) ->
  (forall e, x_LastErrorCode (upd e) = x_LastErrorCode e \/
     forall c, x_LastErrorCode (upd e) = Some c -> (0 <= c)%Z) ->
  codes_ok (mkSys db' T').
Proof.
  intros Hinv Hok Hf Hdb HI Hc. apply fenced_update_Ok in Hf as (e & He & _ & _ & _ & _ & _ & ->).
  destruct (i_exec _ Hinv _ _ He) as (HIe & _). simpl in HIe.
  eapply (codes_put db _ T _ (f_ExecutionID f) e (upd e)); try done. rewrite Hdb. simpl. by rewrite HI.
Qed.

Lemma FailAndDLQ_code f c d sn now db db' : FailAndDLQ f c d sn now db = Ok db' -> (0 <= c)%Z.
Proof.
  intros (db1 & _ & (db2 & _ & [Hc _]%guard_Ok)%res_bind_Ok)%res_bind_Ok. by apply Z.leb_le.
Qed.

Lemma codes_step s s' : inv s -> codes_ok s -> step s s' -> codes_ok s'.
Proof.
  intros Hr Hok Hstep. destruct Hstep as
    [req hash now db db' T r Hmax Ha|ws id w ttl now db db' T f Hc|ws id w ttl now db db' T f Hc
    |f ttl now db db' T Hin Hh|f c rt d now db db' T Hin Hcode Hh|f r now db db' T Hin Hh
    |f c d sn now db db' T Hin Hh|f nxt now db db' T Hin Hlt Hh|ws rid w g ok now db db' T Hh|ws id now db db' T Hh].
  - apply AdmissionAdmit_Ok in Ha as [(_ & -> & _)|(cap & e & rt & ctx & -> & -> & _ & _ & _ & _ & _ & _ & _ & ->)];
      [done|].
    intros i x c Hx Hc. simpl in Hx. apply lookup_insert_Some in Hx as [[_ <-]|[_ Hx]]; [done|by apply (Hok i x)].
  - apply Claim_Ok in Hc as (e & rid & r & He & _ & _ & _ & _ & _ & _ & _ & _ & ->).
    destruct (i_exec _ Hr _ _ He) as (HI & _). simpl in HI.
    eapply (codes_put db _ T _ id e (claim_row w now ttl e)); try done. by left.
  - apply ReclaimStale_Ok in Hc as (e & rid & He & _ & _ & _ & _ & _ & ->).
    destruct (i_exec _ Hr _ _ He) as (HI & _). simpl in HI.
    eapply (codes_put db _ T _ id e (reclaim_row w now ttl e)); try done. by left.
  - eapply codes_fenced; try done. intros e. by left.
  - eapply codes_fenced; try done. intros e. right. simpl. congruence.
  - apply Complete_execs in Hh as (db1 & Hf & Hdb). eapply codes_fenced; try done. intros e. by left.
  - pose proof (FailAndDLQ_code _ _ _ _ _ _ _ Hh) as Hcode.
    apply FailAndDLQ_execs in Hh as (db1 & Hf & Hdb). eapply codes_fenced; try done.
    intros e. right. simpl. congruence.
  - apply Reschedule_execs in Hh as (db1 & Hf & Hdb). eapply codes_fenced; try done. intros e. by left.
  - apply RecordDispatch_execs in Hh. intros i x c. simpl. rewrite Hh. apply (Hok i x).
  - apply Cancel_Ok in Hh as (e & He & _ & [[_ ->]|[_ Hdb]]); [done|].
    destruct (i_exec _ Hr _ _ He) as (HI & _). simpl in HI.
    eapply (codes_put db _ T _ id e (cancel_row now e)); try done. right. done.
Qed.

Lemma reachable_codes s : reachable s -> codes_ok s.
Proof.
  intros (emps & tasks & Hok & Hs). pose proof (inv_initial emps tasks Hok) as Hi.
  assert (codes_ok (initial emps tasks)) as Hc by (intros i e c He; done).
  induction Hs as [|s1 s2 s3 Hst _ IH]; [done|]. apply IH; [by eapply inv_step|by eapply codes_step].
Qed.

(** ** Capacity, the dead-letter queue and the admission snapshot *)

(** Capacity: an employee never has more pending and running executions
    than its [max_concurrent_tasks]. *)
Theorem capacity_respected (s : sys) emp ws cap :
  reachable s -> db_employees (s_db s) !! emp = Some (ws, cap) ->
  (count_active ws emp (s_db s) <= cap)%Z.
Proof. intros Hr%reachable_inv. apply (i_cap _ Hr). Qed.

(** C34. Dead letters: an execution has exactly one row on the dead-letter queue
    when it failed, and none otherwise. *)
Theorem dlq_exactly_once (s : sys) id e :
  reachable s -> db_execs (s_db s) !! id = Some e ->
  dlq_count id (db_dlq (s_db s)) = (if bool_decide (x_Status e = StatusFailed) then 1 else 0).
Proof. intros Hr%reachable_inv He. by destruct (i_exec _ Hr _ _ He) as (_ & _ & _ & _ & ? & _). Qed.

(** A snapshot the admission writes is refused by the [workspace_id NOT NULL]
    column its INSERT leaves out. *)
Lemma admission_snapshot_refused req m hash now db r db' :
  a_Context req = Some m -> AdmissionAdmit req hash now db = Ok (r, db') -> ar_Created r = false.
Proof.
  intros Hm. unfold AdmissionAdmit. rewrite Hm.
  destruct (if String.eqb _ _ then _ else _); [by intros [= <- <-]|].
  destruct (find_capacity _ _ _); [|done].
  intros [_ Hk]%guard_Ok. destruct (insert_exec _ db); [|by case_match].
  apply res_bind_Ok in Hk as (db2 & _ & Hk). by apply res_bind_Ok in Hk as (db3 & Hc & _).
Qed.

Lemma insert_context_contexts id m db db' : insert_context (admission_context id m) db = Ok db' -> False.
Proof. done. Qed.

Lemma put_exec_contexts e db db' : put_exec e db = Ok db' -> db_contexts db' = db_contexts db.
Proof. by intros [_ ->]%put_exec_Ok. Qed.

Lemma update_retries_contexts p f db db' : update_retries p f db = Ok db' -> db_contexts db' = db_contexts db.
Proof. by intros [_ ->]%update_retries_Ok. Qed.

Lemma fenced_update_contexts f upd db db' : fenced_update f upd db = Ok db' -> db_contexts db' = db_contexts db.
Proof. by intros (e & _ & _ & _ & _ & _ & _ & ->)%fenced_update_Ok. Qed.

Lemma insert_retry_contexts r db db' : insert_retry r db = Ok db' -> db_contexts db' = db_contexts db.
Proof. by intros (_ & _ & ->)%insert_retry_Ok. Qed.

Lemma insert_exec_contexts e db db' : insert_exec e db = Ok db' -> db_contexts db' = db_contexts db.
Proof. intros H%insert_exec_Ok. naive_solver. Qed.

Lemma AdmissionAdmit_contexts req hash now db r db' :
  AdmissionAdmit req hash now db = Ok (r, db') -> db_contexts db' = db_contexts db.
Proof.
  unfold AdmissionAdmit. destruct (if String.eqb _ _ then _ else _); [by intros [= _ <-]|].
  destruct (find_capacity _ _ _); [|done].
  intros [_ Hk]%guard_Ok. destruct (insert_exec _ db) as [db1|] eqn:H1; [|by case_match].
  apply res_bind_Ok in Hk as (db2 & H2 & (db3 & H3 & [= _ <-])%res_bind_Ok).
  apply insert_exec_contexts in H1. apply insert_retry_contexts in H2. simpl.
  destruct (a_Context req); simplify_eq; congruence.
Qed.

Ltac contexts_of H :=
  repeat first
    [ apply res_bind_Ok in H; destruct H as (? & ?%fenced_update_contexts & H)
    | apply res_bind_Ok in H; destruct H as (? & ?%put_exec_contexts & H)
    | apply res_bind_Ok in H; destruct H as (? & ?%update_retries_contexts & H)
    | apply res_bind_Ok in H; destruct H as (? & ?%insert_retry_contexts & H)
    | apply fenced_update_contexts in H | apply update_retries_contexts in H
    | apply guard_Ok in H; destruct H as [_ H] ];
  simplify_eq; simpl in *; congruence.

Lemma step_contexts s s' : step s s' -> db_contexts (s_db s') = db_contexts (s_db s).
Proof.
  intros Hstep. destruct Hstep as
    [req hash now db db' T r Hmax Ha|ws id w ttl now db db' T f Hc|ws id w ttl now db db' T f Hc
    |f ttl now db db' T Hin Hh|f c rt d now db db' T Hin Hcode Hh|f r now db db' T Hin Hh
    |f c d sn now db db' T Hin Hh|f nxt now db db' T Hin Hlt Hh|ws rid w g ok now db db' T Hh|ws id now db db' T Hh];
    simpl.
  - by eapply AdmissionAdmit_contexts.
  - apply Claim_Ok in Hc. naive_solver.
  - apply ReclaimStale_Ok in Hc. naive_solver.
  - unfold Heartbeat in Hh. contexts_of Hh.
  - unfold PersistError in Hh. contexts_of Hh.
  - unfold Complete in Hh. contexts_of Hh.
  - unfold FailAndDLQ in Hh. contexts_of Hh.
  - unfold Reschedule in Hh. contexts_of Hh.
  - unfold RecordDispatch in Hh. apply res_bind_Ok in Hh as (db1 & Hu & Hk).
    assert (db_contexts db1 = db_contexts db) as <-.
    { destruct ok; [by eapply update_retries_contexts|by simplify_eq]. }
    repeat case_match; by simplify_eq.
  - unfold Cancel in Hh. destruct (find_exec _ _ _) as [e|]; [|done].
    destruct (active _); [contexts_of Hh|by simplify_eq].
Qed.

Lemma reachable_no_context s : reachable s -> db_contexts (s_db s) = [].
Proof.
  intros (emps & tasks & _ & Hs). remember (initial emps tasks) as s0 eqn:E0.
  assert (db_contexts (s_db s0) = []) as H0 by (by subst).
  clear E0. induction Hs as [|s1 s2 s3 Hst _ IH]; [done|]. apply IH. by rewrite (step_contexts _ _ Hst).
Qed.

Lemma reachable_materialize s ws id : reachable s -> Materialize ws id (s_db s) = Err ErrNotFound.
Proof. intros Hr%reachable_no_context. unfold Materialize. by rewrite Hr. Qed.

(** The admission snapshot never lands: an admission that carries a
    context never creates an execution, no context row exists in any reachable
    state, and materializing any execution reports it not found. *)
Theorem admission_context_lost (s : sys) :
  reachable s ->
  (forall req m hash now r db', a_Context req = Some m ->
     AdmissionAdmit req hash now (s_db s) = Ok (r, db') -> ar_Created r = false) /\
  db_contexts (s_db s) = [] /\
  (forall ws id, Materialize ws id (s_db s) = Err ErrNotFound).
Proof.
  intros Hr. split; [intros; by eapply admission_snapshot_refused|].
  split; [by apply reachable_no_context|]. intros. by apply reachable_materialize.
Qed.

(** ** The properties at work on the demonstration board *)

(** Complete the claimed execution, then try to cancel it. *)
Definition demo3 : DB :=
  match Complete demo_f "{}" 300 demo2 with Ok db => db | Err _ => demo2 end.

Definition demo_e3 : Execution := Eval vm_compute in demo_row demo3.

Lemma demo_reachable3 : reachable (mkSys demo3 [token_of demo_f]).
Proof.
  apply (reachable_step demo_sys2); [exact demo_reachable2|].
  apply (step_complete demo_f "{}" 300); [left|vm_compute; reflexivity].
Defined.

Lemma terminal_absorbing_witness :
  exists e', db_execs demo3 !! 1%N = Some e' /\ x_Status e' = StatusCompleted /\ x_Attempt e' = 1%Z.
Proof.
  apply (terminal_absorbing (mkSys demo3 [token_of demo_f]) (mkSys demo3 [token_of demo_f]) 1%N demo_e3
    demo_reachable3).
  - eapply rtc_l; [|apply rtc_refl]. apply (step_cancel 7 1 400). vm_compute. reflexivity.
  - vm_compute. reflexivity.
  - vm_compute. reflexivity.
Defined.

Lemma lease_exclusive_witness : token_of demo_f = token_of demo_f.
Proof.
  refine (lease_exclusive demo_sys2 demo_f demo_f
    demo_e2 demo_reachable2 _ _ _ _ _);
    first [reflexivity | left | vm_compute; reflexivity].
Defined.

(** Its lease expires and another process takes it over. *)
Definition demo_takeover := ReclaimStale 7 1 "w2" (30 * Second) (200 * Second) demo2.
Definition demo_f2 : FencedExecution := Eval vm_compute in List.hd demo_f (run_tok demo_takeover).
Definition demo2b : DB := run_db demo2 demo_takeover.

Lemma takeover_fences_predecessor_witness :
  holds_lease demo_f demo_e2 = true /\
  fenced_out demo_f demo2b.
Proof.
  split; [vm_compute; reflexivity|].
  refine (takeover_fences_predecessor demo2 [token_of demo_f] 7 1 "w2" (30 * Second) (200 * Second)
    demo_f2 demo2b (mkSys demo2b (token_of demo_f2 :: [token_of demo_f])) demo_f demo_reachable2 _ _ _ _).
  - vm_compute. reflexivity.
  - left.
  - vm_compute. reflexivity.
  - apply rtc_refl.
Defined.

Lemma retry_budget_witness : is_Some (db_execs demo2 !! 1%N) /\
  (Z.of_nat (size (filter (fun kv : uuid * Retry => r_ExecutionID kv.2 = 1%N) (db_retries demo2))) <= 3)%Z.
Proof.
  split; [exists demo_e2; vm_compute; reflexivity|].
  refine (retry_budget demo_sys2 1%N demo_e2
    demo_reachable2 _).
  vm_compute. reflexivity.
Defined.

Lemma settlement_total_witness :
  settled (Complete demo_f "{}" 300 demo2) /\
  settled (FailAndDLQ demo_f CodeUnknown "boom" "{}" 300 demo2) /\
  settled (Reschedule demo_f 400 2 300 demo2).
Proof.
  destruct (settlement_total demo_sys2 demo_f "{}" CodeUnknown "boom" "{}" 400 300 demo_reachable2)
    as (HC & HF & HR); [left|done|].
  split; [exact HC|]. split; [exact HF|]. apply HR. vm_compute. reflexivity.
Defined.

Lemma claim_total_witness : exists f db', Claim 7 1 "w1" Second 200 demo1 = Ok (f, db') /\ f_Attempt f = 1%Z.
Proof.
  destruct (claim_total (mkSys demo1 []) 1%N (demo_row demo1)
    "w1" Second 200 demo_reachable1) as (f & db' & HC & HA & _); try (vm_compute; reflexivity).
  exists f, db'. split; [exact HC|]. rewrite HA. reflexivity.
Defined.

Lemma capacity_respected_witness : (count_active 7 5 demo2 <= 2)%Z.
Proof. apply (capacity_respected demo_sys2 5 7 2 demo_reachable2). reflexivity. Defined.

Lemma dlq_exactly_once_witness : dlq_count 1%N (db_dlq demo2) = 0.
Proof.
  refine (dlq_exactly_once demo_sys2 1%N demo_e2
    demo_reachable2 _).
  vm_compute. reflexivity.
Defined.

Lemma admission_context_lost_witness : Materialize 7 1 demo2 = Err ErrNotFound.
Proof. apply (admission_context_lost demo_sys2 demo_reachable2). Defined.
