(* ===== verification/Backoff.v ===== *)
(** * Retry pacing

    [RetryDelay] and [AttemptWindow] of internal/execution/retrypolicy.go,
    [backoffFor] of internal/publish/generic_http.go and the redial delay of
    infrastructure/rabbitmq/reconnect.go, on 64-bit durations that wrap. *)

From S2P Require Import Prelude.

(** ** internal/execution/retrypolicy.go *)

Fixpoint delay_loop (n : nat) (d cap : duration) : duration :=
  match n with
  | O => if (cap <=? d)%Z then cap else d
  | S n' =>
      let d' := wrap64 (d * 2) in
      if (cap <=? d')%Z then cap else delay_loop n' d' cap
  end.

Definition RetryDelay (attempt : Z) (base cap : duration) : duration :=
  let attempt := if (attempt <? 1)%Z then 1%Z else attempt in
  delay_loop (Z.to_nat (attempt - 1)) base cap.

Definition AttemptWindow (full : duration) (attempt maxAttempts : Z) : duration :=
  let maxAttempts := if (maxAttempts <? 1)%Z then 1%Z else maxAttempts in
  let attempt := if (attempt <? 1)%Z then 1%Z else attempt in
  let attempt := if (maxAttempts <? attempt)%Z then maxAttempts else attempt in
  if (maxAttempts =? 1)%Z then full
  else
    let window := go_div (wrap64 (full * wrap64 (maxAttempts - attempt + 1))) maxAttempts in
    if (window <? Second)%Z then Second else window.

(** ** internal/publish/generic_http.go: [backoffFor] *)

Fixpoint backoff_loop (shift : nat) (d max : duration) : duration :=
  match shift with
  | O => d
  | S shift' => if (d <? max)%Z then backoff_loop shift' (wrap64 (d * 2)) max else d
  end.

Definition backoffFor (base max : duration) (attempt : Z) : duration :=
  let shift := wrap64 (attempt - 2) in
  let shift := if (shift <? 0)%Z then 0%Z else shift in
  let d := backoff_loop (Z.to_nat shift) base max in
  if (max <? d)%Z then max else d.

(** ** infrastructure/rabbitmq/reconnect.go: the pause after a failed redial *)

Definition redialBase : duration := 500000000%Z.
Definition redialMax : duration := (5 * Second)%Z.

Definition next_redial (delay : duration) : duration :=
  let d := wrap64 (delay * 2) in if (redialMax <? d)%Z then redialMax else d.

(** ** Doubling without overflow *)

Lemma wrap64_double d cap : (0 <= d < cap)%Z -> (cap <= 2 ^ 62)%Z -> wrap64 (d * 2) = (d * 2)%Z.
Proof. intros. apply wrap64_id. unfold in_int64. lia. Qed.

Lemma delay_loop_closed n d cap :
  (0 <= d)%Z -> (0 <= cap <= 2 ^ 62)%Z -> (n <> 0%nat -> (d < 2 ^ 62)%Z) ->
  delay_loop n d cap = Z.min cap (d * 2 ^ Z.of_nat n).
Proof.
  revert d. induction n as [|n IH]; intros d Hd Hc Hb; simpl.
  - destruct (Z.leb_spec cap d); lia.
  - assert (wrap64 (d * 2) = (d * 2)%Z) as -> by (apply wrap64_id; unfold in_int64; lia).
    rewrite Nat2Z.inj_succ, Z.pow_succ_r by lia.
    assert (1 <= 2 ^ Z.of_nat n)%Z by (apply (Z.pow_le_mono_r 2 0); lia).
    destruct (Z.leb_spec cap (d * 2)).
    + nia.
    + rewrite IH by lia. f_equal. ring.
Qed.

(** The retry pause is [base * 2^(attempt-1)] capped at [cap], for every
    attempt, without overflow, as long as the base stays below [2^62] ns and
    the cap at or below it; in particular it is within [0, cap] and never
    shrinks from one attempt to the next. *)
Theorem RetryDelay_closed_form attempt base cap :
  (1 <= attempt)%Z -> (0 <= base < 2 ^ 62)%Z -> (0 <= cap <= 2 ^ 62)%Z ->
  RetryDelay attempt base cap = Z.min cap (base * 2 ^ (attempt - 1)) /\
  (0 <= RetryDelay attempt base cap <= cap)%Z /\
  (RetryDelay attempt base cap <= RetryDelay (attempt + 1) base cap)%Z.
Proof.
  intros Ha Hb Hc.
  assert (forall a, (1 <= a)%Z -> RetryDelay a base cap = Z.min cap (base * 2 ^ (a - 1))) as Hcl.
  { intros a H1. unfold RetryDelay. destruct (Z.ltb_spec a 1); [lia|].
    rewrite delay_loop_closed by lia. by rewrite Z2Nat.id by lia. }
  rewrite !Hcl by lia. replace (attempt + 1 - 1)%Z with (Z.succ (attempt - 1)) by lia.
  rewrite Z.pow_succ_r by lia. pose proof (Z.pow_pos_nonneg 2 (attempt - 1)). split_and!; nia.
Qed.

Lemma RetryDelay_closed_form_witness :
  RetryDelay 4 Second (30 * Second) = (8 * Second)%Z /\ RetryDelay 40 Second (30 * Second) = (30 * Second)%Z.
Proof.
  split.
  - rewrite (proj1 (RetryDelay_closed_form 4 Second (30 * Second) ltac:(lia) ltac:(done) ltac:(done))). reflexivity.
  - rewrite (proj1 (RetryDelay_closed_form 40 Second (30 * Second) ltac:(lia) ltac:(done) ltac:(done))). reflexivity.
Defined.

(** Beyond the bound the doubling wraps and the pause collapses. *)
Example RetryDelay_overflows : RetryDelay 3 (2 ^ 62) (2 ^ 63 - 1) = 0%Z.
Proof. reflexivity. Qed.

Lemma go_div_mono a b n : (0 <= a <= b)%Z -> (0 < n)%Z -> (go_div a n <= go_div b n)%Z.
Proof. intros. unfold go_div. apply Z.quot_le_mono; lia. Qed.

(** The window of attempt [a], once its arguments are in range. *)
Lemma AttemptWindow_in_range full a n :
  (1 < n)%Z -> (1 <= a <= n)%Z -> (0 <= full)%Z -> (full * n < 2 ^ 63)%Z -> (n < 2 ^ 62)%Z ->
  AttemptWindow full a n = Z.max Second (full * (n - a + 1) / n).
Proof.
  intros Hn Ha Hf Hb Hn'. unfold AttemptWindow.
  destruct (Z.ltb_spec n 1); [lia|]. destruct (Z.ltb_spec a 1); [lia|].
  destruct (Z.ltb_spec n a); [lia|]. destruct (Z.eqb_spec n 1); [lia|].
  rewrite (wrap64_id (n - a + 1)) by (unfold in_int64; lia).
  rewrite wrap64_id by (unfold in_int64; nia).
  unfold go_div. rewrite Z.quot_div_nonneg by nia.
  destruct (Z.ltb_spec (full * (n - a + 1) / n) Second); lia.
Qed.

(** Attempt windows: the first attempt runs under the full lease budget,
    later attempts under at most the previous one's, and none under less than a
    second (or the full budget, when that is shorter and only one attempt is
    allowed). *)
Theorem AttemptWindow_shrinks full a n :
  (1 < n < 2 ^ 62)%Z -> (1 <= a < n)%Z -> (Second <= full)%Z -> (full * n < 2 ^ 63)%Z ->
  AttemptWindow full 1 n = full /\
  (Second <= AttemptWindow full (a + 1) n <= AttemptWindow full a n)%Z /\
  (AttemptWindow full a n <= full)%Z.
Proof.
  intros Hn Ha Hf Hb. assert (0 < Second)%Z by done.
  rewrite !AttemptWindow_in_range by lia.
  replace (n - 1 + 1)%Z with n by lia. rewrite Z.div_mul by lia.
  assert (full * (n - (a + 1) + 1) / n <= full * (n - a + 1) / n)%Z by (apply Z.div_le_mono; nia).
  assert (full * (n - a + 1) / n <= full)%Z by (apply Z.div_le_upper_bound; nia).
  split_and!; lia.
Qed.

Lemma AttemptWindow_shrinks_witness :
  AttemptWindow (30 * Second) 1 3 = (30 * Second)%Z /\ AttemptWindow (30 * Second) 3 3 = (10 * Second)%Z.
Proof.
  split; [|reflexivity].
  apply (AttemptWindow_shrinks (30 * Second) 1 3); first [lia | vm_compute; done | vm_compute; split; done].
Defined.

(** A budget under a second is stretched to a second once retries are allowed. *)
Example AttemptWindow_stretches : AttemptWindow 1000 1 2 = Second.
Proof. reflexivity. Qed.

Lemma backoff_loop_closed n d max :
  (0 < d <= max)%Z -> (max <= 2 ^ 62)%Z ->
  Z.min max (backoff_loop n d max) = Z.min max (d * 2 ^ Z.of_nat n) /\ (0 < backoff_loop n d max)%Z.
Proof.
  intros Hd Hm. assert (0 < d)%Z as Hpos by lia. clear Hd. revert d Hpos.
  induction n as [|n IH]; intros d Hpos; simpl; [split; lia|].
  rewrite Nat2Z.inj_succ, Z.pow_succ_r by lia.
  assert (1 <= 2 ^ Z.of_nat n)%Z by (apply (Z.pow_le_mono_r 2 0); lia).
  destruct (Z.ltb_spec d max).
  - rewrite (wrap64_double d max) by lia. destruct (IH (d * 2)%Z) as [-> ?]; [lia|].
    split; [f_equal; ring|done].
  - split; [nia|done].
Qed.

(** Delivery backoff: before attempt [k >= 2] the publisher sleeps
    [base * 2^(k-2)] capped at [backoffMax]; the constructor's settings keep
    the base positive and at most the cap, so no attempt follows without a
    pause or after more than the cap. *)
Theorem backoffFor_closed_form base max k :
  (0 < base <= max)%Z -> (max <= 2 ^ 62)%Z -> (2 <= k < 2 ^ 63)%Z ->
  backoffFor base max k = Z.min max (base * 2 ^ (k - 2)) /\ (0 < backoffFor base max k <= max)%Z.
Proof.
  intros Hb Hm Hk. unfold backoffFor. rewrite wrap64_id by (unfold in_int64; lia).
  destruct (Z.ltb_spec (k - 2) 0); [lia|].
  destruct (backoff_loop_closed (Z.to_nat (k - 2)) base max) as [Hc Hp]; [done..|].
  rewrite Z2Nat.id in Hc by lia.
  destruct (Z.ltb_spec max (backoff_loop (Z.to_nat (k - 2)) base max)); lia.
Qed.

Lemma backoffFor_closed_form_witness : backoffFor 500 3000 4 = 2000%Z /\ backoffFor 500 3000 60 = 3000%Z.
Proof.
  split.
  - rewrite (proj1 (backoffFor_closed_form 500 3000 4 ltac:(lia) ltac:(done) ltac:(done))). reflexivity.
  - rewrite (proj1 (backoffFor_closed_form 500 3000 60 ltac:(lia) ltac:(done) ltac:(done))). reflexivity.
Defined.

(** The redial pause stays between half a second and five seconds for ever. *)
Lemma redial_step d : (redialBase <= d <= redialMax)%Z -> (redialBase <= next_redial d <= redialMax)%Z.
Proof.
  assert (redialBase = 500000000 /\ redialMax = 5000000000)%Z as [E1 E2] by done. intros Hd.
  unfold next_redial. rewrite wrap64_id by (unfold in_int64; lia). destruct (Z.ltb_spec redialMax (d * 2)); lia.
Qed.

Lemma redial_bounds n : (redialBase <= Nat.iter n next_redial redialBase <= redialMax)%Z.
Proof. induction n as [|n IH]; [done|]. by apply redial_step. Qed.
