(* ===== verification/Ports.v ===== *)
(** * The ports of the execution runtime

    [ExecutionStore], [Materializer] and [Publisher] (internal/execution/store.go,
    materializer.go, publisher.go) and the clock the runtime reads, as type
    classes; the contract a store promises to the dispatcher and the worker
    ([BoardStore]).  PgStore implements them. *)

From S2P Require Import Prelude Execution ExecStore ExecInv ExecProps.

(** ** Ports *)

Class ExecutionStore (S : Type) : Type := {
  st_AdmissionAdmit : AdmitRequest -> string -> act S err AdmitResult;
  st_Get : uuid -> uuid -> act S err Execution;
  st_Cancel : uuid -> uuid -> act S err unit;
  st_GetDue : uuid -> nat -> act S err (list uuid);
  st_GetStale : uuid -> nat -> act S err (list uuid);
  st_Claim : uuid -> uuid -> string -> duration -> act S err FencedExecution;
  st_ReclaimStale : uuid -> uuid -> string -> duration -> act S err FencedExecution;
  st_Heartbeat : FencedExecution -> duration -> act S err unit;
  st_PersistError : FencedExecution -> ErrorCode -> bool -> string -> act S err unit;
  st_Complete : FencedExecution -> string -> act S err unit;
  st_FailAndDLQ : FencedExecution -> ErrorCode -> string -> string -> act S err unit;
  st_Reschedule : FencedExecution -> time -> Z -> act S err unit;
  st_RecordDispatch : uuid -> uuid -> string -> Z -> bool -> act S err unit
}.

Class Materializer (S : Type) : Type := { mat_Materialize : uuid -> uuid -> act S err MaterializedRequest }.
Class Publisher (S : Type) : Type := { pub_Publish : PublishMessage -> act S err unit }.
Class Clock (S : Type) : Type := { clock_Now : act S err time }.

(** ** Specifications of actions over a board

    [board s] is the execution board behind a runtime state and [sent s] the
    messages handed to the broker. *)

Class Board (S : Type) : Type := { board : S -> sys; sent : S -> list PublishMessage }.

(** The token a dispatch message stands for. *)
Definition msg_token (pm : PublishMessage) : Token :=
  mkToken (pm_ExecutionID pm) (pm_WorkspaceID pm) (pm_LeaseOwner pm) (pm_Generation pm)
    (pm_Attempt pm) (pm_MaxAttempts pm).

Definition msg_fenced (s : sys) (pm : PublishMessage) : Prop :=
  pm_LeaseOwner pm <> ""%string /\ msg_token pm ∈ s_tokens s.

Section spec.
Context {S : Type} `{Board S}.

Definition sent_ok (s : S) : Prop := forall pm, pm ∈ sent s -> msg_fenced (board s) pm.

(** Committed transactions only, and no unfenced message. *)
Definition moves (s s' : S) : Prop :=
  steps (board s) (board s') /\ (sent_ok s -> sent_ok s').

Definition triple {A} (P : S -> Prop) (m : act S err A) (Q : A -> S -> Prop) : Prop :=
  forall s, P s -> moves s (m s).2 /\ forall a, (m s).1 = Ok a -> Q a (m s).2.

Definition holds (f : FencedExecution) (s : S) : Prop := token_of f ∈ s_tokens (board s).

Definition stable (P : S -> Prop) : Prop := forall s s', moves s s' -> P s -> P s'.

#[export] Instance moves_preorder : PreOrder moves.
Proof.
  split.
  - intros s. split; [apply rtc_refl|done].
  - intros s1 s2 s3 [H1 K1] [H2 K2]. split; [by etrans|auto].
Qed.
End spec.

Lemma step_tokens s s' t : step s s' -> t ∈ s_tokens s -> t ∈ s_tokens s'.
Proof. destruct 1; simpl; try done; by right. Qed.

Lemma steps_tokens s s' t : steps s s' -> t ∈ s_tokens s -> t ∈ s_tokens s'.
Proof. induction 1 as [|s1 s2 s3 Hst _ IH]; [done|]. intros. by apply IH, (step_tokens s1). Qed.

Lemma msg_fenced_steps s s' pm : steps s s' -> msg_fenced s pm -> msg_fenced s' pm.
Proof. intros Hs [? ?]. split; [done|by eapply steps_tokens]. Qed.

Section rules.
Context {S : Type} `{Board S}.
Implicit Types (s : S).

Lemma holds_stable f : stable (holds f).
Proof. intros s s' [Hs _]. by apply steps_tokens. Qed.
Lemma fenced_stable pm : stable (fun s => msg_fenced (board s) pm).
Proof. intros s s' [Hs _]. by apply msg_fenced_steps. Qed.
Lemma true_stable : stable (fun _ => True).
Proof. done. Qed.

Lemma triple_weaken {A} (P P' : S -> Prop) (m : act S err A) (Q Q' : A -> S -> Prop) :
  (forall s, P s -> P' s) -> (forall a s, Q' a s -> Q a s) -> triple P' m Q' -> triple P m Q.
Proof. intros HP HQ Hm s Hs. destruct (Hm s (HP s Hs)) as [Hmv Ha]. naive_solver. Qed.

Lemma triple_any {A} (P : S -> Prop) (m : act S err A) :
  triple (fun _ => True) m (fun _ _ => True) -> triple P m (fun _ _ => True).
Proof. intros Hm. by eapply triple_weaken; [| |exact Hm]. Qed.
Lemma triple_done {A} (a : A) (P : S -> Prop) : triple P (act_ret a) (fun _ _ => True).
Proof. intros s _. by split; [reflexivity|]. Qed.
Lemma triple_ret {A} (a : A) (P : S -> Prop) : triple P (act_ret a) (fun x s => x = a /\ P s).
Proof. intros s Hs. split; [reflexivity|]. simpl. naive_solver. Qed.
Lemma triple_fail {A} e (P : S -> Prop) (Q : A -> S -> Prop) : triple P (act_fail e) Q.
Proof. intros s Hs. split; [reflexivity|done]. Qed.

(** Sequencing: what the second part still needs of the precondition is stable. *)
Lemma triple_bind {A B} (P F : S -> Prop) (m : act S err A) (Q : A -> S -> Prop) (f : A -> act S err B) R :
  stable F -> (forall s, P s -> F s) ->
  triple P m Q -> (forall a, triple (fun s => Q a s /\ F s) (f a) R) -> triple P (act_bind m f) R.
Proof.
  intros HF HPF Hm Hf s Hs. destruct (Hm s Hs) as [Hmv Hq]. unfold act_bind.
  destruct (m s) as [[a|e] s'] eqn:E; simpl in *; [|done].
  destruct (Hf a s') as [Hmv' HR]; [split; [by apply Hq|by eapply HF, HPF]|].
  split; [by etrans|done].
Qed.

Lemma triple_try {A} (P : S -> Prop) (m : act S err A) Q :
  triple P m Q -> triple P (act_try m) (fun r s => forall a, r = Ok a -> Q a s).
Proof.
  intros Hm s Hs. destruct (Hm s Hs) as [Hmv Hq]. unfold act_try.
  destruct (m s) as [r s'] eqn:E; simpl in *. split; [done|]. intros r' [= <-]. done.
Qed.

Lemma triple_if {A} (b : bool) (P : S -> Prop) (m1 m2 : act S err A) Q :
  triple P m1 Q -> triple P m2 Q -> triple P (if b then m1 else m2) Q.
Proof. by destruct b. Qed.

Lemma triple_moves {A} (P : S -> Prop) (m : act S err A) Q s : triple P m Q -> P s -> moves s (m s).2.
Proof. intros Hm Hs. by apply (Hm s Hs). Qed.
End rules.

(** ** The contract

    Whatever a store call does, fails in or lets others do meanwhile amounts to
    committed transactions of the board; the identities it hands out are in
    circulation. *)

Class BoardStore (S : Type)
  `{Board S, ExecutionStore S, Materializer S, Publisher S, Clock S} : Prop := {
  bs_admit req h : (0 < a_MaxAttempts req)%Z ->
    triple (fun _ => True) (st_AdmissionAdmit req h) (fun _ _ => True);
  bs_get ws id : triple (fun _ => True) (st_Get ws id) (fun _ _ => True);
  bs_cancel ws id : triple (fun _ => True) (st_Cancel ws id) (fun _ _ => True);
  bs_due ws n : triple (fun _ => True) (st_GetDue ws n) (fun _ _ => True);
  bs_stale ws n : triple (fun _ => True) (st_GetStale ws n) (fun _ _ => True);
  bs_claim ws id w ttl : triple (fun _ => True) (st_Claim ws id w ttl)
    (fun f s => holds f s /\ f_LeaseOwner f = w);
  bs_reclaim ws id w ttl : triple (fun _ => True) (st_ReclaimStale ws id w ttl)
    (fun f s => holds f s /\ f_LeaseOwner f = w);
  bs_heartbeat f ttl : triple (holds f) (st_Heartbeat f ttl) (fun _ _ => True);
  bs_persist f c rt d : (0 <= c)%Z -> triple (holds f) (st_PersistError f c rt d) (fun _ _ => True);
  bs_complete f r : triple (holds f) (st_Complete f r) (fun _ _ => True);
  bs_fail f c d sn : triple (holds f) (st_FailAndDLQ f c d sn) (fun _ _ => True);
  bs_reschedule f next : (f_Attempt f < f_MaxAttempts f)%Z ->
    triple (holds f) (st_Reschedule f next (f_Attempt f + 1)) (fun _ _ => True);
  bs_dispatch ws rid w g ok : triple (fun _ => True) (st_RecordDispatch ws rid w g ok) (fun _ _ => True);
  bs_materialize ws id : triple (fun _ => True) (mat_Materialize ws id) (fun _ _ => True);
  bs_publish pm : triple (fun s => msg_fenced (board s) pm) (pub_Publish pm) (fun _ _ => True);
  bs_now : triple (fun _ => True) clock_Now (fun _ _ => True)
}.
