(* ===== verification/PgStore.v ===== *)
(** * infrastructure/postgres/executions.go as an implementation of the ports

    Each store method is one serialisable transaction.  Before it runs other
    processes may have committed anything; beginning it or committing it may
    fail, and a commit that fails may have been applied. *)

From S2P Require Import Prelude Execution ExecStore ExecInv ExecProps Ports.

Inductive Delivery : Type := Delivered | Unconfirmed (msg : string) | Undelivered (msg : string).

(** What the environment does around one call of the runtime. *)
Record Tick : Type := mkTick {
  tk_now : time;                 (* NOW() of the transaction, or time.Now() *)
  tk_others : sys -> sys;        (* what other processes commit before it *)
  tk_fault : Fault;
  tk_delivery : Delivery
}.

Record World : Type := mkWorld { w_sys : sys; w_at : nat; w_sent : list PublishMessage }.

#[export] Instance World_board : Board World := {| board := w_sys; sent := w_sent |}.

Section world.
Variable env : nat -> Tick.

(** One transaction: [tok] is the fenced identity its result hands out. *)
Definition tx {A} (tok : A -> list Token) (op : time -> DB -> res err (A * DB)) : act World err A := fun w =>
  let t := env (w_at w) in
  let s := tk_others t (w_sys w) in
  let next s' := mkWorld s' (S (w_at w)) (w_sent w) in
  match tk_fault t with
  | FailBegin m => (Err (ErrStore m), next s)
  | fault =>
      match op (tk_now t) (s_db s) with
      | Err e => (Err e, next s)
      | Ok (a, db') =>
          let s' := mkSys db' (tok a ++ s_tokens s) in
          match fault with
          | FailCommit applied m => (Err (ErrStore m), next (if applied then s' else s))
          | _ => (Ok a, next s')
          end
      end
  end.

Definition write (op : time -> DB -> res err DB) : act World err unit :=
  tx (fun _ => []) (fun now db => try! db' := op now db in Ok (tt, db')).
Definition read {A} (op : time -> DB -> res err A) : act World err A :=
  tx (fun _ => []) (fun now db => try! a := op now db in Ok (a, db)).

#[export] Instance pg_store : ExecutionStore World := {|
  st_AdmissionAdmit req h := tx (fun _ => []) (AdmissionAdmit req h);
  st_Get ws id := read (fun _ => Get ws id);
  st_Cancel ws id := write (Cancel ws id);
  st_GetDue ws n := read (GetDue ws n);
  st_GetStale ws n := read (GetStale ws n);
  st_Claim ws id w ttl := tx (fun f => [token_of f]) (Claim ws id w ttl);
  st_ReclaimStale ws id w ttl := tx (fun f => [token_of f]) (ReclaimStale ws id w ttl);
  st_Heartbeat f ttl := write (Heartbeat f ttl);
  st_PersistError f c rt d := write (PersistError f c rt d);
  st_Complete f r := write (Complete f r);
  st_FailAndDLQ f c d sn := write (FailAndDLQ f c d sn);
  st_Reschedule f next seq := write (Reschedule f next seq);
  st_RecordDispatch ws rid w g ok := write (RecordDispatch ws rid w g ok)
|}.

#[export] Instance pg_materializer : Materializer World :=
  {| mat_Materialize ws id := read (fun _ => Materialize ws id) |}.

#[export] Instance env_clock : Clock World :=
  {| clock_Now := fun w => (Ok (tk_now (env (w_at w))), w) |}.

(** The broker keeps every message it was handed, confirmed or not. *)
#[export] Instance env_publisher : Publisher World := {|
  pub_Publish pm := fun w =>
    let t := env (w_at w) in
    let s := tk_others t (w_sys w) in
    match tk_delivery t with
    | Delivered => (Ok tt, mkWorld s (S (w_at w)) (pm :: w_sent w))
    | Unconfirmed m => (Err (ErrStore m), mkWorld s (S (w_at w)) (pm :: w_sent w))
    | Undelivered m => (Err (ErrStore m), mkWorld s (S (w_at w)) (w_sent w))
    end
|}.

(** Other processes only commit board transactions. *)
Definition fair : Prop := forall n s, steps s (tk_others (env n) s).
(** Nobody else is at work and nothing fails; clocks never run backwards. *)
Definition quiet : Prop := forall n, (forall s, tk_others (env n) s = s) /\ tk_fault (env n) = NoFault.
Definition monotone : Prop := forall n, (tk_now (env n) <= tk_now (env (S n)))%Z.

Lemma tx_triple {A} tok (op : time -> DB -> res err (A * DB)) (P : World -> Prop) (Q : A -> World -> Prop) :
  fair -> stable P ->
  (forall w now db T a db', w_sys w = mkSys db T -> P w -> op now db = Ok (a, db') ->
     steps (mkSys db T) (mkSys db' (tok a ++ T)) /\
     forall w', w_sys w' = mkSys db' (tok a ++ T) -> Q a w') ->
  triple P (tx tok op) Q.
Proof.
  intros Hfair HP Hop w Hw.
  set (t := env (w_at w)). set (s := tk_others t (w_sys w)).
  assert (steps (w_sys w) s) as Hs by apply Hfair.
  assert (forall s', steps s s' -> moves w (mkWorld s' (S (w_at w)) (w_sent w))) as Hmv.
  { intros s' Hs'. split; [simpl; by etrans|]. intros Hok pm Hpm.
    eapply msg_fenced_steps; [|by apply (Hok pm)]. simpl. by etrans. }
  assert (P (mkWorld s (w_at w) (w_sent w))) as HPs.
  { apply (HP w); [|done]. split; [done|]. intros Hok pm Hpm. eapply msg_fenced_steps; [done|by apply (Hok pm)]. }
  unfold tx. fold t. fold s. destruct s as [db T] eqn:Es.
  pose proof (Hop (mkWorld (mkSys db T) (w_at w) (w_sent w)) (tk_now t) db T) as Hop'. simpl in *.
  destruct (tk_fault t) as [|m|ap m]; [| |].
  - destruct (op (tk_now t) db) as [[a db']|e]; simpl; [|split; [by apply Hmv, rtc_refl|done]].
    destruct (Hop' a db') as [H1 H2]; [done..|]. split; [by apply Hmv|]. intros a' [= <-]. by apply H2.
  - simpl. split; [by apply Hmv, rtc_refl|done].
  - destruct (op (tk_now t) db) as [[a db']|e]; simpl; [|split; [by apply Hmv, rtc_refl|done]].
    destruct (Hop' a db') as [H1 H2]; [done..|]. split; [|done]. destruct ap; [by apply Hmv|by apply Hmv, rtc_refl].
Qed.

Lemma write_triple (op : time -> DB -> res err DB) (P : World -> Prop) :
  fair -> stable P ->
  (forall w now db T db', w_sys w = mkSys db T -> P w -> op now db = Ok db' -> step (mkSys db T) (mkSys db' T)) ->
  triple P (write op) (fun _ _ => True).
Proof.
  intros Hf HP Hop. apply tx_triple; try done. intros w now db T [] db' Hw HPw Hk.
  apply res_bind_Ok in Hk as (db1 & Hk & [= ->]). split; [|done]. by eapply rtc_once, Hop.
Qed.

Lemma fenced_triple f (op : time -> DB -> res err DB) :
  fair ->
  (forall now db T db', token_of f ∈ T -> op now db = Ok db' -> step (mkSys db T) (mkSys db' T)) ->
  triple (holds f) (write op) (fun _ _ => True).
Proof.
  intros Hf Hop. apply write_triple; [done|apply holds_stable|].
  intros w now db T db' Hw Hh. unfold holds in Hh. simpl in Hh. rewrite Hw in Hh. by apply Hop.
Qed.

Lemma read_triple {A} (op : time -> DB -> res err A) :
  fair -> triple (fun _ => True) (read op) (fun _ _ => True).
Proof.
  intros Hf. apply tx_triple; try done. intros w now db T a db' Hw HPw Hk.
  apply res_bind_Ok in Hk as (a1 & Hk & [= -> ->]). split; [apply rtc_refl|done].
Qed.

(** The PostgreSQL adapter keeps the contract, whatever fails in between. *)
#[export] Instance pg_board_store (Hfair : fair) : BoardStore World.
Proof.
  split; intros.
  - apply tx_triple; try done. intros w now db T a db' Hw _ Hop. split; [|done]. by eapply rtc_once, step_admit.
  - by apply read_triple.
  - apply write_triple; try done. intros. by eapply step_cancel.
  - by apply read_triple.
  - by apply read_triple.
  - apply tx_triple; try done. intros w' now db T f db' Hw _ Hop. split; [by eapply rtc_once, step_claim|].
    intros w2 Hw2. split; [unfold holds; simpl; rewrite Hw2; left|].
    apply Claim_Ok in Hop as (e & rid & r & _ & _ & _ & _ & _ & _ & _ & _ & -> & _). done.
  - apply tx_triple; try done. intros w' now db T f db' Hw _ Hop. split; [by eapply rtc_once, step_reclaim|].
    intros w2 Hw2. split; [unfold holds; simpl; rewrite Hw2; left|].
    apply ReclaimStale_Ok in Hop as (e & rid & _ & _ & _ & _ & _ & -> & _). done.
  - apply fenced_triple; [done|]. intros. by eapply step_heartbeat.
  - apply fenced_triple; [done|]. intros. by eapply step_persist.
  - apply fenced_triple; [done|]. intros. by eapply step_complete.
  - apply fenced_triple; [done|]. intros. by eapply step_fail.
  - apply fenced_triple; [done|]. intros. by eapply step_reschedule.
  - apply write_triple; try done. intros. by eapply step_dispatch.
  - by apply read_triple.
  - intros w Hw. unfold pub_Publish, env_publisher. simpl.
    assert (steps (w_sys w) (tk_others (env (w_at w)) (w_sys w))) as Hs by apply Hfair.
    assert (forall l n, (forall x, x ∈ l -> x = pm \/ x ∈ w_sent w) ->
      moves w (mkWorld (tk_others (env (w_at w)) (w_sys w)) n l)) as Hmv.
    { intros l n Hl. split; [done|]. intros Hok x Hx. apply (msg_fenced_steps (w_sys w)); [done|].
      destruct (Hl x Hx) as [->|Hx']; [done|by apply (Hok x)]. }
    destruct (tk_delivery _); simpl; (split; [apply Hmv; set_solver|done]).
  - intros w Hw. split; [reflexivity|done].
Qed.
End world.
