(* ===== verification/Dispatcher.v ===== *)
(** * internal/execution/dispatcher.go: recovery and dispatch

    One sweep of a workspace: reclaim the expired leases and decide each of
    them, then claim what is due and hand it to the broker. *)

From S2P Require Import Prelude Execution ExecStore ExecInv ExecProps Ports Backoff.

Record Dispatcher : Type := mkDispatcher {
  d_workerID : string;
  d_leaseTTL : duration;
  d_baseDelay : duration;
  d_maxDelay : duration;
  d_sweepLimit : nat
}.

Definition NewDispatcher (workerID : string) (leaseTTL baseDelay maxDelay : duration) : Dispatcher :=
  mkDispatcher workerID leaseTTL baseDelay maxDelay 100.

(** The identity the claim stored, carried to the worker. *)
Definition dispatch_message (d : Dispatcher) (f : FencedExecution) : PublishMessage := {|
  pm_WorkspaceID := f_WorkspaceID f;
  pm_ExecutionID := f_ExecutionID f;
  pm_AIEmployeeID := f_AIEmployeeID f;
  pm_TaskID := None;
  pm_Attempt := f_Attempt f;
  pm_MaxAttempts := f_MaxAttempts f;
  pm_RetryID := f_RetryID f;
  pm_Generation := f_LeaseGeneration f;
  pm_LeaseExpiresAt := f_LeaseExpiresAt f;
  pm_LeaseOwner := d_workerID d
|}.

(** What the fuelled recovery loop reports when its fuel runs out. *)
Definition still_sweeping : err := ErrStore "recoverStale: still sweeping".

Section ops.
Context {S : Type} `{Board S, ExecutionStore S, Publisher S, Clock S}.
Variable d : Dispatcher.

Definition resolveRecovered (f : FencedExecution) : act S err unit :=
  let code := default CodeWorkerLeaseExpired (f_LastErrorCode f) in
  let retryable := default true (f_Retryable f) in
  if negb retryable || (f_MaxAttempts f <=? f_Attempt f)%Z
  then st_FailAndDLQ f code "lease expired after non-retryable failure" ""
  else
    now <~ clock_Now ;;
    st_Reschedule f (now + RetryDelay (f_Attempt f) (d_baseDelay d) (d_maxDelay d))%Z (f_Attempt f + 1).

(** One pass over the listed ids; the result tells whether any was reclaimed. *)
Fixpoint reclaim_all (ws : uuid) (ids : list uuid) (reclaimed : bool) : act S err bool :=
  match ids with
  | [] => act_ret reclaimed
  | id :: ids' =>
      r <~ act_try (st_ReclaimStale ws id (d_workerID d) (d_leaseTTL d)) ;;
      match r with
      | Err ErrNotFound => reclaim_all ws ids' reclaimed
      | Err e => act_fail e
      | Ok f => resolveRecovered f ;;! reclaim_all ws ids' true
      end
  end.

Fixpoint recoverStale (fuel : nat) (ws : uuid) : act S err unit :=
  match fuel with
  | O => act_fail still_sweeping
  | Datatypes.S fuel' =>
      ids <~ st_GetStale ws (d_sweepLimit d) ;;
      match ids with
      | [] => act_ret tt
      | _ =>
          reclaimed <~ reclaim_all ws ids false ;;
          if reclaimed : bool then recoverStale fuel' ws else act_ret tt
      end
  end.

Fixpoint dispatch_all (ws : uuid) (ids : list uuid) : act S err unit :=
  match ids with
  | [] => act_ret tt
  | id :: ids' =>
      r <~ act_try (st_Claim ws id (d_workerID d) (d_leaseTTL d)) ;;
      match r with
      | Err ErrNotFound => dispatch_all ws ids'
      | Err e => act_fail e
      | Ok f =>
          p <~ act_try (pub_Publish (dispatch_message d f)) ;;
          st_RecordDispatch (f_WorkspaceID f) (f_RetryID f) (d_workerID d) (f_LeaseGeneration f) (is_ok p) ;;!
          dispatch_all ws ids'
      end
  end.

Definition dispatchDue (ws : uuid) : act S err unit :=
  ids <~ st_GetDue ws (d_sweepLimit d) ;; dispatch_all ws ids.

Definition Sweep (fuel : nat) (ws : uuid) : act S err unit :=
  recoverStale fuel ws ;;! dispatchDue ws.
End ops.

(** ** The dispatcher against the contract of its store *)

Section contract.
Context {S : Type} `{BoardStore S}.
Variable d : Dispatcher.
Hypothesis Hid : d_workerID d <> ""%string.

Lemma dispatch_message_token f :
  f_LeaseOwner f = d_workerID d -> msg_token (dispatch_message d f) = token_of f.
Proof. intros Ho. unfold msg_token, token_of. simpl. by rewrite Ho. Qed.

Lemma resolveRecovered_triple f : triple (holds f) (resolveRecovered d f) (fun _ _ => True).
Proof.
  unfold resolveRecovered. destruct (_ || _) eqn:Hb; [apply bs_fail|]. bool_prop.
  eapply (triple_bind _ (holds f)); [apply holds_stable|done|apply triple_any, bs_now|].
  intros now. eapply triple_weaken; [|done|apply bs_reschedule; lia]. naive_solver.
Qed.

Lemma reclaim_all_triple ws ids b : triple (fun _ => True) (reclaim_all d ws ids b) (fun _ _ => True).
Proof.
  revert b. induction ids as [|id ids IH]; intros b; simpl.
  { apply triple_done. }
  eapply (triple_bind _ (fun _ => True)); [done|done|apply triple_try, bs_reclaim|].
  intros [f|e].
  - eapply (triple_bind _ (fun _ => True)); [done|done| |].
    + eapply triple_weaken; [|done|apply resolveRecovered_triple]. naive_solver.
    + intros []. apply triple_any, IH.
  - destruct e; try apply triple_fail. apply triple_any, IH.
Qed.

Lemma recoverStale_triple fuel ws : triple (fun _ => True) (recoverStale d fuel ws) (fun _ _ => True).
Proof.
  induction fuel as [|fuel IH]; simpl; [apply triple_fail|].
  eapply (triple_bind _ (fun _ => True)); [done|done|apply bs_stale|].
  intros [|id ids]; [apply triple_done|].
  eapply (triple_bind _ (fun _ => True)); [done|done|apply triple_any, reclaim_all_triple|].
  intros [|]; [apply triple_any, IH|apply triple_done].
Qed.

Lemma dispatch_all_triple ws ids : triple (fun _ => True) (dispatch_all d ws ids) (fun _ _ => True).
Proof.
  induction ids as [|id ids IH]; simpl.
  { apply triple_done. }
  eapply (triple_bind _ (fun _ => True)); [done|done|apply triple_try, bs_claim|].
  intros [f|e].
  - eapply (triple_bind _ (fun _ => True)); [done|done| |].
    + eapply triple_weaken; [|done|apply triple_try, bs_publish].
      intros s [Hf _]. destruct (Hf f eq_refl) as [Hh Ho]. split; [done|].
      unfold msg_token, dispatch_message. simpl. rewrite <-Ho. exact Hh.
    + intros p. eapply (triple_bind _ (fun _ => True)); [done|done| |].
      * apply triple_any, bs_dispatch.
      * intros []. apply triple_any, IH.
  - destruct e; try apply triple_fail. apply triple_any, IH.
Qed.

Lemma Sweep_triple fuel ws : triple (fun _ => True) (Sweep d fuel ws) (fun _ _ => True).
Proof.
  eapply (triple_bind _ (fun _ => True)); [done|done|apply recoverStale_triple|]. intros [].
  eapply (triple_bind _ (fun _ => True)); [done|done|apply triple_any, bs_due|].
  intros ids. apply triple_any, dispatch_all_triple.
Qed.
End contract.

(** C5. Every sweep refines the board: whatever its store and broker do, fail in
    or let others do meanwhile, a sweep amounts to committed board transactions
    (so every invariant above survives it), and every message it leaves with
    the broker carries an identity a claim of the board handed out - execution,
    workspace, owner, generation and attempt -, which may have lost the lease
    since to a cancellation or another process. *)
Theorem sweep_refines_board {S} `{BoardStore S} (d : Dispatcher) fuel ws (s : S) :
  d_workerID d <> ""%string ->
  steps (board s) (board (Sweep d fuel ws s).2) /\
  (sent_ok s -> sent_ok (Sweep d fuel ws s).2).
Proof. intros Hid. by apply (Sweep_triple d Hid fuel ws s). Qed.
