(* ===== verification/Recovery.v ===== *)
(** * Recovery leaves nothing stale behind

    The sweep of the dispatcher on the PostgreSQL adapter: the recovery loop
    terminates, within one more pass than there are running executions, and
    settles every expired lease. *)

From S2P Require Import Prelude Execution ExecStore ExecInv ExecProps Ports PgStore Dispatcher Backoff.

(** ** What the list queries return *)

Lemma select_ids_elem p key n db id :
  id ∈ select_ids p key n db -> exists i e, db_execs db !! i = Some e /\ x_ID e = id /\ p e = true.
Proof.
  unfold select_ids. intros Hin. apply elem_of_take in Hin as (k & Hk & _).
  apply list_elem_of_lookup_2 in Hk. apply list_elem_of_fmap in Hk as (e & -> & He).
  rewrite merge_sort_Permutation in He. apply list_elem_of_filter in He as [Hp He].
  apply list_elem_of_fmap in He as ([i x] & -> & Hi). apply elem_of_map_to_list in Hi. by exists i, x.
Qed.

Lemma select_ids_nil p key n db :
  n <> 0 -> select_ids p key n db = [] -> forall i e, db_execs db !! i = Some e -> p e = false.
Proof.
  unfold select_ids. intros Hn Hnil i e He. destruct (p e) eqn:Hp; [|done].
  set (l := merge_sort _ _) in Hnil.
  assert (e ∈ l) as Hin.
  { unfold l. rewrite merge_sort_Permutation. apply list_elem_of_filter. split; [done|].
    apply list_elem_of_fmap. exists (i, e). split; [done|]. by apply elem_of_map_to_list. }
  destruct l as [|x l]; [by apply elem_of_nil in Hin|]. destruct n; [done|]. done.
Qed.

Lemma select_ids_NoDup p key n s : inv s -> NoDup (select_ids p key n (s_db s)).
Proof.
  intros Hinv. unfold select_ids. eapply sublist_NoDup; [|apply sublist_take].
  apply NoDup_fmap_2_strong.
  - intros x y Hx Hy HI. rewrite merge_sort_Permutation in Hx, Hy.
    apply list_elem_of_filter in Hx as [_ Hx], Hy as [_ Hy].
    apply list_elem_of_fmap in Hx as ([i x'] & -> & Hi%elem_of_map_to_list).
    apply list_elem_of_fmap in Hy as ([j y'] & -> & Hj%elem_of_map_to_list). simpl in *.
    destruct (i_exec _ Hinv _ _ Hi) as (E1 & _), (i_exec _ Hinv _ _ Hj) as (E2 & _). congruence.
  - rewrite merge_sort_Permutation. apply NoDup_filter, NoDup_fmap_2_strong; [|apply NoDup_map_to_list].
    intros [i x] [j y] Hi%elem_of_map_to_list Hj%elem_of_map_to_list Heq. simpl in Heq. subst y.
    destruct (i_exec _ Hinv _ _ Hi) as (E1 & _), (i_exec _ Hinv _ _ Hj) as (E2 & _). congruence.
Qed.

(** ** How many executions are running *)

Definition is_running (e : Execution) : Prop := x_Status e = StatusRunning.
#[export] Instance is_running_dec e : Decision (is_running e).
Proof. unfold is_running. apply _. Defined.

Definition running (m : gmap uuid Execution) : nat :=
  size (filter (fun kv : uuid * Execution => is_running kv.2) m).

Lemma running_same m i e e' :
  m !! i = Some e -> is_running e -> is_running e' -> running (<[i := e']> m) = running m.
Proof.
  intros Hi He He'. unfold running. rewrite map_filter_insert_True by done.
  apply map_size_insert_Some. by eexists; apply map_lookup_filter_Some.
Qed.

Lemma running_less m i e e' :
  m !! i = Some e -> is_running e -> ~ is_running e' -> S (running (<[i := e']> m)) = running m.
Proof.
  intros Hi He He'. unfold running. rewrite map_filter_insert_False by done.
  rewrite map_filter_delete, map_size_delete.
  assert (filter (fun kv : uuid * Execution => is_running kv.2) m !! i = Some e) as Hl
    by (by apply map_lookup_filter_Some).
  rewrite Hl. assert (size (filter (fun kv : uuid * Execution => is_running kv.2) m) <> 0); [|lia].
  intros Hz%map_size_empty_iff. by rewrite Hz in Hl.
Qed.

(** ** Settling under a lease one holds *)

Lemma fenced_update_holds f upd db e :
  find_exec (f_WorkspaceID f) (f_ExecutionID f) db = Some e -> holds_lease f e = true ->
  fenced_update f upd db <> Err ErrStaleLease.
Proof. intros Hf Hh. unfold fenced_update, put_exec. rewrite Hf, Hh. by destruct (exec_row_ok _). Qed.

Lemma update_retries_err p f db : update_retries p f db <> Err ErrStaleLease.
Proof. unfold update_retries. by destruct (retries_ok _). Qed.

Lemma FailAndDLQ_holds s f e c d sn now :
  inv s -> (0 <= c)%Z -> find_exec (f_WorkspaceID f) (f_ExecutionID f) (s_db s) = Some e ->
  holds_lease f e = true -> exists db', FailAndDLQ f c d sn now (s_db s) = Ok db'.
Proof.
  intros Hinv Hc Hf Hh. destruct (fail_total s f c d sn now Hinv Hc) as [Hstale|Hok].
  - unfold FailAndDLQ in Hstale. apply res_bind_Err in Hstale as [Hx|(db1 & _ & Hstale)];
      [by destruct (fenced_update_holds _ _ _ _ Hf Hh Hx)|].
    apply res_bind_Err in Hstale as [Hx|(db2 & _ & Hstale)]; [by destruct (update_retries_err _ _ _ Hx)|].
    by destruct (0 <=? c)%Z.
  - destruct (FailAndDLQ _ _ _ _ _ _); [by eexists|done].
Qed.

Lemma insert_retry_err r db : insert_retry r db <> Err ErrStaleLease.
Proof. unfold insert_retry. repeat case_match; done. Qed.

Lemma Reschedule_holds s f e next now :
  inv s -> token_of f ∈ s_tokens s -> (f_Attempt f < f_MaxAttempts f)%Z ->
  find_exec (f_WorkspaceID f) (f_ExecutionID f) (s_db s) = Some e -> holds_lease f e = true ->
  exists db', Reschedule f next (f_Attempt f + 1) now (s_db s) = Ok db'.
Proof.
  intros Hinv Hin Hlt Hf Hh. destruct (reschedule_total s f next now Hinv Hin Hlt) as [Hstale|Hok].
  - unfold Reschedule in Hstale. apply res_bind_Err in Hstale as [Hx|(db1 & _ & Hstale)];
      [by destruct (fenced_update_holds _ _ _ _ Hf Hh Hx)|].
    apply res_bind_Err in Hstale as [Hx|(db2 & _ & Hstale)]; [by destruct (update_retries_err _ _ _ Hx)|].
    apply res_bind_Err in Hstale as [Hx|(db3 & _ & Hstale)]; [by destruct (insert_retry_err _ _ Hx)|done].
  - destruct (Reschedule _ _ _ _ _); [by eexists|done].
Qed.

(** ** One recovered execution *)

Lemma ReclaimStale_total s ws id e w ttl now :
  inv s -> db_execs (s_db s) !! id = Some e -> is_stale ws now e = true ->
  let e' := reclaim_row w now ttl e in
  exists f, ReclaimStale ws id w ttl now (s_db s) = Ok (f, with_execs (<[id := e']> (db_execs (s_db s))) (s_db s)) /\
    f_ExecutionID f = id /\ f_WorkspaceID f = ws /\ holds_lease f e' = true /\ f_LastErrorCode f = x_LastErrorCode e.
Proof.
  intros Hinv He Hst. unfold is_stale, visible in Hst. bool_prop. subst ws.
  destruct (i_exec _ Hinv _ _ He) as (HI & _ & Hrow & _).
  unfold ReclaimStale. rewrite (proj2 (find_exec_Some _ _ _ _)) by done.
  match goal with H : expired _ _ = true |- _ => rewrite H end.
  rewrite bool_decide_eq_true_2 by done. simpl. unfold put_exec.
  rewrite (proj2 (exec_row_ok_spec _)).
  2: { apply exec_row_ok_spec in Hrow. simpl. naive_solver. }
  simpl. rewrite HI. eexists. split; [reflexivity|]. simpl. split_and!; try done.
  unfold holds_lease. simpl. by rewrite N.eqb_refl, Z.eqb_refl, !bool_decide_eq_true_2.
Qed.

Section quiet.
Variable env : nat -> Tick.
Hypothesis Hq : quiet env.
#[local] Hint Extern 0 (ExecutionStore World) => exact (pg_store env) : typeclass_instances.
#[local] Hint Extern 0 (Clock World) => exact (env_clock env) : typeclass_instances.

Lemma tx_quiet {A} tok (op : time -> DB -> res err (A * DB)) w :
  tx env tok op w =
  match op (tk_now (env (w_at w))) (s_db (w_sys w)) with
  | Err e => (Err e, mkWorld (w_sys w) (S (w_at w)) (w_sent w))
  | Ok (a, db') => (Ok a, mkWorld (mkSys db' (tok a ++ s_tokens (w_sys w))) (S (w_at w)) (w_sent w))
  end.
Proof.
  unfold tx. destruct (Hq (w_at w)) as [-> ->]. by destruct (op _ _) as [[a db']|e].
Qed.

Lemma write_quiet (op : time -> DB -> res err DB) w db' :
  op (tk_now (env (w_at w))) (s_db (w_sys w)) = Ok db' ->
  write env op w = (Ok tt, mkWorld (mkSys db' (s_tokens (w_sys w))) (S (w_at w)) (w_sent w)).
Proof. intros Hop. unfold write. rewrite tx_quiet, Hop. done. Qed.

Lemma read_quiet {A} (op : time -> DB -> res err A) w a :
  op (tk_now (env (w_at w))) (s_db (w_sys w)) = Ok a ->
  read env op w = (Ok a, mkWorld (w_sys w) (S (w_at w)) (w_sent w)).
Proof. intros Hop. unfold read. rewrite tx_quiet, Hop. simpl. by destruct w as [[db T] n l]. Qed.

Lemma quiet_fair : fair env.
Proof. intros n s. rewrite (proj1 (Hq n)). apply rtc_refl. Qed.

(** [w'] follows [w]: execution [id] left the running stage, nothing else moved. *)
Definition recovered (id : uuid) (w w' : World) : Prop :=
  reachable (w_sys w') /\ w_at w < w_at w' /\
  exists e e', db_execs (s_db (w_sys w)) !! id = Some e /\ is_running e /\ ~ is_running e' /\
    db_execs (s_db (w_sys w')) = <[id := e']> (db_execs (s_db (w_sys w))).

Lemma fenced_execs f upd db db1 (db' : DB) e :
  fenced_update f upd db = Ok db1 -> db_execs db' = db_execs db1 ->
  db_execs db !! f_ExecutionID f = Some e -> x_ID (upd e) = f_ExecutionID f ->
  db_execs db' = <[f_ExecutionID f := upd e]> (db_execs db).
Proof.
  intros (e0 & He0 & _ & _ & _ & _ & _ & ->)%fenced_update_Ok -> He HI. simplify_eq. simpl. by rewrite HI.
Qed.

Lemma resolveRecovered_quiet d f e w :
  reachable (w_sys w) -> holds f w -> db_execs (s_db (w_sys w)) !! f_ExecutionID f = Some e ->
  x_WorkspaceID e = f_WorkspaceID f -> holds_lease f e = true -> f_LastErrorCode f = x_LastErrorCode e ->
  exists w', resolveRecovered d f w = (Ok tt, w') /\
    recovered (f_ExecutionID f) w w'.
Proof.
  intros Hr Hin He HW Hh Hcode. pose proof (reachable_inv _ Hr) as Hinv.
  pose proof (proj2 (find_exec_Some _ _ _ _) (conj He HW)) as Hf.
  destruct (i_exec _ Hinv _ _ He) as (HI & _).
  pose proof (proj1 (holds_lease_spec f e) Hh) as (_ & HS & _).
  set (now := tk_now (env (w_at w))).
  assert (forall db', step (w_sys w) (mkSys db' (s_tokens (w_sys w))) ->
    (exists upd db1, fenced_update f upd (s_db (w_sys w)) = Ok db1 /\ db_execs db' = db_execs db1 /\
       x_ID (upd e) = f_ExecutionID f /\ ~ is_running (upd e)) ->
    recovered (f_ExecutionID f) w (mkWorld (mkSys db' (s_tokens (w_sys w))) (S (w_at w)) (w_sent w))) as Hrec.
  { intros db' Hst (upd & db1 & Hu & Hdb & HIu & Hn). split; [by eapply reachable_step|]. split; [simpl; lia|].
    exists e, (upd e). split_and!; try done. simpl. by eapply fenced_execs. }
  destruct (w_sys w) as [db T] eqn:Ew. simpl in *.
  unfold resolveRecovered. destruct (_ || _) eqn:Hb.
  - destruct (FailAndDLQ_holds (mkSys db T) f e (default CodeWorkerLeaseExpired (f_LastErrorCode f))
      "lease expired after non-retryable failure" "" now Hinv) as [db' Hop]; [|done|done|].
    { rewrite Hcode. destruct (x_LastErrorCode e) as [c|] eqn:Hc; simpl; [|done].
      by eapply (reachable_codes _ Hr (f_ExecutionID f) e). }
    eexists. split; [|apply (Hrec db')].
    + simpl. by rewrite (write_quiet _ w db'), Ew by (by rewrite Ew).
    + eapply step_fail; [|exact Hop]. unfold holds in Hin. simpl in Hin. by rewrite Ew in Hin.
    + apply FailAndDLQ_execs in Hop as (db1 & Hu & Hdb). eexists _, db1. split_and!; try done.
  - bool_prop. unfold act_bind, clock_Now, env_clock. fold now.
    assert (token_of f ∈ T) as HT by (unfold holds in Hin; simpl in Hin; by rewrite Ew in Hin).
    destruct (Reschedule_holds (mkSys db T) f e
      (now + RetryDelay (f_Attempt f) (d_baseDelay d) (d_maxDelay d)) now Hinv HT) as [db' Hop]; [lia|done|done|].
    eexists. split; [|apply (Hrec db')].
    + simpl. by rewrite (write_quiet _ w db'), Ew by (by rewrite Ew).
    + eapply step_reschedule; [done|lia|exact Hop].
    + apply Reschedule_execs in Hop as (db1 & Hu & Hdb). eexists _, db1. split_and!; try done.
Qed.

Lemma reclaim_one d ws id e w :
  reachable (w_sys w) -> db_execs (s_db (w_sys w)) !! id = Some e ->
  is_stale ws (tk_now (env (w_at w))) e = true ->
  exists f w1 w', st_ReclaimStale ws id (d_workerID d) (d_leaseTTL d) w = (Ok f, w1) /\
    resolveRecovered d f w1 = (Ok tt, w') /\ recovered id w w'.
Proof.
  intros Hr He Hst. pose proof (reachable_inv _ Hr) as Hinv.
  destruct (ReclaimStale_total (w_sys w) ws id e (d_workerID d) (d_leaseTTL d) _ Hinv He Hst)
    as (f & Hop & HE & HWf & Hh & Hcode).
  pose proof (proj1 (holds_lease_spec _ _) Hh) as (HW & _).
  set (e' := reclaim_row _ _ _ e) in *. set (db' := with_execs _ _) in *.
  set (w1 := mkWorld (mkSys db' (token_of f :: s_tokens (w_sys w))) (S (w_at w)) (w_sent w)).
  assert (st_ReclaimStale ws id (d_workerID d) (d_leaseTTL d) w = (Ok f, w1)) as H1.
  { simpl. rewrite tx_quiet, Hop. done. }
  assert (reachable (w_sys w1)) as Hr1.
  { eapply reachable_step; [exact Hr|]. destruct (w_sys w) as [db T]. by eapply step_reclaim. }
  destruct (resolveRecovered_quiet d f e' w1) as (w' & H2 & Hr' & Hlt & e1 & e2 & He1 & Hrun & Hn & Hdb); try done.
  { unfold holds. simpl. left. }
  { simpl. rewrite HE. by rewrite lookup_insert_eq. }
  exists f, w1, w'. split; [done|]. split; [done|]. split; [done|]. split; [simpl in Hlt; lia|].
  rewrite HE in He1, Hdb. simpl in He1. rewrite lookup_insert_eq in He1. simplify_eq.
  exists e, e2. split_and!; [done| |done|].
  - unfold is_stale in Hst. by bool_prop.
  - rewrite Hdb. simpl. by rewrite insert_insert_eq.
Qed.

(** ** The whole loop *)

Hypothesis Hm : monotone env.

Lemma now_le n k : n <= k -> (tk_now (env n) <= tk_now (env k))%Z.
Proof. induction 1 as [|k _ IH]; [done|]. pose proof (Hm k). lia. Qed.

Lemma stale_later ws t t' e : is_stale ws t e = true -> (t <= t')%Z -> is_stale ws t' e = true.
Proof.
  unfold is_stale, expired. intros Hs Ht. bool_prop.
  destruct (x_LeaseExpiresAt e) as [x|]; [|done]. bool_prop.
  rewrite !andb_true_iff, bool_decide_eq_true. split_and!; [done..|]. apply Z.ltb_lt. lia.
Qed.

Definition stale_ids (ws : uuid) (t : time) (ids : list uuid) (w : World) : Prop :=
  forall id, id ∈ ids -> exists e, db_execs (s_db (w_sys w)) !! id = Some e /\ is_stale ws t e = true.

Lemma reclaim_all_quiet d ws t ids b w :
  reachable (w_sys w) -> NoDup ids -> stale_ids ws t ids w -> (t <= tk_now (env (w_at w)))%Z ->
  exists w', reclaim_all d ws ids b w = (Ok (b || negb (bool_decide (ids = []))), w') /\
    reachable (w_sys w') /\ w_at w <= w_at w' /\
    running (db_execs (s_db (w_sys w'))) + length ids = running (db_execs (s_db (w_sys w))).
Proof.
  revert b w. induction ids as [|id ids IH]; intros b w Hr Hnd Hst Ht.
  { exists w. simpl. rewrite orb_false_r. split_and!; [done|done|lia|lia]. }
  apply NoDup_cons in Hnd as [Hnin Hnd]. destruct (Hst id) as (e & He & Hs); [left|].
  destruct (reclaim_one d ws id e w Hr He) as (f & w1 & w2 & H1 & H2 & Hr2 & Hlt & e1 & e2 & He1 & Hrun & Hn & Hdb);
    [by eapply stale_later|].
  destruct (IH true w2) as (w' & H3 & Hr' & Hle & Hcnt); try done.
  { intros i Hi. destruct (Hst i) as (x & Hx & Hxs); [by right|]. exists x. split; [|done].
    rewrite Hdb, lookup_insert_ne by (intros ->; done). done. }
  { etrans; [exact Ht|]. apply now_le. lia. }
  exists w'. split_and!; [|done|lia|].
  - cbn [reclaim_all]. unfold act_bind, act_try. rewrite H1, H2, H3. by rewrite orb_true_r.
  - simpl. rewrite Hdb in Hcnt. pose proof (running_less _ _ _ _ He1 Hrun Hn). lia.
Qed.

Lemma recoverStale_quiet d ws fuel w :
  reachable (w_sys w) -> d_sweepLimit d <> 0 -> running (db_execs (s_db (w_sys w))) < fuel ->
  exists w' n, recoverStale d fuel ws w = (Ok tt, w') /\ reachable (w_sys w') /\
    w_at w <= n < w_at w' /\
    forall id e, db_execs (s_db (w_sys w')) !! id = Some e -> is_stale ws (tk_now (env n)) e = false.
Proof.
  revert w. induction fuel as [|fuel IH]; intros w Hr Hlim Hfuel; [lia|].
  set (t := tk_now (env (w_at w))).
  set (w0 := mkWorld (w_sys w) (S (w_at w)) (w_sent w)).
  set (ids := select_ids (is_stale ws t) (fun e => default 0%Z (x_LeaseExpiresAt e)) (d_sweepLimit d) (s_db (w_sys w))).
  assert (st_GetStale ws (d_sweepLimit d) w = (Ok ids, w0)) as H0 by (simpl; by erewrite read_quiet).
  cbn [recoverStale]. unfold act_bind at 1. rewrite H0.
  pose proof (reachable_inv _ Hr) as Hinv.
  destruct ids as [|id0 ids0] eqn:Hids.
  { exists w0, (w_at w). split_and!; [done|done|lia|simpl; lia|]. intros id e He.
    by apply (select_ids_nil _ _ _ _ Hlim Hids id). }
  destruct (reclaim_all_quiet d ws t (id0 :: ids0) false w0) as (w1 & H1 & Hr1 & Hle & Hcnt).
  - done.
  - rewrite <-Hids. by apply select_ids_NoDup.
  - intros i Hi. rewrite <-Hids in Hi. apply select_ids_elem in Hi as (j & e & Hj & HI & Hs).
    destruct (i_exec _ Hinv _ _ Hj) as (HI' & _). exists e. split; [|done]. simpl. congruence.
  - simpl. apply now_le. lia.
  - unfold act_bind. rewrite H1. cbn [orb negb].
    destruct (IH w1) as (w' & n & H2 & Hr' & Hn & Hclean); [done|done|simpl in Hcnt; lia|].
    exists w', n. split_and!; [done|done|simpl in Hle; lia|lia|done].
Qed.
End quiet.

(** C35. Recovery terminates and is complete: from any reachable board, with
    nobody else at work, clocks that never run backwards, no failing transaction
    and a sweep limit that is not zero, the recovery loop ends within one pass more than there are
    running executions, and no lease that had expired at the instant of its
    last listing is left behind. *)
Theorem recoverStale_complete env d ws fuel w :
  quiet env -> monotone env -> reachable (w_sys w) -> d_sweepLimit d <> 0 ->
  running (db_execs (s_db (w_sys w))) < fuel ->
  exists w' n, @recoverStale World (pg_store env) (env_clock env) d fuel ws w = (Ok tt, w') /\
    reachable (w_sys w') /\ w_at w <= n < w_at w' /\
    forall id e, db_execs (s_db (w_sys w')) !! id = Some e -> is_stale ws (tk_now (env n)) e = false.
Proof. intros. by apply recoverStale_quiet. Qed.

(** A dispatcher of its own, an hour after the demonstration board's claim. *)
Definition calm (now : time) : nat -> Tick := fun n => mkTick (now + Z.of_nat n) (fun s => s) NoFault Delivered.
Definition demo_dispatcher : Dispatcher := NewDispatcher "host-1" (30 * Second) Second (30 * Second).

Lemma calm_quiet now : quiet (calm now).
Proof. done. Qed.
Lemma calm_monotone now : monotone (calm now).
Proof. intros n. simpl. lia. Qed.

Lemma recoverStale_complete_witness :
  let w := mkWorld demo_sys2 0 [] in
  is_stale 7 (60 * Minute) demo_e2 = true /\
  exists w' n, @recoverStale World (pg_store (calm (60 * Minute))) (env_clock (calm (60 * Minute)))
      demo_dispatcher 2 7 w = (Ok tt, w') /\
    reachable (w_sys w') /\ 0 <= n < w_at w' /\
    forall id e, db_execs (s_db (w_sys w')) !! id = Some e -> is_stale 7 (60 * Minute + Z.of_nat n) e = false.
Proof.
  split; [vm_compute; reflexivity|].
  apply (recoverStale_complete (calm (60 * Minute)) demo_dispatcher 7 2 (mkWorld demo_sys2 0 [])
    (calm_quiet _) (calm_monotone _) demo_reachable2); [done|vm_compute; lia].
Defined.
