(* ===== verification/Worker.v ===== *)
(** * internal/execution/worker.go: one delivered attempt

    The worker rebuilds the fenced identity from the message, materializes the
    sanitized request, calls the provider while a heartbeat renews the lease,
    and completes, reschedules or dead-letters the execution. *)

From S2P Require Import Prelude GoLib Execution ExecStore ExecInv ExecProps Ports Backoff Dispatcher.

Inductive RunOutcome : Type :=
| OutcomeCompleted | OutcomeScheduled | OutcomeDeadLettered | OutcomeAbandoned.

#[export] Instance RunOutcome_eq_dec : EqDecision RunOutcome.
Proof. solve_decision. Defined.

Record Worker : Type := mkWorker {
  wk_workerID : string;
  wk_leaseTTL : duration;
  wk_heartbeatInterval : duration;
  wk_executionWindow : duration;
  wk_baseDelay : duration;
  wk_maxDelay : duration
}.

(** ** The provider call as the worker sees it *)

(** internal/ai/types.go *)
Record CompletionRequest : Type := mkCompletionRequest { cr_WorkspaceID : string; cr_Instruction : string }.
Record CompletionResult : Type := mkCompletionResult { res_Text : string }.

(** What happens while the call is in flight: a tick of the heartbeat timer,
    the deadline of the run context, or the caller's context ending. *)
Inductive CallEvent : Type := Beat | DeadlinePasses | ParentCancelled.

Inductive CtxErr : Type := Canceled | DeadlineExceeded.

Class Provider (S : Type) : Type := {
  prov_Complete : CompletionRequest -> time -> S -> list CallEvent * res goerror CompletionResult
}.

(** A context keeps the first error it ends with. *)
Definition ctx_end (c : option CtxErr) (e : CtxErr) : option CtxErr :=
  match c with None => Some e | Some _ => c end.

(** ** Error texts *)

Definition sentinel_Error (s : sentinel) : string :=
  match s with
  | SqlErrNoRows => "sql: no rows in result set"
  | CtxCanceled => "context canceled"
  | CtxDeadlineExceeded => "context deadline exceeded"
  | AiErrUsageLimitExceeded => "ai: usage limit exceeded"
  | NetErrClosed => "use of closed network connection"
  | IoEOF => "EOF"
  | ECONNREFUSED => "connection refused"
  | ECONNRESET => "connection reset by peer"
  | ETIMEDOUT => "connection timed out"
  | SErrNotRetryable => "execution: error is not retryable"
  | SErrWorkerLeaseExpired => "execution: worker_lease_expired"
  | SErrNotFoundClassified => "execution: not_found"
  end.

Fixpoint goerror_Error (e : goerror) : string :=
  match e with
  | ESentinel s => sentinel_Error s
  | ENet msg _ | EOpaque msg | EWrap msg _ => msg
  | EClassified code _ None => "execution: " +:+ ErrorCode_String code
  | EClassified code _ (Some c) => "execution: " +:+ ErrorCode_String code +:+ ": " +:+ goerror_Error c
  end.

(** ** Pure parts *)

(** The text a field contributes, when it is set. *)
Definition when_set (s pre post : string) : string :=
  if String.eqb s "" then "" else pre +:+ s +:+ post.

Definition newline : string := String.String (char_of 10) "".

Definition instruction (m : MaterializedRequest) : string :=
  "You are " +:+ m_AIEmployeeName m +:+ ", " +:+ m_AIEmployeeRole m +:+ "."
  +:+ when_set (m_DepartmentName m) " Department: " "."
  +:+ when_set (m_TeamName m) " Team: " "."
  +:+ (if bool_decide (m_Capabilities m = []) then ""
       else " Capabilities: " +:+ String.concat ", " (m_Capabilities m) +:+ ".")
  +:+ when_set (m_TaskTitle m) (newline +:+ "Task: ") "."
  +:+ when_set (m_TaskDescription m) newline "".

Definition snapshot (m : MaterializedRequest) : string :=
  "{" +:+ json_key "TaskTitle" +:+ json_string (m_TaskTitle m)
  +:+ "," +:+ json_key "TaskDescription" +:+ json_string (m_TaskDescription m)
  +:+ "," +:+ json_key "AIEmployeeName" +:+ json_string (m_AIEmployeeName m)
  +:+ "," +:+ json_key "AIEmployeeRole" +:+ json_string (m_AIEmployeeRole m)
  +:+ "," +:+ json_key "TeamName" +:+ json_string (m_TeamName m)
  +:+ "," +:+ json_key "DepartmentName" +:+ json_string (m_DepartmentName m)
  +:+ "," +:+ json_key "Capabilities" +:+ "[" +:+ String.concat "," (map json_string (m_Capabilities m)) +:+ "]}".

(** [json.Marshal(res)] *)
Definition marshal_result (r : CompletionResult) : res goerror string :=
  Ok ("{" +:+ json_key "text" +:+ json_string (res_Text r) +:+ "}").

Definition fencedFrom (msg : PublishMessage) (workerID : string) : FencedExecution :=
  let owner := if String.eqb (pm_LeaseOwner msg) "" then workerID else pm_LeaseOwner msg in
  mkFenced (pm_ExecutionID msg) (pm_WorkspaceID msg) owner (pm_Generation msg) (pm_LeaseExpiresAt msg)
    (pm_Attempt msg) (pm_MaxAttempts msg) (pm_RetryID msg) (pm_AIEmployeeID msg) None None None.

(** ** Run *)

Section ops.
Context {S : Type} `{Board S, ExecutionStore S, Materializer S, Clock S, Provider S, UuidText}.
Variable w : Worker.

(** The heartbeat goroutine beside the provider call: the first failed beat
    cancels the run context and ends the goroutine.  The result is what
    [runCtx.Err()] reports once the call has returned. *)
Fixpoint during_call (f : FencedExecution) (evs : list CallEvent) (beating : bool) (c : option CtxErr)
  : act S err (option CtxErr) :=
  match evs with
  | [] => act_ret c
  | Beat :: evs' =>
      if beating then
        r <~ act_try (st_Heartbeat f (wk_leaseTTL w)) ;;
        if is_ok r then during_call f evs' true c
        else during_call f evs' false (ctx_end c Canceled)
      else during_call f evs' false c
  | DeadlinePasses :: evs' => during_call f evs' beating (ctx_end c DeadlineExceeded)
  | ParentCancelled :: evs' => during_call f evs' false (ctx_end c Canceled)
  end.

(** A Go pair [(RunOutcome, error)]. *)
Definition outcome (o : RunOutcome) (e : option err) : act S err (RunOutcome * option err) := act_ret (o, e).

Definition finalizeFailure (f : FencedExecution) (m : MaterializedRequest) (cause : goerror)
  : act S err (RunOutcome * option err) :=
  let cl := Classify (Some cause) in
  let detail := goerror_Error cause in
  p <~ act_try (st_PersistError f (ce_Code cl) (ce_Retry cl) detail) ;;
  match p with
  | Err e => outcome OutcomeAbandoned (Some e)
  | Ok _ =>
      if ce_Retry cl && (f_Attempt f <? f_MaxAttempts f)%Z then
        now <~ clock_Now ;;
        r <~ act_try (st_Reschedule f (now + RetryDelay (f_Attempt f) (wk_baseDelay w) (wk_maxDelay w))%Z
                        (f_Attempt f + 1)) ;;
        match r with
        | Err e => outcome OutcomeAbandoned (Some e)
        | Ok _ => outcome OutcomeScheduled None
        end
      else
        r <~ act_try (st_FailAndDLQ f (ce_Code cl) detail (snapshot m)) ;;
        match r with
        | Err e => outcome OutcomeAbandoned (Some e)
        | Ok _ => outcome OutcomeDeadLettered None
        end
  end.

(** The tail of [Run], once the provider has answered and the heartbeat stopped. *)
Definition afterCall (f : FencedExecution) (m : MaterializedRequest) (called : res goerror CompletionResult)
    (c : option CtxErr) : act S err (RunOutcome * option err) :=
  match c with
  | Some Canceled => outcome OutcomeAbandoned None
  | _ =>
      match called with
      | Err callErr => finalizeFailure f m callErr
      | Ok result =>
          match marshal_result result with
          | Err e => finalizeFailure f m e
          | Ok payload =>
              r <~ act_try (st_Complete f payload) ;;
              match r with
              | Err e => outcome OutcomeAbandoned (Some e)
              | Ok _ => outcome OutcomeCompleted None
              end
          end
      end
  end.

Definition Run (msg : PublishMessage) : act S err (RunOutcome * option err) :=
  if (pm_WorkspaceID msg =? uuid_Nil)%N || (pm_ExecutionID msg =? uuid_Nil)%N || (pm_RetryID msg =? uuid_Nil)%N
  then outcome OutcomeDeadLettered (Some ErrInvalidInput)
  else
    let f := fencedFrom msg (wk_workerID w) in
    now <~ clock_Now ;;
    let deadline := Z.min (pm_LeaseExpiresAt msg) (now + wk_executionWindow w) in
    m <~ act_try (mat_Materialize (pm_WorkspaceID msg) (pm_ExecutionID msg)) ;;
    match m with
    | Err e => outcome OutcomeAbandoned (Some e)
    | Ok m =>
        s <~ act_get ;;
        let '(evs, called) := prov_Complete
          (mkCompletionRequest (uuid_String (pm_WorkspaceID msg)) (instruction m)) deadline s in
        c <~ during_call f evs true None ;;
        afterCall f m called c
    end.
End ops.

(** ** The worker against the contract of its store *)

Lemma Classify_code_nonneg c : (0 <= ce_Code (Classify c))%Z.
Proof. unfold Classify. destruct c as [c|]; [|done]. repeat (case_match; [done|]). done. Qed.

Section contract.
Context {S : Type} `{BoardStore S} `{!Provider S} `{!UuidText}.
Variable w : Worker.

Lemma outcome_triple (P : S -> Prop) o e : triple P (outcome o e) (fun _ _ => True).
Proof. apply triple_done. Qed.

Lemma during_call_triple f evs b c : triple (holds f) (during_call w f evs b c) (fun _ _ => True).
Proof.
  revert b c. induction evs as [|[| |] evs IH]; intros b c; cbn [during_call].
  - apply triple_done.
  - destruct b; [|apply IH].
    eapply (triple_bind _ (holds f)); [apply holds_stable|done|apply triple_try, bs_heartbeat|].
    intros r. eapply (triple_weaken _ (holds f)); [naive_solver|done|]. destruct (is_ok r); apply IH.
  - apply IH.
  - apply IH.
Qed.

(** Run [m] under the identity, look at its outcome, go on under the identity. *)
Lemma triple_then f {A B} (m : act S err A) (k : res err A -> act S err B) :
  triple (holds f) m (fun _ _ => True) -> (forall r, triple (holds f) (k r) (fun _ _ => True)) ->
  triple (holds f) (act_bind (act_try m) k) (fun _ _ => True).
Proof.
  intros Hm Hk. eapply (triple_bind _ (holds f)); [apply holds_stable|done|by apply triple_try|].
  intros r. eapply (triple_weaken _ (holds f)); [naive_solver|done|apply Hk].
Qed.

Lemma triple_now f {B} (k : time -> act S err B) :
  (forall now, triple (holds f) (k now) (fun _ _ => True)) ->
  triple (holds f) (act_bind clock_Now k) (fun _ _ => True).
Proof.
  intros Hk. eapply (triple_bind _ (holds f)); [apply holds_stable|done|apply triple_any, bs_now|].
  intros now. eapply (triple_weaken _ (holds f)); [naive_solver|done|apply Hk].
Qed.

Lemma finalizeFailure_triple f m cause : triple (holds f) (finalizeFailure w f m cause) (fun _ _ => True).
Proof.
  unfold finalizeFailure. apply triple_then; [apply bs_persist, Classify_code_nonneg|].
  intros [u|e]; [|apply outcome_triple]. destruct (_ && _) eqn:Hb.
  - bool_prop. apply triple_now. intros now. apply triple_then; [by apply bs_reschedule|].
    intros [?|?]; apply outcome_triple.
  - apply triple_then; [apply bs_fail|]. intros [?|?]; apply outcome_triple.
Qed.

Lemma afterCall_triple f m called c : triple (holds f) (afterCall w f m called c) (fun _ _ => True).
Proof.
  assert (triple (holds f) (afterCall w f m called None) (fun _ _ => True)) as Hk.
  { unfold afterCall. destruct called as [result|ce]; [|apply finalizeFailure_triple].
    destruct (marshal_result result); [|apply finalizeFailure_triple].
    apply triple_then; [apply bs_complete|]. intros [?|?]; apply outcome_triple. }
  destruct c as [[|]|]; [apply outcome_triple|exact Hk|exact Hk].
Qed.

Lemma Run_triple msg :
  triple (holds (fencedFrom msg (wk_workerID w))) (Run w msg) (fun _ _ => True).
Proof.
  unfold Run. destruct (_ || _); [apply outcome_triple|]. apply triple_now. intros now.
  apply triple_then; [apply triple_any, bs_materialize|]. intros [m|e]; [|apply outcome_triple].
  intros s Hs. cbn [act_bind act_get].
  match goal with |- context [prov_Complete ?a ?b ?c] => destruct (prov_Complete a b c) as [evs called] end.
  set (f := fencedFrom msg (wk_workerID w)) in *.
  refine (triple_bind (holds f) (holds f) (during_call w f evs true None) (fun _ _ => True)
    (afterCall w f m called) (fun _ _ => True) (holds_stable f) (fun _ Hh => Hh) _ _ s Hs);
    [apply during_call_triple|].
  intros c. eapply (triple_weaken _ (holds _)); [naive_solver|done|apply afterCall_triple].
Qed.

Lemma fencedFrom_token msg : pm_LeaseOwner msg <> ""%string ->
  token_of (fencedFrom msg (wk_workerID w)) = msg_token msg.
Proof. intros Ho%String.eqb_neq. unfold fencedFrom, token_of, msg_token. simpl. by rewrite Ho. Qed.
End contract.

(** C4. Every worker run refines the board: handed any message the broker holds,
    whatever the provider answers and whenever heartbeats fail, a run amounts
    to committed board transactions. *)
Theorem worker_refines_board {S} `{BoardStore S} `{!Provider S} `{!UuidText} (w : Worker) msg (s : S) :
  sent_ok s -> msg ∈ sent s ->
  steps (board s) (board (Run w msg s).2) /\ (sent_ok s -> sent_ok (Run w msg s).2).
Proof.
  intros Hok Hin. destruct (Hok msg Hin) as [Ho Ht]. apply (Run_triple w msg s).
  unfold holds. by rewrite fencedFrom_token.
Qed.

(** The fence survives the broker: the identity a worker rebuilds from the
    dispatch message is exactly the one [Claim] returned, lease owner included,
    whatever the worker's own identity. *)
Theorem fencedFrom_roundtrip d workerID ws id now db f db' :
  d_workerID d <> ""%string ->
  Claim ws id (d_workerID d) (d_leaseTTL d) now db = Ok (f, db') ->
  fencedFrom (dispatch_message d f) workerID = f.
Proof.
  intros Hid%String.eqb_neq Hc. apply Claim_Ok in Hc as (e & rid & r & _ & _ & _ & _ & _ & _ & _ & _ & -> & _).
  unfold fencedFrom, dispatch_message. simpl. by rewrite Hid.
Qed.
