(* ===== verification/WorkerProps.v ===== *)
(** * What a worker run leaves on the PostgreSQL board

    The reported outcome is the persisted one; a worker that lost its lease
    changes nothing; and what the missing admission snapshot means for runs. *)

From S2P Require Import Prelude GoLib Execution ExecStore ExecInv ExecProps Ports PgStore Backoff.
From S2P Require Import Dispatcher Recovery Worker.

(** ** Outcomes *)

(** What the row of the execution shows after a run that reported [o]. *)
Definition settled_as (o : RunOutcome) (id : uuid) (db : DB) : Prop :=
  match o with
  | OutcomeCompleted => exists e r payload, db_execs db !! id = Some e /\ x_Status e = StatusCompleted /\
      x_LeaseOwner e = None /\ marshal_result r = Ok payload /\ x_ResultJSON e = Some payload
  | OutcomeScheduled => exists e, db_execs db !! id = Some e /\ x_Status e = StatusPending /\
      x_LeaseOwner e = None /\ is_Some (x_NextRetryAt e) /\ (x_Attempt e < x_MaxAttempts e)%Z /\
      has_retry (db_retries db) e (fun r => r_State r = RetryPending /\ r_RetrySeq r = (x_Attempt e + 1)%Z)
  | OutcomeDeadLettered => exists e, db_execs db !! id = Some e /\ x_Status e = StatusFailed /\
      x_LeaseOwner e = None /\ dlq_count id (db_dlq db) = 1
  | OutcomeAbandoned => True
  end.

Section pg.
Variable env : nat -> Tick.
Hypothesis Hfair : fair env.
#[local] Hint Extern 0 (ExecutionStore World) => exact (pg_store env) : typeclass_instances.
#[local] Hint Extern 0 (Materializer World) => exact (pg_materializer env) : typeclass_instances.
#[local] Hint Extern 0 (Clock World) => exact (env_clock env) : typeclass_instances.
#[local] Hint Extern 0 (Publisher World) => exact (env_publisher env) : typeclass_instances.
#[local] Hint Extern 0 (BoardStore World) => exact (pg_board_store env Hfair) : typeclass_instances.
Context `{!Provider World} `{!UuidText}.

Lemma write_Ok (op : time -> DB -> res err DB) (W W' : World) :
  write env op W = (Ok tt, W') ->
  exists s now, steps (w_sys W) s /\ op now (s_db s) = Ok (s_db (w_sys W')) /\ s_tokens (w_sys W') = s_tokens s.
Proof.
  unfold write, tx. intros Hw. exists (tk_others (env (w_at W)) (w_sys W)), (tk_now (env (w_at W))).
  split; [apply Hfair|]. destruct (tk_fault _); [|done|].
  - destruct (op _ _) as [db'|e]; [|done]. simpl in Hw. by simplify_eq.
  - destruct (op _ _) as [db'|e]; [|done]. simpl in Hw. by simplify_eq.
Qed.

(** A fenced write that committed: the row it wrote is the row on the board. *)
Lemma fenced_write_row f upd s db1 db' :
  inv s -> fenced_update f upd (s_db s) = Ok db1 -> db_execs db' = db_execs db1 ->
  (forall e, x_ID (upd e) = x_ID e) ->
  exists e, db_execs db' !! f_ExecutionID f = Some (upd e).
Proof.
  intros Hinv Hu Hdb HI. pose proof Hu as (e & He & _)%fenced_update_Ok.
  destruct (i_exec _ Hinv _ _ He) as (HIe & _).
  exists e. rewrite (fenced_execs _ _ _ _ db' e Hu Hdb He) by (by rewrite HI). by rewrite lookup_insert_eq.
Qed.

Lemma Complete_settles f r payload W W' :
  inv (w_sys W) -> marshal_result r = Ok payload -> st_Complete f payload W = (Ok tt, W') ->
  settled_as OutcomeCompleted (f_ExecutionID f) (s_db (w_sys W')).
Proof.
  intros Hinv Hm (s & now & Hs & Hop & _)%write_Ok. apply Complete_execs in Hop as (db1 & Hu & Hdb).
  destruct (fenced_write_row _ _ _ _ _ (inv_steps _ _ Hinv Hs) Hu Hdb (fun _ => eq_refl)) as [e He].
  eexists _, r, payload. by split_and!.
Qed.

Lemma Fail_settles f c d sn W W' :
  inv (w_sys W) -> inv (w_sys W') -> st_FailAndDLQ f c d sn W = (Ok tt, W') ->
  settled_as OutcomeDeadLettered (f_ExecutionID f) (s_db (w_sys W')).
Proof.
  intros Hinv Hinv' (s & now & Hs & Hop & _)%write_Ok. apply FailAndDLQ_execs in Hop as (db1 & Hu & Hdb).
  destruct (fenced_write_row _ _ _ _ _ (inv_steps _ _ Hinv Hs) Hu Hdb (fun _ => eq_refl)) as [e He].
  eexists. split_and!; [exact He|done|done|]. by destruct (i_exec _ Hinv' _ _ He) as (_ & _ & _ & _ & -> & _).
Qed.

Lemma Reschedule_settles f next seq W W' :
  inv (w_sys W) -> inv (w_sys W') -> st_Reschedule f next seq W = (Ok tt, W') ->
  settled_as OutcomeScheduled (f_ExecutionID f) (s_db (w_sys W')).
Proof.
  intros Hinv Hinv' (s & now & Hs & Hop & _)%write_Ok. apply Reschedule_execs in Hop as (db1 & Hu & Hdb).
  destruct (fenced_write_row _ _ _ _ _ (inv_steps _ _ Hinv Hs) Hu Hdb (fun _ => eq_refl)) as [e He].
  destruct (i_exec _ Hinv' _ _ He) as (_ & _ & _ & [Hlt Hret] & _).
  eexists. split_and!; [exact He|done|done|by eexists|exact Hlt|exact Hret].
Qed.

(** [m] commits board transactions only, under the identity. *)
Lemma triple_inv {A} f (m : act World err A) Q W r W' :
  triple (holds f) m Q -> holds f W -> inv (w_sys W) -> m W = (r, W') -> inv (w_sys W') /\ holds f W'.
Proof.
  intros Ht Hh Hinv Hm. destruct (Ht W Hh) as [Hmv _]. rewrite Hm in Hmv. simpl in Hmv.
  split; [by eapply inv_steps; [exact Hinv|apply Hmv]|by eapply holds_stable].
Qed.

Ltac step_try H :=
  unfold act_bind at 1, act_try at 1 in H;
  match type of H with context [let '(r, s') := ?m ?W in _] => destruct (m W) as [? ?] eqn:? end.

Ltac by_outcome H := unfold outcome, act_ret in H; simplify_eq.

Lemma finalizeFailure_settles w f m cause W o W' :
  inv (w_sys W) -> holds f W -> finalizeFailure w f m cause W = (Ok (o, None), W') ->
  settled_as o (f_ExecutionID f) (s_db (w_sys W')).
Proof.
  intros Hinv Hh Hr. pose proof (finalizeFailure_triple w f m cause) as Ht.
  destruct (triple_inv _ _ _ _ _ _ Ht Hh Hinv Hr) as [Hinv' _]. clear Ht.
  unfold finalizeFailure in Hr. step_try Hr.
  match goal with H : st_PersistError _ _ _ _ _ = (?r, ?W1) |- _ =>
    destruct (triple_inv f _ _ W r W1 (bs_persist f _ _ _ (Classify_code_nonneg _)) Hh Hinv H) as [Hinv1 Hh1];
    destruct r as [[]|e]; [|by by_outcome Hr] end.
  destruct (_ && _).
  - unfold act_bind at 1, clock_Now, env_clock in Hr. step_try Hr.
    match goal with H : st_Reschedule _ _ _ _ = (?r, _) |- _ => destruct r as [[]|e] end; by_outcome Hr.
    by eapply Reschedule_settles.
  - step_try Hr. match goal with H : st_FailAndDLQ _ _ _ _ _ = (?r, _) |- _ => destruct r as [[]|e] end; by_outcome Hr.
    by eapply Fail_settles.
Qed.

Lemma afterCall_settles w f m called c W o W' :
  inv (w_sys W) -> holds f W -> afterCall w f m called c W = (Ok (o, None), W') ->
  settled_as o (f_ExecutionID f) (s_db (w_sys W')).
Proof.
  intros Hinv Hh Hr. destruct (decide (o = OutcomeAbandoned)) as [->|Hno]; [done|].
  assert (afterCall w f m called None W = (Ok (o, None), W')) as Hr'.
  { destruct c as [[|]|]; [|exact Hr|exact Hr]. unfold afterCall in Hr. by by_outcome Hr. }
  clear Hr. unfold afterCall in Hr'. destruct called as [result|ce]; [|by eapply finalizeFailure_settles].
  destruct (marshal_result result) as [payload|e] eqn:Hm; [|by eapply finalizeFailure_settles].
  step_try Hr'. match goal with H : st_Complete _ _ _ = (?r, _) |- _ => destruct r as [[]|e] end; by_outcome Hr'.
  by eapply Complete_settles.
Qed.

Lemma Run_settles w msg W o W' :
  inv (w_sys W) -> holds (fencedFrom msg (wk_workerID w)) W -> Run w msg W = (Ok (o, None), W') ->
  settled_as o (pm_ExecutionID msg) (s_db (w_sys W')).
Proof.
  intros Hinv Hh Hr. unfold Run in Hr. destruct (_ || _); [by by_outcome Hr|].
  unfold act_bind at 1, clock_Now, env_clock in Hr. step_try Hr.
  match goal with H : mat_Materialize _ _ _ = (?r, ?W1) |- _ =>
    destruct (triple_inv _ _ _ W r W1 (triple_any (holds _) _ (bs_materialize _ _)) Hh Hinv H) as [Hinv1 Hh1];
    destruct r as [m|e]; [|by by_outcome Hr] end.
  unfold act_bind at 1, act_get in Hr. destruct (prov_Complete _ _ _) as [evs called]. unfold act_bind at 1 in Hr.
  match type of Hr with context [during_call ?a ?b ?c ?d ?e ?W1] => destruct (during_call a b c d e W1) as [r2 W2] eqn:H2 end.
  destruct (triple_inv _ _ _ _ _ _ (during_call_triple w _ evs true None) Hh1 Hinv1 H2) as [Hinv2 Hh2].
  destruct r2 as [c|e]; [|done]. by eapply (afterCall_settles w (fencedFrom msg (wk_workerID w))).
Qed.
End pg.

(** Outcomes are truthful: whenever a run reports an outcome without an
    error, the board shows it - completed with the marshalled provider result,
    pending again with its next retry row, or failed with its one dead letter,
    in each case with the lease released. *)
Theorem run_outcome_truthful env `{!Provider World} `{!UuidText} w msg (W W' : World) o :
  fair env -> inv (w_sys W) -> holds (fencedFrom msg (wk_workerID w)) W ->
  @Run World (pg_store env) (pg_materializer env) (env_clock env) _ _ w msg W = (Ok (o, None), W') ->
  settled_as o (pm_ExecutionID msg) (s_db (w_sys W')).
Proof. intros Hfair Hinv Hh Hr. by eapply (Run_settles env Hfair). Qed.

(** ** A worker without its lease *)

Section quiet.
Variable env : nat -> Tick.
Hypothesis Hq : quiet env.
#[local] Hint Extern 0 (ExecutionStore World) => exact (pg_store env) : typeclass_instances.
#[local] Hint Extern 0 (Materializer World) => exact (pg_materializer env) : typeclass_instances.
#[local] Hint Extern 0 (Clock World) => exact (env_clock env) : typeclass_instances.
Context `{!Provider World} `{!UuidText}.

Lemma write_refused (op : time -> DB -> res err DB) W e :
  (forall now, op now (s_db (w_sys W)) = Err e) ->
  write env op W = (Err e, mkWorld (w_sys W) (S (w_at W)) (w_sent W)).
Proof. intros Hop. unfold write. rewrite tx_quiet by done. by rewrite Hop. Qed.

Lemma read_same {A} (op : time -> DB -> res err A) W : w_sys (read env op W).2 = w_sys W.
Proof.
  unfold read. rewrite tx_quiet by done. destruct (op _ _) as [a|e]; [|done]. by destruct W as [[db T] n l].
Qed.

Lemma during_call_fenced w f evs b c W :
  fenced_out f (s_db (w_sys W)) ->
  exists c' W', during_call w f evs b c W = (Ok c', W') /\ w_sys W' = w_sys W.
Proof.
  revert b c W. induction evs as [|[| |] evs IH]; intros b c W Hf; cbn [during_call]; try by apply IH.
  - by exists c, W.
  - destruct b; [|by apply IH]. unfold act_bind, act_try. cbn [st_Heartbeat pg_store].
    rewrite (write_refused (Heartbeat f (wk_leaseTTL w)) W ErrStaleLease)
      by (intros now; destruct (Hf now) as (Hp & _); apply Hp).
    apply (IH false _ (mkWorld (w_sys W) _ _) Hf).
Qed.

Lemma afterCall_fenced w f m called c W :
  fenced_out f (s_db (w_sys W)) ->
  exists e W', afterCall w f m called c W = (Ok (OutcomeAbandoned, e), W') /\ w_sys W' = w_sys W.
Proof.
  intros Hf.
  assert (forall cause, exists e W', finalizeFailure w f m cause W = (Ok (OutcomeAbandoned, e), W') /\ w_sys W' = w_sys W) as Hfin.
  { intros cause. unfold finalizeFailure, act_bind at 1, act_try at 1. cbn [st_PersistError pg_store].
    generalize (Classify (Some cause)), (goerror_Error cause). intros cl detail.
    rewrite (write_refused (PersistError f (ce_Code cl) (ce_Retry cl) detail) W ErrStaleLease)
      by (intros now; destruct (Hf now) as (_ & Hp & _); apply Hp). by eexists _, _. }
  assert (exists e W', afterCall w f m called None W = (Ok (OutcomeAbandoned, e), W') /\ w_sys W' = w_sys W) as Hk.
  { unfold afterCall. destruct called as [result|]; [|apply Hfin]. destruct (marshal_result result) as [p|]; [|apply Hfin].
    unfold act_bind at 1, act_try. cbn [st_Complete pg_store].
    rewrite (write_refused (Complete f p) W ErrStaleLease)
      by (intros now; destruct (Hf now) as (_ & _ & Hp & _); apply Hp). by eexists _, _. }
  destruct c as [[|]|]; [|exact Hk|exact Hk]. by eexists None, W.
Qed.

Lemma Run_fenced w msg W :
  fenced_out (fencedFrom msg (wk_workerID w)) (s_db (w_sys W)) ->
  exists o e W', Run w msg W = (Ok (o, e), W') /\ w_sys W' = w_sys W /\
    (o = OutcomeAbandoned \/ o = OutcomeDeadLettered /\ e = Some ErrInvalidInput).
Proof.
  intros Hf. unfold Run. destruct (_ || _); [eexists _, _, W; split_and!; [done|done|by right]|].
  unfold act_bind at 1, clock_Now, env_clock. unfold act_bind at 1, act_try at 1.
  pose proof (read_same (fun _ => Materialize (pm_WorkspaceID msg) (pm_ExecutionID msg)) W) as H1.
  change (read env (fun _ => Materialize (pm_WorkspaceID msg) (pm_ExecutionID msg)) W)
    with (mat_Materialize (pm_WorkspaceID msg) (pm_ExecutionID msg) W) in H1.
  destruct (mat_Materialize _ _ W) as [[m|e] W1]; simpl in H1; [|eexists _, _, W1; split_and!; [done|done|by left]].
  unfold act_bind at 1, act_get. destruct (prov_Complete _ _ _) as [evs called]. unfold act_bind at 1.
  rewrite <-H1 in Hf. destruct (during_call_fenced w _ evs true None W1 Hf) as (c & W2 & -> & H2). cbv beta iota.
  rewrite <-H2 in Hf. destruct (afterCall_fenced w _ m called c W2 Hf) as (e & W3 & E3 & H3).
  exists OutcomeAbandoned, e, W3. split; [exact E3|]. split; [congruence|by left].
Qed.
End quiet.

(** A stale worker is harmless: once its identity has been fenced out (by a
    takeover, a settlement or a cancellation), a run on a board nobody else
    writes to leaves every table as it was, and reports the attempt abandoned
    (or an invalid message, for nil identifiers). *)
Theorem stale_worker_harmless env `{!Provider World} `{!UuidText} w msg (W : World) :
  quiet env -> fenced_out (fencedFrom msg (wk_workerID w)) (s_db (w_sys W)) ->
  exists o e W', @Run World (pg_store env) (pg_materializer env) (env_clock env) _ _ w msg W = (Ok (o, e), W') /\
    w_sys W' = w_sys W /\ (o = OutcomeAbandoned \/ o = OutcomeDeadLettered /\ e = Some ErrInvalidInput).
Proof. intros Hq. by apply Run_fenced. Qed.

(** A well-formed message stops at materialization. *)
Lemma Run_abandons env `{!Provider World} `{!UuidText} w msg (W : World) :
  fair env -> reachable (w_sys W) ->
  ((pm_WorkspaceID msg =? uuid_Nil)%N || (pm_ExecutionID msg =? uuid_Nil)%N || (pm_RetryID msg =? uuid_Nil)%N) = false ->
  exists e W', @Run World (pg_store env) (pg_materializer env) (env_clock env) _ _ w msg W
                 = (Ok (OutcomeAbandoned, Some e), W') /\
    e <> ErrInvalidInput /\ w_sys W' = tk_others (env (w_at W)) (w_sys W).
Proof.
  intros Hfair Hr Hn. unfold Run. rewrite Hn.
  unfold act_bind at 1, clock_Now, env_clock. unfold act_bind, act_try. simpl. unfold read, tx.
  assert (reachable (tk_others (env (w_at W)) (w_sys W))) as Hr'.
  { destruct Hr as (emps & tasks & Hok & Hs). exists emps, tasks. split; [done|]. etrans; [exact Hs|apply Hfair]. }
  rewrite reachable_materialize by done. simpl.
  destruct (tk_fault _); (eexists _, _; split; [reflexivity|]; split; [discriminate|reflexivity]).
Qed.

(** No delivered attempt ever runs: in every reachable state the admission
    snapshot is missing, so a run stops at materialization - it abandons the
    attempt (or rejects a malformed message), calls no provider and writes
    nothing; only recovery moves the execution on. *)
Theorem runs_always_abandon env `{!Provider World} `{!UuidText} w msg (W : World) :
  fair env -> reachable (w_sys W) ->
  exists o e W', @Run World (pg_store env) (pg_materializer env) (env_clock env) _ _ w msg W = (Ok (o, Some e), W') /\
    (o = OutcomeAbandoned /\ w_sys W' = tk_others (env (w_at W)) (w_sys W) \/
     o = OutcomeDeadLettered /\ e = ErrInvalidInput /\ W' = W).
Proof.
  intros Hfair Hr.
  destruct ((pm_WorkspaceID msg =? uuid_Nil)%N || (pm_ExecutionID msg =? uuid_Nil)%N || (pm_RetryID msg =? uuid_Nil)%N) eqn:Hn.
  - unfold Run. rewrite Hn. eexists _, _, W. split; [done|]. by right.
  - destruct (Run_abandons env w msg W Hfair Hr Hn) as (e & W' & HR & _ & Hs). eexists _, _, W'. split; [exact HR|].
    by left.
Qed.

(** ** The runtime at work on the demonstration board *)

#[local] Hint Extern 0 (Provider World) => exact {| prov_Complete _ _ _ := ([Beat], Ok (mkCompletionResult "done")) |}
  : typeclass_instances.
#[local] Hint Extern 0 UuidText => exact unary_uuid : typeclass_instances.

Definition demo_env : nat -> Tick := calm 250.
Lemma demo_fair : fair demo_env.
Proof. apply quiet_fair, calm_quiet. Defined.
#[local] Hint Extern 0 (ExecutionStore World) => exact (pg_store demo_env) : typeclass_instances.
#[local] Hint Extern 0 (Materializer World) => exact (pg_materializer demo_env) : typeclass_instances.
#[local] Hint Extern 0 (Clock World) => exact (env_clock demo_env) : typeclass_instances.
#[local] Hint Extern 0 (Publisher World) => exact (env_publisher demo_env) : typeclass_instances.
#[local] Hint Extern 0 (BoardStore World) => exact (pg_board_store demo_env demo_fair) : typeclass_instances.

Lemma sweep_refines_board_witness :
  let W := mkWorld (mkSys demo1 []) 0 [] in
  steps (w_sys W) (w_sys (Sweep demo_dispatcher 1 7 W).2) /\ length (w_sent (Sweep demo_dispatcher 1 7 W).2) = 1.
Proof.
  split; [|vm_compute; reflexivity].
  refine (proj1 (sweep_refines_board demo_dispatcher 1 7 (mkWorld (mkSys demo1 []) 0 []) _)). discriminate.
Defined.

Definition demo_worker : Worker := mkWorker "worker-9" (30 * Second) (10 * Second) (20 * Second) Second (30 * Second).
Definition demo_msg : PublishMessage := dispatch_message (NewDispatcher "w1" (30 * Second) Second (30 * Second)) demo_f.
Definition demo_world : World := mkWorld demo_sys2 0 [demo_msg].

Lemma demo_sent_ok : sent_ok demo_world.
Proof. intros pm ->%list_elem_of_singleton. split; [discriminate|]. left. Qed.

Lemma worker_refines_board_witness :
  steps (w_sys demo_world) (w_sys (Run demo_worker demo_msg demo_world).2).
Proof. refine (proj1 (worker_refines_board demo_worker demo_msg demo_world demo_sent_ok _)). left. Defined.

Lemma fencedFrom_roundtrip_witness : fencedFrom demo_msg "worker-9" = demo_f.
Proof.
  apply (fencedFrom_roundtrip (NewDispatcher "w1" (30 * Second) Second (30 * Second)) "worker-9" 7 1 200 demo1 demo_f demo2);
    [discriminate|vm_compute; reflexivity].
Defined.

(** A board on which the snapshot of the execution is present. *)
Definition demo_context : ContextRow :=
  mkContext (Some 7%N) 1 (mkMaterialized "T" "D" "Ada" "analyst" "" "" ["x"; "y"]).

Lemma inv_with_contexts c db T : inv (mkSys db T) -> inv (mkSys (with_contexts c db) T).
Proof. intros Hi. by destruct Hi; constructor. Qed.

Definition demo_ready : World :=
  mkWorld (mkSys (with_contexts [demo_context] demo2) [token_of demo_f]) 0 [demo_msg].

Lemma run_outcome_truthful_witness :
  exists o W', Run demo_worker demo_msg demo_ready = (Ok (o, None), W') /\ o = OutcomeCompleted /\
    settled_as o 1 (s_db (w_sys W')).
Proof.
  destruct (Run demo_worker demo_msg demo_ready) as [r W'] eqn:Hr.
  assert (r = Ok (OutcomeCompleted, None)) as -> by (change r with (r, W').1; rewrite <-Hr; vm_compute; reflexivity).
  exists OutcomeCompleted, W'. split; [reflexivity|]. split; [reflexivity|].
  apply (run_outcome_truthful demo_env demo_worker demo_msg demo_ready W' OutcomeCompleted demo_fair).
  - apply inv_with_contexts, reachable_inv, demo_reachable2.
  - left.
  - exact Hr.
Defined.

Lemma demo_row_lookup db e : db_execs db !! 1%N = Some e -> e = demo_row db.
Proof. unfold demo_row. by intros ->. Qed.

Lemma demo_fenced_out : fenced_out (fencedFrom demo_msg "worker-9") (with_contexts [demo_context] demo2b).
Proof.
  apply stale_fenced_out. intros e ->%demo_row_lookup. vm_compute. reflexivity.
Qed.

(** The same message after another process took the lease over. *)
Lemma stale_worker_harmless_witness :
  let W := mkWorld (mkSys (with_contexts [demo_context] demo2b) [token_of demo_f]) 0 [demo_msg] in
  exists o e W', Run demo_worker demo_msg W = (Ok (o, e), W') /\ w_sys W' = w_sys W /\
    (o = OutcomeAbandoned \/ o = OutcomeDeadLettered /\ e = Some ErrInvalidInput).
Proof.
  apply (stale_worker_harmless demo_env demo_worker demo_msg); [apply calm_quiet|].
  exact demo_fenced_out.
Defined.

Lemma runs_always_abandon_witness :
  exists o e W', Run demo_worker demo_msg demo_world = (Ok (o, Some e), W') /\
    (o = OutcomeAbandoned /\ w_sys W' = demo_sys2 \/ o = OutcomeDeadLettered /\ e = ErrInvalidInput /\ W' = demo_world).
Proof. apply (runs_always_abandon demo_env demo_worker demo_msg demo_world demo_fair demo_reachable2). Defined.
