(* ===== verification/ExecService.v ===== *)
(** * internal/execution/service.go: admission, cancellation, lookup

    The admission gate with its idempotency rules, over the store port. *)

From S2P Require Import Prelude GoLib Execution ExecStore ExecInv ExecProps Ports PgStore Recovery.

Definition DefaultMaxAttempts : Z := 3.

Definition set_MaxAttempts (n : Z) (req : AdmitRequest) : AdmitRequest :=
  mkAdmit (a_WorkspaceID req) (a_AIEmployeeID req) (a_TaskID req) n (a_IdempotencyKey req) (a_Context req).

Definition sameRequest (req : AdmitRequest) (exec : Execution) : bool :=
  (x_AIEmployeeID exec =? a_AIEmployeeID req)%N && bool_decide (x_TaskID exec = a_TaskID req).

Section service.
Context `{UuidText}.

(** The canonical JSON whose digest fingerprints a request. *)
Definition canonical (req : AdmitRequest) : string :=
  "{" +:+ json_key "ai_employee_id" +:+ json_string (uuid_String (a_AIEmployeeID req))
  +:+ "," +:+ json_key "task_id"
  +:+ match a_TaskID req with None => "null" | Some t => json_string (uuid_String t) end
  +:+ "," +:+ json_key "max_attempts" +:+ strconv_Itoa (a_MaxAttempts req) +:+ "}".

Definition RequestHash (req : AdmitRequest) : string := sha256_hex (canonical req).

Context {S : Type} `{ExecutionStore S}.

(** An attempt budget that is not positive means the default one. *)
Definition normalized (req : AdmitRequest) : AdmitRequest :=
  if (a_MaxAttempts req <=? 0)%Z then set_MaxAttempts DefaultMaxAttempts req else req.

Definition Admit (req : AdmitRequest) : act S err AdmitResult :=
  require! negb (a_WorkspaceID req =? uuid_Nil)%N else ErrWorkspaceMismatch ;;
  require! negb (a_AIEmployeeID req =? uuid_Nil)%N else ErrInvalidInput ;;
  let req := normalized req in
  let hash := RequestHash req in
  res <~ st_AdmissionAdmit req hash ;;
  if negb (ar_Created res)
     && (negb (sameRequest req (ar_Execution res)) || negb (String.eqb (x_RequestHash (ar_Execution res)) hash))
  then act_fail ErrIdempotencyKey
  else act_ret res.

Definition Service_Cancel (ws id : uuid) : act S err unit := st_Cancel ws id.
Definition Service_Get (ws id : uuid) : act S err Execution := st_Get ws id.
End service.

(** ** The fingerprint determines the payload *)

Section hash.
Context `{UuidTextLaws}.

Definition same_payload (r r' : AdmitRequest) : Prop :=
  a_AIEmployeeID r = a_AIEmployeeID r' /\ a_TaskID r = a_TaskID r' /\ a_MaxAttempts r = a_MaxAttempts r'.

Lemma app_prefix_inj p s t : bytes (p +:+ s) = bytes (p +:+ t) -> bytes s = bytes t.
Proof. rewrite !bytes_app. apply (inj (app (bytes p))). Qed.

(** A quoted identifier at the head of a text can be read off. *)
Lemma quoted_uuid_inj u v s t :
  bytes (json_string (uuid_String u) +:+ s) = bytes (json_string (uuid_String v) +:+ t) ->
  u = v /\ bytes s = bytes t.
Proof.
  rewrite !json_string_plain_id by apply uuid_String_plain.
  rewrite !bytes_app. simpl. intros [= Heq].
  rewrite <-!(assoc_L (++)) in Heq. simpl in Heq.
  apply split_at_sep in Heq as [Hu Hs]; [|by apply json_plain_no_quote, uuid_String_plain..].
  split; [|done]. by apply bytes_inj, (inj uuid_String) in Hu.
Qed.

Lemma canonical_inj r r' : canonical r = canonical r' -> same_payload r r'.
Proof.
  unfold canonical. intros Heq%(f_equal bytes).
  apply app_prefix_inj in Heq. apply app_prefix_inj in Heq. apply quoted_uuid_inj in Heq as [HE Heq].
  apply app_prefix_inj in Heq. apply app_prefix_inj in Heq.
  assert (a_TaskID r = a_TaskID r' /\
    bytes ("," +:+ json_key "max_attempts" +:+ strconv_Itoa (a_MaxAttempts r) +:+ "}") =
    bytes ("," +:+ json_key "max_attempts" +:+ strconv_Itoa (a_MaxAttempts r') +:+ "}")) as [HT Hn].
  { destruct (a_TaskID r) as [t|], (a_TaskID r') as [t'|].
    - apply quoted_uuid_inj in Heq as [-> ?]. done.
    - rewrite json_string_plain_id in Heq by apply uuid_String_plain. done.
    - rewrite json_string_plain_id in Heq by apply uuid_String_plain. done.
    - by apply app_prefix_inj in Heq. }
  apply app_prefix_inj in Hn. apply app_prefix_inj in Hn. rewrite !bytes_app in Hn.
  apply (inj (fun l => l ++ bytes "}")), bytes_inj, (inj pretty) in Hn. done.
Qed.

(** The request fingerprint binds the payload: two admission requests with
    one fingerprint ask for the same employee, task and attempt budget, unless
    their two canonical forms collide under SHA-256. *)
Theorem RequestHash_binds r r' :
  collision_free [bytes (canonical r); bytes (canonical r')] ->
  RequestHash r = RequestHash r' -> same_payload r r'.
Proof. intros Hc Heq. by apply canonical_inj, sha256_hex_binds. Qed.
End hash.

(** ** Idempotent admission *)

Lemma steps_row s s' id e :
  inv s -> steps s s' -> db_execs (s_db s) !! id = Some e ->
  exists e', db_execs (s_db s') !! id = Some e' /\ same_identity e e'.
Proof.
  intros Hinv Hs. revert e Hinv. induction Hs as [s|s1 s2 s3 Hst _ IH]; intros e Hinv He; [by exists e|].
  destruct (step_simulates _ _ Hinv Hst id e He) as (e2 & He2 & Hsame & _).
  destruct (IH e2) as (e3 & He3 & Hsame3); [by eapply inv_step|done|].
  exists e3. split; [done|]. unfold same_identity in *. naive_solver congruence.
Qed.

(** The row an idempotency key stands for. *)
Definition keyed (ws : uuid) (key : string) (e : Execution) : Prop :=
  x_WorkspaceID e = ws /\ x_IdempotencyKey e = Some key.

Lemma by_key_spec ws key e : by_key ws key e = true <-> keyed ws key e.
Proof.
  unfold by_key, visible, keyed. rewrite andb_true_iff, N.eqb_eq.
  destruct (x_IdempotencyKey e) as [k|]; [rewrite String.eqb_eq|]; naive_solver.
Qed.

Lemma find_by_key_Some ws key db e :
  find_by_key ws key db = Some e -> exists i, db_execs db !! i = Some e /\ keyed ws key e.
Proof.
  unfold find_by_key. destruct (filter _ _) as [|[i x] l] eqn:Hf; [done|]. simpl. intros [= ->].
  assert ((i, e) ∈ filter (fun kv : uuid * Execution => by_key ws key kv.2 = true) (map_to_list (db_execs db)))
    as Hin by (rewrite Hf; left).
  apply list_elem_of_filter in Hin as [Hk Hin%elem_of_map_to_list]. exists i. by rewrite <-by_key_spec.
Qed.

Lemma same_key_keyed ws key e e' : keyed ws key e -> keyed ws key e' -> same_key e e' = true.
Proof. intros [<- Hk] [Hw Hk']. unfold same_key. rewrite Hk, Hk', Hw. by rewrite N.eqb_refl, String.eqb_refl. Qed.

Lemma find_by_key_unique s ws key i e :
  inv s -> db_execs (s_db s) !! i = Some e -> keyed ws key e -> find_by_key ws key (s_db s) = Some e.
Proof.
  intros Hinv He Hk. unfold find_by_key. destruct (filter _ _) as [|[j x] l] eqn:Hf.
  - assert ((i, e) ∈ filter (fun kv : uuid * Execution => by_key ws key kv.2 = true) (map_to_list (db_execs (s_db s))))
      as Hin by (apply list_elem_of_filter; split; [by apply by_key_spec|by apply elem_of_map_to_list]).
    rewrite Hf in Hin. by apply elem_of_nil in Hin.
  - assert ((j, x) ∈ filter (fun kv : uuid * Execution => by_key ws key kv.2 = true) (map_to_list (db_execs (s_db s))))
      as Hin by (rewrite Hf; left).
    apply list_elem_of_filter in Hin as [Hx%by_key_spec Hj%elem_of_map_to_list]. simpl in *.
    assert (i = j) as -> by (by eapply (i_keys _ Hinv); [exact He|exact Hj|eapply same_key_keyed]). by simplify_eq.
Qed.

Section idempotency.
Context `{UuidTextLaws}.
Variable env : nat -> Tick.
Hypothesis Hfair : fair env.
#[local] Hint Extern 0 (ExecutionStore World) => exact (pg_store env) : typeclass_instances.

(** The execution an admitted request is bound to. *)
Definition bound_to (req : AdmitRequest) (e : Execution) : Prop :=
  keyed (a_WorkspaceID req) (a_IdempotencyKey req) e /\ x_RequestHash e = RequestHash (normalized req) /\
  x_AIEmployeeID e = a_AIEmployeeID req /\ x_TaskID e = a_TaskID req.

Lemma normalized_fields req :
  a_WorkspaceID (normalized req) = a_WorkspaceID req /\ a_AIEmployeeID (normalized req) = a_AIEmployeeID req /\
  a_TaskID (normalized req) = a_TaskID req /\ a_IdempotencyKey (normalized req) = a_IdempotencyKey req /\
  (0 < a_MaxAttempts (normalized req))%Z.
Proof. unfold normalized. destruct (Z.leb_spec (a_MaxAttempts req) 0); done. Qed.

Lemma sameRequest_spec req e :
  sameRequest req e = true <-> x_AIEmployeeID e = a_AIEmployeeID req /\ x_TaskID e = a_TaskID req.
Proof. unfold sameRequest. by rewrite andb_true_iff, N.eqb_eq, bool_decide_eq_true. Qed.

(** An accepted request leaves the row it is bound to on the board. *)
Lemma Admit_binds req W r W' :
  reachable (w_sys W) -> a_IdempotencyKey req <> ""%string -> Admit req W = (Ok r, W') ->
  reachable (w_sys W') /\ a_WorkspaceID req <> uuid_Nil /\
  exists e, db_execs (s_db (w_sys W')) !! x_ID (ar_Execution r) = Some e /\ bound_to req e.
Proof.
  intros Hr Hkey Ha. unfold Admit in Ha.
  destruct (a_WorkspaceID req =? uuid_Nil)%N eqn:Hws; [done|]. cbn [negb] in Ha.
  destruct (a_AIEmployeeID req =? uuid_Nil)%N; [done|]. cbn [negb] in Ha.
  apply act_bind_Ok in Ha as (res & W1 & Ha & Hk).
  destruct (normalized_fields req) as (EW & EE & ET & EK & Hpos).
  destruct (negb (ar_Created res) && _) eqn:Hchk; [done|]. unfold act_ret in Hk. simplify_eq.
  simpl in Ha. unfold tx in Ha.
  assert (reachable (tk_others (env (w_at W)) (w_sys W))) as Hr1.
  { destruct Hr as (emps & tasks & Hok & Hs). exists emps, tasks. split; [done|]. etrans; [exact Hs|apply Hfair]. }
  destruct (tk_others _ (w_sys W)) as [db T]. destruct (tk_fault _) as [|?|ap ?]; [|done|].
  2: { by destruct (AdmissionAdmit _ _ _ _) as [[? ?]|]; simplify_eq/=. }
  destruct (AdmissionAdmit _ _ _ _) as [[r' db']|e] eqn:Hadm; [|done]. simplify_eq/=.
  assert (reachable (mkSys db' T)) as Hr2 by (eapply reachable_step; [exact Hr1|by eapply step_admit]).
  split_and!; [done|by apply N.eqb_neq|].
  apply AdmissionAdmit_Ok in Hadm as
    [(HC & -> & _ & Hf)|(cap & e & rt & ctx & -> & -> & HC & -> & _ & _ & _ & _ & _ & ->)].
  - apply find_by_key_Some in Hf as (i & He & Hkd). rewrite EW, EK in Hkd.
    destruct (i_exec _ (reachable_inv _ Hr1) _ _ He) as (HI & _). simpl in *.
    exists (ar_Execution r). rewrite HI. split; [done|]. rewrite HC in Hchk. simpl in Hchk. bool_prop.
    match goal with H : sameRequest _ _ = true |- _ => apply sameRequest_spec in H as [HE HT] end.
    split_and!; [done|done|congruence|congruence].
  - eexists. simpl. rewrite lookup_insert_eq. split; [done|].
    split_and!; simpl; try done. split; simpl; [done|]. rewrite EK. unfold nullableString.
    by apply String.eqb_neq in Hkey as ->.
Qed.

(** A keyed request that meets its row again. *)
Lemma Admit_existing req e W :
  let s := tk_others (env (w_at W)) (w_sys W) in
  inv s -> db_execs (s_db s) !! x_ID e = Some e -> keyed (a_WorkspaceID req) (a_IdempotencyKey req) e ->
  tk_fault (env (w_at W)) = NoFault -> a_WorkspaceID req <> uuid_Nil -> a_AIEmployeeID req <> uuid_Nil ->
  a_IdempotencyKey req <> ""%string ->
  exists W', w_sys W' = s /\
    Admit req W =
      (if sameRequest req e && String.eqb (x_RequestHash e) (RequestHash (normalized req))
       then Ok (mkAdmitResult e false (bool_decide (x_Status e = StatusCompleted)))
       else Err ErrIdempotencyKey, W').
Proof.
  intros s Hinv He Hk HF Hws%N.eqb_neq Hemp%N.eqb_neq Hkey%String.eqb_neq.
  destruct (normalized_fields req) as (EW & EE & ET & EK & Hpos).
  exists (mkWorld s (S (w_at W)) (w_sent W)). split; [done|].
  unfold Admit. rewrite Hws, Hemp. cbn [negb]. unfold act_bind. simpl. unfold tx. fold s. rewrite HF.
  unfold AdmissionAdmit. rewrite EW, EK, Hkey, (find_by_key_unique _ _ _ _ _ Hinv He Hk). simpl.
  assert (sameRequest (normalized req) e = sameRequest req e) as ->
    by (unfold sameRequest; by rewrite EE, ET).
  destruct s as [db T]. by destruct (sameRequest req e), (String.eqb (x_RequestHash e) (RequestHash (normalized req))).
Qed.

Lemma Admit_again req req' s e W :
  reachable s -> db_execs (s_db s) !! x_ID e = Some e -> bound_to req e -> steps s (w_sys W) ->
  tk_fault (env (w_at W)) = NoFault ->
  a_WorkspaceID req' = a_WorkspaceID req -> a_IdempotencyKey req' = a_IdempotencyKey req ->
  a_WorkspaceID req <> uuid_Nil -> a_IdempotencyKey req <> ""%string -> a_AIEmployeeID req' <> uuid_Nil ->
  let '(res, W') := Admit req' W in
  w_sys W' = tk_others (env (w_at W)) (w_sys W) /\
  (same_payload (normalized req) (normalized req') ->
     exists r', res = Ok r' /\ ar_Created r' = false /\ x_ID (ar_Execution r') = x_ID e) /\
  (~ same_payload (normalized req) (normalized req') ->
     collision_free [bytes (canonical (normalized req)); bytes (canonical (normalized req'))] ->
     res = Err ErrIdempotencyKey).
Proof.
  intros Hr He (Hk & Hh & HE & HT) Hs HF EW EK Hws Hkey Hemp.
  assert (steps s (tk_others (env (w_at W)) (w_sys W))) as Hs2 by (etrans; [exact Hs|apply Hfair]).
  destruct (steps_row _ _ _ _ (reachable_inv _ Hr) Hs2 He) as (e2 & He2 & Hsame).
  destruct Hsame as (SI & SW & SE & SM & SK & ST & SH).
  rewrite <-SI in He2. rewrite <-EW in Hk, Hws. rewrite <-EK in Hk, Hkey.
  destruct (Admit_existing req' e2 W) as (W' & HW' & ->); try done.
  { by eapply inv_steps; [apply reachable_inv|]. }
  { destruct Hk. split; congruence. }
  destruct (normalized_fields req) as (_ & E1 & T1 & _), (normalized_fields req') as (_ & E2 & T2 & _).
  split_and!; [done| |].
  - intros Hp. assert (sameRequest req' e2 = true) as ->.
    { destruct Hp as (P1 & P2 & _). apply sameRequest_spec. split; congruence. }
    assert (RequestHash (normalized req') = RequestHash (normalized req)) as ->.
    { destruct Hp as (P1 & P2 & P3). unfold RequestHash, canonical. by rewrite P1, P2, P3. }
    rewrite SH, Hh, String.eqb_refl. simpl. by eexists.
  - intros Hp Hc. destruct (sameRequest req' e2); [|done]. simpl.
    destruct (String.eqb _ _) eqn:Hheq; [|done]. apply String.eqb_eq in Hheq.
    rewrite SH, Hh in Hheq. by apply (sha256_hex_binds _ _ Hc), canonical_inj in Hheq.
Qed.
End idempotency.

(** C32. Admission is idempotent per key: once a keyed request has been accepted,
    a later request with the same workspace and key, whatever happened to the
    board in between, creates nothing.  With the same payload it gets the same
    execution back; with another payload, one whose canonical form does not
    collide with the first's under SHA-256, it is refused as a conflicting key. *)
Theorem admit_idempotent `{UuidTextLaws} env req req' W W1 r W2 :
  fair env -> reachable (w_sys W) -> a_IdempotencyKey req <> ""%string ->
  @Admit _ World (pg_store env) req W = (Ok r, W1) -> steps (w_sys W1) (w_sys W2) ->
  tk_fault (env (w_at W2)) = NoFault -> a_AIEmployeeID req' <> uuid_Nil ->
  a_WorkspaceID req' = a_WorkspaceID req -> a_IdempotencyKey req' = a_IdempotencyKey req ->
  let '(res, W3) := @Admit _ World (pg_store env) req' W2 in
  w_sys W3 = tk_others (env (w_at W2)) (w_sys W2) /\
  (same_payload (normalized req) (normalized req') ->
     exists r', res = Ok r' /\ ar_Created r' = false /\ x_ID (ar_Execution r') = x_ID (ar_Execution r)) /\
  (~ same_payload (normalized req) (normalized req') ->
     collision_free [bytes (canonical (normalized req)); bytes (canonical (normalized req'))] ->
     res = Err ErrIdempotencyKey).
Proof.
  intros Hfair Hr Hkey Ha Hs HF Hemp EW EK.
  destruct (Admit_binds env Hfair _ _ _ _ Hr Hkey Ha) as (Hr1 & Hws & e & He & Hb).
  destruct (i_exec _ (reachable_inv _ Hr1) _ _ He) as (HI & _). rewrite <-HI in He |- *.
  by apply (Admit_again env Hfair req req' (w_sys W1) e W2).
Qed.

(** ** Admission at work *)

Definition demo_keyed (emp : uuid) : AdmitRequest := mkAdmit 7 emp None 0 "k1" None.
Definition demo_start : World := mkWorld (initial demo_emps ∅) 0 [].
#[local] Hint Extern 0 UuidText => exact unary_uuid : typeclass_instances.
#[local] Hint Extern 0 UuidTextLaws => exact unary_uuid_laws : typeclass_instances.
#[local] Hint Extern 0 (ExecutionStore World) => exact (pg_store (calm 100)) : typeclass_instances.

Lemma RequestHash_binds_witness :
  same_payload (mkAdmit 7 5 None 3 "a" None) (mkAdmit 8 5 None 3 "b" None).
Proof. apply RequestHash_binds; [by apply collision_free_pair|vm_compute; reflexivity]. Defined.

Lemma demo_initial_reachable : reachable (initial demo_emps ∅).
Proof. exists demo_emps, ∅. split; [by apply map_Forall_singleton|apply rtc_refl]. Qed.

Lemma admit_idempotent_witness :
  exists r W1, Admit (demo_keyed 5) demo_start = (Ok r, W1) /\ ar_Created r = true /\
  (exists r', (Admit (demo_keyed 5) W1).1 = Ok r' /\ ar_Created r' = false) /\
  (Admit (demo_keyed 6) W1).1 = Err ErrIdempotencyKey.
Proof.
  destruct (Admit (demo_keyed 5) demo_start) as [res W1] eqn:Ha.
  assert (is_ok res = true /\ match res with Ok r => ar_Created r | Err _ => false end = true) as [Hok HC].
  { change res with (res, W1).1. rewrite <-Ha. vm_compute. split; reflexivity. }
  destruct res as [r|e]; [|discriminate]. exists r, W1. split; [reflexivity|]. split; [exact HC|].
  pose proof (fun emp => admit_idempotent (calm 100) (demo_keyed 5) (demo_keyed emp) demo_start W1 r W1
    (quiet_fair _ (calm_quiet 100)) demo_initial_reachable ltac:(discriminate) Ha (rtc_refl _ _) eq_refl)
    as Hres.
  split.
  - specialize (Hres 5%N ltac:(discriminate) eq_refl eq_refl).
    destruct (Admit (demo_keyed 5) W1) as [res W3]. destruct Hres as (_ & Hsame & _).
    destruct (Hsame (conj eq_refl (conj eq_refl eq_refl))) as (r' & -> & HC' & _).
    exists r'. split; [reflexivity|exact HC'].
  - specialize (Hres 6%N ltac:(discriminate) eq_refl eq_refl).
    destruct (Admit (demo_keyed 6) W1) as [res W3]. destruct Hres as (_ & _ & Hdiff).
    apply Hdiff; [intros [? _]; discriminate|].
    apply collision_free_pair. intros HC'. vm_compute in HC'. discriminate.
Defined.
