(* ===== verification/Throttle.v ===== *)
(** * internal/security/throttle.go and internal/api/ratelimit.go

    The two fixed-window limiters: the per-key throttler of the domain services
    and the bounded-table rate limiter in front of the authentication routes. *)

From S2P Require Import Prelude Oldest.

(** ** security.Throttler *)

Record bucket : Type := mkBucket { b_count : Z; b_opened : time }.

(** [lastPrune] starts as the zero [time.Time], centuries before any clock. *)
Record Throttler : Type := mkThrottler {
  th_window : duration;
  th_limit : Z;
  th_buckets : gmap string bucket;
  th_lastPrune : option time
}.

Definition pruneThreshold : nat := 4096.

Definition NewThrottler (window : duration) (limit : Z) : Throttler :=
  mkThrottler (if (window <=? 0)%Z then Minute else window) (if (limit <=? 0)%Z then 1%Z else limit) ∅ None.

Definition live (window : duration) (now : time) (b : bucket) : Prop := (now - b_opened b < window)%Z.
#[export] Instance live_dec window now b : Decision (live window now b).
Proof. unfold live. apply _. Defined.

Definition with_buckets (m : gmap string bucket) (t : Throttler) : Throttler :=
  mkThrottler (th_window t) (th_limit t) m (th_lastPrune t).

Definition pruneLocked (now : time) (t : Throttler) : Throttler :=
  mkThrottler (th_window t) (th_limit t)
    (filter (fun kv : string * bucket => live (th_window t) now kv.2) (th_buckets t)) (Some now).

Definition prune_due (now : time) (t : Throttler) : bool :=
  bool_decide (pruneThreshold <= size (th_buckets t))
  && match th_lastPrune t with None => true | Some p => (Minute <? now - p)%Z end.

(** The bucket a hit of [key] counts against. *)
Definition current_bucket (key : string) (now : time) (t : Throttler) : bucket :=
  match th_buckets t !! key with
  | Some b => if bool_decide (live (th_window t) now b) then b else mkBucket 0 now
  | None => mkBucket 0 now
  end.

Definition Allow (key : string) (now : time) (t : Throttler) : bool * Throttler :=
  let b := current_bucket key now t in
  if (th_limit t <=? b_count b)%Z then
    (false, with_buckets (<[key := b]> (th_buckets t)) t)
  else
    let t' := with_buckets (<[key := mkBucket (b_count b + 1) (b_opened b)]> (th_buckets t)) t in
    (true, if prune_due now t' then pruneLocked now t' else t').

Definition Reset (key : string) (t : Throttler) : Throttler :=
  with_buckets (delete key (th_buckets t)) t.

(** *** Call sequences *)

(** The instants at which [key] was admitted, latest first. *)
Fixpoint admitted (key : string) (calls : list (string * time)) (t : Throttler) : list time :=
  match calls with
  | [] => []
  | (k, now) :: calls' =>
      let '(ok, t') := Allow k now t in
      admitted key calls' t' ++ (if ok && String.eqb k key then [now] else [])
  end.

(** Clock readings never decrease along the calls. *)
Fixpoint in_order (from : time) (calls : list (string * time)) : Prop :=
  match calls with
  | [] => True
  | (_, now) :: calls' => (from <= now)%Z /\ in_order now calls'
  end.

Definition within (a w x : Z) : Prop := (a <= x < a + w)%Z.
#[export] Instance within_dec a w x : Decision (within a w x).
Proof. unfold within. apply _. Defined.

Definition count_within (a w : Z) (l : list time) : nat := length (filter (within a w) l).

(** *** Groups of admissions

    The admissions of one key fall into groups, one per window it opened: at
    most [limit] hits each, all inside the window, and windows of one key do
    not overlap. *)

Record group : Type := mkGroup { g_opened : time; g_hits : list time }.

Definition group_ok (w limit : Z) (g : group) : Prop :=
  (Z.of_nat (length (g_hits g)) <= limit)%Z /\ Forall (within (g_opened g) w) (g_hits g).

Fixpoint spaced (w : Z) (gs : list group) : Prop :=
  match gs with
  | [] => True
  | g :: gs' => match gs' with [] => True | g' :: _ => (g_opened g' + w <= g_opened g)%Z end /\ spaced w gs'
  end.

Definition near (a w : Z) (g : group) : Prop := (a - w < g_opened g < a + w)%Z.
#[export] Instance near_dec a w g : Decision (near a w g).
Proof. unfold near. apply _. Defined.

Lemma spaced_head w g gs : (0 < w)%Z -> spaced w (g :: gs) -> Forall (fun g' => (g_opened g' + w <= g_opened g)%Z) gs.
Proof.
  intros Hw. revert g. induction gs as [|g' gs IH]; intros g [Hg Hs]; [done|].
  constructor; [done|]. eapply Forall_impl; [by apply IH|]. simpl. lia.
Qed.

Lemma spaced_tail w g gs : spaced w (g :: gs) -> spaced w gs.
Proof. by intros [_ Hs]. Qed.

(** Below a window that reaches into the interval, at most one more does. *)
Lemma near_below a w g gs : (0 < w)%Z -> (g_opened g < a + w)%Z -> spaced w gs ->
  Forall (fun g' => (g_opened g' + w <= g_opened g)%Z) gs -> length (filter (near a w) gs) <= 1.
Proof.
  intros Hw Hg Hs Hf. induction gs as [|g1 gs IH]; [simpl; lia|].
  apply Forall_cons in Hf as [H1 Hf]. rewrite filter_cons. case_decide as Hn.
  - rewrite filter_none; [simpl; lia|]. eapply Forall_impl; [by apply (spaced_head w g1)|].
    unfold near in *. simpl. lia.
  - apply IH; [by apply (spaced_tail w g1)|done].
Qed.

(** At most two windows reach into an interval of one window's length. *)
Lemma near_two a w gs : (0 < w)%Z -> spaced w gs -> length (filter (near a w) gs) <= 2.
Proof.
  intros Hw. induction gs as [|g gs IH]; intros Hs; [simpl; lia|].
  rewrite filter_cons. case_decide as Hn; [|by apply IH, (spaced_tail w g)].
  simpl. enough (length (filter (near a w) gs) <= 1) by lia.
  apply (near_below a w g); [done|unfold near in Hn; lia|by apply (spaced_tail w g)|by apply spaced_head].
Qed.

Definition all_hits (gs : list group) : list time := concat (map g_hits gs).

Lemma count_app a w l l' : count_within a w (l ++ l') = count_within a w l + count_within a w l'.
Proof. unfold count_within. by rewrite filter_app, length_app. Qed.

Lemma count_group a w limit g :
  group_ok w limit g ->
  (Z.of_nat (count_within a w (g_hits g)) <= if decide (near a w g) then limit else 0)%Z.
Proof.
  intros [Hlen Hin]. unfold count_within. case_decide as Hn.
  - pose proof (length_filter (within a w) (g_hits g)). lia.
  - assert (filter (within a w) (g_hits g) = []) as ->; [|done].
    induction Hin as [|x l Hx _ IH]; [done|]. simpl in Hlen.
    rewrite filter_cons_False; [apply IH; lia|]. unfold within, near in *. lia.
Qed.

Lemma count_groups a w limit gs :
  (0 < limit)%Z -> Forall (group_ok w limit) gs ->
  (Z.of_nat (count_within a w (all_hits gs)) <= limit * Z.of_nat (length (filter (near a w) gs)))%Z.
Proof.
  intros Hl. induction 1 as [|g gs Hg _ IH]; [change (0 <= limit * 0)%Z; lia|].
  unfold all_hits. simpl. rewrite count_app, filter_cons. fold (all_hits gs).
  pose proof (count_group a w limit g Hg). case_decide; simpl; lia.
Qed.

(** *** The invariant of a call sequence *)

(** [gs] are the groups of [key] so far; the bucket on record, if any, is the
    newest group. *)
Definition tracks (key : string) (now : time) (t : Throttler) (gs : list group) : Prop :=
  (0 < th_window t)%Z /\ (0 < th_limit t)%Z /\
  Forall (group_ok (th_window t) (th_limit t)) gs /\ spaced (th_window t) gs /\
  match th_buckets t !! key with
  | Some b => exists g gs', gs = g :: gs' /\ g_opened g = b_opened b /\
      b_count b = Z.of_nat (length (g_hits g)) /\ (b_opened b <= now)%Z
  | None => match gs with [] => True | g :: _ => (g_opened g + th_window t <= now)%Z end
  end.

Lemma tracks_later key now now' t gs : (now <= now')%Z -> tracks key now t gs -> tracks key now' t gs.
Proof.
  intros Hle (Hw & Hl & Hg & Hs & Hb). split_and!; try done.
  destruct (th_buckets t !! key) as [b|].
  - destruct Hb as (g & gs' & ? & ? & ? & ?). exists g, gs'. split_and!; try done. lia.
  - destruct gs; [done|]. lia.
Qed.

Lemma tracks_prune key now t gs : tracks key now t gs -> tracks key now (pruneLocked now t) gs.
Proof.
  intros (Hw & Hl & Hg & Hs & Hb). split_and!; try done. simpl.
  destruct (th_buckets t !! key) as [b|] eqn:Hk.
  - destruct (decide (live (th_window t) now b)) as [Hlive|Hdead].
    + rewrite (map_lookup_filter_Some_2 _ _ key b) by done. done.
    + rewrite map_lookup_filter_None_2 by (right; intros x Hx; by simplify_eq).
      destruct Hb as (g & gs' & -> & HO & _ & _). unfold live in Hdead. lia.
  - by rewrite map_lookup_filter_None_2 by (by left).
Qed.

Lemma tracks_insert_other key k b now t gs :
  k <> key -> tracks key now t gs -> tracks key now (with_buckets (<[k := b]> (th_buckets t)) t) gs.
Proof. intros Hne (Hw & Hl & Hg & Hs & Hb). split_and!; try done. simpl. by rewrite lookup_insert_ne. Qed.

(** Counting a hit in the key's current window. *)
Lemma tracks_hit key now t gs :
  let b := current_bucket key now t in
  tracks key now t gs -> (b_count b < th_limit t)%Z ->
  exists gs', tracks key now (with_buckets (<[key := mkBucket (b_count b + 1) (b_opened b)]> (th_buckets t)) t) gs' /\
    all_hits gs' = now :: all_hits gs.
Proof.
  intros b (Hw & Hl & Hg & Hs & Hb) Hlt.
  assert (forall g0 gs0, gs = g0 :: gs0 -> (g_opened g0 + th_window t <= now)%Z ->
    b = mkBucket 0 now -> exists gs', tracks key now
      (with_buckets (<[key := mkBucket (b_count b + 1) (b_opened b)]> (th_buckets t)) t) gs' /\
    all_hits gs' = now :: all_hits gs) as Hnew.
  { intros g0 gs0 -> H0 ->. exists (mkGroup now [now] :: g0 :: gs0). split; [|done].
    split_and!; simpl; try done.
    - constructor; [|done]. split; [simpl; lia|]. constructor; [|done]. unfold within. simpl. lia.
    - rewrite lookup_insert_eq. eexists _, _. split_and!; done. }
  assert (b = mkBucket 0 now -> gs = [] -> exists gs', tracks key now
      (with_buckets (<[key := mkBucket (b_count b + 1) (b_opened b)]> (th_buckets t)) t) gs' /\
    all_hits gs' = now :: all_hits gs) as Hfirst.
  { intros -> ->. exists [mkGroup now [now]]. split; [|done]. split_and!; simpl; try done.
    - constructor; [|done]. split; [simpl; lia|]. constructor; [|done]. unfold within. simpl. lia.
    - rewrite lookup_insert_eq. eexists _, _. split_and!; done. }
  subst b. unfold current_bucket in *. destruct (th_buckets t !! key) as [b|] eqn:Hk.
  - destruct Hb as (g & gs0 & -> & HO & HC & Hle). case_bool_decide as Hlive.
    + exists (mkGroup (g_opened g) (now :: g_hits g) :: gs0). split; [|done].
      apply Forall_cons in Hg as [[Hlen Hin] Hg]. split_and!; simpl; try done.
      * constructor; [|done]. split; simpl; [lia|]. constructor; [|done].
        unfold live in Hlive. unfold within. lia.
      * rewrite lookup_insert_eq. eexists _, _. split_and!; simpl; try done. cbn [g_hits length]. lia.
    + unfold live in Hlive. apply (Hnew g gs0); [done|lia|done].
  - destruct gs as [|g gs0]; [by apply Hfirst|by apply (Hnew g gs0)].
Qed.

Lemma Allow_tracks key k now t gs :
  tracks key now t gs ->
  let '(ok, t') := Allow k now t in
  exists gs', tracks key now t' gs' /\
    all_hits gs' = (if ok && String.eqb k key then [now] else []) ++ all_hits gs.
Proof.
  intros Ht. unfold Allow. destruct (Z.leb_spec (th_limit t) (b_count (current_bucket k now t))) as [Hd|Ha].
  - exists gs. split; [|done]. destruct (decide (k = key)) as [->|Hne]; [|by apply tracks_insert_other].
    destruct Ht as (Hw & Hl & Hg & Hs & Hb). split_and!; try done. simpl. rewrite lookup_insert_eq.
    unfold current_bucket in *. destruct (th_buckets t !! key) as [b|] eqn:Hk; [|simpl in Hd; lia].
    case_bool_decide; [done|simpl in Hd; lia].
  - set (t1 := with_buckets _ t).
    assert (exists gs', tracks key now t1 gs' /\
      all_hits gs' = (if String.eqb k key then [now] else []) ++ all_hits gs) as (gs' & Ht' & Hh).
    { destruct (String.eqb_spec k key) as [->|Hne]; [by apply tracks_hit|].
      exists gs. split; [|done]. by apply tracks_insert_other. }
    destruct (prune_due now t1); exists gs'; (split; [|done]); [by apply tracks_prune|done].
Qed.

Lemma admitted_tracks key calls from t gs :
  tracks key from t gs -> in_order from calls ->
  exists now t' gs', tracks key now t' gs' /\ th_window t' = th_window t /\ th_limit t' = th_limit t /\
    all_hits gs' = admitted key calls t ++ all_hits gs.
Proof.
  revert from t gs. induction calls as [|[k now] calls IH]; intros from t gs Ht Ho.
  { exists from, t, gs. split_and!; done. }
  destruct Ho as [Hle Ho]. apply (tracks_later _ _ now) in Ht; [|done].
  pose proof (Allow_tracks key k now t gs Ht) as Hstep. simpl. destruct (Allow k now t) as [ok t1] eqn:Ha.
  destruct Hstep as (gs1 & Ht1 & Hh1). destruct (IH now t1 gs1 Ht1 Ho) as (n & t' & gs' & Ht' & HW & HL & Hh).
  assert (th_window t1 = th_window t /\ th_limit t1 = th_limit t) as [E1 E2].
  { unfold Allow in Ha. destruct (_ <=? _)%Z; [by simplify_eq|]. destruct (prune_due _ _); by simplify_eq. }
  exists n, t', gs'. split_and!; [done|congruence|congruence|]. by rewrite Hh, Hh1, app_assoc.
Qed.

Lemma NewThrottler_tracks key window limit from : tracks key from (NewThrottler window limit) [].
Proof.
  unfold NewThrottler. split_and!; simpl; try done.
  - destruct (Z.leb_spec window 0); [done|lia].
  - destruct (Z.leb_spec limit 0); [done|lia].
Qed.

(** The throttle holds over every interval: whatever keys are called in
    whatever order, at clock readings that never decrease and across pruning,
    one key is admitted at most twice its budget within any interval of one
    window's length, and a key without a live window is always admitted. *)
Theorem throttle_window_bound window limit key calls from a :
  in_order from calls ->
  let t := NewThrottler window limit in
  (Z.of_nat (count_within a (th_window t) (admitted key calls t)) <= 2 * th_limit t)%Z /\
  (forall t' now, (0 < th_limit t')%Z ->
     (forall b, th_buckets t' !! key = Some b -> ~ live (th_window t') now b) -> (Allow key now t').1 = true).
Proof.
  intros Ho t. split.
  - destruct (admitted_tracks key calls from t [] (NewThrottler_tracks _ _ _ _) Ho)
      as (now & t' & gs & (Hw & Hl & Hg & Hs & _) & HW & HL & Hh).
    rewrite app_nil_r in Hh. rewrite <-Hh, <-HL, <-HW.
    pose proof (count_groups a _ _ gs Hl Hg). pose proof (near_two a _ gs Hw Hs). nia.
  - intros t' now Hl Hdead. unfold Allow, current_bucket.
    assert (match th_buckets t' !! key with
            | Some b => if bool_decide (live (th_window t') now b) then b else mkBucket 0 now
            | None => mkBucket 0 now end = mkBucket 0 now) as ->.
    { destruct (th_buckets t' !! key) as [b|] eqn:Hk; [|done]. by rewrite bool_decide_eq_false_2 by (by apply Hdead). }
    simpl. destruct (Z.leb_spec (th_limit t') 0); [lia|done].
Qed.

(** Eleven hits in one instant: ten pass. *)
Lemma throttle_window_bound_witness :
  length (admitted "ws" (replicate 11 ("ws"%string, 5%Z)) (NewThrottler Minute 10)) = 10 /\
  (Z.of_nat (count_within 0 Minute (admitted "ws" (replicate 11 ("ws"%string, 5%Z)) (NewThrottler Minute 10))) <= 20)%Z.
Proof.
  split; [vm_compute; reflexivity|].
  apply (throttle_window_bound Minute 10 "ws" (replicate 11 ("ws"%string, 5%Z)) 0 0).
  vm_compute. repeat split; discriminate.
Defined.

(** ** api.RateLimiter *)

Record rateRule : Type := mkRule { rule_window : duration; rule_max : Z }.

Definition loginRateRule : rateRule := mkRule Minute 10.
Definition refreshRateRule : rateRule := mkRule Minute 20.
Definition logoutRateRule : rateRule := mkRule Minute 30.
Definition bootstrapRateRule : rateRule := mkRule Minute 5.

Definition maxRateLimitKeys : Z := Z.shiftl 1 16.
Definition rateLimitSweepBatch : Z := Z.shiftl 1 12.
Definition rateLimitSweepThreshold : Z := (maxRateLimitKeys - rateLimitSweepBatch)%Z.
Definition rateLimitSweepInterval : duration := Minute.

Record windowEntry : Type := mkEntry { we_start : time; we_count : Z; we_window : duration }.

Record RateLimiter : Type := mkLimiter {
  rl_windows : gmap string windowEntry;
  rl_lastSweep : time;
  rl_sweepInterval : duration
}.

Definition NewRateLimiter (now : time) : RateLimiter := mkLimiter ∅ now rateLimitSweepInterval.

Definition entry_live (now : time) (w : windowEntry) : Prop := (now - we_start w < we_window w)%Z.
#[export] Instance entry_live_dec now w : Decision (entry_live now w).
Proof. unfold entry_live. apply _. Defined.

Section limiter.
(** The order in which [range] visits a map: any order. *)
Variable iter : gmap string windowEntry -> list (string * windowEntry).

Definition sweepLocked (now : time) (m : gmap string windowEntry) : gmap string windowEntry :=
  let m1 := filter (fun kv : string * windowEntry => entry_live now kv.2) m in
  if (Z.of_nat (size m1) <? rateLimitSweepThreshold)%Z then m1
  else drop_keys (map fst (pick_oldest rateLimitSweepBatch (aged_entries we_start (iter m1)))) m1.

Definition RateLimiter_Allow (key : string) (rule : rateRule) (now : time) (l : RateLimiter) : bool * RateLimiter :=
  match rl_windows l !! key with
  | None =>
      let l1 :=
        if (rl_sweepInterval l <=? now - rl_lastSweep l)%Z
           || (rateLimitSweepThreshold <=? Z.of_nat (size (rl_windows l)))%Z
        then mkLimiter (sweepLocked now (rl_windows l)) now (rl_sweepInterval l)
        else l in
      (true, mkLimiter (<[key := mkEntry now 1 (rule_window rule)]> (rl_windows l1)) (rl_lastSweep l1) (rl_sweepInterval l1))
  | Some w =>
      let put w' := mkLimiter (<[key := w']> (rl_windows l)) (rl_lastSweep l) (rl_sweepInterval l) in
      if (we_window w <=? now - we_start w)%Z then (true, put (mkEntry now 1 (rule_window rule)))
      else if (rule_max rule <=? we_count w)%Z then (false, l)
      else (true, put (mkEntry (we_start w) (we_count w + 1) (we_window w)))
  end.
End limiter.

(** *** The table stays bounded *)

Section bounds.
Variable iter : gmap string windowEntry -> list (string * windowEntry).
Hypothesis iter_all : forall m, iter m ≡ₚ map_to_list m.

Lemma batch_value : rateLimitSweepBatch = 4096%Z /\ rateLimitSweepThreshold = 61440%Z /\ maxRateLimitKeys = 65536%Z.
Proof. done. Qed.

(** The keys a sweep drops when clearing the expired ones is not enough. *)
Lemma picked_spec m :
  let keys := map fst (pick_oldest rateLimitSweepBatch (aged_entries we_start (iter m))) in
  NoDup keys /\ (forall k, k ∈ keys -> is_Some (m !! k)) /\
  ((rateLimitSweepThreshold <= Z.of_nat (size m))%Z -> Z.of_nat (length keys) = rateLimitSweepBatch) /\
  forall k k' w w', m !! k = Some w -> m !! k' = Some w' -> k ∈ keys -> k' ∉ keys -> (we_start w <= we_start w')%Z.
Proof.
  destruct batch_value as (B1 & B2 & _). cbv zeta.
  destruct (oldest_picked we_start (iter m) rateLimitSweepBatch m) as (H1 & H2 & H3 & H4); [lia|apply iter_all|].
  split_and!; [done..| |done]. intros Hbig. apply H3. lia.
Qed.

Lemma sweepLocked_size now m : (Z.of_nat (size (sweepLocked iter now m)) < rateLimitSweepThreshold)%Z \/
  (Z.of_nat (size (sweepLocked iter now m)) + rateLimitSweepBatch <= Z.of_nat (size m))%Z.
Proof.
  unfold sweepLocked. set (m1 := filter _ m).
  assert (size m1 <= size m) by (by apply map_size_filter).
  destruct (Z.ltb_spec (Z.of_nat (size m1)) rateLimitSweepThreshold) as [Hlt|Hge]; [by left|right].
  destruct (picked_spec m1) as (Hnd & Hin & Hlen & _). specialize (Hlen Hge).
  pose proof (drop_keys_size _ _ Hnd Hin). lia.
Qed.

Lemma RateLimiter_Allow_bound key rule now l :
  (Z.of_nat (size (rl_windows l)) <= rateLimitSweepThreshold)%Z ->
  (Z.of_nat (size (rl_windows (RateLimiter_Allow iter key rule now l).2)) <= rateLimitSweepThreshold)%Z.
Proof.
  intros Hb. destruct batch_value as (B1 & B2 & _). unfold RateLimiter_Allow.
  destruct (rl_windows l !! key) as [w|] eqn:Hk.
  - assert (forall w', size (<[key := w']> (rl_windows l)) = size (rl_windows l)) as Hs
      by (intros w'; apply map_size_insert_Some; by eexists).
    destruct (_ <=? _)%Z; simpl; [by rewrite Hs|]. destruct (_ <=? _)%Z; simpl; [done|by rewrite Hs].
  - assert (forall m : gmap string windowEntry, (Z.of_nat (size m) < rateLimitSweepThreshold)%Z ->
      (Z.of_nat (size (<[key := mkEntry now 1 (rule_window rule)]> m)) <= rateLimitSweepThreshold)%Z) as Hins.
    { intros m Hm. rewrite map_size_insert. destruct (m !! key); unfold id; lia. }
    cbn [snd rl_windows]. apply Hins. destruct ((_ <=? now - _)%Z || _) eqn:Hc; cbn [rl_windows].
    + destruct (sweepLocked_size now (rl_windows l)); lia.
    + bool_prop. lia.
Qed.
End bounds.

(** The table after a sequence of requests. *)
Fixpoint serve (iter : gmap string windowEntry -> list (string * windowEntry))
    (calls : list (string * rateRule * time)) (l : RateLimiter) : RateLimiter :=
  match calls with
  | [] => l
  | (key, rule, now) :: calls' => serve iter calls' (RateLimiter_Allow iter key rule now l).2
  end.

(** The rate limiter's table is bounded: whatever requests arrive, from
    however many addresses and at any clock readings, and in whatever order the
    map is visited, it never tracks more than the sweep threshold of keys; and
    a sweep that has to forget live keys forgets the oldest ones. *)
Theorem rate_limiter_bounded (iter : gmap string windowEntry -> list (string * windowEntry)) calls start :
  (forall m, iter m ≡ₚ map_to_list m) ->
  (Z.of_nat (size (rl_windows (serve iter calls (NewRateLimiter start)))) <= rateLimitSweepThreshold)%Z /\
  (rateLimitSweepThreshold < maxRateLimitKeys)%Z /\
  (forall now (m : gmap string windowEntry) k k' w w', m !! k = Some w -> m !! k' = Some w' -> entry_live now w ->
     sweepLocked iter now m !! k = None -> sweepLocked iter now m !! k' = Some w' ->
     (we_start w <= we_start w')%Z).
Proof.
  intros Hit. split; [|split; [done|]].
  - assert (forall l, (Z.of_nat (size (rl_windows l)) <= rateLimitSweepThreshold)%Z ->
      (Z.of_nat (size (rl_windows (serve iter calls l))) <= rateLimitSweepThreshold)%Z) as H; [|by apply H].
    induction calls as [|[[key rule] now] calls IH]; intros l Hl; [done|]. simpl. by apply IH, RateLimiter_Allow_bound.
  - intros now m k k' w w' Hk Hk' Hlive Hn Hs. unfold sweepLocked in Hn, Hs. set (m1 := filter _ m) in *.
    assert (m1 !! k = Some w) as H1 by (by apply map_lookup_filter_Some).
    destruct (_ <? _)%Z; [congruence|]. rewrite drop_keys_lookup in Hn, Hs.
    destruct (picked_spec iter Hit m1) as (_ & _ & _ & Hord). simpl in Hord.
    set (keys := map fst _) in *.
    destruct (decide (k ∈ keys)) as [D1|]; [|congruence]. destruct (decide (k' ∈ keys)) as [|D2]; [done|].
    by apply (Hord k k').
Qed.

Lemma rate_limiter_bounded_witness :
  (Z.of_nat (size (rl_windows (serve map_to_list
     [("login:1"%string, loginRateRule, 0%Z); ("login:2"%string, loginRateRule, 1%Z)] (NewRateLimiter 0)))) <= 61440)%Z.
Proof. exact (proj1 (rate_limiter_bounded map_to_list _ 0 (fun m => Permutation_refl _))). Defined.
