(* ===== verification/Publish.v ===== *)
(** * internal/publish: publications and their human approval

    The publication aggregate and its lifecycle, the PostgreSQL store
    (infrastructure/postgres/publications.go) and the publishing service. *)

From S2P Require Import Prelude GoLib Throttle.

(** ** publish.go: sentinels and lifecycle *)

Inductive err : Type :=
| ErrInvalidInput | ErrNotFound | ErrWorkspaceMismatch | ErrInvalidTransition | ErrTerminalState
| ErrInvalidStatus | ErrApprovalRequired | ErrUnauthorizedApprover | ErrUnauthorizedRejecter
| ErrUnauthorizedPublisher | ErrRateLimited | ErrEmptyContent
(** what a store or a delivery adapter reports *)
| ErrStore (msg : string)
| ErrDelivery (msg : string).

#[export] Instance err_eq_dec : EqDecision err.
Proof. solve_decision. Defined.

Inductive Status : Type :=
| StatusQueued | StatusReview | StatusApproved | StatusPublished | StatusFailed
| StatusRejected | StatusCancelled
| StatusOther (s : string).

#[export] Instance Status_eq_dec : EqDecision Status.
Proof. solve_decision. Defined.

Definition StubPlatform : string := "stub".

Record Publication : Type := mkPublication {
  p_ID : uuid;
  p_WorkspaceID : uuid;
  p_GoalID : option uuid;
  p_TaskID : option uuid;
  p_Title : string;
  p_Body : string;
  p_Platform : string;
  p_Status : Status;
  p_ContentHash : string;
  p_IdempotencyKey : string;
  p_ApprovedBy : option string;
  p_ApprovedAt : option time;
  p_RejectedBy : option string;
  p_RejectedAt : option time;
  p_PublishedAt : option time;
  p_PublishedBy : option string;
  p_ExternalReference : string;
  p_FailureReason : string;
  p_CreatedAt : time;
  p_UpdatedAt : time
}.

Definition set_p_ID (v : uuid) (p : Publication) : Publication :=
  mkPublication v (p_WorkspaceID p) (p_GoalID p) (p_TaskID p) (p_Title p) (p_Body p) (p_Platform p)
    (p_Status p) (p_ContentHash p) (p_IdempotencyKey p) (p_ApprovedBy p) (p_ApprovedAt p) (p_RejectedBy p)
    (p_RejectedAt p) (p_PublishedAt p) (p_PublishedBy p) (p_ExternalReference p) (p_FailureReason p)
    (p_CreatedAt p) (p_UpdatedAt p).
Definition set_p_Status (v : Status) (p : Publication) : Publication :=
  mkPublication (p_ID p) (p_WorkspaceID p) (p_GoalID p) (p_TaskID p) (p_Title p) (p_Body p) (p_Platform p) v
    (p_ContentHash p) (p_IdempotencyKey p) (p_ApprovedBy p) (p_ApprovedAt p) (p_RejectedBy p) (p_RejectedAt p)
    (p_PublishedAt p) (p_PublishedBy p) (p_ExternalReference p) (p_FailureReason p) (p_CreatedAt p)
    (p_UpdatedAt p).
Definition set_p_IdempotencyKey (v : string) (p : Publication) : Publication :=
  mkPublication (p_ID p) (p_WorkspaceID p) (p_GoalID p) (p_TaskID p) (p_Title p) (p_Body p) (p_Platform p)
    (p_Status p) (p_ContentHash p) v (p_ApprovedBy p) (p_ApprovedAt p) (p_RejectedBy p) (p_RejectedAt p)
    (p_PublishedAt p) (p_PublishedBy p) (p_ExternalReference p) (p_FailureReason p) (p_CreatedAt p)
    (p_UpdatedAt p).
Definition set_p_ApprovedBy (v : option string) (p : Publication) : Publication :=
  mkPublication (p_ID p) (p_WorkspaceID p) (p_GoalID p) (p_TaskID p) (p_Title p) (p_Body p) (p_Platform p)
    (p_Status p) (p_ContentHash p) (p_IdempotencyKey p) v (p_ApprovedAt p) (p_RejectedBy p) (p_RejectedAt p)
    (p_PublishedAt p) (p_PublishedBy p) (p_ExternalReference p) (p_FailureReason p) (p_CreatedAt p)
    (p_UpdatedAt p).
Definition set_p_ApprovedAt (v : option time) (p : Publication) : Publication :=
  mkPublication (p_ID p) (p_WorkspaceID p) (p_GoalID p) (p_TaskID p) (p_Title p) (p_Body p) (p_Platform p)
    (p_Status p) (p_ContentHash p) (p_IdempotencyKey p) (p_ApprovedBy p) v (p_RejectedBy p) (p_RejectedAt p)
    (p_PublishedAt p) (p_PublishedBy p) (p_ExternalReference p) (p_FailureReason p) (p_CreatedAt p)
    (p_UpdatedAt p).
Definition set_p_RejectedBy (v : option string) (p : Publication) : Publication :=
  mkPublication (p_ID p) (p_WorkspaceID p) (p_GoalID p) (p_TaskID p) (p_Title p) (p_Body p) (p_Platform p)
    (p_Status p) (p_ContentHash p) (p_IdempotencyKey p) (p_ApprovedBy p) (p_ApprovedAt p) v (p_RejectedAt p)
    (p_PublishedAt p) (p_PublishedBy p) (p_ExternalReference p) (p_FailureReason p) (p_CreatedAt p)
    (p_UpdatedAt p).
Definition set_p_RejectedAt (v : option time) (p : Publication) : Publication :=
  mkPublication (p_ID p) (p_WorkspaceID p) (p_GoalID p) (p_TaskID p) (p_Title p) (p_Body p) (p_Platform p)
    (p_Status p) (p_ContentHash p) (p_IdempotencyKey p) (p_ApprovedBy p) (p_ApprovedAt p) (p_RejectedBy p) v
    (p_PublishedAt p) (p_PublishedBy p) (p_ExternalReference p) (p_FailureReason p) (p_CreatedAt p)
    (p_UpdatedAt p).
Definition set_p_PublishedAt (v : option time) (p : Publication) : Publication :=
  mkPublication (p_ID p) (p_WorkspaceID p) (p_GoalID p) (p_TaskID p) (p_Title p) (p_Body p) (p_Platform p)
    (p_Status p) (p_ContentHash p) (p_IdempotencyKey p) (p_ApprovedBy p) (p_ApprovedAt p) (p_RejectedBy p)
    (p_RejectedAt p) v (p_PublishedBy p) (p_ExternalReference p) (p_FailureReason p) (p_CreatedAt p)
    (p_UpdatedAt p).
Definition set_p_PublishedBy (v : option string) (p : Publication) : Publication :=
  mkPublication (p_ID p) (p_WorkspaceID p) (p_GoalID p) (p_TaskID p) (p_Title p) (p_Body p) (p_Platform p)
    (p_Status p) (p_ContentHash p) (p_IdempotencyKey p) (p_ApprovedBy p) (p_ApprovedAt p) (p_RejectedBy p)
    (p_RejectedAt p) (p_PublishedAt p) v (p_ExternalReference p) (p_FailureReason p) (p_CreatedAt p)
    (p_UpdatedAt p).
Definition set_p_ExternalReference (v : string) (p : Publication) : Publication :=
  mkPublication (p_ID p) (p_WorkspaceID p) (p_GoalID p) (p_TaskID p) (p_Title p) (p_Body p) (p_Platform p)
    (p_Status p) (p_ContentHash p) (p_IdempotencyKey p) (p_ApprovedBy p) (p_ApprovedAt p) (p_RejectedBy p)
    (p_RejectedAt p) (p_PublishedAt p) (p_PublishedBy p) v (p_FailureReason p) (p_CreatedAt p) (p_UpdatedAt p).
Definition set_p_FailureReason (v : string) (p : Publication) : Publication :=
  mkPublication (p_ID p) (p_WorkspaceID p) (p_GoalID p) (p_TaskID p) (p_Title p) (p_Body p) (p_Platform p)
    (p_Status p) (p_ContentHash p) (p_IdempotencyKey p) (p_ApprovedBy p) (p_ApprovedAt p) (p_RejectedBy p)
    (p_RejectedAt p) (p_PublishedAt p) (p_PublishedBy p) (p_ExternalReference p) v (p_CreatedAt p)
    (p_UpdatedAt p).
Definition set_p_CreatedAt (v : time) (p : Publication) : Publication :=
  mkPublication (p_ID p) (p_WorkspaceID p) (p_GoalID p) (p_TaskID p) (p_Title p) (p_Body p) (p_Platform p)
    (p_Status p) (p_ContentHash p) (p_IdempotencyKey p) (p_ApprovedBy p) (p_ApprovedAt p) (p_RejectedBy p)
    (p_RejectedAt p) (p_PublishedAt p) (p_PublishedBy p) (p_ExternalReference p) (p_FailureReason p) v
    (p_UpdatedAt p).
Definition set_p_UpdatedAt (v : time) (p : Publication) : Publication :=
  mkPublication (p_ID p) (p_WorkspaceID p) (p_GoalID p) (p_TaskID p) (p_Title p) (p_Body p) (p_Platform p)
    (p_Status p) (p_ContentHash p) (p_IdempotencyKey p) (p_ApprovedBy p) (p_ApprovedAt p) (p_RejectedBy p)
    (p_RejectedAt p) (p_PublishedAt p) (p_PublishedBy p) (p_ExternalReference p) (p_FailureReason p)
    (p_CreatedAt p) v.

Definition ContentDigest (title body : string) : string :=
  sha256_hex (title +:+ String.String (char_of 0) "" +:+ body).

(** [New]: [fresh] is the identifier drawn by [uuid.New]. *)
Definition New (workspaceID : uuid) (goalID taskID : option uuid) (title body platform : string)
    (fresh : uuid) (now : time) : res err Publication :=
  guard! negb (workspaceID =? uuid_Nil)%N else ErrWorkspaceMismatch in
  guard! negb (blank title || blank body) else ErrEmptyContent in
  let platform := if blank platform then StubPlatform else platform in
  Ok (mkPublication fresh workspaceID goalID taskID (TrimSpace title) body (TrimSpace platform)
        StatusQueued (ContentDigest title body) "" None None None None None None "" "" now now).

Definition ValidStatus (s : Status) : bool :=
  match s with
  | StatusQueued | StatusReview | StatusApproved | StatusPublished | StatusFailed
  | StatusRejected | StatusCancelled => true
  | StatusOther _ => false
  end.

Definition terminal (s : Status) : bool :=
  match s with
  | StatusPublished | StatusFailed | StatusRejected | StatusCancelled => true
  | _ => false
  end.

Definition allowedTransition (from to : Status) : bool :=
  match from with
  | StatusQueued => bool_decide (to = StatusReview) || bool_decide (to = StatusCancelled)
  | StatusReview =>
      bool_decide (to = StatusApproved) || bool_decide (to = StatusRejected) || bool_decide (to = StatusCancelled)
  | StatusApproved => bool_decide (to = StatusPublished) || bool_decide (to = StatusFailed)
  | StatusFailed => bool_decide (to = StatusPublished)
  | _ => false
  end.

Definition CanTransition (from to : Status) : option err :=
  if negb (ValidStatus from) || negb (ValidStatus to) then Some ErrInvalidStatus
  else if terminal from then Some ErrTerminalState
  else if bool_decide (from = to) then Some ErrInvalidTransition
  else if negb (allowedTransition from to) then Some ErrInvalidTransition
  else None.

Definition HasApproval (p : Publication) : bool :=
  bool_decide (p_Status p = StatusApproved) && bool_decide (is_Some (p_ApprovedBy p))
  && bool_decide (is_Some (p_ApprovedAt p)).

Definition err_Error (e : err) : string :=
  match e with
  | ErrInvalidInput => "publish: invalid input"
  | ErrNotFound => "publish: not found"
  | ErrWorkspaceMismatch => "publish: workspace mismatch"
  | ErrInvalidTransition => "publish: invalid status transition"
  | ErrTerminalState => "publish: publication is in a terminal state"
  | ErrInvalidStatus => "publish: invalid status"
  | ErrApprovalRequired => "publish: publication must be approved before publishing"
  | ErrUnauthorizedApprover => "publish: only a human may approve"
  | ErrUnauthorizedRejecter => "publish: only a human may reject"
  | ErrUnauthorizedPublisher => "publish: only a human may publish"
  | ErrRateLimited => "publish: publishing rate limit exceeded"
  | ErrEmptyContent => "publish: title or body is empty"
  | ErrStore m | ErrDelivery m => m
  end.

Definition failureReason (e : err) : string :=
  let reason := TrimSpace (err_Error e) in
  if String.eqb reason "" then "delivery_failed"
  else if Nat.ltb 512 (String.length reason) then take_bytes 512 reason
  else reason.

(** ** infrastructure/postgres/publications.go *)

Record PubDB : Type := mkPubDB {
  pd_rows : gmap uuid Publication;
  pd_workspaces : gset uuid;
  pd_next : uuid
}.

Definition with_rows (m : gmap uuid Publication) (db : PubDB) : PubDB :=
  mkPubDB m (pd_workspaces db) (pd_next db).

Definition bad_text : err := ErrStore "22021".
Definition check_violation : err := ErrStore "23514".
Definition unique_violation : err := ErrStore "23505".
Definition foreign_key_violation : err := ErrStore "23503".

(** [uq_publications_workspace_idempotency]: an empty key is stored as NULL. *)
Definition same_key (a b : Publication) : bool :=
  (p_WorkspaceID a =? p_WorkspaceID b)%N && negb (String.eqb (p_IdempotencyKey a) "")
  && String.eqb (p_IdempotencyKey a) (p_IdempotencyKey b).

Definition keys_ok (p : Publication) (m : gmap uuid Publication) : bool :=
  bool_decide (map_Forall (fun i q => i = p_ID p \/ same_key p q = false) m).

(** The row the INSERT writes: identifier from the database, delivery and
    approval columns left out. *)
Definition inserted_row (p : Publication) (id : uuid) : Publication :=
  mkPublication id (p_WorkspaceID p) (p_GoalID p) (p_TaskID p) (p_Title p) (p_Body p) (p_Platform p)
    (p_Status p) (p_ContentHash p) (p_IdempotencyKey p) None None None None None None "" ""
    (p_CreatedAt p) (p_UpdatedAt p).

Definition db_Create (p : Publication) (now : time) (db : PubDB) : res err (Publication * PubDB) :=
  let id := pd_next db in
  let row := inserted_row p id in
  guard! text_ok (p_Title p) && text_ok (p_Body p) && text_ok (p_Platform p) && text_ok (p_IdempotencyKey p)
  else bad_text in
  guard! ValidStatus (p_Status p) else check_violation in
  guard! keys_ok row (pd_rows db) else unique_violation in
  guard! bool_decide (p_WorkspaceID p ∈ pd_workspaces db) else foreign_key_violation in
  Ok (set_p_ID id p, mkPubDB (<[id := row]> (pd_rows db)) (pd_workspaces db) (id + 1)%N).

Definition find_row (ws id : uuid) (db : PubDB) : option Publication :=
  match pd_rows db !! id with
  | Some p => if (p_WorkspaceID p =? ws)%N then Some p else None
  | None => None
  end.

Definition db_Get (ws id : uuid) (db : PubDB) : res err Publication :=
  match find_row ws id db with Some p => Ok p | None => Err ErrNotFound end.

Definition db_GetByIdempotency (ws : uuid) (key : string) (db : PubDB) : res err Publication :=
  match filter (fun kv => (p_WorkspaceID kv.2 =? ws)%N && negb (String.eqb (p_IdempotencyKey kv.2) "")
                          && String.eqb (p_IdempotencyKey kv.2) key = true) (map_to_list (pd_rows db)) with
  | (_, p) :: _ => Ok p
  | [] => Err ErrNotFound
  end.

(** The columns the UPDATE sets, on the row that is there. *)
Definition updated_row (p row : Publication) (now : time) : Publication :=
  mkPublication (p_ID row) (p_WorkspaceID row) (p_GoalID row) (p_TaskID row) (p_Title row) (p_Body row)
    (p_Platform row) (p_Status p) (p_ContentHash row) (p_IdempotencyKey p)
    (p_ApprovedBy p) (p_ApprovedAt p) (p_RejectedBy p) (p_RejectedAt p) (p_PublishedAt p) (p_PublishedBy p)
    (p_ExternalReference p) (p_FailureReason p) (p_CreatedAt row) now.

(** An UPDATE that matches no row is no error. *)
Definition db_Update (ws : uuid) (p : Publication) (now : time) (db : PubDB) : res err (Publication * PubDB) :=
  let p := set_p_UpdatedAt now p in
  guard! text_ok (p_IdempotencyKey p) && text_ok (p_ExternalReference p) && text_ok (p_FailureReason p)
         && otext_ok (p_ApprovedBy p) && otext_ok (p_RejectedBy p) && otext_ok (p_PublishedBy p)
  else bad_text in
  match find_row ws (p_ID p) db with
  | None => Ok (p, db)
  | Some row =>
      let row' := updated_row p row now in
      guard! ValidStatus (p_Status p) else check_violation in
      guard! keys_ok row' (pd_rows db) else unique_violation in
      Ok (p, with_rows (<[p_ID p := row']> (pd_rows db)) db)
  end.

(** ORDER BY created_at DESC, id DESC LIMIT 100 *)
Definition newer (a b : Publication) : Prop :=
  (p_CreatedAt b < p_CreatedAt a)%Z \/ (p_CreatedAt a = p_CreatedAt b /\ (p_ID b <= p_ID a)%N).
#[export] Instance newer_dec a b : Decision (newer a b).
Proof. unfold newer. apply _. Defined.

Definition db_List (ws : uuid) (status : option Status) (db : PubDB) : res err (list Publication) :=
  Ok (take 100 (merge_sort newer (filter (fun p => (p_WorkspaceID p =? ws)%N
        && match status with Some s => bool_decide (p_Status p = s) | None => true end = true)
      (map snd (map_to_list (pd_rows db)))))).
