(* ===== verification/PublishService.v ===== *)
(** * internal/publish/service.go: the publishing service

    Every method against the PostgreSQL store, the shared throttle, a delivery
    adapter and the audit and event sinks; other requests may commit between
    any two store calls. *)

From S2P Require Import Prelude GoLib Throttle Publish.

(** What the verified caller's context carries. *)
Record Ctx : Type := mkCtx { cx_actor : string; cx_trace : string; cx_span : string }.

Record AuditRecord : Type := mkAudit {
  au_EventType : string;
  au_ConstitutionalPrinciple : string;
  au_Outcome : string;
  au_WorkspaceID : string;
  au_PublicationID : string;
  au_ActorType : string;
  au_ActorID : string;
  au_TraceID : string;
  au_SpanID : string
}.

Record World : Type := mkWorld {
  w_db : PubDB;
  w_at : nat;                       (* store calls and clock readings so far *)
  w_throttle : Throttler;
  w_handed : list Publication;      (* what was handed to the delivery adapter *)
  w_audit : list AuditRecord;
  w_events : list (string * uuid * uuid)
}.

Definition actorType (cx : Ctx) (fallback : string) : string :=
  if negb (String.eqb (cx_actor cx) "") then "human" else fallback.

Definition WithActor (cx : Ctx) (id : string) : Ctx := mkCtx (TrimSpace id) (cx_trace cx) (cx_span cx).

Definition WithTrace (cx : Ctx) (trace span : string) : Ctx := mkCtx (cx_actor cx) trace span.

(** [NewService]'s throttle *)
Definition service_throttle : Throttler := NewThrottler Minute 10.

Definition status_text (s : Status) : string :=
  match s with
  | StatusQueued => "queued" | StatusReview => "review" | StatusApproved => "approved"
  | StatusPublished => "published" | StatusFailed => "failed" | StatusRejected => "rejected"
  | StatusCancelled => "cancelled" | StatusOther s => s
  end.

Section service.
Context `{UuidText}.
(** The store calls' environment, and what the delivery adapter answers to its
    [n]-th call. *)
Variable env : nat -> TxTick PubDB.
Variable deliver : nat -> Publication -> res err string.

Definition tick (w : World) : World :=
  mkWorld (w_db w) (S (w_at w)) (w_throttle w) (w_handed w) (w_audit w) (w_events w).
Definition with_db (db : PubDB) (w : World) : World :=
  mkWorld db (w_at w) (w_throttle w) (w_handed w) (w_audit w) (w_events w).

(** One store call. *)
Definition tx {A} (op : time -> PubDB -> res err (A * PubDB)) : act World err A := fun w =>
  let '(r, db) := run_tx ErrStore (env (w_at w)) op (w_db w) in (r, with_db db (tick w)).
Definition read {A} (op : PubDB -> res err A) : act World err A :=
  tx (fun _ db => try! a := op db in Ok (a, db)).

Definition now_ : act World err time := fun w => (Ok (tt_now (env (w_at w))), tick w).

Definition audit (r : AuditRecord) : act World err unit := act_mod (fun w =>
  mkWorld (w_db w) (w_at w) (w_throttle w) (w_handed w) (r :: w_audit w) (w_events w)).
Definition emit (ev : string) (id ws : uuid) : act World err unit := act_mod (fun w =>
  mkWorld (w_db w) (w_at w) (w_throttle w) (w_handed w) (w_audit w) ((ev, id, ws) :: w_events w)).

Definition throttle_Allow (key : string) : act World err bool := fun w =>
  let '(ok, t) := Allow key (tt_now (env (w_at w))) (w_throttle w) in
  (Ok ok, mkWorld (w_db w) (S (w_at w)) t (w_handed w) (w_audit w) (w_events w)).

(** [s.pub.Publish(ctx, p)] *)
Definition pub_Publish (p : Publication) : act World err string := fun w =>
  (deliver (w_at w) p,
   mkWorld (w_db w) (S (w_at w)) (w_throttle w) (p :: w_handed w) (w_audit w) (w_events w)).

Definition record (ev principle out : string) (ws : uuid) (pid actor_type actor trace span : string) : AuditRecord :=
  mkAudit ev principle out (uuid_String ws) pid actor_type actor trace span.

(** *** create *)

Definition create (cx : Ctx) (ws : uuid) (goalID taskID : option uuid) (title body platform key : string)
  : act World err Publication :=
  require! negb (ws =? uuid_Nil)%N else ErrWorkspaceMismatch ;;
  now <~ now_ ;;
  w <~ act_get ;;
  let fresh := pd_next (w_db w) in
  let failed pid := record "publication.create" "Vision First" "failed" ws pid
                      (actorType cx "system") (cx_actor cx) "" "" in
  match New ws goalID taskID title body platform fresh now with
  | Err e => audit (failed "") ;;! act_fail e
  | Ok p =>
      let p := set_p_IdempotencyKey key p in
      r <~ act_try (tx (db_Create p)) ;;
      match r with
      | Err e =>
          let refuse := audit (failed (uuid_String fresh)) ;;! act_fail e in
          if negb (String.eqb key "") then
            existing <~ act_try (read (db_GetByIdempotency ws key)) ;;
            match existing with Ok q => act_ret q | Err _ => refuse end
          else refuse
      | Ok p =>
          audit (record "publication.create" "Vision First" "success" ws (uuid_String (p_ID p))
                   (actorType cx "system") (cx_actor cx) "" "") ;;!
          emit "publication.created" (p_ID p) ws ;;!
          act_ret p
      end
  end.

Definition Create (cx : Ctx) (ws : uuid) (goalID taskID : option uuid) (title body platform : string)
  : act World err Publication := create cx ws goalID taskID title body platform "".

Definition CreateWithIdempotency (cx : Ctx) (ws : uuid) (goalID taskID : option uuid)
    (title body platform key : string) : act World err Publication :=
  let key := TrimSpace key in
  if String.eqb key "" then Create cx ws goalID taskID title body platform
  else if Nat.ltb 128 (String.length key) then act_fail ErrInvalidInput
  else
    r <~ act_try (read (db_GetByIdempotency ws key)) ;;
    match r with
    | Ok existing => act_ret existing
    | Err ErrNotFound => create cx ws goalID taskID title body platform key
    | Err e => act_fail e
    end.

(** *** transitions *)

Definition getOwned (ws id : uuid) : act World err Publication :=
  p <~ read (db_Get ws id) ;;
  require! (p_WorkspaceID p =? ws)%N else ErrWorkspaceMismatch ;;
  act_ret p.

Definition apply (cx : Ctx) (ws : uuid) (p : Publication) (to : Status) (actor_type actor : string)
  : act World err Publication :=
  let rec out := record "publication.transition" "Human Oversight" out ws (uuid_String (p_ID p))
                   actor_type actor (cx_trace cx) (cx_span cx) in
  match CanTransition (p_Status p) to with
  | Some e => audit (rec "failed"%string) ;;! act_fail e
  | None =>
      now <~ now_ ;;
      let p := set_p_UpdatedAt now (set_p_Status to p) in
      updated <~ tx (db_Update ws p) ;;
      audit (rec "success"%string) ;;!
      emit ("publication." +:+ status_text to) (p_ID p) ws ;;!
      act_ret updated
  end.

Definition transition (cx : Ctx) (ws id : uuid) (to : Status) (actor_type actor : string) : act World err Publication :=
  require! ValidStatus to else ErrInvalidStatus ;;
  p <~ getOwned ws id ;;
  apply cx ws p to actor_type actor.

Definition ToReview (cx : Ctx) (ws id : uuid) : act World err Publication :=
  transition cx ws id StatusReview (actorType cx "human") (cx_actor cx).

Definition Cancel (cx : Ctx) (ws id : uuid) : act World err Publication :=
  transition cx ws id StatusCancelled "system" "".

(** The decision gates' audit record for a missing human. *)
Definition no_human (ev : string) (ws id : uuid) : AuditRecord :=
  record ev "Human Oversight" "failed" ws (uuid_String id) "" "" "" "".

Definition Approve (cx : Ctx) (ws id : uuid) (humanActor : string) : act World err Publication :=
  if blank humanActor then
    audit (no_human "publication.approve" ws id) ;;! act_fail ErrUnauthorizedApprover
  else
    p <~ getOwned ws id ;;
    require! bool_decide (p_Status p = StatusReview) else ErrInvalidTransition ;;
    now <~ now_ ;;
    apply cx ws (set_p_ApprovedAt (Some now) (set_p_ApprovedBy (Some humanActor) p))
      StatusApproved "human" humanActor.

Definition Reject (cx : Ctx) (ws id : uuid) (humanActor : string) : act World err Publication :=
  if blank humanActor then
    audit (no_human "publication.reject" ws id) ;;! act_fail ErrUnauthorizedRejecter
  else
    p <~ getOwned ws id ;;
    require! bool_decide (p_Status p = StatusReview) else ErrInvalidTransition ;;
    now <~ now_ ;;
    apply cx ws (set_p_RejectedAt (Some now) (set_p_RejectedBy (Some humanActor) p))
      StatusRejected "human" humanActor.

(** *** delivery

    [Publish] and [Retry] can return a publication together with an error. *)

Definition Publish (cx : Ctx) (ws id : uuid) (humanActor : string) : act World err (Publication * option err) :=
  let sec := record "publication.publish" "Security by Design" "failed" ws (uuid_String id) in
  if blank humanActor then
    audit (no_human "publication.publish" ws id) ;;! act_fail ErrUnauthorizedPublisher
  else
    allowed <~ throttle_Allow (uuid_String ws) ;;
    if negb allowed then
      audit (sec "" "" "" ""%string) ;;! act_fail ErrRateLimited
    else
      p <~ getOwned ws id ;;
      match CanTransition (p_Status p) StatusPublished with
      | Some e =>
          audit (record "publication.publish" "Human Oversight" "failed" ws (uuid_String id)
                   "human" humanActor (cx_trace cx) (cx_span cx)) ;;! act_fail e
      | None =>
          if negb (HasApproval p) then
            audit (no_human "publication.publish" ws id) ;;! act_fail ErrApprovalRequired
          else
            r <~ act_try (pub_Publish p) ;;
            match r with
            | Err e =>
                failed <~ act_try (apply cx ws (set_p_FailureReason (failureReason e) p) StatusFailed "human" humanActor) ;;
                audit (sec "human" humanActor (cx_trace cx) (cx_span cx)) ;;!
                match failed with
                | Err persistErr => act_fail persistErr
                | Ok q => act_ret (q, Some e)
                end
            | Ok ref =>
                now <~ now_ ;;
                let p := set_p_ExternalReference ref (set_p_PublishedBy (Some humanActor) (set_p_PublishedAt (Some now) p)) in
                updated <~ apply cx ws p StatusPublished "human" humanActor ;;
                act_ret (updated, None)
            end
      end.

Definition Retry (cx : Ctx) (ws id : uuid) (humanActor : string) : act World err (Publication * option err) :=
  if blank humanActor then act_fail ErrUnauthorizedPublisher
  else
    allowed <~ throttle_Allow (uuid_String ws) ;;
    require! allowed else ErrRateLimited ;;
    p <~ getOwned ws id ;;
    require! bool_decide (p_Status p = StatusFailed) else ErrInvalidTransition ;;
    require! bool_decide (is_Some (p_ApprovedBy p)) && bool_decide (is_Some (p_ApprovedAt p)) else ErrApprovalRequired ;;
    let p := set_p_Status StatusApproved p in
    r <~ act_try (pub_Publish p) ;;
    match r with
    | Err e =>
        now <~ now_ ;;
        let p := set_p_UpdatedAt now (set_p_FailureReason (failureReason e) (set_p_Status StatusFailed p)) in
        failed <~ act_try (tx (db_Update ws p)) ;;
        audit (record "publication.retry" "Human Oversight" "failed" ws (uuid_String id)
                 "human" humanActor (cx_trace cx) (cx_span cx)) ;;!
        match failed with
        | Err persistErr => act_fail persistErr
        | Ok q => act_ret (q, Some e)
        end
    | Ok ref =>
        now <~ now_ ;;
        let p := set_p_PublishedBy (Some humanActor) (set_p_PublishedAt (Some now)
                   (set_p_ExternalReference ref (set_p_FailureReason "" p))) in
        updated <~ apply cx ws p StatusPublished "human" humanActor ;;
        act_ret (updated, None)
    end.

Definition Get (ws id : uuid) : act World err Publication := getOwned ws id.

Definition List (ws : uuid) (status : option Status) : act World err (list Publication) :=
  read (db_List ws status).
End service.
