(* ===== verification/PublishProps.v ===== *)
(** * What the publishing service guarantees

    Human oversight under arbitrary interleaving, the lifecycle, delivery
    failures, and where concurrent decisions overwrite each other. *)

From S2P Require Import Prelude GoLib Throttle Publish PublishService.

(** ** Requests *)

Inductive request : Type :=
| ReqCreate (cx : Ctx) (ws : uuid) (goalID taskID : option uuid) (title body platform key : string)
| ReqToReview (cx : Ctx) (ws id : uuid)
| ReqCancel (cx : Ctx) (ws id : uuid)
| ReqApprove (cx : Ctx) (ws id : uuid) (humanActor : string)
| ReqReject (cx : Ctx) (ws id : uuid) (humanActor : string)
| ReqPublish (cx : Ctx) (ws id : uuid) (humanActor : string)
| ReqRetry (cx : Ctx) (ws id : uuid) (humanActor : string)
| ReqGet (ws id : uuid)
| ReqList (ws : uuid) (status : option Status).

Section requests.
Context `{UuidText}.
Variable env : nat -> TxTick PubDB.
Variable deliver : nat -> Publication -> res err string.

Definition handle (r : request) : act World err unit :=
  match r with
  | ReqCreate cx ws g t title body platform key =>
      CreateWithIdempotency env cx ws g t title body platform key ;;! act_ret tt
  | ReqToReview cx ws id => ToReview env cx ws id ;;! act_ret tt
  | ReqCancel cx ws id => Cancel env cx ws id ;;! act_ret tt
  | ReqApprove cx ws id who => Approve env cx ws id who ;;! act_ret tt
  | ReqReject cx ws id who => Reject env cx ws id who ;;! act_ret tt
  | ReqPublish cx ws id who => Publish env deliver cx ws id who ;;! act_ret tt
  | ReqRetry cx ws id who => Retry env deliver cx ws id who ;;! act_ret tt
  | ReqGet ws id => Get env ws id ;;! act_ret tt
  | ReqList ws st => List env ws st ;;! act_ret tt
  end.

(** A process serving requests one after the other, failed ones included. *)
Definition serve (rs : list request) (w : World) : World := fold_left (fun w r => (handle r w).2) rs w.

(** ** Human oversight *)

Definition human_ok (p : Publication) : Prop :=
  exists who, p_ApprovedBy p = Some who /\ blank who = false /\ is_Some (p_ApprovedAt p).

Definition needs_approval (s : Status) : bool :=
  match s with StatusApproved | StatusPublished | StatusFailed => true | _ => false end.

Definition row_ok (p : Publication) : Prop := needs_approval (p_Status p) = true -> human_ok p.
Definition oversight (db : PubDB) : Prop := map_Forall (fun _ p => row_ok p) (pd_rows db).
Definition handed_ok (l : list Publication) : Prop := Forall (fun p => HasApproval p = true /\ human_ok p) l.
Definition Inv (w : World) : Prop := oversight (w_db w) /\ handed_ok (w_handed w).

(** Other requests keep the oversight invariant too. *)
Hypothesis rely : forall n db, oversight db -> oversight (tt_others (env n) db).

Abbreviation keeps m Q := (spec Inv m (fun a w => Q a /\ Inv w) Inv).

Lemma pub_keeps_tx {A} (op : time -> PubDB -> res err (A * PubDB)) (Q : A -> Prop) :
  (forall now db a db', oversight db -> op now db = Ok (a, db') -> oversight db' /\ Q a) -> keeps (tx env op) Q.
Proof.
  intros Hop w [Ho Hh]. unfold tx. pose proof (rely (w_at w) _ Ho) as Ho'.
  destruct (run_tx ErrStore (env (w_at w)) op (w_db w)) as [r db] eqn:Hr.
  assert (oversight db) as Hdb.
  { change db with (r, db).2. rewrite <-Hr.
    destruct (run_tx_cases ErrStore (env (w_at w)) op (w_db w)) as [->|(a & s' & Ha & ->)]; [done|by eapply Hop]. }
  destruct r as [a|e]; [|by split]. split; [|by split]. apply run_tx_Ok in Hr. by destruct (Hop _ _ _ _ Ho' Hr).
Qed.

Lemma pub_keeps_read {A} (op : PubDB -> res err A) (Q : A -> Prop) :
  (forall db a, oversight db -> op db = Ok a -> Q a) -> keeps (read env op) Q.
Proof. intros Hop. apply pub_keeps_tx. intros now db a db' Ho (x & Hx & [= -> ->])%res_bind_Ok. eauto. Qed.

(** Actions that touch neither the table nor the hand-over log. *)
Lemma pub_keeps_silent {A} (m : act World err A) (Q : A -> Prop) :
  (forall w, w_db (m w).2 = w_db w /\ w_handed (m w).2 = w_handed w) ->
  (forall w a w', m w = (Ok a, w') -> Q a) -> keeps m Q.
Proof.
  intros Hm HQ w [Ho Hh]. destruct (Hm w) as [E1 E2]. destruct (m w) as [[a|e] w'] eqn:Em; simpl in *.
  - split; [by eapply HQ|]. unfold Inv. by rewrite E1, E2.
  - unfold Inv. by rewrite E1, E2.
Qed.

Lemma pub_keeps_audit r : keeps (audit r) (fun _ => True).
Proof. by apply pub_keeps_silent. Qed.
Lemma pub_keeps_emit ev id ws : keeps (emit ev id ws) (fun _ => True).
Proof. by apply pub_keeps_silent. Qed.
Lemma pub_keeps_now : keeps (now_ env) (fun _ => True).
Proof. by apply pub_keeps_silent. Qed.
Lemma pub_keeps_throttle k : keeps (throttle_Allow env k) (fun _ => True).
Proof. apply pub_keeps_silent; [|done]. intros w. unfold throttle_Allow. by destruct (Allow _ _ _). Qed.
Lemma pub_keeps_publish p : HasApproval p = true -> human_ok p -> keeps (pub_Publish deliver p) (fun _ => True).
Proof.
  intros Ha Hp w [Ho Hh]. unfold pub_Publish.
  assert (handed_ok (p :: w_handed w)) by (by constructor). by destruct (deliver _ _); [split|].
Qed.
Lemma pub_keeps_fail {A} (e : err) (Q : A -> Prop) : keeps (act_fail e) Q.
Proof. by apply spec_fail. Qed.
Lemma pub_keeps_ret {A} (a : A) (Q : A -> Prop) : Q a -> keeps (act_ret a : act World err A) Q.
Proof. intros HQ. by apply spec_ret. Qed.
Lemma pub_keeps_bind {A B} (m : act World err A) (f : A -> act World err B) Q R :
  keeps m Q -> (forall a, Q a -> keeps (f a) R) -> keeps (act_bind m f) R.
Proof. intros Hm Hf. eapply spec_bind; [exact Hm|]. intros a. apply (spec_pure (Q a) Inv), Hf. Qed.
Lemma pub_keeps_then {A B} (m : act World err A) (f : act World err B) R :
  keeps m (fun _ => True) -> keeps f R -> keeps (act_bind m (fun _ => f)) R.
Proof. intros Hm Hf. by eapply pub_keeps_bind. Qed.
Lemma pub_keeps_try {A} (m : act World err A) Q :
  keeps m Q -> keeps (act_try m) (fun r => forall a, r = Ok a -> Q a).
Proof.
  intros Hm. eapply spec_weaken; [eapply spec_try, Hm|done| |done].
  intros [a|e] w Hw; simpl in Hw; [|done]. destruct Hw. split; [|done]. by intros ? [= <-].
Qed.
Lemma pub_keeps_any {A} (m : act World err A) (Q : A -> Prop) : keeps m Q -> keeps m (fun _ => True).
Proof. intros Hm. eapply spec_weaken; [exact Hm|done| |done]. intros a w Hw. simpl in Hw. tauto. Qed.

#[local] Hint Resolve pub_keeps_audit pub_keeps_emit pub_keeps_now pub_keeps_throttle pub_keeps_fail : core.

Lemma pub_keeps_getOwned ws id : keeps (getOwned env ws id) row_ok.
Proof.
  unfold getOwned. eapply (pub_keeps_bind _ _ row_ok).
  - apply pub_keeps_read. intros db p Ho. unfold db_Get, find_row. destruct (pd_rows db !! id) as [q|] eqn:Hq; [|done].
    destruct (_ =? _)%N; [|done]. intros [= <-]. by apply (Ho id).
  - intros p Hp. apply spec_if; intros _; [by apply pub_keeps_ret|done].
Qed.

Lemma pub_keeps_update ws p : row_ok p -> keeps (tx env (db_Update ws p)) (fun _ => True).
Proof.
  intros Hp. apply pub_keeps_tx. intros now db a db' Ho Hu. unfold db_Update in Hu.
  apply guard_Ok in Hu as [_ Hu]. destruct (find_row _ _ _) as [row|]; [|by simplify_eq].
  apply guard_Ok in Hu as [_ Hu]. apply guard_Ok in Hu as [_ Hu]. simplify_eq. split; [|done].
  by apply map_Forall_insert_2.
Qed.

Lemma pub_keeps_apply cx ws p to at_ a :
  (needs_approval to = true -> human_ok p) -> keeps (apply env cx ws p to at_ a) (fun _ => True).
Proof.
  intros Hp. unfold apply. destruct (CanTransition _ _); [by apply pub_keeps_then|].
  eapply pub_keeps_bind; [done|]. intros now _.
  eapply pub_keeps_bind; [by apply pub_keeps_update|]. intros q _. repeat apply pub_keeps_then; try done; by apply pub_keeps_ret.
Qed.

Lemma pub_keeps_transition cx ws id to at_ a :
  needs_approval to = false -> keeps (transition env cx ws id to at_ a) (fun _ => True).
Proof.
  intros Hto. unfold transition. apply spec_if; intros _; [|done].
  eapply pub_keeps_bind; [apply pub_keeps_getOwned|]. intros p _. apply pub_keeps_apply. by rewrite Hto.
Qed.

Lemma pub_keeps_create cx ws g t title body platform key :
  keeps (create env cx ws g t title body platform key) (fun _ => True).
Proof.
  unfold create. apply spec_if; intros _; [|done]. eapply pub_keeps_bind; [done|]. intros now _.
  eapply (pub_keeps_bind _ _ (fun _ => True)); [by apply pub_keeps_silent|]. intros w _.
  destruct (New _ _ _ _ _ _ _ _) as [p|e] eqn:Hn; [|by apply pub_keeps_then].
  assert (p_Status p = StatusQueued) as Hq by (unfold New in Hn; repeat case_match; by simplify_eq).
  eapply (pub_keeps_bind _ _ (fun _ => True)); [|intros [q|e] _].
  - eapply pub_keeps_any, pub_keeps_try, (pub_keeps_tx _ (fun _ => True)). intros n db q db' Ho Hc. unfold db_Create in Hc.
    repeat (apply guard_Ok in Hc as [_ Hc]). simplify_eq. split; [|done].
    apply map_Forall_insert_2; [|done]. unfold row_ok. simpl. by rewrite Hq.
  - repeat apply pub_keeps_then; try done; by apply pub_keeps_ret.
  - apply spec_if; intros _; [|by apply pub_keeps_then].
    eapply (pub_keeps_bind _ _ (fun _ => True)); [by eapply pub_keeps_any, pub_keeps_try, (pub_keeps_read _ (fun _ => True))|].
    intros [q|?] _; [by apply pub_keeps_ret|by apply pub_keeps_then].
Qed.

Lemma pub_keeps_CreateWithIdempotency cx ws g t title body platform key :
  keeps (CreateWithIdempotency env cx ws g t title body platform key) (fun _ => True).
Proof.
  unfold CreateWithIdempotency, Create. apply spec_if; intros _; [apply pub_keeps_create|].
  apply spec_if; intros _; [done|].
  eapply (pub_keeps_bind _ _ (fun _ => True)); [by eapply pub_keeps_any, pub_keeps_try, (pub_keeps_read _ (fun _ => True))|].
  intros [q|e] _; [by apply pub_keeps_ret|]. destruct e; try done. apply pub_keeps_create.
Qed.

Lemma pub_keeps_Approve cx ws id who : keeps (Approve env cx ws id who) (fun _ => True).
Proof.
  unfold Approve. apply spec_if; intros Hb; [by apply pub_keeps_then|].
  eapply pub_keeps_bind; [apply pub_keeps_getOwned|]. intros p _. apply spec_if; intros _; [|done].
  eapply pub_keeps_bind; [done|]. intros now _. apply pub_keeps_apply. intros _. exists who. split_and!; [done|done|by eexists].
Qed.

Lemma pub_keeps_Reject cx ws id who : keeps (Reject env cx ws id who) (fun _ => True).
Proof.
  unfold Reject. apply spec_if; intros Hb; [by apply pub_keeps_then|].
  eapply pub_keeps_bind; [apply pub_keeps_getOwned|]. intros p _. apply spec_if; intros _; [|done].
  eapply pub_keeps_bind; [done|]. intros now _. by apply pub_keeps_apply.
Qed.

Lemma HasApproval_status p : HasApproval p = true -> p_Status p = StatusApproved.
Proof. unfold HasApproval. intros H1. by bool_prop. Qed.

Lemma pub_keeps_Publish cx ws id who : keeps (Publish env deliver cx ws id who) (fun _ => True).
Proof.
  unfold Publish. apply spec_if; intros _; [by apply pub_keeps_then|].
  eapply pub_keeps_bind; [apply pub_keeps_throttle|]. intros ok _. apply spec_if; intros _; [by apply pub_keeps_then|].
  eapply pub_keeps_bind; [apply pub_keeps_getOwned|]. intros p Hp. destruct (CanTransition _ _); [by apply pub_keeps_then|].
  apply spec_if; intros Hb; [by apply pub_keeps_then|]. apply negb_false_iff in Hb.
  assert (human_ok p) as Hh by (apply Hp; by rewrite (HasApproval_status p Hb)).
  eapply (pub_keeps_bind _ _ (fun _ => True)); [by eapply pub_keeps_any, pub_keeps_try, pub_keeps_publish|]. intros [ref|e] _.
  - eapply pub_keeps_bind; [done|]. intros now _.
    eapply pub_keeps_bind; [by apply pub_keeps_apply|]. intros q _. by apply pub_keeps_ret.
  - eapply (pub_keeps_bind _ _ (fun _ => True)); [by eapply pub_keeps_any, pub_keeps_try, pub_keeps_apply|]. intros r _.
    apply pub_keeps_then; [done|]. destruct r; [by apply pub_keeps_ret|done].
Qed.

Lemma pub_keeps_Retry cx ws id who : keeps (Retry env deliver cx ws id who) (fun _ => True).
Proof.
  unfold Retry. apply spec_if; intros _; [done|].
  eapply pub_keeps_bind; [apply pub_keeps_throttle|]. intros ok _. apply spec_if; intros _; [|done].
  eapply pub_keeps_bind; [apply pub_keeps_getOwned|]. intros p Hp. apply spec_if; intros Hf; [|done]. bool_prop.
  apply spec_if; intros Ha; [|done]. bool_prop.
  assert (human_ok p) as Hh by (apply Hp; by rewrite Hf).
  eapply (pub_keeps_bind _ _ (fun _ => True)); [eapply pub_keeps_any, pub_keeps_try, pub_keeps_publish; [|done]|intros [ref|e] _].
  - unfold HasApproval. simpl. rewrite !bool_decide_eq_true_2 by done. done.
  - eapply pub_keeps_bind; [done|]. intros now _.
    eapply pub_keeps_bind; [by apply pub_keeps_apply|]. intros q _. by apply pub_keeps_ret.
  - eapply pub_keeps_bind; [done|]. intros now _.
    eapply (pub_keeps_bind _ _ (fun _ => True)); [eapply pub_keeps_any, pub_keeps_try, pub_keeps_update; intros _; exact Hh|]. intros r _.
    apply pub_keeps_then; [done|]. destruct r; [by apply pub_keeps_ret|done].
Qed.

Lemma pub_keeps_handle r : keeps (handle r) (fun _ => True).
Proof.
  assert (forall A (m : act World err A), keeps m (fun _ => True) -> keeps (m ;;! act_ret tt) (fun _ => True)) as Hk.
  { intros A m Hm. eapply pub_keeps_bind; [exact Hm|]. intros a _. by apply pub_keeps_ret. }
  destruct r; apply Hk.
  - apply pub_keeps_CreateWithIdempotency.
  - by apply pub_keeps_transition.
  - by apply pub_keeps_transition.
  - apply pub_keeps_Approve.
  - apply pub_keeps_Reject.
  - apply pub_keeps_Publish.
  - apply pub_keeps_Retry.
  - eapply pub_keeps_any, pub_keeps_getOwned.
  - by eapply (pub_keeps_read _ (fun _ => True)).
Qed.

Lemma Inv_serve rs w : Inv w -> Inv (serve rs w).
Proof.
  revert w. induction rs as [|r rs IH]; intros w Hw; [done|]. apply IH.
  pose proof (pub_keeps_handle r w Hw) as Hr. destruct (handle r w) as [[[]|e] w']; [apply Hr|done].
Qed.
End requests.

(** C6. Human oversight: whatever requests are served, whatever other processes
    that respect the same rule commit between any two store calls, and whatever
    the store and the delivery adapter fail on, every publication that is
    approved, published or failed carries the name and instant of a non-blank
    human approver, and nothing reaches the delivery adapter without one. *)
Theorem human_oversight `{UuidText} env deliver rs w :
  (forall n db, oversight db -> oversight (tt_others (env n) db)) ->
  oversight (w_db w) -> handed_ok (w_handed w) ->
  oversight (w_db (serve env deliver rs w)) /\ handed_ok (w_handed (serve env deliver rs w)).
Proof. intros Hrely Ho Hh. by apply (Inv_serve env deliver Hrely rs w). Qed.

(** ** The lifecycle *)

Definition moved (s s' : Status) : Prop :=
  s' = s \/ CanTransition s s' = None \/ (s = StatusFailed /\ s' = StatusPublished).

Definition same_content (p p' : Publication) : Prop :=
  p_ID p' = p_ID p /\ p_WorkspaceID p' = p_WorkspaceID p /\ p_Title p' = p_Title p /\ p_Body p' = p_Body p /\
  p_Platform p' = p_Platform p /\ p_ContentHash p' = p_ContentHash p /\ p_CreatedAt p' = p_CreatedAt p.

Definition lifecycle (db db' : PubDB) : Prop := forall id p, pd_rows db !! id = Some p ->
  exists p', pd_rows db' !! id = Some p' /\ moved (p_Status p) (p_Status p') /\ same_content p p'.

Definition wf (db : PubDB) : Prop :=
  map_Forall (fun id p => p_ID p = id /\ (id < pd_next db)%N /\ ValidStatus (p_Status p) = true) (pd_rows db).

Lemma lifecycle_refl db : lifecycle db db.
Proof. intros id p Hp. exists p. split; [done|]. split; [by left|done]. Qed.

Section quiet.
Context `{UuidText}.
Variable env : nat -> TxTick PubDB.
Variable deliver : nat -> Publication -> res err string.
Hypothesis alone : forall n db, tt_others (env n) db = db.
Variable db0 : PubDB.
Hypothesis Hwf : wf db0.

Definition at0 (w : World) : Prop := w_db w = db0.
Definition after0 (w : World) : Prop := lifecycle db0 (w_db w) /\ wf (w_db w).

Lemma at0_after0 w : at0 w -> after0 w.
Proof. unfold at0, after0. intros ->. split; [apply lifecycle_refl|done]. Qed.

Abbreviation ends m := (spec at0 m (fun _ => after0) after0).

Lemma silent {A} (m : act World err A) (P : World -> Prop) :
  (forall w, w_db (m w).2 = w_db w) -> (forall w w', w_db w' = w_db w -> P w -> P w') ->
  (forall w, P w -> after0 w) -> spec P m (fun _ => P) after0.
Proof.
  intros Hm HP HX w Hw. specialize (Hm w). destruct (m w) as [[a|e] w']; simpl in Hm; [by eapply HP|].
  apply HX. by eapply HP.
Qed.

Lemma at0_same w w' : w_db w' = w_db w -> at0 w -> at0 w'.
Proof. unfold at0. congruence. Qed.
Lemma after0_same w w' : w_db w' = w_db w -> after0 w -> after0 w'.
Proof. unfold after0. by intros ->. Qed.

Lemma quiet0 {A} (m : act World err A) : (forall w, w_db (m w).2 = w_db w) -> spec at0 m (fun _ => at0) after0.
Proof. intros Hm. apply silent; [done|apply at0_same|apply at0_after0]. Qed.
Lemma quiet1 {A} (m : act World err A) : (forall w, w_db (m w).2 = w_db w) -> spec after0 m (fun _ => after0) after0.
Proof. intros Hm. apply silent; [done|apply after0_same|done]. Qed.

Lemma tx_db {A} (op : time -> PubDB -> res err (A * PubDB)) w :
  w_db (tx env op w).2 = w_db w \/
  exists now a db', op now (w_db w) = Ok (a, db') /\ w_db (tx env op w).2 = db'.
Proof.
  unfold tx. destruct (run_tx_cases ErrStore (env (w_at w)) op (w_db w)) as [Hc|(a & db' & Hop & Hc)].
  - left. destruct (run_tx _ _ _ _); simpl in *. by rewrite Hc, alone.
  - right. rewrite alone in Hop. exists (tt_now (env (w_at w))), a, db'. split; [done|].
    by destruct (run_tx _ _ _ _).
Qed.

Lemma read_db {A} (op : PubDB -> res err A) w : w_db (read env op w).2 = w_db w.
Proof.
  unfold read. match goal with |- context [tx env ?f w] => destruct (tx_db f w) as [?|(now & a & db' & Hop & ->)] end; [done|].
  by apply res_bind_Ok in Hop as (x & _ & [= _ ->]).
Qed.
Lemma throttle_db k w : w_db (throttle_Allow env k w).2 = w_db w.
Proof. unfold throttle_Allow. by destruct (Allow _ _ _). Qed.

(** A loaded publication is the row. *)
Definition loaded (ws id : uuid) (p : Publication) : Prop :=
  pd_rows db0 !! id = Some p /\ p_ID p = id /\ p_WorkspaceID p = ws.

Lemma getOwned_at0 ws id : spec at0 (getOwned env ws id) (fun p w => loaded ws id p /\ at0 w) after0.
Proof.
  unfold getOwned. eapply (spec_bind _ _ _ (fun p w => loaded ws id p /\ at0 w)).
  - intros w Hw. pose proof (read_db (db_Get ws id) w) as Hdb. unfold read, tx in *.
    destruct (run_tx _ _ _ _) as [r db] eqn:Hr. simpl in Hdb.
    assert (at0 (with_db db (tick w))) as Hat by (unfold at0 in *; simpl; congruence).
    destruct r as [p|e]; [|by apply at0_after0]. split; [|done].
    apply run_tx_Ok in Hr. rewrite alone in Hr. apply res_bind_Ok in Hr as (q & Hg & [= -> _]).
    unfold at0 in Hw. rewrite Hw in Hg. unfold db_Get, find_row in Hg.
    destruct (pd_rows db0 !! id) as [q|] eqn:Hq; [|done]. destruct (N.eqb_spec (p_WorkspaceID q) ws); [|done].
    simplify_eq. split_and!; [done|by apply (Hwf id)|done].
  - intros p. apply spec_if; intros _; [by apply spec_ret|apply spec_fail]. intros w [_ ?]. by apply at0_after0.
Qed.

Lemma update_at0 ws id p p0 :
  loaded ws id p0 -> p_ID p = id -> moved (p_Status p0) (p_Status p) ->
  spec at0 (tx env (db_Update ws p)) (fun _ => after0) after0.
Proof.
  intros (Hp0 & HI0 & HW) HI Hmv w Hw.
  enough (after0 (tx env (db_Update ws p) w).2) as Hk by (by destruct (tx env _ w) as [[?|?] ?]).
  unfold at0 in Hw. destruct (tx_db (db_Update ws p) w) as [Hs|(now & a & db' & Hop & Hs)].
  { by apply at0_after0; unfold at0; rewrite Hs. }
  unfold after0. rewrite Hs. rewrite Hw in Hop. unfold db_Update in Hop. apply guard_Ok in Hop as [_ Hop].
  assert (p_ID (set_p_UpdatedAt now p) = id) as HI' by done.
  unfold find_row in Hop. rewrite HI' in Hop. rewrite Hp0 in Hop. rewrite (proj2 (N.eqb_eq _ _) HW) in Hop.
  apply guard_Ok in Hop as [Hv Hop]. apply guard_Ok in Hop as [_ Hop]. injection Hop as _ <-.
  rewrite <-HI0 in Hp0. subst id. simpl. split.
  - intros i q Hq. destruct (decide (p_ID p0 = i)) as [<-|Hne].
    + simpl. rewrite lookup_insert_eq. simplify_eq. eexists. split; [done|]. by split.
    + simpl. rewrite lookup_insert_ne by done. exists q. split; [done|]. split; [by left|done].
  - unfold wf. simpl. apply map_Forall_insert_2; [|exact Hwf]. by destruct (Hwf _ _ Hp0) as (_ & Hlt & _).
Qed.

Lemma apply_ends cx ws id p p0 to at_ a :
  loaded ws id p0 -> p_ID p = id -> (CanTransition (p_Status p) to = None -> moved (p_Status p0) to) ->
  ends (apply env cx ws p to at_ a).
Proof.
  intros Hl HI Hmv. unfold apply. destruct (CanTransition (p_Status p) to) as [e|].
  - eapply spec_bind; [by apply quiet0|]. intros []. apply spec_fail, at0_after0.
  - eapply spec_bind; [by apply quiet0|]. intros now.
    eapply spec_bind; [eapply update_at0; [exact Hl|done|by apply Hmv]|]. intros q.
    repeat (eapply spec_bind; [by apply quiet1|]; intros []). by apply spec_ret.
Qed.

Lemma then_fail {A} (m : act World err unit) e : (forall w, w_db (m w).2 = w_db w) -> ends (m ;;! act_fail e : act World err A).
Proof. intros Hm. eapply spec_bind; [by apply quiet0|]. intros []. apply spec_fail, at0_after0. Qed.

Lemma fail_ends {A} e : ends (act_fail e : act World err A).
Proof. apply spec_fail, at0_after0. Qed.
Lemma ret1 {A} (a : A) : spec after0 (act_ret a : act World err A) (fun _ => after0) after0.
Proof. by apply spec_ret. Qed.

Lemma with_loaded {A} ws id (f : Publication -> act World err A) :
  (forall p, loaded ws id p -> ends (f p)) -> ends (act_bind (getOwned env ws id) f).
Proof. intros Hf. eapply spec_bind; [apply getOwned_at0|]. intros p. apply spec_pure, Hf. Qed.

Lemma silently {A B} (m : act World err A) (f : A -> act World err B) :
  (forall w, w_db (m w).2 = w_db w) -> (forall a, ends (f a)) -> ends (act_bind m f).
Proof. intros Hm Hf. eapply spec_bind; [by apply quiet0|exact Hf]. Qed.

Lemma transition_ends cx ws id to at_ a : ends (transition env cx ws id to at_ a).
Proof.
  unfold transition. apply spec_if; intros _; [|apply fail_ends]. apply with_loaded. intros p Hp.
  eapply apply_ends; [exact Hp|apply Hp|]. intros Hc. right. by left.
Qed.

Lemma Approve_ends cx ws id who : ends (Approve env cx ws id who).
Proof.
  unfold Approve. apply spec_if; intros _; [by apply then_fail|]. apply with_loaded. intros p Hp.
  apply spec_if; intros _; [|apply fail_ends]. apply silently; [done|]. intros now.
  eapply apply_ends; [exact Hp|apply Hp|]. intros Hc. right. by left.
Qed.
Lemma Reject_ends cx ws id who : ends (Reject env cx ws id who).
Proof.
  unfold Reject. apply spec_if; intros _; [by apply then_fail|]. apply with_loaded. intros p Hp.
  apply spec_if; intros _; [|apply fail_ends]. apply silently; [done|]. intros now.
  eapply apply_ends; [exact Hp|apply Hp|]. intros Hc. right. by left.
Qed.

Lemma try_ends {A B} (m : act World err A) (f : res err A -> act World err B) :
  ends m -> (forall r, spec after0 (f r) (fun _ => after0) after0) -> ends (act_bind (act_try m) f).
Proof.
  intros Hm Hf. eapply spec_bind; [eapply spec_try, Hm|]. intros r.
  eapply spec_weaken; [apply Hf|by destruct r|done|done].
Qed.

Lemma Publish_ends cx ws id who : ends (Publish env deliver cx ws id who).
Proof.
  unfold Publish. apply spec_if; intros _; [by apply then_fail|]. apply silently; [apply throttle_db|]. intros ok.
  apply spec_if; intros _; [by apply then_fail|]. apply with_loaded. intros p Hp.
  destruct (CanTransition _ _) eqn:Hc; [by apply then_fail|]. apply spec_if; intros _; [by apply then_fail|].
  apply silently; [done|]. intros [ref|e].
  - apply silently; [done|]. intros now. eapply spec_bind; [|intros q; apply ret1].
    eapply apply_ends; [exact Hp|apply Hp|]. intros Hc'. right. by left.
  - apply try_ends.
    + eapply apply_ends; [exact Hp|apply Hp|]. intros Hc'. right. by left.
    + intros r. eapply spec_bind; [by apply quiet1|]. intros []. destruct r; [apply ret1|by apply spec_fail].
Qed.

Lemma Retry_ends cx ws id who : ends (Retry env deliver cx ws id who).
Proof.
  unfold Retry. apply spec_if; intros _; [apply fail_ends|]. apply silently; [apply throttle_db|]. intros ok.
  apply spec_if; intros _; [|apply fail_ends]. apply with_loaded. intros p Hp.
  apply spec_if; intros Hf; [|apply fail_ends]. bool_prop. apply spec_if; intros _; [|apply fail_ends].
  apply silently; [done|]. intros [ref|e].
  - apply silently; [done|]. intros now. eapply spec_bind; [|intros q; apply ret1].
    eapply apply_ends; [exact Hp|apply Hp|]. intros _. right. right. done.
  - apply silently; [done|]. intros now. apply try_ends.
    + eapply update_at0; [exact Hp|apply Hp|]. left. simpl. congruence.
    + intros r. eapply spec_bind; [by apply quiet1|]. intros []. destruct r; [apply ret1|by apply spec_fail].
Qed.

Lemma create_ends cx ws g t title body platform key : ends (create env cx ws g t title body platform key).
Proof.
  unfold create. apply spec_if; intros _; [|apply fail_ends]. apply silently; [done|]. intros now.
  apply silently; [done|]. intros w. destruct (New _ _ _ _ _ _ _ _) as [p|e]; [|by apply then_fail].
  apply try_ends.
  - intros w' Hw. unfold at0 in Hw. match goal with |- context [tx env ?f w'] =>
      enough (after0 (tx env f w').2) as Hk by (by destruct (tx env f w') as [[?|?] ?]);
      destruct (tx_db f w') as [Hs|(n & a & db' & Hop & Hs)] end.
    { by apply at0_after0; unfold at0; rewrite Hs. }
    unfold after0. rewrite Hs. rewrite Hw in Hop. unfold db_Create in Hop.
    apply guard_Ok in Hop as [_ Hop]. apply guard_Ok in Hop as [Hv Hop].
    repeat (apply guard_Ok in Hop as [_ Hop]). injection Hop as _ <-. split.
    + intros i q Hq. simpl. destruct (Hwf _ _ Hq) as (_ & Hlt & _). rewrite lookup_insert_ne by lia.
      exists q. split; [done|]. split; [by left|done].
    + unfold wf. simpl. apply map_Forall_insert_2; [split_and!; [done|lia|done]|].
      intros i q Hq. destruct (Hwf _ _ Hq) as (? & ? & ?). split_and!; [done|lia|done].
  - intros [q|e].
    + repeat (eapply spec_bind; [by apply quiet1|]; intros []). apply ret1.
    + assert (forall r : AuditRecord, spec after0 (audit r ;;! act_fail e : act World err Publication) (fun _ => after0) after0) as Hr.
      { intros r. eapply spec_bind; [by apply quiet1|]. intros []. by apply spec_fail. }
      apply spec_if; intros _; [|apply Hr]. eapply spec_bind; [apply quiet1|intros [q|?]; [apply ret1|apply Hr]].
      intros w'. unfold act_try. pose proof (read_db (db_GetByIdempotency ws key) w'). by destruct (read _ _ _).
Qed.

Lemma handle_ends r : ends (handle env deliver r).
Proof.
  assert (forall A (m : act World err A), ends m -> ends (m ;;! act_ret tt)) as Hk.
  { intros A m Hm. eapply spec_bind; [exact Hm|]. intros a. apply ret1. }
  destruct r; apply Hk.
  - unfold CreateWithIdempotency, Create. apply spec_if; intros _; [apply create_ends|].
    apply spec_if; intros _; [apply fail_ends|]. apply silently.
    { intros w'. unfold act_try. match goal with |- context [read env ?f w'] => pose proof (read_db f w') end.
      by destruct (read _ _ _). }
    intros [q|e]; [by apply spec_ret, at0_after0|]. destruct e; try apply fail_ends. apply create_ends.
  - apply transition_ends.
  - apply transition_ends.
  - apply Approve_ends.
  - apply Reject_ends.
  - apply Publish_ends.
  - apply Retry_ends.
  - unfold Get. eapply spec_weaken; [apply getOwned_at0|done| |done]. intros p w [_ ?]. by apply at0_after0.
  - eapply spec_weaken; [apply quiet0; intros w; apply read_db|done| |done]. intros a w ?. by apply at0_after0.
Qed.
End quiet.

(** The lifecycle: a request served alone, whatever the store and the
    adapter fail on, leaves every publication where it was or moves it along
    one edge of the state machine - queued to review to approved to published,
    with the rejection, cancellation and failure exits, and from failed to
    published by the explicit retry - and never touches its content, hash or
    workspace. *)
Theorem publication_lifecycle `{UuidText} env deliver r w :
  (forall n db, tt_others (env n) db = db) -> wf (w_db w) ->
  lifecycle (w_db w) (w_db (handle env deliver r w).2) /\ wf (w_db (handle env deliver r w).2).
Proof.
  intros Ha Hwf. pose proof (handle_ends env deliver Ha (w_db w) Hwf r w eq_refl) as Hk.
  by destruct (handle env deliver r w) as [[?|?] w'].
Qed.

(** ** A failed delivery *)

Section calm.
Context `{UuidText}.
Variable clock : nat -> time.
Variable deliver : nat -> Publication -> res err string.

(** Nobody else at work, nothing failing. *)
Definition calm : nat -> TxTick PubDB := fun n => mkTxTick (clock n) (fun db => db) NoFault.

Lemma tx_calm {A} (op : time -> PubDB -> res err (A * PubDB)) w :
  tx calm op w = match op (clock (w_at w)) (w_db w) with
                 | Ok (a, db) => (Ok a, with_db db (tick w))
                 | Err e => (Err e, with_db (w_db w) (tick w))
                 end.
Proof. unfold tx, run_tx. simpl. by destruct (op _ _) as [[a db]|e]. Qed.

Lemma getOwned_calm ws id p w :
  pd_rows (w_db w) !! id = Some p -> p_WorkspaceID p = ws ->
  getOwned calm ws id w = (Ok p, with_db (w_db w) (tick w)).
Proof.
  intros Hp HW. unfold getOwned, read, act_bind. rewrite tx_calm. unfold db_Get, find_row. rewrite Hp.
  rewrite (proj2 (N.eqb_eq _ _) HW). simpl. by rewrite (proj2 (N.eqb_eq _ _) HW).
Qed.

(** The text columns of a row, which the UPDATE writes back. *)
Definition row_text_ok (p : Publication) : bool :=
  text_ok (p_IdempotencyKey p) && text_ok (p_ExternalReference p) && text_ok (p_FailureReason p)
  && otext_ok (p_ApprovedBy p) && otext_ok (p_RejectedBy p) && otext_ok (p_PublishedBy p).

(** The row [id] after an update that keeps its key. *)
Lemma update_calm ws id p row w :
  pd_rows (w_db w) !! id = Some row -> p_WorkspaceID row = ws -> p_ID row = id -> p_ID p = id ->
  row_text_ok p = true -> ValidStatus (p_Status p) = true ->
  p_IdempotencyKey p = p_IdempotencyKey row -> keys_ok row (pd_rows (w_db w)) = true ->
  exists now w', tx calm (db_Update ws p) w = (Ok (set_p_UpdatedAt now p), w') /\
    pd_rows (w_db w') = <[id := updated_row (set_p_UpdatedAt now p) row now]> (pd_rows (w_db w)).
Proof.
  intros Hr HW HI HI' Ht Hv Hkey Hk. exists (clock (w_at w)). rewrite tx_calm. unfold db_Update.
  unfold row_text_ok in Ht. simpl. rewrite Ht. unfold find_row. rewrite HI', Hr, (proj2 (N.eqb_eq _ _) HW), Hv.
  assert (forall p', p_IdempotencyKey p' = p_IdempotencyKey row ->
    keys_ok (updated_row p' row (clock (w_at w))) (pd_rows (w_db w)) = true) as Hkeys.
  { intros p' Hp'. unfold keys_ok in *. apply bool_decide_eq_true in Hk. apply bool_decide_eq_true.
    intros i q Hq. destruct (Hk i q Hq) as [->|Hs]; [by left|right]. unfold same_key in *. simpl. by rewrite Hp'. }
  rewrite Hkeys by done. eexists. by split.
Qed.

Lemma apply_calm cx ws id p row w to at_ a :
  CanTransition (p_Status p) to = None ->
  pd_rows (w_db w) !! id = Some row -> p_WorkspaceID row = ws -> p_ID row = id -> p_ID p = id ->
  row_text_ok p = true -> p_IdempotencyKey p = p_IdempotencyKey row ->
  keys_ok row (pd_rows (w_db w)) = true ->
  exists now w', apply calm cx ws p to at_ a w = (Ok (set_p_UpdatedAt now (set_p_Status to p)), w') /\
    pd_rows (w_db w') = <[id := updated_row (set_p_UpdatedAt now (set_p_Status to p)) row now]> (pd_rows (w_db w)).
Proof.
  intros Hc Hr HW HI HI' Ht Hkey Hk. unfold apply. rewrite Hc. unfold act_bind at 1, now_.
  set (p1 := set_p_UpdatedAt _ (set_p_Status to p)).
  destruct (update_calm ws id p1 row (tick w)) as (now & w' & Hu & Hrows); try done.
  { unfold CanTransition in Hc. destruct (negb (ValidStatus (p_Status p)) || _) eqn:E; [done|]. by bool_prop. }
  unfold act_bind at 1. rewrite Hu. eexists now, _. split; [reflexivity|]. exact Hrows.
Qed.

Lemma Publish_failed cx ws id who e row w :
  blank who = false -> (Allow (uuid_String ws) (clock (w_at w)) (w_throttle w)).1 = true ->
  pd_rows (w_db w) !! id = Some row -> p_WorkspaceID row = ws -> p_ID row = id ->
  HasApproval row = true -> row_text_ok (set_p_FailureReason (failureReason e) row) = true ->
  keys_ok row (pd_rows (w_db w)) = true -> (forall n p, deliver n p = Err e) ->
  exists q w', Publish calm deliver cx ws id who w = (Ok (q, Some e), w') /\
    exists now, pd_rows (w_db w') !! id =
      Some (set_p_UpdatedAt now (set_p_Status StatusFailed (set_p_FailureReason (failureReason e) row))).
Proof.
  intros Hwho Hthr Hr HW HI Ha Ht Hk Hdel. unfold Publish. rewrite Hwho.
  pose proof (HasApproval_status row Ha) as HS.
  destruct (Allow (uuid_String ws) (clock (w_at w)) (w_throttle w)) as [ok t] eqn:Hal. simpl in Hthr. subst ok.
  set (w1 := mkWorld (w_db w) (S (w_at w)) t (w_handed w) (w_audit w) (w_events w)).
  rewrite (act_bind_run _ _ w true w1) by (unfold throttle_Allow; simpl; by rewrite Hal).
  cbn [negb]. rewrite (act_bind_run _ _ _ _ _ (getOwned_calm ws id row w1 Hr HW)).
  rewrite HS. cbn [CanTransition ValidStatus negb orb terminal allowedTransition].
  rewrite !bool_decide_eq_false_2, bool_decide_eq_true_2 by done. cbn [orb negb]. rewrite Ha. cbn [negb].
  set (w2 := tick (with_db (w_db w1) (tick w1))).
  rewrite (act_bind_run _ _ _ (Err e) (mkWorld (w_db w) (S (S (S (w_at w)))) t (row :: w_handed w) (w_audit w) (w_events w)))
    by (apply act_try_run; unfold pub_Publish; by rewrite Hdel).
  set (w3 := mkWorld _ _ _ (row :: _) _ _).
  destruct (apply_calm cx ws id (set_p_FailureReason (failureReason e) row) row w3 StatusFailed "human" who)
    as (now & w' & Hap & Hrows); try done.
  { simpl. by rewrite HS. }
  rewrite (act_bind_run _ _ _ _ _ (act_try_run _ _ _ _ Hap)).
  rewrite (act_bind_run (audit _) _ w' tt _ eq_refl).
  eexists _, _. split; [reflexivity|]. exists now. simpl. rewrite Hrows, lookup_insert_eq. by destruct row.
Qed.
End calm.

(** A failed delivery is on record: publishing an approved publication
    whose delivery fails stores it as failed with the (bounded) reason and the
    approval intact, and returns it together with the adapter's error. *)
Theorem delivery_failure_recorded `{UuidText} clock deliver cx ws id who e row w :
  blank who = false -> (Allow (uuid_String ws) (clock (w_at w)) (w_throttle w)).1 = true ->
  pd_rows (w_db w) !! id = Some row -> p_WorkspaceID row = ws -> p_ID row = id ->
  HasApproval row = true -> row_text_ok (set_p_FailureReason (failureReason e) row) = true ->
  keys_ok row (pd_rows (w_db w)) = true -> (forall n p, deliver n p = Err e) ->
  exists q w', Publish (calm clock) deliver cx ws id who w = (Ok (q, Some e), w') /\
    exists row', pd_rows (w_db w') !! id = Some row' /\ p_Status row' = StatusFailed /\
      p_FailureReason row' = failureReason e /\ String.length (p_FailureReason row') <= 512 /\
      p_ApprovedBy row' = p_ApprovedBy row /\ p_ApprovedAt row' = p_ApprovedAt row.
Proof.
  intros Hwho Hthr Hr HW HI Ha Ht Hk Hdel.
  destruct (Publish_failed clock deliver cx ws id who e row w) as (q & w' & HP & now & Hrow); try done.
  exists q, w'. split; [done|]. eexists. split; [exact Hrow|]. split_and!; try done. simpl.
  unfold failureReason. destruct (String.eqb _ ""); [simpl; lia|].
  destruct (Nat.ltb_spec 512 (String.length (TrimSpace (err_Error e)))); [|lia].
  apply take_bytes_length.
Qed.

(** ** A reviewed publication *)

#[local] Hint Extern 0 UuidText => exact unary_uuid : typeclass_instances.

Definition demo_cx : Ctx := mkCtx "ada" "trace" "span".
Definition demo_deliver (n : nat) (p : Publication) : res err string := Ok "ref-1".
Definition demo_refuse (n : nat) (p : Publication) : res err string := Err (ErrDelivery "endpoint down").
Definition demo_calm : nat -> TxTick PubDB := calm (fun n => Z.of_nat n).
Definition start : World := mkWorld (mkPubDB ∅ {[ 7%N ]} 1) 0 service_throttle [] [] [].

Definition reviewed : World :=
  serve demo_calm demo_deliver
    [ReqCreate demo_cx 7 None None "Title" "Body" "" "key-1"; ReqToReview demo_cx 7 1] start.
Definition approved : World := serve demo_calm demo_deliver [ReqApprove demo_cx 7 1 "ada"] reviewed.

Definition blank_row : Publication :=
  mkPublication 0 0 None None "" "" "" StatusQueued "" "" None None None None None None "" "" 0 0.
Definition row_of (w : World) : Publication := default blank_row (pd_rows (w_db w) !! 1%N).
Definition approved_row : Publication := Eval vm_compute in row_of approved.

Lemma alone_calm : forall n db, tt_others (demo_calm n) db = db.
Proof. done. Qed.

Lemma start_oversight : oversight (w_db start) /\ handed_ok (w_handed start) /\ wf (w_db start).
Proof. split; [|split]; [apply map_Forall_empty|constructor|apply map_Forall_empty]. Qed.

Lemma human_oversight_witness :
  let w := serve demo_calm demo_deliver
    [ReqCreate demo_cx 7 None None "Title" "Body" "" "key-1"; ReqToReview demo_cx 7 1;
     ReqApprove demo_cx 7 1 "ada"; ReqPublish demo_cx 7 1 "bob"] start in
  p_Status (row_of w) = StatusPublished /\ length (w_handed w) = 1 /\ oversight (w_db w) /\ handed_ok (w_handed w).
Proof.
  split; [vm_compute; reflexivity|]. split; [vm_compute; reflexivity|].
  apply (human_oversight demo_calm demo_deliver); [intros n db Hdb; exact Hdb|apply start_oversight|apply start_oversight].
Defined.

Lemma publication_lifecycle_witness :
  lifecycle (w_db start) (w_db (handle demo_calm demo_deliver
    (ReqCreate demo_cx 7 None None "Title" "Body" "" "key-1") start).2).
Proof. apply (publication_lifecycle demo_calm demo_deliver _ start alone_calm). apply start_oversight. Defined.

Lemma delivery_failure_recorded_witness :
  exists q w', Publish demo_calm demo_refuse demo_cx 7 1 "ada" approved = (Ok (q, Some (ErrDelivery "endpoint down")), w') /\
    exists row', pd_rows (w_db w') !! 1%N = Some row' /\ p_Status row' = StatusFailed.
Proof.
  destruct (delivery_failure_recorded (fun n => Z.of_nat n) demo_refuse demo_cx 7 1 "ada"
    (ErrDelivery "endpoint down") approved_row approved) as (q & w' & HP & row' & Hr & HS & _);
    [vm_compute; reflexivity..| |].
  - intros n p. reflexivity.
  - exists q, w'. split; [exact HP|]. exists row'. split; [exact Hr|exact HS].
Defined.

(** ** Concurrent decisions

    While a rejection of a publication in review is between its read and its
    write, another request approves and publishes the same publication. *)

Definition other_publishes (db : PubDB) : PubDB :=
  w_db (serve demo_calm demo_deliver [ReqApprove demo_cx 7 1 "ada"; ReqPublish demo_cx 7 1 "ada"]
          (mkWorld db 0 service_throttle [] [] [])).

(** The rejection reads at its first store call and writes at its second: the
    other request commits just before the fourth step, the write. *)
Definition racing (start_at : nat) : nat -> TxTick PubDB := fun n =>
  mkTxTick (Z.of_nat n) (if Nat.eqb n (start_at + 3) then other_publishes else fun db => db) NoFault.

(** Decisions overwrite each other: a rejection that was decided on a
    publication in review is written over the row another request has published
    in the meantime.  The rejection reports success, the row reads rejected, a
    final stage has been left, and the delivery has happened. *)
Theorem stale_rejection_overwrites_published :
  let db1 := other_publishes (w_db reviewed) in
  let '(res, w') := Reject (racing (w_at reviewed)) demo_cx 7 1 "bob" reviewed in
  (exists p, pd_rows db1 !! 1%N = Some p /\ p_Status p = StatusPublished /\ p_ExternalReference p = "ref-1") /\
  (exists p, res = Ok p /\ p_Status p = StatusRejected) /\
  (exists p, pd_rows (w_db w') !! 1%N = Some p /\ p_Status p = StatusRejected /\ p_ExternalReference p = "" /\
     p_ApprovedBy p = None) /\
  CanTransition StatusPublished StatusRejected = Some ErrTerminalState.
Proof. vm_compute. repeat split; eexists; repeat split. Qed.

(** ** Content hashes *)

(** The stored hash covers the submitted title, not the stored one: [New]
    digests the title before trimming it, so a title with surrounding blanks is
    stored under a hash that is not the digest of the stored title and body. *)
Theorem content_hash_of_untrimmed_title :
  (forall ws g t title body platform fresh now p,
     New ws g t title body platform fresh now = Ok p ->
     p_ContentHash p = ContentDigest title (p_Body p) /\ p_Title p = TrimSpace title) /\
  (exists p, New 7 None None " Title" "Body" "" 1 0 = Ok p /\
     p_ContentHash p <> ContentDigest (p_Title p) (p_Body p)).
Proof.
  split.
  - intros ws g t title body platform fresh now p Hn. unfold New in Hn.
    apply guard_Ok in Hn as [_ Hn]. apply guard_Ok in Hn as [_ Hn]. by simplify_eq.
  - eexists. split; [reflexivity|]. vm_compute. discriminate.
Qed.

(** A reason cut at 512 bytes may end inside a character, which PostgreSQL
    refuses to store. *)
Definition long_reason : string :=
  String.string_of_list_ascii (replicate 511 (char_of 97)) +:+ of_bytes [195; 169]%Z.

Example failureReason_splits_rune :
  text_ok long_reason = true /\ text_ok (failureReason (ErrDelivery long_reason)) = false.
Proof. split; vm_compute; reflexivity. Qed.
