(* ===== verification/Delivery.v ===== *)
(** * internal/publish: the delivery adapters

    [StubPublisher], [GenericHTTPPublisher] and the factory that selects one:
    validated settings, bounded retries, one idempotency key per publication. *)

From S2P Require Import Prelude GoLib Publish Backoff.

(** ** Configuration (publisher_factory.go, NewGenericHTTPPublisher) *)

Definition BackendStub : string := "stub".
Definition BackendGenericHTTP : string := "generic-http".

Record PublisherConfig : Type := mkConfig {
  cfg_Backend : string;
  cfg_WebhookURL : string;
  cfg_Token : string;
  cfg_IdempotencyKeyField : string;
  cfg_MaxAttempts : Z;
  cfg_BackoffBase : duration;
  cfg_BackoffMax : duration
}.

Record GenericHTTPPublisher : Type := mkGeneric {
  gp_webhookURL : string;
  gp_token : string;
  gp_idempotencyField : string;
  gp_maxAttempts : Z;
  gp_backoffBase : duration;
  gp_backoffMax : duration
}.

Definition maxResponseBytes : Z := Z.shiftl 64 20.
Definition defaultMaxAttempts : Z := 1.
Definition defaultBackoffBase : duration := 500000000%Z.
Definition defaultBackoffMax : duration := (30 * Second)%Z.

(** [ErrPublisherConfig] with its detail. *)
Definition config_error (detail : string) : string :=
  "publish: invalid publisher configuration: " +:+ detail.

Definition NewGenericHTTPPublisher (cfg : PublisherConfig) : res string GenericHTTPPublisher :=
  guard! negb (blank (cfg_WebhookURL cfg)) else config_error "webhook url is required" in
  guard! negb (blank (cfg_Token cfg)) else config_error "token is required" in
  let attempts := if (cfg_MaxAttempts cfg <? 1)%Z then defaultMaxAttempts else cfg_MaxAttempts cfg in
  let base := if (cfg_BackoffBase cfg <=? 0)%Z then defaultBackoffBase else cfg_BackoffBase cfg in
  let backoffMax := if (cfg_BackoffMax cfg <=? 0)%Z then defaultBackoffMax else cfg_BackoffMax cfg in
  let backoffMax := if (backoffMax <? base)%Z then base else backoffMax in
  Ok (mkGeneric (cfg_WebhookURL cfg) (cfg_Token cfg) (TrimSpace (cfg_IdempotencyKeyField cfg)) attempts base backoffMax).

Inductive Publisher : Type :=
| UseStub
| UseGeneric (p : GenericHTTPPublisher).

Definition NewPublisher (cfg : PublisherConfig) : res string Publisher :=
  if String.eqb (cfg_Backend cfg) "" || String.eqb (cfg_Backend cfg) BackendStub then Ok UseStub
  else if String.eqb (cfg_Backend cfg) BackendGenericHTTP then
    try! p := NewGenericHTTPPublisher cfg in Ok (UseGeneric p)
  else Err (config_error ("unknown backend " +:+ cfg_Backend cfg)).

(** ** publisher_stub.go *)

Definition Stub_Publish (p : Publication) : res err string :=
  guard! HasApproval p else ErrApprovalRequired in
  Ok ("stub://" +:+ p_Platform p +:+ "/" +:+ p_ContentHash p).

(** ** generic_http.go *)

(** One HTTP exchange as the client reports it. *)
Inductive exchange : Type :=
| NoRequest (msg : string)                 (* http.NewRequestWithContext failed *)
| Transport (ctx_done : bool) (msg : string)
| BadRead (msg : string)                   (* reading the body failed *)
| Response (status : Z) (body : string).

(** A failed attempt is permanent or worth another one. *)
Inductive attempt_err : Type := Permanent (e : err) | Transient (e : err).

(** What the adapter does to the outside world. *)
Inductive action : Type :=
| Sleep (d : duration)
| Post (url auth : string) (idempotency : option (string * string)) (body : string).

Definition isRetryable : bool := true.

Section http.
Context `{UuidText}.
(** [json.Marshal(pub)], the answer of the endpoint to the [n]-th attempt, when
    the caller's context is done before the [n]-th attempt, and the two fields
    [json.Unmarshal] finds in a response body. *)
Variable encode : Publication -> string.
Variable endpoint : Z -> exchange.
Variable cancelled : Z -> option string.
Variable decode : string -> string * string.

Definition idempotencyKey (pub : Publication) : string :=
  let k := TrimSpace (p_IdempotencyKey pub) in
  if negb (String.eqb k "") then k
  else sha256_hex (uuid_String (p_WorkspaceID pub) +:+ "|" +:+ uuid_String (p_ID pub) +:+ "|" +:+ p_ContentHash pub).

Definition reference (raw : string) (pub : Publication) : string :=
  let '(ExternalID, Reference) := decode raw in
  if negb (blank ExternalID) then ExternalID
  else if negb (blank Reference) then Reference
  else "generic-http://" +:+ p_ContentHash pub.

Definition post_of (p : GenericHTTPPublisher) (body : string) (pub : Publication) : action :=
  Post (gp_webhookURL p) ("Bearer " +:+ gp_token p)
    (if String.eqb (gp_idempotencyField p) "" then None
     else Some (gp_idempotencyField p, idempotencyKey pub)) body.

Definition status_error (status : Z) : err :=
  ErrDelivery ("publish: delivery endpoint returned status " +:+ strconv_Itoa status).

Definition attempt (p : GenericHTTPPublisher) (n : Z) (pub : Publication) : res attempt_err string :=
  match endpoint n with
  | NoRequest m => Err (Transient (ErrDelivery ("publish: build request: " +:+ m)))
  | Transport true m => Err (Permanent (ErrDelivery ("publish: delivery cancelled: " +:+ m)))
  | Transport false m =>
      if isRetryable then Err (Transient (ErrDelivery m))
      else Err (Permanent (ErrDelivery ("publish: delivery request failed: " +:+ m)))
  | BadRead m => Err (Transient (ErrDelivery ("publish: read delivery response: " +:+ m)))
  | Response status raw =>
      if (maxResponseBytes <? Z.of_nat (String.length raw))%Z
      then Err (Transient (ErrDelivery "publish: delivery response too large"))
      else if (status <? 200)%Z || (300 <=? status)%Z then
        if (400 <=? status)%Z && (status <? 500)%Z then Err (Permanent (status_error status))
        else Err (Transient (status_error status))
      else Ok (reference raw pub)
  end.

(** The actions an attempt performs: none when no request could be built. *)
Definition attempt_actions (p : GenericHTTPPublisher) (n : Z) (body : string) (pub : Publication) : list action :=
  match endpoint n with NoRequest _ => [] | _ => [post_of p body pub] end.

(** [left] attempts remain, the next one being number [n]. *)
Fixpoint deliver_loop (p : GenericHTTPPublisher) (body : string) (pub : Publication) (left : nat) (n : Z)
    (lastErr : err) : res err string * list action :=
  match left with
  | O => (Err lastErr, [])
  | S left' =>
      match (if (1 <? n)%Z then cancelled n else None) with
      | Some m => (Err (ErrDelivery ("publish: retry cancelled: " +:+ m)), [])
      | None =>
          let pause := if (1 <? n)%Z then [Sleep (backoffFor (gp_backoffBase p) (gp_backoffMax p) n)] else [] in
          let acts := pause ++ attempt_actions p n body pub in
          match attempt p n pub with
          | Ok ref => (Ok ref, acts)
          | Err (Permanent e) => (Err e, acts)
          | Err (Transient e) =>
              let '(r, more) := deliver_loop p body pub left' (n + 1) e in (r, acts ++ more)
          end
      end
  end.

Definition Generic_Publish (p : GenericHTTPPublisher) (pub : Publication) : res err string * list action :=
  if negb (HasApproval pub) then (Err ErrApprovalRequired, [])
  else
    let body := encode pub in
    if (maxResponseBytes <? Z.of_nat (String.length body))%Z
    then (Err (ErrDelivery "publish: encoded publication too large"), [])
    else deliver_loop p body pub (Z.to_nat (gp_maxAttempts p)) 1 (ErrDelivery "").

(** ** Facts *)

Definition is_post (a : action) : Prop := match a with Post _ _ _ _ => True | Sleep _ => False end.
#[export] Instance is_post_dec a : Decision (is_post a).
Proof. destruct a; apply _. Defined.

Definition sane (p : GenericHTTPPublisher) : Prop :=
  (1 <= gp_maxAttempts p)%Z /\ (0 < gp_backoffBase p <= gp_backoffMax p)%Z.

Lemma NewGenericHTTPPublisher_sane cfg p : NewGenericHTTPPublisher cfg = Ok p -> sane p.
Proof.
  unfold NewGenericHTTPPublisher. intros Hn. apply guard_Ok in Hn as [_ Hn]. apply guard_Ok in Hn as [_ Hn].
  assert (0 < defaultBackoffBase)%Z by done. assert (0 < defaultBackoffMax)%Z by done.
  injection Hn as <-. unfold sane, defaultMaxAttempts. cbn [gp_maxAttempts gp_backoffBase gp_backoffMax].
  destruct (Z.ltb_spec (cfg_MaxAttempts cfg) 1), (Z.leb_spec (cfg_BackoffBase cfg) 0),
    (Z.leb_spec (cfg_BackoffMax cfg) 0); repeat (case_match; bool_prop); try lia.
Qed.

(** An action the adapter may perform for [pub]. *)
Definition proper (p : GenericHTTPPublisher) (body : string) (pub : Publication) (a : action) : Prop :=
  match a with
  | Sleep d => (0 < d <= gp_backoffMax p)%Z
  | Post _ _ _ _ => a = post_of p body pub
  end.

Lemma attempt_actions_proper p n body pub :
  Forall (proper p body pub) (attempt_actions p n body pub) /\
  length (filter is_post (attempt_actions p n body pub)) <= 1.
Proof. unfold attempt_actions. destruct (endpoint n); (split; [repeat constructor|simpl; lia]). Qed.

Lemma deliver_loop_actions p body pub left n e :
  sane p -> (gp_backoffMax p <= 2 ^ 62)%Z -> (1 <= n)%Z -> (n + Z.of_nat left < 2 ^ 63)%Z ->
  let acts := (deliver_loop p body pub left n e).2 in
  Forall (proper p body pub) acts /\ length (filter is_post acts) <= left.
Proof.
  intros [Hmax Hb] Hcap. revert n e. induction left as [|left IH]; intros n e Hn Hlim; simpl; [split; [constructor|lia]|].
  destruct (if (1 <? n)%Z then cancelled n else None); simpl; [split; [constructor|lia]|].
  destruct (attempt_actions_proper p n body pub) as [Hp Hl].
  set (pause := if (1 <? n)%Z then _ else []).
  assert (Forall (proper p body pub) pause /\ filter is_post pause = []) as [Hpp Hpl].
  { subst pause. destruct (Z.ltb_spec 1 n); [|split; [constructor|done]].
    split; [|done]. constructor; [|constructor]. simpl.
    unfold backoffFor. rewrite wrap64_id by (unfold in_int64; lia).
    destruct (Z.ltb_spec (n - 2) 0); [lia|].
    destruct (backoff_loop_closed (Z.to_nat (n - 2)) (gp_backoffBase p) (gp_backoffMax p)) as [_ Hpos]; [done..|].
    destruct (Z.ltb_spec (gp_backoffMax p) (backoff_loop (Z.to_nat (n - 2)) (gp_backoffBase p) (gp_backoffMax p))); lia. }
  assert (Forall (proper p body pub) (pause ++ attempt_actions p n body pub) /\
    length (filter is_post (pause ++ attempt_actions p n body pub)) <= 1) as [Ha1 Ha2].
  { split; [by apply Forall_app|]. by rewrite filter_app, Hpl. }
  destruct (attempt p n pub) as [ref|[er|er]]; simpl; [split; [done|lia]|split; [done|lia]|].
  specialize (IH (n + 1)%Z er ltac:(lia) ltac:(lia)).
  destruct (deliver_loop p body pub left (n + 1) er) as [r more]. simpl in *. destruct IH as [IH1 IH2].
  split; [by apply Forall_app|]. rewrite filter_app, length_app. lia.
Qed.

(** The attempts before the [k]-th one failed in a way worth retrying. *)
Definition retried_until (p : GenericHTTPPublisher) (pub : Publication) (from k : Z) : Prop :=
  forall i, (from <= i < k)%Z -> (exists e, attempt p i pub = Err (Transient e)) /\
    ((1 < i)%Z -> cancelled i = None).

Lemma deliver_loop_Ok p body pub left n e ref :
  (deliver_loop p body pub left n e).1 = Ok ref <->
  exists k, (n <= k < n + Z.of_nat left)%Z /\ attempt p k pub = Ok ref /\
    ((1 < k)%Z -> cancelled k = None) /\ retried_until p pub n k.
Proof.
  revert n e. induction left as [|left IH]; intros n e; simpl.
  { split; [done|]. intros (k & ? & _). lia. }
  destruct (if (1 <? n)%Z then cancelled n else None) as [m|] eqn:Hc.
  { split; [done|]. intros (k & Hk & Ha & Hck & Hu). exfalso.
    destruct (Z.ltb_spec 1 n); [|done]. destruct (decide (k = n)) as [->|Hne]; [rewrite Hck in Hc by done; done|].
    destruct (Hu n) as [_ Hcn]; [lia|]. rewrite Hcn in Hc by done. done. }
  assert ((1 < n)%Z -> cancelled n = None) as Hcn by (intros Hn; by destruct (Z.ltb_spec 1 n); [|lia]).
  destruct (attempt p n pub) as [ref'|[er|er]] eqn:Ha; simpl.
  - split.
    + intros [= ->]. exists n. split_and!; [lia|lia|done|done|]. intros i Hi. lia.
    + intros (k & Hk & Hak & _ & Hu). destruct (decide (k = n)) as [->|Hne]; [congruence|].
      destruct (Hu n) as [[? Hx] _]; [lia|]. congruence.
  - split; [done|]. intros (k & Hk & Hak & _ & Hu). destruct (decide (k = n)) as [->|Hne]; [congruence|].
    destruct (Hu n) as [[? Hx] _]; [lia|]. congruence.
  - specialize (IH (n + 1)%Z er). destruct (deliver_loop p body pub left (n + 1) er) as [r more]. simpl in *.
    rewrite IH. split.
    + intros (k & Hk & Hak & Hck & Hu). exists k. split_and!; [lia|lia|done|done|].
      intros i Hi. destruct (decide (i = n)) as [->|Hne]; [split; [by eexists|done]|apply Hu; lia].
    + intros (k & Hk & Hak & Hck & Hu). destruct (decide (k = n)) as [->|Hne]; [congruence|].
      exists k. split_and!; [lia|lia|done|done|]. intros i Hi. apply Hu. lia.
Qed.
End http.

(** Delivery is bounded, deduplicable and exact: a publisher built from any
    configuration posts nothing without a recorded approval; otherwise at most
    [maxAttempts] requests, every one of them with the same idempotency key and
    body, and pauses of at most the configured cap; and it reports success
    exactly when some attempt within the bound succeeds after transient
    failures only, with the context still alive. *)
Theorem delivery_bounded `{UuidText} encode endpoint cancelled decode cfg p pub :
  NewGenericHTTPPublisher cfg = Ok p -> (gp_backoffMax p <= 2 ^ 62)%Z -> (gp_maxAttempts p < 2 ^ 62)%Z ->
  (Z.of_nat (String.length (encode pub)) <= maxResponseBytes)%Z ->
  let '(r, acts) := Generic_Publish encode endpoint cancelled decode p pub in
  (HasApproval pub = false -> r = Err ErrApprovalRequired /\ acts = []) /\
  (HasApproval pub = true ->
     Forall (proper p (encode pub) pub) acts /\
     (Z.of_nat (length (filter is_post acts)) <= gp_maxAttempts p)%Z /\
     forall ref, r = Ok ref <-> exists k, (1 <= k <= gp_maxAttempts p)%Z /\
       attempt endpoint decode p k pub = Ok ref /\ ((1 < k)%Z -> cancelled k = None) /\
       retried_until endpoint cancelled decode p pub 1 k).
Proof.
  intros Hnew Hcap Hatt Hbody. pose proof (NewGenericHTTPPublisher_sane _ _ Hnew) as Hsane.
  unfold Generic_Publish. destruct (HasApproval pub); simpl; [|done].
  destruct (Z.ltb_spec maxResponseBytes (Z.of_nat (String.length (encode pub)))); [lia|].
  destruct Hsane as [Hmax Hb].
  pose proof (deliver_loop_actions endpoint cancelled decode p (encode pub) pub (Z.to_nat (gp_maxAttempts p)) 1
    (ErrDelivery "") (conj Hmax Hb) Hcap ltac:(lia) ltac:(lia)) as Hacts.
  pose proof (fun ref => deliver_loop_Ok endpoint cancelled decode p (encode pub) pub (Z.to_nat (gp_maxAttempts p)) 1
    (ErrDelivery "") ref) as Hok.
  destruct (deliver_loop _ _ _ _ _ _ _ _ _) as [r acts]. simpl in *. destruct Hacts as [H1 H2].
  split; [done|]. intros _. split; [done|]. split; [lia|]. intros ref. rewrite Hok.
  split; intros (k & Hk & Hrest); exists k; (split; [lia|done]).
Qed.

(** A configured publisher against an endpoint that is down once. *)
Definition demo_cfg : PublisherConfig := mkConfig "generic-http" "https://hook" "tok" "Idempotency-Key" 3 0 0.
Definition demo_pub : Publication :=
  mkPublication 1 7 None None "T" "B" "stub" StatusApproved "hash" "key-1" (Some "ada"%string) (Some 5%Z)
    None None None None "" "" 0 0.
Definition demo_endpoint (n : Z) : exchange :=
  if (n =? 1)%Z then Response 503 "" else Response 200 "".

Lemma delivery_bounded_witness :
  exists p, NewGenericHTTPPublisher demo_cfg = Ok p /\
  let '(r, acts) := @Generic_Publish unary_uuid (fun _ => ""%string) demo_endpoint (fun _ => None)
                      (fun _ => (""%string, ""%string)) p demo_pub in
  r = Ok "generic-http://hash"%string /\ length (filter is_post acts) = 2 /\
  (Z.of_nat (length (filter is_post acts)) <= 3)%Z.
Proof.
  eexists. split; [reflexivity|].
  pose proof (@delivery_bounded unary_uuid (fun _ => ""%string) demo_endpoint (fun _ => None)
    (fun _ => (""%string, ""%string)) demo_cfg _ demo_pub eq_refl ltac:(vm_compute; discriminate)
    ltac:(vm_compute; reflexivity) ltac:(vm_compute; discriminate)) as Hb.
  destruct (Generic_Publish _ _ _ _ _ demo_pub) as [r acts] eqn:E. destruct Hb as [_ Hb].
  destruct (Hb eq_refl) as (_ & Hle & _). vm_compute in E. injection E as <- <-.
  split; [reflexivity|]. split; [reflexivity|]. exact Hle.
Defined.

(** A "too early" answer is permanent, one below 200 is retried. *)
Example too_early_is_permanent :
  attempt (fun _ => Response 425 "") (fun _ => (""%string, ""%string))
    (mkGeneric "u" "t" "" 3 1 1) 1 demo_pub = Err (Permanent (status_error 425)).
Proof. vm_compute. reflexivity. Qed.
