(* ===== verification/Pipeline.v ===== *)
(** * internal/orchestration: the Creator pipeline

    The pipeline aggregate and its stage order (pipeline.go, handler.go), the
    stub capability ports (stage_stubs.go) and the PostgreSQL store
    (infrastructure/postgres/pipelines.go) with its optimistic concurrency. *)

From S2P Require Import Prelude GoLib.

(** ** pipeline.go *)

Inductive err : Type :=
| ErrInvalidInput | ErrNotFound | ErrWorkspaceMismatch | ErrInvalidTransition | ErrTerminalState
| ErrInvalidStage | ErrInvalidStatus | ErrApprovalRequired | ErrUnauthorizedActor
| ErrConsecutiveAdvance | ErrRateLimited | ErrConcurrentUpdate
(** what a store, a capability port or the event sink reports *)
| ErrPort (msg : string)
(** [errors.Join] *)
| ErrJoined (e1 e2 : err).

#[export] Instance err_eq_dec : EqDecision err.
Proof. solve_decision. Defined.

Inductive Stage : Type :=
| StageResearch | StageScript | StageReview | StagePublish | StageComplete
| StageOther (s : string).

#[export] Instance Stage_eq_dec : EqDecision Stage.
Proof. solve_decision. Defined.

Inductive PipelineStatus : Type :=
| StatusCreated | StatusActive | StatusAwaitingApproval | StatusApproved | StatusDone | StatusFailed
| StatusOther (s : string).

#[export] Instance PipelineStatus_eq_dec : EqDecision PipelineStatus.
Proof. solve_decision. Defined.

Record Pipeline : Type := mkPipeline {
  pl_ID : uuid;
  pl_WorkspaceID : uuid;
  pl_GoalID : option uuid;
  pl_Stage : Stage;
  pl_Status : PipelineStatus;
  pl_TaskID : option uuid;
  pl_PublicationID : option uuid;
  pl_ResearchReference : string;
  pl_ScriptReference : string;
  pl_ReviewReference : string;
  pl_PublishedReference : string;
  pl_FailureReason : string;
  pl_RetryCount : Z;
  pl_IdempotencyKey : string;
  pl_ApprovedBy : string;
  pl_ApprovedAt : option time;
  pl_TraceID : string;
  pl_CreatedAt : time;
  pl_UpdatedAt : time;
  pl_Version : Z
}.

Definition set_pl_ID (v : uuid) (p : Pipeline) : Pipeline :=
  mkPipeline v (pl_WorkspaceID p) (pl_GoalID p) (pl_Stage p) (pl_Status p) (pl_TaskID p) (pl_PublicationID p)
    (pl_ResearchReference p) (pl_ScriptReference p) (pl_ReviewReference p) (pl_PublishedReference p)
    (pl_FailureReason p) (pl_RetryCount p) (pl_IdempotencyKey p) (pl_ApprovedBy p) (pl_ApprovedAt p)
    (pl_TraceID p) (pl_CreatedAt p) (pl_UpdatedAt p) (pl_Version p).
Definition set_pl_Stage (v : Stage) (p : Pipeline) : Pipeline :=
  mkPipeline (pl_ID p) (pl_WorkspaceID p) (pl_GoalID p) v (pl_Status p) (pl_TaskID p) (pl_PublicationID p)
    (pl_ResearchReference p) (pl_ScriptReference p) (pl_ReviewReference p) (pl_PublishedReference p)
    (pl_FailureReason p) (pl_RetryCount p) (pl_IdempotencyKey p) (pl_ApprovedBy p) (pl_ApprovedAt p)
    (pl_TraceID p) (pl_CreatedAt p) (pl_UpdatedAt p) (pl_Version p).
Definition set_pl_Status (v : PipelineStatus) (p : Pipeline) : Pipeline :=
  mkPipeline (pl_ID p) (pl_WorkspaceID p) (pl_GoalID p) (pl_Stage p) v (pl_TaskID p) (pl_PublicationID p)
    (pl_ResearchReference p) (pl_ScriptReference p) (pl_ReviewReference p) (pl_PublishedReference p)
    (pl_FailureReason p) (pl_RetryCount p) (pl_IdempotencyKey p) (pl_ApprovedBy p) (pl_ApprovedAt p)
    (pl_TraceID p) (pl_CreatedAt p) (pl_UpdatedAt p) (pl_Version p).
Definition set_pl_PublicationID (v : option uuid) (p : Pipeline) : Pipeline :=
  mkPipeline (pl_ID p) (pl_WorkspaceID p) (pl_GoalID p) (pl_Stage p) (pl_Status p) (pl_TaskID p) v
    (pl_ResearchReference p) (pl_ScriptReference p) (pl_ReviewReference p) (pl_PublishedReference p)
    (pl_FailureReason p) (pl_RetryCount p) (pl_IdempotencyKey p) (pl_ApprovedBy p) (pl_ApprovedAt p)
    (pl_TraceID p) (pl_CreatedAt p) (pl_UpdatedAt p) (pl_Version p).
Definition set_pl_ResearchReference (v : string) (p : Pipeline) : Pipeline :=
  mkPipeline (pl_ID p) (pl_WorkspaceID p) (pl_GoalID p) (pl_Stage p) (pl_Status p) (pl_TaskID p)
    (pl_PublicationID p) v (pl_ScriptReference p) (pl_ReviewReference p) (pl_PublishedReference p)
    (pl_FailureReason p) (pl_RetryCount p) (pl_IdempotencyKey p) (pl_ApprovedBy p) (pl_ApprovedAt p)
    (pl_TraceID p) (pl_CreatedAt p) (pl_UpdatedAt p) (pl_Version p).
Definition set_pl_ScriptReference (v : string) (p : Pipeline) : Pipeline :=
  mkPipeline (pl_ID p) (pl_WorkspaceID p) (pl_GoalID p) (pl_Stage p) (pl_Status p) (pl_TaskID p)
    (pl_PublicationID p) (pl_ResearchReference p) v (pl_ReviewReference p) (pl_PublishedReference p)
    (pl_FailureReason p) (pl_RetryCount p) (pl_IdempotencyKey p) (pl_ApprovedBy p) (pl_ApprovedAt p)
    (pl_TraceID p) (pl_CreatedAt p) (pl_UpdatedAt p) (pl_Version p).
Definition set_pl_ReviewReference (v : string) (p : Pipeline) : Pipeline :=
  mkPipeline (pl_ID p) (pl_WorkspaceID p) (pl_GoalID p) (pl_Stage p) (pl_Status p) (pl_TaskID p)
    (pl_PublicationID p) (pl_ResearchReference p) (pl_ScriptReference p) v (pl_PublishedReference p)
    (pl_FailureReason p) (pl_RetryCount p) (pl_IdempotencyKey p) (pl_ApprovedBy p) (pl_ApprovedAt p)
    (pl_TraceID p) (pl_CreatedAt p) (pl_UpdatedAt p) (pl_Version p).
Definition set_pl_PublishedReference (v : string) (p : Pipeline) : Pipeline :=
  mkPipeline (pl_ID p) (pl_WorkspaceID p) (pl_GoalID p) (pl_Stage p) (pl_Status p) (pl_TaskID p)
    (pl_PublicationID p) (pl_ResearchReference p) (pl_ScriptReference p) (pl_ReviewReference p) v
    (pl_FailureReason p) (pl_RetryCount p) (pl_IdempotencyKey p) (pl_ApprovedBy p) (pl_ApprovedAt p)
    (pl_TraceID p) (pl_CreatedAt p) (pl_UpdatedAt p) (pl_Version p).
Definition set_pl_FailureReason (v : string) (p : Pipeline) : Pipeline :=
  mkPipeline (pl_ID p) (pl_WorkspaceID p) (pl_GoalID p) (pl_Stage p) (pl_Status p) (pl_TaskID p)
    (pl_PublicationID p) (pl_ResearchReference p) (pl_ScriptReference p) (pl_ReviewReference p)
    (pl_PublishedReference p) v (pl_RetryCount p) (pl_IdempotencyKey p) (pl_ApprovedBy p) (pl_ApprovedAt p)
    (pl_TraceID p) (pl_CreatedAt p) (pl_UpdatedAt p) (pl_Version p).
Definition set_pl_RetryCount (v : Z) (p : Pipeline) : Pipeline :=
  mkPipeline (pl_ID p) (pl_WorkspaceID p) (pl_GoalID p) (pl_Stage p) (pl_Status p) (pl_TaskID p)
    (pl_PublicationID p) (pl_ResearchReference p) (pl_ScriptReference p) (pl_ReviewReference p)
    (pl_PublishedReference p) (pl_FailureReason p) v (pl_IdempotencyKey p) (pl_ApprovedBy p) (pl_ApprovedAt p)
    (pl_TraceID p) (pl_CreatedAt p) (pl_UpdatedAt p) (pl_Version p).
Definition set_pl_ApprovedBy (v : string) (p : Pipeline) : Pipeline :=
  mkPipeline (pl_ID p) (pl_WorkspaceID p) (pl_GoalID p) (pl_Stage p) (pl_Status p) (pl_TaskID p)
    (pl_PublicationID p) (pl_ResearchReference p) (pl_ScriptReference p) (pl_ReviewReference p)
    (pl_PublishedReference p) (pl_FailureReason p) (pl_RetryCount p) (pl_IdempotencyKey p) v (pl_ApprovedAt p)
    (pl_TraceID p) (pl_CreatedAt p) (pl_UpdatedAt p) (pl_Version p).
Definition set_pl_ApprovedAt (v : option time) (p : Pipeline) : Pipeline :=
  mkPipeline (pl_ID p) (pl_WorkspaceID p) (pl_GoalID p) (pl_Stage p) (pl_Status p) (pl_TaskID p)
    (pl_PublicationID p) (pl_ResearchReference p) (pl_ScriptReference p) (pl_ReviewReference p)
    (pl_PublishedReference p) (pl_FailureReason p) (pl_RetryCount p) (pl_IdempotencyKey p) (pl_ApprovedBy p) v
    (pl_TraceID p) (pl_CreatedAt p) (pl_UpdatedAt p) (pl_Version p).
Definition set_pl_UpdatedAt (v : time) (p : Pipeline) : Pipeline :=
  mkPipeline (pl_ID p) (pl_WorkspaceID p) (pl_GoalID p) (pl_Stage p) (pl_Status p) (pl_TaskID p)
    (pl_PublicationID p) (pl_ResearchReference p) (pl_ScriptReference p) (pl_ReviewReference p)
    (pl_PublishedReference p) (pl_FailureReason p) (pl_RetryCount p) (pl_IdempotencyKey p) (pl_ApprovedBy p)
    (pl_ApprovedAt p) (pl_TraceID p) (pl_CreatedAt p) v (pl_Version p).
Definition set_pl_Version (v : Z) (p : Pipeline) : Pipeline :=
  mkPipeline (pl_ID p) (pl_WorkspaceID p) (pl_GoalID p) (pl_Stage p) (pl_Status p) (pl_TaskID p)
    (pl_PublicationID p) (pl_ResearchReference p) (pl_ScriptReference p) (pl_ReviewReference p)
    (pl_PublishedReference p) (pl_FailureReason p) (pl_RetryCount p) (pl_IdempotencyKey p) (pl_ApprovedBy p)
    (pl_ApprovedAt p) (pl_TraceID p) (pl_CreatedAt p) (pl_UpdatedAt p) v.

(** [NewWithIdempotency]: [fresh] is the identifier drawn by [uuid.New]. *)
Definition NewWithIdempotency (workspaceID : uuid) (goalID : option uuid) (traceID idempotencyKey : string)
    (fresh : uuid) (now : time) : res err Pipeline :=
  guard! negb (workspaceID =? uuid_Nil)%N else ErrWorkspaceMismatch in
  let idempotencyKey := TrimSpace idempotencyKey in
  guard! negb (Nat.ltb 128 (String.length idempotencyKey)) else ErrInvalidInput in
  Ok (mkPipeline fresh workspaceID goalID StageResearch StatusCreated None None "" "" "" "" "" 0
        idempotencyKey "" None (TrimSpace traceID) now now 1).

Definition New (workspaceID : uuid) (goalID : option uuid) (traceID : string) (fresh : uuid) (now : time)
  : res err Pipeline := NewWithIdempotency workspaceID goalID traceID "" fresh now.

Definition ValidStage (s : Stage) : bool :=
  match s with
  | StageResearch | StageScript | StageReview | StagePublish | StageComplete => true
  | StageOther _ => false
  end.

Definition ValidStatus (s : PipelineStatus) : bool :=
  match s with
  | StatusCreated | StatusActive | StatusAwaitingApproval | StatusApproved | StatusDone | StatusFailed => true
  | StatusOther _ => false
  end.

Definition terminalStatus (s : PipelineStatus) : bool := bool_decide (s = StatusDone).

(** May a pipeline at [from] with [status] move to [stage]? *)
Definition CanAdvance (stage from : Stage) (status : PipelineStatus) : option err :=
  if negb (ValidStage stage) || negb (ValidStage from) then Some ErrInvalidStage
  else if negb (ValidStatus status) then Some ErrInvalidStatus
  else if terminalStatus status || bool_decide (from = StageComplete) then Some ErrTerminalState
  else if bool_decide (status = StatusFailed) then Some ErrTerminalState
  else match from with
  | StageResearch => if bool_decide (stage = StageScript) then None else Some ErrInvalidTransition
  | StageScript => if bool_decide (stage = StageReview) then None else Some ErrInvalidTransition
  | StageReview =>
      if negb (bool_decide (stage = StagePublish)) then Some ErrInvalidTransition
      else if negb (bool_decide (status = StatusApproved)) then Some ErrApprovalRequired
      else None
  | StagePublish => if bool_decide (stage = StageComplete) then None else Some ErrInvalidTransition
  | _ => Some ErrInvalidStage
  end.

(** The [order] map of [IsAfter], zero for a key it lacks. *)
Definition stage_order (s : Stage) : Z :=
  match s with
  | StageResearch => 0 | StageScript => 1 | StageReview => 2 | StagePublish => 3 | StageComplete => 4
  | StageOther _ => 0
  end.
Definition IsAfter (a b : Stage) : bool := (stage_order b <? stage_order a)%Z.

Definition Approved (p : Pipeline) : bool :=
  bool_decide (pl_Status p = StatusApproved) && negb (String.eqb (pl_ApprovedBy p) "")
  && bool_decide (is_Some (pl_ApprovedAt p)).

(** ** handler.go *)

Definition NextStage (stage : Stage) : res err Stage :=
  match stage with
  | StageResearch => Ok StageScript
  | StageScript => Ok StageReview
  | StageReview => Ok StagePublish
  | StagePublish => Ok StageComplete
  | StageComplete => Err ErrTerminalState
  | StageOther _ => Err ErrInvalidStage
  end.

Definition EventKind (typeName : string) : option Stage :=
  let t := TrimSpace typeName in
  if String.eqb t "pipeline.research" then Some StageResearch
  else if String.eqb t "pipeline.script" then Some StageScript
  else if String.eqb t "pipeline.review" || String.eqb t "pipeline.review_ready"
       || String.eqb t "pipeline.review_approved" then Some StageReview
  else if String.eqb t "pipeline.publish" then Some StagePublish
  else if String.eqb t "pipeline.complete" then Some StageComplete
  else None.

Definition stage_text (s : Stage) : string :=
  match s with
  | StageResearch => "research" | StageScript => "script" | StageReview => "review"
  | StagePublish => "publish" | StageComplete => "complete" | StageOther s => s
  end.

Definition status_text (s : PipelineStatus) : string :=
  match s with
  | StatusCreated => "created" | StatusActive => "active" | StatusAwaitingApproval => "awaiting_approval"
  | StatusApproved => "approved" | StatusDone => "done" | StatusFailed => "failed" | StatusOther s => s
  end.

(** [Stage(s)], the conversion from a string *)
Definition stage_of (s : string) : Stage :=
  if String.eqb s "research" then StageResearch
  else if String.eqb s "script" then StageScript
  else if String.eqb s "review" then StageReview
  else if String.eqb s "publish" then StagePublish
  else if String.eqb s "complete" then StageComplete
  else StageOther s.

(** ** service.go: bounded texts *)

Fixpoint err_Error (e : err) : string :=
  match e with
  | ErrInvalidInput => "orchestration: invalid input"
  | ErrNotFound => "orchestration: not found"
  | ErrWorkspaceMismatch => "orchestration: workspace mismatch"
  | ErrInvalidTransition => "orchestration: invalid stage transition"
  | ErrTerminalState => "orchestration: pipeline is in a terminal status"
  | ErrInvalidStage => "orchestration: invalid stage"
  | ErrInvalidStatus => "orchestration: invalid pipeline status"
  | ErrApprovalRequired => "orchestration: publication must be approved before publishing"
  | ErrUnauthorizedActor => "orchestration: a verified actor is required"
  | ErrConsecutiveAdvance => "orchestration: pipeline cannot advance without work"
  | ErrRateLimited => "orchestration: pipeline advance rate limit exceeded"
  | ErrConcurrentUpdate => "orchestration: pipeline changed concurrently"
  | ErrPort m => m
  | ErrJoined e1 e2 => err_Error e1 +:+ String.String (char_of 10) "" +:+ err_Error e2
  end.

(** [errors.Is] *)
Fixpoint errors_Is (e target : err) : bool :=
  bool_decide (e = target) ||
  match e with ErrJoined e1 e2 => errors_Is e1 target || errors_Is e2 target | _ => false end.

Definition boundReference (ref : string) : string :=
  let ref := TrimSpace ref in
  if Nat.ltb 512 (String.length ref) then take_bytes 512 ref else ref.

Definition failureReason (e : err) : string :=
  let msg := TrimSpace (err_Error e) in
  if Nat.ltb 512 (String.length msg) then take_bytes 512 msg
  else if String.eqb msg "" then "stage_failed"
  else msg.

(** ** stage_stubs.go *)

Section stubs.
Context `{UuidText}.

Definition StubResearcher_Research (ws : uuid) (p : Pipeline) : res err string :=
  Ok ("research://" +:+ uuid_String ws +:+ "/" +:+ uuid_String (pl_ID p))%string.

Definition StubScriptWriter_WriteScript (ws : uuid) (p : Pipeline) (researchRef : string) : res err string :=
  Ok ("script://" +:+ uuid_String ws +:+ "/" +:+ uuid_String (pl_ID p) +:+ "/" +:+ researchRef)%string.

Definition StubReviewer_Review (ws : uuid) (p : Pipeline) : res err bool := Ok true.

Definition StubPublisher_Publish (ws : uuid) (p : Pipeline) (reviewRef : string) : res err string :=
  Ok ("stub-publish://" +:+ uuid_String ws +:+ "/" +:+ uuid_String (pl_ID p) +:+ "/" +:+ reviewRef)%string.
End stubs.

(** ** infrastructure/postgres/pipelines.go *)

Record PipeDB : Type := mkPipeDB {
  pd_rows : gmap uuid Pipeline;
  pd_workspaces : gset uuid;
  pd_tasks : gset uuid;
  pd_publications : gset uuid;
  pd_next : uuid
}.

Definition with_rows (m : gmap uuid Pipeline) (db : PipeDB) : PipeDB :=
  mkPipeDB m (pd_workspaces db) (pd_tasks db) (pd_publications db) (pd_next db).

Definition bad_text : err := ErrPort "22021".
Definition check_violation : err := ErrPort "23514".
Definition unique_violation : err := ErrPort "23505".
Definition foreign_key_violation : err := ErrPort "23503".
Definition out_of_range : err := ErrPort "22003".

(** The CHECK constraints and the INTEGER column of the pipelines table. *)
Definition stage_status_valid (stage : Stage) (status : PipelineStatus) : bool :=
  ValidStage stage && ValidStatus status &&
  match status, stage with
  | StatusFailed, _ => true
  | StatusCreated, StageResearch => true
  | StatusActive, (StageScript | StagePublish) => true
  | (StatusAwaitingApproval | StatusApproved), StageReview => true
  | StatusDone, StageComplete => true
  | _, _ => false
  end.

Definition references_ok (db : PipeDB) (p : Pipeline) : bool :=
  match pl_TaskID p with Some t => bool_decide (t ∈ pd_tasks db) | None => true end &&
  match pl_PublicationID p with Some t => bool_decide (t ∈ pd_publications db) | None => true end.

Definition same_key (a b : Pipeline) : bool :=
  (pl_WorkspaceID a =? pl_WorkspaceID b)%N && negb (String.eqb (pl_IdempotencyKey a) "")
  && String.eqb (pl_IdempotencyKey a) (pl_IdempotencyKey b).

Definition keys_ok (p : Pipeline) (m : gmap uuid Pipeline) : bool :=
  bool_decide (map_Forall (fun i q => i = pl_ID p \/ same_key p q = false) m).

Definition texts_ok (p : Pipeline) : bool :=
  text_ok (stage_text (pl_Stage p)) && text_ok (status_text (pl_Status p)) &&
  text_ok (pl_ResearchReference p) && text_ok (pl_ScriptReference p) && text_ok (pl_ReviewReference p) &&
  text_ok (pl_PublishedReference p) && text_ok (pl_FailureReason p) && text_ok (pl_IdempotencyKey p) &&
  text_ok (pl_ApprovedBy p) && text_ok (pl_TraceID p).

Definition int4 (z : Z) : bool := (- 2 ^ 31 <=? z)%Z && (z <? 2 ^ 31)%Z.

(** What the database checks of a written row. *)
Definition row_check (db : PipeDB) (p : Pipeline) : res err unit :=
  guard! stage_status_valid (pl_Stage p) (pl_Status p) && (0 <=? pl_RetryCount p)%Z else check_violation in
  guard! keys_ok p (pd_rows db) else unique_violation in
  guard! references_ok db p else foreign_key_violation in
  Ok tt.

Definition db_Create (p : Pipeline) (_ : time) (db : PipeDB) : res err (Pipeline * PipeDB) :=
  let row := set_pl_ID (pd_next db) p in
  guard! texts_ok p else bad_text in
  guard! int4 (pl_RetryCount p) else out_of_range in
  try! _ := row_check db row in
  guard! bool_decide (pl_WorkspaceID p ∈ pd_workspaces db) else foreign_key_violation in
  Ok (row, mkPipeDB (<[pd_next db := row]> (pd_rows db)) (pd_workspaces db) (pd_tasks db)
             (pd_publications db) (pd_next db + 1)%N).

Definition find_row (ws id : uuid) (db : PipeDB) : option Pipeline :=
  match pd_rows db !! id with
  | Some p => if (pl_WorkspaceID p =? ws)%N then Some p else None
  | None => None
  end.

Definition db_Get (ws id : uuid) (db : PipeDB) : res err Pipeline :=
  match find_row ws id db with Some p => Ok p | None => Err ErrNotFound end.

Definition db_GetByIdempotency (ws : uuid) (key : string) (db : PipeDB) : res err Pipeline :=
  match filter (fun kv => (pl_WorkspaceID kv.2 =? ws)%N && negb (String.eqb (pl_IdempotencyKey kv.2) "")
                          && String.eqb (pl_IdempotencyKey kv.2) key = true) (map_to_list (pd_rows db)) with
  | (_, p) :: _ => Ok p
  | [] => Err ErrNotFound
  end.

(** The columns the UPDATE sets, on the row that is there. *)
Definition updated_row (p row : Pipeline) : Pipeline :=
  mkPipeline (pl_ID row) (pl_WorkspaceID row) (pl_GoalID row) (pl_Stage p) (pl_Status p) (pl_TaskID p)
    (pl_PublicationID p) (pl_ResearchReference p) (pl_ScriptReference p) (pl_ReviewReference p)
    (pl_PublishedReference p) (pl_FailureReason p) (pl_RetryCount p) (pl_IdempotencyKey p)
    (pl_ApprovedBy p) (pl_ApprovedAt p) (pl_TraceID p) (pl_CreatedAt row) (pl_UpdatedAt p)
    (pl_Version row + 1).

Definition db_Update (ws : uuid) (p : Pipeline) (now : time) (db : PipeDB) : res err (Pipeline * PipeDB) :=
  let previousVersion := Z.max 1 (pl_Version p) in
  let p := set_pl_UpdatedAt now p in
  guard! texts_ok p else bad_text in
  guard! int4 (pl_RetryCount p) else out_of_range in
  match find_row ws (pl_ID p) db with
  | Some row =>
      guard! (pl_Version row =? previousVersion)%Z else ErrConcurrentUpdate in
      let row' := updated_row p row in
      try! _ := row_check db row' in
      Ok (set_pl_Version (previousVersion + 1) p, with_rows (<[pl_ID p := row']> (pd_rows db)) db)
  | None => Err ErrConcurrentUpdate
  end.

(** ORDER BY created_at DESC, id DESC LIMIT 100 *)
Definition newer (a b : Pipeline) : Prop :=
  (pl_CreatedAt b < pl_CreatedAt a)%Z \/ (pl_CreatedAt a = pl_CreatedAt b /\ (pl_ID b <= pl_ID a)%N).
#[export] Instance newer_dec a b : Decision (newer a b).
Proof. unfold newer. apply _. Defined.

Definition db_List (ws : uuid) (db : PipeDB) : res err (list Pipeline) :=
  Ok (take 100 (merge_sort newer (filter (fun p => (pl_WorkspaceID p =? ws)%N = true)
      (map snd (map_to_list (pd_rows db)))))).
