(* ===== verification/PipelineService.v ===== *)
(** * internal/orchestration/service.go and handler.go: the orchestration service

    Every method of the service against the PostgreSQL store, the in-process
    throttle, the capability ports of the stages, the publication port and the
    event sink. Other requests may commit between any two store calls, and
    every port may fail. *)

From S2P Require Import Prelude GoLib Throttle Pipeline.

(** What the caller's context carries. *)
Record Ctx : Type := mkCtx { cx_actor : string; cx_trace : string; cx_span : string }.

Definition WithTrace (cx : Ctx) (trace span : string) : Ctx := mkCtx (cx_actor cx) trace span.
Definition WithActor (cx : Ctx) (id : string) : Ctx := mkCtx (TrimSpace id) (cx_trace cx) (cx_span cx).
Definition actorType (cx : Ctx) (fallback : string) : string :=
  if negb (String.eqb (cx_actor cx) "") then "human" else fallback.

Record AuditRecord : Type := mkAudit {
  au_EventType : string;
  au_ConstitutionalPrinciple : string;
  au_Outcome : string;
  au_WorkspaceID : string;
  au_PipelineID : string;
  au_ActorType : string;
  au_ActorID : string;
  au_TraceID : string;
  au_SpanID : string;
  au_Stage : string
}.

Record Event : Type := mkEvent {
  ev_type : string;
  ev_pipeline : uuid;
  ev_workspace : uuid;
  ev_stage : string;
  ev_trace : string;
  ev_span : string
}.

(** The bridge to the publishing service, over whatever state [S] it keeps. *)
Record PublicationPort (S : Type) : Type := mkPort {
  port_Prepare : uuid -> Pipeline -> S -> res err uuid * S;
  port_Approve : uuid -> uuid -> string -> S -> res err unit * S;
  port_Publish : uuid -> uuid -> string -> S -> res err string * S
}.
Arguments mkPort {S}.
Arguments port_Prepare {S}.
Arguments port_Approve {S}.
Arguments port_Publish {S}.

(** The stages' capability ports; the first argument counts the calls made to
    the environment before this one. *)
Record Capabilities : Type := mkCapabilities {
  cap_Research : nat -> uuid -> Pipeline -> res err string;
  cap_WriteScript : nat -> uuid -> Pipeline -> string -> res err string;
  cap_Review : nat -> uuid -> Pipeline -> res err bool;
  cap_Publish : nat -> uuid -> Pipeline -> string -> res err string;
  cap_Event : nat -> Event -> res err unit
}.

Record World (S : Type) : Type := mkWorld {
  w_db : PipeDB;
  w_at : nat;                        (* calls to the environment so far *)
  w_throttle : Throttler;
  w_pub : S;
  w_audit : list AuditRecord;
  w_events : list Event              (* accepted by the sink, newest first *)
}.
Arguments mkWorld {S}.
Arguments w_db {S}.
Arguments w_at {S}.
Arguments w_throttle {S}.
Arguments w_pub {S}.
Arguments w_audit {S}.
Arguments w_events {S}.

(** [NewService]'s throttle *)
Definition service_throttle : Throttler := NewThrottler Minute 10.

Section service.
Context `{UuidText} {S : Type}.
Variable env : nat -> TxTick PipeDB.
Variable caps : Capabilities.
Variable publication : option (PublicationPort S).

Abbreviation World := (World S).
Abbreviation M := (act World err).

Definition with_db (db : PipeDB) (w : World) : World :=
  mkWorld db (w_at w) (w_throttle w) (w_pub w) (w_audit w) (w_events w).
Definition tick (w : World) : World :=
  mkWorld (w_db w) (w_at w + 1) (w_throttle w) (w_pub w) (w_audit w) (w_events w).

(** One store call. *)
Definition tx {A} (op : time -> PipeDB -> res err (A * PipeDB)) : M A := fun w =>
  let '(r, db) := run_tx ErrPort (env (w_at w)) op (w_db w) in (r, with_db db (tick w)).
Definition read {A} (op : PipeDB -> res err A) : M A := tx (fun _ db => try! a := op db in Ok (a, db)).

Definition now_ : M time := fun w => (Ok (tt_now (env (w_at w))), tick w).

Definition audit (r : AuditRecord) : M unit := act_mod (fun w =>
  mkWorld (w_db w) (w_at w) (w_throttle w) (w_pub w) (r :: w_audit w) (w_events w)).

Definition throttle_Allow (key : string) : M bool := fun w =>
  let '(ok, t) := Allow key (tt_now (env (w_at w))) (w_throttle w) in
  (Ok ok, mkWorld (w_db w) (w_at w + 1) t (w_pub w) (w_audit w) (w_events w)).

(** A stage port's answer. *)
Definition port {A} (call : nat -> res err A) : M A := fun w => (call (w_at w), tick w).

(** [s.events.PublishPipeline] *)
Definition PublishPipeline (e : Event) : M unit := fun w =>
  let r := cap_Event caps (w_at w) e in
  (r, mkWorld (w_db w) (w_at w + 1) (w_throttle w) (w_pub w) (w_audit w)
        (if is_ok r then e :: w_events w else w_events w)).

(** A call of the publication port. *)
Definition pub {A} (call : S -> res err A * S) : M A := fun w =>
  let '(r, s) := call (w_pub w) in
  (r, mkWorld (w_db w) (w_at w) (w_throttle w) s (w_audit w) (w_events w)).

(** The audit record most methods write; a result may come with an error. *)
Definition record (ev principle out : string) (ws id : uuid) (actor_type actor : string) (cx : Ctx) (stage : Stage)
  : AuditRecord :=
  mkAudit ev principle out (uuid_String ws) (uuid_String id) actor_type actor (cx_trace cx) (cx_span cx)
    (stage_text stage).

Definition fresh_id : M uuid := fun w => (Ok (pd_next (w_db w)), w).

(** *** Creation *)

Definition research_event (cx : Ctx) (p : Pipeline) (ws : uuid) (trace : string) : Event :=
  mkEvent "pipeline.research" (pl_ID p) ws (stage_text (pl_Stage p)) trace (cx_span cx).

(** The pipeline an earlier request with the same key created, its first event
    sent again while nothing happened to it. *)
Definition replay (cx : Ctx) (ws : uuid) (existing : Pipeline) : M (Pipeline * option err) :=
  if bool_decide (pl_Stage existing = StageResearch) && bool_decide (pl_Status existing = StatusCreated) then
    r <~ act_try (PublishPipeline (research_event cx existing ws (pl_TraceID existing))) ;;
    match r with Err e => act_ret (existing, Some e) | Ok _ => act_ret (existing, None) end
  else act_ret (existing, None).

Definition create_fresh (cx : Ctx) (ws : uuid) (goalID : option uuid) (traceID key : string)
  : M (Pipeline * option err) :=
  now <~ now_ ;;
  fresh <~ fresh_id ;;
  p <~ act_lift (NewWithIdempotency ws goalID traceID key fresh now) ;;
  r <~ act_try (tx (db_Create p)) ;;
  match r with
  | Err e =>
      if negb (String.eqb key "") then
        found <~ act_try (read (db_GetByIdempotency ws key)) ;;
        match found with Ok existing => replay cx ws existing | Err _ => act_fail e end
      else act_fail e
  | Ok stored =>
      audit (mkAudit "pipeline.create" "Obedience" "success" (uuid_String ws) (uuid_String (pl_ID stored))
               (actorType cx "system") (cx_actor cx) traceID (cx_span cx) (stage_text (pl_Stage stored))) ;;!
      r <~ act_try (PublishPipeline (research_event cx stored ws traceID)) ;;
      match r with Err e => act_ret (stored, Some e) | Ok _ => act_ret (stored, None) end
  end.

Definition CreateWithIdempotency (cx : Ctx) (ws : uuid) (goalID : option uuid) (traceID key : string)
  : M (Pipeline * option err) :=
  require! negb (ws =? uuid_Nil)%N else ErrWorkspaceMismatch ;;
  let key := TrimSpace key in
  require! negb (Nat.ltb 128 (String.length key)) else ErrInvalidInput ;;
  if negb (String.eqb key "") then
    found <~ act_try (read (db_GetByIdempotency ws key)) ;;
    match found with
    | Ok existing => replay cx ws existing
    | Err ErrNotFound => create_fresh cx ws goalID traceID key
    | Err e => act_fail e
    end
  else create_fresh cx ws goalID traceID key.

Definition Create (cx : Ctx) (ws : uuid) (goalID : option uuid) (traceID : string) : M (Pipeline * option err) :=
  CreateWithIdempotency cx ws goalID traceID "".

(** *** Reading *)

Definition getOwned (ws id : uuid) : M Pipeline :=
  require! negb ((ws =? uuid_Nil)%N || (id =? uuid_Nil)%N) else ErrInvalidInput ;;
  p <~ read (db_Get ws id) ;;
  require! (pl_WorkspaceID p =? ws)%N else ErrWorkspaceMismatch ;;
  act_ret p.

Definition Get (ws id : uuid) : M Pipeline := getOwned ws id.
Definition List (ws : uuid) : M (list Pipeline) := read (db_List ws).

(** *** Stage work

    The pipeline is mutated in place: what an earlier port left on it stays
    when a later one fails. *)

Definition stageWork (p : Pipeline) (to : Stage) : M (Pipeline * res err string) :=
  let ws := pl_WorkspaceID p in
  match to with
  | StageScript =>
      rr <~ act_try (port (fun n => cap_Research caps n ws p)) ;;
      match rr with
      | Err e => act_ret (p, Err e)
      | Ok rr =>
          let p := set_pl_ResearchReference (boundReference rr) p in
          sr <~ act_try (port (fun n => cap_WriteScript caps n ws p (pl_ResearchReference p))) ;;
          match sr with
          | Err e => act_ret (p, Err e)
          | Ok sr =>
              let p := set_pl_ScriptReference (boundReference sr) p in
              act_ret (p, Ok (pl_ScriptReference p))
          end
      end
  | StageReview =>
      ok <~ act_try (port (fun n => cap_Review caps n ws p)) ;;
      match ok with
      | Err e => act_ret (p, Err e)
      | Ok false => act_ret (p, Err (ErrPort "orchestration: review rejected artefact"))
      | Ok true =>
          let p := set_pl_ReviewReference "review-ok" p in
          act_ret (p, Ok (pl_ReviewReference p))
      end
  | StagePublish =>
      match publication with
      | None =>
          r <~ act_try (port (fun n => cap_Publish caps n ws p (pl_ReviewReference p))) ;;
          act_ret (p, r)
      | Some _ => act_ret (p, Ok ""%string)
      end
  | StageComplete => act_ret (p, Ok ""%string)
  | _ => act_ret (p, Err ErrInvalidStage)
  end.

(** *** Advancing *)

(** The failure branch: the pipeline is persisted as failed, [persist] decides
    what becomes of an error of that write. *)
Definition fail_stage (p : Pipeline) (e : err) : M (res err Pipeline) :=
  now <~ now_ ;;
  act_try (tx (db_Update (pl_WorkspaceID p)
    (set_pl_UpdatedAt now (set_pl_FailureReason (failureReason e) (set_pl_Status StatusFailed p))))).

(** The publication part of a stage. *)
Definition publicationWork (p : Pipeline) (to : Stage) : M Pipeline :=
  match publication with
  | None => act_ret p
  | Some port =>
      if bool_decide (to = StageReview) then
        r <~ act_try (pub (port_Prepare port (pl_WorkspaceID p) p)) ;;
        match r with
        | Err e => fail_stage p e ;;! act_fail e
        | Ok publicationID => act_ret (set_pl_PublicationID (Some publicationID) p)
        end
      else if bool_decide (to = StagePublish) then
        match pl_PublicationID p with
        | None => act_fail ErrApprovalRequired
        | Some pid =>
            require! Approved p else ErrApprovalRequired ;;
            r <~ act_try (pub (port_Publish port (pl_WorkspaceID p) pid (pl_ApprovedBy p))) ;;
            match r with
            | Err e => fail_stage p e ;;! act_fail e
            | Ok ref => act_ret (set_pl_PublishedReference ref p)
            end
        end
      else act_ret p
  end.

Definition status_after (to : Stage) (p : Pipeline) : PipelineStatus :=
  match to with
  | StageScript | StagePublish => StatusActive
  | StageReview => StatusAwaitingApproval
  | StageComplete => StatusDone
  | _ => pl_Status p
  end.

Definition event_after (to : Stage) : string :=
  if bool_decide (to = StageReview) then "pipeline.review_ready" else "pipeline." +:+ stage_text to.

Definition doAdvance (cx : Ctx) (p : Pipeline) (to : Stage) (actor_type actor : string)
  : M (Pipeline * option err) :=
  let ws := pl_WorkspaceID p in
  work <~ stageWork p to ;;
  match work with
  | (p, Err e) =>
      persisted <~ fail_stage p e ;;
      audit (record "pipeline.advance" "Security by Design" "failed" ws (pl_ID p) actor_type actor cx to) ;;!
      match persisted with
      | Err persistErr => act_fail (ErrJoined e persistErr)
      | Ok _ => act_fail e
      end
  | (p, Ok _) =>
      p <~ publicationWork p to ;;
      now <~ now_ ;;
      let p := set_pl_UpdatedAt now (set_pl_FailureReason "" (set_pl_Status (status_after to p) (set_pl_Stage to p))) in
      updated <~ tx (db_Update ws p) ;;
      audit (record "pipeline.advance" "Human Oversight" "success" ws (pl_ID p) actor_type actor cx to) ;;!
      r <~ act_try (PublishPipeline (mkEvent (event_after to) (pl_ID p) ws (stage_text to) (cx_trace cx) (cx_span cx))) ;;
      match r with Err e => act_ret (updated, Some e) | Ok _ => act_ret (updated, None) end
  end.

Definition Advance (cx : Ctx) (ws id : uuid) (startStage to : Stage) : M (Pipeline * option err) :=
  require! negb (ws =? uuid_Nil)%N else ErrWorkspaceMismatch ;;
  allowed <~ throttle_Allow (uuid_String ws) ;;
  require! allowed else ErrRateLimited ;;
  p <~ getOwned ws id ;;
  require! bool_decide (pl_Stage p = startStage) else ErrConsecutiveAdvance ;;
  match CanAdvance to (pl_Stage p) (pl_Status p) with
  | Some e => act_fail e
  | None => doAdvance cx p to "system" ""
  end.

(** *** Events of the stage a pipeline is in *)

Definition current_event (p : Pipeline) : string :=
  if bool_decide (pl_Stage p = StageReview) then
    if bool_decide (pl_Status p = StatusApproved) then "pipeline.review_approved" else "pipeline.review_ready"
  else "pipeline." +:+ stage_text (pl_Stage p).

Definition publishCurrentEvent (cx : Ctx) (p : Pipeline) : M unit :=
  PublishPipeline (mkEvent (current_event p) (pl_ID p) (pl_WorkspaceID p) (stage_text (pl_Stage p))
                     (cx_trace cx) (cx_span cx)).

Definition RepublishCurrentEvent (cx : Ctx) (p : Pipeline) : M unit := publishCurrentEvent cx p.

(** *** The human commands *)

Definition Approve (cx : Ctx) (ws id : uuid) (actor : string) : M (Pipeline * option err) :=
  let actor := TrimSpace actor in
  require! negb (String.eqb actor "") else ErrUnauthorizedActor ;;
  p <~ getOwned ws id ;;
  require! bool_decide (pl_Stage p = StageReview) else ErrApprovalRequired ;;
  if bool_decide (pl_Status p = StatusApproved) && Approved p then
    r <~ act_try (publishCurrentEvent cx p) ;;
    match r with Err e => act_ret (p, Some e) | Ok _ => act_ret (p, None) end
  else
    require! bool_decide (pl_Status p = StatusAwaitingApproval) else ErrApprovalRequired ;;
    match publication with
    | None => act_ret tt
    | Some port =>
        match pl_PublicationID p with
        | None => act_fail ErrApprovalRequired
        | Some pid => pub (port_Approve port ws pid actor)
        end
    end ;;!
    now <~ now_ ;;
    let p := set_pl_UpdatedAt now (set_pl_FailureReason "" (set_pl_ApprovedAt (Some now)
               (set_pl_ApprovedBy actor (set_pl_Status StatusApproved p)))) in
    updated <~ tx (db_Update ws p) ;;
    audit (record "pipeline.approve" "Human Oversight" "success" ws id "human" actor cx StageReview) ;;!
    r <~ act_try (PublishPipeline (mkEvent "pipeline.review_approved" id ws (stage_text StageReview)
                     (cx_trace cx) (cx_span cx))) ;;
    match r with Err e => act_ret (updated, Some e) | Ok _ => act_ret (updated, None) end.

(** The status a failed pipeline resumes in. *)
Definition resumed (p : Pipeline) : PipelineStatus :=
  match pl_Stage p with
  | StageReview =>
      if negb (String.eqb (pl_ApprovedBy p) "") && bool_decide (is_Some (pl_ApprovedAt p))
      then StatusApproved else StatusAwaitingApproval
  | StageResearch => StatusCreated
  | _ => StatusActive
  end.

Definition Retry (cx : Ctx) (ws id : uuid) (actor : string) : M (Pipeline * option err) :=
  let actor := TrimSpace actor in
  require! negb (String.eqb actor "") else ErrUnauthorizedActor ;;
  allowed <~ throttle_Allow (uuid_String ws) ;;
  require! allowed else ErrRateLimited ;;
  p <~ getOwned ws id ;;
  require! bool_decide (pl_Status p = StatusFailed) else ErrInvalidTransition ;;
  require! negb (bool_decide (pl_Stage p = StageComplete)) else ErrTerminalState ;;
  now <~ now_ ;;
  let p := set_pl_UpdatedAt now (set_pl_FailureReason "" (set_pl_RetryCount (wrap64 (pl_RetryCount p + 1))
             (set_pl_Status (resumed p) p))) in
  p <~ tx (db_Update ws p) ;;
  next <~ act_lift (NextStage (pl_Stage p)) ;;
  doAdvance cx p next "human" actor.

(** *** handler.go *)

Definition result_error {E A} (r : res E (A * option E)) : option E :=
  match r with Ok (_, e) => e | Err e => Some e end.

Definition AdvanceFromEvent (cx : Ctx) (ws id : uuid) (currentStage : Stage) (traceID spanID : string)
  : M (Pipeline * option err) :=
  let cx := if negb (String.eqb traceID "") then WithTrace cx traceID spanID else cx in
  next <~ act_lift (NextStage currentStage) ;;
  r <~ act_try (Advance cx ws id currentStage next) ;;
  match result_error r with
  | Some e =>
      if errors_Is e ErrConsecutiveAdvance then
        found <~ act_try (Get ws id) ;;
        match found with
        | Err _ => act_fail e
        | Ok current =>
            if negb (bool_decide (pl_Status current = StatusFailed)) && IsAfter (pl_Stage current) currentStage then
              sent <~ act_try (RepublishCurrentEvent cx current) ;;
              match sent with Err e' => act_ret (current, Some e') | Ok _ => act_ret (current, None) end
            else act_lift r
        end
      else act_lift r
  | None => act_lift r
  end.
End service.

(** The deterministic capability ports of the composed runtime. *)
Definition stub_capabilities `{UuidText} (sink : nat -> Event -> res err unit) : Capabilities :=
  mkCapabilities (fun _ => StubResearcher_Research) (fun _ => StubScriptWriter_WriteScript)
    (fun _ => StubReviewer_Review) (fun _ => StubPublisher_Publish) sink.
