(* ===== verification/PipelineProps.v ===== *)
(** * What the orchestration service guarantees

    The human gate and the forward-only lifecycle under arbitrary interleaving
    and failures. *)

From S2P Require Import Prelude GoLib Throttle Pipeline PipelineService.

(** ** Requests *)

Inductive request : Type :=
| ReqCreate (cx : Ctx) (ws : uuid) (goalID : option uuid) (traceID key : string)
| ReqGet (ws id : uuid)
| ReqList (ws : uuid)
| ReqApprove (cx : Ctx) (ws id : uuid) (actor : string)
| ReqRetry (cx : Ctx) (ws id : uuid) (actor : string)
| ReqAdvance (cx : Ctx) (ws id : uuid) (startStage to : Stage)
| ReqEvent (cx : Ctx) (ws id : uuid) (stage : Stage) (traceID spanID : string).

(** ** The invariant of a pipeline row

    The gate is passed with an approval on record, and only then. *)

Definition beyond (p : Pipeline) : bool :=
  match pl_Stage p, pl_Status p with
  | (StagePublish | StageComplete), _ => true
  | StageReview, (StatusApproved | StatusFailed) => true
  | _, _ => false
  end.

Definition approval_on_record (p : Pipeline) : Prop := pl_ApprovedBy p <> "" /\ is_Some (pl_ApprovedAt p).

Definition row_ok (p : Pipeline) : Prop :=
  stage_status_valid (pl_Stage p) (pl_Status p) = true /\
  if beyond p then approval_on_record p else pl_ApprovedBy p = "".

Definition gate (db : PipeDB) : Prop :=
  map_Forall (fun id p => pl_ID p = id /\ (id < pd_next db)%N /\ (1 <= pl_Version p)%Z /\ row_ok p) (pd_rows db).

(** ** The lifecycle of a row *)

Definition same_identity (p p' : Pipeline) : Prop :=
  pl_ID p' = pl_ID p /\ pl_WorkspaceID p' = pl_WorkspaceID p /\ pl_GoalID p' = pl_GoalID p /\
  pl_CreatedAt p' = pl_CreatedAt p /\ pl_IdempotencyKey p' = pl_IdempotencyKey p.

Definition approval_kept (p p' : Pipeline) : Prop :=
  pl_ApprovedBy p <> "" -> pl_ApprovedBy p' = pl_ApprovedBy p /\ pl_ApprovedAt p' = pl_ApprovedAt p.

(** A row only changes with its version; it never moves back, and an approval
    is never altered. *)
Definition later (p p' : Pipeline) : Prop :=
  p' = p \/ ((pl_Version p < pl_Version p')%Z /\ same_identity p p' /\
             (stage_order (pl_Stage p) <= stage_order (pl_Stage p'))%Z /\ approval_kept p p').

Definition grows (db db' : PipeDB) : Prop := forall id p, pd_rows db !! id = Some p ->
  exists p', pd_rows db' !! id = Some p' /\ later p p'.

#[export] Instance later_preorder : PreOrder later.
Proof.
  split; [by left|]. intros p q r Hpq Hqr. unfold later, same_identity, approval_kept in *.
  destruct Hpq as [->|(V1 & (I1 & I2 & I3 & I4 & I5) & S1 & A1)]; [done|].
  destruct Hqr as [->|(V2 & (J1 & J2 & J3 & J4 & J5) & S2 & A2)]; [right; naive_solver|].
  right. split; [lia|]. split; [split_and!; congruence|]. split; [lia|].
  intros Ha. destruct (A1 Ha) as [B1 B2]. destruct A2 as [C1 C2]; [congruence|]. split; congruence.
Qed.

#[export] Instance grows_preorder : PreOrder grows.
Proof.
  split; [by intros db id p Hp; exists p; split; [done|reflexivity]|].
  intros a b c Hab Hbc id p Hp. destruct (Hab id p Hp) as (q & Hq & L1). destruct (Hbc id q Hq) as (r & Hr & L2).
  exists r. split; [done|]. by etrans.
Qed.

Lemma later_version p p' : later p p' -> pl_Version p' = pl_Version p -> p' = p.
Proof. intros [->|(Hv & _)] He; [done|lia]. Qed.

(** ** Writes over a row *)

(** What may be written over [p]. *)
Definition evolves (p q : Pipeline) : Prop :=
  same_identity p q /\ pl_Version q = pl_Version p /\
  (stage_order (pl_Stage p) <= stage_order (pl_Stage q))%Z /\ approval_kept p q /\
  (stage_status_valid (pl_Stage q) (pl_Status q) = true ->
   if beyond q then approval_on_record q else pl_ApprovedBy q = "").

(** In-place edits that leave the state machine's columns alone. *)
Definition drafted (p p1 : Pipeline) : Prop :=
  same_identity p p1 /\ pl_Version p1 = pl_Version p /\ pl_Stage p1 = pl_Stage p /\ pl_Status p1 = pl_Status p /\
  pl_ApprovedBy p1 = pl_ApprovedBy p /\ pl_ApprovedAt p1 = pl_ApprovedAt p.

Definition ready (p : Pipeline) (to : Stage) : Prop := CanAdvance to (pl_Stage p) (pl_Status p) = None.

Lemma drafted_refl p : drafted p p.
Proof. done. Qed.

Lemma ready_cases p to : ready p to ->
  (pl_Stage p = StageResearch /\ to = StageScript) \/ (pl_Stage p = StageScript /\ to = StageReview) \/
  (pl_Stage p = StageReview /\ pl_Status p = StatusApproved /\ to = StagePublish) \/
  (pl_Stage p = StagePublish /\ to = StageComplete).
Proof.
  unfold ready, CanAdvance. intros Hr. repeat (case_match; try done); bool_prop; naive_solver.
Qed.

(** Either the gate is still ahead, or the approval is on record. *)
Lemma ready_gate p to : row_ok p -> ready p to ->
  if bool_decide (to = StagePublish \/ to = StageComplete) then approval_on_record p else pl_ApprovedBy p = "".
Proof.
  intros [Hv Hok] Hr. unfold beyond in Hok.
  destruct (ready_cases p to Hr) as [[E ->]|[[E ->]|[(E & E' & ->)|[E ->]]]]; rewrite ?E, ?E' in *; done.
Qed.

Lemma evolves_failed p p1 to e now : row_ok p -> ready p to -> drafted p p1 ->
  evolves p (set_pl_UpdatedAt now (set_pl_FailureReason (failureReason e) (set_pl_Status StatusFailed p1))).
Proof.
  intros Hok Hr (HI & HV & HS & HT & HB & HA). pose proof (ready_gate p to Hok Hr) as Hg.
  unfold evolves, approval_kept, beyond, approval_on_record. simpl. rewrite HV, HS, HB, HA.
  split_and!; [done|done|lia|done|]. intros _.
  destruct (ready_cases p to Hr) as [[E ->]|[[E ->]|[(E & E' & ->)|[E ->]]]]; rewrite E; exact Hg.
Qed.

Lemma evolves_advanced p p1 to now : row_ok p -> ready p to -> drafted p p1 ->
  evolves p (set_pl_UpdatedAt now (set_pl_FailureReason "" (set_pl_Status (status_after to p1) (set_pl_Stage to p1)))).
Proof.
  intros Hok Hr (HI & HV & HS & HT & HB & HA). pose proof (ready_gate p to Hok Hr) as Hg.
  unfold evolves, approval_kept, beyond, approval_on_record. simpl. rewrite HV, HB, HA.
  destruct (ready_cases p to Hr) as [[E ->]|[[E ->]|[(E & E' & ->)|[E ->]]]]; rewrite E; simpl;
    (split_and!; [done|done|done|done|]); intros _; exact Hg.
Qed.

Lemma resumed_ready p now q n :
  row_ok p -> pl_Status p = StatusFailed -> pl_Stage p <> StageComplete ->
  q = set_pl_Version n (set_pl_UpdatedAt now (set_pl_FailureReason ""
        (set_pl_RetryCount (wrap64 (pl_RetryCount p + 1)) (set_pl_Status (resumed p) p)))) ->
  forall next, NextStage (pl_Stage q) = Ok next -> ready q next.
Proof.
  intros [Hv Hok] Hf Hc -> next Hn. unfold ready, resumed, beyond in *. simpl in *. rewrite Hf in Hok.
  destruct (pl_Stage p); simplify_eq/=; try done.
  destruct Hok as [H1 H2]. rewrite bool_decide_eq_true_2 by done.
  destruct (String.eqb_spec (pl_ApprovedBy p) ""); done.
Qed.

Lemma evolves_resumed p now now' :
  row_ok p -> pl_Status p = StatusFailed ->
  evolves p (set_pl_UpdatedAt now' (set_pl_UpdatedAt now (set_pl_FailureReason ""
        (set_pl_RetryCount (wrap64 (pl_RetryCount p + 1)) (set_pl_Status (resumed p) p))))).
Proof.
  intros [Hv Hok] Hf. unfold beyond in Hok. rewrite Hf in Hok.
  unfold evolves, approval_kept, beyond, approval_on_record, resumed. simpl.
  split_and!; [done|done|done|done|]. destruct (pl_Stage p) eqn:Es; simpl; try done.
  destruct Hok as [H1 H2]. rewrite bool_decide_eq_true_2 by done.
  destruct (String.eqb_spec (pl_ApprovedBy p) ""); done.
Qed.

(** ** Serving requests *)

Section gate.
Context `{UuidText} {S : Type}.
Variable env : nat -> TxTick PipeDB.
Variable caps : Capabilities.
Variable publication : option (PublicationPort S).

Definition handle (r : request) : act (World S) err unit :=
  match r with
  | ReqCreate cx ws g trace key => CreateWithIdempotency env caps cx ws g trace key ;;! act_ret tt
  | ReqGet ws id => Get env ws id ;;! act_ret tt
  | ReqList ws => List env ws ;;! act_ret tt
  | ReqApprove cx ws id actor => Approve env caps publication cx ws id actor ;;! act_ret tt
  | ReqRetry cx ws id actor => Retry env caps publication cx ws id actor ;;! act_ret tt
  | ReqAdvance cx ws id from to => Advance env caps publication cx ws id from to ;;! act_ret tt
  | ReqEvent cx ws id stage trace span =>
      AdvanceFromEvent env caps publication cx ws id stage trace span ;;! act_ret tt
  end.

Definition serve (rs : list request) (w : World S) : World S := fold_left (fun w r => (handle r w).2) rs w.

(** What the publication port keeps, provided it is asked to approve or publish
    only in the name of somebody. *)
Variable J : S -> Prop.
Hypothesis port_ok : forall port, publication = Some port -> forall ws s, J s ->
  (forall p, J (port_Prepare port ws p s).2) /\
  (forall pid actor, actor <> ""%string ->
     J (port_Approve port ws pid actor s).2 /\ J (port_Publish port ws pid actor s).2).
Hypothesis rely : forall n db, gate db -> gate (tt_others (env n) db) /\ grows db (tt_others (env n) db).
Variable db0 : PipeDB.

Definition St (w : World S) : Prop := gate (w_db w) /\ grows db0 (w_db w) /\ J (w_pub w).

(** [p] was read, or written, and its row has only grown since. *)
Definition seen (p : Pipeline) (db : PipeDB) : Prop :=
  exists row, pd_rows db !! pl_ID p = Some row /\ later p row.
Definition Have (p : Pipeline) (w : World S) : Prop :=
  St w /\ row_ok p /\ (1 <= pl_Version p)%Z /\ seen p (w_db w).

Lemma Have_St p w : Have p w -> St w.
Proof. by intros []. Qed.

Lemma seen_grows p db db' : seen p db -> grows db db' -> seen p db'.
Proof.
  intros (row & Hr & Hl) Hg. destruct (Hg _ _ Hr) as (row' & Hr' & Hl'). exists row'. split; [done|]. by etrans.
Qed.

(** *** Actions that only read *)

Definition silent {A} (m : act (World S) err A) : Prop :=
  forall w, w_db (m w).2 = w_db w /\ w_pub (m w).2 = w_pub w.

Lemma silent_St {A} (m : act (World S) err A) : silent m -> spec St m (fun _ => St) St.
Proof.
  intros Hm w Hw. destruct (Hm w) as [E1 E2]. unfold St in *.
  destruct (m w) as [[a|e] w']; simpl in *; by rewrite E1, E2.
Qed.
Lemma silent_Have {A} (m : act (World S) err A) p : silent m -> spec (Have p) m (fun _ => Have p) St.
Proof.
  intros Hm w Hw. destruct (Hm w) as [E1 E2]. unfold Have, St in *.
  destruct (m w) as [[a|e] w']; simpl in *; rewrite E1, E2; tauto.
Qed.

Lemma silent_now : silent (now_ env).
Proof. done. Qed.
Lemma silent_audit r : silent (audit r : act (World S) err unit).
Proof. done. Qed.
Lemma silent_port {A} (call : nat -> res err A) : silent (port call : act (World S) err A).
Proof. done. Qed.
Lemma silent_event e : silent (PublishPipeline caps e : act (World S) err unit).
Proof. done. Qed.
Lemma silent_throttle k : silent (throttle_Allow env k : act (World S) err bool).
Proof. intros w. unfold throttle_Allow. by destruct (Allow _ _ _). Qed.
Lemma silent_lift {A} (r : res err A) : silent (act_lift r : act (World S) err A).
Proof. done. Qed.
Lemma silent_ret {A} (a : A) : silent (act_ret a : act (World S) err A).
Proof. done. Qed.
Lemma silent_fail {A} (e : err) : silent (act_fail e : act (World S) err A).
Proof. done. Qed.
Lemma silent_fresh : silent (fresh_id : act (World S) err uuid).
Proof. done. Qed.
Lemma silent_try {A} (m : act (World S) err A) : silent m -> silent (act_try m).
Proof. intros Hm w. specialize (Hm w). unfold act_try. by destruct (m w). Qed.
Lemma silent_bind {A B} (m : act (World S) err A) (f : A -> act (World S) err B) :
  silent m -> (forall a, silent (f a)) -> silent (act_bind m f).
Proof.
  intros Hm Hf w. destruct (Hm w) as [E1 E2]. unfold act_bind. destruct (m w) as [[a|e] w']; simpl in *; [|done].
  destruct (Hf a w') as [E3 E4]. split; congruence.
Qed.
Lemma silent_if {A} (b : bool) (m1 m2 : act (World S) err A) : silent m1 -> silent m2 -> silent (if b then m1 else m2).
Proof. by destruct b. Qed.
#[local] Hint Resolve silent_now silent_audit silent_port silent_event silent_throttle silent_lift silent_ret
  silent_fail silent_fresh silent_try silent_bind silent_if : silent.

Lemma silent_sent (e : Event) (p : Pipeline) :
  silent (r <~ act_try (PublishPipeline caps e) ;;
          match r with Err er => act_ret (p, Some er) | Ok _ => act_ret (p, None) end : act (World S) err _).
Proof. apply silent_bind; [auto with silent|]. intros [|]; apply silent_ret. Qed.
#[local] Hint Resolve silent_sent : silent.

(** *** Rules *)

Lemma St_bind {A B} (P : World S -> Prop) (m : act (World S) err A) (f : A -> act (World S) err B) Q R :
  spec P m Q St -> (forall a, spec (Q a) (f a) R St) -> spec P (act_bind m f) R St.
Proof. apply spec_bind. Qed.
Lemma St_silent_bind {A B} (m : act (World S) err A) (f : A -> act (World S) err B) R :
  silent m -> (forall a, spec St (f a) R St) -> spec St (act_bind m f) R St.
Proof. intros Hm Hf. eapply spec_bind; [by apply silent_St|done]. Qed.
Lemma Have_silent_bind {A B} p (m : act (World S) err A) (f : A -> act (World S) err B) R :
  silent m -> (forall a, spec (Have p) (f a) R St) -> spec (Have p) (act_bind m f) R St.
Proof. intros Hm Hf. eapply spec_bind; [by apply silent_Have|done]. Qed.
Lemma Have_weak {A} p (m : act (World S) err A) Q : spec St m Q St -> spec (Have p) m Q St.
Proof. intros Hm. eapply spec_weaken; [exact Hm|by intros w []|done|done]. Qed.
Lemma Have_fail {A} p e (Q : A -> World S -> Prop) : spec (Have p) (act_fail e : act (World S) err A) Q St.
Proof. apply spec_fail, Have_St. Qed.
Lemma St_fail {A} e (Q : A -> World S -> Prop) : spec St (act_fail e : act (World S) err A) Q St.
Proof. by apply spec_fail. Qed.

(** *** The store *)

(** A store call whose commits keep the gate and only let rows grow. *)
Lemma St_tx {A} (op : time -> PipeDB -> res err (A * PipeDB)) (P : PipeDB -> Prop) (Q : A -> PipeDB -> Prop) :
  (forall db db', gate db -> P db -> grows db db' -> P db') ->
  (forall now db a db', gate db -> P db -> op now db = Ok (a, db') -> gate db' /\ grows db db' /\ Q a db') ->
  spec (fun w => St w /\ P (w_db w)) (tx env op) (fun a w => St w /\ Q a (w_db w)) St.
Proof.
  intros Hstable Hop w [(Hg & Hgr & HJ) HP]. unfold tx.
  destruct (rely (w_at w) _ Hg) as [Hg' Hgr'].
  assert (P (tt_others (env (w_at w)) (w_db w))) as HP' by eauto.
  destruct (run_tx ErrPort (env (w_at w)) op (w_db w)) as [r db] eqn:Hr.
  assert (gate db /\ grows db0 db) as [Hdb Hdb0].
  { change db with (r, db).2. rewrite <-Hr.
    destruct (run_tx_cases ErrPort (env (w_at w)) op (w_db w)) as [->|(a & s' & Ha & ->)].
    - split; [done|by etrans].
    - destruct (Hop _ _ _ _ Hg' HP' Ha) as (? & ? & _). split; [done|]. etrans; [done|by etrans]. }
  destruct r as [a|e]; [|done]. split; [done|]. simpl. apply run_tx_Ok in Hr.
  by destruct (Hop _ _ _ _ Hg' HP' Hr) as (_ & _ & HQ).
Qed.

Lemma St_read {A} (op : PipeDB -> res err A) : spec St (read env op) (fun _ => St) St.
Proof.
  eapply spec_weaken; [apply (St_tx _ (fun _ => True) (fun _ _ => True))|..]; [done| |done|by intros a w []|done].
  intros now db a db' Hg _ (x & Hx & [= -> ->])%res_bind_Ok.
  split_and!; [done|reflexivity|done].
Qed.

Lemma find_row_Some ws id db p : gate db -> find_row ws id db = Some p ->
  pd_rows db !! id = Some p /\ pl_ID p = id /\ pl_WorkspaceID p = ws /\ (1 <= pl_Version p)%Z /\ row_ok p.
Proof.
  intros Hg. unfold find_row. destruct (pd_rows db !! id) as [q|] eqn:Hq; [|done].
  destruct (N.eqb_spec (pl_WorkspaceID q) ws); [|done]. intros [= <-]. destruct (Hg _ _ Hq) as (? & ? & ? & ?). done.
Qed.

(** Reading a pipeline keeps whatever growing rows keep. *)
Lemma frame_getOwned (F : PipeDB -> Prop) ws id :
  (forall db db', gate db -> F db -> grows db db' -> F db') ->
  spec (fun w => St w /\ F (w_db w)) (getOwned env ws id)
    (fun p w => (pl_ID p = id /\ pl_WorkspaceID p = ws) /\ Have p w /\ F (w_db w)) St.
Proof.
  intros HF. unfold getOwned. apply spec_if; intros _; [|by apply spec_fail; intros w []].
  eapply St_bind.
  - eapply spec_weaken; [apply (St_tx _ F (fun p db => (pl_ID p = id /\ pl_WorkspaceID p = ws) /\
      (row_ok p /\ (1 <= pl_Version p)%Z /\ seen p db) /\ F db))|..]; [done| |done|by intros a w Hw; exact Hw|done].
    intros now db p db' Hg HFd (q & Hq & [= -> ->])%res_bind_Ok. unfold db_Get in Hq.
    destruct (find_row _ _ _) as [q|] eqn:Hf; [|done]. injection Hq as ->.
    apply find_row_Some in Hf as (Hr & HI & HW & HV & Hok); [|done].
    split; [done|]. split; [reflexivity|]. split_and!; try done. exists p. rewrite HI. split; [done|reflexivity].
  - intros p. apply spec_if; intros _; [apply spec_ret|apply spec_fail]; unfold Have; tauto.
Qed.

Lemma St_getOwned ws id :
  spec St (getOwned env ws id) (fun p w => (pl_ID p = id /\ pl_WorkspaceID p = ws) /\ Have p w) St.
Proof. eapply spec_weaken; [by apply (frame_getOwned (fun _ => True))|done| |done]. simpl. tauto. Qed.

Lemma Have_getOwned q ws id :
  spec (Have q) (getOwned env ws id) (fun p w => (pl_ID p = id /\ pl_WorkspaceID p = ws) /\ Have p w /\ Have q w) St.
Proof.
  eapply spec_weaken; [apply (frame_getOwned (fun db => row_ok q /\ (1 <= pl_Version q)%Z /\ seen q db))|done| |done].
  - intros db db' _ (? & ? & Hs) Hgr. split_and!; [done..|by eapply seen_grows].
  - intros p w (Hp & Hh & Hq). split; [done|]. split; [done|]. split; [by eapply Have_St|done].
Qed.

Lemma Have_Update p q ws :
  ws = pl_WorkspaceID p -> (row_ok p -> evolves p q) ->
  spec (Have p) (tx env (db_Update ws q))
    (fun q' w => (exists now, q' = set_pl_Version (pl_Version p + 1) (set_pl_UpdatedAt now q)) /\ Have q' w) St.
Proof.
  intros -> He w0 Hw0. destruct He as ((HI & HW & HG & HC & HK) & HV & HS & HA & Hok); [by destruct Hw0 as (_ & ? & _)|].
  revert w0 Hw0. change (spec (Have p) (tx env (db_Update (pl_WorkspaceID p) q))
    (fun q' w => (exists now, q' = set_pl_Version (pl_Version p + 1) (set_pl_UpdatedAt now q)) /\ Have q' w) St).
  eapply spec_weaken; [apply (St_tx _ (fun db => row_ok p /\ (1 <= pl_Version p)%Z /\ seen p db)
    (fun q' db => (exists now, q' = set_pl_Version (pl_Version p + 1) (set_pl_UpdatedAt now q)) /\
                  row_ok q' /\ (1 <= pl_Version q')%Z /\ seen q' db))|..]; cycle 2.
  { intros w Hw. exact Hw. }
  { intros q' w (HSt & Hx & Hrest). split; [done|]. by split. }
  { done. }
  { intros db db' _ (? & ? & Hs) Hgr. split_and!; [done..|by eapply seen_grows]. }
  intros now db q' db' Hg (Hp & Hv & (row & Hr & Hl)) Hu. unfold db_Update in Hu.
  apply guard_Ok in Hu as [_ Hu]. apply guard_Ok in Hu as [_ Hu]. simpl in Hu.
  destruct (find_row _ _ _) as [row'|] eqn:Hf; [|done].
  apply find_row_Some in Hf as (Hr' & HI' & HW' & HV' & Hok'); [|done]. rewrite HI, Hr in Hr'. injection Hr' as ->.
  apply guard_Ok in Hu as [HVe Hu]. apply res_bind_Ok in Hu as ([] & Hc & Hu).
  bool_prop. rewrite HV, Z.max_r in HVe, Hu by lia. assert (row' = p) as -> by (by eapply later_version).
  injection Hu as <- <-. unfold row_check in Hc. apply guard_Ok in Hc as [Hc _]. bool_prop. simpl in *.
  assert (row_ok q) as Hq by (split; [done|by apply Hok]).
  assert (updated_row (set_pl_UpdatedAt now q) p = set_pl_Version (pl_Version p + 1) (set_pl_UpdatedAt now q)) as Eu.
  { unfold updated_row, set_pl_Version, set_pl_UpdatedAt. simpl. by rewrite HI, HW, HG, HC. }
  rewrite Eu. split_and!.
  - intros i r. destruct (decide (i = pl_ID q)) as [->|Hne]; simpl.
    + rewrite lookup_insert, decide_True by done. intros [= <-]. simpl. split_and!; [done| |lia|done].
      rewrite HI. by destruct (Hg _ _ Hr) as (_ & ? & _).
    + rewrite lookup_insert_ne by done. apply Hg.
  - intros i r Hi. simpl. destruct (decide (i = pl_ID q)) as [->|Hne].
    + rewrite lookup_insert, decide_True by done. rewrite HI, Hr in Hi. injection Hi as <-. eexists. split; [done|].
      right. simpl. split_and!; [lia|done|done|done].
    + rewrite lookup_insert_ne by done. exists r. split; [done|reflexivity].
  - by exists now.
  - done.
  - simpl. lia.
  - eexists. simpl. rewrite lookup_insert, decide_True by done. split; [done|reflexivity].
Qed.

Lemma St_Create p : pl_Stage p = StageResearch -> pl_ApprovedBy p = "" -> pl_Version p = 1%Z ->
  pl_Status p = StatusCreated -> spec St (tx env (db_Create p)) (fun _ => St) St.
Proof.
  intros Hs Ha Hv Hst.
  eapply spec_weaken; [apply (St_tx _ (fun _ => True) (fun _ _ => True))|..]; [done| |done|by intros a w []|done].
  intros now db q db' Hg _ Hc. unfold db_Create in Hc.
  apply guard_Ok in Hc as [_ Hc]. apply guard_Ok in Hc as [_ Hc]. apply res_bind_Ok in Hc as ([] & _ & Hc).
  apply guard_Ok in Hc as [_ Hc]. injection Hc as <- <-. split_and!; [| |done].
  - intros i r. simpl. destruct (decide (i = pd_next db)) as [->|Hne].
    + rewrite lookup_insert, decide_True by done. intros [= <-]. simpl. unfold row_ok, beyond. simpl. rewrite Hs, Hst.
      split_and!; [done|lia|lia|done|done].
    + rewrite lookup_insert_ne by done. intros Hi. destruct (Hg _ _ Hi) as (? & ? & ?). split_and!; try done; [lia|tauto..].
  - intros i r Hi. simpl. exists r. split; [|reflexivity]. rewrite lookup_insert_ne; [done|].
    destruct (Hg _ _ Hi) as (_ & ? & _). lia.
Qed.

(** *** Stages *)

Lemma Have_fail_stage p p1 to e : ready p to -> drafted p p1 ->
  spec (Have p) (fail_stage env p1 e) (fun _ => St) St.
Proof.
  intros Hr Hd. unfold fail_stage. apply Have_silent_bind; [auto with silent|]. intros now.
  eapply spec_weaken; [eapply spec_try|..]; [|done| |by intros ? ?].
  - apply (Have_Update p); [by destruct Hd as ((_ & HW & _) & _)|]. intros Hok. by eapply evolves_failed.
  - intros [q|e'] w; simpl; [|done]. intros [_ Hq]. by eapply Have_St.
Qed.

Lemma Have_stageWork p to :
  spec (Have p) (stageWork caps publication p to) (fun r w => drafted p r.1 /\ Have p w) St.
Proof.
  unfold stageWork. destruct to; try (by apply spec_ret).
  - apply Have_silent_bind; [auto with silent|]. intros [rr|e]; [|by apply spec_ret].
    apply Have_silent_bind; [auto with silent|]. intros [sr|e]; by apply spec_ret.
  - apply Have_silent_bind; [auto with silent|]. intros [[]|e]; by apply spec_ret.
  - case publication; [intros _; by apply spec_ret|].
    apply Have_silent_bind; [auto with silent|]. intros r. by apply spec_ret.
Qed.

(** A call of the publication port in somebody's name. *)
Lemma Have_pub {A} p (call : S -> res err A * S) :
  (forall s, J s -> J (call s).2) -> spec (Have p) (pub call) (fun _ => Have p) St.
Proof.
  intros Hc w ((Hg & Hgr & HJ) & Hrest). unfold pub. specialize (Hc _ HJ). destruct (call (w_pub w)) as [[a|e] s].
  - split; [unfold St; by split_and!|exact Hrest].
  - unfold St; by split_and!.
Qed.

Lemma Have_pub_try {A B} p (call : S -> res err A * S) (f : res err A -> act (World S) err B) R :
  (forall s, J s -> J (call s).2) -> (forall r, spec (Have p) (f r) R St) ->
  spec (Have p) (act_bind (act_try (pub call)) f) R St.
Proof.
  intros Hc Hf. apply (spec_bind _ _ _ (fun _ => Have p)); [|exact Hf].
  intros w Hw. unfold act_try, pub. destruct Hw as ((Hg & Hgr & HJ) & Hrest). specialize (Hc _ HJ).
  destruct (call (w_pub w)) as [r s].
  split; [unfold St; by split_and!|exact Hrest].
Qed.

Lemma Have_publicationWork p p1 to : ready p to -> drafted p p1 ->
  spec (Have p) (publicationWork env publication p1 to) (fun q w => drafted p q /\ Have p w) St.
Proof.
  intros Hr Hd. unfold publicationWork. case_eq publication; [intros port Hport|intros _; by apply spec_ret].
  apply spec_if; intros Hto; [|apply spec_if; intros Hto']; [| |by apply spec_ret].
  - apply Have_pub_try; [intros s Hs; by apply (port_ok port Hport _ s Hs)|]. intros [pid|e]; [by apply spec_ret|].
    eapply spec_bind; [by eapply Have_fail_stage|]. intros ?. apply St_fail.
  - destruct (pl_PublicationID p1) as [pid|]; [|apply Have_fail].
    apply spec_if; intros Happ; [|apply Have_fail]. unfold Approved in Happ. bool_prop.
    apply Have_pub_try; [intros s Hs; by apply (port_ok port Hport _ s Hs)|]. intros [ref|e]; [by apply spec_ret|].
    eapply spec_bind; [by eapply Have_fail_stage|]. intros ?. apply St_fail.
Qed.

(** A message about [q] is sent, or not, once [q] is written. *)
Lemma Have_sent e p q :
  spec (Have q) (r <~ act_try (PublishPipeline caps e) ;;
                 match r with Err er => act_ret (p, Some er) | Ok _ => act_ret (p, None) end : act (World S) err _)
    (fun (r : Pipeline * option err) w => r.1 = p /\ Have q w) St.
Proof. apply Have_silent_bind; [auto with silent|]. by intros []; apply spec_ret. Qed.

(** An advance ends with the pipeline in the stage it aimed at. *)
Definition advanced (id : uuid) (to : Stage) (r : Pipeline * option err) (w : World S) : Prop :=
  (pl_ID r.1 = id /\ pl_Stage r.1 = to) /\ Have r.1 w.

Lemma Have_doAdvance cx p to at_ a : ready p to ->
  spec (Have p) (doAdvance env caps publication cx p to at_ a) (advanced (pl_ID p) to) St.
Proof.
  intros Hr. unfold doAdvance. eapply spec_bind; [apply Have_stageWork|]. intros [p1 [ref|e]]; simpl.
  - apply spec_pure. intros Hd. eapply spec_bind; [by apply Have_publicationWork|]. intros p2.
    apply spec_pure. intros Hd2. apply Have_silent_bind; [auto with silent|]. intros now.
    eapply spec_bind; [eapply (Have_Update p); [done|]; intros Hok; by apply evolves_advanced|].
    intros q. apply spec_pure. intros [now' Eq]. apply Have_silent_bind; [auto with silent|]. intros _.
    eapply spec_weaken; [apply (Have_sent _ q q)|done| |done]. intros r w [Er Hq]. unfold advanced. rewrite Er.
    split; [|done]. rewrite Eq. by destruct Hd2 as ((HI & _) & _).
  - apply spec_pure. intros Hd. eapply spec_bind; [by eapply Have_fail_stage|]. intros r.
    apply St_silent_bind; [auto with silent|]. intros _. destruct r; apply St_fail.
Qed.

(** *** Methods *)

Lemma St_Advance cx ws id from to : spec St (Advance env caps publication cx ws id from to) (advanced id to) St.
Proof.
  unfold Advance. apply spec_if; intros _; [|apply St_fail].
  apply St_silent_bind; [auto with silent|]. intros ok. apply spec_if; intros _; [|apply St_fail].
  eapply spec_bind; [apply St_getOwned|]. intros p. apply spec_pure. intros [<- _].
  apply spec_if; intros _; [|apply Have_fail].
  destruct (CanAdvance _ _ _) eqn:Hc; [apply Have_fail|]. by apply Have_doAdvance.
Qed.

(** What an event leaves when it reports a pipeline. *)
Definition passed (id : uuid) (stage : Stage) (r : Pipeline * option err) (w : World S) : Prop :=
  (pl_ID r.1 = id /\ IsAfter (pl_Stage r.1) stage = true) /\ Have r.1 w.

Lemma NextStage_after stage next : NextStage stage = Ok next -> IsAfter next stage = true.
Proof. destruct stage; naive_solver. Qed.

Lemma St_AdvanceFromEvent cx ws id stage trace span :
  spec St (AdvanceFromEvent env caps publication cx ws id stage trace span) (passed id stage) St.
Proof.
  unfold AdvanceFromEvent. case_eq (NextStage stage); [intros next Hn|intros e _; apply St_fail].
  apply NextStage_after in Hn. cbv zeta.
  match goal with |- spec _ (act_bind (act_lift (Ok next)) ?f) _ _ => change (spec St (f next) (passed id stage) St) end.
  cbv beta. eapply spec_bind; [eapply (spec_try _ _ _ _ St), St_Advance|].
  assert (forall r, spec (fun w => match r with Ok a => advanced id next a w | Err _ => St w end)
                      (act_lift r : act (World S) err _) (passed id stage) St) as Hlift.
  { intros [a|e] w Hw; [|exact Hw]. destruct Hw as [[HI HS] Hw]. split; [|exact Hw]. by rewrite HS. }
  intros r. destruct (result_error r) as [e|]; [|apply Hlift].
  apply spec_if; intros _; [|apply Hlift].
  set (R := fun w => match r with Ok a => advanced id next a w | Err _ => St w end).
  assert (forall w, R w -> St w) as HR by (intros w; subst R; destruct r; [intros [_ Hw]; by eapply Have_St|done]).
  eapply (spec_bind _ _ _ (fun f w => match f with
    | Ok p => pl_ID p = id /\ Have p w /\ R w | Err _ => St w end)).
  { eapply (spec_weaken _ R); [eapply (spec_try _ _ (fun p w => pl_ID p = id /\ Have p w /\ R w) St)|done|by intros []|done].
    subst R. destruct r as [a|e0].
    - unfold Get. intros w [Ha Hw]. pose proof (Have_getOwned a.1 ws id w Hw) as Hg.
      destruct (getOwned env ws id w) as [[p|e1] w']; [|exact Hg]. destruct Hg as ((? & _) & ? & ?). by split_and!.
    - eapply spec_weaken; [apply St_getOwned|done| |done]. intros p w [[? _] Hp]. split; [done|]. split; [done|].
      by eapply Have_St. }
  intros [p|e']; [|apply St_fail]. apply spec_pure. intros HI. apply spec_if; intros Ha.
  - bool_prop. eapply spec_weaken; [apply (Have_sent _ p p)|by intros w []| |done].
    intros r' w [Er Hw]. unfold passed. by rewrite Er.
  - eapply spec_weaken; [apply Hlift|by intros w []|done|done].
Qed.

Lemma St_Approve cx ws id actor : spec St (Approve env caps publication cx ws id actor) (fun _ => St) St.
Proof.
  unfold Approve. apply spec_if; intros Ha; [|apply St_fail]. bool_prop.
  eapply spec_bind; [apply St_getOwned|]. intros p. apply spec_pure. intros [HI HW].
  apply spec_if; intros Hs; [|apply Have_fail].
  apply spec_if; intros _; [apply Have_weak, silent_St, silent_sent|].
  apply spec_if; intros Hst; [|apply Have_fail]. bool_prop.
  eapply (spec_bind _ _ _ (fun _ => Have p)).
  - case_eq publication; [intros port Hport|intros _; by apply spec_ret].
    destruct (pl_PublicationID p) as [pid|]; [|apply Have_fail].
    apply Have_pub. intros s HJ. by apply (port_ok port Hport ws s HJ).
  - intros _. apply Have_silent_bind; [auto with silent|]. intros now.
    eapply spec_bind; [eapply (Have_Update p); [done|]|].
    + intros [_ Hok]. unfold beyond in Hok. rewrite Hs, Hst in Hok. unfold evolves, approval_kept, beyond. simpl.
      rewrite Hs. split_and!; [done|done|done|by rewrite Hok|]. by split.
    + intros q. apply (spec_pure (exists now, _)). intros _. apply Have_weak.
      apply St_silent_bind; [auto with silent|]. intros _. apply silent_St, silent_sent.
Qed.

Lemma St_Retry cx ws id actor : spec St (Retry env caps publication cx ws id actor) (fun _ => St) St.
Proof.
  unfold Retry. apply spec_if; intros _; [|apply St_fail].
  apply St_silent_bind; [auto with silent|]. intros ok. apply spec_if; intros _; [|apply St_fail].
  eapply spec_bind; [apply St_getOwned|]. intros p. apply spec_pure. intros [HI HW].
  apply spec_if; intros Hf; [|apply Have_fail]. apply spec_if; intros Hc; [|apply Have_fail]. bool_prop.
  intros w0 Hw0. assert (row_ok p) as Hok by (by destruct Hw0 as (_ & ? & _)). revert w0 Hw0.
  apply (spec_bind (Have p) _ _ (fun _ => Have p) _ St).
  - apply silent_Have. auto with silent.
  - intros now. eapply spec_bind; [eapply (Have_Update p); [done|]|].
    + intros _. by eapply evolves_resumed.
    + intros q. apply spec_pure. intros [now' Eq].
      case_eq (NextStage (pl_Stage q)); [intros next En|intros e _; apply Have_fail].
      match goal with |- spec _ (act_bind (act_lift (Ok next)) ?f) _ _ => change (spec (Have q) (f next) (fun _ => St) St) end.
      eapply spec_weaken; [apply Have_doAdvance; by eapply resumed_ready|done| |done]. intros r w [_ Hw]. by eapply Have_St.
Qed.

Lemma St_replay cx ws p : spec St (replay caps cx ws p) (fun _ => St) St.
Proof.
  apply silent_St. unfold replay. apply silent_if; [apply silent_sent|apply silent_ret].
Qed.

Lemma St_lookup {B} (op : PipeDB -> res err Pipeline) (f : res err Pipeline -> act (World S) err B) R :
  (forall r, spec St (f r) R St) -> spec St (act_bind (act_try (read env op)) f) R St.
Proof.
  intros Hf. eapply (St_bind _ _ _ (fun _ => St)); [|done].
  eapply spec_weaken; [eapply spec_try, St_read|done| |done]. by intros [].
Qed.

Lemma St_create_fresh cx ws g trace key : spec St (create_fresh env caps cx ws g trace key) (fun _ => St) St.
Proof.
  unfold create_fresh. apply St_silent_bind; [auto with silent|]. intros now.
  apply St_silent_bind; [auto with silent|]. intros fresh.
  case_eq (NewWithIdempotency ws g trace key fresh now); [intros p Hp|intros e _; apply St_fail].
  unfold NewWithIdempotency in Hp. apply guard_Ok in Hp as [_ Hp]. apply guard_Ok in Hp as [_ [= <-]].
  match goal with |- spec _ (act_bind (act_lift (Ok ?p0)) ?f) _ _ => change (spec St (f p0) (fun _ => St) St) end.
  eapply (St_bind _ _ _ (fun _ => St)).
  - eapply spec_weaken; [eapply spec_try, St_Create|done| |done]; [done..|]. by intros [].
  - intros [q|e].
    + apply St_silent_bind; [auto with silent|]. intros _. apply silent_St, silent_sent.
    + apply spec_if; intros _; [|apply St_fail]. apply St_lookup. intros [q|?]; [apply St_replay|apply St_fail].
Qed.

Lemma St_CreateWithIdempotency cx ws g trace key :
  spec St (CreateWithIdempotency env caps cx ws g trace key) (fun _ => St) St.
Proof.
  unfold CreateWithIdempotency. apply spec_if; intros _; [|apply St_fail].
  apply spec_if; intros _; [|apply St_fail].
  apply spec_if; intros _; [|apply St_create_fresh].
  apply St_lookup. intros [q|e]; [apply St_replay|]. destruct e; try apply St_fail. apply St_create_fresh.
Qed.

Lemma St_handle r : spec St (handle r) (fun _ => St) St.
Proof.
  assert (forall A (m : act (World S) err A), spec St m (fun _ => St) St -> spec St (m ;;! act_ret tt) (fun _ => St) St) as Hk.
  { intros A m Hm. eapply St_bind; [exact Hm|]. intros a. by apply spec_ret. }
  destruct r; apply Hk.
  - apply St_CreateWithIdempotency.
  - eapply spec_weaken; [apply St_getOwned|done| |done]. intros p w [_ Hp]. by eapply Have_St.
  - apply St_read.
  - apply St_Approve.
  - apply St_Retry.
  - eapply spec_weaken; [apply St_Advance|done| |done]. intros r w [_ Hw]. by eapply Have_St.
  - eapply spec_weaken; [apply St_AdvanceFromEvent|done| |done]. intros r w [_ Hw]. by eapply Have_St.
Qed.

Lemma St_serve rs w : St w -> St (serve rs w).
Proof.
  revert w. induction rs as [|r rs IH]; intros w Hw; [done|]. apply IH.
  pose proof (St_handle r w Hw) as Hr. destruct (handle r w) as [[[]|e] w']; exact Hr.
Qed.
End gate.

(** C7. The human gate holds under arbitrary interleaving: whatever requests and
    events are served, whatever other processes that respect the same rules
    commit between any two store calls, and whatever the store, the stage
    ports, the publication port and the event sink fail on, a pipeline has
    passed the review stage exactly when a named approver and an instant are on
    record; a row only changes together with its version, never moves back to
    an earlier stage, and an approval once given is never altered or erased;
    and the publication port is only asked to approve or publish in somebody's
    name. *)
Theorem approval_gate `{UuidText} {S : Type} env caps (publication : option (PublicationPort S)) (J : S -> Prop) rs w :
  (forall n db, gate db -> gate (tt_others (env n) db) /\ grows db (tt_others (env n) db)) ->
  (forall port, publication = Some port -> forall ws s, J s ->
    (forall p, J (port_Prepare port ws p s).2) /\
    (forall pid actor, actor <> ""%string ->
       J (port_Approve port ws pid actor s).2 /\ J (port_Publish port ws pid actor s).2)) ->
  gate (w_db w) -> J (w_pub w) ->
  let w' := serve env caps publication rs w in
  gate (w_db w') /\ grows (w_db w) (w_db w') /\ J (w_pub w').
Proof.
  intros Hrely Hport Hg HJ. apply (St_serve env caps publication J Hport Hrely (w_db w) rs w).
  split; [done|]. split; [reflexivity|done].
Qed.
