(* ===== verification/PipelineFlow.v ===== *)
(** * Functional behaviour of the orchestration service

    In a calm environment, where no other request commits and no store call
    fails: a redelivered event changes nothing, and a pipeline whose ports work
    runs from its creation to its publication. *)

From S2P Require Import Prelude GoLib Throttle Pipeline PipelineService PipelineProps.

(** ** The throttle admits the first calls of a window *)

Definition spent (key : string) (k : Z) (t : Throttler) : Prop :=
  th_limit t = 10%Z /\ forall b, th_buckets t !! key = Some b -> (0 <= b_count b <= k)%Z.

Lemma current_bucket_spent key k now t : spent key k t -> (0 <= k)%Z -> (0 <= b_count (current_bucket key now t) <= k)%Z.
Proof.
  intros [_ Hb] Hk. unfold current_bucket. destruct (th_buckets t !! key) as [b|] eqn:Eb; [|simpl; lia].
  case_bool_decide; [by apply Hb|simpl; lia].
Qed.

Lemma Allow_spent key k now t : spent key k t -> (0 <= k < 10)%Z ->
  (Allow key now t).1 = true /\ spent key (k + 1) (Allow key now t).2.
Proof.
  intros Hs Hk. pose proof (current_bucket_spent key k now t Hs ltac:(lia)) as Hc. destruct Hs as [Hl Hb].
  unfold Allow. rewrite Hl. destruct (Z.leb_spec 10 (b_count (current_bucket key now t))); [lia|].
  split; [done|]. cbn [snd].
  assert (spent key (k + 1) (with_buckets (<[key := mkBucket (b_count (current_bucket key now t) + 1)
    (b_opened (current_bucket key now t))]> (th_buckets t)) t)) as Hs'.
  { split; [done|]. simpl. intros b. rewrite lookup_insert_eq. intros [= <-]. simpl. lia. }
  destruct (prune_due _ _); [|exact Hs']. destruct Hs' as [Hl' Hb']. split; [done|].
  intros b Hbk. apply Hb'. unfold pruneLocked in Hbk. simpl in Hbk. by apply map_lookup_filter_Some in Hbk as [? _].
Qed.

Lemma spent_fresh key : spent key 0 service_throttle.
Proof. split; [done|]. intros b Hb. done. Qed.

(** ** Calm runs *)

Section calm.
Context `{UuidText} {S : Type}.
Variable env : nat -> TxTick PipeDB.
Variable caps : Capabilities.
Hypothesis calm : forall n, tt_fault (env n) = NoFault /\ forall db, tt_others (env n) db = db.

Lemma pipe_tx_calm {A} (op : time -> PipeDB -> res err (A * PipeDB)) (w : World S) :
  tx env op w = match op (tt_now (env (w_at w))) (w_db w) with
                | Ok (a, db) => (Ok a, with_db db (tick w))
                | Err e => (Err e, tick w)
                end.
Proof.
  unfold tx, run_tx. destruct (calm (w_at w)) as [-> ->]. destruct (op _ _) as [[a db]|e]; [done|].
  by destruct w.
Qed.

Lemma read_calm {A} (op : PipeDB -> res err A) (w : World S) : read env op w = (op (w_db w), tick w).
Proof. unfold read. rewrite pipe_tx_calm. destruct (op (w_db w)); simpl; [|done]. by destruct w. Qed.

Lemma pipe_getOwned_calm ws id (w : World S) p :
  ws <> uuid_Nil -> id <> uuid_Nil -> pd_rows (w_db w) !! id = Some p -> pl_WorkspaceID p = ws ->
  getOwned env ws id w = (Ok p, tick w).
Proof.
  intros Hw Hi Hp HW. unfold getOwned. rewrite (proj2 (N.eqb_neq _ _) Hw), (proj2 (N.eqb_neq _ _) Hi). simpl.
  erewrite act_bind_run.
  - by rewrite (proj2 (N.eqb_eq _ _) HW).
  - rewrite read_calm. unfold db_Get, find_row. by rewrite Hp, (proj2 (N.eqb_eq _ _) HW).
Qed.

Variable publication : option (PublicationPort S).

Lemma Advance_elsewhere cx ws id from to (w : World S) p :
  ws <> uuid_Nil -> id <> uuid_Nil -> pd_rows (w_db w) !! id = Some p -> pl_WorkspaceID p = ws -> pl_Stage p <> from ->
  exists w', w_db w' = w_db w /\ w_pub w' = w_pub w /\ w_events w' = w_events w /\
    (Advance env caps publication cx ws id from to w = (Err ErrRateLimited, w') \/
     Advance env caps publication cx ws id from to w = (Err ErrConsecutiveAdvance, w')).
Proof.
  intros Hw Hi Hp HW Hs. unfold Advance. rewrite (proj2 (N.eqb_neq _ _) Hw). cbn [negb].
  destruct (Allow (uuid_String ws) (tt_now (env (w_at w))) (w_throttle w)) as [ok t] eqn:Ha.
  set (w1 := mkWorld (w_db w) (w_at w + 1) t (w_pub w) (w_audit w) (w_events w)).
  assert (throttle_Allow env (uuid_String ws) w = (Ok ok, w1)) as Ht by (unfold throttle_Allow; by rewrite Ha).
  erewrite act_bind_run by exact Ht. destruct ok; [|exists w1; split_and!; [done..|by left]].
  erewrite act_bind_run by (by apply (pipe_getOwned_calm ws id w1 p)). rewrite bool_decide_eq_false_2 by done.
  exists (tick w1). split_and!; [done..|by right].
Qed.

(** Redelivery is harmless: an event for a stage its pipeline has already
    left, and which has not failed, changes no row and calls no port.  At most
    the message of the pipeline's current stage is published again, so a
    message lost after its state change is recovered; otherwise the delivery is
    refused as rate limited and comes back. *)
Theorem redelivery_harmless cx ws id stage trace span (w : World S) p :
  ws <> uuid_Nil -> id <> uuid_Nil -> pd_rows (w_db w) !! id = Some p -> pl_WorkspaceID p = ws -> pl_ID p = id ->
  ValidStage stage = true -> IsAfter (pl_Stage p) stage = true -> pl_Status p <> StatusFailed -> trace <> "" ->
  exists r w', AdvanceFromEvent env caps publication cx ws id stage trace span w = (r, w') /\
    w_db w' = w_db w /\ w_pub w' = w_pub w /\
    ((r = Err ErrRateLimited /\ w_events w' = w_events w) \/
     (r = Ok (p, None) /\
      w_events w' = mkEvent (current_event p) id ws (stage_text (pl_Stage p)) trace span :: w_events w) \/
     (exists e, r = Ok (p, Some e) /\ w_events w' = w_events w)).
Proof.
  intros Hw Hi Hp HW HI Hv Ha Hf Ht. unfold AdvanceFromEvent.
  assert (exists next, NextStage stage = Ok next) as [next Hn].
  { destruct stage; simpl in Hv; try done; try (by eexists). by destruct (pl_Stage p). }
  erewrite act_bind_run by (by rewrite Hn).
  assert (pl_Stage p <> stage) as Hs by (intros Es; unfold IsAfter in Ha; rewrite Es in Ha; bool_prop; lia).
  destruct (String.eqb_spec trace ""); [done|]. cbn [negb].
  destruct (Advance_elsewhere (WithTrace cx trace span) ws id stage next w p Hw Hi Hp HW Hs)
    as (w1 & E1 & E2 & E3 & [HA|HA]); (erewrite act_bind_run by (eapply act_try_run, HA)); cbn [result_error].
  - eexists _, w1. split; [done|]. split; [done|]. split; [done|]. by left.
  - change (errors_Is ErrConsecutiveAdvance ErrConsecutiveAdvance) with true. cbv iota.
    erewrite act_bind_run by (eapply act_try_run, (pipe_getOwned_calm ws id w1 p); [done|done|by rewrite E1|done]).
    cbv beta iota. rewrite bool_decide_eq_false_2, Ha by done. cbn [negb andb]. unfold RepublishCurrentEvent, publishCurrentEvent, PublishPipeline.
    unfold act_bind, act_try. simpl. rewrite HW, HI, E3.
    destruct (cap_Event _ _ _) as [[]|e]; simpl.
    + eexists _, _. split; [done|]. simpl. split; [done|]. split; [done|]. right. by left.
    + eexists _, _. split; [done|]. simpl. split; [done|]. split; [done|]. right. right. by eexists.
Qed.
End calm.

(** ** From creation to publication *)

Section flow.
Context `{UuidText} {S : Type}.
Variable env : nat -> TxTick PipeDB.
Variable caps : Capabilities.
Variable P : PublicationPort S.
Hypothesis calm : forall n, tt_fault (env n) = NoFault /\ forall db, tt_others (env n) db = db.

(** Ports that work, and publications the database knows. *)
Variable pubs : gset uuid.
Hypothesis works_Research : forall n ws p, exists r, cap_Research caps n ws p = Ok r /\ text_ok (boundReference r) = true.
Hypothesis works_WriteScript : forall n ws p ref, exists r, cap_WriteScript caps n ws p ref = Ok r /\
  text_ok (boundReference r) = true.
Hypothesis works_Review : forall n ws p, cap_Review caps n ws p = Ok true.
Hypothesis works_Event : forall n e, cap_Event caps n e = Ok tt.
Hypothesis works_Prepare : forall ws p s, exists pid s', port_Prepare P ws p s = (Ok pid, s') /\ pid ∈ pubs.
Hypothesis works_Approve : forall ws pid a s, exists s', port_Approve P ws pid a s = (Ok tt, s').
Hypothesis works_Publish : forall ws pid a s, exists ref s', port_Publish P ws pid a s = (Ok ref, s') /\ text_ok ref = true.

Abbreviation W := (World S).

(** What the database asks of a row besides its state. *)
Definition good (db : PipeDB) (p : Pipeline) : Prop :=
  texts_ok p = true /\ int4 (pl_RetryCount p) = true /\ (0 <=? pl_RetryCount p)%Z = true /\
  keys_ok p (pd_rows db) = true /\ references_ok db p = true /\ (1 <= pl_Version p)%Z.

Lemma keys_ok_identity p q db : same_identity p q -> keys_ok q (pd_rows db) = keys_ok p (pd_rows db).
Proof.
  intros (HI & HW & _ & _ & HK). unfold keys_ok. apply bool_decide_ext. unfold map_Forall, same_key.
  by rewrite HI, HW, HK.
Qed.

Lemma pipe_update_calm p q ws (w : W) :
  ws = pl_WorkspaceID p -> pd_rows (w_db w) !! pl_ID p = Some p -> good (w_db w) p ->
  same_identity p q -> pl_Version q = pl_Version p -> texts_ok q = true ->
  pl_RetryCount q = pl_RetryCount p -> references_ok (w_db w) q = true ->
  stage_status_valid (pl_Stage q) (pl_Status q) = true ->
  exists q' w', tx env (db_Update ws q) w = (Ok q', w') /\
    (exists now, q' = set_pl_Version (pl_Version p + 1) (set_pl_UpdatedAt now q)) /\
    w' = with_db (with_rows (<[pl_ID p := q']> (pd_rows (w_db w))) (w_db w)) (tick w) /\ good (w_db w') q'.
Proof.
  intros -> Hr (Ht & Hi & H0 & Hk & Hf & Hv) Hid HV Htq Hrc Hfq Hs. destruct Hid as (HI & HW & HG & HC & HK).
  set (now := tt_now (env (w_at w))).
  set (q' := set_pl_Version (pl_Version p + 1) (set_pl_UpdatedAt now q)).
  assert (updated_row (set_pl_UpdatedAt now q) p = q') as Eu.
  { unfold updated_row, q', set_pl_Version, set_pl_UpdatedAt. simpl. by rewrite HI, HW, HG, HC. }
  assert (same_identity p q') as Hid' by done.
  exists q', (with_db (with_rows (<[pl_ID p := q']> (pd_rows (w_db w))) (w_db w)) (tick w)).
  split; [|split; [by exists now|split; [done|]]].
  - rewrite (pipe_tx_calm env calm). fold now. unfold db_Update. cbv zeta.
    change (texts_ok (set_pl_UpdatedAt now q)) with (texts_ok q). rewrite Htq.
    change (pl_RetryCount (set_pl_UpdatedAt now q)) with (pl_RetryCount q). rewrite Hrc, Hi.
    change (pl_ID (set_pl_UpdatedAt now q)) with (pl_ID q). rewrite HI. unfold find_row.
    rewrite Hr, (N.eqb_refl (pl_WorkspaceID p)), HV, Z.max_r, Z.eqb_refl, Eu by lia. unfold row_check.
    change (pl_Stage q') with (pl_Stage q). change (pl_Status q') with (pl_Status q). rewrite Hs.
    change (pl_RetryCount q') with (pl_RetryCount q). rewrite Hrc, H0.
    rewrite (keys_ok_identity p q' _ Hid'), Hk. change (references_ok (w_db w) q') with (references_ok (w_db w) q).
    by rewrite Hfq.
  - assert (pl_RetryCount q' = pl_RetryCount p) as Hrc' by exact Hrc. unfold good. rewrite Hrc'.
    split_and!; [done|done|done| |done|simpl; lia].
    rewrite (keys_ok_identity p q' _ Hid'). apply bool_decide_eq_true_2. apply bool_decide_eq_true_1 in Hk.
    apply map_Forall_insert_2; [by left|]. done.
Qed.

(** *** The work of a stage *)

Definition worked (p p2 : Pipeline) (db : PipeDB) (to : Stage) : Prop :=
  drafted p p2 /\ pl_RetryCount p2 = pl_RetryCount p /\ texts_ok p2 = true /\ references_ok db p2 = true /\
  (to = StageReview -> is_Some (pl_PublicationID p2)) /\
  (to <> StageReview -> pl_PublicationID p2 = pl_PublicationID p).

Definition untouched (w w' : W) : Prop :=
  w_db w' = w_db w /\ w_throttle w' = w_throttle w /\ w_events w' = w_events w.

Lemma untouched_trans w1 w2 w3 : untouched w1 w2 -> untouched w2 w3 -> untouched w1 w3.
Proof. intros (? & ? & ?) (? & ? & ?). split_and!; congruence. Qed.

Lemma port_run {A} (call : nat -> res err A) a (w : W) : call (w_at w) = Ok a ->
  act_try (port call) w = (Ok (Ok a), tick w).
Proof. intros Hc. unfold act_try, port. by rewrite Hc. Qed.

Ltac texts :=
  unfold texts_ok in *; bool_prop; simpl in *;
  repeat match goal with E : text_ok ?x = true |- context [text_ok ?x] => rewrite E end; simpl; try done.

Lemma stageWork_runs p to (w : W) : ready p to -> texts_ok p = true ->
  exists p1 ref w1, stageWork caps (Some P) p to w = (Ok (p1, Ok ref), w1) /\ untouched w w1 /\ drafted p p1 /\
    pl_RetryCount p1 = pl_RetryCount p /\ texts_ok p1 = true /\
    pl_PublicationID p1 = pl_PublicationID p /\ pl_TaskID p1 = pl_TaskID p.
Proof.
  intros Hr Ht. unfold stageWork.
  destruct (ready_cases p to Hr) as [[E ->]|[[E ->]|[(E & E' & ->)|[E ->]]]].
  - destruct (works_Research (w_at w) (pl_WorkspaceID p) p) as (rr & E1 & T1).
    erewrite act_bind_run by (apply port_run, E1). cbv beta iota zeta.
    set (p1 := set_pl_ResearchReference (boundReference rr) p).
    destruct (works_WriteScript (w_at (tick w)) (pl_WorkspaceID p) p1 (pl_ResearchReference p1)) as (sr & E2 & T2).
    erewrite act_bind_run by (apply port_run, E2). cbv beta iota zeta.
    eexists _, _, _. split; [reflexivity|]. split; [done|]. split_and!; try done. subst p1. texts.
  - erewrite act_bind_run by (apply port_run, works_Review). cbv beta iota zeta.
    eexists _, _, _. split; [reflexivity|]. split; [done|]. split_and!; try done. texts.
  - eexists _, _, _. split; [reflexivity|]. done.
  - eexists _, _, _. split; [reflexivity|]. done.
Qed.

Lemma publicationWork_runs p p1 to (w : W) :
  ready p to -> row_ok p -> drafted p p1 -> texts_ok p1 = true -> references_ok (w_db w) p1 = true ->
  pd_publications (w_db w) = pubs -> (to = StagePublish -> is_Some (pl_PublicationID p1)) ->
  exists p2 w2, publicationWork env (Some P) p1 to w = (Ok p2, w2) /\ untouched w w2 /\ drafted p p2 /\
    pl_RetryCount p2 = pl_RetryCount p1 /\ texts_ok p2 = true /\ references_ok (w_db w) p2 = true /\
    (to = StageReview -> is_Some (pl_PublicationID p2)) /\
    (to <> StageReview -> pl_PublicationID p2 = pl_PublicationID p1).
Proof.
  intros Hr Hok Hd Ht Hf Hpubs Hpid. unfold publicationWork.
  destruct (ready_cases p to Hr) as [[E ->]|[[E ->]|[(E & E' & ->)|[E ->]]]];
    cbv beta iota; repeat (rewrite bool_decide_eq_false_2 by done; cbv beta iota).
  - eexists _, _. split; [reflexivity|]. by split_and!.
  - rewrite bool_decide_eq_true_2 by done. cbv beta iota.
    destruct (works_Prepare (pl_WorkspaceID p1) p1 (w_pub w)) as (pid & s' & Ep & Hin).
    erewrite act_bind_run by (eapply act_try_run; unfold pub; rewrite Ep; reflexivity). cbv beta iota.
    eexists _, _. split; [reflexivity|]. split; [done|]. split_and!; try done.
    unfold references_ok in *. bool_prop. simpl. rewrite Hpubs, (bool_decide_eq_true_2 _ Hin).
    by destruct (pl_TaskID p1); rewrite ?andb_true_r.
  - rewrite bool_decide_eq_true_2 by done. cbv beta iota. destruct (Hpid eq_refl) as [pid Epid]. rewrite Epid.
    destruct Hok as [_ Hok]. unfold beyond in Hok. rewrite E, E' in Hok. destruct Hok as [Ha1 Ha2].
    assert (Approved p1 = true) as ->.
    { destruct Hd as (_ & _ & _ & HS & HB & HA). unfold Approved. rewrite HS, HB, HA, E'.
      rewrite !bool_decide_eq_true_2 by done. by destruct (String.eqb_spec (pl_ApprovedBy p) ""). }
    destruct (works_Publish (pl_WorkspaceID p1) pid (pl_ApprovedBy p1) (w_pub w)) as (ref & s' & Ep & Htr).
    erewrite act_bind_run by (eapply act_try_run; unfold pub; rewrite Ep; reflexivity). cbv beta iota.
    eexists _, _. split; [reflexivity|]. split; [done|]. split_and!; try done. texts.
  - eexists _, _. split; [reflexivity|]. by split_and!.
Qed.

(** *** One step *)

Definition stepped (p q : Pipeline) (to : Stage) : Prop :=
  same_identity p q /\ pl_Stage q = to /\ pl_Status q = status_after to p /\
  pl_Version q = (pl_Version p + 1)%Z /\ pl_ApprovedBy q = pl_ApprovedBy p /\ pl_ApprovedAt q = pl_ApprovedAt p /\
  (to = StageReview -> is_Some (pl_PublicationID q)) /\
  (to <> StageReview -> pl_PublicationID q = pl_PublicationID p).

Lemma sent_runs (e : Event) q (w : W) :
  exists w', (r <~ act_try (PublishPipeline caps e) ;;
              match r with Err er => act_ret (q, Some er) | Ok _ => act_ret (q, None) end : act W err (Pipeline * option err)) w
             = (Ok (q, None), w') /\
  w_db w' = w_db w /\ w_throttle w' = w_throttle w /\ w_events w' = e :: w_events w.
Proof.
  unfold act_bind, act_try, PublishPipeline. simpl. rewrite works_Event. simpl. by eexists.
Qed.

Lemma doAdvance_runs cx p to at_ a (w : W) :
  pd_rows (w_db w) !! pl_ID p = Some p -> row_ok p -> good (w_db w) p -> ready p to ->
  pd_publications (w_db w) = pubs -> (to = StagePublish -> is_Some (pl_PublicationID p)) ->
  exists q w', doAdvance env caps (Some P) cx p to at_ a w = (Ok (q, None), w') /\ stepped p q to /\
    w_db w' = with_rows (<[pl_ID p := q]> (pd_rows (w_db w))) (w_db w) /\ w_throttle w' = w_throttle w /\
    w_events w' = mkEvent (event_after to) (pl_ID p) (pl_WorkspaceID p) (stage_text to) (cx_trace cx) (cx_span cx)
                  :: w_events w /\
    good (w_db w') q.
Proof.
  intros Hrow Hok Hg Hr Hpubs Hpid. unfold doAdvance. cbv zeta.
  destruct Hg as (Ht & Hi & H0 & Hk & Hf & Hv).
  destruct (stageWork_runs p to w Hr Ht) as (p1 & ref & w1 & R1 & (U1a & U1b & U1c) & D1 & C1 & T1 & I1 & K1).
  erewrite act_bind_run by exact R1. cbv beta iota.
  destruct (publicationWork_runs p p1 to w1 Hr Hok D1 T1) as (p2 & w2 & R2 & (U2a & U2b & U2c) & D2 & C2 & T2 & F2 & I2 & J2).
  { rewrite U1a. unfold references_ok. by rewrite I1, K1. }
  { by rewrite U1a. }
  { rewrite I1. exact Hpid. }
  erewrite act_bind_run by exact R2. erewrite act_bind_run by reflexivity. cbv beta zeta.
  set (now := tt_now (env (w_at w2))).
  set (p3 := set_pl_UpdatedAt now (set_pl_FailureReason "" (set_pl_Status (status_after to p2) (set_pl_Stage to p2)))).
  destruct D2 as (Hid2 & HV2 & HS2 & HT2 & HB2 & HA2).
  assert (texts_ok p3 = true) as T3.
  { subst p3. destruct (ready_cases p to Hr) as [[E ->]|[[E ->]|[(E & E' & ->)|[E ->]]]]; texts. }
  assert (stage_status_valid (pl_Stage p3) (pl_Status p3) = true) as S3.
  { subst p3. simpl. destruct (ready_cases p to Hr) as [[E ->]|[[E ->]|[(E & E' & ->)|[E ->]]]]; done. }
  assert (status_after to p2 = status_after to p) as S4.
  { destruct (ready_cases p to Hr) as [[E ->]|[[E ->]|[(E & E' & ->)|[E ->]]]]; done. }
  destruct (pipe_update_calm p p3 (pl_WorkspaceID p) (tick w2)) as (q & w3 & R3 & [now' Eq] & E3 & G3); try done.
  { simpl. by rewrite U2a, U1a. }
  { simpl. rewrite U2a, U1a. by split_and!. }
  { simpl. congruence. }
  { simpl. rewrite U2a. exact F2. }
  erewrite act_bind_run by exact R3. erewrite act_bind_run by reflexivity.
  match goal with |- exists q' w', (act_bind (act_try (PublishPipeline caps ?e)) _) ?w' = _ /\ _ =>
    destruct (sent_runs e q w') as (w4 & R4 & E4a & E4b & E4c) end.
  exists q, w4. split; [exact R4|]. destruct Hid2 as (Z1 & Z2 & Z3 & Z4 & Z5).
  assert (stepped p q to) as Hst.
  { rewrite Eq. split_and!; try done. intros Hne. simpl. by rewrite J2, I1. }
  split; [exact Hst|]. rewrite E4a, E4b, E4c, E3. simpl. rewrite U2a, U2b, U2c, U1a, U1b, U1c.
  split_and!; try done. { by rewrite Z1. }
  rewrite E3 in G3. simpl in G3. rewrite U2a, U1a in G3. exact G3.
Qed.

(** *** Served requests *)

(** Pipeline [p] of workspace [ws] is where the database has it, with at most
    [k] of the workspace's advances spent. *)
Definition here (ws id : uuid) (k : Z) (p : Pipeline) (w : W) : Prop :=
  pd_rows (w_db w) !! id = Some p /\ pl_ID p = id /\ pl_WorkspaceID p = ws /\ row_ok p /\ good (w_db w) p /\
  pd_publications (w_db w) = pubs /\ spent (uuid_String ws) k (w_throttle w).

Lemma stepped_ok p q to : row_ok p -> ready p to -> stepped p q to -> row_ok q.
Proof.
  intros Hok Hr (_ & HS & HT & _ & HB & HA & _). pose proof (ready_gate p to Hok Hr) as Hg.
  unfold row_ok, beyond, approval_on_record. rewrite HS, HT, HB, HA.
  destruct (ready_cases p to Hr) as [[E ->]|[[E ->]|[(E & E' & ->)|[E ->]]]]; done.
Qed.

Variables ws id : uuid.
Hypothesis ws_set : ws <> uuid_Nil.
Hypothesis id_set : id <> uuid_Nil.

Lemma event_step cx trace span k p next (w : W) :
  here ws id k p w -> (0 <= k < 10)%Z -> NextStage (pl_Stage p) = Ok next -> ready p next ->
  (next = StagePublish -> is_Some (pl_PublicationID p)) ->
  exists q, here ws id (k + 1) q (handle env caps (Some P) (ReqEvent cx ws id (pl_Stage p) trace span) w).2 /\
    stepped p q next.
Proof.
  intros (Hrow & HI & HW & Hok & Hg & Hpubs & Hsp) Hk Hn Hr Hpid. unfold handle, AdvanceFromEvent. cbv zeta.
  set (cx' := if negb (String.eqb trace "") then _ else cx).
  destruct (Allow_spent _ k (tt_now (env (w_at w))) _ Hsp Hk) as [Ha Hsp'].
  destruct (Allow (uuid_String ws) (tt_now (env (w_at w))) (w_throttle w)) as [ok th] eqn:Hal. simpl in Ha, Hsp'. subst ok.
  set (w1 := mkWorld (w_db w) (w_at w + 1) th (w_pub w) (w_audit w) (w_events w)).
  destruct (doAdvance_runs cx' p next "system" "" (tick w1)) as (q & w2 & R & Hst & Hdb & Hth & _ & Hg2);
    try done; [by rewrite HI|].
  assert (Advance env caps (Some P) cx' ws id (pl_Stage p) next w = (Ok (q, None), w2)) as HA.
  { unfold Advance. rewrite (proj2 (N.eqb_neq _ _) ws_set). cbn [negb].
    erewrite act_bind_run by (unfold throttle_Allow; rewrite Hal; reflexivity). cbv iota.
    erewrite act_bind_run by (by apply (pipe_getOwned_calm env calm ws id _ p)).
    rewrite bool_decide_eq_true_2 by done. unfold ready in Hr. rewrite Hr. exact R. }
  erewrite act_bind_run.
  2:{ erewrite act_bind_run by (by rewrite Hn). erewrite act_bind_run by (eapply act_try_run, HA). reflexivity. }
  simpl. exists q. split; [|exact Hst]. pose proof Hst as ((Z1 & Z2 & _) & _). unfold here. rewrite Hdb, Hth.
  simpl. rewrite HI, lookup_insert_eq. split_and!; try done; try congruence.
  - by eapply stepped_ok.
  - rewrite Hdb in Hg2. by rewrite HI in Hg2.
Qed.

Lemma approve_step cx k p actor (w : W) :
  here ws id k p w -> pl_Stage p = StageReview -> pl_Status p = StatusAwaitingApproval -> is_Some (pl_PublicationID p) ->
  TrimSpace actor <> "" -> text_ok (TrimSpace actor) = true ->
  exists q, here ws id k q (handle env caps (Some P) (ReqApprove cx ws id actor) w).2 /\
    same_identity p q /\ pl_Stage q = StageReview /\ pl_Status q = StatusApproved /\
    pl_Version q = (pl_Version p + 1)%Z /\ pl_ApprovedBy q = TrimSpace actor /\
    pl_PublicationID q = pl_PublicationID p.
Proof.
  intros (Hrow & HI & HW & Hok & Hg & Hpubs & Hsp) Es Et [pid Epid] Hna Hta. unfold handle, Approve. cbv zeta.
  destruct (String.eqb_spec (TrimSpace actor) ""); [done|]. cbn [negb].
  destruct (works_Approve ws pid (TrimSpace actor) (w_pub (tick w))) as [s' Ep].
  set (w1 := mkWorld (w_db w) (w_at w + 1) (w_throttle w) s' (w_audit w) (w_events w)).
  set (now := tt_now (env (w_at w1))).
  set (p1 := set_pl_UpdatedAt now (set_pl_FailureReason "" (set_pl_ApprovedAt (Some now)
               (set_pl_ApprovedBy (TrimSpace actor) (set_pl_Status StatusApproved p))))).
  pose proof Hg as (Ht & _ & _ & _ & Hf & _).
  assert (texts_ok p1 = true) as Ht1 by (subst p1; texts).
  destruct (pipe_update_calm p p1 ws (tick w1)) as (q & w2 & R & [now' Eq] & Ew & Hg2); try done.
  { by rewrite HI. }
  { simpl. by rewrite Es. }
  destruct (sent_runs (mkEvent "pipeline.review_approved" id ws (stage_text StageReview) (cx_trace cx) (cx_span cx)) q
    (mkWorld (w_db w2) (w_at w2) (w_throttle w2) (w_pub w2)
       (record "pipeline.approve" "Human Oversight" "success" ws id "human" (TrimSpace actor) cx StageReview :: w_audit w2)
       (w_events w2))) as (w3 & R3 & D3 & T3 & _).
  assert (Approve env caps (Some P) cx ws id actor w = (Ok (q, None), w3)) as HA.
  { unfold Approve. cbv zeta. destruct (String.eqb_spec (TrimSpace actor) ""); [done|]. cbn [negb].
    erewrite act_bind_run by (by apply (pipe_getOwned_calm env calm ws id _ p)).
    rewrite bool_decide_eq_true_2 by done. rewrite bool_decide_eq_false_2 by congruence. cbn [andb]. cbv iota.
    rewrite bool_decide_eq_true_2 by done. rewrite Epid.
    erewrite act_bind_run by (unfold pub; rewrite Ep; reflexivity).
    erewrite act_bind_run by reflexivity. erewrite act_bind_run by exact R.
    erewrite act_bind_run by reflexivity. exact R3. }
  unfold Approve in HA. cbv zeta in HA.
  destruct (String.eqb_spec (TrimSpace actor) "") as [?|_] in HA; [done|]. cbn [negb] in HA.
  erewrite act_bind_run by exact HA. simpl. exists q. unfold here. rewrite D3, T3. simpl. rewrite Ew in *. simpl in *.
  rewrite HI, lookup_insert_eq in *.
  assert (row_ok q) as Hq.
  { rewrite Eq. unfold row_ok, beyond, approval_on_record. simpl. rewrite Es. by split_and!. }
  split_and!; try done; by rewrite Eq.
Qed.

(** C39. A pipeline runs to its end: in a calm environment with working ports and
    a fresh advance budget, the events research and script, a human approval
    and the events review and publish take a created pipeline to completion,
    one version per step, with the approver on record. *)
Theorem creator_flow_completes cx actor trace span p (w : W) :
  here ws id 0 p w -> pl_Stage p = StageResearch -> pl_Status p = StatusCreated ->
  TrimSpace actor <> "" -> text_ok (TrimSpace actor) = true ->
  exists q, pd_rows (w_db (serve env caps (Some P)
      [ReqEvent cx ws id StageResearch trace span; ReqEvent cx ws id StageScript trace span;
       ReqApprove cx ws id actor; ReqEvent cx ws id StageReview trace span;
       ReqEvent cx ws id StagePublish trace span] w)) !! id = Some q /\
    pl_Stage q = StageComplete /\ pl_Status q = StatusDone /\ pl_ApprovedBy q = TrimSpace actor /\
    is_Some (pl_PublicationID q) /\ pl_Version q = (pl_Version p + 5)%Z.
Proof.
  intros H0 Es Et Hna Hta. unfold serve. cbn [fold_left].
  destruct (event_step cx trace span 0 p StageScript w H0) as (q1 & H1 & S1); rewrite ?Es; try done.
  { unfold ready. by rewrite Es, Et. }
  rewrite Es in H1. destruct S1 as (_ & Es1 & Et1 & V1 & B1 & _).
  destruct (event_step cx trace span _ q1 StageReview _ H1) as (q2 & H2 & S2); rewrite ?Es1; try done.
  { unfold ready. by rewrite Es1, Et1. }
  rewrite Es1 in H2. destruct S2 as (_ & Es2 & Et2 & V2 & B2 & _ & I2 & _).
  destruct (approve_step cx _ q2 actor _ H2 Es2 Et2 (I2 eq_refl) Hna Hta)
    as (q3 & H3 & _ & Es3 & Et3 & V3 & B3 & I3).
  destruct (event_step cx trace span _ q3 StagePublish _ H3) as (q4 & H4 & S4); rewrite ?Es3; try done.
  { unfold ready. by rewrite Es3, Et3. }
  { intros _. rewrite I3. by apply I2. }
  rewrite Es3 in H4. destruct S4 as (_ & Es4 & Et4 & V4 & B4 & _ & _ & I4).
  destruct (event_step cx trace span _ q4 StageComplete _ H4) as (q5 & H5 & S5); rewrite ?Es4; try done.
  { unfold ready. by rewrite Es4, Et4. }
  rewrite Es4 in H5. destruct S5 as (_ & Es5 & Et5 & V5 & B5 & _ & _ & I5).
  exists q5. split; [exact (proj1 H5)|]. split_and!; try done.
  - congruence.
  - rewrite I5, I4, I3 by done. by apply I2.
  - lia.
Qed.
End flow.

(** ** A pipeline of a calm workspace *)

#[local] Hint Extern 0 UuidText => exact unary_uuid : typeclass_instances.

Definition calm_env : nat -> TxTick PipeDB := fun n => mkTxTick (Z.of_nat n) (fun db => db) NoFault.
Definition plain_caps : Capabilities :=
  mkCapabilities (fun _ _ _ => Ok "research"%string) (fun _ _ _ _ => Ok "script"%string) (fun _ _ _ => Ok true)
    (fun _ _ _ _ => Ok "reference"%string) (fun _ _ => Ok tt).
Definition plain_port : PublicationPort unit :=
  mkPort (fun _ _ s => (Ok 1%N, s)) (fun _ _ _ s => (Ok tt, s)) (fun _ _ _ s => (Ok "reference"%string, s)).
Definition flow_cx : Ctx := mkCtx "ada" "trace" "span".
Definition created : Pipeline :=
  mkPipeline 1 7 None StageResearch StatusCreated None None "" "" "" "" "" 0 "key-1" "" None "trace" 0 0 1.
Definition created_world : World unit :=
  mkWorld (mkPipeDB {[1%N := created]} {[7%N]} ∅ {[1%N]} 2) 0 service_throttle tt [] [].
(** The same pipeline once its research event was handled. *)
Definition scripted_world : World unit :=
  Eval vm_compute in
    (handle calm_env plain_caps (Some plain_port) (ReqEvent flow_cx 7 1 StageResearch "trace" "span") created_world).2.
Definition scripted : Pipeline :=
  Eval vm_compute in match pd_rows (w_db scripted_world) !! 1%N with Some p => p | None => created end.

Lemma created_here : here {[1%N]} 7 1 0 created created_world.
Proof.
  split_and!; try reflexivity.
  - split; vm_compute; reflexivity.
  - unfold good. split_and!; try (vm_compute; reflexivity). vm_compute. discriminate.
  - apply spent_fresh.
Qed.

Lemma creator_flow_completes_witness :
  exists q, pd_rows (w_db (serve calm_env plain_caps (Some plain_port)
      [ReqEvent flow_cx 7 1 StageResearch "t" "s"; ReqEvent flow_cx 7 1 StageScript "t" "s";
       ReqApprove flow_cx 7 1 "ada"; ReqEvent flow_cx 7 1 StageReview "t" "s";
       ReqEvent flow_cx 7 1 StagePublish "t" "s"] created_world)) !! 1%N = Some q /\ pl_Stage q = StageComplete.
Proof.
  destruct (creator_flow_completes calm_env plain_caps plain_port (fun n => conj eq_refl (fun db => eq_refl)) {[1%N]})
    with (ws := 7%N) (id := 1%N) (cx := flow_cx) (actor := "ada"%string) (trace := "t"%string) (span := "s"%string)
         (p := created) (w := created_world) as (q & Hq & HS & _).
  - intros n ws p. exists "research"%string. split; reflexivity.
  - intros n ws p ref. exists "script"%string. split; reflexivity.
  - reflexivity.
  - reflexivity.
  - intros ws p s. exists 1%N, s. split; [reflexivity|]. by apply elem_of_singleton.
  - intros ws pid a s. by exists s.
  - intros ws pid a s. exists "reference"%string, s. split; reflexivity.
  - discriminate.
  - discriminate.
  - exact created_here.
  - reflexivity.
  - reflexivity.
  - discriminate.
  - reflexivity.
  - exists q. split; [exact Hq|exact HS].
Defined.

Lemma redelivery_harmless_witness :
  exists r w', AdvanceFromEvent calm_env plain_caps (Some plain_port) flow_cx 7 1 StageResearch "trace" "span" scripted_world
    = (r, w') /\ w_db w' = w_db scripted_world /\ pl_Stage scripted = StageScript.
Proof.
  destruct (redelivery_harmless calm_env plain_caps (fun n => conj eq_refl (fun db => eq_refl)) (Some plain_port)
    flow_cx 7 1 StageResearch "trace" "span" scripted_world scripted) as (r & w' & HR & Hdb & _);
    try reflexivity; try discriminate.
  exists r, w'. split; [exact HR|]. split; [exact Hdb|reflexivity].
Defined.
