(* ===== verification/Composition.v ===== *)
(** * internal/composition/pipeline_publication.go: pipelines over publications

    The adapter that gives the orchestration service its publication port, on
    top of the publishing service, and what the two services guarantee
    together. *)

From S2P Require Import Prelude GoLib Throttle Publish PublishService PublishProps.
From S2P Require Import Pipeline PipelineService PipelineProps.

Section adapter.
Context `{UuidText}.
Variable env : nat -> TxTick Publish.PubDB.
Variable deliver : nat -> Publication -> res Publish.err string.

Abbreviation P := (act PublishService.World Publish.err).

(** The publishing service's errors reach orchestration as they are; it looks
    at none but its own sentinels. *)
Definition foreign {A} (m : P A) : PublishService.World -> res Pipeline.err A * PublishService.World := fun s =>
  match m s with
  | (Ok a, s') => (Ok a, s')
  | (Err e, s') => (Err (ErrPort (Publish.err_Error e)), s')
  end.

(** The orchestration context carries no actor or trace for publishing. *)
Definition background : PublishService.Ctx := PublishService.mkCtx "" "" "".

Definition nl : string := String.String (char_of 10) "".

Definition publication_body (p : Pipeline) : string :=
  "Research reference: " +:+ pl_ResearchReference p +:+ nl +:+ "Script reference: " +:+ pl_ScriptReference p +:+ nl
  +:+ "Review reference: " +:+ pl_ReviewReference p.

Definition adapter_Prepare (ws : uuid) (p : Pipeline) : P uuid :=
  pub <~ PublishService.CreateWithIdempotency env background ws (pl_GoalID p) (pl_TaskID p)
           "Creator pipeline output" (publication_body p) StubPlatform ("pipeline:" +:+ uuid_String (pl_ID p)) ;;
  match p_Status pub with
  | Publish.StatusQueued =>
      pub <~ ToReview env background ws (p_ID pub) ;;
      act_ret (p_ID pub)
  | Publish.StatusReview | Publish.StatusApproved | Publish.StatusPublished => act_ret (p_ID pub)
  | s => act_fail (ErrDelivery ("pipeline publication is not reviewable: " +:+ PublishService.status_text s))
  end.

Definition adapter_Approve (ws publicationID : uuid) (actorID : string) : P unit :=
  pub <~ PublishService.Get env ws publicationID ;;
  if bool_decide (p_Status pub = Publish.StatusApproved) || bool_decide (p_Status pub = Publish.StatusPublished)
  then act_ret tt
  else PublishService.Approve env background ws publicationID actorID ;;! act_ret tt.

Definition adapter_Publish (ws publicationID : uuid) (actorID : string) : P string :=
  pub <~ PublishService.Get env ws publicationID ;;
  if bool_decide (p_Status pub = Publish.StatusPublished) then act_ret (p_ExternalReference pub)
  else
    r <~ (if bool_decide (p_Status pub = Publish.StatusFailed)
          then PublishService.Retry env deliver background ws publicationID actorID
          else PublishService.Publish env deliver background ws publicationID actorID) ;;
    match r with
    | (_, Some e) => act_fail e
    | (pub, None) => act_ret (p_ExternalReference pub)
    end.

Definition pipelinePublicationAdapter : PublicationPort PublishService.World :=
  mkPort (fun ws p => foreign (adapter_Prepare ws p))
         (fun ws id actor => foreign (adapter_Approve ws id actor))
         (fun ws id actor => foreign (adapter_Publish ws id actor)).

(** ** The adapter keeps publishing's oversight *)

Hypothesis rely : forall n db, oversight db -> oversight (tt_others (env n) db).

Lemma foreign_keeps {A} (m : P A) Q :
  spec Inv m (fun a w => Q a /\ Inv w) Inv -> forall s, Inv s -> Inv (foreign m s).2.
Proof.
  intros Hm s Hs. specialize (Hm s Hs). unfold foreign. destruct (m s) as [[a|e] s']; [by destruct Hm|done].
Qed.

Lemma keeps_adapter_Prepare ws p : spec Inv (adapter_Prepare ws p) (fun _ w => True /\ Inv w) Inv.
Proof.
  unfold adapter_Prepare. eapply pub_keeps_bind; [by apply pub_keeps_CreateWithIdempotency|]. intros pub _.
  destruct (p_Status pub); try (by apply pub_keeps_ret); try (by apply pub_keeps_fail).
  eapply pub_keeps_bind; [by apply pub_keeps_transition|]. intros q _. by apply pub_keeps_ret.
Qed.

Lemma keeps_adapter_Approve ws id actor : spec Inv (adapter_Approve ws id actor) (fun _ w => True /\ Inv w) Inv.
Proof.
  unfold adapter_Approve. eapply pub_keeps_bind; [by apply pub_keeps_getOwned|]. intros pub _.
  apply spec_if; intros _; [by apply pub_keeps_ret|].
  eapply pub_keeps_bind; [by apply pub_keeps_Approve|]. intros q _. by apply pub_keeps_ret.
Qed.

Lemma keeps_adapter_Publish ws id actor : spec Inv (adapter_Publish ws id actor) (fun _ w => True /\ Inv w) Inv.
Proof.
  unfold adapter_Publish. eapply pub_keeps_bind; [by apply pub_keeps_getOwned|]. intros pub _.
  apply spec_if; intros _; [by apply pub_keeps_ret|].
  eapply (pub_keeps_bind _ _ (fun _ => True)); [apply spec_if; intros _; [by apply pub_keeps_Retry|by apply pub_keeps_Publish]|].
  intros [q [e|]] _; [by apply pub_keeps_fail|by apply pub_keeps_ret].
Qed.

Lemma adapter_ok ws s : Inv s ->
  (forall p, Inv (port_Prepare pipelinePublicationAdapter ws p s).2) /\
  (forall pid actor, actor <> ""%string ->
     Inv (port_Approve pipelinePublicationAdapter ws pid actor s).2 /\
     Inv (port_Publish pipelinePublicationAdapter ws pid actor s).2).
Proof.
  intros Hs. split; [intros p; by eapply foreign_keeps; [apply keeps_adapter_Prepare|]|].
  intros pid actor _. split; (eapply foreign_keeps; [|exact Hs]); [apply keeps_adapter_Approve|apply keeps_adapter_Publish].
Qed.
End adapter.

(** Human oversight of the composed runtime: with the publication adapter
    between them, whatever pipeline requests and worker events are served and
    whatever either database, the stage ports, the delivery adapter and the
    event sink do in between, no pipeline passes its review without a named
    approver on record, no publication is approved, published or failed without
    one, and nothing is ever handed to the delivery adapter that a human has not
    approved. *)
Theorem composed_human_oversight `{UuidText} penv deliver env caps rs (w : PipelineService.World PublishService.World) :
  (forall n db, oversight db -> oversight (tt_others (penv n) db)) ->
  (forall n db, gate db -> gate (tt_others (env n) db) /\ grows db (tt_others (env n) db)) ->
  gate (PipelineService.w_db w) ->
  oversight (PublishService.w_db (w_pub w)) -> handed_ok (w_handed (w_pub w)) ->
  let w' := PipelineProps.serve env caps (Some (pipelinePublicationAdapter penv deliver)) rs w in
  gate (PipelineService.w_db w') /\ oversight (PublishService.w_db (w_pub w')) /\ handed_ok (w_handed (w_pub w')).
Proof.
  intros Hp Hr Hg Ho Hh.
  destruct (St_serve env caps (Some (pipelinePublicationAdapter penv deliver)) Inv
    ltac:(intros port [= <-] ws s Hs; by apply adapter_ok) Hr (PipelineService.w_db w) rs w) as (H1 & _ & H2 & H3).
  - split; [done|]. split; [reflexivity|by split].
  - done.
Qed.

(** ** A creator run from creation to delivery *)

#[local] Hint Extern 0 UuidText => exact unary_uuid : typeclass_instances.

Definition flow_env : nat -> TxTick PipeDB := fun n => mkTxTick (Z.of_nat n) (fun db => db) NoFault.
Definition flow_caps : Capabilities := stub_capabilities (fun _ _ => Ok tt).
Definition flow_start : PipelineService.World PublishService.World :=
  PipelineService.mkWorld (mkPipeDB ∅ {[7%N]} ∅ {[1%N]} 1) 0 PipelineService.service_throttle PublishProps.start [] [].
Definition flow_cx : PipelineService.Ctx := PipelineService.mkCtx "ada" "trace" "span".
Definition flow_requests : list PipelineProps.request :=
  [PipelineProps.ReqCreate flow_cx 7 None "trace" "key-1"; ReqEvent flow_cx 7 1 StageResearch "trace" "span";
   ReqEvent flow_cx 7 1 StageScript "trace" "span"; PipelineProps.ReqApprove flow_cx 7 1 "ada";
   ReqEvent flow_cx 7 1 StageReview "trace" "span"; ReqEvent flow_cx 7 1 StagePublish "trace" "span"].

Lemma flow_start_gate : gate (PipelineService.w_db flow_start).
Proof. apply map_Forall_empty. Qed.

Lemma composed_human_oversight_witness :
  let w := PipelineProps.serve flow_env flow_caps (Some (pipelinePublicationAdapter demo_calm demo_deliver))
             flow_requests flow_start in
  option_map pl_Status (pd_rows (PipelineService.w_db w) !! 1%N) = Some StatusDone /\
  length (w_handed (w_pub w)) = 1 /\
  gate (PipelineService.w_db w) /\ oversight (PublishService.w_db (w_pub w)) /\ handed_ok (w_handed (w_pub w)).
Proof.
  split; [vm_compute; reflexivity|]. split; [vm_compute; reflexivity|].
  apply (composed_human_oversight demo_calm demo_deliver flow_env flow_caps).
  - intros n db Hdb. exact Hdb.
  - intros n db Hdb. split; [exact Hdb|reflexivity].
  - apply flow_start_gate.
  - apply start_oversight.
  - apply start_oversight.
Defined.

Lemma approval_gate_witness :
  let w := PipelineProps.serve flow_env flow_caps (Some (pipelinePublicationAdapter demo_calm demo_deliver))
             flow_requests flow_start in
  option_map pl_Stage (pd_rows (PipelineService.w_db w) !! 1%N) = Some StageComplete /\
  gate (PipelineService.w_db w).
Proof.
  split; [vm_compute; reflexivity|].
  destruct (approval_gate flow_env flow_caps (Some (pipelinePublicationAdapter demo_calm demo_deliver))
    (fun _ => True) flow_requests flow_start) as [Hg _].
  - intros n db Hdb. split; [exact Hdb|reflexivity].
  - intros port _ ws s _. split; [intros p; exact I|intros pid actor _; split; exact I].
  - apply flow_start_gate.
  - exact I.
  - exact Hg.
Defined.
