(* ===== verification/Consumer.v ===== *)
(** * internal/worker/worker.go and cmd/worker/handler.go: message settlement

    How a delivered message is decoded, handled and settled, for the pipeline
    and publication events and for the execution dispatch queue.  A message is
    given with what encoding/json makes of its body and of its details. *)

From S2P Require Import Prelude GoLib Execution ExecStore ExecInv ExecProps Ports PgStore Backoff.
From S2P Require Import Dispatcher Worker WorkerProps.
From S2P Require Import Throttle Pipeline PipelineService PipelineProps PipelineFlow.

(** ** worker.go *)

(** [ErrPermanent] wraps what no redelivery can repair. *)
Inductive failure : Type := ErrPermanent (msg : string) | ErrTransient (msg : string).

Inductive settlement : Type := Ack | NackRequeue.

#[export] Instance settlement_eq_dec : EqDecision settlement.
Proof. solve_decision. Defined.

(** [processMessage]: [body] is the decoded envelope. *)
Definition processMessage {S Env} (handler : Env -> S -> option failure * S) (body : option Env) (s : S)
  : settlement * S :=
  match body with
  | None => (Ack, s)
  | Some env =>
      match handler env s with
      | (None, s') => (Ack, s')
      | (Some (ErrPermanent _), s') => (Ack, s')
      | (Some (ErrTransient _), s') => (NackRequeue, s')
      end
  end.

(** ** handler.go: pipeline and publication events *)

Record pipelineEventDetails : Type := mkDetails { d_Event : string; d_Stage : string }.

(** The fields of the envelope the handler reads; [env_Details] is [None] when
    the details are no JSON object of that shape. *)
Record UniversalEnvelope : Type := mkEnvelope {
  env_TargetType : string;
  env_TargetID : uuid;
  env_WorkspaceID : string;
  env_TraceID : uuid;
  env_SpanID : uuid;
  env_Details : option pipelineEventDetails
}.

(** [strings.HasPrefix] *)
Definition HasPrefix (s prefix : string) : bool := String.prefix prefix s.

Section handler.
Context `{UuidText} {S : Type}.
(** [uuid.Parse] of github.com/google/uuid *)
Variable uuid_Parse : string -> option uuid.
Variable env : nat -> TxTick PipeDB.
Variable caps : Capabilities.
Variable publication : option (PublicationPort S).

Abbreviation W := (PipelineService.World S).

Definition publication_event (e : UniversalEnvelope) : option failure :=
  match env_Details e with
  | None => Some (ErrPermanent "decode publication event details")
  | Some d =>
      if negb (HasPrefix (d_Event d) "publication.") then Some (ErrPermanent "publication event carries invalid event")
      else match uuid_Parse (env_WorkspaceID e) with
           | None => Some (ErrPermanent "publication event is missing a valid workspace or publication id")
           | Some _ =>
               if (env_TargetID e =? uuid_Nil)%N
               then Some (ErrPermanent "publication event is missing a valid workspace or publication id")
               else None
           end
  end.

(** What a well-formed pipeline event asks for: nothing, or an advance of a
    pipeline of a workspace from a stage. *)
Inductive demand : Type := Observed | Command (ws id : uuid) (stage : Stage).

Definition pipeline_event (e : UniversalEnvelope) : res failure demand :=
  match env_Details e with
  | None => Err (ErrPermanent "decode pipeline event details")
  | Some d =>
      let stage := stage_of (d_Stage d) in
      if negb (ValidStage stage) then Err (ErrPermanent "pipeline event carries unknown stage")
      else if negb (bool_decide (EventKind (d_Event d) = Some stage))
      then Err (ErrPermanent "pipeline event name does not match stage")
      else match uuid_Parse (env_WorkspaceID e) with
           | None => Err (ErrPermanent "pipeline event carries invalid workspace id")
           | Some workspaceID =>
               if (env_TargetID e =? uuid_Nil)%N then Err (ErrPermanent "pipeline event missing pipeline id")
               else if String.eqb (d_Event d) "pipeline.review" || String.eqb (d_Event d) "pipeline.review_ready"
                    || String.eqb (d_Event d) "pipeline.complete"
               then Ok Observed
               else Ok (Command workspaceID (env_TargetID e) stage)
           end
  end.

Definition background : PipelineService.Ctx := PipelineService.mkCtx "" "" "".

(** May an event whose advance failed with [e] be acknowledged after all? *)
Definition settled_anyway (e : Pipeline.err) (stage : Stage) (current : Pipeline) : bool :=
  bool_decide (pl_Status current = StatusDone)
  || (negb (bool_decide (pl_Stage current = stage)) && IsAfter (pl_Stage current) stage)
  || (errors_Is e ErrTerminalState && negb (bool_decide (pl_Status current = StatusFailed))).

Definition advance_event (ws id : uuid) (stage : Stage) (trace span : string) (w : W) : option failure * W :=
  let '(r, w1) := AdvanceFromEvent env caps publication background ws id stage trace span w in
  match result_error r with
  | None => (None, w1)
  | Some e =>
      let '(current, w2) := PipelineService.Get env ws id w1 in
      let refused := Some (ErrTransient (Pipeline.err_Error e)) in
      match current with
      | Ok p => (if settled_anyway e stage p then None else refused, w2)
      | Err _ => (refused, w2)
      end
  end.

Definition newHandler (e : UniversalEnvelope) (w : W) : option failure * W :=
  if String.eqb (env_TargetType e) "publication" then (publication_event e, w)
  else if negb (String.eqb (env_TargetType e) "pipeline") then (None, w)
  else match pipeline_event e with
       | Err f => (Some f, w)
       | Ok Observed => (None, w)
       | Ok (Command ws id stage) =>
           advance_event ws id stage (uuid_String (env_TraceID e)) (uuid_String (env_SpanID e)) w
       end.

(** *** What an acknowledgement means *)

Variable J : S -> Prop.
Hypothesis port_ok : forall port, publication = Some port -> forall ws s, J s ->
  (forall p, J (port_Prepare port ws p s).2) /\
  (forall pid actor, actor <> ""%string ->
     J (port_Approve port ws pid actor s).2 /\ J (port_Publish port ws pid actor s).2).
Hypothesis rely : forall n db, gate db -> gate (tt_others (env n) db) /\ grows db (tt_others (env n) db).

(** The pipeline has left the stage of the event. *)
Definition progressed (id : uuid) (stage : Stage) (db : PipeDB) : Prop :=
  exists row, pd_rows db !! id = Some row /\ IsAfter (pl_Stage row) stage = true.

Lemma seen_progressed p id stage db :
  pl_ID p = id -> IsAfter (pl_Stage p) stage = true -> seen p db -> progressed id stage db.
Proof.
  intros <- Ha (row & Hr & Hl). exists row. split; [done|]. destruct Hl as [->|(_ & _ & Hs & _)]; [done|].
  unfold IsAfter in *. bool_prop. apply Z.ltb_lt. lia.
Qed.

Lemma after_not_same stage p : IsAfter (pl_Stage p) stage = true -> pl_Stage p <> stage.
Proof. intros Ha Es. unfold IsAfter in Ha. rewrite Es in Ha. bool_prop. lia. Qed.

Lemma done_after p stage : row_ok p -> pl_Status p = StatusDone -> stage <> StageComplete -> ValidStage stage = true ->
  IsAfter (pl_Stage p) stage = true.
Proof.
  intros [Hv _] Hd Hne Hvs. rewrite Hd in Hv. unfold stage_status_valid in Hv.
  destruct (pl_Stage p); try done. by destruct stage.
Qed.

Lemma advance_event_settles ws id stage trace span (w w' : W) :
  gate (PipelineService.w_db w) -> J (w_pub w) -> ValidStage stage = true -> stage <> StageComplete ->
  advance_event ws id stage trace span w = (None, w') ->
  progressed id stage (PipelineService.w_db w') \/
  exists e w1, AdvanceFromEvent env caps publication background ws id stage trace span w = (Err e, w1) /\
    errors_Is e ErrTerminalState = true.
Proof.
  intros Hg HJ Hv Hne. unfold advance_event.
  pose proof (St_AdvanceFromEvent env caps publication J port_ok rely (PipelineService.w_db w) background ws id stage
    trace span w ltac:(split; [done|by split; [reflexivity|]])) as Ha.
  destruct (AdvanceFromEvent _ _ _ _ _ _ _ _ _ w) as [r w1].
  destruct (result_error r) as [e|] eqn:Er.
  - unfold PipelineService.Get.
    assert (match r with Ok (q, _) => pl_ID q = id /\ IsAfter (pl_Stage q) stage = true | Err _ => True end /\
            St J (PipelineService.w_db w) w1 /\
            match r with Ok (q, _) => Have J (PipelineService.w_db w) q w1 | Err _ => True end) as (Hq & HSt & HH).
    { destruct r as [[q o]|e']; [|done]. destruct Ha as [Ha Hh]. split; [done|]. split; [by eapply Have_St|done]. }
    pose proof (St_getOwned env J rely (PipelineService.w_db w) ws id w1 HSt) as Hget.
    destruct (getOwned env ws id w1) as [[p|e'] w2] eqn:Eg; [|done].
    destruct Hget as [[HI HW] (HSt2 & Hok & Hver & Hseen)].
    destruct (settled_anyway e stage p) eqn:Es; [|done]. intros [= <-].
    unfold settled_anyway in Es. apply orb_true_iff in Es as [Es|Es]; [apply orb_true_iff in Es as [Es|Es]|]; bool_prop.
    + left. eapply seen_progressed; [done|by eapply done_after|done].
    + left. by eapply seen_progressed.
    + destruct r as [[q o]|e0].
      * left. pose proof (Have_getOwned env J rely (PipelineService.w_db w) q ws id w1 HH) as Hq2. rewrite Eg in Hq2.
        destruct Hq2 as (_ & _ & _ & _ & _ & Hsq). by eapply seen_progressed; [apply Hq..|].
      * right. simpl in Er. injection Er as ->. by exists e, w1.
  - intros [= <-]. left. destruct r as [[q o]|e']; [|done]. simpl in Er. subst o. destruct Ha as [[HI HA] (_ & _ & _ & Hs)].
    by eapply seen_progressed.
Qed.
End handler.

(** C38. An acknowledgement is progress or a refusal: whatever fails, as long as the
    publication port keeps its invariant and other processes keep the gate and
    take no pipeline back, a command event for a stage before completion is only
    acknowledged when its pipeline has durably left that stage, or when the
    advance was refused with [ErrTerminalState].  The refusal is of the moment it
    was made: a pipeline that is resumed later is not advanced by the event
    ([resumed_event_dropped]). *)
Theorem ack_means_progress `{UuidText} {S : Type} uuid_Parse env caps (publication : option (PublicationPort S))
    (J : S -> Prop) e ws id stage w w' :
  (forall port, publication = Some port -> forall ws s, J s ->
    (forall p, J (port_Prepare port ws p s).2) /\
    (forall pid actor, actor <> ""%string ->
       J (port_Approve port ws pid actor s).2 /\ J (port_Publish port ws pid actor s).2)) ->
  (forall n db, gate db -> gate (tt_others (env n) db) /\ grows db (tt_others (env n) db)) ->
  gate (PipelineService.w_db w) -> J (w_pub w) ->
  env_TargetType e = "pipeline" -> pipeline_event uuid_Parse e = Ok (Command ws id stage) -> stage <> StageComplete ->
  processMessage (newHandler uuid_Parse env caps publication) (Some e) w = (Ack, w') ->
  progressed id stage (PipelineService.w_db w') \/
  exists er w1, AdvanceFromEvent env caps publication background ws id stage (uuid_String (env_TraceID e))
                  (uuid_String (env_SpanID e)) w = (Err er, w1) /\ errors_Is er ErrTerminalState = true.
Proof.
  intros Hport Hrely Hg HJ Ht He Hne. unfold processMessage, newHandler. rewrite Ht. simpl. rewrite He.
  assert (ValidStage stage = true) as Hv.
  { unfold pipeline_event in He. repeat (case_match; try done); bool_prop; naive_solver. }
  destruct (advance_event _ _ _ _ _ _ _ _ w) as [[[m|m]|] w1] eqn:Ea; try done.
  - exfalso. unfold advance_event in Ea. repeat (case_match; simplify_eq).
  - intros [= <-]. by eapply advance_event_settles.
Qed.

(** A message that can never be processed is dropped, and nothing happens:
    a body that is no envelope, a malformed pipeline or publication event, an
    event of an unknown kind of target, and the notifications that command
    nothing are acknowledged and leave the world as it was. *)
Theorem unprocessable_is_dropped `{UuidText} {S : Type} uuid_Parse env caps (publication : option (PublicationPort S))
    (body : option UniversalEnvelope) w :
  (forall e, body = Some e -> env_TargetType e = "pipeline" ->
     forall ws id stage, pipeline_event uuid_Parse e <> Ok (Command ws id stage)) ->
  processMessage (newHandler uuid_Parse env caps publication) body w = (Ack, w).
Proof.
  intros Hm. destruct body as [e|]; [|done]. specialize (Hm e eq_refl). unfold processMessage, newHandler.
  destruct (String.eqb_spec (env_TargetType e) "publication") as [Ep|Ep].
  { unfold publication_event. by repeat case_match; simplify_eq. }
  destruct (String.eqb_spec (env_TargetType e) "pipeline") as [El|El]; [|done]. simpl.
  destruct (pipeline_event uuid_Parse e) as [[|ws id stage]|f] eqn:Ee; [done|by destruct (Hm El ws id stage)|].
  unfold pipeline_event in Ee. by repeat case_match; simplify_eq.
Qed.

(** ** The execution dispatch queue *)

Section executions.
Context {S : Type} `{!ExecutionStore S, !Materializer S, !Clock S, !Provider S, !UuidText}.

(** The fields the handler of the execution queue reads. *)
Record DispatchEnvelope : Type := mkDispatch { de_TargetType : string; de_Details : option PublishMessage }.

Definition newExecutionHandler (wk : Worker) (e : DispatchEnvelope) (s : S) : option failure * S :=
  if negb (String.eqb (de_TargetType e) "execution")
  then (Some (ErrPermanent "execution queue carries non-execution target"), s)
  else match de_Details e with
  | None => (Some (ErrPermanent "decode execution dispatch"), s)
  | Some msg =>
      if (pm_WorkspaceID msg =? uuid_Nil)%N || (pm_ExecutionID msg =? uuid_Nil)%N || (pm_RetryID msg =? uuid_Nil)%N
      then (Some (ErrPermanent "execution dispatch carries a nil identity"), s)
      else match Run wk msg s with
           | (Ok (_, None), s') => (None, s')
           | (Ok (_, Some e), s') | (Err e, s') =>
               (Some (if bool_decide (e = Execution.ErrInvalidInput) then ErrPermanent "execution dispatch is invalid"
                      else ErrTransient ""), s')
           end
  end.
End executions.

(** A well-formed dispatch message. *)
Definition dispatches (e : DispatchEnvelope) (msg : PublishMessage) : Prop :=
  de_TargetType e = "execution" /\ de_Details e = Some msg /\
  pm_WorkspaceID msg <> uuid_Nil /\ pm_ExecutionID msg <> uuid_Nil /\ pm_RetryID msg <> uuid_Nil.

(** An execution message is only taken off the queue for a decided attempt:
    when the message of a fenced attempt is acknowledged, the board records
    what the worker decided - completed, rescheduled or dead-lettered - or the
    attempt was abandoned to recovery; unless the worker found the message
    itself invalid. *)
Theorem execution_ack_is_decided env `{!Provider PgStore.World} `{!UuidText} wk e msg (W W' : PgStore.World) :
  fair env -> inv (w_sys W) -> dispatches e msg -> holds (fencedFrom msg (wk_workerID wk)) W ->
  processMessage (@newExecutionHandler PgStore.World (pg_store env) (pg_materializer env) (env_clock env) _ _ wk)
    (Some e) W = (Ack, W') ->
  exists r, @Run PgStore.World (pg_store env) (pg_materializer env) (env_clock env) _ _ wk msg W = (r, W') /\
    ((exists o, r = Ok (o, None) /\ settled_as o (pm_ExecutionID msg) (s_db (w_sys W'))) \/
     result_error r = Some Execution.ErrInvalidInput).
Proof.
  intros Hfair Hinv (Ht & Hd & H1 & H2 & H3) Hh. unfold processMessage, newExecutionHandler. rewrite Ht, Hd.
  cbn [negb String.eqb]. cbv beta iota.
  rewrite (proj2 (N.eqb_neq _ _) H1), (proj2 (N.eqb_neq _ _) H2), (proj2 (N.eqb_neq _ _) H3). cbn [orb].
  pose proof (Run_settles env Hfair wk msg W) as Hs. change (negb (String.eqb "execution" "execution")) with false.
  destruct (Run wk msg W) as [[[o [er|]]|er] W1]; cbv iota.
  - case_bool_decide as He; [|done]. intros [= <-]. eexists. split; [done|]. right. simpl. by rewrite He.
  - intros [= <-]. eexists. split; [done|]. left. exists o. split; [done|]. by apply Hs.
  - case_bool_decide as He; [|done]. intros [= <-]. eexists. split; [done|]. right. simpl. by rewrite He.
Qed.

(** As the board stands, no execution message ever leaves the queue: since
    no admission keeps its snapshot, every well-formed message of a reachable
    board is handed back for redelivery, each time, and the attempt does
    nothing. *)
Theorem execution_messages_requeued env `{!Provider PgStore.World} `{!UuidText} wk e msg (W : PgStore.World) :
  fair env -> reachable (w_sys W) -> dispatches e msg ->
  exists W', processMessage (@newExecutionHandler PgStore.World (pg_store env) (pg_materializer env) (env_clock env) _ _ wk)
    (Some e) W = (NackRequeue, W') /\ w_sys W' = tk_others (env (PgStore.w_at W)) (w_sys W).
Proof.
  intros Hfair Hr (Ht & Hd & H1 & H2 & H3). unfold processMessage, newExecutionHandler. rewrite Ht, Hd.
  cbn [negb String.eqb]. cbv beta iota.
  assert (((pm_WorkspaceID msg =? uuid_Nil)%N || (pm_ExecutionID msg =? uuid_Nil)%N
           || (pm_RetryID msg =? uuid_Nil)%N) = false) as Hn.
  { by rewrite (proj2 (N.eqb_neq _ _) H1), (proj2 (N.eqb_neq _ _) H2), (proj2 (N.eqb_neq _ _) H3). }
  rewrite Hn. change (negb (String.eqb "execution" "execution")) with false.
  destruct (Run_abandons env wk msg W Hfair Hr Hn) as (er & W' & HR & He & Hs). rewrite HR. cbv iota.
  rewrite bool_decide_eq_false_2 by done. by exists W'.
Qed.

(** ** Messages of a small workspace *)

#[local] Hint Extern 0 UuidText => exact unary_uuid : typeclass_instances.

(** The inverse of the unary text form. *)
Definition unary_Parse (s : string) : option uuid := Some (N.of_nat (String.length s)).

Definition message (event stage : string) : UniversalEnvelope :=
  mkEnvelope "pipeline" 1 (uuid_String 7%N) 3 4 (Some (mkDetails event stage)).

Definition deliver_to (env : nat -> TxTick PipeDB) (caps : Capabilities) (m : UniversalEnvelope)
    (w : PipelineService.World unit) : settlement * PipelineService.World unit :=
  processMessage (newHandler unary_Parse env caps (Some plain_port)) (Some m) w.

(** The same ports with the broker down. *)
Definition brokerless : Capabilities :=
  mkCapabilities (cap_Research plain_caps) (cap_WriteScript plain_caps) (cap_Review plain_caps) (cap_Publish plain_caps)
    (fun _ _ => Err (ErrPort "broker down")).

(** A lost follower event strands the pipeline: when the broker refuses the
    event that follows a stage, the stage's own message is acknowledged all the
    same, because the row is already in the next stage.  No message for that
    stage is left, and an operator's retry is refused, because nothing failed. *)
Theorem lost_follower_event :
  let '(s, w) := deliver_to calm_env brokerless (message "pipeline.research" "research") created_world in
  s = Ack /\
  (exists row, pd_rows (PipelineService.w_db w) !! 1%N = Some row /\ pl_Stage row = StageScript /\
     pl_Status row = StatusActive) /\
  PipelineService.w_events w = [] /\
  (PipelineService.Retry calm_env plain_caps (Some plain_port) flow_cx 7 1 "ada" w).1 = Err ErrInvalidTransition.
Proof. vm_compute. repeat split. eexists. repeat split. Qed.

(** A pipeline whose script stage failed, and an operator's retry that was
    committed but went no further, just before the event is checked. *)
Definition failed_script : Pipeline := set_pl_Status StatusFailed scripted.
Definition failed_world : PipelineService.World unit :=
  PipelineService.mkWorld (with_rows {[1%N := failed_script]} (PipelineService.w_db scripted_world)) 0
    PipelineService.service_throttle tt [] [].
Definition operator_resumes (db : PipeDB) : PipeDB :=
  match db_Update 7 (set_pl_RetryCount 1 (set_pl_Status StatusActive failed_script)) 50 db with
  | Ok (_, db') => db'
  | Err _ => db
  end.
Definition resumed_meanwhile : nat -> TxTick PipeDB := fun n =>
  mkTxTick (Z.of_nat n) (if Nat.eqb n 2 then operator_resumes else fun db => db) NoFault.

(** A resumed pipeline can lose its message: the event of a failed pipeline
    is refused as terminal; if an operator's retry is committed before the
    handler looks again, the event is acknowledged although the pipeline is
    still in the same stage. *)
Theorem resumed_event_dropped :
  let '(s, w) := deliver_to resumed_meanwhile plain_caps (message "pipeline.script" "script") failed_world in
  s = Ack /\
  (exists row, pd_rows (PipelineService.w_db w) !! 1%N = Some row /\ pl_Stage row = StageScript /\
     pl_Status row = StatusActive) /\
  PipelineService.w_events w = [].
Proof. vm_compute. repeat split. eexists. repeat split. Qed.

Lemma created_gate : gate (PipelineService.w_db created_world).
Proof. apply map_Forall_singleton. by repeat split. Qed.

Lemma ack_means_progress_witness :
  exists w', deliver_to calm_env plain_caps (message "pipeline.research" "research") created_world = (Ack, w') /\
    (progressed 1 StageResearch (PipelineService.w_db w') \/
     exists er w1, AdvanceFromEvent calm_env plain_caps (Some plain_port) background 7 1 StageResearch
       (uuid_String 3%N) (uuid_String 4%N) created_world = (Err er, w1) /\ errors_Is er ErrTerminalState = true).
Proof.
  destruct (deliver_to calm_env plain_caps (message "pipeline.research" "research") created_world) as [s w'] eqn:Hd.
  assert (s = Ack) as -> by (change s with (s, w').1; rewrite <-Hd; vm_compute; reflexivity).
  exists w'. split; [reflexivity|].
  apply (ack_means_progress unary_Parse calm_env plain_caps (Some plain_port) (fun _ => True)
    (message "pipeline.research" "research") 7 1 StageResearch created_world w').
  - intros port _ ws s _. split; [intros p; exact I|intros pid actor _; split; exact I].
  - intros n db Hg. split; [exact Hg|reflexivity].
  - exact created_gate.
  - exact I.
  - reflexivity.
  - vm_compute. reflexivity.
  - discriminate.
  - exact Hd.
Defined.

Lemma unprocessable_is_dropped_witness :
  deliver_to calm_env plain_caps (message "pipeline.script" "research") created_world = (Ack, created_world).
Proof.
  apply (unprocessable_is_dropped unary_Parse calm_env plain_caps (Some plain_port)).
  intros e [= <-] _ ws id stage. vm_compute. discriminate.
Defined.

#[local] Hint Extern 0 (Provider PgStore.World) =>
  exact {| prov_Complete _ _ _ := ([Beat], Ok (mkCompletionResult "done")) |} : typeclass_instances.

Definition exec_message : DispatchEnvelope := mkDispatch "execution" (Some demo_msg).

Lemma exec_dispatches : dispatches exec_message demo_msg.
Proof. by repeat split. Qed.

Abbreviation demo_settles W :=
  (processMessage (@newExecutionHandler PgStore.World (pg_store demo_env) (pg_materializer demo_env)
     (env_clock demo_env) _ _ demo_worker) (Some exec_message) W).

Lemma execution_ack_is_decided_witness :
  exists W' r, demo_settles demo_ready = (Ack, W') /\
    ((exists o, r = Ok (o, None) /\ settled_as o 1 (s_db (w_sys W'))) \/
     result_error r = Some Execution.ErrInvalidInput).
Proof.
  destruct (demo_settles demo_ready) as [s W'] eqn:Hd.
  assert (s = Ack) as -> by (change s with (s, W').1; rewrite <-Hd; vm_compute; reflexivity).
  destruct (execution_ack_is_decided demo_env demo_worker exec_message demo_msg demo_ready W' demo_fair)
    as (r & _ & Hr).
  - apply inv_with_contexts, reachable_inv, demo_reachable2.
  - exact exec_dispatches.
  - left.
  - exact Hd.
  - exists W', r. split; [reflexivity|exact Hr].
Defined.

Lemma execution_messages_requeued_witness :
  exists W', demo_settles demo_world = (NackRequeue, W').
Proof.
  destruct (execution_messages_requeued demo_env demo_worker exec_message demo_msg demo_world demo_fair)
    as (W' & HW & _).
  - exact demo_reachable2.
  - exact exec_dispatches.
  - exists W'. exact HW.
Defined.
