(* ===== verification/Rbac.v ===== *)
(** * internal/rbac and internal/api/routes.go: the authorization contract

    The three roles, the declared and the implemented rules, the permissions an
    access token carries for a role, and the routes the server registers. *)

From S2P Require Import Prelude.

#[local] Open Scope string_scope.

(** ** Roles, scopes and rules *)

Inductive Role : Type :=
| RoleFounder | RoleWorkspaceAdmin | RoleWorkspaceMember
| RoleOther (s : string).

#[export] Instance Role_eq_dec : EqDecision Role.
Proof. solve_decision. Defined.

Definition ValidRole (r : Role) : bool :=
  match r with
  | RoleFounder | RoleWorkspaceAdmin | RoleWorkspaceMember => true
  | RoleOther _ => false
  end.

Inductive WorkspaceScope : Type := ScopeNone | ScopeSelf | ScopePath.

#[export] Instance WorkspaceScope_eq_dec : EqDecision WorkspaceScope.
Proof. solve_decision. Defined.

Definition WorkspaceScope_String (s : WorkspaceScope) : string :=
  match s with ScopeNone => "none" | ScopeSelf => "self" | ScopePath => "path" end.

Record Rule : Type := mkRule {
  r_Action : string;
  r_ResourcePattern : string;
  r_Roles : list Role;
  r_Scope : WorkspaceScope;
  r_Principle : string
}.

#[export] Instance Rule_eq_dec : EqDecision Rule.
Proof. solve_decision. Defined.

(** ** The rule tables *)

Definition declared_profile_workspaces : list Rule :=
  [ mkRule "GET" "/api/me" [RoleFounder; RoleWorkspaceAdmin; RoleWorkspaceMember] ScopeNone
     "Principle 9 - Security by Design";
    mkRule "GET" "/workspaces" [RoleFounder] ScopeNone
     "Principle 9 - Security by Design";
    mkRule "POST" "/workspaces" [RoleFounder] ScopeNone
     "Principle 5 - Modular Design";
    mkRule "GET" "/workspaces/{id}" [RoleFounder] ScopeNone
     "Principle 10 - Privacy by Design";
    mkRule "GET" "/workspaces/{id}" [RoleWorkspaceAdmin] ScopePath
     "Principle 10 - Privacy by Design" ].

Definition declared_tasks : list Rule :=
  [ mkRule "POST" "/tasks" [RoleWorkspaceAdmin; RoleWorkspaceMember] ScopeSelf
     "Principle 1 - Vision First";
    mkRule "GET" "/tasks" [RoleWorkspaceAdmin; RoleWorkspaceMember] ScopeSelf
     "Principle 13 - Observability";
    mkRule "GET" "/tasks/{id}" [RoleWorkspaceAdmin; RoleWorkspaceMember] ScopeSelf
     "Principle 10 - Privacy by Design";
    mkRule "PATCH" "/tasks/{id}" [RoleWorkspaceAdmin; RoleWorkspaceMember] ScopeSelf
     "Principle 4 - Quality Over Speed";
    mkRule "POST" "/tasks/{id}/transition" [RoleWorkspaceAdmin; RoleWorkspaceMember] ScopeSelf
     "Principle 11 - Human Oversight" ].

Definition declared_executions : list Rule :=
  [ mkRule "POST" "/tasks/{id}/execute" [RoleWorkspaceAdmin; RoleWorkspaceMember] ScopeSelf
     "Principle 1 - Vision First";
    mkRule "GET" "/executions/{id}" [RoleWorkspaceAdmin; RoleWorkspaceMember] ScopeSelf
     "Principle 13 - Observability";
    mkRule "POST" "/executions/{id}/cancel" [RoleWorkspaceAdmin; RoleWorkspaceMember] ScopeSelf
     "Principle 11 - Human Oversight" ].

Definition declared_knowledge : list Rule :=
  [ mkRule "POST" "/knowledge" [RoleWorkspaceAdmin; RoleWorkspaceMember] ScopeSelf
     "Principle 1 - Vision First";
    mkRule "GET" "/knowledge" [RoleWorkspaceAdmin; RoleWorkspaceMember] ScopeSelf
     "Principle 13 - Observability";
    mkRule "GET" "/knowledge/{id}" [RoleWorkspaceAdmin; RoleWorkspaceMember] ScopeSelf
     "Principle 10 - Privacy by Design";
    mkRule "PATCH" "/knowledge/{id}" [RoleWorkspaceAdmin; RoleWorkspaceMember] ScopeSelf
     "Principle 4 - Quality Over Speed";
    mkRule "DELETE" "/knowledge/{id}" [RoleWorkspaceAdmin; RoleWorkspaceMember] ScopeSelf
     "Principle 9 - Security by Design";
    mkRule "POST" "/knowledge/search" [RoleWorkspaceAdmin; RoleWorkspaceMember] ScopeSelf
     "Principle 10 - Privacy by Design" ].

Definition declared_memory : list Rule :=
  [ mkRule "GET" "/memory/{layer}/{key}" [RoleWorkspaceAdmin; RoleWorkspaceMember] ScopeSelf
     "Principle 10 - Privacy by Design";
    mkRule "PUT" "/memory/{layer}/{key}" [RoleWorkspaceAdmin; RoleWorkspaceMember] ScopeSelf
     "Principle 9 - Security by Design" ].

Definition declared_departments : list Rule :=
  [ mkRule "POST" "/departments" [RoleWorkspaceAdmin] ScopeSelf
     "Principle 5 - Modular Design";
    mkRule "GET" "/departments" [RoleWorkspaceAdmin; RoleWorkspaceMember] ScopeSelf
     "Principle 13 - Observability";
    mkRule "GET" "/departments/{id}" [RoleWorkspaceAdmin; RoleWorkspaceMember] ScopeSelf
     "Principle 10 - Privacy by Design";
    mkRule "PATCH" "/departments/{id}" [RoleWorkspaceAdmin] ScopeSelf
     "Principle 4 - Quality Over Speed";
    mkRule "DELETE" "/departments/{id}" [RoleWorkspaceAdmin] ScopeSelf
     "Principle 9 - Security by Design" ].

Definition declared_teams : list Rule :=
  [ mkRule "POST" "/teams" [RoleWorkspaceAdmin] ScopeSelf
     "Principle 5 - Modular Design";
    mkRule "GET" "/teams" [RoleWorkspaceAdmin; RoleWorkspaceMember] ScopeSelf
     "Principle 13 - Observability";
    mkRule "GET" "/teams/{id}" [RoleWorkspaceAdmin; RoleWorkspaceMember] ScopeSelf
     "Principle 10 - Privacy by Design";
    mkRule "PATCH" "/teams/{id}" [RoleWorkspaceAdmin] ScopeSelf
     "Principle 4 - Quality Over Speed";
    mkRule "DELETE" "/teams/{id}" [RoleWorkspaceAdmin] ScopeSelf
     "Principle 9 - Security by Design" ].

Definition declared_ai_employees : list Rule :=
  [ mkRule "POST" "/ai-employees" [RoleWorkspaceAdmin] ScopeSelf
     "Principle 5 - Modular Design";
    mkRule "GET" "/ai-employees" [RoleWorkspaceAdmin; RoleWorkspaceMember] ScopeSelf
     "Principle 13 - Observability";
    mkRule "GET" "/ai-employees/{id}" [RoleWorkspaceAdmin; RoleWorkspaceMember] ScopeSelf
     "Principle 10 - Privacy by Design";
    mkRule "PATCH" "/ai-employees/{id}" [RoleWorkspaceAdmin] ScopeSelf
     "Principle 4 - Quality Over Speed";
    mkRule "DELETE" "/ai-employees/{id}" [RoleWorkspaceAdmin] ScopeSelf
     "Principle 9 - Security by Design" ].

Definition pipelineRules : list Rule :=
  [ mkRule "POST" "/pipelines" [RoleWorkspaceAdmin; RoleWorkspaceMember] ScopeSelf
     "Principle 1 - Vision First";
    mkRule "GET" "/pipelines" [RoleWorkspaceAdmin; RoleWorkspaceMember] ScopeSelf
     "Principle 13 - Observability";
    mkRule "GET" "/pipelines/{id}" [RoleWorkspaceAdmin; RoleWorkspaceMember] ScopeSelf
     "Principle 10 - Privacy by Design";
    mkRule "POST" "/pipelines/{id}/approve" [RoleWorkspaceAdmin] ScopeSelf
     "Principle 11 - Human Oversight";
    mkRule "POST" "/pipelines/{id}/retry" [RoleWorkspaceAdmin; RoleWorkspaceMember] ScopeSelf
     "Principle 13 - Observability" ].

Definition publicationRules : list Rule :=
  [ mkRule "POST" "/publications" [RoleWorkspaceAdmin; RoleWorkspaceMember] ScopeSelf
     "Principle 1 - Vision First";
    mkRule "GET" "/publications" [RoleWorkspaceAdmin; RoleWorkspaceMember] ScopeSelf
     "Principle 10 - Privacy by Design";
    mkRule "GET" "/publications/{id}" [RoleWorkspaceAdmin; RoleWorkspaceMember] ScopeSelf
     "Principle 10 - Privacy by Design";
    mkRule "POST" "/publications/{id}/submit" [RoleWorkspaceAdmin; RoleWorkspaceMember] ScopeSelf
     "Principle 11 - Human Oversight";
    mkRule "POST" "/publications/{id}/approve" [RoleWorkspaceAdmin] ScopeSelf
     "Principle 11 - Human Oversight";
    mkRule "POST" "/publications/{id}/reject" [RoleWorkspaceAdmin] ScopeSelf
     "Principle 11 - Human Oversight";
    mkRule "POST" "/publications/{id}/publish" [RoleWorkspaceAdmin] ScopeSelf
     "Principle 11 - Human Oversight";
    mkRule "POST" "/publications/{id}/retry" [RoleWorkspaceAdmin] ScopeSelf
     "Principle 11 - Human Oversight" ].

Definition Rules : list Rule :=
  declared_profile_workspaces ++ declared_tasks ++ declared_executions ++ declared_knowledge ++ declared_memory
  ++ declared_departments ++ declared_teams ++ declared_ai_employees ++ publicationRules ++ pipelineRules.

Definition implemented_profile_workspaces : list Rule :=
  [ mkRule "GET" "/api/me" [RoleFounder; RoleWorkspaceAdmin; RoleWorkspaceMember] ScopeNone
     "Principle 9 - Security by Design";
    mkRule "GET" "/workspaces" [RoleFounder] ScopeNone
     "Principle 9 - Security by Design";
    mkRule "POST" "/workspaces" [RoleFounder] ScopeNone
     "Principle 5 - Modular Design";
    mkRule "GET" "/workspaces/{id}" [RoleFounder] ScopeNone
     "Principle 10 - Privacy by Design";
    mkRule "GET" "/workspaces/{id}" [RoleWorkspaceAdmin] ScopePath
     "Principle 10 - Privacy by Design" ].

Definition implemented_audit : list Rule :=
  [ mkRule "GET" "/audit/events" [RoleFounder] ScopeNone
     "Principle 11 - Human Oversight";
    mkRule "GET" "/audit/verification" [RoleFounder] ScopeNone
     "Principle 11 - Human Oversight";
    mkRule "GET" "/workspaces/{id}/audit/events" [RoleFounder] ScopeNone
     "Principle 11 - Human Oversight";
    mkRule "GET" "/workspaces/{id}/audit/events" [RoleWorkspaceAdmin; RoleWorkspaceMember] ScopePath
     "Principle 10 - Privacy by Design" ].

Definition implemented_tasks : list Rule :=
  [ mkRule "POST" "/tasks" [RoleWorkspaceAdmin; RoleWorkspaceMember] ScopeSelf
     "Principle 1 - Vision First";
    mkRule "GET" "/tasks" [RoleWorkspaceAdmin; RoleWorkspaceMember] ScopeSelf
     "Principle 13 - Observability";
    mkRule "GET" "/tasks/{id}" [RoleWorkspaceAdmin; RoleWorkspaceMember] ScopeSelf
     "Principle 10 - Privacy by Design";
    mkRule "PATCH" "/tasks/{id}" [RoleWorkspaceAdmin; RoleWorkspaceMember] ScopeSelf
     "Principle 4 - Quality Over Speed";
    mkRule "POST" "/tasks/{id}/transition" [RoleWorkspaceAdmin; RoleWorkspaceMember] ScopeSelf
     "Principle 11 - Human Oversight" ].

Definition implemented_executions : list Rule :=
  [ mkRule "POST" "/tasks/{id}/execute" [RoleWorkspaceAdmin; RoleWorkspaceMember] ScopeSelf
     "Principle 1 - Vision First";
    mkRule "GET" "/executions/{id}" [RoleWorkspaceAdmin; RoleWorkspaceMember] ScopeSelf
     "Principle 13 - Observability";
    mkRule "POST" "/executions/{id}/cancel" [RoleWorkspaceAdmin; RoleWorkspaceMember] ScopeSelf
     "Principle 11 - Human Oversight" ].

Definition implemented_knowledge : list Rule :=
  [ mkRule "POST" "/knowledge" [RoleWorkspaceAdmin; RoleWorkspaceMember] ScopeSelf
     "Principle 1 - Vision First";
    mkRule "GET" "/knowledge" [RoleWorkspaceAdmin; RoleWorkspaceMember] ScopeSelf
     "Principle 13 - Observability";
    mkRule "GET" "/knowledge/{id}" [RoleWorkspaceAdmin; RoleWorkspaceMember] ScopeSelf
     "Principle 10 - Privacy by Design";
    mkRule "PATCH" "/knowledge/{id}" [RoleWorkspaceAdmin; RoleWorkspaceMember] ScopeSelf
     "Principle 4 - Quality Over Speed";
    mkRule "DELETE" "/knowledge/{id}" [RoleWorkspaceAdmin; RoleWorkspaceMember] ScopeSelf
     "Principle 9 - Security by Design";
    mkRule "POST" "/knowledge/search" [RoleWorkspaceAdmin; RoleWorkspaceMember] ScopeSelf
     "Principle 10 - Privacy by Design" ].

Definition implemented_memory : list Rule :=
  [ mkRule "GET" "/memory/{layer}/{key}" [RoleWorkspaceAdmin; RoleWorkspaceMember] ScopeSelf
     "Principle 10 - Privacy by Design";
    mkRule "PUT" "/memory/{layer}/{key}" [RoleWorkspaceAdmin; RoleWorkspaceMember] ScopeSelf
     "Principle 9 - Security by Design" ].

Definition implemented_departments : list Rule :=
  [ mkRule "POST" "/departments" [RoleWorkspaceAdmin] ScopeSelf
     "Principle 5 - Modular Design";
    mkRule "GET" "/departments" [RoleWorkspaceAdmin; RoleWorkspaceMember] ScopeSelf
     "Principle 13 - Observability";
    mkRule "GET" "/departments/{id}" [RoleWorkspaceAdmin; RoleWorkspaceMember] ScopeSelf
     "Principle 10 - Privacy by Design";
    mkRule "PATCH" "/departments/{id}" [RoleWorkspaceAdmin] ScopeSelf
     "Principle 4 - Quality Over Speed";
    mkRule "DELETE" "/departments/{id}" [RoleWorkspaceAdmin] ScopeSelf
     "Principle 9 - Security by Design" ].

Definition implemented_teams : list Rule :=
  [ mkRule "POST" "/teams" [RoleWorkspaceAdmin] ScopeSelf
     "Principle 5 - Modular Design";
    mkRule "GET" "/teams" [RoleWorkspaceAdmin; RoleWorkspaceMember] ScopeSelf
     "Principle 13 - Observability";
    mkRule "GET" "/teams/{id}" [RoleWorkspaceAdmin; RoleWorkspaceMember] ScopeSelf
     "Principle 10 - Privacy by Design";
    mkRule "PATCH" "/teams/{id}" [RoleWorkspaceAdmin] ScopeSelf
     "Principle 4 - Quality Over Speed";
    mkRule "DELETE" "/teams/{id}" [RoleWorkspaceAdmin] ScopeSelf
     "Principle 9 - Security by Design" ].

Definition implemented_ai_employees : list Rule :=
  [ mkRule "POST" "/ai-employees" [RoleWorkspaceAdmin] ScopeSelf
     "Principle 5 - Modular Design";
    mkRule "GET" "/ai-employees" [RoleWorkspaceAdmin; RoleWorkspaceMember] ScopeSelf
     "Principle 13 - Observability";
    mkRule "GET" "/ai-employees/{id}" [RoleWorkspaceAdmin; RoleWorkspaceMember] ScopeSelf
     "Principle 10 - Privacy by Design";
    mkRule "PATCH" "/ai-employees/{id}" [RoleWorkspaceAdmin] ScopeSelf
     "Principle 4 - Quality Over Speed";
    mkRule "DELETE" "/ai-employees/{id}" [RoleWorkspaceAdmin] ScopeSelf
     "Principle 9 - Security by Design" ].

Definition ImplementedRules : list Rule :=
  implemented_profile_workspaces ++ implemented_audit ++ implemented_tasks ++ implemented_executions
  ++ implemented_knowledge ++ implemented_memory ++ implemented_departments ++ implemented_teams
  ++ implemented_ai_employees ++ publicationRules ++ pipelineRules.

(** ** What a token carries *)

Definition permissions_Founder : gmap string (list string) :=
  list_to_map
    [ ("GET", ["/api/me"; "/workspaces"; "/workspaces/{id}"; "/audit/events"; "/audit/verification";
        "/workspaces/{id}/audit/events"]);
      ("POST", ["/workspaces"]) ].

Definition permissions_WorkspaceAdmin : gmap string (list string) :=
  list_to_map
    [ ("GET", ["/api/me"; "/workspaces/{id}"; "/workspaces/{id}/audit/events"; "/tasks"; "/tasks/{id}";
        "/executions/{id}"; "/knowledge"; "/knowledge/{id}"; "/memory/{layer}/{key}"; "/publications";
        "/publications/{id}"; "/pipelines"; "/pipelines/{id}"; "/departments"; "/departments/{id}";
        "/teams"; "/teams/{id}"; "/ai-employees"; "/ai-employees/{id}"]);
      ("POST", ["/tasks"; "/tasks/{id}/transition"; "/tasks/{id}/execute"; "/executions/{id}/cancel";
          "/knowledge"; "/knowledge/search"; "/publications"; "/publications/{id}/submit";
          "/publications/{id}/approve"; "/publications/{id}/reject"; "/publications/{id}/publish";
          "/publications/{id}/retry"; "/pipelines"; "/pipelines/{id}/approve"; "/pipelines/{id}/retry";
          "/departments"; "/teams"; "/ai-employees"]);
      ("PATCH", ["/tasks/{id}"; "/knowledge/{id}"; "/departments/{id}"; "/teams/{id}"; "/ai-employees/{id}"]);
      ("PUT", ["/memory/{layer}/{key}"]);
      ("DELETE", ["/knowledge/{id}"; "/departments/{id}"; "/teams/{id}"; "/ai-employees/{id}"]) ].

Definition permissions_WorkspaceMember : gmap string (list string) :=
  list_to_map
    [ ("GET", ["/api/me"; "/workspaces/{id}/audit/events"; "/tasks"; "/tasks/{id}"; "/executions/{id}";
        "/knowledge"; "/knowledge/{id}"; "/memory/{layer}/{key}"; "/publications"; "/publications/{id}";
        "/pipelines"; "/pipelines/{id}"; "/departments"; "/departments/{id}"; "/teams"; "/teams/{id}";
        "/ai-employees"; "/ai-employees/{id}"]);
      ("POST", ["/tasks"; "/tasks/{id}/transition"; "/tasks/{id}/execute"; "/executions/{id}/cancel";
          "/knowledge"; "/knowledge/search"; "/publications"; "/publications/{id}/submit"; "/pipelines";
          "/pipelines/{id}/retry"]);
      ("PATCH", ["/tasks/{id}"; "/knowledge/{id}"]);
      ("PUT", ["/memory/{layer}/{key}"]);
      ("DELETE", ["/knowledge/{id}"]) ].

Definition PermissionsForRole (r : Role) : gmap string (list string) :=
  match r with
  | RoleFounder => permissions_Founder
  | RoleWorkspaceAdmin => permissions_WorkspaceAdmin
  | RoleWorkspaceMember => permissions_WorkspaceMember
  | RoleOther _ => ∅
  end.

(** ** internal/api/routes.go *)

Definition Routes : list (string * string) :=
  [ ("GET", "/health/live");
    ("GET", "/health/ready");
    ("POST", "/api/auth/bootstrap");
    ("POST", "/api/auth/login");
    ("POST", "/api/auth/refresh");
    ("POST", "/api/auth/logout");
    ("GET", "/api/me");
    ("GET", "/workspaces");
    ("POST", "/workspaces");
    ("GET", "/workspaces/{id}");
    ("GET", "/audit/events");
    ("GET", "/audit/verification");
    ("GET", "/workspaces/{id}/audit/events");
    ("POST", "/tasks");
    ("GET", "/tasks");
    ("GET", "/tasks/{id}");
    ("PATCH", "/tasks/{id}");
    ("POST", "/tasks/{id}/transition");
    ("POST", "/tasks/{id}/execute");
    ("GET", "/executions/{id}");
    ("POST", "/executions/{id}/cancel");
    ("POST", "/knowledge");
    ("GET", "/knowledge");
    ("GET", "/knowledge/{id}");
    ("PATCH", "/knowledge/{id}");
    ("DELETE", "/knowledge/{id}");
    ("POST", "/knowledge/search");
    ("POST", "/publications");
    ("GET", "/publications");
    ("GET", "/publications/{id}");
    ("POST", "/publications/{id}/submit");
    ("POST", "/publications/{id}/approve");
    ("POST", "/publications/{id}/reject");
    ("POST", "/publications/{id}/publish");
    ("POST", "/publications/{id}/retry");
    ("POST", "/pipelines");
    ("GET", "/pipelines");
    ("GET", "/pipelines/{id}");
    ("POST", "/pipelines/{id}/approve");
    ("POST", "/pipelines/{id}/retry");
    ("POST", "/departments");
    ("GET", "/departments");
    ("GET", "/departments/{id}");
    ("PATCH", "/departments/{id}");
    ("DELETE", "/departments/{id}");
    ("POST", "/teams");
    ("GET", "/teams");
    ("GET", "/teams/{id}");
    ("PATCH", "/teams/{id}");
    ("DELETE", "/teams/{id}");
    ("POST", "/ai-employees");
    ("GET", "/ai-employees");
    ("GET", "/ai-employees/{id}");
    ("PATCH", "/ai-employees/{id}");
    ("DELETE", "/ai-employees/{id}");
    ("GET", "/memory/{layer}/{key}");
    ("PUT", "/memory/{layer}/{key}") ].
