(* ===== verification/Authz.v ===== *)
(** * internal/authz: the deny-by-default enforcement point

    Route matching, the decision over verified claims, the shape of claims an
    access token may carry (internal/auth), and the middleware that lets a
    request through (main.go). *)

From S2P Require Import Prelude Rbac.

#[local] Open Scope string_scope.

(** ** Paths *)

Definition slash : Ascii.ascii := Ascii.ascii_of_nat 47.

Fixpoint drop_slashes (l : list Ascii.ascii) : list Ascii.ascii :=
  match l with
  | c :: l' => if Ascii.eqb c slash then drop_slashes l' else l
  | [] => []
  end.

(** [strings.Split(p, "/")] *)
Fixpoint split_slash (l : list Ascii.ascii) : list string :=
  match l with
  | [] => [""]
  | c :: l' =>
      if Ascii.eqb c slash then "" :: split_slash l'
      else match split_slash l' with
           | s :: ss => String.String c s :: ss
           | [] => [String.String c ""]
           end
  end.

(** [strings.Trim(p, "/")], then [strings.Split] *)
Definition splitPath (p : string) : list string :=
  let l := rev (drop_slashes (rev (drop_slashes (String.list_ascii_of_string p)))) in
  match l with [] => [] | _ => split_slash l end.

(** A [{name}] segment with a non-empty name. *)
Definition placeholder (segment : string) : bool :=
  Nat.ltb 2 (String.length segment) && String.prefix "{" segment
  && String.eqb (String.substring (String.length segment - 1) 1 segment) "}".

Fixpoint matchSegments (pSegs aSegs : list string) (captured : string) : option string :=
  match pSegs, aSegs with
  | [], [] => Some captured
  | segment :: pSegs', a :: aSegs' =>
      if placeholder segment then
        if String.eqb a "" then None
        else matchSegments pSegs' aSegs' (if String.eqb captured "" then a else captured)
      else if String.eqb segment a then matchSegments pSegs' aSegs' captured else None
  | _, _ => None
  end.

(** The first captured segment, when the pattern matches. *)
Definition matchResource (pattern actual : string) : option string :=
  matchSegments (splitPath pattern) (splitPath actual) "".

(** ** Claims (internal/auth) *)

Record Claims : Type := mkClaims {
  cl_ID : string;
  cl_Role : Role;
  cl_WorkspaceID : string;
  cl_Permissions : gmap string (list string)
}.

(** Only a claim set the system could have minted is accepted. *)
Definition validateClaimsShape (c : Claims) : bool :=
  negb (String.eqb (cl_ID c) "") && ValidRole (cl_Role c) &&
  match cl_Role c with
  | RoleFounder => String.eqb (cl_WorkspaceID c) ""
  | RoleWorkspaceAdmin | RoleWorkspaceMember => negb (String.eqb (cl_WorkspaceID c) "")
  | RoleOther _ => true
  end.

(** ** The decision *)

Definition hasRole (roles : list Role) (role : Role) : bool := bool_decide (role ∈ roles).

Definition hasPermission (c : Claims) (action resource : string) : bool :=
  match cl_Permissions c !! action with
  | None => false
  | Some perms => existsb (fun granted => bool_decide (is_Some (matchResource granted resource))) perms
  end.

Definition inScope (scope : WorkspaceScope) (captured claimsWorkspace : string) : bool :=
  match scope with
  | ScopeNone => true
  | ScopeSelf => negb (String.eqb claimsWorkspace "")
  | ScopePath => negb (String.eqb claimsWorkspace "") && negb (String.eqb captured "")
                 && String.eqb captured claimsWorkspace
  end.

(** The loop over the rules, in their order. *)
Fixpoint first_grant (rules : list Rule) (c : Claims) (action resource : string) : bool :=
  match rules with
  | [] => false
  | e :: rules' =>
      let continue := first_grant rules' c action resource in
      if negb (String.eqb (r_Action e) action) then continue
      else match matchResource (r_ResourcePattern e) resource with
      | None => continue
      | Some captured =>
          if negb (hasRole (r_Roles e) (cl_Role c)) then continue
          else if negb (hasPermission c action resource) then continue
          else if negb (inScope (r_Scope e) captured (cl_WorkspaceID c)) then continue
          else true
      end
  end.

(** [AuthorizeClaims]: is the request granted? *)
Definition AuthorizeClaims (rules : list Rule) (claims : option Claims) (action resource : string) : bool :=
  match claims with
  | None => false
  | Some c => if negb (ValidRole (cl_Role c)) then false else first_grant rules c action resource
  end.

(** ** main.go *)

(** The embedded assets of internal/webui *)
Definition Assets : list string := ["/"; "/assets/app.js"; "/assets/styles.css"].

Definition isPublicEndpoint (method path : string) : bool :=
  let get := String.eqb method "GET" || String.eqb method "HEAD" in
  if get && (String.eqb path "/health/live" || String.eqb path "/health/ready") then true
  else if String.eqb method "POST" && (String.eqb path "/api/auth/login" || String.eqb path "/api/auth/refresh"
          || String.eqb path "/api/auth/logout" || String.eqb path "/api/auth/bootstrap") then true
  else get && bool_decide (path ∈ Assets).

(** Does the middleware hand the request to its handler? *)
Definition authzMiddleware (rules : list Rule) (claims : option Claims) (method path : string) : bool :=
  if isPublicEndpoint method path then true else AuthorizeClaims rules claims method path.

(** ** Matching *)

(** A pattern is filled with one non-empty value per placeholder; the captured
    segment is the first value. *)
Inductive fills : list string -> list string -> list string -> Prop :=
| fills_nil : fills [] [] []
| fills_literal s ps vs ss : placeholder s = false -> fills ps vs ss -> fills (s :: ps) vs (s :: ss)
| fills_placeholder s v ps vs ss : placeholder s = true -> v <> "" -> fills ps vs ss ->
    fills (s :: ps) (v :: vs) (v :: ss).

Definition first_value (vs : list string) : string := match vs with v :: _ => v | [] => "" end.

Lemma matchSegments_fills ps ss captured r :
  matchSegments ps ss captured = Some r <->
  exists vs, fills ps vs ss /\ r = if String.eqb captured "" then first_value vs else captured.
Proof.
  revert ss captured r. induction ps as [|s ps IH]; intros [|a ss] captured r; simpl.
  - split.
    + intros [= <-]. exists []. split; [constructor|]. by destruct (String.eqb_spec captured "").
    + intros (vs & Hf & ->). inversion Hf. subst. simpl. by destruct (String.eqb_spec captured ""); subst.
  - split; [done|]. intros (vs & Hf & _). inversion Hf.
  - split; [done|]. intros (vs & Hf & _). inversion Hf.
  - destruct (placeholder s) eqn:Ep.
    + destruct (String.eqb_spec a "") as [->|Ha].
      { split; [done|]. intros (vs & Hf & _). inversion Hf; subst; congruence. }
      rewrite IH. split.
      * intros (vs & Hf & ->). exists (a :: vs). split; [by constructor|]. simpl.
        destruct (String.eqb_spec captured "") as [->|Hc].
        -- by destruct (String.eqb_spec a "").
        -- by destruct (String.eqb_spec captured "").
      * intros (vs & Hf & ->). inversion Hf; subst; [congruence|]. eexists. split; [done|]. simpl.
        destruct (String.eqb_spec captured "") as [->|Hc].
        -- by destruct (String.eqb_spec a "").
        -- by destruct (String.eqb_spec captured "").
    + destruct (String.eqb_spec s a) as [->|Hne].
      * rewrite IH. split; intros (vs & Hf & ->); exists vs; (split; [|done]); [by constructor|].
        inversion Hf; subst; [done|congruence].
      * split; [done|]. intros (vs & Hf & _). inversion Hf; subst; congruence.
Qed.

(** Route matching is exact: a pattern matches a path exactly when the
    path's segments are the pattern's with every placeholder replaced by one
    non-empty segment, and the segment it captures is the first replacement. *)
Theorem matchResource_fills pattern actual captured :
  matchResource pattern actual = Some captured <->
  exists vs, fills (splitPath pattern) vs (splitPath actual) /\ captured = first_value vs.
Proof. apply matchSegments_fills. Qed.

(** ** The decision as a specification *)

(** What a rule grants to whom. *)
Definition grants (r : Rule) (c : Claims) (action resource : string) : Prop :=
  r_Action r = action /\ cl_Role c ∈ r_Roles r /\
  (exists perms granted, cl_Permissions c !! action = Some perms /\ granted ∈ perms /\
     is_Some (matchResource granted resource)) /\
  exists captured, matchResource (r_ResourcePattern r) resource = Some captured /\
    match r_Scope r with
    | ScopeNone => True
    | ScopeSelf => cl_WorkspaceID c <> ""
    | ScopePath => cl_WorkspaceID c <> "" /\ captured = cl_WorkspaceID c
    end.

Lemma hasPermission_spec c action resource : hasPermission c action resource = true <->
  exists perms granted, cl_Permissions c !! action = Some perms /\ granted ∈ perms /\
    is_Some (matchResource granted resource).
Proof.
  unfold hasPermission. destruct (cl_Permissions c !! action) as [perms|]; [|naive_solver].
  rewrite existsb_exists. split.
  - intros (g & Hg & Hm). bool_prop. exists perms, g. split_and!; [done|by apply list_elem_of_In|done].
  - intros (ps & g & [= <-] & Hg & Hm). exists g. split; [by apply list_elem_of_In|]. by apply bool_decide_eq_true_2.
Qed.

Lemma inScope_spec scope captured ws : inScope scope captured ws = true <->
  match scope with
  | ScopeNone => True
  | ScopeSelf => ws <> ""
  | ScopePath => ws <> "" /\ captured = ws
  end.
Proof.
  destruct scope; simpl; [done| |].
  - destruct (String.eqb_spec ws ""); naive_solver.
  - destruct (String.eqb_spec ws ""), (String.eqb_spec captured ""), (String.eqb_spec captured ws); naive_solver.
Qed.

Lemma first_grant_spec rules c action resource :
  first_grant rules c action resource = true <-> Exists (fun r => grants r c action resource) rules.
Proof.
  induction rules as [|r rules IH]; simpl; [split; [done|intros Hx; inversion Hx]|].
  rewrite Exists_cons, <-IH. unfold grants.
  destruct (String.eqb_spec (r_Action r) action) as [Ha|Ha]; simpl; [|naive_solver].
  destruct (matchResource (r_ResourcePattern r) resource) as [captured|]; [|naive_solver].
  unfold hasRole. destruct (bool_decide_reflect (cl_Role c ∈ r_Roles r)); simpl; [|naive_solver].
  rewrite <-hasPermission_spec. destruct (hasPermission c action resource); simpl; [|naive_solver].
  pose proof (inScope_spec (r_Scope r) captured (cl_WorkspaceID c)) as Hs.
  destruct (inScope (r_Scope r) captured (cl_WorkspaceID c)); simpl; naive_solver.
Qed.

(** C12. Deny by default: a request is granted exactly when the caller presents
    claims with one of the three roles and some explicit rule for the method
    and route allows the role, the token carries a permission for it, and the
    rule's workspace binding is met - for a path-bound rule by the workspace of
    the token, and no other.  Everything else is denied. *)
Theorem authorize_spec rules claims action resource :
  AuthorizeClaims rules claims action resource = true <->
  exists c, claims = Some c /\ ValidRole (cl_Role c) = true /\
    Exists (fun r => grants r c action resource) rules.
Proof.
  unfold AuthorizeClaims. destruct claims as [c|]; [|naive_solver].
  destruct (ValidRole (cl_Role c)) eqn:Hv; simpl; [rewrite first_grant_spec|]; naive_solver.
Qed.
