(* ===== verification/AuthzProps.v ===== *)
(** * What the seeded authorization rules guarantee

    The tables agree with each other, tenants are isolated, founders stay out
    of tenant data, and the human decisions belong to workspace admins. *)

From Stdlib Require Import Btauto.
From S2P Require Import Prelude Rbac Authz.

#[local] Open Scope string_scope.

(** ** The tables against each other *)

Definition roles : list Role := [RoleFounder; RoleWorkspaceAdmin; RoleWorkspaceMember].

Definition minted_for (role : Role) (action pattern : string) : bool :=
  match PermissionsForRole role !! action with
  | Some ps => bool_decide (pattern ∈ ps)
  | None => false
  end.

(** Every role of every rule has the rule's pattern in its permissions. *)
Definition rules_minted (rules : list Rule) : bool :=
  forallb (fun r => forallb (fun role => minted_for role (r_Action r) (r_ResourcePattern r)) (r_Roles r)) rules.

Definition ruled (rules : list Rule) (role : Role) (action pattern : string) : bool :=
  existsb (fun r => String.eqb (r_Action r) action && String.eqb (r_ResourcePattern r) pattern
                    && bool_decide (role ∈ r_Roles r)) rules.

(** Every permission of every role has a rule. *)
Definition permissions_ruled (rules : list Rule) : bool :=
  forallb (fun role => forallb (fun kv => forallb (ruled rules role kv.1) kv.2)
    (map_to_list (PermissionsForRole role))) roles.

Lemma implemented_minted : rules_minted ImplementedRules = true.
Proof. vm_compute. reflexivity. Qed.

Lemma implemented_ruled : permissions_ruled ImplementedRules = true.
Proof. vm_compute. reflexivity. Qed.

(** A token as the server mints it. *)
Definition minted (c : Claims) : Prop := cl_Permissions c = PermissionsForRole (cl_Role c).

Lemma rules_minted_spec rules r role : rules_minted rules = true -> r ∈ rules -> role ∈ r_Roles r ->
  exists perms, PermissionsForRole role !! r_Action r = Some perms /\ r_ResourcePattern r ∈ perms.
Proof.
  unfold rules_minted. rewrite forallb_forall. intros Hall Hr Hrole.
  specialize (Hall r (proj1 (list_elem_of_In _ _) Hr)). rewrite forallb_forall in Hall.
  specialize (Hall role (proj1 (list_elem_of_In _ _) Hrole)). unfold minted_for in Hall.
  destruct (PermissionsForRole role !! r_Action r) as [ps|]; [|done]. bool_prop. by exists ps.
Qed.

(** Tokens and rules agree: for a token the server minted, the permission
    check never decides anything the rules do not - a request is granted
    exactly when an implemented rule covers its method and route for the role
    and workspace - and no token carries a permission without such a rule. *)
Theorem minted_permissions_exact :
  (forall c action resource, minted c ->
     AuthorizeClaims ImplementedRules (Some c) action resource = true <->
     exists r captured, r ∈ ImplementedRules /\ r_Action r = action /\ cl_Role c ∈ r_Roles r /\
       matchResource (r_ResourcePattern r) resource = Some captured /\
       inScope (r_Scope r) captured (cl_WorkspaceID c) = true) /\
  (forall role action perms pattern, PermissionsForRole role !! action = Some perms -> pattern ∈ perms ->
     exists r, r ∈ ImplementedRules /\ r_Action r = action /\ r_ResourcePattern r = pattern /\ role ∈ r_Roles r).
Proof.
  split.
  - intros c action resource Hm. unfold AuthorizeClaims.
    assert (forall r, r ∈ ImplementedRules -> cl_Role c ∈ r_Roles r -> ValidRole (cl_Role c) = true) as Hvalid.
    { intros r Hr Hrole. destruct (rules_minted_spec _ r _ implemented_minted Hr Hrole) as (ps & Hps & _).
      destruct (cl_Role c); [reflexivity..|]. change (PermissionsForRole (RoleOther s)) with (∅ : gmap string (list string)) in Hps.
      rewrite lookup_empty in Hps. discriminate. }
    split.
    + destruct (ValidRole (cl_Role c)); [|discriminate]. cbn [negb]. rewrite first_grant_spec, Exists_exists.
      intros (r & Hr & Ha & Hrole & _ & captured & Hc & Hs). exists r, captured. split_and!; try done.
      by apply inScope_spec.
    + intros (r & captured & Hr & Ha & Hrole & Hc & Hs). rewrite (Hvalid r Hr Hrole). cbn [negb].
      apply first_grant_spec, Exists_exists. exists r. split; [done|]. unfold grants. split_and!; try done.
      * destruct (rules_minted_spec _ r _ implemented_minted Hr Hrole) as (ps & Hps & Hin).
        exists ps, (r_ResourcePattern r). rewrite Hm, <-Ha. split_and!; [done|done|by eexists].
      * exists captured. split; [done|]. by apply inScope_spec.
  - intros role action perms pattern Hp Hin. pose proof implemented_ruled as Hall. unfold permissions_ruled in Hall.
    rewrite forallb_forall in Hall.
    assert (In role roles) as Hrole.
    { destruct role; [left; reflexivity|right; left; reflexivity|right; right; left; reflexivity|].
      change (PermissionsForRole (RoleOther s)) with (∅ : gmap string (list string)) in Hp.
      rewrite lookup_empty in Hp. discriminate. }
    specialize (Hall role Hrole). rewrite forallb_forall in Hall.
    specialize (Hall (action, perms) ltac:(by apply list_elem_of_In, elem_of_map_to_list)). simpl in Hall.
    rewrite forallb_forall in Hall. specialize (Hall pattern (proj1 (list_elem_of_In _ _) Hin)).
    unfold ruled in Hall. apply existsb_exists in Hall as (r & Hr & Hb). bool_prop.
    exists r. split_and!; [by apply list_elem_of_In|done..].
Qed.

(** ** Tenants *)

Lemma granted_rule c action resource : AuthorizeClaims ImplementedRules (Some c) action resource = true ->
  exists r, r ∈ ImplementedRules /\ grants r c action resource.
Proof.
  intros Hg. unfold AuthorizeClaims in Hg. destruct (ValidRole _); [|discriminate]. cbn [negb] in Hg.
  by apply first_grant_spec, Exists_exists in Hg.
Qed.

(** Under [/workspaces/...] a rule for anybody but the founder binds the path's
    workspace. *)
Definition workspace_bound (r : Rule) : bool :=
  match splitPath (r_ResourcePattern r) with
  | s1 :: s2 :: _ =>
      negb (placeholder s1) &&
      (negb (String.eqb s1 "workspaces") || forallb (fun role => bool_decide (role = RoleFounder)) (r_Roles r)
       || (bool_decide (r_Scope r = ScopePath) && placeholder s2))
  | _ => true
  end.

Lemma implemented_bound r : r ∈ ImplementedRules -> workspace_bound r = true.
Proof.
  assert (forallb workspace_bound ImplementedRules = true) as Hall by (vm_compute; reflexivity).
  rewrite forallb_forall in Hall. intros Hr. by apply Hall, list_elem_of_In.
Qed.

(** C11. Tenant isolation: whatever the token carries, nobody but the founder is
    ever granted a request under a workspace's path other than the workspace of
    their own token. *)
Theorem tenant_isolation c action resource w rest :
  cl_Role c <> RoleFounder -> splitPath resource = "workspaces" :: w :: rest ->
  AuthorizeClaims ImplementedRules (Some c) action resource = true -> w = cl_WorkspaceID c.
Proof.
  intros Hf Hp (r & Hr & Hg)%granted_rule. destruct Hg as (_ & Hrole & _ & captured & Hm & Hs).
  apply matchResource_fills in Hm as (vs & Hfill & Hcap). rewrite Hp in Hfill.
  pose proof (implemented_bound r Hr) as Hb. unfold workspace_bound in Hb.
  destruct (splitPath (r_ResourcePattern r)) as [|s1 [|s2 ps]]; [by inversion Hfill| |].
  { inversion Hfill as [|? ? ? ? ? H'|? ? ? ? ? ? ? H']; inversion H'. }
  apply andb_true_iff in Hb as [Hb1 Hb2]. apply negb_true_iff in Hb1.
  inversion Hfill as [|? ? ? ? _ H'|? ? ? ? ? H1]; subst; [|congruence].
  simpl in Hb2. apply orb_true_iff in Hb2 as [Hb2|Hb2].
  - rewrite forallb_forall in Hb2. specialize (Hb2 _ (proj1 (list_elem_of_In _ _) Hrole)). by bool_prop.
  - bool_prop. match goal with E : r_Scope r = ScopePath |- _ => rewrite E in Hs end. destruct Hs as [_ <-].
    inversion H' as [|? ? ? ? E2|]; subst; [congruence|done].
Qed.

(** The founder stays out of tenant data: with claims the token check
    accepts, a founder is only ever granted the profile, the workspace
    administration and the audit routes. *)
Theorem founder_confined c action resource :
  cl_Role c = RoleFounder -> validateClaimsShape c = true ->
  AuthorizeClaims ImplementedRules (Some c) action resource = true ->
  exists s rest, splitPath resource = s :: rest /\ s ∈ ["api"; "workspaces"; "audit"].
Proof.
  intros Hf Hv (r & Hr & Hg)%granted_rule. destruct Hg as (_ & Hrole & _ & captured & Hm & Hs).
  apply matchResource_fills in Hm as (vs & Hfill & _). rewrite Hf in Hrole.
  assert (cl_WorkspaceID c = "") as Hw.
  { unfold validateClaimsShape in Hv. rewrite Hf in Hv. bool_prop. done. }
  assert (forallb (fun r => negb (bool_decide (RoleFounder ∈ r_Roles r)) || negb (bool_decide (r_Scope r = ScopeNone)) ||
    match splitPath (r_ResourcePattern r) with
    | s :: _ => negb (placeholder s) && bool_decide (s ∈ ["api"; "workspaces"; "audit"]) | [] => false end)
    ImplementedRules = true) as Hall by (vm_compute; reflexivity).
  rewrite forallb_forall in Hall. specialize (Hall r (proj1 (list_elem_of_In _ _) Hr)).
  assert (r_Scope r = ScopeNone) as HS by (destruct (r_Scope r); [done|by rewrite Hw in Hs|rewrite Hw in Hs; by destruct Hs]).
  rewrite (bool_decide_eq_true_2 _ Hrole), (bool_decide_eq_true_2 _ HS) in Hall. simpl in Hall.
  destruct (splitPath (r_ResourcePattern r)) as [|s ps]; [done|]. bool_prop.
  inversion Hfill; subst; [|congruence]. by eexists _, _.
Qed.

(** The human decisions are an admin's: approving, rejecting or publishing a
    publication, and approving a pipeline, is only ever granted to a workspace
    admin bound to a workspace. *)
Theorem decisions_need_admin c resource collection id verb :
  splitPath resource = [collection; id; verb] -> collection ∈ ["publications"; "pipelines"] ->
  verb ∈ ["approve"; "reject"; "publish"] ->
  AuthorizeClaims ImplementedRules (Some c) "POST" resource = true ->
  cl_Role c = RoleWorkspaceAdmin /\ cl_WorkspaceID c <> "".
Proof.
  intros Hp Hcol Hverb (r & Hr & Hg)%granted_rule. destruct Hg as (Ha & Hrole & _ & captured & Hm & Hs).
  apply matchResource_fills in Hm as (vs & Hfill & _). rewrite Hp in Hfill.
  assert (forallb (fun r => match splitPath (r_ResourcePattern r) with
    | [s1; s2; s3] =>
        negb (placeholder s1) && (negb (bool_decide (s1 ∈ ["publications"; "pipelines"])) ||
          (negb (placeholder s3) && (negb (bool_decide (s3 ∈ ["approve"; "reject"; "publish"])) ||
            (bool_decide (r_Scope r = ScopeSelf) && forallb (fun role => bool_decide (role = RoleWorkspaceAdmin)) (r_Roles r)))))
    | _ => true end) ImplementedRules = true) as Hall by (vm_compute; reflexivity).
  rewrite forallb_forall in Hall. specialize (Hall r (proj1 (list_elem_of_In _ _) Hr)).
  destruct (splitPath (r_ResourcePattern r)) as [|s1 [|s2 [|s3 [|s4 ps]]]];
    try (by repeat match goal with F : fills _ _ _ |- _ => inversion F; subst; clear F end).
  apply andb_true_iff in Hall as [H1 Hall]. apply negb_true_iff in H1.
  assert (s1 = collection) as -> by (inversion Hfill; subst; congruence).
  rewrite (bool_decide_eq_true_2 _ Hcol) in Hall. simpl in Hall. apply andb_true_iff in Hall as [H3 Hall].
  apply negb_true_iff in H3.
  assert (s3 = verb) as ->.
  { repeat match goal with F : fills (_ :: _) _ _ |- _ => inversion F; subst; clear F end; congruence. }
  rewrite (bool_decide_eq_true_2 _ Hverb) in Hall. simpl in Hall. bool_prop.
  match goal with E : r_Scope r = _ |- _ => rewrite E in Hs end. split; [|done].
  match goal with E : forallb _ _ = true |- _ => rewrite forallb_forall in E;
    specialize (E _ (proj1 (list_elem_of_In _ _) Hrole)) end. by bool_prop.
Qed.

(** ** The served surface *)

Definition public_paths : list (string * string) :=
  [("GET", "/health/live"); ("HEAD", "/health/live"); ("GET", "/health/ready"); ("HEAD", "/health/ready");
   ("POST", "/api/auth/login"); ("POST", "/api/auth/refresh"); ("POST", "/api/auth/logout");
   ("POST", "/api/auth/bootstrap")]
  ++ map (pair "GET") Assets ++ map (pair "HEAD") Assets.

Lemma elem_of_pairs (m p : string) l : (m, p) ∈ l <-> existsb (fun mp => String.eqb m mp.1 && String.eqb p mp.2) l = true.
Proof.
  rewrite existsb_exists. split.
  - intros Hin. exists (m, p). split; [by apply list_elem_of_In|]. cbn [fst snd]. by rewrite !String.eqb_refl.
  - intros ([m' p'] & Hin & Hb). cbn [fst snd] in Hb. bool_prop. subst. by apply list_elem_of_In.
Qed.

Lemma elem_of_strings (p : string) l : bool_decide (p ∈ l) = existsb (String.eqb p) l.
Proof.
  apply eq_true_iff_eq. rewrite bool_decide_eq_true, existsb_exists. split.
  - intros Hin. exists p. split; [by apply list_elem_of_In|apply String.eqb_refl].
  - intros (q & Hin & Hb). bool_prop. subst. by apply list_elem_of_In.
Qed.

Lemma isPublicEndpoint_spec m p : isPublicEndpoint m p = true <-> (m, p) ∈ public_paths.
Proof.
  rewrite elem_of_pairs. apply eq_iff_eq_true. unfold isPublicEndpoint, public_paths. rewrite elem_of_strings.
  cbn [existsb app map fst snd Assets]. btauto.
Qed.

(** The surface is closed: every route the server registers is public by
    name or covered by an implemented rule with its exact method and pattern;
    every implemented rule belongs to a registered route; the public endpoints
    are exactly fourteen method and path pairs, none of which a rule covers. *)
Theorem surface_coherent :
  (forall m p, (m, p) ∈ Routes ->
     isPublicEndpoint m p = true \/
     exists r, r ∈ ImplementedRules /\ r_Action r = m /\ r_ResourcePattern r = p) /\
  (forall r, r ∈ ImplementedRules -> (r_Action r, r_ResourcePattern r) ∈ Routes) /\
  (forall m p, isPublicEndpoint m p = true <-> (m, p) ∈ public_paths) /\
  (forall m p r, (m, p) ∈ public_paths -> r ∈ ImplementedRules -> r_Action r = m ->
     matchResource (r_ResourcePattern r) p = None).
Proof.
  split_and!.
  - intros m p Hr.
    assert (forallb (fun mp => isPublicEndpoint mp.1 mp.2 ||
      existsb (fun r => String.eqb (r_Action r) mp.1 && String.eqb (r_ResourcePattern r) mp.2) ImplementedRules)
      Routes = true) as Hall by (vm_compute; reflexivity).
    rewrite forallb_forall in Hall. specialize (Hall (m, p) (proj1 (list_elem_of_In _ _) Hr)). cbn [fst snd] in Hall.
    apply orb_true_iff in Hall as [Hall|Hall]; [by left|right].
    apply existsb_exists in Hall as (r & Hin & Hb). bool_prop. exists r. split_and!; [by apply list_elem_of_In|done..].
  - intros r Hr.
    assert (forallb (fun r => bool_decide ((r_Action r, r_ResourcePattern r) ∈ Routes)) ImplementedRules = true) as Hall
      by (vm_compute; reflexivity).
    rewrite forallb_forall in Hall. specialize (Hall r (proj1 (list_elem_of_In _ _) Hr)). by bool_prop.
  - apply isPublicEndpoint_spec.
  - intros m p r Hin Hr Ha.
    assert (forallb (fun mp => forallb (fun r => negb (String.eqb (r_Action r) mp.1) ||
      bool_decide (matchResource (r_ResourcePattern r) mp.2 = None)) ImplementedRules) public_paths = true) as Hall
      by (vm_compute; reflexivity).
    rewrite forallb_forall in Hall. specialize (Hall (m, p) (proj1 (list_elem_of_In _ _) Hin)).
    rewrite forallb_forall in Hall. specialize (Hall r (proj1 (list_elem_of_In _ _) Hr)). cbn [fst snd] in Hall.
    rewrite Ha, String.eqb_refl in Hall. cbn [negb orb] in Hall. by bool_prop.
Qed.

(** The declared contract is incomplete: the four audit rules are seeded into
    the runtime authorizer although the declared protection surface does not
    list them; every other implemented rule is declared. *)
Theorem implemented_not_declared :
  filter (fun r => r ∉ Rules) ImplementedRules = implemented_audit /\ length implemented_audit = 4.
Proof. split; vm_compute; reflexivity. Qed.

(** ** Callers *)

Definition admin_of (ws : string) : Claims :=
  mkClaims "u1" RoleWorkspaceAdmin ws (PermissionsForRole RoleWorkspaceAdmin).
Definition the_founder : Claims := mkClaims "u0" RoleFounder "" (PermissionsForRole RoleFounder).

Lemma tenant_isolation_witness : "ws-1" = cl_WorkspaceID (admin_of "ws-1").
Proof.
  apply (tenant_isolation (admin_of "ws-1") "GET" "/workspaces/ws-1" "ws-1" []); [discriminate|reflexivity|].
  vm_compute. reflexivity.
Defined.

Example other_tenant_denied : AuthorizeClaims ImplementedRules (Some (admin_of "ws-1")) "GET" "/workspaces/ws-2" = false.
Proof. vm_compute. reflexivity. Qed.

Lemma founder_confined_witness :
  exists s rest, splitPath "/workspaces/ws-2/audit/events" = s :: rest /\ s ∈ ["api"; "workspaces"; "audit"].
Proof. apply (founder_confined the_founder "GET"); [reflexivity|reflexivity|vm_compute; reflexivity]. Defined.

Lemma decisions_need_admin_witness :
  cl_Role (admin_of "ws-1") = RoleWorkspaceAdmin /\ cl_WorkspaceID (admin_of "ws-1") <> "".
Proof.
  apply (decisions_need_admin (admin_of "ws-1") "/publications/p1/approve" "publications" "p1" "approve").
  - vm_compute. reflexivity.
  - left.
  - left.
  - vm_compute. reflexivity.
Defined.

(** The decision itself does not look at the pairing of role and workspace: a
    claim set the token check refuses is still granted organization-level
    routes. *)
Example pairing_not_checked :
  let c := mkClaims "u1" RoleWorkspaceAdmin "" (PermissionsForRole RoleWorkspaceAdmin) in
  validateClaimsShape c = false /\ AuthorizeClaims ImplementedRules (Some c) "GET" "/api/me" = true.
Proof. split; vm_compute; reflexivity. Qed.
