(* ===== verification/AuditChain.v ===== *)
(** * internal/audit and infrastructure/auditstore: the audit chain

    The canonical pre-images, the hash links, the keyed tags and the
    verification of a chain (internal/audit/audit.go), and the store that
    appends to it under its lock (infrastructure/auditstore/store.go). *)

From S2P Require Import Prelude GoLib.

(** ** time.Time in UTC and its RFC3339Nano text *)

Record UTC : Type := mkUTC {
  t_year : Z; t_month : Z; t_day : Z; t_hour : Z; t_min : Z; t_sec : Z; t_nsec : Z
}.

(** The fields of an instant of the years 0 to 9999. *)
Definition utc_ok (t : UTC) : Prop :=
  (0 <= t_year t < 10000 /\ 0 <= t_month t < 100 /\ 0 <= t_day t < 100 /\ 0 <= t_hour t < 100 /\
   0 <= t_min t < 100 /\ 0 <= t_sec t < 100 /\ 0 <= t_nsec t < 1000000000)%Z.

#[export] Instance utc_ok_dec t : Decision (utc_ok t).
Proof. unfold utc_ok. apply _. Defined.

(** [n] decimal digits, most significant first. *)
Fixpoint digits (n : nat) (z : Z) : list Z :=
  match n with
  | O => []
  | S n' => digits n' (z / 10) ++ [(48 + z mod 10)%Z]
  end.

Fixpoint strip_zeros (l : list Z) : list Z :=
  match l with
  | [] => []
  | d :: l' => match strip_zeros l' with [] => if (d =? 48)%Z then [] else [d] | r => d :: r end
  end.

(** The fraction of [.999999999]: no trailing zeros, and no dot without digits. *)
Definition fraction (nsec : Z) : list Z :=
  match strip_zeros (digits 9 nsec) with [] => [] | r => 46%Z :: r end.

(** [Format(time.RFC3339Nano)] *)
Definition Format (t : UTC) : string :=
  of_bytes (digits 4 (t_year t) ++ [45%Z] ++ digits 2 (t_month t) ++ [45%Z] ++ digits 2 (t_day t) ++ [84%Z]
    ++ digits 2 (t_hour t) ++ [58%Z] ++ digits 2 (t_min t) ++ [58%Z] ++ digits 2 (t_sec t)
    ++ fraction (t_nsec t) ++ [90%Z]).

Example format_nanos : Format (mkUTC 2026 3 9 7 5 0 120000000) = "2026-03-09T07:05:00.12Z"%string.
Proof. reflexivity. Qed.
Example format_whole : Format (mkUTC 2026 12 31 23 59 59 0) = "2026-12-31T23:59:59Z"%string.
Proof. reflexivity. Qed.

(** ** crypto/hmac over SHA-256 *)

Definition pad_key (key : list Z) : list Z :=
  let k := if Nat.ltb 64 (length key) then sha256_Sum256 key else key in
  k ++ replicate (64 - length k) 0%Z.
Definition xor_pad (p : Z) (k : list Z) : list Z := map (fun b => Z.lxor b p) k.

Definition hmac_sha256 (key msg : list Z) : list Z :=
  sha256_Sum256 (xor_pad 92 (pad_key key) ++ sha256_Sum256 (xor_pad 54 (pad_key key) ++ msg)).

Example hmac_rfc4231 : hex_EncodeToString (hmac_sha256 (bytes "Jefe") (bytes "what do ya want for nothing?"))
  = "5bdcc146bf60754e6a042426089575c75a003f089d2739839dec58b964ec3843"%string.
Proof. vm_compute. reflexivity. Qed.

(** ** Events *)

Record AuditEvent : Type := mkEvent {
  e_ID : uuid;
  e_EventID : uuid;
  e_Timestamp : UTC;
  e_TraceID : uuid;
  e_SpanID : uuid;
  e_ActorType : string;
  e_ActorID : uuid;
  e_TargetType : string;
  e_TargetID : uuid;
  e_EventType : string;
  e_Outcome : string;
  e_HashParent : uuid;
  e_HashValue : list Z;
  e_DigitalSignature : list Z;
  e_Genesis : bool;
  e_ConstitutionalPrinciple : string
}.

Definition GENESIS_HASH : string := "0000000000000000000000000000000000000000000000000000000000000000".

(** One length-prefixed field. *)
Definition writeField (s : string) : string :=
  strconv_Itoa (Z.of_nat (String.length s)) +:+ ":" +:+ s +:+ ",".

Definition writeFields (l : list string) : string := fold_right (fun s b => writeField s +:+ b) ""%string l.

Definition FormatBool (b : bool) : string := if b then "true" else "false".

Definition genesis_fields (ev : AuditEvent) : list string :=
  [GENESIS_HASH; Format (e_Timestamp ev); e_Outcome ev; e_ConstitutionalPrinciple ev].

Definition GenesisPreimage (ev : AuditEvent) : string := writeFields (genesis_fields ev).

Section chain.
Context `{UuidText}.

Definition chain_fields (prev ev : AuditEvent) : list string :=
  [uuid_String (e_EventID prev); hex_EncodeToString (e_HashValue prev); Format (e_Timestamp prev);
   FormatBool (e_Genesis prev);
   uuid_String (e_EventID ev); Format (e_Timestamp ev); e_EventType ev; e_ActorType ev; uuid_String (e_ActorID ev);
   e_TargetType ev; uuid_String (e_TargetID ev); e_Outcome ev; e_ConstitutionalPrinciple ev].

Definition ChainPreimage (prev ev : AuditEvent) : string := writeFields (chain_fields prev ev).

Variable key : list Z.  (* the configured JWT secret *)

Definition signHash (hashValue : list Z) : list Z := hmac_sha256 key hashValue.

(** A new event with its hash and its tag. *)
Definition sealed (ev : AuditEvent) (preimage : string) : AuditEvent :=
  let h := sha256_Sum256 (bytes preimage) in
  mkEvent (e_ID ev) (e_EventID ev) (e_Timestamp ev) (e_TraceID ev) (e_SpanID ev) (e_ActorType ev) (e_ActorID ev)
    (e_TargetType ev) (e_TargetID ev) (e_EventType ev) (e_Outcome ev) (e_HashParent ev) h (signHash h)
    (e_Genesis ev) (e_ConstitutionalPrinciple ev).

(** [id] and [event] are the identifiers drawn by [uuid.New]. *)
Definition GenesisEvent (principal : string) (id event : uuid) (now : UTC) : AuditEvent :=
  let ev := mkEvent id event now uuid_Nil uuid_Nil "" uuid_Nil "" uuid_Nil "" "genesis" uuid_Nil [] [] true principal in
  sealed ev (GenesisPreimage ev).

Definition AppendEvent (prev : AuditEvent) (eventType actorType : string) (actorID : uuid) (targetType : string)
    (targetID : uuid) (outcome principal : string) (id event : uuid) (now : UTC) : AuditEvent :=
  let parentUUID := if negb (e_ID prev =? uuid_Nil)%N then e_ID prev else uuid_Nil in
  let ev := mkEvent id event now uuid_Nil uuid_Nil actorType actorID targetType targetID eventType outcome
              parentUUID [] [] false principal in
  sealed ev (ChainPreimage prev ev).

(** *** Verification *)

Definition hmac_Equal (a b : list Z) : bool := bool_decide (a = b).

Definition verifies_root (event : AuditEvent) : bool :=
  e_Genesis event && hmac_Equal (e_HashValue event) (sha256_Sum256 (bytes (GenesisPreimage event)))
  && hmac_Equal (e_DigitalSignature event) (signHash (e_HashValue event)).

Definition verifies_link (prev event : AuditEvent) : bool :=
  hmac_Equal (e_HashValue event) (sha256_Sum256 (bytes (ChainPreimage prev event)))
  && hmac_Equal (e_DigitalSignature event) (signHash (e_HashValue event)).

Fixpoint verify_from (prev : AuditEvent) (events : list AuditEvent) : bool :=
  match events with
  | [] => true
  | event :: events' => verifies_link prev event && verify_from event events'
  end.

Definition VerifyHashChain (events : list AuditEvent) : bool :=
  match events with
  | [] => false
  | root :: events' => verifies_root root && verify_from root events'
  end.

(** ** infrastructure/auditstore/store.go *)

Record AuditInput : Type := mkRecord {
  i_EventType : string;
  i_ActorType : string;
  i_ActorID : uuid;
  i_TargetType : string;
  i_TargetID : uuid;
  i_Outcome : string;
  i_Principle : string;
  i_WorkspaceID : option uuid;
  i_TraceID : uuid;
  i_SpanID : uuid
}.

(** The audit_events table in the order of [seq]: an event and its workspace. *)
Definition Table : Type := list (AuditEvent * option uuid).

Inductive audit_err : Type := ErrIncomplete | ErrNoGenesis | ErrDB (msg : string).

(** What the environment of a transaction provides: identifiers, the clock and
    the outcome of the transaction; what the other writers committed before the
    lock was granted is in [at_others]. *)
Record AuditTick : Type := mkTick {
  at_id : uuid; at_event : uuid; at_now : UTC; at_others : Table -> Table; at_fault : Fault
}.

(** One transaction holding [pg_advisory_xact_lock]. *)
Definition locked {A} (t : AuditTick) (op : Table -> res audit_err (A * Table)) (tbl : Table)
  : res audit_err A * Table :=
  run_tx ErrDB (mkTxTick 0 (at_others t) (at_fault t)) (fun _ => op) tbl.

Definition loadHead (tbl : Table) : option AuditEvent := option_map fst (last tbl).

(** [Append] *)
Definition Append (t : AuditTick) (rec : AuditInput) (tbl : Table) : res audit_err AuditEvent * Table :=
  if String.eqb (i_EventType rec) "" || String.eqb (i_Outcome rec) "" || String.eqb (i_Principle rec) ""
  then (Err ErrIncomplete, tbl)
  else locked t (fun tbl =>
    match loadHead tbl with
    | None => Err ErrNoGenesis
    | Some head =>
        let ev := AppendEvent head (i_EventType rec) (i_ActorType rec) (i_ActorID rec) (i_TargetType rec)
                    (i_TargetID rec) (i_Outcome rec) (i_Principle rec) (at_id t) (at_event t) (at_now t) in
        Ok (ev, tbl ++ [(ev, i_WorkspaceID rec)])
    end) tbl.

(** [New]: look for a head, and plant a root in an empty table.  The two are
    separate transactions. *)
Definition NewStore (t1 t2 : AuditTick) (tbl : Table) : res audit_err AuditEvent * Table :=
  match locked t1 (fun tbl => Ok (loadHead tbl, tbl)) tbl with
  | (Err e, tbl) => (Err e, tbl)
  | (Ok (Some head), tbl) => (Ok head, tbl)
  | (Ok None, tbl) =>
      let genesis := GenesisEvent "Security by Design" (at_id t2) (at_event t2) (at_now t2) in
      locked t2 (fun tbl => Ok (genesis, tbl ++ [(genesis, None)])) tbl
  end.

Definition Chain (tbl : Table) : list AuditEvent := map fst tbl.
Definition Verify (tbl : Table) : bool := VerifyHashChain (Chain tbl).
End chain.
