(* ===== verification/AuditProps.v ===== *)
(** * What the audit chain guarantees

    The pre-images are injective encodings, so a verified chain is bound by
    the hash of its last event; with the keyed tags, a history edited by
    someone without the key verifies only when it is a truncation; and the
    store keeps the chain verified under every interleaving of its writers,
    except for the two roots of a first boot. *)

From S2P Require Import Prelude GoLib AuditChain.

(** ** The timestamp text is injective *)

Lemma digits_length n z : length (digits n z) = n.
Proof. revert z. induction n as [|n IH]; intros z; [done|]. simpl. rewrite length_app, IH. simpl. lia. Qed.

Lemma digits_inj n z z' :
  (0 <= z < 10 ^ Z.of_nat n)%Z -> (0 <= z' < 10 ^ Z.of_nat n)%Z -> digits n z = digits n z' -> z = z'.
Proof.
  revert z z'. induction n as [|n IH]; intros z z' Hz Hz' Heq; [simpl in *; lia|].
  rewrite Nat2Z.inj_succ, Z.pow_succ_r in Hz, Hz' by lia. simpl in Heq.
  apply app_inj_2 in Heq as [Hd Hm]; [|done]. injection Hm as Hm.
  apply IH in Hd; [|split; [apply Z.div_pos; lia|apply Z.div_lt_upper_bound; lia]..].
  rewrite (Z.div_mod z 10), (Z.div_mod z' 10) by lia. lia.
Qed.

Lemma digits_byte n z : Forall is_byte (digits n z).
Proof.
  revert z. induction n as [|n IH]; intros z; [constructor|]. simpl. apply Forall_app. split; [apply IH|].
  repeat constructor; pose proof (Z.mod_pos_bound z 10); unfold is_byte; lia.
Qed.

Lemma strip_zeros_pad l :
  l = strip_zeros l ++ replicate (length l - length (strip_zeros l)) 48%Z /\
  length (strip_zeros l) <= length l.
Proof.
  induction l as [|d l [IH Hle]]; [done|]. simpl. destruct (strip_zeros l) as [|x r] eqn:Hs.
  - destruct (Z.eqb_spec d 48) as [->|Hd]; simpl in *.
    + split; [|lia]. f_equal. by rewrite Nat.sub_0_r in IH.
    + split; [|lia]. f_equal. by rewrite Nat.sub_0_r in IH |- *.
  - change (length (d :: x :: r)) with (S (length (x :: r))).
    split; [|simpl in *; lia]. simpl. f_equal. exact IH.
Qed.

Lemma strip_zeros_inj l l' : length l = length l' -> strip_zeros l = strip_zeros l' -> l = l'.
Proof.
  intros Hl Hs. destruct (strip_zeros_pad l) as [-> _], (strip_zeros_pad l') as [-> _].
  by rewrite Hs, Hl.
Qed.

Lemma fraction_inj n n' :
  (0 <= n < 1000000000)%Z -> (0 <= n' < 1000000000)%Z -> fraction n = fraction n' -> n = n'.
Proof.
  intros Hn Hn' Heq. apply (digits_inj 9); [done..|]. apply strip_zeros_inj; [by rewrite !digits_length|].
  unfold fraction in Heq. destruct (strip_zeros (digits 9 n)), (strip_zeros (digits 9 n')); naive_solver.
Qed.

Lemma strip_zeros_byte l : Forall is_byte l -> Forall is_byte (strip_zeros l).
Proof. intros H. destruct (strip_zeros_pad l) as [Hl _]. rewrite Hl in H. by apply Forall_app in H as [? _]. Qed.

Lemma fraction_byte n : Forall is_byte (fraction n).
Proof.
  pose proof (strip_zeros_byte _ (digits_byte 9 n)) as H. unfold fraction.
  destruct (strip_zeros _); [done|]. by constructor.
Qed.

Lemma Format_inj t t' : utc_ok t -> utc_ok t' -> Format t = Format t' -> t = t'.
Proof.
  unfold Format. intros Ht Ht' Heq%(f_equal bytes).
  rewrite !bytes_of_bytes in Heq by
    (repeat match goal with |- Forall _ (_ ++ _) => apply Forall_app; split end;
     first [apply digits_byte | apply fraction_byte | by repeat constructor]).
  unfold utc_ok in *. destruct t as [y mo d h mi s n], t' as [y' mo' d' h' mi' s' n'].
  cbn [t_year t_month t_day t_hour t_min t_sec t_nsec] in *.
  repeat match type of Heq with digits _ _ ++ _ = _ =>
    apply app_inj_1 in Heq as [?Hd Heq]; [|by rewrite !digits_length];
    try (apply app_inj_1 in Heq as [_ Heq]; [|done])
  end.
  apply app_inj_2 in Heq as [Hn _]; [|done].
  f_equal; first [apply (digits_inj 4); [simpl; lia..|done] | apply (digits_inj 2); [simpl; lia..|done]
    | apply fraction_inj; [lia..|done]].
Qed.

(** ** Length-prefixed fields are read off one way *)

Lemma pretty_N_go_no_colon x s : 58%Z ∉ bytes s -> 58%Z ∉ bytes (pretty_N_go x s).
Proof.
  revert s. induction (N.lt_wf_0 x) as [x _ IH]; intros s Hs.
  assert (x = 0 \/ 0 < x)%N as [->|Hx] by lia; [by rewrite pretty_N_go_0|].
  rewrite pretty_N_go_step by done. apply IH; [by apply N.div_lt|].
  unfold bytes in *. simpl. rewrite not_elem_of_cons. split; [|done].
  unfold pretty_N_char. by repeat case_match.
Qed.

Lemma Itoa_no_colon n : 58%Z ∉ bytes (strconv_Itoa (Z.of_nat n)).
Proof.
  unfold strconv_Itoa. destruct n as [|n]; [set_solver|].
  change (pretty (Z.of_nat (S n))) with (pretty (N.pos (Pos.of_succ_nat n))).
  unfold pretty, pretty_N. case_decide; [done|]. apply pretty_N_go_no_colon. set_solver.
Qed.

Lemma bytes_length s : length (bytes s) = String.length s.
Proof.
  unfold bytes. rewrite length_map. induction s as [|a s IH]; [done|]. simpl. by rewrite IH.
Qed.

Lemma writeField_bytes s :
  bytes (writeField s) = bytes (strconv_Itoa (Z.of_nat (String.length s))) ++ 58%Z :: bytes s ++ [44%Z].
Proof. unfold writeField. by rewrite !bytes_app. Qed.

Lemma writeField_inj s s' l l' :
  bytes (writeField s) ++ l = bytes (writeField s') ++ l' -> s = s' /\ l = l'.
Proof.
  rewrite !writeField_bytes, <-!(assoc_L (++)), <-!app_comm_cons. intros Heq.
  apply split_at_sep in Heq as [Hlen Heq]; [|apply Itoa_no_colon..].
  apply bytes_inj, (inj pretty), Nat2Z.inj in Hlen.
  rewrite <-!(assoc_L (++)) in Heq. apply app_inj_1 in Heq as [Hs Heq]; [|by rewrite !bytes_length].
  apply bytes_inj in Hs. by injection Heq.
Qed.

(** The encoding of a list of fields determines the list, its length included. *)
Lemma writeFields_inj l l' : writeFields l = writeFields l' -> l = l'.
Proof.
  intros Heq%(f_equal bytes). revert l' Heq. induction l as [|s l IH]; intros [|s' l'] Heq; [done|..];
    unfold writeFields in Heq; simpl in Heq; rewrite ?bytes_app in Heq.
  - rewrite writeField_bytes in Heq. by destruct (bytes (strconv_Itoa _)).
  - rewrite writeField_bytes in Heq. by destruct (bytes (strconv_Itoa _)).
  - apply writeField_inj in Heq as [-> Heq]. f_equal. by apply IH.
Qed.

(** ** What a verified chain binds *)

Section bindings.
Context `{UuidTextLaws}.
Variable key : list Z.

(** A verified chain, its tip first. *)
Inductive linked : list AuditEvent -> Prop :=
| linked_root e : verifies_root key e = true -> linked [e]
| linked_link e p l : verifies_link key p e = true -> linked (p :: l) -> linked (e :: p :: l).

Lemma verify_from_linked prev l acc :
  linked (prev :: acc) -> verify_from key prev l = true -> linked (reverse l ++ prev :: acc).
Proof.
  revert prev acc. induction l as [|e l IH]; intros prev acc Hl; [done|]. simpl. intros [He Hv]%andb_prop.
  rewrite reverse_cons, <-(assoc_L (++)). simpl. apply (IH e (prev :: acc)); [|done]. by constructor.
Qed.

Lemma verify_linked c : VerifyHashChain key c = true -> linked (reverse c).
Proof.
  destruct c as [|r l]; [done|]. simpl. intros [Hr Hl]%andb_prop.
  rewrite reverse_cons. apply verify_from_linked; [by constructor|done].
Qed.

(** The messages a chain's hashes are taken of, the tip's first. *)
Fixpoint hashed (l : list AuditEvent) : list (list Z) :=
  match l with
  | [] => []
  | e :: l' =>
      bytes (match l' with p :: _ => ChainPreimage p e | [] => GenesisPreimage e end) :: hashed l'
  end.

Definition preimages (c : list AuditEvent) : list (list Z) := hashed (reverse c).

(** What the chain binds of every event, of every event but the root, and of
    every event but the tip. *)
Definition bound_always (e : AuditEvent) :=
  (e_Timestamp e, e_Outcome e, e_ConstitutionalPrinciple e, e_HashValue e, e_DigitalSignature e).
Definition bound_after_root (e : AuditEvent) :=
  (e_EventID e, e_EventType e, e_ActorType e, e_ActorID e, e_TargetType e, e_TargetID e).
Definition bound_by_successor (e : AuditEvent) := (e_EventID e, e_Genesis e).

Definition same_history (c c' : list AuditEvent) : Prop :=
  length c = length c' /\
  forall i e e', c !! i = Some e -> c' !! i = Some e' ->
    bound_always e = bound_always e' /\
    (0 < i -> bound_after_root e = bound_after_root e') /\
    (S i < length c -> bound_by_successor e = bound_by_successor e').

Definition times_ok (c : list AuditEvent) : Prop := Forall (fun e => utc_ok (e_Timestamp e)) c.
#[export] Instance times_ok_dec c : Decision (times_ok c).
Proof. unfold times_ok. apply _. Defined.

Lemma linked_hash l :
  linked l -> match l with
              | e :: l' => e_HashValue e = sha256_Sum256 (hd [] (hashed l)) /\ e_DigitalSignature e = signHash key (e_HashValue e)
              | [] => False
              end.
Proof.
  destruct 1 as [e Hr|e p l Hl _]; simpl.
  - unfold verifies_root, hmac_Equal in Hr. repeat (apply andb_prop in Hr as [Hr ?]). by rewrite !bool_decide_eq_true in *.
  - unfold verifies_link, hmac_Equal in Hl. apply andb_prop in Hl as [Hh Hs]. by rewrite !bool_decide_eq_true in *.
Qed.

Lemma FormatBool_inj b b' : FormatBool b = FormatBool b' -> b = b'.
Proof. by destruct b, b'. Qed.

Lemma cons_inj {A} (x y : A) l l' : x :: l = y :: l' -> x = y /\ l = l'.
Proof. by intros [= -> ->]. Qed.

Ltac uncons Heq := repeat (let H := fresh "Hf" in apply cons_inj in Heq as [H Heq]).

Lemma genesis_fields_inj e e' :
  utc_ok (e_Timestamp e) -> utc_ok (e_Timestamp e') -> genesis_fields e = genesis_fields e' ->
  e_Timestamp e = e_Timestamp e' /\ e_Outcome e = e_Outcome e' /\
  e_ConstitutionalPrinciple e = e_ConstitutionalPrinciple e'.
Proof. intros Ht Ht' Heq. unfold genesis_fields in Heq. uncons Heq. split_and!; [by apply Format_inj|done..]. Qed.

(** The pre-image of a link determines the fields of both its events. *)
Lemma chain_fields_inj p e p' e' :
  Forall is_byte (e_HashValue p) -> Forall is_byte (e_HashValue p') ->
  times_ok [p; e] -> times_ok [p'; e'] -> chain_fields p e = chain_fields p' e' ->
  e_HashValue p = e_HashValue p' /\ bound_by_successor p = bound_by_successor p' /\
  bound_after_root e = bound_after_root e' /\ e_Timestamp e = e_Timestamp e' /\ e_Outcome e = e_Outcome e' /\
  e_ConstitutionalPrinciple e = e_ConstitutionalPrinciple e'.
Proof.
  intros Hh Hh' [_ [He _]%Forall_cons]%Forall_cons [_ [He' _]%Forall_cons]%Forall_cons.
  intros Heq. unfold chain_fields in Heq. uncons Heq.
  repeat match goal with
  | E : uuid_String _ = uuid_String _ |- _ => apply (inj uuid_String) in E
  | E : FormatBool _ = FormatBool _ |- _ => apply FormatBool_inj in E
  | E : hex_EncodeToString _ = hex_EncodeToString _ |- _ => apply hex_EncodeToString_inj in E; [|done..]
  | E : Format (e_Timestamp e) = Format _ |- _ => apply Format_inj in E; [|done..]
  end.
  unfold bound_by_successor, bound_after_root. split_and!; congruence.
Qed.

Lemma linked_bytes l : linked l -> Forall is_byte (hd [] (e_HashValue <$> l)).
Proof.
  intros Hl%linked_hash. destruct l as [|e l]; [done|]. simpl. destruct Hl as [-> _]. apply sha256_Sum256_byte.
Qed.

(** Two chains, tip first, whose tips carry one hash. *)
Lemma linked_same l l' :
  linked l -> linked l' -> times_ok l -> times_ok l' -> collision_free (hashed l ++ hashed l') ->
  e_HashValue <$> head l = e_HashValue <$> head l' ->
  length l = length l' /\
  forall j e e', l !! j = Some e -> l' !! j = Some e' ->
    bound_always e = bound_always e' /\
    (S j < length l -> bound_after_root e = bound_after_root e') /\
    (0 < j -> bound_by_successor e = bound_by_successor e').
Proof.
  intros Hl. revert l'.
  induction Hl as [e Hr|e p l Hlk Hl IH]; intros l' Hl' Ht Ht' Hc Htip;
    pose proof (linked_hash _ Hl') as Hh'; destruct l' as [|e' l']; try done;
    destruct Hh' as [Hh' Hs']; simpl in Htip; injection Htip as Htip.
  - pose proof (linked_hash _ (linked_root e Hr)) as [Hh Hs].
    assert (hd [] (hashed [e]) = hd [] (hashed (e' :: l'))) as Hpre%bytes_inj.
    { apply Hc; [left|right; left|congruence]. }
    destruct l' as [|p' l']; apply writeFields_inj in Hpre; [|by apply (f_equal length) in Hpre].
    apply Forall_cons in Ht as [Ht _]. apply Forall_cons in Ht' as [Ht' _].
    apply genesis_fields_inj in Hpre as (HT & HO & HP); [|done..]. split; [done|].
    intros [|j] x x'; [|done]. intros [= <-] [= <-]. split_and!; [|simpl; lia..].
    unfold bound_always. congruence.
  - pose proof (linked_hash _ (linked_link e p l Hlk Hl)) as [Hh Hs].
    assert (hd [] (hashed (e :: p :: l)) = hd [] (hashed (e' :: l'))) as Hpre%bytes_inj.
    { apply Hc; [left|apply elem_of_app; right; left|congruence]. }
    inversion Hl' as [|? p' l'' Hlk' Hl'' ]; subst; apply writeFields_inj in Hpre;
      [by apply (f_equal length) in Hpre|].
    assert (times_ok [p; e] /\ times_ok (p :: l)) as [Hpe Hpl].
    { unfold times_ok in *. rewrite !Forall_cons in *. naive_solver. }
    assert (times_ok [p'; e'] /\ times_ok (p' :: l'')) as [Hpe' Hpl'].
    { unfold times_ok in *. rewrite !Forall_cons in *. naive_solver. }
    apply chain_fields_inj in Hpre as (HH & HpS & HeR & HT & HO & HP); [|by apply (linked_bytes (p :: l))|by apply (linked_bytes (p' :: l''))|done|done].
    destruct (IH (p' :: l'')) as [Hlen Hall]; try done.
    { eapply collision_free_sub; [|exact Hc]. simpl. set_solver. }
    { simpl. by rewrite HH. }
    split; [simpl in *; lia|].
    intros [|j] x x' Hx Hx'; simpl in Hx, Hx'.
    + injection Hx as <-. injection Hx' as <-. split_and!; [unfold bound_always; congruence|done|lia].
    + destruct (Hall j x x' Hx Hx') as (Ha & Hb & Hd). split_and!; [done|simpl in *; intros ?; apply Hb; lia|].
      intros _. destruct j as [|j]; [|apply Hd; lia]. simpl in Hx, Hx'. by injection Hx as <-; injection Hx' as <-.
Qed.

Lemma same_tip_same_history c c' :
  VerifyHashChain key c = true -> VerifyHashChain key c' = true -> times_ok c -> times_ok c' ->
  collision_free (preimages c ++ preimages c') ->
  e_HashValue <$> last c = e_HashValue <$> last c' -> same_history c c'.
Proof.
  intros Hv%verify_linked Hv'%verify_linked Ht Ht' Hc Htip.
  destruct (linked_same (reverse c) (reverse c')) as [Hlen Hall]; try done.
  { by apply Forall_reverse. }
  { by apply Forall_reverse. }
  { by rewrite !head_reverse. }
  rewrite !length_reverse in *. split; [done|]. intros i e e' He He'.
  pose proof (lookup_lt_Some _ _ _ He).
  destruct (Hall (length c - S i) e e') as (Ha & Hb & Hd).
  { rewrite reverse_lookup by lia. by replace (_ - _) with i by lia. }
  { rewrite reverse_lookup by lia. by replace (_ - _) with i by lia. }
  split_and!; [done|intros; apply Hb; lia|intros; apply Hd; lia].
Qed.

(** ** Tags *)

(** The messages behind the tag of a hash. *)
Definition tag_messages (h : list Z) : list (list Z) :=
  let inner := xor_pad 54 (pad_key key) ++ h in
  [xor_pad 92 (pad_key key) ++ sha256_Sum256 inner; inner].

Lemma signHash_inj h h' :
  collision_free (tag_messages h ++ tag_messages h') -> signHash key h = signHash key h' -> h = h'.
Proof.
  unfold signHash, hmac_sha256. intros Hc Heq. apply Hc in Heq; [|left|right; right; left].
  apply app_inv_head, Hc in Heq; [by apply app_inv_head in Heq|right; left|do 3 right; left].
Qed.

Lemma verify_from_take prev l k : verify_from key prev l = true -> verify_from key prev (take k l) = true.
Proof.
  revert prev k. induction l as [|e l IH]; intros prev [|k]; [done..|]. simpl.
  intros [-> Hv]%andb_prop. by apply IH.
Qed.

Lemma verify_take c k : VerifyHashChain key c = true -> 0 < k -> VerifyHashChain key (take k c) = true.
Proof.
  destruct c as [|r l], k as [|k]; [done|done|lia|]. simpl. intros [-> Hv]%andb_prop _. by apply verify_from_take.
Qed.

Lemma verified_tag c i e :
  VerifyHashChain key c = true -> c !! i = Some e -> e_DigitalSignature e = signHash key (e_HashValue e).
Proof.
  intros Hv He. pose proof (lookup_lt_Some _ _ _ He).
  assert (last (take (S i) c) = Some e) as Hl.
  { rewrite last_lookup, length_take, Nat.min_l, lookup_take_lt by (simpl; lia). done. }
  pose proof (verify_linked _ (verify_take c (S i) Hv ltac:(lia))) as Hk.
  rewrite <-head_reverse in Hl. apply linked_hash in Hk.
  destruct (reverse (take (S i) c)) as [|x l]; [done|]. injection Hl as ->. by destruct Hk.
Qed.

Lemma preimages_take c k : preimages (take k c) ⊆ preimages c.
Proof.
  unfold preimages. rewrite <-(take_drop k c) at 2. rewrite reverse_app.
  induction (reverse (drop k c)) as [|e l IH]; [done|]. simpl. intros m Hm. right. by apply IH.
Qed.
End bindings.

(** ** The tip binds the history *)

(** Two chains that verify under one key and end in one hash value are the same
    history: equally long, with the same timestamp, outcome, principle, hash
    and tag at every position, the same identity, type, actor and target at
    every position after the root, and the same root flag and identity at every
    position before the tip, provided SHA-256 does not collide on their
    pre-images. *)
Theorem tip_binds_history `{UuidTextLaws} key c c' :
  VerifyHashChain key c = true -> VerifyHashChain key c' = true -> times_ok c -> times_ok c' ->
  collision_free (preimages c ++ preimages c') ->
  e_HashValue <$> last c = e_HashValue <$> last c' -> same_history c c'.
Proof. apply same_tip_same_history. Qed.

(** C8. In the columns the chain binds, the only edit without the key that goes
    undetected is a truncation: when a chain is replaced by one that still
    verifies and that carries at its end a tag that was issued for the original,
    the replacement is a non-empty prefix of the original in the sense of
    [same_history] - instant, outcome, principle, hash and tag of every event,
    identity, type, actor and target of every one but the root, the root flag
    and the identity of every one but the last -; and every such prefix does
    verify.  The other columns are not bound, and an edit of them verifies. *)
Theorem only_truncation_undetected `{UuidTextLaws} key c c' e' :
  VerifyHashChain key c = true -> VerifyHashChain key c' = true -> times_ok c -> times_ok c' ->
  last c' = Some e' -> e_DigitalSignature e' ∈ map e_DigitalSignature c ->
  collision_free (preimages c ++ preimages c' ++ flat_map (fun e => tag_messages key (e_HashValue e)) (e' :: c)) ->
  (exists k, 0 < k <= length c /\ same_history (take k c) c') /\
  forall k, 0 < k -> VerifyHashChain key (take k c) = true.
Proof.
  intros Hv Hv' Ht Ht' Hlast Htag Hc. split; [|intros k Hk; by apply verify_take].
  apply list_elem_of_fmap in Htag as (e & Htag & [i He]%list_elem_of_lookup).
  pose proof (lookup_lt_Some _ _ _ He) as Hi. exists (S i). split; [lia|].
  rewrite (verified_tag key c i e), (verified_tag key c' (pred (length c')) e') in Htag; try done.
  2: { by rewrite <-last_lookup. }
  apply (signHash_inj key) in Htag.
  2: { eapply collision_free_sub; [|exact Hc]. intros m Hm. apply elem_of_app in Hm.
       rewrite !elem_of_app. right. right. simpl. rewrite !elem_of_cons.
       assert (m ∈ tag_messages key (e_HashValue e) ->
               m ∈ flat_map (fun e => tag_messages key (e_HashValue e)) c) as Hin.
       { rewrite !list_elem_of_In, in_flat_map. intros ?. exists e. split; [|done].
         apply list_elem_of_In, list_elem_of_lookup. by exists i. }
       destruct Hm as [Hm|Hm]; [|auto]. unfold tag_messages in Hm. rewrite !elem_of_cons, elem_of_nil in Hm.
       naive_solver. }
  apply (same_tip_same_history key); try done.
  - apply verify_take; [done|lia].
  - by apply Forall_take.
  - eapply collision_free_sub; [|exact Hc]. pose proof (preimages_take c (S i)). set_solver.
  - rewrite Hlast. rewrite last_lookup, length_take, Nat.min_l, lookup_take_lt by (simpl; lia). simpl.
    rewrite He. simpl. by rewrite Htag.
Qed.

(** ** The store *)

(** No root's pre-image is a link's: the two have different numbers of fields. *)
Lemma root_not_link `{UuidText} g w : GenesisPreimage g <> ChainPreimage w g.
Proof. by intros Heq%writeFields_inj%(f_equal length). Qed.

#[local] Opaque sha256_Sum256 GenesisPreimage ChainPreimage.

Section store.
Context `{UuidTextLaws}.
Variable key : list Z.

(** What one writer does to the table while it holds the lock. *)
Definition write (tbl tbl' : Table) : Prop :=
  exists t rec, at_others t = (fun x => x) /\ tbl' = (Append key t rec tbl).2.

Definition complete (rec : AuditInput) : Prop :=
  i_EventType rec <> ""%string /\ i_Outcome rec <> ""%string /\ i_Principle rec <> ""%string.

(** The event says what the record asked to be recorded. *)
Definition describes (rec : AuditInput) (ev : AuditEvent) : Prop :=
  (e_EventType ev, e_ActorType ev, e_ActorID ev, e_TargetType ev, e_TargetID ev, e_Outcome ev,
   e_ConstitutionalPrinciple ev, e_Genesis ev) =
  (i_EventType rec, i_ActorType rec, i_ActorID rec, i_TargetType rec, i_TargetID rec, i_Outcome rec,
   i_Principle rec, false).

Lemma verify_from_snoc prev l p e :
  last (prev :: l) = Some p ->
  verify_from key prev (l ++ [e]) = verify_from key prev l && verifies_link key p e.
Proof.
  revert prev. induction l as [|x l IH]; intros prev Hp; simpl.
  - injection Hp as ->. apply andb_true_r.
  - rewrite IH by done. apply andb_assoc.
Qed.

Lemma verify_snoc c p e :
  last c = Some p -> VerifyHashChain key (c ++ [e]) = VerifyHashChain key c && verifies_link key p e.
Proof. destruct c as [|r l]; [done|]. intros Hp. simpl. by rewrite (verify_from_snoc r l p), andb_assoc. Qed.

Lemma last_Chain tbl : last (Chain tbl) = loadHead tbl.
Proof. unfold Chain, loadHead. rewrite (fmap_last fst). by destruct (last tbl). Qed.

Lemma hmac_Equal_refl l : hmac_Equal l l = true.
Proof. by apply bool_decide_eq_true. Qed.

Lemma sealed_links prev ev : verifies_link key prev (sealed key ev (ChainPreimage prev ev)) = true.
Proof.
  apply andb_true_intro. split; [exact (hmac_Equal_refl (sha256_Sum256 (bytes (ChainPreimage prev ev))))|].
  exact (hmac_Equal_refl (signHash key (sha256_Sum256 (bytes (ChainPreimage prev ev))))).
Qed.

Lemma GenesisEvent_root principal id event now : verifies_root key (GenesisEvent key principal id event now) = true.
Proof.
  set (ev := GenesisEvent key principal id event now).
  apply andb_true_intro. split; [apply andb_true_intro; split; [done|]|].
  - exact (hmac_Equal_refl (sha256_Sum256 (bytes (GenesisPreimage ev)))).
  - exact (hmac_Equal_refl (signHash key (sha256_Sum256 (bytes (GenesisPreimage ev))))).
Qed.

Lemma incomplete_spec rec :
  String.eqb (i_EventType rec) "" || String.eqb (i_Outcome rec) "" || String.eqb (i_Principle rec) "" = false <->
  complete rec.
Proof. unfold complete. rewrite !orb_false_iff, !String.eqb_neq. tauto. Qed.

(** The event [Append] adds to a table. *)
Definition link (t : AuditTick) (rec : AuditInput) (head : AuditEvent) : AuditEvent :=
  AppendEvent key head (i_EventType rec) (i_ActorType rec) (i_ActorID rec) (i_TargetType rec)
    (i_TargetID rec) (i_Outcome rec) (i_Principle rec) (at_id t) (at_event t) (at_now t).

Lemma Append_cases t rec tbl :
  let '(r, tbl') := Append key t rec tbl in
  match r with
  | Ok ev => exists head, loadHead (at_others t tbl) = Some head /\ ev = link t rec head /\
               tbl' = at_others t tbl ++ [(ev, i_WorkspaceID rec)]
  | Err _ => tbl' = tbl \/ tbl' = at_others t tbl \/
             exists head, loadHead (at_others t tbl) = Some head /\
               tbl' = at_others t tbl ++ [(link t rec head, i_WorkspaceID rec)]
  end.
Proof.
  unfold Append, locked, run_tx. simpl. destruct (_ || _); [by left|].
  destruct (at_fault t) as [|m|[] m], (loadHead (at_others t tbl)) as [head|] eqn:Hh; simpl; eauto 10.
Qed.

Lemma Verify_link t rec head tbl :
  loadHead tbl = Some head -> Verify key tbl = true ->
  Verify key (tbl ++ [(link t rec head, i_WorkspaceID rec)]) = true.
Proof.
  unfold Verify, Chain. intros Hh Hv. rewrite map_app. simpl.
  rewrite (verify_snoc _ head), Hv by (rewrite <-Hh; apply last_Chain). apply sealed_links.
Qed.

Lemma write_spec tbl tbl' : write tbl tbl' -> tbl `prefix_of` tbl' /\ (Verify key tbl = true -> Verify key tbl' = true).
Proof.
  intros (t & rec & Ho & ->). pose proof (Append_cases t rec tbl) as Hc. rewrite Ho in Hc.
  destruct (Append key t rec tbl) as [[ev|e] tbl']; simpl.
  - destruct Hc as (head & Hh & -> & ->). split; [by eexists|by apply Verify_link].
  - destruct Hc as [->|[->|(head & Hh & ->)]]; [done|done|]. split; [by eexists|by apply Verify_link].
Qed.

Lemma writes_spec tbl tbl' :
  rtc write tbl tbl' -> tbl `prefix_of` tbl' /\ (Verify key tbl = true -> Verify key tbl' = true).
Proof.
  induction 1 as [tbl|tbl tbl' tbl'' Hw _ [Hp Hv]]; [done|]. apply write_spec in Hw as [Hp' Hv'].
  split; [by etrans|auto].
Qed.

Lemma Verify_prefix tbl tbl' : tbl `prefix_of` tbl' -> tbl <> [] -> Verify key tbl' = true -> Verify key tbl = true.
Proof.
  intros [k ->] Hne Hv. unfold Verify, Chain in *. rewrite map_app in Hv.
  apply (verify_take key _ (length tbl)) in Hv; [|destruct tbl; [done|simpl; lia]].
  by rewrite <-(length_map fst tbl), take_app_length in Hv.
Qed.

Lemma Verify_head tbl : Verify key tbl = true -> exists head, loadHead tbl = Some head.
Proof.
  intros Hv. rewrite <-last_Chain. destruct (last (Chain tbl)) as [h|] eqn:Hl; [by exists h|].
  apply last_None in Hl. unfold Verify in Hv. by rewrite Hl in Hv.
Qed.
End store.

(** C9. Appending keeps the chain.  Whatever the other writers appended before the
    lock was granted and whether the append succeeds, fails or loses its commit
    answer, nothing already recorded is changed and the chain still verifies; a
    complete record is appended when the database is available; and an append
    that reports success has made its record the new tip. *)
Theorem append_extends_chain `{UuidTextLaws} key t rec tbl :
  Verify key tbl = true -> rtc (write key) tbl (at_others t tbl) ->
  let '(r, tbl') := Append key t rec tbl in
  Verify key tbl' = true /\ tbl `prefix_of` tbl' /\
  (at_fault t = NoFault -> complete rec -> is_ok r = true) /\
  (forall ev, r = Ok ev ->
     describes rec ev /\ tbl' = at_others t tbl ++ [(ev, i_WorkspaceID rec)] /\ loadHead tbl' = Some ev).
Proof.
  intros Hv [Hp Hv']%writes_spec. specialize (Hv' Hv). pose proof (Append_cases key t rec tbl) as Hc.
  assert (at_fault t = NoFault -> complete rec -> is_ok (Append key t rec tbl).1 = true) as Hlive.
  { intros HF Hrec%incomplete_spec. unfold Append, locked, run_tx. rewrite Hrec. simpl. rewrite HF.
    destruct (Verify_head key _ Hv') as [head ->]. done. }
  destruct (Append key t rec tbl) as [[ev|e] tbl'].
  - destruct Hc as (head & Hh & -> & ->). split_and!; [by apply Verify_link|by etrans; [|eexists]|done|].
    intros ev [= <-]. split_and!; [done..|]. unfold loadHead. by rewrite last_snoc.
  - split_and!; [| |done|done]; destruct Hc as [->|[->|(head & Hh & ->)]]; try done.
    + by apply Verify_link.
    + by etrans; [|eexists].
Qed.

(** The root a boot plants. *)
Definition planted (key : list Z) (t : AuditTick) : AuditEvent :=
  GenesisEvent key "Security by Design" (at_id t) (at_event t) (at_now t).

Lemma root_hash key e : verifies_root key e = true -> e_HashValue e = sha256_Sum256 (bytes (GenesisPreimage e)).
Proof. unfold verifies_root. intros [[_ Hh]%andb_prop _]%andb_prop. by apply bool_decide_eq_true in Hh. Qed.

Lemma link_hash `{UuidText} key p e :
  verifies_link key p e = true -> e_HashValue e = sha256_Sum256 (bytes (ChainPreimage p e)).
Proof. unfold verifies_link. intros [Hh _]%andb_prop. by apply bool_decide_eq_true in Hh. Qed.

(** A boot that finds no head plants a root after what the others wrote meanwhile. *)
Lemma NewStore_fresh key t1 t2 tbl :
  at_fault t1 = NoFault -> at_fault t2 = NoFault -> at_others t1 tbl = [] ->
  NewStore key t1 t2 tbl = (Ok (planted key t2), at_others t2 [] ++ [(planted key t2, None)]).
Proof.
  intros H1 H2 Ho. unfold NewStore, locked, run_tx. cbn [tt_fault tt_others tt_now]. rewrite H1, Ho.
  cbn [loadHead last option_map]. by rewrite H2.
Qed.

Lemma NewStore_alone key t1 t2 :
  at_fault t1 = NoFault -> at_fault t2 = NoFault -> at_others t1 [] = [] -> at_others t2 [] = [] ->
  NewStore key t1 t2 [] = (Ok (planted key t2), [(planted key t2, None)]).
Proof. intros H1 H2 H3 H4. rewrite NewStore_fresh by done. by rewrite H4. Qed.

(** Booting on a recorded chain resumes it: [New] writes nothing and hands back
    the tip.  Booting alone on an empty table plants one root, which verifies. *)
Theorem boot_resumes_chain `{UuidTextLaws} key t1 t2 tbl :
  at_fault t1 = NoFault -> at_fault t2 = NoFault -> at_others t2 [] = [] ->
  (Verify key (at_others t1 tbl) = true ->
     NewStore key t1 t2 tbl = (match loadHead (at_others t1 tbl) with Some h => Ok h | None => Err ErrNoGenesis end,
                               at_others t1 tbl)) /\
  (at_others t1 tbl = [] -> exists g, NewStore key t1 t2 tbl = (Ok g, [(g, None)]) /\
                                      Verify key [(g, None)] = true).
Proof.
  intros H1 H2 Ho. split.
  - intros [head Hh]%Verify_head. unfold NewStore, locked, run_tx. simpl. by rewrite H1, Hh.
  - intros Hempty. rewrite NewStore_fresh, Ho by done. eexists. split; [reflexivity|].
    unfold Verify, Chain.
    cbn [map fst snd app VerifyHashChain verify_from]. unfold planted. by rewrite GenesisEvent_root.
Qed.

(** Two processes booting together on an empty database, as the API and the
    worker do, break the chain for good.  When the other process's [New] runs
    between this one's head check and its insert, both succeed, two roots are
    recorded, and no later state of the table verifies (SHA-256 not colliding on
    the second root's two pre-images). *)
Theorem double_genesis_breaks_chain `{UuidTextLaws} key t1 t2 w1 w2 tbl' :
  Forall (fun t => at_fault t = NoFault) [t1; t2; w1; w2] ->
  at_others t1 [] = [] -> at_others w1 [] = [] -> at_others w2 [] = [] ->
  at_others t2 [] = (NewStore key w1 w2 []).2 ->
  collision_free [bytes (GenesisPreimage (planted key t2)); bytes (ChainPreimage (planted key w2) (planted key t2))] ->
  is_ok (NewStore key w1 w2 []).1 = true /\ is_ok (NewStore key t1 t2 []).1 = true /\
  (rtc (write key) (NewStore key t1 t2 []).2 tbl' -> Verify key tbl' = false).
Proof.
  intros HF Ho1 Hw1 Hw2 Ho2 Hc. rewrite !Forall_cons in HF. destruct HF as (F1 & F2 & F3 & F4 & _).
  assert (NewStore key w1 w2 [] = (Ok (planted key w2), [(planted key w2, None)])) as HW.
  { by apply NewStore_alone. }
  assert (NewStore key t1 t2 [] = (Ok (planted key t2), [(planted key w2, None); (planted key t2, None)])) as HT.
  { rewrite NewStore_fresh by done. by rewrite Ho2, HW. }
  rewrite HW, HT. pose proof (root_hash key (planted key t2) (GenesisEvent_root _ _ _ _ _)) as Hg.
  split_and!; [done..|]. intros [Hp _]%writes_spec. clear HW HT Ho2. cbn [snd] in Hp.
  apply not_true_iff_false. intros Hv. apply (Verify_prefix key _ _ Hp) in Hv; [|done]. clear Hp.
  revert Hc Hg Hv. generalize (planted key t2) as g, (planted key w2) as w. intros g w Hc Hg Hv.
  unfold Verify, Chain in Hv. cbn [map fst VerifyHashChain verify_from] in Hv.
  apply andb_prop in Hv as [_ [Hv%link_hash _]%andb_prop]. rewrite Hg in Hv.
  apply (Hc (bytes (GenesisPreimage g)) (bytes (ChainPreimage w g))) in Hv; [|left|right; left].
  by apply bytes_inj, root_not_link in Hv.
Qed.

(** ** A small chain *)

#[local] Hint Extern 0 UuidText => exact unary_uuid : typeclass_instances.
#[local] Hint Extern 0 UuidTextLaws => exact unary_uuid_laws : typeclass_instances.

Definition demo_key : list Z := bytes "secret".
Definition demo_time (s : Z) : UTC := mkUTC 2026 3 9 7 5 s 120000000.
Definition demo_tick (id : uuid) (s : Z) (others : Table -> Table) : AuditTick :=
  mkTick id (id + 1)%N (demo_time s) others NoFault.
Definition alone : Table -> Table := fun tbl => tbl.
Definition demo_record (outcome : string) : AuditInput :=
  mkRecord "execution.admit" "user" 4 "execution" 5 outcome "Human Oversight" (Some 7%N) 8 9.

Definition demo_boot : Table := (NewStore demo_key (demo_tick 0 1 alone) (demo_tick 1 2 alone) []).2.
Definition demo_one : Table := (Append demo_key (demo_tick 2 3 alone) (demo_record "success") demo_boot).2.
Definition demo_two : Table := (Append demo_key (demo_tick 3 4 alone) (demo_record "failure") demo_one).2.

Definition renumbered (e : AuditEvent) : AuditEvent :=
  mkEvent 99 (e_EventID e) (e_Timestamp e) 98 97 (e_ActorType e) (e_ActorID e) (e_TargetType e) (e_TargetID e)
    (e_EventType e) (e_Outcome e) 96 (e_HashValue e) (e_DigitalSignature e) (e_Genesis e)
    (e_ConstitutionalPrinciple e).

(** Row ids, trace ids and parent ids are not bound: changing them all leaves a
    chain that verifies and is the same history. *)
Lemma tip_binds_history_witness :
  VerifyHashChain demo_key (map renumbered (Chain demo_one)) = true /\
  same_history (Chain demo_one) (map renumbered (Chain demo_one)).
Proof.
  split; [vm_compute; reflexivity|].
  apply (tip_binds_history demo_key).
  - vm_compute. reflexivity.
  - vm_compute. reflexivity.
  - apply (bool_decide_unpack _). vm_compute. exact I.
  - apply (bool_decide_unpack _). vm_compute. exact I.
  - apply collision_freeb_sound. vm_compute. reflexivity.
  - vm_compute. reflexivity.
Defined.

Lemma only_truncation_undetected_witness :
  exists k, 0 < k <= 3 /\ same_history (take k (Chain demo_two)) (Chain demo_one).
Proof.
  destruct (last (Chain demo_one)) as [e|] eqn:He; [|vm_compute in He; discriminate].
  apply (only_truncation_undetected demo_key (Chain demo_two) (Chain demo_one) e).
  - vm_compute. reflexivity.
  - vm_compute. reflexivity.
  - apply (bool_decide_unpack _). vm_compute. exact I.
  - apply (bool_decide_unpack _). vm_compute. exact I.
  - exact He.
  - vm_compute in He. injection He as <-. vm_compute. right. left.
  - vm_compute in He. injection He as <-. apply collision_freeb_sound. vm_compute. reflexivity.
Defined.

Lemma append_extends_chain_witness :
  Verify demo_key (Append demo_key (demo_tick 3 4 (fun _ => demo_one)) (demo_record "failure") demo_boot).2 = true /\
  length (Append demo_key (demo_tick 3 4 (fun _ => demo_one)) (demo_record "failure") demo_boot).2 = 3.
Proof.
  pose proof (append_extends_chain demo_key (demo_tick 3 4 (fun _ => demo_one)) (demo_record "failure") demo_boot) as Ha.
  assert (Verify demo_key demo_boot = true) as Hv by (vm_compute; reflexivity).
  assert (rtc (write demo_key) demo_boot demo_one) as Hw.
  { apply rtc_once. exists (demo_tick 2 3 alone), (demo_record "success"). split; reflexivity. }
  specialize (Ha Hv Hw). destruct (Append _ _ _ _) as [r tbl'] eqn:E. destruct Ha as (Ha & _). split; [exact Ha|].
  change tbl' with (r, tbl').2. rewrite <-E. vm_compute. reflexivity.
Defined.

Lemma boot_resumes_chain_witness :
  exists head, NewStore demo_key (demo_tick 9 9 alone) (demo_tick 9 9 alone) demo_one = (Ok head, demo_one).
Proof.
  destruct (boot_resumes_chain demo_key (demo_tick 9 9 alone) (demo_tick 9 9 alone) demo_one eq_refl eq_refl eq_refl)
    as [Hb _].
  specialize (Hb ltac:(vm_compute; reflexivity)). rewrite Hb. eexists. reflexivity.
Defined.

Definition demo_worker_boot : Table -> Table := fun tbl =>
  (NewStore demo_key (demo_tick 3 1 alone) (demo_tick 3 2 alone) tbl).2.

Lemma double_genesis_breaks_chain_witness :
  exists tbl, (NewStore demo_key (demo_tick 1 1 alone) (demo_tick 1 3 demo_worker_boot) []).2 = tbl /\
    length tbl = 2 /\ Verify demo_key tbl = false.
Proof.
  eexists. split; [reflexivity|]. split; [vm_compute; reflexivity|].
  apply (double_genesis_breaks_chain demo_key (demo_tick 1 1 alone) (demo_tick 1 3 demo_worker_boot)
    (demo_tick 3 1 alone) (demo_tick 3 2 alone)); try reflexivity.
  - repeat constructor.
  - apply collision_free_pair. intros HC. vm_compute in HC. discriminate.
Defined.

(** The trace a record carries is not recorded. *)
Example append_drops_trace :
  match Append demo_key (demo_tick 2 3 alone) (demo_record "success") demo_boot with
  | (Ok ev, _) => e_TraceID ev = uuid_Nil /\ e_SpanID ev = uuid_Nil /\ i_TraceID (demo_record "success") = 8%N
  | _ => False
  end.
Proof. vm_compute. repeat split. Qed.
