(* ===== verification/Refresh.v ===== *)
(** * internal/auth/auth.go: refresh tokens

    The in-memory token table and the rotation of refresh tokens with reuse
    detection.  Signing and parsing of JWTs belong to a third-party module and
    are parameters. *)

From S2P Require Import Prelude GoLib Oldest.

(** ** The table *)

Record StoredRefreshToken : Type := mkStored {
  st_ID : string;
  st_FamilyID : string;
  st_UserID : string;
  st_TokenHash : string;
  st_CreatedAt : time;
  st_ExpiresAt : time;
  st_Revoked : bool;
  st_Used : bool
}.

Definition refreshTokenTTL : duration := (30 * 24 * 60 * Minute)%Z.
Definition maxRefreshTokenRecords : Z := Z.shiftl 1 16.
Definition refreshEvictBatch : Z := Z.shiftl 1 12.
Definition refreshSweepThreshold : Z := (maxRefreshTokenRecords - refreshEvictBatch)%Z.

Inductive auth_err : Type :=
| ErrInvalidToken
| ErrRefreshTokenReused
| ErrNoHash
| ErrJWT (msg : string).

Abbreviation TokenTable := (gmap string StoredRefreshToken) (only parsing).

Definition set_st_Revoked (v : bool) (rt : StoredRefreshToken) : StoredRefreshToken :=
  mkStored (st_ID rt) (st_FamilyID rt) (st_UserID rt) (st_TokenHash rt) (st_CreatedAt rt) (st_ExpiresAt rt) v (st_Used rt).
Definition set_st_Used (v : bool) (rt : StoredRefreshToken) : StoredRefreshToken :=
  mkStored (st_ID rt) (st_FamilyID rt) (st_UserID rt) (st_TokenHash rt) (st_CreatedAt rt) (st_ExpiresAt rt) (st_Revoked rt) v.

Definition evictExpiredLocked (now : time) (m : TokenTable) : TokenTable :=
  filter (fun kv : string * StoredRefreshToken => ~ (st_ExpiresAt kv.2 < now)%Z) m.

Section memory.
(** The order in which [range] visits the table: any order. *)
Variable iter : TokenTable -> list (string * StoredRefreshToken).

Definition evictOldestLocked (n : Z) (m : TokenTable) : TokenTable :=
  if (n <=? 0)%Z || bool_decide (m = ∅) then m
  else drop_keys (map fst (pick_oldest n (aged_entries st_CreatedAt (iter m)))) m.

(** [memoryRefreshStore.Save]; [now] is its own reading of the clock. *)
Definition Save (now : time) (rt : StoredRefreshToken) (m : TokenTable) : res auth_err unit * TokenTable :=
  if String.eqb (st_TokenHash rt) "" then (Err ErrNoHash, m)
  else
    let m1 :=
      if bool_decide (m !! st_TokenHash rt = None) && (refreshSweepThreshold <=? Z.of_nat (size m))%Z then
        let m1 := evictExpiredLocked now m in
        if (refreshSweepThreshold <=? Z.of_nat (size m1))%Z then evictOldestLocked refreshEvictBatch m1 else m1
      else m in
    (Ok tt, <[st_TokenHash rt := rt]> m1).

(** [memoryRefreshStore.Get] *)
Definition StoreGet (h : string) (m : TokenTable) : res auth_err StoredRefreshToken :=
  match m !! h with Some rt => Ok rt | None => Err ErrInvalidToken end.

(** [memoryRefreshStore.Revoke] *)
Definition Revoke (h : string) (m : TokenTable) : TokenTable := alter (set_st_Revoked true) h m.

(** [memoryRefreshStore.RevokeFamily] *)
Definition RevokeFamily (familyID : string) (m : TokenTable) : TokenTable :=
  if String.eqb familyID "" then m
  else (fun rt => if String.eqb (st_FamilyID rt) familyID then set_st_Revoked true rt else rt) <$> m.

(** ** JWTService *)

(** What a refresh token is signed over. *)
Record RefreshClaims : Type := mkRefreshClaims { rc_ID : string; rc_UserID : string; rc_IssuedAt : time }.

(** github.com/golang-jwt: signing, and parsing with the checks of signature,
    issuer, audience and expiry at a time; a parsed token yields its user. *)
Variable jwt_Sign : RefreshClaims -> res string string.
Variable jwt_Parse : time -> string -> res string string.

Definition hashToken (token : string) : string := sha256_hex token.

(** The readings of the clock and the identifier one call draws. *)
Record AuthTick : Type := mkAuthTick { au_clock : nat -> time; au_id : string }.

Definition issued_record (userID tokenID familyID signed : string) (now : time) : StoredRefreshToken :=
  mkStored tokenID familyID userID (hashToken signed) now (now + refreshTokenTTL)%Z false false.

Definition issueRefreshToken (userID tokenID familyID : string) (now later : time) (m : TokenTable)
  : res auth_err string * TokenTable :=
  match jwt_Sign (mkRefreshClaims tokenID userID now) with
  | Err e => (Err (ErrJWT e), m)
  | Ok signed =>
      match Save later (issued_record userID tokenID familyID signed now) m with
      | (Err e, m) => (Err e, m)
      | (Ok _, m) => (Ok signed, m)
      end
  end.

Definition IssueRefreshToken (t : AuthTick) (userID : string) (m : TokenTable) : res auth_err string * TokenTable :=
  issueRefreshToken userID (au_id t) (au_id t) (au_clock t 0) (au_clock t 1) m.

(** [JWTService.revokeFamily] *)
Definition revokeFamily (familyID : string) (m : TokenTable) : TokenTable :=
  if String.eqb familyID "" then m else RevokeFamily familyID m.

(** What [Refresh] learns from the presented token and its record: a refusal,
    a reuse with the family to revoke when the token was consumed, or a record
    to rotate. *)
Inductive refresh_read : Type :=
| ReadRefused (e : auth_err)
| ReadReused (familyID : option string)
| ReadLive (rt : StoredRefreshToken) (userID : string).

(** [Refresh] up to its first visit of the table included. *)
Definition Refresh_read (t : AuthTick) (refreshToken : string) (m : TokenTable) : refresh_read :=
  match jwt_Parse (au_clock t 0) refreshToken with
  | Err e => ReadRefused (ErrJWT e)
  | Ok userID =>
      match StoreGet (hashToken refreshToken) m with
      | Err _ => ReadRefused ErrInvalidToken
      | Ok rt =>
          if st_Used rt || st_Revoked rt then
            ReadReused (if st_Used rt then Some (st_FamilyID rt) else None)
          else if (st_ExpiresAt rt <? au_clock t 1)%Z then ReadRefused ErrInvalidToken
          else ReadLive rt userID
      end
  end.

(** The first half of [Refresh]: the record is read, and on a replay the family
    is revoked in a second visit. *)
Definition Refresh_check (t : AuthTick) (refreshToken : string) (m : TokenTable)
  : res auth_err (StoredRefreshToken * string) * TokenTable :=
  match Refresh_read t refreshToken m with
  | ReadRefused e => (Err e, m)
  | ReadReused (Some familyID) => (Err ErrRefreshTokenReused, revokeFamily familyID m)
  | ReadReused None => (Err ErrRefreshTokenReused, m)
  | ReadLive rt userID => (Ok (rt, userID), m)
  end.

Definition consumed (rt : StoredRefreshToken) : StoredRefreshToken := set_st_Revoked true (set_st_Used true rt).

Definition successor_family (rt : StoredRefreshToken) : string :=
  if String.eqb (st_FamilyID rt) "" then st_ID rt else st_FamilyID rt.

(** The second half: the old record is consumed in one visit, and its successor
    stored in another. *)
Definition Refresh_rotate (t : AuthTick) (rt : StoredRefreshToken) (userID : string) (m : TokenTable)
  : res auth_err string * TokenTable :=
  match Save (au_clock t 2) (consumed rt) m with
  | (Err e, m) => (Err e, m)
  | (Ok _, m) => issueRefreshToken userID (au_id t) (successor_family rt) (au_clock t 3) (au_clock t 4) m
  end.

Definition Refresh (t : AuthTick) (refreshToken : string) (m : TokenTable) : res auth_err string * TokenTable :=
  match Refresh_check t refreshToken m with
  | (Err e, m) => (Err e, m)
  | (Ok (rt, userID), m) => Refresh_rotate t rt userID m
  end.

Definition VerifyRefreshToken (now : time) (refreshToken : string) (m : TokenTable) : bool :=
  match StoreGet (hashToken refreshToken) m with
  | Err _ => false
  | Ok rt => negb (st_Revoked rt) && negb (st_Used rt) && (now <? st_ExpiresAt rt)%Z
  end.

Definition RevokeRefreshToken (refreshToken : string) (m : TokenTable) : TokenTable :=
  Revoke (hashToken refreshToken) m.
End memory.
