(* ===== verification/RefreshProps.v ===== *)
(** * What refresh-token rotation guarantees

    Calls overlap: each visit of the token table is a step of its own, and
    other calls come in between.  A replay whose revocation finds no rotation of
    the family in flight kills the family for good; one that overlaps a rotation
    does not ([replay_race]).  A refresh that nothing overlaps moves the one live
    token of its family; two that overlap fork it. *)

From S2P Require Import Prelude GoLib Oldest Refresh.

Section props.
Variable iter : TokenTable -> list (string * StoredRefreshToken).
Variable jwt_Sign : RefreshClaims -> res string string.
Variable jwt_Parse : time -> string -> res string string.

Definition live_token (rt : StoredRefreshToken) : Prop := st_Used rt = false /\ st_Revoked rt = false.

(** ** How a table changes *)

Definition same_token (r r' : StoredRefreshToken) : Prop :=
  set_st_Revoked true (set_st_Used true r) = set_st_Revoked true (set_st_Used true r') /\
  (r' = r \/ st_Revoked r' = true) /\ (st_Used r = true -> st_Used r' = true).

(** Records may disappear or be consumed; none appears. *)
Definition shrinks (m m' : TokenTable) : Prop :=
  forall h r', m' !! h = Some r' -> exists r, m !! h = Some r /\ same_token r r'.

Lemma same_token_refl r : same_token r r.
Proof. split_and!; auto. Qed.

Lemma same_token_fields r r' :
  same_token r r' -> st_FamilyID r' = st_FamilyID r /\ st_TokenHash r' = st_TokenHash r /\
  (live_token r' -> r' = r) /\ (st_Revoked r = true -> st_Revoked r' = true).
Proof.
  intros ([= H1 H2 H3 H4 H5 H6] & Hr & Hu). split_and!; [done..| |]; unfold live_token; destruct Hr as [->|Hr]; naive_solver congruence.
Qed.

Lemma same_token_revoked r u : (st_Used r = true -> u = true) ->
  same_token r (set_st_Revoked true (set_st_Used u r)).
Proof. intros Hu. destruct r. split_and!; [done|by right|done]. Qed.

Lemma subseteq_shrinks m m' : m' ⊆ m -> shrinks m m'.
Proof. intros Hs h r' Hr. exists r'. split; [by eapply lookup_weaken|apply same_token_refl]. Qed.

Lemma revoked_token r : same_token r (set_st_Revoked true r).
Proof. pose proof (same_token_revoked r (st_Used r) (fun x => x)) as H. by destruct r. Qed.

Lemma RevokeFamily_shrinks f m : shrinks m (RevokeFamily f m).
Proof.
  unfold RevokeFamily. destruct (String.eqb f ""); [by apply subseteq_shrinks|].
  intros h r'. rewrite lookup_fmap_Some. intros (r & <- & Hr). exists r. split; [done|].
  destruct (String.eqb _ _); [apply revoked_token|apply same_token_refl].
Qed.

Lemma revokeFamily_shrinks f m : shrinks m (revokeFamily f m).
Proof. unfold revokeFamily. destruct (String.eqb f ""); [by apply subseteq_shrinks|apply RevokeFamily_shrinks]. Qed.

Lemma Revoke_shrinks h m : shrinks m (Revoke h m).
Proof.
  intros k r'. unfold Revoke. rewrite lookup_alter_Some. intros [(<- & r & Hr & ->)|[_ Hr]].
  - exists r. split; [done|apply revoked_token].
  - exists r'. split; [done|apply same_token_refl].
Qed.

Lemma consume_shrinks h r m :
  m !! h = Some r -> shrinks m (<[h := set_st_Revoked true (set_st_Used true r)]> m).
Proof.
  intros Hr k r'. rewrite lookup_insert_Some. intros [[<- <-]|[_ Hk]].
  - exists r. split; [done|by apply same_token_revoked].
  - exists r'. split; [done|apply same_token_refl].
Qed.

Lemma drop_keys_subseteq keys m : drop_keys keys m ⊆ (m : TokenTable).
Proof.
  apply map_subseteq_spec. intros k r. rewrite drop_keys_lookup. by destruct (decide _).
Qed.

Lemma Save_spec now rt m :
  Save iter now rt m = (Err ErrNoHash, m) \/
  exists m0, m0 ⊆ m /\ (is_Some (m !! st_TokenHash rt) -> m0 = m) /\
    Save iter now rt m = (Ok tt, <[st_TokenHash rt := rt]> m0).
Proof.
  unfold Save. destruct (String.eqb _ _); [by left|right]. eexists. split; [|split; [|reflexivity]].
  - destruct (_ && _); [|done]. assert (evictExpiredLocked now m ⊆ m) as He by apply map_filter_subseteq.
    destruct (_ <=? _)%Z; [|done]. etrans; [|exact He]. unfold evictOldestLocked.
    destruct (_ || _); [done|apply drop_keys_subseteq].
  - intros [r Hr]. by rewrite bool_decide_eq_false_2 by (by rewrite Hr).
Qed.

Lemma issue_spec userID tokenID familyID now later m :
  let '(r, m') := issueRefreshToken iter jwt_Sign userID tokenID familyID now later m in
  match r with
  | Err _ => m' = m
  | Ok signed => jwt_Sign (mkRefreshClaims tokenID userID now) = Ok signed /\
      exists m0, m0 ⊆ m /\ m' = <[hashToken signed := issued_record userID tokenID familyID signed now]> m0
  end.
Proof.
  unfold issueRefreshToken. destruct (jwt_Sign _) as [signed|e] eqn:Hs; [|done].
  destruct (Save_spec later (issued_record userID tokenID familyID signed now) m) as [->|(m0 & Hm & _ & ->)]; [done|].
  split; [done|]. by exists m0.
Qed.

(** ** Calls in flight *)

(** What a call has still to do at the table: [revokeFamily]; [Save] of the
    consumed record and then of a successor; [Save] of a new token. *)
Inductive pending : Type :=
| PRevoke (familyID : string)
| PConsume (rt : StoredRefreshToken) (userID : string)
| PIssue (userID tokenID familyID : string).

Definition pending_of (r : refresh_read) : list pending :=
  match r with
  | ReadRefused _ | ReadReused None => []
  | ReadReused (Some familyID) => [PRevoke familyID]
  | ReadLive rt userID => [PConsume rt userID]
  end.

(** The table, every identifier drawn so far, and the calls in flight. *)
Record auth_state : Type := mkAuth {
  as_table : TokenTable;
  as_ids : list string;
  as_flight : list pending
}.

(** One visit of the table.  [uuid.NewString] draws an identifier nobody drew
    before.  Each mutex section of the store is one visit. *)
Inductive visit : auth_state -> auth_state -> Prop :=
| visit_login userID id m ids fl :
    id ∉ ids -> id <> ""%string -> visit (mkAuth m ids fl) (mkAuth m (id :: ids) (PIssue userID id id :: fl))
| visit_read t token m ids fl :
    visit (mkAuth m ids fl) (mkAuth m ids (pending_of (Refresh_read jwt_Parse t token m) ++ fl))
| visit_revokeFamily f m ids fl1 fl2 :
    visit (mkAuth m ids (fl1 ++ PRevoke f :: fl2)) (mkAuth (revokeFamily f m) ids (fl1 ++ fl2))
| visit_consume now id rt userID m ids fl1 fl2 :
    id ∉ ids -> id <> ""%string ->
    visit (mkAuth m ids (fl1 ++ PConsume rt userID :: fl2))
      (let '(r, m') := Save iter now (consumed rt) m in
       mkAuth m' (id :: ids)
         (if is_ok r then PIssue userID id (successor_family rt) :: fl1 ++ fl2 else fl1 ++ fl2))
| visit_issue userID tokenID familyID now later m ids fl1 fl2 :
    visit (mkAuth m ids (fl1 ++ PIssue userID tokenID familyID :: fl2))
      (mkAuth (issueRefreshToken iter jwt_Sign userID tokenID familyID now later m).2 ids (fl1 ++ fl2))
| visit_logout token m ids fl :
    visit (mkAuth m ids fl) (mkAuth (RevokeRefreshToken token m) ids fl).

Definition auth_reachable (s : auth_state) : Prop := rtc visit (mkAuth ∅ [] []) s.

(** A call that nothing overlaps is a run of visits. *)
Lemma Refresh_rotate_visits t rt userID m ids fl :
  au_id t ∉ ids -> au_id t <> ""%string ->
  rtc visit (mkAuth m ids (PConsume rt userID :: fl))
    (mkAuth (Refresh_rotate iter jwt_Sign t rt userID m).2 (au_id t :: ids) fl).
Proof.
  intros Hid Hne. pose proof (visit_consume (au_clock t 2) (au_id t) rt userID m ids [] fl Hid Hne) as Hcons.
  unfold Refresh_rotate. destruct (Save _ _ _ _) as [[|e] m1]; simpl in *; [|by apply rtc_once].
  eapply rtc_l; [exact Hcons|]. apply rtc_once, (visit_issue _ _ _ _ _ _ _ []).
Qed.

Lemma Refresh_visits t token m ids fl :
  au_id t ∉ ids -> au_id t <> ""%string ->
  exists ids', ids' ⊆ au_id t :: ids /\
    rtc visit (mkAuth m ids fl) (mkAuth (Refresh iter jwt_Sign jwt_Parse t token m).2 ids' fl).
Proof.
  intros Hid Hne. pose proof (visit_read t token m ids fl) as Hread. unfold Refresh, Refresh_check.
  assert (ids ⊆ au_id t :: ids) as Hi by set_solver.
  destruct (Refresh_read _ _ _ _) as [e|[f|]|rt userID]; simpl in *; try (exists ids; split; [done|by apply rtc_once]).
  - exists ids. split; [done|]. eapply rtc_l; [exact Hread|]. apply rtc_once, (visit_revokeFamily f m ids []).
  - exists (au_id t :: ids). split; [done|]. eapply rtc_l; [exact Hread|]. by apply Refresh_rotate_visits.
Qed.

Lemma IssueRefreshToken_visits t userID m ids fl :
  au_id t ∉ ids -> au_id t <> ""%string ->
  rtc visit (mkAuth m ids fl) (mkAuth (IssueRefreshToken iter jwt_Sign t userID m).2 (au_id t :: ids) fl).
Proof.
  intros Hid Hne. eapply rtc_l; [by apply (visit_login userID)|]. apply rtc_once, (visit_issue _ _ _ _ _ _ _ []).
Qed.

(** ** What every visit keeps *)

(** A family is named after an identifier that was drawn. *)
Definition drawn_family (ids : list string) (f : string) : Prop := f ∈ ids /\ f <> ""%string.

Definition table_families (m : TokenTable) (ids : list string) : Prop :=
  forall h r, m !! h = Some r -> drawn_family ids (st_FamilyID r).

Definition pending_drawn (ids : list string) (p : pending) : Prop :=
  match p with
  | PRevoke _ => True
  | PConsume rt _ => drawn_family ids (st_FamilyID rt)
  | PIssue _ _ f => drawn_family ids f
  end.

Definition auth_ok (s : auth_state) : Prop :=
  table_families (as_table s) (as_ids s) /\ Forall (pending_drawn (as_ids s)) (as_flight s).

(** The call is about to put a token of the family into the table. *)
Definition rotating (f : string) (p : pending) : Prop :=
  match p with PRevoke _ => False | PConsume rt _ => st_FamilyID rt = f | PIssue _ _ g => g = f end.

(** Every token of the family is revoked. *)
Definition family_revoked (f : string) (m : TokenTable) : Prop :=
  forall h r, m !! h = Some r -> st_FamilyID r = f -> st_Revoked r = true.

Definition dead_family (f : string) (s : auth_state) : Prop :=
  f ∈ as_ids s /\ family_revoked f (as_table s) /\ Forall (fun p => ~ rotating f p) (as_flight s).

Lemma drawn_mono ids ids' f : ids ⊆ ids' -> drawn_family ids f -> drawn_family ids' f.
Proof. intros Hi [Hf Hne]. split; auto. Qed.

Lemma pending_mono ids ids' p : ids ⊆ ids' -> pending_drawn ids p -> pending_drawn ids' p.
Proof. intros Hi. destruct p; simpl; eauto using drawn_mono. Qed.

Lemma flight_mono ids ids' fl : ids ⊆ ids' -> Forall (pending_drawn ids) fl -> Forall (pending_drawn ids') fl.
Proof. intros Hi Hfl. eapply Forall_impl; [exact Hfl|]. intros p. by apply pending_mono. Qed.

Lemma families_shrink m m' ids ids' :
  table_families m ids -> shrinks m m' -> ids ⊆ ids' -> table_families m' ids'.
Proof.
  intros Hm Hs Hi h r' (r & Hr & Hsame)%Hs. destruct (same_token_fields _ _ Hsame) as (-> & _).
  eapply drawn_mono; [exact Hi|by eapply Hm].
Qed.

Lemma revoked_shrink f m m' : family_revoked f m -> shrinks m m' -> family_revoked f m'.
Proof.
  intros Hm Hs h r' (r & Hr & Hsame)%Hs. destruct (same_token_fields _ _ Hsame) as (-> & _ & _ & Hrev). eauto.
Qed.

(** Storing a record of a drawn family. *)
Lemma families_insert m ids h rt :
  table_families m ids -> drawn_family ids (st_FamilyID rt) -> table_families (<[h := rt]> m) ids.
Proof. intros Hm Hf k r. rewrite lookup_insert_Some. intros [[<- <-]|[_ Hr]]; [done|by eapply Hm]. Qed.

Lemma revoked_insert f m h rt :
  family_revoked f m -> (st_FamilyID rt = f -> st_Revoked rt = true) -> family_revoked f (<[h := rt]> m).
Proof. intros Hm Hf k r. rewrite lookup_insert_Some. intros [[<- <-]|[_ Hr]]; [done|by eapply Hm]. Qed.

Lemma revokeFamily_revoked f m : f <> ""%string -> family_revoked f (revokeFamily f m).
Proof.
  intros Hne%String.eqb_neq h r. unfold revokeFamily, RevokeFamily. rewrite Hne, lookup_fmap_Some.
  intros (r0 & <- & _). destruct (String.eqb_spec (st_FamilyID r0) f) as [|Hn]; [done|by intros ?%Hn].
Qed.

Lemma Refresh_read_live t token m rt userID :
  Refresh_read jwt_Parse t token m = ReadLive rt userID ->
  jwt_Parse (au_clock t 0) token = Ok userID /\ m !! hashToken token = Some rt /\ live_token rt.
Proof.
  unfold Refresh_read, StoreGet. destruct (jwt_Parse _ _) as [u|]; [|done].
  destruct (m !! _) as [r|]; [|done]. destruct (_ || _) eqn:Hl; [done|]. destruct (_ <? _)%Z; [done|].
  intros [= -> ->]. by apply orb_false_iff in Hl as [? ?].
Qed.

(** What [Save] makes of a table: records may go, the given one is in. *)
Lemma Save_keeps now rt m m' r ids f :
  Save iter now rt m = (r, m') ->
  (table_families m ids -> drawn_family ids (st_FamilyID rt) -> table_families m' ids) /\
  (family_revoked f m -> (st_FamilyID rt = f -> st_Revoked rt = true) -> family_revoked f m').
Proof.
  intros Hs. destruct (Save_spec now rt m) as [E|(m0 & Hm0%subseteq_shrinks & _ & E)]; rewrite E in Hs;
    injection Hs as <- <-; [done|]. split; intros; [apply families_insert|apply revoked_insert];
    eauto using families_shrink, revoked_shrink.
Qed.

Lemma issue_keeps userID tokenID g now later m ids f :
  let m' := (issueRefreshToken iter jwt_Sign userID tokenID g now later m).2 in
  (table_families m ids -> drawn_family ids g -> table_families m' ids) /\
  (family_revoked f m -> g <> f -> family_revoked f m').
Proof.
  unfold issueRefreshToken. destruct (jwt_Sign _) as [signed|]; [|done].
  destruct (Save iter later _ m) as [r m'] eqn:Hs. apply (Save_keeps _ _ _ _ _ ids f) in Hs as [H1 H2].
  destruct r; simpl; (split; intros; [by apply H1|apply H2; [done|by intros ?]]).
Qed.

Lemma consume_keeps now rt m ids f :
  let m' := (Save iter now (consumed rt) m).2 in
  (table_families m ids -> drawn_family ids (st_FamilyID rt) -> table_families m' ids) /\
  (family_revoked f m -> family_revoked f m').
Proof.
  destruct (Save iter now (consumed rt) m) as [r m'] eqn:Hs. apply (Save_keeps _ _ _ _ _ ids f) in Hs as [H1 H2].
  split; intros; [by apply H1|by apply H2].
Qed.

Lemma successor_is ids rt : drawn_family ids (st_FamilyID rt) -> successor_family rt = st_FamilyID rt.
Proof. intros [_ Hne%String.eqb_neq]. unfold successor_family. by rewrite Hne. Qed.

Lemma visit_ok s s' : visit s s' -> auth_ok s -> auth_ok s'.
Proof.
  unfold auth_ok. destruct 1 as [userID id m ids fl Hid Hne|t token m ids fl|f m ids fl1 fl2|now id rt userID m ids fl1 fl2 Hid Hne
    |userID tokenID g now later m ids fl1 fl2|token m ids fl]; simpl.
  - intros [Hm Hfl]. assert (ids ⊆ id :: ids) as Hi by set_solver. split.
    + eapply families_shrink; [exact Hm|by apply subseteq_shrinks|done].
    + constructor; [split; [by left|done]|by eapply flight_mono].
  - intros [Hm Hfl]. split; [done|]. apply Forall_app; split; [|done].
    destruct (Refresh_read _ _ _ _) as [|[]|rt u] eqn:Hr; simpl; try by repeat constructor.
    apply Forall_singleton. apply Refresh_read_live in Hr as (_ & Hr & _). exact (Hm _ _ Hr).
  - rewrite Forall_app, Forall_cons. intros (Hm & H1 & _ & H2). split; [|by apply Forall_app].
    eapply families_shrink; [exact Hm|apply revokeFamily_shrinks|done].
  - rewrite Forall_app, Forall_cons. intros (Hm & H1 & Hf & H2). assert (ids ⊆ id :: ids) as Hi by set_solver.
    simpl in Hf. pose proof (successor_is _ _ Hf) as Hsf. apply (drawn_mono _ _ _ Hi) in Hf.
    assert (table_families m (id :: ids)) as Hm' by (eapply families_shrink; [exact Hm|by apply subseteq_shrinks|done]).
    destruct (consume_keeps now rt m (id :: ids) "") as [Hk _]. specialize (Hk Hm' Hf).
    assert (Forall (pending_drawn (id :: ids)) (fl1 ++ fl2)) as Hfl
      by (apply Forall_app; eauto using flight_mono).
    destruct (Save _ _ _ _) as [[|] m']; simpl in *; (split; [done|]); [|done]. constructor; [|done]. simpl. by rewrite Hsf.
  - rewrite Forall_app, Forall_cons. intros (Hm & H1 & Hf & H2). split; [|by apply Forall_app].
    by apply issue_keeps.
  - intros [Hm Hfl]. split; [|done]. eapply families_shrink; [exact Hm|apply Revoke_shrinks|done].
Qed.

Lemma visit_dead f s s' : visit s s' -> auth_ok s -> dead_family f s -> dead_family f s'.
Proof.
  unfold dead_family. destruct 1 as [userID id m ids fl Hid Hne|t token m ids fl|g m ids fl1 fl2|now id rt userID m ids fl1 fl2 Hid Hne
    |userID tokenID g now later m ids fl1 fl2|token m ids fl]; simpl; intros [Hm Hok] (Hf & Hd & Hfl); simpl in *.
  - split_and!; [by right|done|]. constructor; [|done]. simpl. by intros ->.
  - split_and!; [done..|]. apply Forall_app; split; [|done].
    destruct (Refresh_read _ _ _ _) as [|[]|rt u] eqn:Hr; simpl; [constructor|by apply Forall_singleton; intros ?|constructor|].
    apply Forall_singleton. apply Refresh_read_live in Hr as (_ & Hr & _ & Hl). simpl. intros E. rewrite (Hd _ _ Hr E) in Hl. done.
  - apply Forall_app in Hfl as [H1 [_ H2]%Forall_cons]. split_and!; [done| |by apply Forall_app].
    eapply revoked_shrink; [exact Hd|apply revokeFamily_shrinks].
  - apply Forall_app in Hfl as [H1 [Hrot H2]%Forall_cons], Hok as [_ [Hdr _]%Forall_cons].
    simpl in Hrot, Hdr. pose proof (successor_is _ _ Hdr) as Hsf.
    destruct (consume_keeps now rt m ids f) as [_ Hk]. specialize (Hk Hd).
    destruct (Save _ _ _ _) as [[|] m']; simpl in *; (split_and!; [by right|done|]); [|by apply Forall_app].
    constructor; [|by apply Forall_app]. simpl. by rewrite Hsf.
  - apply Forall_app in Hfl as [H1 [Hrot H2]%Forall_cons]. split_and!; [done| |by apply Forall_app].
    by apply (issue_keeps _ _ _ _ _ _ ids).
  - split_and!; [done| |done]. eapply revoked_shrink; [exact Hd|apply Revoke_shrinks].
Qed.

Lemma visits_ok s s' : rtc visit s s' -> auth_ok s -> auth_ok s'.
Proof. induction 1; eauto using visit_ok. Qed.

Lemma visits_dead f s s' : rtc visit s s' -> auth_ok s -> dead_family f s -> dead_family f s'.
Proof. induction 1; eauto using visit_ok, visit_dead. Qed.

Lemma reachable_ok s : auth_reachable s -> auth_ok s.
Proof. intros Hr. eapply visits_ok; [exact Hr|]. split; [intros h r; simpl; by rewrite lookup_empty|constructor]. Qed.

Lemma visits_ids s s' : rtc visit s s' -> as_ids s ⊆ as_ids s'.
Proof.
  induction 1 as [|s1 s2 s3 Hv _ IH]; [done|]. etrans; [|exact IH]. destruct Hv; simpl; try set_solver.
  destruct (Save _ _ _ _); set_solver.
Qed.

Lemma read_revoked t token m r :
  m !! hashToken token = Some r -> st_Revoked r = true ->
  is_ok (Refresh iter jwt_Sign jwt_Parse t token m).1 = false /\
  forall rt userID, Refresh_read jwt_Parse t token m <> ReadLive rt userID.
Proof.
  intros Hm Hr. assert (forall rt userID, Refresh_read jwt_Parse t token m <> ReadLive rt userID) as Hn.
  { intros rt userID (_ & E & _ & Hl)%Refresh_read_live. congruence. }
  split; [|done]. unfold Refresh, Refresh_check. destruct (Refresh_read _ _ _ _) as [|[]|rt u] eqn:E; try done.
  by destruct (Hn rt u).
Qed.

(** ** One call that nothing overlaps *)

(** [uuid.NewString] draws a new identifier, and the token signed over it has a
    digest that is not in the table. *)
Definition fresh_id (id : string) (m : TokenTable) (ids : list string) : Prop :=
  id ∉ ids /\ id <> ""%string /\
  forall c signed, rc_ID c = id -> jwt_Sign c = Ok signed -> m !! hashToken signed = None.

Definition table_ok (s : TokenTable * list string) : Prop :=
  (forall h r, s.1 !! h = Some r ->
     st_TokenHash r = h /\ st_FamilyID r ∈ s.2 /\ st_FamilyID r <> ""%string) /\
  (forall h h' r r', s.1 !! h = Some r -> s.1 !! h' = Some r' -> live_token r -> live_token r' ->
     st_FamilyID r = st_FamilyID r' -> h = h').

Lemma table_ok_shrinks m m' ids ids' :
  table_ok (m, ids) -> shrinks m m' -> ids ⊆ ids' -> table_ok (m', ids').
Proof.
  intros [H1 H2] Hs Hi. split; simpl in *.
  - intros h r' (r & Hr & Hsame)%Hs. destruct (same_token_fields _ _ Hsame) as (-> & -> & _).
    destruct (H1 h r Hr) as (? & ? & ?). split_and!; auto.
  - intros h h' r1 r2 (r & Hr & Hsame)%Hs (r' & Hr' & Hsame')%Hs L1 L2.
    destruct (same_token_fields _ _ Hsame) as (_ & _ & E1 & _), (same_token_fields _ _ Hsame') as (_ & _ & E2 & _).
    specialize (E1 L1). specialize (E2 L2). subst. eauto.
Qed.

(** Adding the token of a new family, or the successor of a family without a
    live token. *)
Lemma table_ok_insert m ids ids' h rt :
  table_ok (m, ids) -> st_TokenHash rt = h -> st_FamilyID rt ∈ ids' -> st_FamilyID rt <> ""%string -> ids ⊆ ids' ->
  (forall k r, m !! k = Some r -> st_FamilyID r = st_FamilyID rt -> ~ live_token r) ->
  table_ok (<[h := rt]> m, ids').
Proof.
  intros [H1 H2] Hh Hf Hne Hi Hno. split; simpl in *.
  - intros k r. rewrite lookup_insert_Some. intros [[<- <-]|[_ Hr]]; [done|].
    destruct (H1 k r Hr) as (? & ? & ?). split_and!; auto.
  - intros k k' r r'. rewrite !lookup_insert_Some.
    intros [[<- <-]|[_ Hr]] [[<- <-]|[_ Hr']] L L' E; [done|..].
    + by destruct (Hno k' r' Hr').
    + by destruct (Hno k r Hr).
    + eauto.
Qed.

Lemma Refresh_cases t token m ids :
  table_ok (m, ids) ->
  let '(r, m') := Refresh iter jwt_Sign jwt_Parse t token m in
  (is_ok r = false /\ shrinks m m') \/
  exists signed userID rt m0 now,
    r = Ok signed /\ jwt_Parse (au_clock t 0) token = Ok userID /\
    m !! hashToken token = Some rt /\ live_token rt /\
    jwt_Sign (mkRefreshClaims (au_id t) userID now) = Ok signed /\
    m0 ⊆ <[hashToken token := set_st_Revoked true (set_st_Used true rt)]> m /\
    m' = <[hashToken signed := issued_record userID (au_id t) (st_FamilyID rt) signed now]> m0.
Proof.
  intros [Hok _]. simpl in Hok. unfold Refresh, Refresh_check, Refresh_read.
  destruct (jwt_Parse _ _) as [userID|e]; [|left; split; [done|by apply subseteq_shrinks]].
  unfold StoreGet. destruct (m !! hashToken token) as [rt|] eqn:Hrt; [|left; split; [done|by apply subseteq_shrinks]].
  destruct (st_Used rt || st_Revoked rt) eqn:Hl.
  { destruct (st_Used rt); left; (split; [reflexivity|]); [apply revokeFamily_shrinks|by apply subseteq_shrinks]. }
  apply orb_false_iff in Hl as [Hu Hr].
  destruct (_ <? _)%Z; [left; split; [done|by apply subseteq_shrinks]|].
  destruct (Hok _ _ Hrt) as (Hh & _ & Hne). unfold Refresh_rotate, successor_family, consumed.
  destruct (Save_spec (au_clock t 2) (set_st_Revoked true (set_st_Used true rt)) m) as [->|(m0 & Hm & Heq & ->)];
    [left; split; [done|by apply subseteq_shrinks]|].
  change (st_TokenHash (set_st_Revoked true (set_st_Used true rt))) with (st_TokenHash rt) in *.
  rewrite Hh in *. rewrite Heq in * by done.
  apply String.eqb_neq in Hne. rewrite Hne.
  pose proof (issue_spec userID (au_id t) (st_FamilyID rt) (au_clock t 3) (au_clock t 4)
    (<[hashToken token := set_st_Revoked true (set_st_Used true rt)]> m)) as Hi.
  destruct (issueRefreshToken _ _ _ _ _ _ _ _) as [[signed|e] m'].
  - destruct Hi as (Hsign & m1 & Hm1 & ->). right. by exists signed, userID, rt, m1, (au_clock t 3).
  - subst m'. left. split; [done|by apply consume_shrinks].
Qed.

(** No family has a live token once its live token is consumed. *)
Lemma consumed_family m m0 ids h rt :
  table_ok (m, ids) -> m !! h = Some rt -> live_token rt ->
  m0 ⊆ <[h := set_st_Revoked true (set_st_Used true rt)]> m ->
  forall k r, m0 !! k = Some r -> st_FamilyID r = st_FamilyID rt -> ~ live_token r.
Proof.
  intros [_ Hone] Hrt Hl Hm k r Hr Hf Hlr. eapply lookup_weaken in Hr; [|exact Hm].
  apply lookup_insert_Some in Hr as [[<- <-]|[Hne Hr]]; [by destruct Hlr|].
  apply Hne. by apply (Hone h k rt r).
Qed.

End props.

(** ** Theorems *)

(** Rotation moves the one live token of a family, when nothing overlaps it.  A
    refresh that succeeds was given a live token, leaves it consumed (or no
    longer stored), and its answer is the only live token of the same family,
    for the user the old token was issued to; a refresh that fails makes no
    token live; and no two live tokens share a family after either. *)
Theorem rotation_discipline iter jwt_Sign jwt_Parse m ids t token :
  table_ok (m, ids) -> fresh_id jwt_Sign (au_id t) m ids ->
  let '(res, m') := Refresh iter jwt_Sign jwt_Parse t token m in
  table_ok (m', au_id t :: ids) /\
  match res with
  | Ok signed =>
      exists rt rn, m !! hashToken token = Some rt /\ live_token rt /\
        (forall r, m' !! hashToken token = Some r -> st_Used r = true /\ st_Revoked r = true) /\
        m' !! hashToken signed = Some rn /\ live_token rn /\ st_FamilyID rn = st_FamilyID rt /\
        jwt_Parse (au_clock t 0) token = Ok (st_UserID rn) /\
        (forall h r, m' !! h = Some r -> live_token r -> st_FamilyID r = st_FamilyID rt -> h = hashToken signed)
  | Err _ => forall h r, m' !! h = Some r -> live_token r -> m !! h = Some r
  end.
Proof.
  intros Hok (Hid & Hne & Hdig). pose proof (Refresh_cases iter jwt_Sign jwt_Parse t token m ids Hok) as Hc.
  assert (ids ⊆ au_id t :: ids) as Hi by set_solver.
  destruct (Refresh _ _ _ t token m) as [res m'].
  destruct Hc as [[Hres Hs]|(signed & userID & rt & m0 & now & -> & Hp & Hrt & Hl & Hsign & Hm0 & ->)].
  - split; [by eapply table_ok_shrinks|]. destruct res as [|e]; [done|]. intros h r (r0 & Hr0 & Hsame)%Hs Hl.
    destruct (same_token_fields _ _ Hsame) as (_ & _ & E & _). by rewrite (E Hl).
  - pose proof (consumed_family m m0 ids _ rt Hok Hrt Hl Hm0) as Hno.
    destruct (proj1 Hok _ _ Hrt) as (_ & Hf & Hfne).
    assert (hashToken signed <> hashToken token) as Hneq.
    { intros E. specialize (Hdig (mkRefreshClaims (au_id t) userID now) signed eq_refl Hsign). congruence. }
    split.
    { apply (table_ok_insert _ ids); [|done|by right|done|done|done].
      eapply table_ok_shrinks; [exact Hok| |done]. intros h r Hr. eapply lookup_weaken in Hr; [|exact Hm0].
      by apply (consume_shrinks _ _ _ Hrt). }
    exists rt, (issued_record userID (au_id t) (st_FamilyID rt) signed now). split_and!; try done.
    + intros r. rewrite lookup_insert_ne by done. intros H0. eapply lookup_weaken in H0; [|exact Hm0].
      rewrite lookup_insert_eq in H0. by injection H0 as <-.
    + by rewrite lookup_insert_eq.
    + intros h r. rewrite lookup_insert_Some. intros [[<- _]|[_ Hr']] Hl' Hf'; [done|]. by destruct (Hno h r Hr' Hf').
Qed.

(** C10. Replay detection among overlapping calls.  Presenting a token whose record
    is still in the table, consumed, and which still parses is refused as a
    reuse, and the call goes on to revoke the family.  When that revocation is
    made while no rotation of the family is in flight, then whatever visits
    follow, no token of the family is live, no call is about to store one, and
    a refresh of any of them is refused. *)
Theorem replay_kills_family iter jwt_Sign jwt_Parse s t token userID rt :
  auth_reachable iter jwt_Sign jwt_Parse s -> as_table s !! hashToken token = Some rt -> st_Used rt = true ->
  jwt_Parse (au_clock t 0) token = Ok userID ->
  (Refresh iter jwt_Sign jwt_Parse t token (as_table s)).1 = Err ErrRefreshTokenReused /\
  pending_of (Refresh_read jwt_Parse t token (as_table s)) = [PRevoke (st_FamilyID rt)] /\
  forall m ids fl1 fl2,
    rtc (visit iter jwt_Sign jwt_Parse) (mkAuth (as_table s) (as_ids s) (PRevoke (st_FamilyID rt) :: as_flight s))
      (mkAuth m ids (fl1 ++ PRevoke (st_FamilyID rt) :: fl2)) ->
    Forall (fun p => ~ rotating (st_FamilyID rt) p) (fl1 ++ fl2) ->
    forall s2, rtc (visit iter jwt_Sign jwt_Parse) (mkAuth (revokeFamily (st_FamilyID rt) m) ids (fl1 ++ fl2)) s2 ->
      (forall h r, as_table s2 !! h = Some r -> st_FamilyID r = st_FamilyID rt -> ~ live_token r) /\
      Forall (fun p => ~ rotating (st_FamilyID rt) p) (as_flight s2) /\
      forall t2 token2 r, as_table s2 !! hashToken token2 = Some r -> st_FamilyID r = st_FamilyID rt ->
        is_ok (Refresh iter jwt_Sign jwt_Parse t2 token2 (as_table s2)).1 = false /\
        forall r' userID', Refresh_read jwt_Parse t2 token2 (as_table s2) <> ReadLive r' userID'.
Proof.
  intros Hr Hrt Hu Hp. pose proof (reachable_ok _ _ _ _ Hr) as Hok. destruct (proj1 Hok _ _ Hrt) as [Hf Hne].
  assert (Refresh_read jwt_Parse t token (as_table s) = ReadReused (Some (st_FamilyID rt))) as Hread.
  { unfold Refresh_read, StoreGet. by rewrite Hp, Hrt, Hu. }
  split_and!; [by unfold Refresh, Refresh_check; rewrite Hread|by rewrite Hread|].
  intros m ids fl1 fl2 Hbefore Hquiet s2 Hafter.
  assert (auth_ok (mkAuth m ids (fl1 ++ PRevoke (st_FamilyID rt) :: fl2))) as Hok1.
  { eapply visits_ok; [exact Hbefore|]. destruct Hok. split; [done|by constructor]. }
  assert (auth_ok (mkAuth (revokeFamily (st_FamilyID rt) m) ids (fl1 ++ fl2))) as Hok2
    by (eapply (visit_ok iter jwt_Sign jwt_Parse); [apply visit_revokeFamily|exact Hok1]).
  apply visits_ids in Hbefore. simpl in Hbefore.
  destruct (visits_dead iter jwt_Sign jwt_Parse (st_FamilyID rt) _ _ Hafter Hok2) as (_ & Hd & Hfl).
  { split_and!; [by apply Hbefore|by apply revokeFamily_revoked|done]. }
  split_and!; [|done|].
  - intros h r Hh Hfam [_ Hl]. by rewrite (Hd h r Hh Hfam) in Hl.
  - intros t2 token2 r Hh Hfam. exact (read_revoked iter jwt_Sign jwt_Parse t2 token2 _ r Hh (Hd _ _ Hh Hfam)).
Qed.

Lemma Save_small iter now rt m :
  st_TokenHash rt <> ""%string -> (Z.of_nat (size m) < refreshSweepThreshold)%Z ->
  Save iter now rt m = (Ok tt, <[st_TokenHash rt := rt]> m).
Proof.
  intros Hne%String.eqb_neq Hs. unfold Save. rewrite Hne.
  rewrite (proj2 (Z.leb_gt _ _) Hs). by rewrite andb_false_r.
Qed.

Lemma rotate_small iter jwt_Sign t rt userID signed token m :
  st_TokenHash rt = hashToken token -> is_Some (m !! hashToken token) -> st_FamilyID rt <> ""%string ->
  jwt_Sign (mkRefreshClaims (au_id t) userID (au_clock t 3)) = Ok signed ->
  (Z.of_nat (size m) < refreshSweepThreshold)%Z ->
  Refresh_rotate iter jwt_Sign t rt userID m =
    (Ok signed, <[hashToken signed := issued_record userID (au_id t) (st_FamilyID rt) signed (au_clock t 3)]>
                  (<[hashToken token := set_st_Revoked true (set_st_Used true rt)]> m)).
Proof.
  intros Hh Hin Hf%String.eqb_neq Hs Hsz. unfold Refresh_rotate, issueRefreshToken, successor_family, consumed. rewrite Hf, Hs.
  rewrite Save_small by (simpl; rewrite ?Hh; try apply sha256_hex_nonempty; done). simpl. rewrite Hh.
  rewrite Save_small; [done|apply sha256_hex_nonempty|].
  by rewrite map_size_insert_Some.
Qed.

(** Two refreshes of one token that overlap fork its family.  When both calls
    check the token before either consumes it, both succeed, and the family ends
    with two live tokens; no replay is detected. *)
Theorem concurrent_refresh_forks_family iter jwt_Sign jwt_Parse ta tb token userID sa sb rt m :
  m !! hashToken token = Some rt -> st_TokenHash rt = hashToken token -> live_token rt -> st_FamilyID rt <> ""%string ->
  Forall (fun t => jwt_Parse (au_clock t 0) token = Ok userID /\ (au_clock t 1 <= st_ExpiresAt rt)%Z) [ta; tb] ->
  jwt_Sign (mkRefreshClaims (au_id ta) userID (au_clock ta 3)) = Ok sa ->
  jwt_Sign (mkRefreshClaims (au_id tb) userID (au_clock tb 3)) = Ok sb ->
  NoDup [hashToken token; hashToken sa; hashToken sb] ->
  (Z.of_nat (size m) + 1 < refreshSweepThreshold)%Z ->
  let '(ca, m1) := Refresh_check jwt_Parse ta token m in
  let '(cb, m2) := Refresh_check jwt_Parse tb token m1 in
  ca = Ok (rt, userID) /\ cb = Ok (rt, userID) /\
  let '(ra, m3) := Refresh_rotate iter jwt_Sign ta rt userID m2 in
  let '(rb, m4) := Refresh_rotate iter jwt_Sign tb rt userID m3 in
  ra = Ok sa /\ rb = Ok sb /\
  exists r1 r2, m4 !! hashToken sa = Some r1 /\ m4 !! hashToken sb = Some r2 /\ hashToken sa <> hashToken sb /\
    live_token r1 /\ live_token r2 /\ st_FamilyID r1 = st_FamilyID rt /\ st_FamilyID r2 = st_FamilyID rt.
Proof.
  intros Hrt Hh Hl Hf HP Hsa Hsb Hnd Hsz.
  assert (forall t, t ∈ [ta; tb] -> Refresh_check jwt_Parse t token m = (Ok (rt, userID), m)) as Hcheck.
  { intros t Ht. rewrite Forall_forall in HP. apply HP in Ht as [Hp He]. unfold Refresh_check, Refresh_read, StoreGet.
    rewrite Hp, Hrt. destruct Hl as [-> ->]. simpl. by rewrite (proj2 (Z.ltb_ge _ _) He). }
  rewrite (Hcheck ta), (Hcheck tb) by set_solver. split_and!; [done..|].
  rewrite (rotate_small _ _ _ _ _ sa token); [|done|exact (mk_is_Some _ _ Hrt)|done|done|lia].
  rewrite !NoDup_cons, !not_elem_of_cons in Hnd. destruct Hnd as ((N1 & N2 & _) & (N3 & _) & _).
  rewrite (rotate_small _ _ _ _ _ sb token); try done.
  - split_and!; [done..|]. eexists _, _. split_and!.
    + rewrite lookup_insert_ne by done. rewrite lookup_insert_ne by done. by rewrite lookup_insert_eq.
    + by rewrite lookup_insert_eq.
    + done.
    + done.
    + done.
    + done.
    + done.
  - rewrite lookup_insert_ne, lookup_insert_eq by done. by eexists.
  - assert (size (<[hashToken token := set_st_Revoked true (set_st_Used true rt)]> m) = size m) as Hz
      by (apply map_size_insert_Some; by eexists).
    rewrite map_size_insert. destruct (_ !! hashToken sa); unfold id; rewrite Hz; lia.
Qed.

(** ** The table is bounded *)

Section bound.
Variable iter : TokenTable -> list (string * StoredRefreshToken).
Hypothesis iter_all : forall m, iter m ≡ₚ map_to_list m.

Lemma evictOldest_size m :
  (refreshSweepThreshold <= Z.of_nat (size m))%Z ->
  (Z.of_nat (size (evictOldestLocked iter refreshEvictBatch m)) + refreshEvictBatch = Z.of_nat (size m))%Z.
Proof.
  intros Hbig. change refreshSweepThreshold with 61440%Z in Hbig. change refreshEvictBatch with 4096%Z.
  unfold evictOldestLocked. simpl.
  rewrite bool_decide_eq_false_2 by (intros ->; rewrite map_size_empty in Hbig; lia).
  destruct (oldest_picked st_CreatedAt (iter m) 4096 m ltac:(lia) (iter_all m)) as (Hnd & Hin & Hlen & _).
  cbv zeta in *. pose proof (drop_keys_size _ _ Hnd Hin). specialize (Hlen ltac:(lia)). lia.
Qed.

Lemma Save_size now rt m :
  (Z.of_nat (size m) <= refreshSweepThreshold)%Z -> (Z.of_nat (size (Save iter now rt m).2) <= refreshSweepThreshold)%Z.
Proof.
  intros Hb. unfold Save. destruct (String.eqb _ _); [done|]. cbn [snd].
  destruct (decide (m !! st_TokenHash rt = None)) as [Hn|Hs].
  - rewrite bool_decide_eq_true_2 by done. simpl.
    set (m1 := if (_ <=? _)%Z then _ else m).
    enough (Z.of_nat (size m1) < refreshSweepThreshold)%Z.
    { rewrite map_size_insert. destruct (m1 !! _); unfold id; lia. }
    unfold m1. destruct (Z.leb_spec refreshSweepThreshold (Z.of_nat (size m))); [|lia].
    assert (size (evictExpiredLocked now m) <= size m) by apply map_size_filter.
    destruct (Z.leb_spec refreshSweepThreshold (Z.of_nat (size (evictExpiredLocked now m)))) as [Hge|]; [|lia].
    pose proof (evictOldest_size _ Hge). change refreshEvictBatch with 4096%Z in *. lia.
  - rewrite bool_decide_eq_false_2 by done. simpl. rewrite map_size_insert_Some; [done|].
    by apply not_eq_None_Some.
Qed.

Lemma issue_size jwt_Sign userID tokenID familyID now later m :
  (Z.of_nat (size m) <= refreshSweepThreshold)%Z ->
  (Z.of_nat (size (issueRefreshToken iter jwt_Sign userID tokenID familyID now later m).2) <= refreshSweepThreshold)%Z.
Proof.
  intros Hb. unfold issueRefreshToken. destruct (jwt_Sign _) as [signed|]; [|done].
  pose proof (Save_size later (issued_record userID tokenID familyID signed now) m Hb).
  by destruct (Save _ _ _ _) as [[|] ?].
Qed.

Lemma visit_size jwt_Sign jwt_Parse s s' :
  visit iter jwt_Sign jwt_Parse s s' -> (Z.of_nat (size (as_table s)) <= refreshSweepThreshold)%Z ->
  (Z.of_nat (size (as_table s')) <= refreshSweepThreshold)%Z.
Proof.
  destruct 1 as [| |f m ids fl1 fl2|now id rt userID m ids fl1 fl2 _ _|userID tokenID g now later m ids fl1 fl2|token m ids fl];
    simpl; intros Hb; [done|done| | | |].
  - unfold revokeFamily, RevokeFamily. destruct (String.eqb _ _); [done|]. by rewrite map_size_fmap.
  - pose proof (Save_size now (consumed rt) m Hb) as Hs. by destruct (Save _ _ _ _).
  - by apply issue_size.
  - unfold RevokeRefreshToken, Revoke. by rewrite <-size_dom, dom_alter_L, size_dom.
Qed.
End bound.

(** The token table is bounded: however calls overlap, at any clock readings,
    it holds no more records than the sweep threshold, which is below the
    declared maximum; and an eviction that has to drop live records drops the
    oldest ones. *)
Theorem refresh_table_bounded iter jwt_Sign jwt_Parse s :
  (forall m, iter m ≡ₚ map_to_list m) -> auth_reachable iter jwt_Sign jwt_Parse s ->
  (Z.of_nat (size (as_table s)) <= refreshSweepThreshold)%Z /\
  (refreshSweepThreshold < maxRefreshTokenRecords)%Z /\
  forall m k k' r r', m !! k = Some r -> m !! k' = Some r' ->
    evictOldestLocked iter refreshEvictBatch m !! k = None ->
    evictOldestLocked iter refreshEvictBatch m !! k' = Some r' -> (st_CreatedAt r <= st_CreatedAt r')%Z.
Proof.
  intros Hit Hr. split_and!; [|done|].
  - unfold auth_reachable in Hr. remember (mkAuth ∅ [] []) as s0 eqn:E0.
    assert (Z.of_nat (size (as_table s0)) <= refreshSweepThreshold)%Z as Hb by (by subst s0).
    clear E0. induction Hr as [|s1 s2 s3 Hv _ IH]; [done|]. by eapply IH, visit_size.
  - intros m k k' r r' Hk Hk'. unfold evictOldestLocked.
    destruct (_ || _); [congruence|]. rewrite !drop_keys_lookup.
    destruct (oldest_picked st_CreatedAt (iter m) refreshEvictBatch m ltac:(done) (Hit m)) as (_ & _ & _ & Hord).
    cbv zeta in Hord. destruct (decide (k ∈ _)) as [D1|]; [|congruence].
    destruct (decide (k' ∈ _)) as [|D2]; [done|]. intros _ _. by apply (Hord k k').
Qed.

(** ** A login and its tokens *)

Definition demo_sign (c : RefreshClaims) : res string string := Ok ("t:" +:+ rc_ID c).
Definition demo_parse (now : time) (token : string) : res string string := Ok "ada"%string.
Definition demo_call (id : string) (now : time) : AuthTick := mkAuthTick (fun n => (now + Z.of_nat n)%Z) id.
Abbreviation demo_refresh := (Refresh map_to_list demo_sign demo_parse) (only parsing).
Abbreviation demo_visit := (visit map_to_list demo_sign demo_parse) (only parsing).
Abbreviation demo_reachable := (auth_reachable map_to_list demo_sign demo_parse) (only parsing).
Definition demo_table1 : TokenTable := (IssueRefreshToken map_to_list demo_sign (demo_call "a" 1) "ada" ∅).2.
Definition demo_table2 : TokenTable := (demo_refresh (demo_call "b" 10) "t:a" demo_table1).2.

Lemma demo_fresh_b : fresh_id demo_sign "b" demo_table1 ["a"%string].
Proof.
  split_and!; [set_solver|discriminate|]. intros c signed Hc Hs. unfold demo_sign in Hs. rewrite Hc in Hs.
  injection Hs as <-. vm_compute. reflexivity.
Qed.

Lemma login_reachable : demo_reachable (mkAuth demo_table1 ["a"%string] []).
Proof. apply IssueRefreshToken_visits; [set_solver|discriminate]. Qed.

Lemma rotated_reachable : exists ids, ids ⊆ ["b"; "a"]%string /\ demo_reachable (mkAuth demo_table2 ids []).
Proof.
  destruct (Refresh_visits map_to_list demo_sign demo_parse (demo_call "b" 10) "t:a" demo_table1 ["a"%string] [])
    as (ids & Hi & Hv); [set_solver|discriminate|].
  exists ids. split; [exact Hi|]. unfold auth_reachable. etrans; [exact login_reachable|exact Hv].
Qed.

Definition demo_record : StoredRefreshToken := issued_record "ada" "a" "a" "t:a" 1.
Definition demo_record2 : StoredRefreshToken := issued_record "ada" "b" "a" "t:b" 13.

Lemma demo_table1_ok : table_ok (demo_table1, ["a"%string]).
Proof.
  assert (demo_table1 = {[ hashToken "t:a" := demo_record ]}) as -> by (vm_compute; reflexivity).
  split; simpl.
  - intros h r [<- <-]%lookup_singleton_Some. split_and!; [reflexivity|set_solver|discriminate].
  - intros h h' r r' [<- <-]%lookup_singleton_Some [<- <-]%lookup_singleton_Some. done.
Qed.

Lemma rotation_discipline_witness :
  match demo_refresh (demo_call "b" 10) "t:a" demo_table1 with
  | (Ok signed, m') => signed = "t:b"%string /\
      forall h r, m' !! h = Some r -> live_token r -> st_FamilyID r = "a"%string -> h = hashToken signed
  | _ => False
  end.
Proof.
  pose proof (rotation_discipline map_to_list demo_sign demo_parse demo_table1 ["a"%string] (demo_call "b" 10) "t:a"
    demo_table1_ok demo_fresh_b) as Hrot.
  destruct (Refresh _ _ _ _ _ demo_table1) as [res m'] eqn:E. destruct Hrot as [_ Hrot].
  assert (res = Ok "t:b"%string) as -> by (change res with (res, m').1; rewrite <-E; vm_compute; reflexivity).
  split; [reflexivity|]. destruct Hrot as (rt & rn & Hrt & _ & _ & _ & _ & _ & _ & Honly).
  assert (st_FamilyID rt = "a"%string) as Hf.
  { assert (st_FamilyID <$> demo_table1 !! hashToken "t:a" = Some "a"%string) as Hd by (vm_compute; reflexivity).
    rewrite Hrt in Hd. injection Hd as Hd. exact Hd. }
  rewrite Hf in Honly. exact Honly.
Defined.

(** A consumed token is presented: it and, once the family is revoked, its
    successor are refused. *)
Lemma replay_kills_family_witness :
  (demo_refresh (demo_call "c" 20) "t:a" demo_table2).1 = Err ErrRefreshTokenReused /\
  is_ok (demo_refresh (demo_call "d" 30) "t:b" (revokeFamily "a" demo_table2)).1 = false.
Proof.
  destruct rotated_reachable as (ids & _ & Hreach).
  assert (exists rt, demo_table2 !! hashToken "t:a" = Some rt /\ st_Used rt = true /\ st_FamilyID rt = "a"%string)
    as (rt & Hrt & Hu & Hf) by (eexists; split; [vm_compute; reflexivity|split; reflexivity]).
  pose proof (replay_kills_family map_to_list demo_sign demo_parse (mkAuth demo_table2 ids []) (demo_call "c" 20) "t:a" "ada" rt
    Hreach Hrt Hu eq_refl) as Hrep.
  cbn [as_table as_ids as_flight] in Hrep. destruct Hrep as (Hres & _ & Hdead). split; [exact Hres|].
  destruct (Hdead demo_table2 ids [] [] (rtc_refl _ _) (Forall_nil_2 _) _ (rtc_refl _ _)) as (_ & _ & Hno).
  cbn [as_table] in Hno. rewrite Hf in Hno.
  assert (st_FamilyID <$> revokeFamily "a" demo_table2 !! hashToken "t:b" = Some "a"%string) as Hb by (vm_compute; reflexivity).
  destruct (revokeFamily "a" demo_table2 !! hashToken "t:b") as [r|] eqn:Hr; [|discriminate Hb]. injection Hb as Hfr.
  exact (proj1 (Hno (demo_call "d" 30) "t:b"%string r Hr Hfr)).
Defined.

(** The hypothesis on rotations in flight is needed.  The holder's refresh of the
    live token has read its record when the replay of the consumed one is
    refused and revokes the family; it then stores a successor, which is live
    in the revoked family and refreshes on. *)
Definition race_table : TokenTable :=
  (Refresh_rotate map_to_list demo_sign (demo_call "c" 20) demo_record2 "ada" (revokeFamily "a" demo_table2)).2.

Example replay_race : exists ids,
  demo_reachable (mkAuth demo_table2 ids []) /\
  Refresh_read demo_parse (demo_call "c" 20) "t:b" demo_table2 = ReadLive demo_record2 "ada" /\
  Refresh_read demo_parse (demo_call "d" 21) "t:a" demo_table2 = ReadReused (Some "a"%string) /\
  rtc demo_visit (mkAuth (revokeFamily "a" demo_table2) ids [PConsume demo_record2 "ada"]) (mkAuth race_table ("c"%string :: ids) []) /\
  (st_FamilyID <$> race_table !! hashToken "t:c") = Some "a"%string /\
  (demo_refresh (demo_call "e" 40) "t:c" race_table).1 = Ok "t:e"%string.
Proof.
  destruct rotated_reachable as (ids & Hi & Hreach). exists ids.
  split; [exact Hreach|]. split; [vm_compute; reflexivity|]. split; [vm_compute; reflexivity|].
  split; [|split; vm_compute; reflexivity].
  assert ("c"%string ∉ ids) as Hc by set_solver.
  exact (Refresh_rotate_visits map_to_list demo_sign demo_parse (demo_call "c" 20) demo_record2 "ada" (revokeFamily "a" demo_table2)
    ids [] Hc ltac:(discriminate)).
Qed.

Lemma concurrent_refresh_forks_family_witness :
  let '(ca, m1) := Refresh_check demo_parse (demo_call "b" 10) "t:a" demo_table1 in
  let '(cb, m2) := Refresh_check demo_parse (demo_call "c" 20) "t:a" m1 in
  let '(ra, m3) := Refresh_rotate map_to_list demo_sign (demo_call "b" 10) demo_record "ada" m2 in
  let '(rb, m4) := Refresh_rotate map_to_list demo_sign (demo_call "c" 20) demo_record "ada" m3 in
  ca = Ok (demo_record, "ada"%string) /\ cb = Ok (demo_record, "ada"%string) /\
  ra = Ok "t:b"%string /\ rb = Ok "t:c"%string.
Proof.
  assert (demo_table1 !! hashToken "t:a" = Some demo_record) as Hm by (vm_compute; reflexivity).
  assert (st_TokenHash demo_record = hashToken "t:a") as Hh by (vm_compute; reflexivity).
  assert (Forall (fun t => demo_parse (au_clock t 0) "t:a" = Ok "ada"%string /\
    (au_clock t 1 <= st_ExpiresAt demo_record)%Z) [demo_call "b" 10; demo_call "c" 20]) as HF.
  { repeat constructor; vm_compute; discriminate. }
  assert (NoDup [hashToken "t:a"; hashToken "t:b"; hashToken "t:c"]) as Hnd.
  { apply (bool_decide_unpack _). vm_compute. exact I. }
  assert (Z.of_nat (size demo_table1) + 1 < refreshSweepThreshold)%Z as Hsz by (vm_compute; reflexivity).
  pose proof (concurrent_refresh_forks_family map_to_list demo_sign demo_parse (demo_call "b" 10) (demo_call "c" 20)
    "t:a" "ada" "t:b" "t:c" demo_record demo_table1 Hm Hh (conj eq_refl eq_refl) ltac:(discriminate) HF
    eq_refl eq_refl Hnd Hsz) as Hfork.
  destruct (Refresh_check _ _ _ demo_table1) as [ca m1]. destruct (Refresh_check _ _ _ m1) as [cb m2].
  destruct Hfork as (Hca & Hcb & Hfork).
  destruct (Refresh_rotate _ _ _ _ _ m2) as [ra m3]. destruct (Refresh_rotate _ _ _ _ _ m3) as [rb m4].
  destruct Hfork as (Hra & Hrb & _). exact (conj Hca (conj Hcb (conj Hra Hrb))).
Defined.

Definition demo_state1 : auth_state := mkAuth demo_table1 ["a"%string] [].

Lemma refresh_table_bounded_witness : (Z.of_nat (size (as_table demo_state1)) <= refreshSweepThreshold)%Z.
Proof.
  exact (proj1 (refresh_table_bounded map_to_list demo_sign demo_parse demo_state1 (fun m => Permutation_refl _) login_reachable)).
Defined.
