(* ===== verification/Tasks.v ===== *)
(** * internal/task: the task domain, its service and its PostgreSQL store

    task.go, service.go, list.go and infrastructure/postgres/tasks.go: the
    lifecycle, the cursor text, the bounded listing and the service methods. *)

From S2P Require Import Prelude GoLib GoText Keyset.

(** ** task.go *)

Inductive err : Type :=
| ErrInvalidInput
| ErrNotFound
| ErrWorkspaceMismatch
| ErrInvalidTransition
| ErrTerminalState
| ErrPriority
| ErrStatus
| ErrAssigneeType
| ErrInvalidCursor
| ErrStore (msg : string).

#[export] Instance err_eq_dec : EqDecision err.
Proof. solve_decision. Defined.

Inductive Status : Type :=
| StatusBacklog | StatusPlanned | StatusInProgress | StatusInReview
| StatusCompleted | StatusCancelled | StatusRejected | StatusFailed
| StatusOther (text : string).

#[export] Instance Status_eq_dec : EqDecision Status.
Proof. solve_decision. Defined.

Inductive Priority : Type :=
| PriorityLow | PriorityNormal | PriorityHigh | PriorityUrgent | PriorityOther (text : string).

#[export] Instance Priority_eq_dec : EqDecision Priority.
Proof. solve_decision. Defined.

(** The empty text means "not given". *)
Inductive AssigneeType : Type :=
| AssigneeAI | AssigneeHuman | AssigneeOther (text : string).

#[export] Instance AssigneeType_eq_dec : EqDecision AssigneeType.
Proof. solve_decision. Defined.

Definition no_priority : Priority := PriorityOther "".
Definition no_assignee : AssigneeType := AssigneeOther "".

Record Task : Type := mkTask {
  k_ID : uuid;
  k_WorkspaceID : uuid;
  k_Title : string;
  k_Description : string;
  k_Status : Status;
  k_Priority : Priority;
  k_AssigneeType : AssigneeType;
  k_AssigneeID : option uuid;
  k_Deadline : option time;
  k_CreatedAt : time;
  k_UpdatedAt : time
}.

Definition ValidStatus (s : Status) : bool := match s with StatusOther _ => false | _ => true end.
Definition ValidPriority (p : Priority) : bool := match p with PriorityOther _ => false | _ => true end.
Definition ValidAssigneeType (t : AssigneeType) : bool := match t with AssigneeOther _ => false | _ => true end.

Definition New (workspaceID : uuid) (title : string) (p : Priority) (description : string) (id : uuid) (now : time)
  : res err Task :=
  guard! negb (workspaceID =? uuid_Nil)%N else ErrWorkspaceMismatch in
  guard! negb (String.eqb title "") else ErrInvalidInput in
  guard! ValidPriority p else ErrPriority in
  Ok (mkTask id workspaceID title description StatusBacklog p no_assignee None None now now).

Definition terminal (s : Status) : bool :=
  match s with
  | StatusCompleted | StatusCancelled | StatusFailed | StatusRejected => true
  | _ => false
  end.

Definition allowedTransition (from to : Status) : bool :=
  match from with
  | StatusBacklog => bool_decide (to = StatusPlanned) || bool_decide (to = StatusCancelled) || bool_decide (to = StatusFailed)
  | StatusPlanned => bool_decide (to = StatusInProgress) || bool_decide (to = StatusCancelled) || bool_decide (to = StatusFailed)
  | StatusInProgress => bool_decide (to = StatusInReview) || bool_decide (to = StatusCancelled) || bool_decide (to = StatusFailed)
  | StatusInReview => bool_decide (to = StatusCompleted) || bool_decide (to = StatusRejected)
                      || bool_decide (to = StatusCancelled) || bool_decide (to = StatusFailed)
  | _ => false
  end.

Definition CanTransition (from to : Status) : option err :=
  if negb (ValidStatus from) || negb (ValidStatus to) then Some ErrStatus
  else if terminal from then Some ErrTerminalState
  else if bool_decide (from = to) then Some ErrInvalidTransition
  else if negb (allowedTransition from to) then Some ErrInvalidTransition
  else None.

(** ** list.go *)

Definition DefaultPageSize : Z := 50.
Definition MaxPageSize : Z := 200.

Record Cursor : Type := mkCursor { c_CreatedAt : time; c_ID : uuid; c_Set : bool }.
Definition no_cursor : Cursor := mkCursor 0 0 false.

Record ListQuery : Type := mkQuery { q_Status : option Status; q_Limit : Z; q_Before : Cursor }.

Definition Normalize (q : ListQuery) : ListQuery :=
  let limit := if (q_Limit q <=? 0)%Z then DefaultPageSize else q_Limit q in
  mkQuery (q_Status q) (if (MaxPageSize <? limit)%Z then MaxPageSize else limit) (q_Before q).

Record Page : Type := mkPage { pg_Tasks : list Task; pg_NextCursor : string; pg_Limit : Z }.

Section cursor.
Context `{UuidText, UuidParse}.

Definition EncodeCursor (t : Task) : string :=
  strconv_Itoa (UnixNano (k_CreatedAt t)) +:+ "." +:+ uuid_String (k_ID t).

Definition min_cursor_nano : Z := -6795364578871345152.
Definition max_cursor_nano : Z := 2534023007999999999.

Definition DecodeCursor (s : string) : res err Cursor :=
  if String.eqb s "" then Ok no_cursor
  else match cut_bytes 46 (bytes s) with
       | None => Err ErrInvalidCursor
       | Some (ts, id) =>
           match ParseInt (of_bytes ts) with
           | None => Err ErrInvalidCursor
           | Some nano =>
               if (nano <? min_cursor_nano)%Z || (max_cursor_nano <? nano)%Z then Err ErrInvalidCursor
               else match uuid_Parse (of_bytes id) with
                    | None => Err ErrInvalidCursor
                    | Some idv => Ok (mkCursor nano idv true)
                    end
           end
       end.
End cursor.

(** [ValidateStatus] *)
Definition status_of (s : string) : Status :=
  if String.eqb s "backlog" then StatusBacklog else if String.eqb s "planned" then StatusPlanned
  else if String.eqb s "in_progress" then StatusInProgress else if String.eqb s "in_review" then StatusInReview
  else if String.eqb s "completed" then StatusCompleted else if String.eqb s "cancelled" then StatusCancelled
  else if String.eqb s "rejected" then StatusRejected else if String.eqb s "failed" then StatusFailed
  else StatusOther s.

Definition ValidateStatus (s : string) : res err Status :=
  let st := status_of s in guard! ValidStatus st else ErrStatus in Ok st.

(** ** infrastructure/postgres/tasks.go *)

(** The tasks table with the workspaces it refers to, and the identifier the
    database hands out next. *)
Record TaskDB : Type := mkTaskDB { td_rows : gmap uuid Task; td_workspaces : gset uuid; td_next : uuid }.

Definition with_rows (m : gmap uuid Task) (db : TaskDB) : TaskDB := mkTaskDB m (td_workspaces db) (td_next db).

Definition bad_text : err := ErrStore "22021".
Definition check_violation : err := ErrStore "23514".
Definition foreign_key_violation : err := ErrStore "23503".

(** The CHECK constraints of [tasks]. *)
Definition task_row_ok (t : Task) : bool :=
  ValidStatus (k_Status t) && ValidPriority (k_Priority t) && ValidAssigneeType (k_AssigneeType t)
  && negb (only_spaces (k_Title t)).

Section store.
Context `{StoredTime}.

Definition stored_row (t : Task) : Task :=
  mkTask (k_ID t) (k_WorkspaceID t) (k_Title t) (k_Description t) (k_Status t) (k_Priority t) (k_AssigneeType t)
    (k_AssigneeID t) (option_map stored_time (k_Deadline t)) (stored_time (k_CreatedAt t)) (stored_time (k_UpdatedAt t)).

Definition db_Create (t : Task) (now : time) (db : TaskDB) : res err (Task * TaskDB) :=
  let assigneeType := if bool_decide (k_AssigneeType t = no_assignee) then AssigneeAI else k_AssigneeType t in
  let id := td_next db in
  let t' := mkTask id (k_WorkspaceID t) (k_Title t) (k_Description t) (k_Status t) (k_Priority t) assigneeType
              (k_AssigneeID t) (k_Deadline t) (k_CreatedAt t) (k_UpdatedAt t) in
  let row := stored_row t' in
  guard! text_ok (k_Title t) && text_ok (k_Description t) else bad_text in
  guard! task_row_ok row else check_violation in
  guard! bool_decide (k_WorkspaceID t ∈ td_workspaces db) else foreign_key_violation in
  Ok (mkTask id (k_WorkspaceID t) (k_Title t) (k_Description t) (k_Status t) (k_Priority t) assigneeType
        (k_AssigneeID t) (k_Deadline t) (k_CreatedAt row) (k_UpdatedAt row),
      mkTaskDB (<[id := row]> (td_rows db)) (td_workspaces db) (id + 1)%N).

Definition find_row (ws id : uuid) (db : TaskDB) : option Task :=
  match td_rows db !! id with
  | Some t => if (k_WorkspaceID t =? ws)%N then Some t else None
  | None => None
  end.

Definition db_Get (ws id : uuid) (db : TaskDB) : res err Task :=
  match find_row ws id db with Some t => Ok t | None => Err ErrNotFound end.

(** The columns the UPDATE sets, on the row that is there. *)
Definition updated_row (t row : Task) (now : time) : Task :=
  stored_row (mkTask (k_ID row) (k_WorkspaceID row) (k_Title t) (k_Description t) (k_Status t) (k_Priority t)
    (k_AssigneeType t) (k_AssigneeID t) (k_Deadline t) (k_CreatedAt row) now).

Definition db_Update (ws : uuid) (t : Task) (now : time) (db : TaskDB) : res err (Task * TaskDB) :=
  guard! text_ok (k_Title t) && text_ok (k_Description t) else bad_text in
  match find_row ws (k_ID t) db with
  | None => Err ErrNotFound
  | Some row =>
      let row' := updated_row t row now in
      guard! task_row_ok row' else check_violation in
      Ok (row', with_rows (<[k_ID t := row']> (td_rows db)) db)
  end.

Definition db_Delete (ws id : uuid) (now : time) (db : TaskDB) : res err (unit * TaskDB) :=
  match find_row ws id db with
  | None => Err ErrNotFound
  | Some _ => Ok (tt, with_rows (delete id (td_rows db)) db)
  end.

Definition in_status (status : option Status) (t : Task) : bool :=
  match status with Some s => bool_decide (k_Status t = s) | None => true end.

Definition all_rows (db : TaskDB) : list Task := map snd (map_to_list (td_rows db)).

(** The unordered listing: any order of the rows. *)
Definition db_List (ws : uuid) (status : option Status) (db : TaskDB) : res err (list Task) :=
  Ok (filter (fun t => (k_WorkspaceID t =? ws)%N && in_status status t = true) (all_rows db)).

(** (created_at, id) < (c, i), the parameter as the column's type *)
Definition cursor_position (c : Cursor) : option (time * uuid) :=
  if c_Set c then Some (stored_time (c_CreatedAt c), c_ID c) else None.

Definition matching (ws : uuid) (q : ListQuery) (t : Task) : bool :=
  (k_WorkspaceID t =? ws)%N && in_status (q_Status q) t && past k_CreatedAt k_ID (cursor_position (q_Before q)) t.

Definition db_ListPage `{UuidText} (ws : uuid) (q : ListQuery) (db : TaskDB) : res err Page :=
  let q := Normalize q in
  let limit := Z.to_nat (q_Limit q) in
  let '(shown, next) := keyset_page k_CreatedAt k_ID limit (filter (fun t => matching ws q t = true) (all_rows db)) in
  Ok (mkPage shown (match next with Some t => EncodeCursor t | None => "" end) (q_Limit q)).
End store.

(** ** service.go *)

Record AuditRecord : Type := mkAudit {
  ka_EventType : string; ka_ConstitutionalPrinciple : string; ka_Outcome : string;
  ka_WorkspaceID : uuid; ka_TaskID : option uuid; ka_TraceID : string; ka_SpanID : string
}.

Record Event : Type := mkEvent { ke_Type : string; ke_TaskID : uuid; ke_WorkspaceID : uuid; ke_Trace : string; ke_Span : string }.

Record World : Type := mkWorld {
  w_db : TaskDB;
  w_at : nat;                       (* store calls and clock readings so far *)
  w_audit : list AuditRecord;
  w_events : list Event
}.

(** The trace a context carries. *)
Record Ctx : Type := mkCtx { cx_trace : string; cx_span : string }.

Section service.
Context `{UuidText, StoredTime}.
Variable env : nat -> TxTick TaskDB.

Definition tx {A} (op : time -> TaskDB -> res err (A * TaskDB)) : act World err A := fun w =>
  let '(r, db) := run_tx ErrStore (env (w_at w)) op (w_db w) in
  (r, mkWorld db (S (w_at w)) (w_audit w) (w_events w)).
Definition read {A} (op : TaskDB -> res err A) : act World err A :=
  tx (fun _ db => try! a := op db in Ok (a, db)).
Definition now_ : act World err time := fun w =>
  (Ok (tt_now (env (w_at w))), mkWorld (w_db w) (S (w_at w)) (w_audit w) (w_events w)).
Definition audit (ev principle outcome : string) (ws : uuid) (id : option uuid) (trace span : string) : act World err unit :=
  act_mod (fun w => mkWorld (w_db w) (w_at w) (mkAudit ev principle outcome ws id trace span :: w_audit w) (w_events w)).
(** The sink's own error is discarded by every caller. *)
Definition emit (e : Event) : act World err unit :=
  act_mod (fun w => mkWorld (w_db w) (w_at w) (w_audit w) (e :: w_events w)).

(** [uuid.New]: the domain's identifier, replaced by the database's. *)
Variable draw : nat -> uuid.

Definition Create (ws : uuid) (title : string) (priority : Priority) (description : string) : act World err Task :=
  require! negb (ws =? uuid_Nil)%N else ErrWorkspaceMismatch ;;
  now <~ now_ ;;
  w <~ act_get ;;
  match New ws (TrimSpace title) priority description (draw (w_at w)) now with
  | Err e => audit "task.create" "Vision First" "failed" ws None "" "" ;;! act_fail e
  | Ok t =>
      r <~ act_try (tx (db_Create t)) ;;
      match r with
      | Err e => audit "task.create" "Vision First" "failed" ws (Some (k_ID t)) "" "" ;;! act_fail e
      | Ok t =>
          audit "task.create" "Vision First" "success" ws (Some (k_ID t)) "" "" ;;!
          emit (mkEvent "task.created" (k_ID t) ws "" "") ;;!
          act_ret t
      end
  end.

Definition Get (ws id : uuid) : act World err Task :=
  t <~ read (db_Get ws id) ;;
  require! (k_WorkspaceID t =? ws)%N else ErrWorkspaceMismatch ;;
  act_ret t.

Definition List (ws : uuid) (status : option Status) : act World err (list Task) := read (db_List ws status).

Definition ListPage (ws : uuid) (q : ListQuery) : act World err Page :=
  require! negb (ws =? uuid_Nil)%N else ErrWorkspaceMismatch ;;
  require! match q_Status q with Some s => ValidStatus s | None => true end else ErrStatus ;;
  read (db_ListPage ws (Normalize q)).

Definition set_k_Status (s : Status) (t : Task) : Task :=
  mkTask (k_ID t) (k_WorkspaceID t) (k_Title t) (k_Description t) s (k_Priority t) (k_AssigneeType t)
    (k_AssigneeID t) (k_Deadline t) (k_CreatedAt t) (k_UpdatedAt t).

Definition Transition (cx : Ctx) (ws id : uuid) (to : Status) : act World err Task :=
  require! ValidStatus to else ErrStatus ;;
  t <~ Get ws id ;;
  match CanTransition (k_Status t) to with
  | Some e =>
      audit "task.transition" "Human Oversight" "failed" ws (Some id) (cx_trace cx) (cx_span cx) ;;! act_fail e
  | None =>
      t <~ tx (db_Update ws (set_k_Status to t)) ;;
      audit "task.transition" "Human Oversight" "success" ws (Some id) (cx_trace cx) (cx_span cx) ;;!
      emit (mkEvent "task.transitioned" id ws (cx_trace cx) (cx_span cx)) ;;!
      act_ret t
  end.

(** The fields [Update] sets on what it read. *)
Definition edited (title : string) (priority : Priority) (description : option string) (assigneeType : AssigneeType)
    (assigneeID : option uuid) (deadline : option time) (t : Task) : Task :=
  mkTask (k_ID t) (k_WorkspaceID t)
    (if blank title then k_Title t else TrimSpace title)
    (match description with Some d => d | None => k_Description t end)
    (k_Status t)
    (if bool_decide (priority = no_priority) then k_Priority t else priority)
    (if bool_decide (assigneeType = no_assignee) then k_AssigneeType t else assigneeType)
    (match assigneeID with Some a => Some a | None => k_AssigneeID t end)
    (match deadline with Some d => Some d | None => k_Deadline t end)
    (k_CreatedAt t) (k_UpdatedAt t).

Definition Update (ws id : uuid) (title : string) (priority : Priority) (description : option string)
    (assigneeType : AssigneeType) (assigneeID : option uuid) (deadline : option time) : act World err Task :=
  t <~ Get ws id ;;
  require! bool_decide (priority = no_priority) || ValidPriority priority else ErrPriority ;;
  require! bool_decide (assigneeType = no_assignee) || ValidAssigneeType assigneeType else ErrAssigneeType ;;
  t <~ tx (db_Update ws (edited title priority description assigneeType assigneeID deadline t)) ;;
  audit "task.update" "Quality Over Speed" "success" ws (Some id) "" "" ;;!
  act_ret t.

Definition Delete (ws id : uuid) : act World err unit := tx (db_Delete ws id).
End service.
