(* ===== verification/TasksProps.v ===== *)
(** * What the task component guarantees

    The cursor text round-trips, pages walked by cursors enumerate the listing
    (and stay consistent while the table changes), and a task moves along its
    lifecycle. *)

From S2P Require Import Prelude GoLib GoText Keyset Tasks.

(** ** The cursor *)

Definition cursor_of (t : Task) : Cursor := mkCursor (k_CreatedAt t) (k_ID t) true.

Lemma DecodeCursor_Encode `{UuidParseLaws} t :
  in_int64 (k_CreatedAt t) ->
  DecodeCursor (EncodeCursor t) =
    if (min_cursor_nano <=? k_CreatedAt t)%Z && (k_CreatedAt t <=? max_cursor_nano)%Z
    then Ok (cursor_of t) else Err ErrInvalidCursor.
Proof.
  intros Hr. unfold DecodeCursor, EncodeCursor, UnixNano. rewrite wrap64_id by done.
  rewrite position_nonempty, cut_position, !of_bytes_bytes.
  rewrite ParseInt_Itoa by done. rewrite Z.ltb_antisym, (Z.ltb_antisym (k_CreatedAt t)), <-negb_andb.
  destruct (_ && _); [|done]. simpl. by rewrite uuid_Parse_String.
Qed.

(** Cursors round-trip.  For every task whose creation time fits in 64 bits the
    cursor issued for it decodes to exactly its position when the time lies
    between the two bounds the decoder accepts, and is refused otherwise. *)
Theorem cursor_roundtrip `{UuidParseLaws} t :
  in_int64 (k_CreatedAt t) ->
  DecodeCursor (EncodeCursor t) =
    if (min_cursor_nano <=? k_CreatedAt t)%Z && (k_CreatedAt t <=? max_cursor_nano)%Z
    then Ok (mkCursor (k_CreatedAt t) (k_ID t) true) else Err ErrInvalidCursor.
Proof. apply DecodeCursor_Encode. Qed.

(** ** Pages *)

Lemma EncodeCursor_nonempty `{UuidText} t : String.eqb (EncodeCursor t) "" = false.
Proof. apply position_nonempty. Qed.

Section pages.
Context `{UuidParseLaws} `{StoredTimeLaws}.
Variables (ws : uuid) (status : option Status) (limit : Z).

(** The rows of a table: under their own identifiers, their creation times
    as the column keeps them and within the decoder's bounds. *)
Definition rows_sane (db : TaskDB) : Prop :=
  map_Forall (fun id t => k_ID t = id /\ stored_time (k_CreatedAt t) = k_CreatedAt t /\
    (min_cursor_nano <= k_CreatedAt t <= max_cursor_nano)%Z) (td_rows db).

Definition query_at (c : Cursor) : ListQuery := mkQuery status limit c.
Definition page_size : nat := Z.to_nat (q_Limit (Normalize (query_at no_cursor))).
Definition wanted (t : Task) : bool := (k_WorkspaceID t =? ws)%N && in_status status t.

(** A client that follows the cursors, its [n]-th request answered from the
    [n]-th table of [dbs]. *)
Fixpoint walk (dbs : nat -> TaskDB) (fuel n : nat) (c : Cursor) : option (res err (list Task)) :=
  match fuel with
  | O => None
  | S fuel' =>
      match db_ListPage ws (query_at c) (dbs n) with
      | Err e => Some (Err e)
      | Ok page =>
          if String.eqb (pg_NextCursor page) "" then Some (Ok (pg_Tasks page))
          else match DecodeCursor (pg_NextCursor page) with
               | Err e => Some (Err e)
               | Ok c' =>
                   match walk dbs fuel' (S n) c' with
                   | Some (Ok l) => Some (Ok (pg_Tasks page ++ l))
                   | o => o
                   end
               end
      end
  end.

Lemma page_size_pos : 0 < page_size.
Proof.
  unfold page_size, Normalize, DefaultPageSize, MaxPageSize. simpl.
  destruct (Z.leb_spec limit 0); simpl; [lia|]. destruct (Z.ltb_spec 200 limit); lia.
Qed.

Lemma all_rows_elem db t : rows_sane db -> t ∈ all_rows db <-> td_rows db !! k_ID t = Some t.
Proof.
  intros Hs. unfold all_rows. rewrite list_elem_of_fmap. split.
  - intros ([i t'] & -> & Hi%elem_of_map_to_list). simpl in *. by destruct (Hs _ _ Hi) as [-> _].
  - intros Ht. exists (k_ID t, t). split; [done|]. by apply elem_of_map_to_list.
Qed.

Lemma all_rows_distinct db : rows_sane db -> distinct k_ID (all_rows db).
Proof.
  intros Hs. unfold distinct, all_rows. rewrite map_map. rewrite (map_ext_in _ fst); [apply NoDup_fst_map_to_list|].
  intros [i t] Hi%list_elem_of_In%elem_of_map_to_list. simpl. by destruct (Hs _ _ Hi) as [-> _].
Qed.

Lemma db_ListPage_keyset c db :
  exists lim, db_ListPage ws (query_at c) db =
    let '(shown, next) := keyset_page k_CreatedAt k_ID page_size (remaining k_CreatedAt k_ID wanted (cursor_position c) (all_rows db)) in
    Ok (mkPage shown (match next with Some t => EncodeCursor t | None => "" end) lim).
Proof.
  exists (q_Limit (Normalize (query_at c))). unfold db_ListPage, remaining. fold page_size.
  rewrite (list_filter_iff _ (fun t => wanted t && past k_CreatedAt k_ID (cursor_position c) t = true)); [done|].
  intros t. unfold matching, wanted, Normalize, query_at. done.
Qed.

(** The walk decodes the positions it was given. *)
Lemma walk_keyset dbs fuel n c :
  (forall m, rows_sane (dbs m)) ->
  walk dbs fuel n c =
    option_map Ok (keyset_walk k_CreatedAt k_ID wanted page_size (fun m => all_rows (dbs m)) fuel n (cursor_position c)).
Proof.
  intros Hs. revert n c. induction fuel as [|fuel IH]; intros n c; [done|]. cbn [walk keyset_walk].
  destruct (db_ListPage_keyset c (dbs n)) as [lim ->].
  destruct (keyset_page_cases k_CreatedAt k_ID wanted page_size (cursor_position c) (all_rows (dbs n)) page_size_pos)
    as [[_ ->]|(t & Ht & _ & ->)]; [done|].
  cbn [pg_NextCursor pg_Tasks]. rewrite EncodeCursor_nonempty.
  assert (t ∈ all_rows (dbs n)) as Hin.
  { apply list_elem_of_lookup_2 in Ht. by apply listing_elem in Ht as [? _]. }
  apply all_rows_elem in Hin; [|done]. destruct (Hs n _ _ Hin) as (_ & Hst & Hr). unfold min_cursor_nano, max_cursor_nano in Hr.
  rewrite DecodeCursor_Encode by (unfold in_int64; lia).
  unfold min_cursor_nano, max_cursor_nano. rewrite !(proj2 (Z.leb_le _ _)) by lia. cbn [andb]. rewrite IH.
  replace (cursor_position (cursor_of t)) with (position k_CreatedAt k_ID t)
    by (unfold cursor_position, cursor_of, position; simpl; by rewrite Hst).
  by destruct (keyset_walk _ _ _ _ _ _ _ _).
Qed.
End pages.

(** C36. Following the cursors lists every task once.  While other requests change
    the table between the pages - provided new tasks are newer than those
    already there - the client that follows the cursors finishes within as
    many requests as the table had rows, plus one; what it got is in strictly
    descending order, so nothing is repeated; everything it got was a matching
    row of one of the tables; and every task that stayed and matched throughout
    is there. *)
Theorem pages_enumerate `{UuidParseLaws} `{StoredTimeLaws} ws status limit dbs :
  (forall n, rows_sane (dbs n)) -> (forall n, moves_on k_CreatedAt k_ID (all_rows (dbs n)) (all_rows (dbs (S n)))) ->
  exists l, walk ws status limit dbs (S (length (all_rows (dbs 0)))) 0 no_cursor = Some (Ok l) /\
    StronglySorted (precedes k_CreatedAt k_ID) l /\
    (forall t, t ∈ l -> exists n, td_rows (dbs n) !! k_ID t = Some t /\
       k_WorkspaceID t = ws /\ in_status status t = true) /\
    (forall t, (forall n, td_rows (dbs n) !! k_ID t = Some t) ->
       k_WorkspaceID t = ws -> in_status status t = true -> t ∈ l).
Proof.
  intros Hs Hmv. rewrite walk_keyset by done.
  destruct (keyset_walk_moving k_CreatedAt k_ID (wanted ws status) (page_size status limit) (fun m => all_rows (dbs m))
    (S (length (all_rows (dbs 0)))) 0 (cursor_position no_cursor)) as (l & -> & Hst & Hsd & Hcp).
  - apply page_size_pos.
  - intros m. by apply all_rows_distinct.
  - done.
  - apply Nat.lt_succ_r, behind_le.
  - exists l. unfold wanted in *. split_and!; [done|done| |].
    + intros t (Hw & _ & n & _ & Hr)%Hsd. apply andb_true_iff in Hw as [Hw ?]. apply N.eqb_eq in Hw.
      exists n. split_and!; [by apply all_rows_elem|done..].
    + intros t Hr Hw Hst'. apply Hcp; [|done|].
      * by rewrite Hw, N.eqb_refl, Hst'.
      * intros m _. by apply all_rows_elem.
Qed.

(** ** The lifecycle *)

Definition status_step (s s' : Status) : Prop := allowedTransition s s' = true.
#[export] Instance status_step_dec s s' : Decision (status_step s s').
Proof. unfold status_step. apply _. Defined.

(** What a row of the table satisfies whatever was asked. *)
Definition tasks_ok `{StoredTime} (db : TaskDB) : Prop := map_Forall (fun id t =>
  k_ID t = id /\ (id < td_next db)%N /\ task_row_ok t = true /\ k_WorkspaceID t ∈ td_workspaces db /\
  stored_time (k_CreatedAt t) = k_CreatedAt t) (td_rows db).

(** What may become of a table: every task of the second is one of the first,
    identity and creation time kept and its status moved along the lifecycle, or
    is new and started in the backlog. *)
Definition evolves (db db' : TaskDB) : Prop :=
  td_workspaces db' = td_workspaces db /\ (td_next db <= td_next db')%N /\ forall id t', td_rows db' !! id = Some t' ->
    (exists t, td_rows db !! id = Some t /\ k_ID t' = k_ID t /\ k_WorkspaceID t' = k_WorkspaceID t /\
       k_CreatedAt t' = k_CreatedAt t /\ rtc status_step (k_Status t) (k_Status t')) \/
    ((td_next db <= id)%N /\ rtc status_step StatusBacklog (k_Status t')).

#[export] Instance evolves_preorder : PreOrder evolves.
Proof.
  split.
  - intros db. split_and!; [done|lia|]. intros id t Ht. left. exists t. split_and!; [done..|]. apply rtc_refl.
  - intros a b c (W1 & N1 & H1) (W2 & N2 & H2). split_and!; [congruence|lia|]. intros id t Ht.
    destruct (H2 _ _ Ht) as [(t1 & Ht1 & E1 & E2 & E3 & P1)|[Hid P1]]; [|right; split; [lia|done]].
    destruct (H1 _ _ Ht1) as [(t0 & Ht0 & F1 & F2 & F3 & P0)|[Hid P0]].
    + left. exists t0. split_and!; [done|congruence..|by etrans].
    + right. split; [done|by etrans].
Qed.

Lemma terminal_stays s s' : terminal s = true -> rtc status_step s s' -> s' = s.
Proof. intros Hs Hp. inversion Hp as [|? y ? Hxy _]; [done|]. by destruct s. Qed.

Section lifecycle.
Context `{UuidText, StoredTimeLaws}.
Variable env : nat -> TxTick TaskDB.
Variable draw : nat -> uuid.
Hypothesis alone : forall n db, tt_others (env n) db = db.

Inductive Request : Type :=
| ReqCreate (ws : uuid) (title : string) (p : Priority) (description : string)
| ReqTransition (cx : Ctx) (ws id : uuid) (to : Status)
| ReqUpdate (ws id : uuid) (title : string) (p : Priority) (description : option string) (a : AssigneeType)
    (who : option uuid) (deadline : option time)
| ReqDelete (ws id : uuid)
| ReqListPage (ws : uuid) (q : ListQuery).

Definition serve (r : Request) (w : World) : World :=
  match r with
  | ReqCreate ws title p d => (Create env draw ws title p d w).2
  | ReqTransition cx ws id to => (Transition env cx ws id to w).2
  | ReqUpdate ws id title p d a who dl => (Update env ws id title p d a who dl w).2
  | ReqDelete ws id => (Delete env ws id w).2
  | ReqListPage ws q => (ListPage env ws q w).2
  end.

Lemma task_tx_db {A} (op : time -> TaskDB -> res err (A * TaskDB)) w :
  w_db (tx env op w).2 = w_db w \/
  exists now a db', op now (w_db w) = Ok (a, db') /\ w_db (tx env op w).2 = db'.
Proof.
  unfold tx. destruct (run_tx_cases ErrStore (env (w_at w)) op (w_db w)) as [Hr|(a & db' & Ho & Hr)];
    rewrite alone in *; destruct (run_tx _ _ _ _) as [r db]; simpl in *; subst.
  - by left.
  - right. by eexists _, _, _.
Qed.

Lemma task_read_db {A} (op : TaskDB -> res err A) w : w_db (read env op w).2 = w_db w.
Proof.
  unfold read. destruct (task_tx_db (fun _ db => try! a := op db in Ok (a, db)) w) as [?|(now & a & db' & Ho & ->)]; [done|].
  apply res_bind_Ok in Ho as (? & _ & [= _ <-]). done.
Qed.

Lemma read_Ok {A} (op : TaskDB -> res err A) w a w' :
  read env op w = (Ok a, w') -> op (w_db w) = Ok a /\ w_db w' = w_db w.
Proof.
  intros Hr. pose proof (task_read_db op w) as Hdb. rewrite Hr in Hdb. split; [|done].
  unfold read, tx in Hr. destruct (run_tx _ _ _ _) as [r db] eqn:Ht. injection Hr as -> <-.
  apply run_tx_Ok in Ht. rewrite alone in Ht. by apply res_bind_Ok in Ht as (? & ? & [= <- _]).
Qed.

Lemma task_row_Some ws id db t :
  find_row ws id db = Some t <-> td_rows db !! id = Some t /\ k_WorkspaceID t = ws.
Proof.
  unfold find_row. destruct (td_rows db !! id) as [t'|]; [|naive_solver].
  destruct (N.eqb_spec (k_WorkspaceID t') ws); naive_solver.
Qed.

(** A method that first reads its task. *)
Lemma Get_then {A} ws id (f : Task -> act World err A) w :
  w_db (act_bind (Get env ws id) f w).2 = w_db w \/
  exists t w', td_rows (w_db w) !! id = Some t /\ k_WorkspaceID t = ws /\ w_db w' = w_db w /\
    act_bind (Get env ws id) f w = f t w'.
Proof.
  unfold Get, act_bind. pose proof (task_read_db (db_Get ws id) w) as Hdb.
  destruct (read env (db_Get ws id) w) as [[t|e] w'] eqn:Hr; [|by left].
  apply read_Ok in Hr as [Ht _]. unfold db_Get in Ht.
  destruct (find_row ws id (w_db w)) as [t'|] eqn:Hf; [|done]. injection Ht as ->.
  apply task_row_Some in Hf as [Hrow Hws]. subst ws. rewrite N.eqb_refl. right. by exists t, w'.
Qed.

(** What follows the store call leaves the table alone. *)
Lemma then_db {A B} (m : act World err A) (f : A -> act World err B) w :
  (forall a w, w_db (f a w).2 = w_db w) -> w_db (act_bind m f w).2 = w_db (m w).2.
Proof. intros Hf. unfold act_bind. destruct (m w) as [[a|e] w']; [apply Hf|done]. Qed.

(** A write of the store: the table evolves and stays well-formed. *)
Definition good_step (db db' : TaskDB) : Prop := tasks_ok db -> evolves db db' /\ tasks_ok db'.

Lemma good_refl db : good_step db db.
Proof. intros Hok. split; [reflexivity|done]. Qed.

(** Replacing the row [t] by [row]. *)
Lemma good_replace db t row :
  td_rows db !! k_ID t = Some t -> k_ID row = k_ID t -> k_WorkspaceID row = k_WorkspaceID t ->
  k_CreatedAt row = k_CreatedAt t -> rtc status_step (k_Status t) (k_Status row) -> task_row_ok row = true ->
  good_step db (with_rows (<[k_ID t := row]> (td_rows db)) db).
Proof.
  intros Ht E1 E2 E3 Hp Hrow Hok. split.
  - split_and!; [done|simpl; lia|]. intros id t' Ht'. left. simpl in Ht'.
    apply lookup_insert_Some in Ht' as [[<- <-]|[_ Ht']].
    + by exists t.
    + exists t'. split_and!; [done..|apply rtc_refl].
  - intros id t' Ht'. simpl in *. apply lookup_insert_Some in Ht' as [[<- <-]|[_ Ht']]; [|by apply Hok].
    destruct (Hok _ _ Ht) as (_ & ? & _ & ? & ?). rewrite E2, E3. by split_and!.
Qed.

Lemma good_delete db id : good_step db (with_rows (delete id (td_rows db)) db).
Proof.
  intros Hok. split.
  - split_and!; [done|simpl; lia|]. intros i t Ht. simpl in Ht. apply lookup_delete_Some in Ht as [_ Ht]. left. exists t. split_and!; [done..|apply rtc_refl].
  - intros i t Ht. simpl in Ht. apply lookup_delete_Some in Ht as [_ Ht]. by apply Hok.
Qed.

Lemma good_Create t now db a db' :
  k_Status t = StatusBacklog -> db_Create t now db = Ok (a, db') -> good_step db db'.
Proof.
  intros Hst Hc Hok. unfold db_Create in Hc. cbv zeta in Hc.
  apply guard_Ok in Hc as [_ Hc]. apply guard_Ok in Hc as [Hrow Hc]. apply guard_Ok in Hc as [Hws Hc].
  apply bool_decide_eq_true in Hws. injection Hc as _ <-. split.
  - split_and!; [done|simpl; lia|]. intros id t' Ht'. simpl in Ht'.
    apply lookup_insert_Some in Ht' as [[<- <-]|[_ Ht']].
    + right. split; [done|]. simpl. rewrite Hst. apply rtc_refl.
    + left. exists t'. split_and!; [done..|apply rtc_refl].
  - intros id t' Ht'. simpl in *. apply lookup_insert_Some in Ht' as [[<- <-]|[_ Ht']].
    + split_and!; [done|lia|done|done|apply stored_time_idem].
    + destruct (Hok _ _ Ht') as (? & ? & ? & ? & ?). split_and!; [done|simpl; lia|done..].
Qed.

(** An update by the task that was read, its status moved at most one step. *)
Lemma good_Update ws t0 t now db a db' :
  td_rows db !! k_ID t0 = Some t0 -> k_ID t = k_ID t0 ->
  rtc status_step (k_Status t0) (k_Status t) -> db_Update ws t now db = Ok (a, db') -> good_step db db'.
Proof.
  intros Ht0 Eid Hp Hu Hok. unfold db_Update in Hu. apply guard_Ok in Hu as [_ Hu].
  destruct (find_row ws (k_ID t) db) as [row|] eqn:Hf; [|done]. apply task_row_Some in Hf as [Hrow _].
  rewrite Eid, Ht0 in Hrow. injection Hrow as <-. cbv zeta in Hu. apply guard_Ok in Hu as [Hrow Hu].
  injection Hu as _ <-. rewrite Eid. apply good_replace; try done. by apply (Hok _ _ Ht0).
Qed.

Lemma good_tx {A} (op : time -> TaskDB -> res err (A * TaskDB)) w db :
  w_db w = db -> (forall now a db', op now db = Ok (a, db') -> good_step db db') ->
  good_step db (w_db (tx env op w).2).
Proof.
  intros <- Hop. destruct (task_tx_db op w) as [->|(now & a & db' & Ho & ->)]; [apply good_refl|by eapply Hop].
Qed.

Lemma CanTransition_step s to : CanTransition s to = None -> status_step s to.
Proof.
  unfold CanTransition, status_step. repeat case_match; try done. intros _.
  by apply negb_false_iff.
Qed.

Lemma row_key db id t : tasks_ok db -> td_rows db !! id = Some t -> id = k_ID t.
Proof. intros Hok Ht. by destruct (Hok _ _ Ht) as [? _]. Qed.

Lemma serve_good r w : good_step (w_db w) (w_db (serve r w)).
Proof.
  destruct r as [ws title p d|cx ws id to|ws id title p d a who dl|ws id|ws q]; cbn [serve].
  - unfold Create. case_match; [|apply good_refl]. unfold act_bind at 1. cbn [now_]. unfold act_bind at 1. cbn [act_get].
    destruct (New _ _ _ _ _ _) as [t|e] eqn:Hn; [|apply good_refl]. unfold New in Hn.
    apply guard_Ok in Hn as [_ Hn]. apply guard_Ok in Hn as [_ Hn]. apply guard_Ok in Hn as [_ Hn].
    rewrite then_db; [|intros [?|?] ?; done]. unfold act_try.
    match goal with |- context [tx env ?op ?w'] => pose proof (good_tx op w' (w_db w) eq_refl) as Hg;
      destruct (tx env op w') as [r w''] end.
    apply Hg. intros now x db' Hc. eapply good_Create; [|exact Hc]. by injection Hn as <-.
  - unfold Transition. case_match; [|apply good_refl].
    match goal with |- context [act_bind (Get env ws id) ?f w] =>
      destruct (Get_then ws id f w) as [Hg|(t & w' & Ht & Hws & Hdb & Hg)] end; [rewrite Hg; apply good_refl|].
    rewrite Hg. intros Hok. pose proof (row_key _ _ _ Hok Ht) as ->. revert Hok.
    destruct (CanTransition (k_Status t) to) as [e|] eqn:Hc; [simpl; rewrite Hdb; apply good_refl|].
    rewrite then_db by done. apply good_tx; [done|]. intros now x db' Hu.
    refine (good_Update ws t (set_k_Status to t) now _ x db' Ht eq_refl _ Hu). by apply rtc_once, CanTransition_step.
  - unfold Update.
    match goal with |- context [act_bind (Get env ws id) ?f w] =>
      destruct (Get_then ws id f w) as [Hg|(t & w' & Ht & Hws & Hdb & Hg)] end; [rewrite Hg; apply good_refl|].
    rewrite Hg. intros Hok. pose proof (row_key _ _ _ Hok Ht) as ->. revert Hok.
    destruct (bool_decide (p = _) || _); [|simpl; rewrite Hdb; apply good_refl].
    destruct (bool_decide (a = _) || _); [|simpl; rewrite Hdb; apply good_refl].
    rewrite then_db by done. apply good_tx; [done|]. intros now x db' Hu.
    refine (good_Update ws t (edited title p d a who dl t) now _ x db' Ht eq_refl _ Hu). apply rtc_refl.
  - apply good_tx; [done|]. intros now x db' Hd. unfold db_Delete in Hd.
    destruct (find_row _ _ _); [|done]. injection Hd as _ <-. apply good_delete.
  - unfold ListPage. case_match; [|apply good_refl]. case_match; [|apply good_refl].
    rewrite task_read_db. apply good_refl.
Qed.

Lemma requests_good rs w : good_step (w_db w) (w_db (fold_left (fun w r => serve r w) rs w)).
Proof.
  revert w. induction rs as [|r rs IH]; intros w; [apply good_refl|].
  intros Hok. destruct (serve_good r w Hok) as [He Hok']. destruct (IH (serve r w) Hok') as [He' Hok''].
  split; [by etrans|done].
Qed.
End lifecycle.

(** Tasks move along their lifecycle.  Whatever sequence of requests one
    workspace member after the other makes - creations, transitions, edits,
    deletions and listings, valid or not, with the database failing at any
    point, an acknowledgement lost after the commit included - every task that
    is still there keeps its identity, its workspace and its creation time, its
    status has moved along the allowed transitions only (not at all, if it was
    terminal), and a new task started in the backlog; and every row satisfies
    the table's constraints. *)
Theorem task_lifecycle `{UuidText, StoredTimeLaws} env draw rs w :
  (forall n db, tt_others (env n) db = db) -> tasks_ok (w_db w) ->
  let w' := fold_left (fun w r => serve env draw r w) rs w in
  tasks_ok (w_db w') /\
  (forall id t', td_rows (w_db w') !! id = Some t' ->
     (exists t, td_rows (w_db w) !! id = Some t /\ k_ID t' = k_ID t /\ k_WorkspaceID t' = k_WorkspaceID t /\
        k_CreatedAt t' = k_CreatedAt t /\ rtc status_step (k_Status t) (k_Status t') /\
        (terminal (k_Status t) = true -> k_Status t' = k_Status t)) \/
     ((td_next (w_db w) <= id)%N /\ rtc status_step StatusBacklog (k_Status t'))).
Proof.
  intros Halone Hok w'. destruct (requests_good env draw Halone rs w Hok) as [(_ & _ & He) Hok']. split; [done|].
  intros id t' Ht'. destruct (He _ _ Ht') as [(t & Ht & E1 & E2 & E3 & Hp)|?]; [left|by right].
  exists t. split_and!; [done..|]. intros Hterm. by apply terminal_stays.
Qed.

(** ** Concrete runs *)

#[local] Hint Extern 0 UuidText => exact unary_uuid : typeclass_instances.

#[local] Hint Extern 0 UuidParse => exact unary_parse : typeclass_instances.
#[local] Hint Extern 0 UuidParseLaws => exact unary_parse_laws : typeclass_instances.

#[local] Hint Extern 0 StoredTime => exact microseconds : typeclass_instances.
#[local] Hint Extern 0 StoredTimeLaws => exact microseconds_laws : typeclass_instances.

Definition demo_task (id : uuid) (s : Status) (created : time) : Task :=
  mkTask id 7 "Write the launch post" "" s PriorityNormal AssigneeAI None None created created.

Definition demo_table (n : nat) : TaskDB :=
  mkTaskDB (list_to_map (map (fun i => (N.of_nat i, demo_task (N.of_nat i) StatusInReview (Z.of_nat (i / 2) * 1000)))
              (seq 1 n))) {[7%N]} (N.of_nat n + 1).

Definition alone_env : nat -> TxTick TaskDB := fun n => mkTxTick (Z.of_nat n * 1000000) (fun db => db) NoFault.

(** The reviewer completes the task between the two statements of an edit. *)
Definition racing_env : nat -> TxTick TaskDB := fun n =>
  mkTxTick (Z.of_nat n * 1000000)
    (if Nat.eqb n 1 then fun db => w_db (Transition alone_env (mkCtx "" "") 7 1 StatusCompleted (mkWorld db 0 [] [])).2
     else fun db => db) NoFault.

Definition status_at (id : uuid) (db : TaskDB) : option Status := option_map k_Status (td_rows db !! id).

(** An edit undoes a transition it overlaps.  The editing request reads the
    task in review; the reviewer's transition then completes it; the edit, which
    may not touch the status, writes the status it read back: the completed -
    terminal - task is in review again, and the editor is told of success. *)
Theorem stale_update_reopens_task :
  let w := mkWorld (demo_table 1) 0 [] [] in
  let edit := Update racing_env 7 1 "Write the launch thread" no_priority None no_assignee None None w in
  status_at 1 (tt_others (racing_env 1) (w_db w)) = Some StatusCompleted /\ terminal StatusCompleted = true /\
  (exists t, edit.1 = Ok t /\ k_Status t = StatusInReview) /\
  status_at 1 (w_db edit.2) = Some StatusInReview.
Proof. cbv zeta. split_and!; [by vm_compute|done|eexists; split; by vm_compute|by vm_compute]. Qed.

Lemma cursor_roundtrip_witness :
  DecodeCursor (EncodeCursor (demo_task 2 StatusBacklog 1750000000000000000)) =
    Ok (mkCursor 1750000000000000000 2 true) /\
  DecodeCursor (EncodeCursor (demo_task 2 StatusBacklog 2534023008000000000)) = Err ErrInvalidCursor.
Proof.
  split.
  - rewrite (cursor_roundtrip (demo_task 2 StatusBacklog 1750000000000000000)); [reflexivity|].
    unfold in_int64. simpl. lia.
  - rewrite (cursor_roundtrip (demo_task 2 StatusBacklog 2534023008000000000)); [reflexivity|].
    unfold in_int64. simpl. lia.
Defined.

#[local] Instance tasks_ok_dec db : Decision (tasks_ok db).
Proof. unfold tasks_ok. apply _. Defined.
#[local] Instance rows_sane_dec db : Decision (rows_sane db).
Proof. unfold rows_sane. apply _. Defined.

Lemma task_lifecycle_witness :
  let w' := fold_left (fun w r => serve alone_env (fun _ => 0%N) r w)
              [ReqTransition (mkCtx "" "") 7 1 StatusCompleted; ReqTransition (mkCtx "" "") 7 1 StatusInReview;
               ReqCreate 7 "Plan" PriorityHigh ""] (mkWorld (demo_table 1) 0 [] []) in
  status_at 1 (w_db w') = Some StatusCompleted /\ status_at 2 (w_db w') = Some StatusBacklog /\ tasks_ok (w_db w').
Proof.
  cbv zeta. split; [by vm_compute|]. split; [by vm_compute|].
  refine (proj1 (task_lifecycle alone_env (fun _ => 0%N) _ _ _ _)); [done|].
  apply (bool_decide_unpack _). by vm_compute.
Defined.

Lemma pages_enumerate_witness :
  match walk 7 (Some StatusInReview) 2 (fun _ => demo_table 5) 6 0 no_cursor with
  | Some (Ok l) => map k_ID l = [5; 4; 3; 2; 1]%N
  | _ => False
  end /\
  exists l, walk 7 (Some StatusInReview) 2 (fun _ => demo_table 5) 6 0 no_cursor = Some (Ok l) /\
    StronglySorted (precedes k_CreatedAt k_ID) l /\ (forall t, td_rows (demo_table 5) !! k_ID t = Some t ->
       k_WorkspaceID t = 7%N -> in_status (Some StatusInReview) t = true -> t ∈ l).
Proof.
  split; [by vm_compute|].
  destruct (pages_enumerate 7 (Some StatusInReview) 2 (fun _ => demo_table 5)) as (l & Hl & Hs & _ & Hc).
  - intros _. apply (bool_decide_unpack _). by vm_compute.
  - intros _. apply moves_on_refl.
  - exists l. split; [exact Hl|]. split; [done|]. intros t Ht. apply Hc. by intros _.
Defined.
