(* ===== verification/Org.v ===== *)
(** * internal/department, internal/team, internal/aiemployee: the organisation

    Departments, teams and AI employees of a workspace: the domains, the
    services, and their PostgreSQL stores (infrastructure/postgres/departments.go,
    teams.go, aiemployees.go) over one set of tables with their foreign keys,
    unique indexes and row-level security. *)

From S2P Require Import Prelude GoLib GoText Keyset.

(** The sentinels of the three packages, which have the same names. *)
Inductive err : Type :=
| ErrInvalidInput
| ErrNotFound
| ErrWorkspaceMismatch
| ErrNameTaken
| ErrStore (msg : string).

Definition bad_text : err := ErrStore "22021".
Definition check_violation : err := ErrStore "23514".
Definition unique_violation : err := ErrStore "23505".
Definition foreign_key_violation : err := ErrStore "23503".

Record Department : Type := mkDepartment {
  d_ID : uuid; d_WorkspaceID : uuid; d_Name : string; d_CreatedAt : time; d_UpdatedAt : time
}.

Record Team : Type := mkTeam {
  t_ID : uuid; t_DepartmentID : uuid; t_WorkspaceID : uuid; t_Name : string; t_CreatedAt : time; t_UpdatedAt : time
}.

(** The JSON columns are kept as their text. *)
Record AIEmployee : Type := mkEmployee {
  m_ID : uuid; m_TeamID : uuid; m_DepartmentID : uuid; m_WorkspaceID : uuid; m_Name : string; m_Role : string;
  m_Capabilities : list string; m_Permissions : string; m_KnowledgeAccess : string; m_CurrentTaskID : option uuid;
  m_CreatedAt : time; m_UpdatedAt : time
}.

Definition NameMaxRunes : nat := 100.
Definition RoleMaxRunes : nat := 100.

(** ** The tables *)

Record DeptRow : Type := mkDeptRow { dr_Workspace : uuid; dr_Name : string; dr_CreatedAt : time }.
Record TeamRow : Type := mkTeamRow { tr_Department : uuid; tr_Name : string; tr_CreatedAt : time }.
Record EmpRow : Type := mkEmpRow {
  er_Team : uuid; er_Name : string; er_Role : string; er_Capabilities : list string; er_Permissions : string;
  er_KnowledgeAccess : string; er_CurrentTask : option uuid; er_CreatedAt : time; er_UpdatedAt : time
}.

(** With the workspaces departments refer to, and the employees that executions
    refer to. *)
Record OrgDB : Type := mkOrgDB {
  o_depts : gmap uuid DeptRow; o_teams : gmap uuid TeamRow; o_emps : gmap uuid EmpRow;
  o_workspaces : gset uuid; o_busy : gset uuid
}.

Definition with_depts (m : gmap uuid DeptRow) (db : OrgDB) : OrgDB := mkOrgDB m (o_teams db) (o_emps db) (o_workspaces db) (o_busy db).
Definition with_teams (m : gmap uuid TeamRow) (db : OrgDB) : OrgDB := mkOrgDB (o_depts db) m (o_emps db) (o_workspaces db) (o_busy db).
Definition with_emps (m : gmap uuid EmpRow) (db : OrgDB) : OrgDB := mkOrgDB (o_depts db) (o_teams db) m (o_workspaces db) (o_busy db).

(** The workspace a row belongs to, by the joins. *)
Definition dept_ws (db : OrgDB) (id : uuid) : option uuid := option_map dr_Workspace (o_depts db !! id).
Definition team_ws (db : OrgDB) (id : uuid) : option uuid :=
  match o_teams db !! id with Some r => dept_ws db (tr_Department r) | None => None end.
Definition emp_ws (db : OrgDB) (id : uuid) : option uuid :=
  match o_emps db !! id with Some r => team_ws db (er_Team r) | None => None end.

Definition owned (o : option uuid) (ws : uuid) : bool := bool_decide (o = Some ws).

(** What [lower] of PostgreSQL makes of a name, and the order of names under
    the database's collation. *)
Class SqlLower : Type := sql_lower : string -> string.
Class Collation : Type := name_leb : string -> string -> bool.

(** Some row of a table other than [except] has the name and the parent. *)
Definition name_taken `{SqlLower} {R} (parent : R -> uuid) (name : R -> string) (p : uuid) (n : string) (except : option uuid)
    (m : gmap uuid R) : bool :=
  existsb (fun kv => (parent kv.2 =? p)%N && String.eqb (sql_lower (name kv.2)) (sql_lower n)
                     && negb (bool_decide (except = Some kv.1))) (map_to_list m).

(** ORDER BY created_at, name *)
Definition listed `{Collation} {R} (created : R -> time) (name : R -> string) (a b : R) : Prop :=
  (created a < created b)%Z \/ (created a = created b /\ name_leb (name a) (name b) = true).
#[export] Instance listed_dec `{Collation} {R} created name (a b : R) : Decision (listed created name a b).
Proof. unfold listed. apply _. Defined.

(** The deletion of the teams that satisfy [P], with their employees; refused
    when an execution refers to one of those. *)
Definition remove_teams (P : uuid -> TeamRow -> bool) (db : OrgDB) : res err OrgDB :=
  let gone (i : uuid) := match o_teams db !! i with Some r => P i r | None => false end in
  let left := filter (fun kv => gone (er_Team kv.2) = false) (o_emps db) in
  guard! bool_decide (set_Forall (fun i => is_Some (left !! i)) (o_busy db ∩ dom (o_emps db))) else foreign_key_violation in
  Ok (mkOrgDB (o_depts db) (filter (fun kv => P kv.1 kv.2 = false) (o_teams db)) left (o_workspaces db) (o_busy db)).

(** ** Listing queries *)

Record Cursor : Type := mkCursor { c_Set : bool; c_ID : uuid }.
Definition no_cursor : Cursor := mkCursor false uuid_Nil.

(** [Parent] is the filter of the teams and of the employees. *)
Record ListQuery : Type := mkQuery { q_Limit : Z; q_Parent : option uuid; q_Cursor : Cursor }.

Definition Normalize (q : ListQuery) : ListQuery :=
  let limit := if (q_Limit q <=? 0)%Z then 50%Z else q_Limit q in
  mkQuery (if (200 <? limit)%Z then 200%Z else limit) (q_Parent q) (q_Cursor q).

Record Page (A : Type) : Type := mkPage { pg_Rows : list A; pg_NextCursor : string; pg_Limit : Z }.
Arguments mkPage {A}.
Arguments pg_Rows {A}.
Arguments pg_NextCursor {A}.
Arguments pg_Limit {A}.

Definition DecodeCursor `{UuidParse} (s : string) : res err Cursor :=
  if String.eqb s "" then Ok no_cursor
  else match uuid_Parse s with Some id => Ok (mkCursor true id) | None => Err ErrInvalidInput end.

Section stores.
Context `{UuidText, StoredTime, SqlLower, Collation}.

(** Whether row-level security is in force on the connection. *)
Variable rls : bool.

(** What the policy shows the workspace [ws]: rows of its own. *)
Definition seen (o : option uuid) (ws : uuid) : bool := negb rls || owned o ws.

(** The rows a query selects, as the records it scans them into. *)
Definition scan {R A} (f : uuid -> R -> option A) (m : gmap uuid R) : list A := omap (fun kv => f kv.1 kv.2) (map_to_list m).

(** One page of [rows], the cursor naming the last row shown by its identifier. *)
Definition page_of {A} (created : A -> time) (ident : A -> uuid) (limit : Z) (at_ : option (time * uuid)) (rows : list A) : Page A :=
  let '(shown, next) := keyset_page created ident (Z.to_nat limit) (filter (fun x => past created ident at_ x = true) rows) in
  mkPage shown (match next with Some x => uuid_String (ident x) | None => "" end) limit.

(** *** departments.go *)

Definition dept_of (id : uuid) (r : DeptRow) : Department := mkDepartment id (dr_Workspace r) (dr_Name r) (dr_CreatedAt r) (dr_CreatedAt r).
Definition dept_in (ws : uuid) (id : uuid) (r : DeptRow) : option Department :=
  if (dr_Workspace r =? ws)%N then Some (dept_of id r) else None.

Definition dept_Create (d : Department) (now : time) (db : OrgDB) : res err (Department * OrgDB) :=
  let row := mkDeptRow (d_WorkspaceID d) (d_Name d) (stored_time (d_CreatedAt d)) in
  guard! text_ok (d_Name d) else bad_text in
  guard! negb (name_taken dr_Workspace dr_Name (d_WorkspaceID d) (d_Name d) None (o_depts db)) else ErrNameTaken in
  guard! negb (only_spaces (d_Name d)) else check_violation in
  match o_depts db !! d_ID d with
  | Some _ => Err ErrNameTaken
  | None =>
      guard! bool_decide (d_WorkspaceID d ∈ o_workspaces db) else foreign_key_violation in
      Ok (dept_of (d_ID d) row, with_depts (<[d_ID d := row]> (o_depts db)) db)
  end.

Definition dept_Get (ws id : uuid) (db : OrgDB) : res err Department :=
  match o_depts db !! id with
  | Some r => match dept_in ws id r with Some d => Ok d | None => Err ErrNotFound end
  | None => Err ErrNotFound
  end.

Definition dept_List (ws : uuid) (db : OrgDB) : res err (list Department) :=
  Ok (merge_sort (listed d_CreatedAt d_Name) (scan (dept_in ws) (o_depts db))).

Definition dept_ListPage (ws : uuid) (q : ListQuery) (db : OrgDB) : res err (Page Department) :=
  let q := Normalize q in
  try! at_ := (if c_Set (q_Cursor q) then
                 match dept_Get ws (c_ID (q_Cursor q)) db with
                 | Ok d => Ok (Some (d_CreatedAt d, d_ID d))
                 | Err _ => Err ErrInvalidInput
                 end
               else Ok None) in
  Ok (page_of d_CreatedAt d_ID (q_Limit q) at_ (scan (dept_in ws) (o_depts db))).

(** [DepartmentStore.Update]: two statements, each at READ COMMITTED with a view
    of its own.  A name that is taken between them is refused by the index. *)
Definition dept_Update_check (ws : uuid) (d : Department) (db : OrgDB) : res err unit :=
  guard! text_ok (d_Name d) else bad_text in
  guard! negb (name_taken dr_Workspace dr_Name ws (d_Name d) (Some (d_ID d)) (o_depts db)) else ErrNameTaken in Ok tt.

Definition dept_Update (ws : uuid) (d : Department) (now : time) (db : OrgDB) : res err (Department * OrgDB) :=
  match o_depts db !! d_ID d with
  | Some r =>
      guard! (dr_Workspace r =? ws)%N else ErrNotFound in
      let row := mkDeptRow (dr_Workspace r) (d_Name d) (dr_CreatedAt r) in
      guard! negb (only_spaces (d_Name d)) else check_violation in
      guard! negb (name_taken dr_Workspace dr_Name ws (d_Name d) (Some (d_ID d)) (o_depts db)) else unique_violation in
      Ok (dept_of (d_ID d) row, with_depts (<[d_ID d := row]> (o_depts db)) db)
  | None => Err ErrNotFound
  end.

Definition dept_Delete (ws id : uuid) (now : time) (db : OrgDB) : res err (unit * OrgDB) :=
  guard! owned (dept_ws db id) ws else ErrNotFound in
  try! db' := remove_teams (fun _ r => (tr_Department r =? id)%N) db in
  Ok (tt, with_depts (delete id (o_depts db')) db').

(** [DepartmentResolverAdapter.Get] *)
Definition resolve_dept (ws id : uuid) (db : OrgDB) : res err uuid :=
  match dept_ws db id with
  | Some w =>
      guard! seen (Some w) ws else ErrNotFound in
      guard! (w =? ws)%N else ErrWorkspaceMismatch in Ok w
  | None => Err ErrNotFound
  end.

(** *** teams.go *)

Definition team_of (ws id : uuid) (r : TeamRow) : Team := mkTeam id (tr_Department r) ws (tr_Name r) (tr_CreatedAt r) (tr_CreatedAt r).
Definition team_in (db : OrgDB) (ws id : uuid) (r : TeamRow) : option Team :=
  if owned (dept_ws db (tr_Department r)) ws then Some (team_of ws id r) else None.

(** The check both writes of a team begin with. *)
Definition check_dept (ws dept : uuid) (db : OrgDB) : res err unit :=
  match dept_ws db dept with
  | Some w =>
      guard! seen (Some w) ws else ErrInvalidInput in
      guard! (w =? ws)%N else ErrWorkspaceMismatch in Ok tt
  | None => Err ErrInvalidInput
  end.

Definition team_Create (t : Team) (now : time) (db : OrgDB) : res err (Team * OrgDB) :=
  try! _ := check_dept (t_WorkspaceID t) (t_DepartmentID t) db in
  let row := mkTeamRow (t_DepartmentID t) (t_Name t) (stored_time (t_CreatedAt t)) in
  guard! text_ok (t_Name t) else bad_text in
  guard! negb (name_taken tr_Department tr_Name (t_DepartmentID t) (t_Name t) None (o_teams db)) else ErrNameTaken in
  guard! negb (only_spaces (t_Name t)) else check_violation in
  match o_teams db !! t_ID t with
  | Some _ => Err ErrNameTaken
  | None => Ok (team_of (t_WorkspaceID t) (t_ID t) row, with_teams (<[t_ID t := row]> (o_teams db)) db)
  end.

Definition team_Get (ws id : uuid) (db : OrgDB) : res err Team :=
  match o_teams db !! id with
  | Some r => match team_in db ws id r with Some t => Ok t | None => Err ErrNotFound end
  | None => Err ErrNotFound
  end.

Definition in_parent (parent : option uuid) (p : uuid) : bool := match parent with Some q => (p =? q)%N | None => true end.

Definition team_List (ws : uuid) (dept : option uuid) (db : OrgDB) : res err (list Team) :=
  Ok (merge_sort (listed t_CreatedAt t_Name)
        (filter (fun t => in_parent dept (t_DepartmentID t) = true) (scan (team_in db ws) (o_teams db)))).

Definition team_ListPage (ws : uuid) (q : ListQuery) (db : OrgDB) : res err (Page Team) :=
  let q := Normalize q in
  try! at_ := (if c_Set (q_Cursor q) then
                 match o_teams db !! c_ID (q_Cursor q) with
                 | Some r => guard! seen (team_ws db (c_ID (q_Cursor q))) ws else ErrInvalidInput in
                             Ok (Some (tr_CreatedAt r, c_ID (q_Cursor q)))
                 | None => Err ErrInvalidInput
                 end
               else Ok None) in
  Ok (page_of t_CreatedAt t_ID (q_Limit q) at_
        (filter (fun t => in_parent (q_Parent q) (t_DepartmentID t) = true) (scan (team_in db ws) (o_teams db)))).

(** [TeamStore.Update], two views as for a department.  A department that goes in
    between is refused by the foreign key; none ever changes its workspace. *)
Definition team_Update_check (ws : uuid) (t : Team) (db : OrgDB) : res err unit :=
  try! _ := check_dept ws (t_DepartmentID t) db in
  guard! text_ok (t_Name t) else bad_text in
  guard! negb (name_taken tr_Department tr_Name (t_DepartmentID t) (t_Name t) (Some (t_ID t)) (o_teams db)) else ErrNameTaken in Ok tt.

Definition team_Update (ws : uuid) (t : Team) (now : time) (db : OrgDB) : res err (Team * OrgDB) :=
  match o_teams db !! t_ID t with
  | Some r =>
      guard! seen (team_ws db (t_ID t)) ws else ErrNotFound in
      let row := mkTeamRow (t_DepartmentID t) (t_Name t) (tr_CreatedAt r) in
      guard! negb (only_spaces (t_Name t)) else check_violation in
      guard! negb (name_taken tr_Department tr_Name (t_DepartmentID t) (t_Name t) (Some (t_ID t)) (o_teams db)) else unique_violation in
      guard! is_ok (check_dept ws (t_DepartmentID t) db) else foreign_key_violation in
      Ok (team_of ws (t_ID t) row, with_teams (<[t_ID t := row]> (o_teams db)) db)
  | None => Err ErrNotFound
  end.

Definition team_Delete (ws id : uuid) (now : time) (db : OrgDB) : res err (unit * OrgDB) :=
  guard! owned (team_ws db id) ws else ErrNotFound in
  try! db' := remove_teams (fun i _ => (i =? id)%N) db in
  Ok (tt, db').

(** [TeamResolverAdapter.Get]: the workspace and the department of a team. *)
Definition resolve_team (ws id : uuid) (db : OrgDB) : res err (uuid * uuid) :=
  match o_teams db !! id, team_ws db id with
  | Some r, Some w =>
      guard! seen (Some w) ws else ErrNotFound in
      guard! (w =? ws)%N else ErrWorkspaceMismatch in Ok (w, tr_Department r)
  | _, _ => Err ErrNotFound
  end.

(** *** aiemployees.go *)

Definition emp_of (ws dept id : uuid) (r : EmpRow) : AIEmployee :=
  mkEmployee id (er_Team r) dept ws (er_Name r) (er_Role r) (er_Capabilities r) (er_Permissions r) (er_KnowledgeAccess r)
    (er_CurrentTask r) (er_CreatedAt r) (er_UpdatedAt r).
Definition emp_in (db : OrgDB) (ws id : uuid) (r : EmpRow) : option AIEmployee :=
  match o_teams db !! er_Team r with
  | Some t => if owned (dept_ws db (tr_Department t)) ws then Some (emp_of ws (tr_Department t) id r) else None
  | None => None
  end.

(** The check both writes of an employee begin with; it gives the department. *)
Definition check_team (ws team : uuid) (db : OrgDB) : res err uuid :=
  match o_teams db !! team, team_ws db team with
  | Some r, Some w =>
      guard! seen (Some w) ws else ErrInvalidInput in
      guard! (w =? ws)%N else ErrWorkspaceMismatch in Ok (tr_Department r)
  | _, _ => Err ErrInvalidInput
  end.

Definition emp_text_ok (e : AIEmployee) : bool :=
  text_ok (m_Name e) && text_ok (m_Role e) && forallb text_ok (m_Capabilities e).

Definition emp_Create (e : AIEmployee) (now : time) (db : OrgDB) : res err (AIEmployee * OrgDB) :=
  try! dept := check_team (m_WorkspaceID e) (m_TeamID e) db in
  let row := mkEmpRow (m_TeamID e) (m_Name e) (m_Role e) (m_Capabilities e) (m_Permissions e) (m_KnowledgeAccess e)
               (m_CurrentTaskID e) (stored_time (m_CreatedAt e)) (stored_time (m_UpdatedAt e)) in
  guard! emp_text_ok e else bad_text in
  guard! negb (name_taken er_Team er_Name (m_TeamID e) (m_Name e) None (o_emps db)) else ErrNameTaken in
  guard! negb (only_spaces (m_Name e)) && negb (only_spaces (m_Role e)) else check_violation in
  match o_emps db !! m_ID e with
  | Some _ => Err ErrNameTaken
  | None => Ok (emp_of (m_WorkspaceID e) dept (m_ID e) row, with_emps (<[m_ID e := row]> (o_emps db)) db)
  end.

Definition emp_Get (ws id : uuid) (db : OrgDB) : res err AIEmployee :=
  match o_emps db !! id with
  | Some r => match emp_in db ws id r with Some e => Ok e | None => Err ErrNotFound end
  | None => Err ErrNotFound
  end.

Definition emp_List (ws : uuid) (team : option uuid) (db : OrgDB) : res err (list AIEmployee) :=
  Ok (merge_sort (listed m_CreatedAt m_Name)
        (filter (fun e => in_parent team (m_TeamID e) = true) (scan (emp_in db ws) (o_emps db)))).

Definition emp_ListPage (ws : uuid) (q : ListQuery) (db : OrgDB) : res err (Page AIEmployee) :=
  let q := Normalize q in
  try! at_ := (if c_Set (q_Cursor q) then
                 match o_emps db !! c_ID (q_Cursor q) with
                 | Some r => guard! seen (emp_ws db (c_ID (q_Cursor q))) ws else ErrInvalidInput in
                             Ok (Some (er_CreatedAt r, c_ID (q_Cursor q)))
                 | None => Err ErrInvalidInput
                 end
               else Ok None) in
  Ok (page_of m_CreatedAt m_ID (q_Limit q) at_
        (filter (fun e => in_parent (q_Parent q) (m_TeamID e) = true) (scan (emp_in db ws) (o_emps db)))).

(** [AIEmployeeStore.Update], two views as for a team; the department answered is
    the one the first saw. *)
Definition emp_Update_check (ws : uuid) (e : AIEmployee) (db : OrgDB) : res err uuid :=
  try! dept := check_team ws (m_TeamID e) db in
  guard! emp_text_ok e else bad_text in
  guard! negb (name_taken er_Team er_Name (m_TeamID e) (m_Name e) (Some (m_ID e)) (o_emps db)) else ErrNameTaken in Ok dept.

Definition emp_Update (ws : uuid) (e : AIEmployee) (dept : uuid) (now : time) (db : OrgDB) : res err (AIEmployee * OrgDB) :=
  match o_emps db !! m_ID e with
  | Some r =>
      guard! seen (emp_ws db (m_ID e)) ws else ErrNotFound in
      let row := mkEmpRow (m_TeamID e) (m_Name e) (m_Role e) (m_Capabilities e) (m_Permissions e) (m_KnowledgeAccess e)
                   (m_CurrentTaskID e) (er_CreatedAt r) (stored_time now) in
      guard! negb (only_spaces (m_Name e)) && negb (only_spaces (m_Role e)) else check_violation in
      guard! negb (name_taken er_Team er_Name (m_TeamID e) (m_Name e) (Some (m_ID e)) (o_emps db)) else unique_violation in
      guard! is_ok (check_team ws (m_TeamID e) db) else foreign_key_violation in
      Ok (emp_of ws dept (m_ID e) row, with_emps (<[m_ID e := row]> (o_emps db)) db)
  | None => Err ErrNotFound
  end.

Definition emp_Delete (ws id : uuid) (now : time) (db : OrgDB) : res err (unit * OrgDB) :=
  guard! owned (emp_ws db id) ws else ErrNotFound in
  guard! negb (bool_decide (id ∈ o_busy db)) else foreign_key_violation in
  Ok (tt, with_emps (delete id (o_emps db)) db).
End stores.

(** ** The services *)

Record World : Type := mkWorld { w_db : OrgDB; w_at : nat }.

Section services.
Context `{UuidText, StoredTime, SqlLower, Collation}.
Variable rls : bool.
Variable env : nat -> TxTick OrgDB.
Variable draw : nat -> uuid.          (* uuid.New *)

Definition tx {A} (op : time -> OrgDB -> res err (A * OrgDB)) : act World err A := fun w =>
  let '(r, db) := run_tx ErrStore (env (w_at w)) op (w_db w) in (r, mkWorld db (S (w_at w))).
Definition read {A} (op : OrgDB -> res err A) : act World err A := tx (fun _ db => try! a := op db in Ok (a, db)).
(** The identifier and the instant a constructor draws. *)
Definition fresh : act World err (uuid * time) := fun w =>
  (Ok (draw (w_at w), tt_now (env (w_at w))), mkWorld (w_db w) (S (w_at w))).

(** What a service makes of an error of its parent's resolver. *)
Definition from_parent (e : err) : err := match e with ErrNotFound => ErrInvalidInput | e => e end.
Definition resolve {A} (op : OrgDB -> res err A) : act World err A :=
  r <~ act_try (read op) ;; match r with Ok a => act_ret a | Err e => act_fail (from_parent e) end.

Definition nil (u : uuid) : bool := (u =? uuid_Nil)%N.
Definition too_long (s : string) (max : nat) : bool := Nat.ltb max (rune_count s).

(** *** department/service.go *)

Definition dept_New (ws : uuid) (name : string) : act World err Department :=
  require! negb (nil ws) else ErrWorkspaceMismatch ;;
  require! negb (String.eqb name "") else ErrInvalidInput ;;
  f <~ fresh ;; act_ret (mkDepartment f.1 ws name f.2 f.2).

Definition CreateDepartment (ws : uuid) (name : string) : act World err Department :=
  let name := TrimSpace name in
  require! negb (String.eqb name "") else ErrInvalidInput ;;
  require! negb (too_long name NameMaxRunes) else ErrInvalidInput ;;
  require! negb (nil ws) else ErrInvalidInput ;;
  d <~ dept_New ws name ;; tx (dept_Create d).

Definition GetDepartment (ws id : uuid) : act World err Department :=
  require! negb (nil ws || nil id) else ErrInvalidInput ;; read (dept_Get ws id).
Definition ListDepartments (ws : uuid) : act World err (list Department) :=
  require! negb (nil ws) else ErrWorkspaceMismatch ;; read (dept_List ws).
Definition ListDepartmentsPage (ws : uuid) (q : ListQuery) : act World err (Page Department) :=
  require! negb (nil ws) else ErrWorkspaceMismatch ;; read (dept_ListPage ws (Normalize q)).

Definition UpdateDepartment (ws id : uuid) (name : string) : act World err Department :=
  let name := TrimSpace name in
  require! negb (String.eqb name "") else ErrInvalidInput ;;
  require! negb (too_long name NameMaxRunes) else ErrInvalidInput ;;
  d <~ read (dept_Get ws id) ;;
  let d := mkDepartment (d_ID d) (d_WorkspaceID d) name (d_CreatedAt d) (d_UpdatedAt d) in
  read (dept_Update_check ws d) ;;!
  tx (dept_Update ws d).

Definition DeleteDepartment (ws id : uuid) : act World err unit :=
  require! negb (nil ws || nil id) else ErrInvalidInput ;; tx (dept_Delete ws id).

(** *** team/service.go *)

Definition team_New (dept ws : uuid) (name : string) : act World err Team :=
  require! negb (nil dept) else ErrInvalidInput ;;
  require! negb (nil ws) else ErrWorkspaceMismatch ;;
  require! negb (String.eqb name "") else ErrInvalidInput ;;
  f <~ fresh ;; act_ret (mkTeam f.1 dept ws name f.2 f.2).

Definition CreateTeam (ws dept : uuid) (name : string) : act World err Team :=
  let name := TrimSpace name in
  require! negb (String.eqb name "") else ErrInvalidInput ;;
  require! negb (too_long name NameMaxRunes) else ErrInvalidInput ;;
  require! negb (nil ws || nil dept) else ErrInvalidInput ;;
  resolve (resolve_dept rls ws dept) ;;!
  t <~ team_New dept ws name ;; tx (team_Create rls t).

Definition GetTeam (ws id : uuid) : act World err Team :=
  require! negb (nil ws || nil id) else ErrInvalidInput ;; read (team_Get ws id).
Definition ListTeams (ws : uuid) (dept : option uuid) : act World err (list Team) :=
  require! negb (nil ws) else ErrWorkspaceMismatch ;; read (team_List ws dept).
Definition ListTeamsPage (ws : uuid) (q : ListQuery) : act World err (Page Team) :=
  require! negb (nil ws) else ErrWorkspaceMismatch ;; read (team_ListPage rls ws (Normalize q)).

(** The new name, where one is given. *)
Definition rename (given : bool) (name old : string) (max : nat) : act World err string :=
  if given then
    let trimmed := TrimSpace name in
    require! negb (String.eqb trimmed "") else ErrInvalidInput ;;
    require! negb (too_long trimmed max) else ErrInvalidInput ;;
    act_ret trimmed
  else act_ret old.

Definition UpdateTeam (ws id : uuid) (name : string) (dept : option uuid) : act World err Team :=
  require! negb (nil ws || nil id) else ErrInvalidInput ;;
  t <~ read (team_Get ws id) ;;
  name' <~ rename (negb (String.eqb name "")) name (t_Name t) NameMaxRunes ;;
  dept' <~ (match dept with
            | Some d =>
                require! negb (nil d) else ErrInvalidInput ;;
                resolve (resolve_dept rls ws d) ;;! act_ret d
            | None => act_ret (t_DepartmentID t)
            end) ;;
  let t := mkTeam (t_ID t) dept' (t_WorkspaceID t) name' (t_CreatedAt t) (t_UpdatedAt t) in
  read (team_Update_check rls ws t) ;;!
  tx (team_Update rls ws t).

Definition DeleteTeam (ws id : uuid) : act World err unit :=
  require! negb (nil ws || nil id) else ErrInvalidInput ;; tx (team_Delete ws id).

(** *** aiemployee/service.go *)

Definition emp_New (team ws dept : uuid) (name role : string) : act World err AIEmployee :=
  require! negb (nil team) else ErrInvalidInput ;;
  require! negb (nil ws) else ErrWorkspaceMismatch ;;
  require! negb (nil dept) else ErrInvalidInput ;;
  require! negb (String.eqb name "" || String.eqb role "") else ErrInvalidInput ;;
  f <~ fresh ;; act_ret (mkEmployee f.1 team dept ws name role [] "{}" "{}" None f.2 f.2).

Definition CreateEmployee (ws team : uuid) (name role : string) (capabilities : list string) : act World err AIEmployee :=
  let name := TrimSpace name in
  let role := TrimSpace role in
  require! negb (String.eqb name "" || String.eqb role "") else ErrInvalidInput ;;
  require! negb (too_long name NameMaxRunes || too_long role RoleMaxRunes) else ErrInvalidInput ;;
  require! negb (nil ws || nil team) else ErrInvalidInput ;;
  wd <~ resolve (resolve_team rls ws team) ;;
  e <~ emp_New team ws wd.2 name role ;;
  tx (emp_Create rls (mkEmployee (m_ID e) (m_TeamID e) (m_DepartmentID e) (m_WorkspaceID e) (m_Name e) (m_Role e) capabilities
    (m_Permissions e) (m_KnowledgeAccess e) (m_CurrentTaskID e) (m_CreatedAt e) (m_UpdatedAt e))).

Definition GetEmployee (ws id : uuid) : act World err AIEmployee :=
  require! negb (nil ws || nil id) else ErrInvalidInput ;; read (emp_Get ws id).
Definition ListEmployees (ws : uuid) (team : option uuid) : act World err (list AIEmployee) :=
  require! negb (nil ws) else ErrWorkspaceMismatch ;; read (emp_List ws team).
Definition ListEmployeesPage (ws : uuid) (q : ListQuery) : act World err (Page AIEmployee) :=
  require! negb (nil ws) else ErrWorkspaceMismatch ;; read (emp_ListPage rls ws (Normalize q)).

(** [currentTaskID]: the nil identifier clears it. *)
Definition next_task (given old : option uuid) : option uuid :=
  match given with Some t => if nil t then None else Some t | None => old end.

Definition UpdateEmployee (ws id : uuid) (name role : option string) (capabilities : option (list string))
    (team currentTask : option uuid) : act World err AIEmployee :=
  require! negb (nil ws || nil id) else ErrInvalidInput ;;
  e <~ read (emp_Get ws id) ;;
  name' <~ rename (bool_decide (is_Some name)) (default "" name) (m_Name e) NameMaxRunes ;;
  role' <~ rename (bool_decide (is_Some role)) (default "" role) (m_Role e) RoleMaxRunes ;;
  let caps := default (m_Capabilities e) capabilities in
  td <~ (match team with
         | Some t =>
             require! negb (nil t) else ErrInvalidInput ;;
             wd <~ resolve (resolve_team rls ws t) ;; act_ret (t, wd.2)
         | None => act_ret (m_TeamID e, m_DepartmentID e)
         end) ;;
  let e := mkEmployee (m_ID e) td.1 td.2 (m_WorkspaceID e) name' role' caps (m_Permissions e)
    (m_KnowledgeAccess e) (next_task currentTask (m_CurrentTaskID e)) (m_CreatedAt e) (m_UpdatedAt e) in
  dept <~ read (emp_Update_check rls ws e) ;;
  tx (emp_Update rls ws e dept).

Definition DeleteEmployee (ws id : uuid) : act World err unit :=
  require! negb (nil ws || nil id) else ErrInvalidInput ;; tx (emp_Delete ws id).
End services.
