(* ===== verification/OrgProps.v ===== *)
(** * What the organisation guarantees

    The hierarchy stays well-formed under every interleaving, workspaces are
    isolated with and without row-level security, deletions cascade exactly, and
    the pages of a listing enumerate it. *)

From S2P Require Import Prelude GoLib GoText Keyset Org.

(** ** What a successful operation did *)

Section inversion.
Context `{UuidText, StoredTime, SqlLower, Collation}.
Variable rls : bool.

Lemma check_dept_Ok ws dept db u : check_dept rls ws dept db = Ok u -> dept_ws db dept = Some ws.
Proof.
  unfold check_dept. destruct (dept_ws db dept) as [w|]; [|done]. intros [_ [Hw _]%guard_Ok]%guard_Ok. by apply N.eqb_eq in Hw as ->.
Qed.
Lemma check_team_Ok ws team db d :
  check_team rls ws team db = Ok d -> team_ws db team = Some ws /\ exists r, o_teams db !! team = Some r /\ d = tr_Department r.
Proof.
  unfold check_team. destruct (o_teams db !! team) as [r|]; [|done]. destruct (team_ws db team) as [w|]; [|done].
  intros [_ [Hw [= <-]]%guard_Ok]%guard_Ok. apply N.eqb_eq in Hw as ->. split; [done|]. by exists r.
Qed.

Lemma dept_Create_Ok d now db a db' :
  dept_Create d now db = Ok (a, db') ->
  name_taken dr_Workspace dr_Name (d_WorkspaceID d) (d_Name d) None (o_depts db) = false /\ only_spaces (d_Name d) = false /\
  o_depts db !! d_ID d = None /\ d_WorkspaceID d ∈ o_workspaces db /\
  db' = with_depts (<[d_ID d := mkDeptRow (d_WorkspaceID d) (d_Name d) (stored_time (d_CreatedAt d))]> (o_depts db)) db.
Proof.
  unfold dept_Create. intros Hc. apply guard_Ok in Hc as [_ Hc]. apply guard_Ok in Hc as [Hn Hc]. apply guard_Ok in Hc as [Hs Hc].
  case_match; [done|]. apply guard_Ok in Hc as [Hw Hc]. injection Hc as _ <-. bool_prop. by split_and!.
Qed.

Lemma dept_Update_Ok ws d now db a db' :
  dept_Update ws d now db = Ok (a, db') ->
  name_taken dr_Workspace dr_Name ws (d_Name d) (Some (d_ID d)) (o_depts db) = false /\ only_spaces (d_Name d) = false /\
  exists r, o_depts db !! d_ID d = Some r /\ dr_Workspace r = ws /\
    db' = with_depts (<[d_ID d := mkDeptRow ws (d_Name d) (dr_CreatedAt r)]> (o_depts db)) db.
Proof.
  unfold dept_Update. intros Hc.
  case_match; [|done]. apply guard_Ok in Hc as [Hw Hc]. cbv zeta in Hc. apply guard_Ok in Hc as [Hs Hc].
  apply guard_Ok in Hc as [Hn Hc]. injection Hc as _ <-.
  bool_prop. subst ws. split_and!; [done..|]. by eexists.
Qed.

Lemma dept_Delete_Ok ws id now db a db' :
  dept_Delete ws id now db = Ok (a, db') ->
  dept_ws db id = Some ws /\
  exists db1, remove_teams (fun _ r => (tr_Department r =? id)%N) db = Ok db1 /\ db' = with_depts (delete id (o_depts db1)) db1.
Proof.
  unfold dept_Delete, owned. intros Hc. apply guard_Ok in Hc as [Ho Hc]. apply res_bind_Ok in Hc as (db1 & Hr & [= _ <-]).
  bool_prop. split; [done|]. by exists db1.
Qed.

Lemma team_Create_Ok t now db a db' :
  team_Create rls t now db = Ok (a, db') ->
  dept_ws db (t_DepartmentID t) = Some (t_WorkspaceID t) /\
  name_taken tr_Department tr_Name (t_DepartmentID t) (t_Name t) None (o_teams db) = false /\ only_spaces (t_Name t) = false /\
  o_teams db !! t_ID t = None /\
  db' = with_teams (<[t_ID t := mkTeamRow (t_DepartmentID t) (t_Name t) (stored_time (t_CreatedAt t))]> (o_teams db)) db.
Proof.
  unfold team_Create. intros Hc. apply res_bind_Ok in Hc as (? & Hd%check_dept_Ok & Hc). cbv zeta in Hc.
  apply guard_Ok in Hc as [_ Hc]. apply guard_Ok in Hc as [Hn Hc]. apply guard_Ok in Hc as [Hs Hc].
  case_match; [done|]. injection Hc as _ <-. bool_prop. by split_and!.
Qed.

Lemma team_Update_Ok ws t now db a db' :
  team_Update rls ws t now db = Ok (a, db') ->
  dept_ws db (t_DepartmentID t) = Some ws /\
  name_taken tr_Department tr_Name (t_DepartmentID t) (t_Name t) (Some (t_ID t)) (o_teams db) = false /\
  only_spaces (t_Name t) = false /\
  exists r, o_teams db !! t_ID t = Some r /\
    db' = with_teams (<[t_ID t := mkTeamRow (t_DepartmentID t) (t_Name t) (tr_CreatedAt r)]> (o_teams db)) db.
Proof.
  unfold team_Update. intros Hc. case_match; [|done]. apply guard_Ok in Hc as [_ Hc]. cbv zeta in Hc.
  apply guard_Ok in Hc as [Hs Hc]. apply guard_Ok in Hc as [Hn Hc]. apply guard_Ok in Hc as [Hd Hc]. injection Hc as _ <-.
  destruct (check_dept _ _ _ _) as [u|] eqn:Hdept; [|done]. apply check_dept_Ok in Hdept. bool_prop. split_and!; [done..|]. by eexists.
Qed.

Lemma team_Delete_Ok ws id now db a db' :
  team_Delete ws id now db = Ok (a, db') -> team_ws db id = Some ws /\ remove_teams (fun i _ => (i =? id)%N) db = Ok db'.
Proof.
  unfold team_Delete, owned. intros Hc. apply guard_Ok in Hc as [Ho Hc]. apply res_bind_Ok in Hc as (db1 & Hr & [= _ <-]).
  by bool_prop.
Qed.

Lemma emp_Create_Ok e now db a db' :
  emp_Create rls e now db = Ok (a, db') ->
  team_ws db (m_TeamID e) = Some (m_WorkspaceID e) /\ is_Some (o_teams db !! m_TeamID e) /\
  name_taken er_Team er_Name (m_TeamID e) (m_Name e) None (o_emps db) = false /\
  only_spaces (m_Name e) = false /\ only_spaces (m_Role e) = false /\ o_emps db !! m_ID e = None /\
  exists r, er_Team r = m_TeamID e /\ er_Name r = m_Name e /\ er_Role r = m_Role e /\
    db' = with_emps (<[m_ID e := r]> (o_emps db)) db.
Proof.
  unfold emp_Create. intros Hc. apply res_bind_Ok in Hc as (? & [Ht (r & Hr & _)]%check_team_Ok & Hc). cbv zeta in Hc.
  apply guard_Ok in Hc as [_ Hc]. apply guard_Ok in Hc as [Hn Hc]. apply guard_Ok in Hc as [Hs Hc].
  case_match; [done|]. injection Hc as _ <-. bool_prop. split_and!; [done|by eexists|done..|]. eexists. by split_and!; [| | |reflexivity].
Qed.

Lemma emp_Update_Ok ws e dept now db a db' :
  emp_Update rls ws e dept now db = Ok (a, db') ->
  team_ws db (m_TeamID e) = Some ws /\ is_Some (o_teams db !! m_TeamID e) /\
  name_taken er_Team er_Name (m_TeamID e) (m_Name e) (Some (m_ID e)) (o_emps db) = false /\
  only_spaces (m_Name e) = false /\ only_spaces (m_Role e) = false /\ is_Some (o_emps db !! m_ID e) /\
  exists r, er_Team r = m_TeamID e /\ er_Name r = m_Name e /\ er_Role r = m_Role e /\
    db' = with_emps (<[m_ID e := r]> (o_emps db)) db.
Proof.
  unfold emp_Update. intros Hc. case_match; [|done]. apply guard_Ok in Hc as [_ Hc]. cbv zeta in Hc.
  apply guard_Ok in Hc as [Hs Hc]. apply guard_Ok in Hc as [Hn Hc]. apply guard_Ok in Hc as [Ht Hc]. injection Hc as _ <-.
  destruct (check_team _ _ _ _) as [u|] eqn:Hteam; [|done]. apply check_team_Ok in Hteam as [Hw (r & Hr & _)]. bool_prop.
  split_and!; [done|by eexists|done..|by eexists|]. eexists. by split_and!; [| | |reflexivity].
Qed.

Lemma emp_Delete_Ok ws id now db a db' :
  emp_Delete ws id now db = Ok (a, db') ->
  emp_ws db id = Some ws /\ id ∉ o_busy db /\ db' = with_emps (delete id (o_emps db)) db.
Proof.
  unfold emp_Delete, owned. intros Hc. apply guard_Ok in Hc as [Ho Hc]. apply guard_Ok in Hc as [Hb Hc]. injection Hc as _ <-.
  by bool_prop.
Qed.

Lemma team_Get_Ok ws id db t : team_Get ws id db = Ok t -> t_ID t = id /\ team_ws db id = Some ws.
Proof.
  unfold team_Get, team_in, team_ws, owned. destruct (o_teams db !! id) as [r|]; [|done].
  case_bool_decide; [|done]. by intros [= <-].
Qed.
Lemma emp_Get_Ok ws id db e : emp_Get ws id db = Ok e -> m_ID e = id /\ emp_ws db id = Some ws.
Proof.
  unfold emp_Get, emp_in, emp_ws, team_ws, owned. destruct (o_emps db !! id) as [r|]; [|done].
  destruct (o_teams db !! er_Team r) as [t|]; [|done]. case_bool_decide; [|done]. by intros [= <-].
Qed.
End inversion.

(** ** The invariant of the tables *)

(** Within one parent no two rows have the same name in lower case. *)
Definition names_unique `{SqlLower} {R} (parent : R -> uuid) (name : R -> string) (m : gmap uuid R) : Prop :=
  forall i j ri rj, m !! i = Some ri -> m !! j = Some rj ->
    parent ri = parent rj -> sql_lower (name ri) = sql_lower (name rj) -> i = j.

Record org_ok `{SqlLower} (db : OrgDB) : Prop := mkOrgOk {
  ok_dept : forall i r, o_depts db !! i = Some r -> dr_Workspace r ∈ o_workspaces db /\ only_spaces (dr_Name r) = false;
  ok_team : forall i r, o_teams db !! i = Some r -> is_Some (o_depts db !! tr_Department r) /\ only_spaces (tr_Name r) = false;
  ok_emp : forall i r, o_emps db !! i = Some r ->
    is_Some (o_teams db !! er_Team r) /\ only_spaces (er_Name r) = false /\ only_spaces (er_Role r) = false;
  ok_busy : forall i, i ∈ o_busy db -> is_Some (o_emps db !! i);
  ok_dept_names : names_unique dr_Workspace dr_Name (o_depts db);
  ok_team_names : names_unique tr_Department tr_Name (o_teams db);
  ok_emp_names : names_unique er_Team er_Name (o_emps db)
}.

Section invariant.
Context `{UuidText, StoredTime, SqlLower, Collation}.
Variable rls : bool.

Lemma name_taken_false {R} (parent : R -> uuid) name p n except (m : gmap uuid R) i r :
  name_taken parent name p n except m = false -> m !! i = Some r -> parent r = p -> sql_lower (name r) = sql_lower n ->
  except = Some i.
Proof.
  unfold name_taken. intros Hf Hi Hp Hn. apply dec_stable. intros He. apply not_true_iff_false in Hf. apply Hf.
  apply existsb_exists. exists (i, r). split; [by apply list_elem_of_In, elem_of_map_to_list|]. simpl.
  rewrite Hp, N.eqb_refl, Hn, String.eqb_refl. simpl. by rewrite bool_decide_false.
Qed.

(** A row whose name is not taken, but perhaps by itself. *)
Lemma unique_insert {R} (parent : R -> uuid) name (m : gmap uuid R) i r except :
  names_unique parent name m -> name_taken parent name (parent r) (name r) except m = false ->
  (forall j, except = Some j -> j = i) -> names_unique parent name (<[i := r]> m).
Proof.
  intros Hu Hf He a b ra rb Ha Hb Hp Hn. apply lookup_insert_Some in Ha as [[<- <-]|[Hia Ha]], Hb as [[<- <-]|[Hib Hb]]; [done| | |by eapply Hu].
  - symmetry. apply He. by eapply name_taken_false.
  - apply He. by eapply name_taken_false.
Qed.

Lemma unique_subset {R} (parent : R -> uuid) name (m m' : gmap uuid R) :
  m' ⊆ m -> names_unique parent name m -> names_unique parent name m'.
Proof. intros Hs Hu i j ri rj Hi Hj. apply Hu; by eapply lookup_weaken. Qed.

Lemma org_ok_insert_dept db i r except :
  org_ok db -> dr_Workspace r ∈ o_workspaces db -> only_spaces (dr_Name r) = false ->
  name_taken dr_Workspace dr_Name (dr_Workspace r) (dr_Name r) except (o_depts db) = false -> (forall j, except = Some j -> j = i) ->
  org_ok (with_depts (<[i := r]> (o_depts db)) db).
Proof.
  intros Hok Hw Hs Hn He. destruct Hok as [Hd Ht Hm Hb Hdn Htn Hmn]. split; simpl; try done.
  - intros j r' [[<- <-]|[? Hj]]%lookup_insert_Some; [done|by eapply Hd].
  - intros j r' Hj. destruct (Ht _ _ Hj) as [Hx ?]. split; [|done]. destruct (decide (i = tr_Department r')) as [->|?].
    + by rewrite lookup_insert_eq.
    + by rewrite lookup_insert_ne.
  - by eapply unique_insert.
Qed.

Lemma org_ok_insert_team db i r except :
  org_ok db -> is_Some (o_depts db !! tr_Department r) -> only_spaces (tr_Name r) = false ->
  name_taken tr_Department tr_Name (tr_Department r) (tr_Name r) except (o_teams db) = false -> (forall j, except = Some j -> j = i) ->
  org_ok (with_teams (<[i := r]> (o_teams db)) db).
Proof.
  intros Hok Hw Hs Hn He. destruct Hok as [Hd Ht Hm Hb Hdn Htn Hmn]. split; simpl; try done.
  - intros j r' [[<- <-]|[? Hj]]%lookup_insert_Some; [done|by eapply Ht].
  - intros j r' Hj. destruct (Hm _ _ Hj) as [Hx ?]. split; [|done]. destruct (decide (i = er_Team r')) as [->|?].
    + by rewrite lookup_insert_eq.
    + by rewrite lookup_insert_ne.
  - by eapply unique_insert.
Qed.

Lemma org_ok_insert_emp db i r except :
  org_ok db -> is_Some (o_teams db !! er_Team r) -> only_spaces (er_Name r) = false -> only_spaces (er_Role r) = false ->
  name_taken er_Team er_Name (er_Team r) (er_Name r) except (o_emps db) = false -> (forall j, except = Some j -> j = i) ->
  org_ok (with_emps (<[i := r]> (o_emps db)) db).
Proof.
  intros Hok Hw Hs Hs' Hn He. destruct Hok as [Hd Ht Hm Hb Hdn Htn Hmn]. split; simpl; try done.
  - intros j r' [[<- <-]|[? Hj]]%lookup_insert_Some; [done|by eapply Hm].
  - intros j Hj. destruct (decide (i = j)) as [->|?].
    + by rewrite lookup_insert_eq.
    + rewrite lookup_insert_ne by done. by apply Hb.
  - by eapply unique_insert.
Qed.

Lemma org_ok_delete_emp db i : org_ok db -> i ∉ o_busy db -> org_ok (with_emps (delete i (o_emps db)) db).
Proof.
  intros [Hd Ht Hm Hb Hdn Htn Hmn] Hi. split; simpl; try done.
  - intros j r [? Hj]%lookup_delete_Some. by eapply Hm.
  - intros j Hj. rewrite lookup_delete_ne by (intros ->; done). by apply Hb.
  - eapply unique_subset; [apply delete_subseteq|done].
Qed.

(** What a deletion of teams leaves. *)
Lemma remove_teams_Ok P db db' :
  remove_teams P db = Ok db' ->
  o_depts db' = o_depts db /\ o_workspaces db' = o_workspaces db /\ o_busy db' = o_busy db /\
  (forall i, o_teams db' !! i = match o_teams db !! i with Some r => if P i r then None else Some r | None => None end) /\
  (forall i, o_emps db' !! i =
     match o_emps db !! i with
     | Some r => if match o_teams db !! er_Team r with Some t => P (er_Team r) t | None => false end then None else Some r
     | None => None
     end) /\
  (forall i, i ∈ o_busy db -> is_Some (o_emps db !! i) -> is_Some (o_emps db' !! i)).
Proof.
  unfold remove_teams. intros [Hb [= <-]]%guard_Ok. split_and!; [done..| | |]; simpl.
  - intros i. rewrite map_lookup_filter. destruct (o_teams db !! i) as [r|]; [|done]. simpl. case_guard as Hp; simpl in *.
    + by rewrite Hp.
    + by destruct (P i r).
  - intros i. rewrite map_lookup_filter. destruct (o_emps db !! i) as [r|]; [|done]. simpl. case_guard as Hp; simpl in *.
    + by rewrite Hp.
    + by destruct (match o_teams db !! er_Team r with Some t => _ | None => _ end).
  - intros i Hi He. apply bool_decide_eq_true in Hb. apply Hb. apply elem_of_intersection. split; [done|]. by apply elem_of_dom.
Qed.

Lemma org_ok_remove P db db' : org_ok db -> remove_teams P db = Ok db' -> org_ok db'.
Proof.
  intros [Hd Ht Hm Hb Hdn Htn Hmn] (Ed & Ew & Eb & Et & Ee & Hbusy)%remove_teams_Ok.
  split; rewrite ?Ed, ?Ew, ?Eb; try done.
  - intros i r Hi. rewrite Et in Hi. destruct (o_teams db !! i) eqn:Hx; [|done]. case_match; [done|]. injection Hi as <-. by eapply Ht.
  - intros i r Hi. rewrite Ee in Hi. destruct (o_emps db !! i) as [r'|] eqn:Hx; [|done].
    destruct (Hm _ _ Hx) as [[t Htr] Hs]. rewrite Htr in Hi. destruct (P (er_Team r') t) eqn:Hp; [done|]. injection Hi as <-.
    split; [|done]. rewrite Et, Htr, Hp. by eexists.
  - intros i Hi. apply Hbusy; [done|by apply Hb].
  - eapply unique_subset; [|exact Htn]. apply map_subseteq_spec. intros i r Hi. rewrite Et in Hi.
    destruct (o_teams db !! i); [|done]. by case_match.
  - eapply unique_subset; [|exact Hmn]. apply map_subseteq_spec. intros i r Hi. rewrite Ee in Hi.
    destruct (o_emps db !! i); [|done]. by case_match.
Qed.

Lemma org_ok_delete_dept db i :
  org_ok db -> (forall j r, o_teams db !! j = Some r -> tr_Department r <> i) -> org_ok (with_depts (delete i (o_depts db)) db).
Proof.
  intros [Hd Ht Hm Hb Hdn Htn Hmn] Hno. split; simpl; try done.
  - intros j r [? Hj]%lookup_delete_Some. by eapply Hd.
  - intros j r Hj. rewrite lookup_delete_ne by (intros ->; by eapply Hno). by eapply Ht.
  - eapply unique_subset; [apply delete_subseteq|done].
Qed.
End invariant.

(** ** Requests *)

Section requests.
Context `{UuidText, StoredTime, SqlLower, Collation}.
Variable rls : bool.
Variable env : nat -> TxTick OrgDB.
Variable draw : nat -> uuid.

Inductive Request : Type :=
| ReqCreateDepartment (ws : uuid) (name : string)
| ReqUpdateDepartment (ws id : uuid) (name : string)
| ReqDeleteDepartment (ws id : uuid)
| ReqListDepartments (ws : uuid) (q : ListQuery)
| ReqCreateTeam (ws dept : uuid) (name : string)
| ReqUpdateTeam (ws id : uuid) (name : string) (dept : option uuid)
| ReqDeleteTeam (ws id : uuid)
| ReqListTeams (ws : uuid) (q : ListQuery)
| ReqCreateEmployee (ws team : uuid) (name role : string) (capabilities : list string)
| ReqUpdateEmployee (ws id : uuid) (name role : option string) (capabilities : option (list string)) (team task : option uuid)
| ReqDeleteEmployee (ws id : uuid)
| ReqListEmployees (ws : uuid) (q : ListQuery).

Definition req_ws (r : Request) : uuid :=
  match r with
  | ReqCreateDepartment ws _ | ReqUpdateDepartment ws _ _ | ReqDeleteDepartment ws _ | ReqListDepartments ws _
  | ReqCreateTeam ws _ _ | ReqUpdateTeam ws _ _ _ | ReqDeleteTeam ws _ | ReqListTeams ws _
  | ReqCreateEmployee ws _ _ _ _ | ReqUpdateEmployee ws _ _ _ _ _ _ | ReqDeleteEmployee ws _ | ReqListEmployees ws _ => ws
  end.

Definition serve (r : Request) (w : World) : World :=
  match r with
  | ReqCreateDepartment ws name => (CreateDepartment env draw ws name w).2
  | ReqUpdateDepartment ws id name => (UpdateDepartment env ws id name w).2
  | ReqDeleteDepartment ws id => (DeleteDepartment env ws id w).2
  | ReqListDepartments ws q => (ListDepartmentsPage env ws q w).2
  | ReqCreateTeam ws dept name => (CreateTeam rls env draw ws dept name w).2
  | ReqUpdateTeam ws id name dept => (UpdateTeam rls env ws id name dept w).2
  | ReqDeleteTeam ws id => (DeleteTeam env ws id w).2
  | ReqListTeams ws q => (ListTeamsPage rls env ws q w).2
  | ReqCreateEmployee ws team name role caps => (CreateEmployee rls env draw ws team name role caps w).2
  | ReqUpdateEmployee ws id name role caps team task => (UpdateEmployee rls env ws id name role caps team task w).2
  | ReqDeleteEmployee ws id => (DeleteEmployee env ws id w).2
  | ReqListEmployees ws q => (ListEmployeesPage rls env ws q w).2
  end.

(** ** A relation every step keeps

    [F] is what a request has learnt of the tables; the relation keeps it. *)

Section keeping.
Variable R : OrgDB -> OrgDB -> Prop.
Context `{!PreOrder R}.
Hypothesis others : forall n db, R db (tt_others (env n) db).

#[local] Abbreviation keeps := (Keyset.keeps w_db R).
#[local] Abbreviation stable := (Keyset.stable R).
#[local] Abbreviation anything := (@Keyset.anything OrgDB).

Lemma org_is_tx {A} (op : time -> OrgDB -> res err (A * OrgDB)) : is_tx w_db R (tx env op) op.
Proof. intros w. exists ErrStore, (env (w_at w)). split; [apply others|]. unfold tx. by destruct (run_tx _ _ _ _). Qed.
Lemma org_is_read {A} (op : OrgDB -> res err A) : is_read w_db R (read env op) op.
Proof. apply org_is_tx. Qed.

Lemma org_keeps_tx {A} F (op : time -> OrgDB -> res err (A * OrgDB)) :
  stable F -> (forall now db a db', F db -> op now db = Ok (a, db') -> R db db') -> keeps F (tx env op).
Proof. intros HF. eapply keeps_tx; [done|done|apply org_is_tx]. Qed.
Lemma org_keeps_read {A} F (op : OrgDB -> res err A) : stable F -> keeps F (read env op).
Proof. intros HF. eapply keeps_read; [done|done|apply org_is_read]. Qed.
Lemma org_keeps_resolve {A} F (op : OrgDB -> res err A) : stable F -> keeps F (resolve env op).
Proof.
  intros HF. apply keeps_bind; [done|done|by apply keeps_try, org_keeps_read|].
  intros [a|e]; [apply keeps_ret|apply keeps_fail]; done.
Qed.
Lemma org_keeps_rename F given name old max : keeps F (rename given name old max).
Proof. unfold rename. repeat apply keeps_if; auto with preserves. Qed.
Lemma org_keeps_fresh F : keeps F (fresh env draw).
Proof. by apply keeps_idle. Qed.

(** What the store owes the relation for the requests of one workspace; [TF]
    and [EF] are what reading a team or an employee shows of it. *)
Record kept (ws : uuid) (TF EF : uuid -> OrgDB -> Prop) : Prop := mkKept {
  kept_TF : forall id, stable (TF id);
  kept_EF : forall id, stable (EF id);
  kept_team_Get : forall id db t, team_Get ws id db = Ok t -> TF (t_ID t) db;
  kept_emp_Get : forall id db e, emp_Get ws id db = Ok e -> EF (m_ID e) db;
  kept_dept_Create : forall d now db a db', d_WorkspaceID d = ws -> dept_Create d now db = Ok (a, db') -> R db db';
  kept_dept_Update : forall d now db a db', dept_Update ws d now db = Ok (a, db') -> R db db';
  kept_dept_Delete : forall id now db a db', dept_Delete ws id now db = Ok (a, db') -> R db db';
  kept_team_Create : forall t now db a db', t_WorkspaceID t = ws -> team_Create rls t now db = Ok (a, db') -> R db db';
  kept_team_Update : forall t now db a db', TF (t_ID t) db -> team_Update rls ws t now db = Ok (a, db') -> R db db';
  kept_team_Delete : forall id now db a db', team_Delete ws id now db = Ok (a, db') -> R db db';
  kept_emp_Create : forall e now db a db', m_WorkspaceID e = ws -> emp_Create rls e now db = Ok (a, db') -> R db db';
  kept_emp_Update : forall e dept now db a db', EF (m_ID e) db -> emp_Update rls ws e dept now db = Ok (a, db') -> R db db';
  kept_emp_Delete : forall id now db a db', emp_Delete ws id now db = Ok (a, db') -> R db db'
}.

(** A constructor draws what it does not check, and fails before. *)
Ltac constructor_step :=
  intros ? ? ? Hm; repeat (case_match; [|discriminate Hm]);
  repeat (apply act_bind_Ok in Hm as (? & ? & ? & Hm)); injection Hm as <- _; done.

Ltac keep_step :=
  repeat first
    [ match goal with |- forall _ : _, _ => intros ? end | apply keeps_if | apply keeps_fail; apply _ | apply keeps_ret; apply _ | apply org_keeps_fresh
    | apply org_keeps_rename | apply org_keeps_read; done | apply org_keeps_resolve; done ].

Lemma dept_New_keeps ws name : keeps anything (dept_New env draw ws name).
Proof. unfold dept_New. keep_step. Qed.
Lemma team_New_keeps dept ws name : keeps anything (team_New env draw dept ws name).
Proof. unfold team_New. keep_step. Qed.
Lemma emp_New_keeps team ws dept name role : keeps anything (emp_New env draw team ws dept name role).
Proof. unfold emp_New. keep_step. Qed.

Lemma CreateDepartment_keeps ws name TF EF : kept ws TF EF -> keeps anything (CreateDepartment env draw ws name).
Proof.
  intros K. unfold CreateDepartment. keep_step.
  apply (keeps_bind_post w_db R _ (fun d => d_WorkspaceID d = ws)); [done|unfold dept_New; constructor_step|apply dept_New_keeps|].
  intros d Hd. apply org_keeps_tx; [done|]. intros. by eapply kept_dept_Create.
Qed.

Lemma CreateTeam_keeps ws dept name TF EF : kept ws TF EF -> keeps anything (CreateTeam rls env draw ws dept name).
Proof.
  intros K. unfold CreateTeam. keep_step. apply keeps_bind; [apply _|done|keep_step|]. intros _.
  apply (keeps_bind_post w_db R _ (fun t => t_WorkspaceID t = ws)); [done|unfold team_New; constructor_step|apply team_New_keeps|].
  intros t Ht. apply org_keeps_tx; [done|]. intros. by eapply kept_team_Create.
Qed.

Lemma CreateEmployee_keeps ws team name role caps TF EF :
  kept ws TF EF -> keeps anything (CreateEmployee rls env draw ws team name role caps).
Proof.
  intros K. unfold CreateEmployee. keep_step. apply keeps_bind; [apply _|done|keep_step|]. intros wd.
  apply (keeps_bind_post w_db R _ (fun e => m_WorkspaceID e = ws)); [done|unfold emp_New; constructor_step|apply emp_New_keeps|].
  intros e He. apply org_keeps_tx; [done|]. intros now db a db' _. by apply (kept_emp_Create _ _ _ K).
Qed.

Lemma UpdateTeam_keeps ws id name dept TF EF : kept ws TF EF -> keeps anything (UpdateTeam rls env ws id name dept).
Proof.
  intros K. unfold UpdateTeam. keep_step. apply (keeps_read_learn w_db R _ (fun t => TF (t_ID t)) _ _ _ (stable_anything _) (org_is_read _));
    [intros t db _; apply K|intros t].
  apply keeps_bind; [apply _|apply K|keep_step|]. intros name'. apply keeps_bind; [apply _|apply K| |].
  - destruct dept; keep_step. apply keeps_bind; [apply _|apply K|apply org_keeps_resolve; apply K|keep_step].
  - intros d. cbv zeta. apply keeps_bind; [apply _|apply K|apply org_keeps_read; apply K|]. intros _.
    apply org_keeps_tx; [apply K|]. intros now db a db' HF. by apply (kept_team_Update _ _ _ K).
Qed.

Lemma UpdateEmployee_keeps ws id name role caps team task TF EF :
  kept ws TF EF -> keeps anything (UpdateEmployee rls env ws id name role caps team task).
Proof.
  intros K. unfold UpdateEmployee. keep_step. apply (keeps_read_learn w_db R _ (fun e => EF (m_ID e)) _ _ _ (stable_anything _) (org_is_read _));
    [intros e db _; apply K|intros e].
  apply keeps_bind; [apply _|apply K|keep_step|]. intros name'. apply keeps_bind; [apply _|apply K|keep_step|]. intros role'.
  cbv zeta. apply keeps_bind; [apply _|apply K| |].
  - destruct team; keep_step. apply keeps_bind; [apply _|apply K|apply org_keeps_resolve; apply K|keep_step].
  - intros td. cbv zeta. apply keeps_bind; [apply _|apply K|apply org_keeps_read; apply K|]. intros seen_dept.
    apply org_keeps_tx; [apply K|]. intros now db a db' HF. by apply (kept_emp_Update _ _ _ K).
Qed.

(** Every request keeps the relation. *)
Lemma serve_keeps r TF EF w : kept (req_ws r) TF EF -> R (w_db w) (w_db (serve r w)).
Proof.
  intros K. destruct r; cbn [req_ws] in K; cbn [serve].
  - by eapply CreateDepartment_keeps.
  - revert w. change (forall w, R (w_db w) (w_db (UpdateDepartment env ws id name w).2)).
    intros w. unfold UpdateDepartment. repeat (case_match; [|simpl; reflexivity]).
    apply (keeps_bind w_db R anything); [done|keep_step| |done]. intros d. cbv zeta.
    apply (keeps_bind w_db R anything); [done|keep_step|]. intros _. apply org_keeps_tx; [done|].
    intros now db a db' _. by apply (kept_dept_Update _ _ _ K).
  - unfold DeleteDepartment. case_match; [|simpl; reflexivity]. apply (org_keeps_tx anything); [done| |done].
    intros now db a db' _. by apply (kept_dept_Delete _ _ _ K).
  - unfold ListDepartmentsPage. case_match; [|simpl; reflexivity]. by apply (org_keeps_read anything).
  - by eapply CreateTeam_keeps.
  - by eapply UpdateTeam_keeps.
  - unfold DeleteTeam. case_match; [|simpl; reflexivity]. apply (org_keeps_tx anything); [done| |done].
    intros now db a db' _. by apply (kept_team_Delete _ _ _ K).
  - unfold ListTeamsPage. case_match; [|simpl; reflexivity]. by apply (org_keeps_read anything).
  - by eapply CreateEmployee_keeps.
  - by eapply UpdateEmployee_keeps.
  - unfold DeleteEmployee. case_match; [|simpl; reflexivity]. apply (org_keeps_tx anything); [done| |done].
    intros now db a db' _. by apply (kept_emp_Delete _ _ _ K).
  - unfold ListEmployeesPage. case_match; [|simpl; reflexivity]. by apply (org_keeps_read anything).
Qed.
End keeping.

(** ** The invariant is kept *)

Definition keeps_ok (a b : OrgDB) : Prop := org_ok a -> org_ok b.
#[export] Instance keeps_ok_preorder : PreOrder keeps_ok.
Proof. split; [by intros a Ha|]. intros a b c Hab Hbc Ha. by apply Hbc, Hab. Qed.

Lemma dept_ws_Some db id ws : dept_ws db id = Some ws -> is_Some (o_depts db !! id).
Proof. unfold dept_ws. by destruct (o_depts db !! id). Qed.

Lemma invariant_kept ws : kept keeps_ok ws (fun _ => anything) (fun _ => anything).
Proof.
  split; try done; unfold keeps_ok.
  - intros d now db a db' <- (Hn & Hs & _ & Hw & ->)%dept_Create_Ok Hok. by eapply org_ok_insert_dept.
  - intros d now db a db' (Hn & Hs & r & Hr & <- & ->)%dept_Update_Ok Hok.
    eapply (org_ok_insert_dept _ _ _ (Some (d_ID d))); [done|exact (proj1 (ok_dept _ Hok _ _ Hr))|done..|]. by intros j [= ->].
  - intros id now db a db' (Hd & db1 & Hr & ->)%dept_Delete_Ok Hok. apply org_ok_delete_dept; [by eapply org_ok_remove|].
    intros j r Hj <-. apply remove_teams_Ok in Hr as (_ & _ & _ & Ht & _). rewrite Ht in Hj.
    destruct (o_teams db !! j) as [r'|]; [|done]. destruct (N.eqb_spec (tr_Department r') (tr_Department r)); congruence.
  - intros t now db a db' _ (Hd & Hn & Hs & _ & ->)%team_Create_Ok Hok.
    eapply (org_ok_insert_team _ _ _ None); [done|by eapply dept_ws_Some|done..].
  - intros t now db a db' _ (Hd & Hn & Hs & r & _ & ->)%team_Update_Ok Hok.
    eapply (org_ok_insert_team _ _ _ (Some (t_ID t))); [done|by eapply dept_ws_Some|done..|]. by intros j [= ->].
  - intros id now db a db' [_ Hr]%team_Delete_Ok Hok. by eapply org_ok_remove.
  - intros e now db a db' _ (_ & Ht & Hn & Hs & Hs' & _ & r & Et & En & Er & ->)%emp_Create_Ok Hok.
    eapply (org_ok_insert_emp _ _ _ None); rewrite ?Et, ?En, ?Er; try done.
  - intros e dept now db a db' _ (_ & Ht & Hn & Hs & Hs' & _ & r & Et & En & Er & ->)%emp_Update_Ok Hok.
    eapply (org_ok_insert_emp _ _ _ (Some (m_ID e))); rewrite ?Et, ?En, ?Er; try done. by intros j [= ->].
  - intros id now db a db' (_ & Hb & ->)%emp_Delete_Ok Hok. by apply org_ok_delete_emp.
Qed.

(** ** Isolation *)

Section isolation.
Variable A : uuid.

(** What of the tables belongs to [A], by the joins. *)
Definition dept_view (db : OrgDB) (id : uuid) : option DeptRow :=
  match o_depts db !! id with Some r => if (dr_Workspace r =? A)%N then Some r else None | None => None end.
Definition team_view (db : OrgDB) (id : uuid) : option TeamRow :=
  match o_teams db !! id with
  | Some r => match dept_view db (tr_Department r) with Some _ => Some r | None => None end
  | None => None
  end.
Definition emp_view (db : OrgDB) (id : uuid) : option EmpRow :=
  match o_emps db !! id with
  | Some r => match team_view db (er_Team r) with Some _ => Some r | None => None end
  | None => None
  end.

Definition same_view (a b : OrgDB) : Prop :=
  (forall id, dept_view a id = dept_view b id) /\ (forall id, team_view a id = team_view b id) /\
  (forall id, emp_view a id = emp_view b id).

#[export] Instance same_view_preorder : PreOrder same_view.
Proof.
  split; [intros a; by split_and!|]. intros a b c (Hd & Ht & He) (Hd' & Ht' & He').
  split_and!; intros id; [rewrite Hd; apply Hd'|rewrite Ht; apply Ht'|rewrite He; apply He'].
Qed.

(** Departments that look alike, teams that look alike: then so do the rest. *)
Lemma same_view_teams a b :
  (forall id, dept_view a id = dept_view b id) -> (forall id, team_view a id = team_view b id) -> o_emps a = o_emps b ->
  same_view a b.
Proof. intros Hd Ht E. split_and!; [done..|]. intros id. unfold emp_view. rewrite E. case_match; [|done]. by rewrite Ht. Qed.

Lemma same_view_depts a b :
  (forall id, dept_view a id = dept_view b id) -> o_teams a = o_teams b -> o_emps a = o_emps b -> same_view a b.
Proof.
  intros Hd Et Ee. apply same_view_teams; [done| |done]. intros id. unfold team_view. rewrite Et. case_match; [|done]. by rewrite Hd.
Qed.

Lemma same_view_insert_dept db i r :
  dept_view db i = None -> dr_Workspace r <> A -> same_view db (with_depts (<[i := r]> (o_depts db)) db).
Proof.
  intros Hi Hr. apply same_view_depts; [|done..]. intros id. destruct (decide (id = i)) as [->|Hne].
  - rewrite Hi. unfold dept_view. simpl. rewrite lookup_insert_eq. by apply N.eqb_neq in Hr as ->.
  - unfold dept_view. simpl. by rewrite lookup_insert_ne.
Qed.

Lemma same_view_delete_dept db i : dept_view db i = None -> same_view db (with_depts (delete i (o_depts db)) db).
Proof.
  intros Hi. apply same_view_depts; [|done..]. intros id. destruct (decide (id = i)) as [->|Hne].
  - rewrite Hi. unfold dept_view. simpl. by rewrite lookup_delete_eq.
  - unfold dept_view. simpl. by rewrite lookup_delete_ne.
Qed.

Lemma same_view_insert_team db i r :
  team_view db i = None -> dept_view db (tr_Department r) = None -> same_view db (with_teams (<[i := r]> (o_teams db)) db).
Proof.
  intros Hi Hr. apply same_view_teams; [done| |done]. intros id. destruct (decide (id = i)) as [->|Hne].
  - rewrite Hi. unfold team_view. simpl. rewrite lookup_insert_eq. unfold dept_view in *. simpl. by rewrite Hr.
  - unfold team_view. simpl. by rewrite lookup_insert_ne.
Qed.

Lemma same_view_insert_emp db i r :
  emp_view db i = None -> team_view db (er_Team r) = None -> same_view db (with_emps (<[i := r]> (o_emps db)) db).
Proof.
  intros Hi Hr. split_and!; [done..|]. intros id. destruct (decide (id = i)) as [->|Hne].
  - rewrite Hi. unfold emp_view. simpl. rewrite lookup_insert_eq. unfold team_view in *. simpl. unfold dept_view in *. simpl. by rewrite Hr.
  - unfold emp_view. simpl. by rewrite lookup_insert_ne.
Qed.

Lemma same_view_delete_emp db i : emp_view db i = None -> same_view db (with_emps (delete i (o_emps db)) db).
Proof.
  intros Hi. split_and!; [done..|]. intros id. destruct (decide (id = i)) as [->|Hne].
  - rewrite Hi. unfold emp_view. simpl. by rewrite lookup_delete_eq.
  - unfold emp_view. simpl. by rewrite lookup_delete_ne.
Qed.

Lemma same_view_remove P db db' :
  (forall i r, o_teams db !! i = Some r -> P i r = true -> team_view db i = None) ->
  remove_teams P db = Ok db' -> same_view db db'.
Proof.
  intros HP (Ed & _ & _ & Ht & He & _)%remove_teams_Ok.
  assert (forall id, dept_view db id = dept_view db' id) as Hd by (intros id; unfold dept_view; by rewrite Ed).
  assert (forall id, team_view db id = team_view db' id) as Htv.
  { intros id. unfold team_view at 2. rewrite Ht. destruct (o_teams db !! id) as [r|] eqn:Hr.
    - destruct (P id r) eqn:Hp; [by eapply HP|]. rewrite <-Hd. unfold team_view. by rewrite Hr.
    - unfold team_view. by rewrite Hr. }
  split_and!; [done..|]. intros id. unfold emp_view at 2. rewrite He. destruct (o_emps db !! id) as [r|] eqn:Hr.
  - destruct (o_teams db !! er_Team r) as [t|] eqn:Htr.
    + destruct (P (er_Team r) t) eqn:Hp; [|unfold emp_view; by rewrite Hr, Htv].
      unfold emp_view. by rewrite Hr, (HP _ _ Htr Hp).
    + unfold emp_view. by rewrite Hr, Htv.
  - unfold emp_view. by rewrite Hr.
Qed.

(** What belongs to another workspace is not in the view. *)
Lemma dept_view_other db id ws : dept_ws db id = Some ws -> ws <> A -> dept_view db id = None.
Proof.
  unfold dept_ws, dept_view. destruct (o_depts db !! id); [|done]. intros [= ->] Hne. by apply N.eqb_neq in Hne as ->.
Qed.
Lemma team_view_other db id ws : team_ws db id = Some ws -> ws <> A -> team_view db id = None.
Proof.
  unfold team_ws, team_view. destruct (o_teams db !! id); [|done]. intros H' Hne. by rewrite (dept_view_other _ _ _ H' Hne).
Qed.
Lemma emp_view_other db id ws : emp_ws db id = Some ws -> ws <> A -> emp_view db id = None.
Proof.
  unfold emp_ws, emp_view. destruct (o_emps db !! id); [|done]. intros H' Hne. by rewrite (team_view_other _ _ _ H' Hne).
Qed.

Lemma owned_view db id ws : ws <> A ->
  (owned (dept_ws db id) ws = true -> dept_view db id = None) /\
  (owned (team_ws db id) ws = true -> team_view db id = None) /\
  (owned (emp_ws db id) ws = true -> emp_view db id = None).
Proof.
  intros Hne. unfold owned. split_and!; intros H'%bool_decide_eq_true;
    [by eapply dept_view_other|by eapply team_view_other|by eapply emp_view_other].
Qed.

Lemma isolation_kept ws :
  ws <> A -> kept same_view ws (fun id db => team_view db id = None) (fun id db => emp_view db id = None).
Proof.
  intros Hne. split.
  - intros id a b Ha (_ & Ht & _). by rewrite <-Ht.
  - intros id a b Ha (_ & _ & He). by rewrite <-He.
  - intros id db t [<- Ht]%team_Get_Ok. by eapply team_view_other.
  - intros id db e [<- He]%emp_Get_Ok. by eapply emp_view_other.
  - intros d now db a db' Ed (_ & _ & Hn & _ & ->)%dept_Create_Ok. apply same_view_insert_dept; [|simpl; congruence].
    unfold dept_view. by rewrite Hn.
  - intros d now db a db' (_ & _ & r & Hr & <- & ->)%dept_Update_Ok. apply same_view_insert_dept; [|done].
    apply (dept_view_other _ _ (dr_Workspace r)); [|done]. unfold dept_ws. by rewrite Hr.
  - intros id now db a db' (Hd & db1 & Hr & ->)%dept_Delete_Ok. pose proof (dept_view_other _ _ _ Hd Hne) as Hv.
    assert (same_view db db1) as Hs; [|etrans; [exact Hs|]; apply same_view_delete_dept; destruct Hs as [<- _]; done].
    eapply same_view_remove; [|exact Hr]. intros i r Hi Hp. unfold team_view. rewrite Hi. apply N.eqb_eq in Hp as ->. by rewrite Hv.
  - intros t now db a db' Et (Hd & _ & _ & Hn & ->)%team_Create_Ok. apply same_view_insert_team.
    + unfold team_view. by rewrite Hn.
    + apply (dept_view_other _ _ _ Hd). congruence.
  - intros t now db a db' HF (Hd & _ & _ & r & Hr & ->)%team_Update_Ok.
    apply same_view_insert_team; [done|]. by eapply dept_view_other.
  - intros id now db a db' [Ht Hr]%team_Delete_Ok. eapply same_view_remove; [|exact Hr].
    intros i r Hi ->%N.eqb_eq. by eapply team_view_other.
  - intros e now db a db' Ee (Ht & _ & _ & _ & _ & Hn & r & Er & _ & _ & ->)%emp_Create_Ok. apply same_view_insert_emp.
    + unfold emp_view. by rewrite Hn.
    + rewrite Er. apply (team_view_other _ _ _ Ht). congruence.
  - intros e dept now db a db' HF (Ht & _ & _ & _ & _ & _ & r & Er & _ & _ & ->)%emp_Update_Ok. apply same_view_insert_emp; [done|].
    rewrite Er. by eapply team_view_other.
  - intros id now db a db' (He & _ & ->)%emp_Delete_Ok. apply same_view_delete_emp. by eapply emp_view_other.
Qed.

(** What [A] reads depends on the view only. *)
Lemma same_view_reads a b id :
  same_view a b -> dept_Get A id a = dept_Get A id b /\ team_Get A id a = team_Get A id b /\ emp_Get A id a = emp_Get A id b.
Proof.
  intros (Hd & Ht & He).
  assert (forall db i, dept_Get A i db = match dept_view db i with Some r => Ok (dept_of i r) | None => Err ErrNotFound end) as Ed.
  { intros db i. unfold dept_Get, dept_in, dept_view. destruct (o_depts db !! i) as [r|]; [|done]. by destruct (_ =? _)%N. }
  assert (forall db i, owned (dept_ws db i) A = match dept_view db i with Some _ => true | None => false end) as Eo.
  { intros db i. unfold owned, dept_ws, dept_view. destruct (o_depts db !! i) as [r|]; [|done]. simpl.
    destruct (N.eqb_spec (dr_Workspace r) A) as [->|Hne]; [by rewrite bool_decide_true|]. by rewrite bool_decide_false by congruence. }
  assert (forall db i, team_Get A i db = match team_view db i with Some r => Ok (team_of A i r) | None => Err ErrNotFound end) as Et.
  { intros db i. unfold team_Get, team_in, team_view. destruct (o_teams db !! i) as [r|]; [|done]. rewrite Eo.
    by destruct (dept_view db (tr_Department r)). }
  assert (forall db i, emp_Get A i db = match emp_view db i with
      | Some r => match team_view db (er_Team r) with Some t => Ok (emp_of A (tr_Department t) i r) | None => Err ErrNotFound end
      | None => Err ErrNotFound end) as Ee.
  { intros db i. unfold emp_Get, emp_in, emp_view, team_view. destruct (o_emps db !! i) as [r|]; [|done].
    destruct (o_teams db !! er_Team r) as [t|] eqn:Htr; [|done]. rewrite Eo.
    destruct (dept_view db (tr_Department t)) eqn:Hdv; [|done]. by rewrite Htr, Hdv. }
  rewrite !Ed, !Et, !Ee, Hd, Ht, He. split_and!; [done..|]. destruct (emp_view b id); [|done]. by rewrite Ht.
Qed.
End isolation.
End requests.

(** ** Pages by identifier

    The cursor of these listings names a row; the next request looks its creation
    time up. *)

Section pages.
Context `{UuidParseLaws} {A : Type}.
Variables (created : A -> time) (ident : A -> uuid) (want : A -> bool).
Variables (rows : OrgDB -> list A) (limit : Z) (list_page : Cursor -> OrgDB -> res err (Page A)).

Fixpoint walk (dbs : nat -> OrgDB) (fuel n : nat) (cursor : string) : option (res err (list A)) :=
  match fuel with
  | O => None
  | S fuel' =>
      match (try! c := DecodeCursor cursor in list_page c (dbs n)) with
      | Err e => Some (Err e)
      | Ok p =>
          if String.eqb (pg_NextCursor p) "" then Some (Ok (pg_Rows p))
          else match walk dbs fuel' (S n) (pg_NextCursor p) with
               | Some (Ok l) => Some (Ok (pg_Rows p ++ l))
               | o => o
               end
      end
  end.

(** The rows named by cursors stay while the client walks. *)
Definition stay (a b : list A) : Prop :=
  forall x, x ∈ a -> exists y, y ∈ b /\ ident y = ident x /\ created y = created x.

(** The listing, newest first: nothing twice, nothing that was not there, and
    everything that was there throughout. *)
Definition enumerated (dbs : nat -> OrgDB) (o : option (res err (list A))) : Prop :=
  exists l, o = Some (Ok l) /\ StronglySorted (precedes created ident) l /\
    (forall x, x ∈ l -> want x = true /\ exists m, x ∈ rows (dbs m)) /\
    (forall x, want x = true -> (forall m, x ∈ rows (dbs m)) -> x ∈ l).

Hypothesis limit_pos : (0 < limit)%Z.
Hypothesis first_page : forall db, list_page no_cursor db =
  Ok (page_of created ident limit None (filter (fun x => want x = true) (rows db))).
Hypothesis next_page : forall db x, x ∈ rows db -> list_page (mkCursor true (ident x)) db =
  Ok (page_of created ident limit (position created ident x) (filter (fun x => want x = true) (rows db))).

Lemma page_of_keyset p (l : list A) :
  page_of created ident limit p (filter (fun x => want x = true) l) =
    let '(shown, next) := keyset_page created ident (Z.to_nat limit) (remaining created ident want p l) in
    mkPage shown (match next with Some x => uuid_String (ident x) | None => "" end) limit.
Proof.
  unfold page_of, remaining. rewrite list_filter_filter.
  by rewrite (list_filter_iff _ (fun x => want x && past created ident p x = true)) by (intros x; rewrite andb_true_iff; tauto).
Qed.

(** A request with the cursor of [p], if any: the row it names is there. *)
Definition stands (p : option (time * uuid)) (cursor : string) (db : OrgDB) : Prop :=
  (p = None /\ cursor = "") \/
  exists x, x ∈ rows db /\ p = position created ident x /\ cursor = uuid_String (ident x) /\ cursor <> "".

Lemma request_page p cursor db :
  stands p cursor db ->
  (try! c := DecodeCursor cursor in list_page c db) =
    let '(shown, next) := keyset_page created ident (Z.to_nat limit) (remaining created ident want p (rows db)) in
    Ok (mkPage shown (match next with Some x => uuid_String (ident x) | None => "" end) limit).
Proof.
  intros [[-> ->]|(x & Hx & -> & -> & Hne)].
  - unfold DecodeCursor. simpl. rewrite first_page, page_of_keyset. by destruct (keyset_page _ _ _ _).
  - unfold DecodeCursor. apply String.eqb_neq in Hne as ->. rewrite uuid_Parse_String. simpl.
    rewrite next_page, page_of_keyset by done. by destruct (keyset_page _ _ _ _).
Qed.

Lemma walk_ids dbs fuel n p cursor :
  (forall m x, x ∈ rows (dbs m) -> uuid_String (ident x) <> "") -> (forall m, stay (rows (dbs m)) (rows (dbs (S m)))) ->
  stands p cursor (dbs n) ->
  walk dbs fuel n cursor =
    option_map Ok (keyset_walk created ident want (Z.to_nat limit) (fun m => rows (dbs m)) fuel n p).
Proof.
  intros Htext Hstay. revert n p cursor. induction fuel as [|fuel IH]; intros n p cursor Hp; [done|]. cbn [walk keyset_walk].
  rewrite (request_page p) by done.
  destruct (keyset_page_cases created ident want (Z.to_nat limit) p (rows (dbs n)) ltac:(lia)) as [[_ ->]|(t & Ht & _ & ->)]; [done|].
  cbn [pg_NextCursor pg_Rows]. apply list_elem_of_lookup_2 in Ht. apply listing_elem in Ht as [Ht _].
  rewrite (proj2 (String.eqb_neq _ _) (Htext _ _ Ht)).
  rewrite (IH (S n) (position created ident t)).
  - by destruct (keyset_walk _ _ _ _ _ _ _ _).
  - right. destruct (Hstay n t Ht) as (y & Hy & Ei & Ec). exists y. unfold position. rewrite Ei, Ec.
    split_and!; [done..|]. by eapply Htext.
Qed.

Lemma walk_enumerates dbs :
  (forall m, distinct ident (rows (dbs m))) -> (forall m, moves_on created ident (rows (dbs m)) (rows (dbs (S m)))) ->
  (forall m x, x ∈ rows (dbs m) -> uuid_String (ident x) <> "") -> (forall m, stay (rows (dbs m)) (rows (dbs (S m)))) ->
  enumerated dbs (walk dbs (S (length (rows (dbs 0)))) 0 "").
Proof.
  intros Hd Hmv Htext Hstay. rewrite (walk_ids _ _ _ None) by (done || by left).
  destruct (keyset_walk_moving created ident want (Z.to_nat limit) (fun m => rows (dbs m)) (S (length (rows (dbs 0)))) 0 None)
    as (l & -> & Hs & Hsound & Hc); [lia|done..| |].
  - pose proof (behind_le created ident None (rows (dbs 0))). lia.
  - exists l. split_and!; [done..| |].
    + intros x Hx. destruct (Hsound x Hx) as (? & _ & m & _ & ?). split; [done|]. by exists m.
    + intros x Hw Hx. by apply Hc.
Qed.
End pages.

Section listings.
Context `{UuidParseLaws} `{StoredTime, SqlLower, Collation}.
Variables (rls : bool) (ws : uuid).

Definition dept_rows (db : OrgDB) : list Department := scan (dept_in ws) (o_depts db).
Definition team_rows (db : OrgDB) : list Team := scan (team_in db ws) (o_teams db).
Definition emp_rows (db : OrgDB) : list AIEmployee := scan (emp_in db ws) (o_emps db).

Lemma scan_elem {R A} (f : uuid -> R -> option A) m x : x ∈ scan f m <-> exists i r, m !! i = Some r /\ f i r = Some x.
Proof.
  unfold scan. rewrite list_elem_of_omap. split.
  - intros ([i r] & Hi%elem_of_map_to_list & Hx). by exists i, r.
  - intros (i & r & Hi%elem_of_map_to_list & Hx). by exists (i, r).
Qed.

Lemma scan_distinct {R A} (f : uuid -> R -> option A) (ident : A -> uuid) m :
  (forall i r x, f i r = Some x -> ident x = i) -> distinct ident (scan f m).
Proof.
  intros Hf. unfold distinct, scan. assert (forall l, NoDup (map fst l) -> NoDup (map ident (omap (fun kv => f kv.1 kv.2) l))) as Hl.
  { induction l as [|[i r] l IH]; intros Hnd; [constructor|]. simpl in Hnd. apply NoDup_cons in Hnd as [Hi Hnd].
    simpl. destruct (f i r) as [x|] eqn:Hx; [|by apply IH]. simpl. apply NoDup_cons. split; [|by apply IH].
    rewrite (Hf _ _ _ Hx). intros (y & Ey & ([j r'] & Hj & Hy)%list_elem_of_omap)%list_elem_of_fmap.
    simpl in Hy. apply Hi. rewrite Ey, (Hf _ _ _ Hy). apply list_elem_of_fmap. by exists (j, r'). }
  apply Hl, NoDup_fst_map_to_list.
Qed.

Lemma dept_in_Some i r d : dept_in ws i r = Some d -> d_ID d = i /\ d = dept_of i r /\ dr_Workspace r = ws.
Proof. unfold dept_in. destruct (N.eqb_spec (dr_Workspace r) ws); [|done]. by intros [= <-]. Qed.
Lemma team_in_Some db i r t : team_in db ws i r = Some t -> t_ID t = i /\ t = team_of ws i r /\ dept_ws db (tr_Department r) = Some ws.
Proof. unfold team_in, owned. case_bool_decide; [|done]. by intros [= <-]. Qed.
Lemma emp_in_Some db i r e :
  emp_in db ws i r = Some e -> m_ID e = i /\ m_CreatedAt e = er_CreatedAt r /\ team_ws db (er_Team r) = Some ws.
Proof.
  unfold emp_in, team_ws, owned. destruct (o_teams db !! er_Team r) as [t|]; [|done]. case_bool_decide; [|done]. by intros [= <-].
Qed.

Variables (parent : option uuid) (limit : Z).
Definition page_size : Z := q_Limit (Normalize (mkQuery limit parent no_cursor)).
Lemma org_page_size_pos : (0 < page_size)%Z.
Proof.
  unfold page_size, Normalize. simpl. destruct (Z.leb_spec limit 0); simpl; [lia|]. destruct (Z.ltb_spec 200 limit); lia.
Qed.

Definition dept_page (c : Cursor) (db : OrgDB) : res err (Page Department) := dept_ListPage ws (mkQuery limit parent c) db.
Definition team_page (c : Cursor) (db : OrgDB) : res err (Page Team) := team_ListPage rls ws (mkQuery limit parent c) db.
Definition emp_page (c : Cursor) (db : OrgDB) : res err (Page AIEmployee) := emp_ListPage rls ws (mkQuery limit parent c) db.

Lemma dept_page_at db d : d ∈ dept_rows db -> dept_page (mkCursor true (d_ID d)) db =
  Ok (page_of d_CreatedAt d_ID page_size (position d_CreatedAt d_ID d) (filter (fun _ => true = true) (dept_rows db))).
Proof.
  unfold dept_rows. intros (i & r & Hi & Hd)%scan_elem. pose proof (dept_in_Some _ _ _ Hd) as (Ei & -> & Hw).
  rewrite filter_all by (by apply Forall_forall). unfold dept_page, dept_ListPage, dept_Get. simpl. by rewrite Hi, Hd.
Qed.

Lemma seen_own o : o = Some ws -> seen rls o ws = true.
Proof. intros ->. unfold seen, owned. rewrite bool_decide_true by done. apply orb_true_r. Qed.

Lemma team_page_at db t : t ∈ team_rows db -> team_page (mkCursor true (t_ID t)) db =
  Ok (page_of t_CreatedAt t_ID page_size (position t_CreatedAt t_ID t)
        (filter (fun t => in_parent parent (t_DepartmentID t) = true) (team_rows db))).
Proof.
  unfold team_rows. intros (i & r & Hi & Ht)%scan_elem. pose proof (team_in_Some _ _ _ _ Ht) as (Ei & -> & Hw).
  unfold team_page, team_ListPage. simpl. rewrite Hi. by rewrite seen_own by (unfold team_ws; by rewrite Hi).
Qed.

Lemma emp_page_at db e : e ∈ emp_rows db -> emp_page (mkCursor true (m_ID e)) db =
  Ok (page_of m_CreatedAt m_ID page_size (position m_CreatedAt m_ID e)
        (filter (fun e => in_parent parent (m_TeamID e) = true) (emp_rows db))).
Proof.
  unfold emp_rows. intros (i & r & Hi & He)%scan_elem. pose proof (emp_in_Some _ _ _ _ He) as (Ei & Ec & Hw).
  unfold emp_page, emp_ListPage. simpl. rewrite Ei, Hi. rewrite seen_own by (unfold emp_ws; by rewrite Hi).
  unfold position. by rewrite Ec, Ei.
Qed.
End listings.

(** What a client may rely on while it walks: rows that stay, new ones newer. *)
Definition steady `{UuidText} {A} (created : A -> time) (ident : A -> uuid) (rows : nat -> list A) : Prop :=
  forall n, moves_on created ident (rows n) (rows (S n)) /\ stay created ident (rows n) (rows (S n)) /\
    forall x, x ∈ rows n -> uuid_String (ident x) <> "".

(** The pages of the organisation enumerate it.  A cursor here is the
    identifier of the last row shown, whose creation time the next request
    looks up.  While no listed row is deleted and new rows are newer, a client
    that follows the cursors of the departments, of the teams or of the AI
    employees of a workspace - filtered by their parent or not, with whatever
    page size it asks for - finishes within one request more than the table
    had rows, with every row that stayed, each once and newest first; a cursor
    whose row was deleted is refused as invalid. *)
Theorem org_pages_enumerate `{UuidParseLaws} `{StoredTime, SqlLower, Collation} rls ws parent limit dbs :
  (steady d_CreatedAt d_ID (fun n => dept_rows ws (dbs n)) ->
   enumerated d_CreatedAt d_ID (fun _ => true) (dept_rows ws) dbs
     (walk (dept_page ws parent limit) dbs (S (length (dept_rows ws (dbs 0)))) 0 "")) /\
  (steady t_CreatedAt t_ID (fun n => team_rows ws (dbs n)) ->
   enumerated t_CreatedAt t_ID (fun t => in_parent parent (t_DepartmentID t)) (team_rows ws) dbs
     (walk (team_page rls ws parent limit) dbs (S (length (team_rows ws (dbs 0)))) 0 "")) /\
  (steady m_CreatedAt m_ID (fun n => emp_rows ws (dbs n)) ->
   enumerated m_CreatedAt m_ID (fun e => in_parent parent (m_TeamID e)) (emp_rows ws) dbs
     (walk (emp_page rls ws parent limit) dbs (S (length (emp_rows ws (dbs 0)))) 0 "")) /\
  (forall db id, o_emps db !! id = None -> emp_page rls ws parent limit (mkCursor true id) db = Err ErrInvalidInput).
Proof.
  pose proof (org_page_size_pos parent limit) as Hlim. split_and!.
  - intros Hs. apply (walk_enumerates _ _ _ _ (page_size parent limit)); try apply Hs; [done| | |].
    + intros db. unfold dept_page, dept_ListPage. simpl. by rewrite filter_all by (by apply Forall_forall).
    + intros db d. apply dept_page_at.
    + intros m. apply scan_distinct. intros i r d Hd. by apply (dept_in_Some ws) in Hd as [? _].
  - intros Hs. apply (walk_enumerates _ _ _ _ (page_size parent limit)); try apply Hs; [done..| |].
    + intros db t. apply team_page_at.
    + intros m. apply scan_distinct. intros i r t Ht. by apply (team_in_Some ws) in Ht as [? _].
  - intros Hs. apply (walk_enumerates _ _ _ _ (page_size parent limit)); try apply Hs; [done..| |].
    + intros db e. apply emp_page_at.
    + intros m. apply scan_distinct. intros i r e He. by apply (emp_in_Some ws) in He as [? _].
  - intros db id Hid. unfold emp_page, emp_ListPage. simpl. by rewrite Hid.
Qed.

(** ** The theorems *)

(** C37. The hierarchy stays well-formed.  Whatever sequence of requests is made -
    creations, renames, moves, deletions and listings, of any workspace, valid
    or not, with the database failing or losing an acknowledgement at any point
    and other processes, as long as they keep the tables well-formed, moving
    before every statement, between the checks of a service and its write
    too - every team has its department, every employee its team, every
    execution its employee, names and roles are not blank, and no two siblings
    have the same name up to case. *)
Theorem org_hierarchy_wellformed `{UuidText, StoredTime, SqlLower, Collation} rls env draw rs w :
  (forall n db, org_ok db -> org_ok (tt_others (env n) db)) -> org_ok (w_db w) ->
  org_ok (w_db (fold_left (fun w r => serve rls env draw r w) rs w)).
Proof.
  intros Hothers. revert w. induction rs as [|r rs IH]; intros w Hok; [done|]. apply IH. revert Hok.
  apply (serve_keeps rls env draw keeps_ok Hothers r (fun _ => anything) (fun _ => anything)), invariant_kept.
Qed.

(** Workspaces are isolated.  Requests of other workspaces - with row-level
    security in force or, on a connection that bypasses it, without - leave
    everything of a workspace as it was: each of its departments, teams and
    employees reads back the same and none is added to it, by moving a team or
    an employee into it either. *)
Theorem org_isolated `{UuidText, StoredTime, SqlLower, Collation} A rls env draw rs w :
  (forall n db, same_view A db (tt_others (env n) db)) -> Forall (fun r => req_ws r <> A) rs ->
  let w' := fold_left (fun w r => serve rls env draw r w) rs w in
  forall id, dept_Get A id (w_db w') = dept_Get A id (w_db w) /\ team_Get A id (w_db w') = team_Get A id (w_db w) /\
    emp_Get A id (w_db w') = emp_Get A id (w_db w).
Proof.
  intros Hothers Hrs w' id. subst w'. revert w. induction Hrs as [|r rs Hr _ IH]; intros w; [done|]. simpl.
  destruct (IH (serve rls env draw r w)) as (-> & -> & ->).
  destruct (same_view_reads A (w_db w) (w_db (serve rls env draw r w)) id) as (-> & -> & ->); [|done].
  eapply (serve_keeps rls env draw (same_view A) Hothers). by apply isolation_kept.
Qed.

(** The department an employee is in, by the joins. *)
Definition emp_dept (db : OrgDB) (id : uuid) : option uuid :=
  match o_emps db !! id with Some r => option_map tr_Department (o_teams db !! er_Team r) | None => None end.
Definition team_dept (db : OrgDB) (id : uuid) : option uuid := option_map tr_Department (o_teams db !! id).

(** Deleting a department deletes its subtree and nothing else, or nothing.  A
    department of another workspace is not found.  When an execution refers to
    one of its employees the deletion is refused as a whole; otherwise the
    department, its teams and the employees of those are gone, every other row
    is as it was, and the hierarchy is well-formed. *)
Theorem department_deletion_exact `{UuidText, StoredTime, SqlLower, Collation} ws id now db :
  org_ok db ->
  (dept_ws db id <> Some ws /\ dept_Delete ws id now db = Err ErrNotFound) \/
  (dept_ws db id = Some ws /\ (exists e, e ∈ o_busy db /\ emp_dept db e = Some id) /\
   dept_Delete ws id now db = Err foreign_key_violation) \/
  (dept_ws db id = Some ws /\ (forall e, e ∈ o_busy db -> emp_dept db e <> Some id) /\
   exists db', dept_Delete ws id now db = Ok (tt, db') /\ org_ok db' /\
     (forall i, o_depts db' !! i = if decide (i = id) then None else o_depts db !! i) /\
     (forall i, o_teams db' !! i = if decide (team_dept db i = Some id) then None else o_teams db !! i) /\
     (forall i, o_emps db' !! i = if decide (emp_dept db i = Some id) then None else o_emps db !! i)).
Proof.
  intros Hok. destruct (dept_Delete ws id now db) as [[[] db']|er] eqn:Hd.
  - right; right.
    pose proof (kept_dept_Delete _ _ _ _ _ (invariant_kept true ws) _ _ _ _ _ Hd Hok) as Hok'.
    apply dept_Delete_Ok in Hd as (Hw & db1 & Hr & ->). apply remove_teams_Ok in Hr as (Ed & _ & _ & Ht & He & Hb).
    assert (forall i, o_emps db1 !! i = if decide (emp_dept db i = Some id) then None else o_emps db !! i) as Hemp.
    { intros i. rewrite He. unfold emp_dept. destruct (o_emps db !! i) as [r|]; [|by case_decide].
      destruct (o_teams db !! er_Team r) as [t|]; cbn [option_map]; [|by rewrite decide_False].
      by destruct (N.eqb_spec (tr_Department t) id) as [->|?]; case_decide; simplify_eq. }
    split; [done|]. split.
    + intros e Hbusy Hed. destruct (Hb e Hbusy (ok_busy _ Hok e Hbusy)) as [r Hx]. rewrite Hemp, decide_True in Hx; done.
    + eexists. split; [done|]. split; [done|]. simpl. split_and!; [| |exact Hemp].
      * intros i. rewrite Ed. case_decide as Hi; [subst i; apply lookup_delete_eq|by apply lookup_delete_ne].
      * intros i. rewrite Ht. unfold team_dept. destruct (o_teams db !! i) as [t|]; cbn [option_map]; [|by case_decide].
        by destruct (N.eqb_spec (tr_Department t) id) as [->|?]; case_decide; simplify_eq.
  - unfold dept_Delete, owned in Hd. destruct (bool_decide (dept_ws db id = Some ws)) eqn:Ho; bool_prop; [|left; by injection Hd as <-].
    right; left. split; [done|]. apply res_bind_Err in Hd as [Hr|(? & _ & Hd)]; [|done]. unfold remove_teams in Hr.
    case_bool_decide as Hall; [done|]. split; [|by injection Hr as <-].
    apply not_set_Forall_Exists in Hall; [|apply _]. destruct Hall as (e & [Hb He%elem_of_dom]%elem_of_intersection & Hn).
    exists e. split; [done|]. destruct He as [r Hx]. unfold emp_dept. rewrite Hx. apply dec_stable. intros Hed. apply Hn.
    rewrite map_lookup_filter, Hx. simpl. destruct (o_teams db !! er_Team r) as [t|]; simpl in *.
    + rewrite (proj2 (N.eqb_neq _ _)) by congruence. simpl. by eexists.
    + by eexists.
Qed.

(** ** Concrete runs *)

#[local] Hint Extern 0 UuidText => exact unary_uuid : typeclass_instances.
#[local] Hint Extern 0 UuidParse => exact unary_parse : typeclass_instances.
#[local] Hint Extern 0 UuidParseLaws => exact unary_parse_laws : typeclass_instances.
#[local] Hint Extern 0 StoredTime => exact microseconds : typeclass_instances.
#[local] Hint Extern 0 SqlLower => exact (fun s => s) : typeclass_instances.
#[local] Hint Extern 0 Collation => exact (fun _ _ => true) : typeclass_instances.

(** Two workspaces with a department, a team and an employee each; the second
    one's employee has an execution. *)
Definition demo_emp (team : uuid) (name : string) (created : time) : EmpRow :=
  mkEmpRow team name "writer" [] "{}" "{}" None created created.
Definition demo_org : OrgDB :=
  mkOrgDB (list_to_map [(11, mkDeptRow 1 "Research" 0); (21, mkDeptRow 2 "Research" 0)]%N)
    (list_to_map [(12, mkTeamRow 11 "Drafts" 0); (22, mkTeamRow 21 "Drafts" 0)]%N)
    (list_to_map [(13, demo_emp 12 "Ada" 1000); (14, demo_emp 12 "Bo" 1000); (15, demo_emp 12 "Cy" 2000); (23, demo_emp 22 "Ada" 0)]%N)
    {[1; 2]}%N {[23]}%N.
Definition still : nat -> TxTick OrgDB := fun n => mkTxTick (Z.of_nat n * 1000) (fun db => db) NoFault.
Definition draw_30 : nat -> uuid := fun n => (30 + N.of_nat n)%N.

#[local] Instance names_unique_dec `{SqlLower} {R} (parent : R -> uuid) (name : R -> string) (m : gmap uuid R) :
  Decision (map_Forall (fun (i : uuid) (ri : R) => map_Forall (fun (j : uuid) (rj : R) =>
    parent ri = parent rj -> sql_lower (name ri) = sql_lower (name rj) -> i = j) m) m).
Proof. apply _. Defined.

Lemma demo_org_ok : org_ok demo_org.
Proof.
  assert (forall R (P : R -> Prop) (m : gmap uuid R), map_Forall (fun _ => P) m -> forall i r, m !! i = Some r -> P r) as HF
    by (intros R P m Hm i r; apply Hm).
  split.
  - apply HF, (bool_decide_unpack _). by vm_compute.
  - apply HF, (bool_decide_unpack _). by vm_compute.
  - apply HF, (bool_decide_unpack _). by vm_compute.
  - change (set_Forall (fun i => is_Some (o_emps demo_org !! i)) (o_busy demo_org)).
    apply (bool_decide_unpack _). by vm_compute.
  - intros i j ri rj Hi Hj. revert i ri Hi j rj Hj. apply (bool_decide_unpack _ (dec := names_unique_dec _ _ _)). by vm_compute.
  - intros i j ri rj Hi Hj. revert i ri Hi j rj Hj. apply (bool_decide_unpack _ (dec := names_unique_dec _ _ _)). by vm_compute.
  - intros i j ri rj Hi Hj. revert i ri Hi j rj Hj. apply (bool_decide_unpack _ (dec := names_unique_dec _ _ _)). by vm_compute.
Qed.

(** A member of workspace 2 fills it, tries a team of workspace 1 and deletes. *)
Definition demo_requests : list Request :=
  [ReqCreateDepartment 2 " Ops "; ReqCreateTeam 2 21 "Finals"; ReqCreateTeam 2 11 "Spies";
   ReqUpdateEmployee 2 13 (Some "Eve") None None None None; ReqUpdateTeam 2 22 "" (Some 11%N);
   ReqDeleteDepartment 2 11; ReqDeleteTeam 2 12; ReqDeleteEmployee 2 13].

Lemma org_hierarchy_wellformed_witness :
  let w' := fold_left (fun w r => serve false still draw_30 r w) demo_requests (mkWorld demo_org 0) in
  size (o_depts (w_db w')) = 3 /\ size (o_teams (w_db w')) = 3 /\ org_ok (w_db w').
Proof.
  cbv zeta. split; [by vm_compute|]. split; [by vm_compute|].
  apply (org_hierarchy_wellformed false still draw_30 demo_requests (mkWorld demo_org 0)); [done|exact demo_org_ok].
Defined.

Lemma org_isolated_witness :
  let w' := fold_left (fun w r => serve false still draw_30 r w) demo_requests (mkWorld demo_org 0) in
  size (o_teams (w_db w')) = 3 /\ team_Get 1 12 (w_db w') = Ok (mkTeam 12 11 1 "Drafts" 0 0).
Proof.
  cbv zeta. split; [by vm_compute|].
  destruct (org_isolated 1 false still draw_30 demo_requests (mkWorld demo_org 0)) with (id := 12%N) as (_ & -> & _).
  - reflexivity.
  - by repeat constructor.
  - reflexivity.
Defined.

Lemma department_deletion_exact_witness :
  dept_Delete 2 21 0 demo_org = Err foreign_key_violation /\
  (exists db', dept_Delete 1 11 0 demo_org = Ok (tt, db') /\ o_emps db' !! 13%N = None /\ is_Some (o_emps db' !! 23%N)).
Proof.
  split.
  - destruct (department_deletion_exact 2 21 0 demo_org demo_org_ok) as [[Hw _]|[(_ & _ & ->)|(_ & Hb & _)]]; [done..|].
    destruct (Hb 23%N); [set_solver|done].
  - destruct (department_deletion_exact 1 11 0 demo_org demo_org_ok) as [[Hw _]|[(_ & (e & He & Hd) & _)|(_ & _ & db' & -> & _ & _ & _ & He)]];
      [done| |].
    + exfalso. revert e He Hd. change (set_Forall (fun e => emp_dept demo_org e <> Some 11%N) (o_busy demo_org)).
      apply (bool_decide_unpack _). by vm_compute.
    + exists db'. rewrite !He. split_and!; [done..|by eexists].
Defined.

Lemma org_pages_enumerate_witness :
  match walk (emp_page false 1 None 2) (fun _ => demo_org) 4 0 "" with
  | Some (Ok l) => map m_ID l = [15; 14; 13]%N
  | _ => False
  end /\
  enumerated m_CreatedAt m_ID (fun _ => true) (emp_rows 1) (fun _ => demo_org)
    (walk (emp_page false 1 None 2) (fun _ => demo_org) 4 0 "").
Proof.
  split; [by vm_compute|].
  destruct (org_pages_enumerate false 1 None 2 (fun _ => demo_org)) as (_ & _ & He & _). apply He.
  intros n. split; [apply moves_on_refl|]. split; [by intros x Hx; exists x|].
  apply Forall_forall. apply (bool_decide_unpack _). by vm_compute.
Defined.
