(* ===== verification/Knowledge.v ===== *)
(** * internal/knowledge: the documents of a workspace and their embeddings

    knowledge.go, list.go, service.go and infrastructure/postgres/knowledge.go:
    documents with a vector that a provider computes of their content, the
    bounded listing and the similarity search. *)

From S2P Require Import Prelude GoLib GoText Keyset.

(** ** knowledge.go *)

Inductive err : Type :=
| ErrInvalidInput
| ErrNotFound
| ErrWorkspaceMismatch
| ErrInvalidKind
| ErrTooLarge
| ErrInvalidCursor
| ErrEmbed (msg : string)
| ErrStore (msg : string).

Definition MaxContentLength : nat := 65536.
Definition DefaultEmbeddingDimensions : Z := 10.

Inductive Kind : Type := KindDocument | KindCampaignRule | KindStyleGuide | KindOther (text : string).
#[export] Instance Kind_eq_dec : EqDecision Kind.
Proof. solve_decision. Defined.

Definition ValidKind (k : Kind) : bool := match k with KindOther _ => false | _ => true end.

(** ** The text of a vector

    The rendering and the scanning of one component, by package fmt, by the
    vector extension's own output, and the extension's reading of a literal for
    the column. *)

Class VectorText : Type := {
  float32 : Type;
  fmt_g : float32 -> string;                      (* fmt.Sprintf("%g") *)
  Sscanf_f : string -> option float32;            (* fmt.Sscanf("%f") *)
  pg_component : float32 -> string;               (* embedding::text *)
  pg_vector_in : string -> option (list float32)  (* $5::vector, for a column of ten *)
}.

(** [strings.Trim(s, "[]")] *)
Definition is_bracket (b : Z) : bool := (b =? 91)%Z || (b =? 93)%Z.
Fixpoint drop_brackets (l : list Z) : list Z :=
  match l with
  | b :: l' => if is_bracket b then drop_brackets l' else l
  | [] => []
  end.
Definition trim_brackets (l : list Z) : list Z := reverse (drop_brackets (reverse (drop_brackets l))).

Section vectors.
Context `{VectorText}.

Definition vectorLiteral (embedding : list float32) : string := "[" +:+ join "," (map fmt_g embedding) +:+ "]".
Definition pg_vector_out (v : list float32) : string := "[" +:+ join "," (map pg_component v) +:+ "]".

(** All of the parts, or nothing. *)
Fixpoint scan_parts (parts : list (list Z)) : option (list float32) :=
  match parts with
  | [] => Some []
  | p :: ps => match Sscanf_f (TrimSpace (of_bytes p)), scan_parts ps with
               | Some f, Some out => Some (f :: out)
               | _, _ => None
               end
  end.

Definition parseVector (s : string) : list float32 :=
  match trim_brackets (bytes (TrimSpace s)) with
  | [] => []
  | trimmed => default [] (scan_parts (split_bytes 44 trimmed))
  end.

Record Document : Type := mkDocument {
  d_ID : uuid; d_WorkspaceID : uuid; d_Kind : Kind; d_Title : string; d_Content : string; d_Embedding : list float32;
  d_CreatedAt : time; d_UpdatedAt : time
}.

Definition New (ws : uuid) (kind : Kind) (title content : string) (id : uuid) (now : time) : res err Document :=
  guard! negb (ws =? uuid_Nil)%N else ErrWorkspaceMismatch in
  guard! ValidKind kind else ErrInvalidKind in
  guard! negb (blank title) else ErrInvalidInput in
  guard! negb (blank content) else ErrInvalidInput in
  guard! Nat.leb (String.length content) MaxContentLength else ErrTooLarge in
  Ok (mkDocument id ws kind (TrimSpace title) content [] now now).

(** ** list.go *)

Definition DefaultPageSize : Z := 50.
Definition MaxPageSize : Z := 200.
Definition MaxSearchResults : Z := 50.

Record Cursor : Type := mkCursor { c_CreatedAt : time; c_ID : uuid; c_Set : bool }.
Definition no_cursor : Cursor := mkCursor 0 0 false.

Record ListQuery : Type := mkQuery { q_Kind : option Kind; q_Limit : Z; q_Before : Cursor }.

Definition Normalize (q : ListQuery) : ListQuery :=
  let limit := if (q_Limit q <=? 0)%Z then DefaultPageSize else q_Limit q in
  mkQuery (q_Kind q) (if (MaxPageSize <? limit)%Z then MaxPageSize else limit) (q_Before q).

Record Page : Type := mkPage { pg_Documents : list Document; pg_NextCursor : string; pg_Limit : Z }.

Section cursor.
Context `{UuidText, UuidParse}.

Definition EncodeCursor (d : Document) : string :=
  strconv_Itoa (UnixNano (d_CreatedAt d)) +:+ "." +:+ uuid_String (d_ID d).

Definition DecodeCursor (s : string) : res err Cursor :=
  if String.eqb s "" then Ok no_cursor
  else match cut_bytes 46 (bytes s) with
       | None => Err ErrInvalidCursor
       | Some (ts, id) =>
           match ParseInt (of_bytes ts) with
           | None => Err ErrInvalidCursor
           | Some nano =>
               if (nano <? -6795364578871345152)%Z || (2534023007999999999 <? nano)%Z then Err ErrInvalidCursor
               else match uuid_Parse (of_bytes id) with
                    | None => Err ErrInvalidCursor
                    | Some idv => Ok (mkCursor nano idv true)
                    end
           end
       end.
End cursor.

Definition kind_of (s : string) : Kind :=
  if String.eqb s "document" then KindDocument else if String.eqb s "campaign_rule" then KindCampaignRule
  else if String.eqb s "style_guide" then KindStyleGuide else KindOther s.

Definition ValidateKind (s : string) : res err Kind := let k := kind_of s in guard! ValidKind k else ErrInvalidKind in Ok k.

Definition NormalizeSearchLimit (limit : Z) : Z :=
  if (limit <=? 0)%Z then 10%Z else if (MaxSearchResults <? limit)%Z then MaxSearchResults else limit.

(** ** infrastructure/postgres/knowledge.go *)

Record DocRow : Type := mkDocRow {
  r_Workspace : uuid; r_Kind : Kind; r_Title : string; r_Content : string; r_Embedding : option (list float32);
  r_CreatedAt : time; r_UpdatedAt : time
}.

Record KnowDB : Type := mkKnowDB { kd_rows : gmap uuid DocRow; kd_workspaces : gset uuid; kd_next : uuid }.
Definition with_rows (m : gmap uuid DocRow) (db : KnowDB) : KnowDB := mkKnowDB m (kd_workspaces db) (kd_next db).

Definition bad_text : err := ErrStore "22021".
Definition bad_vector : err := ErrStore "22000".
Definition check_violation : err := ErrStore "23514".
Definition foreign_key_violation : err := ErrStore "23503".

Definition doc_row_ok (r : DocRow) : bool :=
  ValidKind (r_Kind r) && negb (only_spaces (r_Title r)) && negb (only_spaces (r_Content r)).

(** A kind used as a parameter of a query. *)
Definition kind_text_ok (k : option Kind) : bool := match k with Some (KindOther s) => text_ok s | _ => true end.

Definition scanDocument (id : uuid) (r : DocRow) : Document :=
  mkDocument id (r_Workspace r) (r_Kind r) (r_Title r) (r_Content r)
    (match r_Embedding r with Some v => parseVector (pg_vector_out v) | None => [] end) (r_CreatedAt r) (r_UpdatedAt r).

Section store.
Context `{StoredTime}.

(** The ORDER BY of a search: what is nearer comes first; which rows it gives
    at all is the index's choice. *)
Class Nearest : Type := nearest : list float32 -> list Document -> list Document.

(** The row an INSERT or an UPDATE writes. *)
Definition row_of (d : Document) (v : list float32) (created updated : time) : DocRow :=
  mkDocRow (d_WorkspaceID d) (d_Kind d) (d_Title d) (d_Content d) (Some v) (stored_time created) (stored_time updated).

(** The identifier is not among the columns: the database draws it, and the
    conflict clause has nothing to conflict with. *)
Definition db_Upsert (d : Document) (now : time) (db : KnowDB) : res err (Document * KnowDB) :=
  guard! text_ok (d_Title d) && text_ok (d_Content d) && kind_text_ok (Some (d_Kind d)) else bad_text in
  match pg_vector_in (vectorLiteral (d_Embedding d)) with
  | None => Err bad_vector
  | Some v =>
      let row := row_of d v (d_CreatedAt d) now in
      let id := kd_next db in
      guard! doc_row_ok row else check_violation in
      guard! bool_decide (d_WorkspaceID d ∈ kd_workspaces db) else foreign_key_violation in
      Ok (mkDocument id (d_WorkspaceID d) (d_Kind d) (d_Title d) (d_Content d) (d_Embedding d) (r_CreatedAt row) (r_UpdatedAt row),
          mkKnowDB (<[id := row]> (kd_rows db)) (kd_workspaces db) (id + 1)%N)
  end.

Definition find_doc (ws id : uuid) (db : KnowDB) : option DocRow :=
  match kd_rows db !! id with
  | Some r => if (r_Workspace r =? ws)%N then Some r else None
  | None => None
  end.

Definition db_Update (d : Document) (now : time) (db : KnowDB) : res err (Document * KnowDB) :=
  guard! text_ok (d_Title d) && text_ok (d_Content d) && kind_text_ok (Some (d_Kind d)) else bad_text in
  match pg_vector_in (vectorLiteral (d_Embedding d)) with
  | None => Err bad_vector
  | Some v =>
      match find_doc (d_WorkspaceID d) (d_ID d) db with
      | None => Err ErrNotFound
      | Some r =>
          let row := mkDocRow (r_Workspace r) (d_Kind d) (d_Title d) (d_Content d) (Some v) (r_CreatedAt r) (stored_time now) in
          guard! doc_row_ok row else check_violation in
          Ok (mkDocument (d_ID d) (d_WorkspaceID d) (d_Kind d) (d_Title d) (d_Content d) (d_Embedding d) (r_CreatedAt row) (r_UpdatedAt row),
              with_rows (<[d_ID d := row]> (kd_rows db)) db)
      end
  end.

Definition db_Get (ws id : uuid) (db : KnowDB) : res err Document :=
  match find_doc ws id db with Some r => Ok (scanDocument id r) | None => Err ErrNotFound end.

Definition all_docs (db : KnowDB) : list Document := map (fun kv => scanDocument kv.1 kv.2) (map_to_list (kd_rows db)).
Definition of_kind (kind : option Kind) (d : Document) : bool :=
  match kind with Some k => bool_decide (d_Kind d = k) | None => true end.
Definition wanted (ws : uuid) (kind : option Kind) (d : Document) : bool := (d_WorkspaceID d =? ws)%N && of_kind kind d.

Definition db_List (ws : uuid) (kind : option Kind) (db : KnowDB) : res err (list Document) :=
  guard! kind_text_ok kind else bad_text in
  Ok (filter (fun d => wanted ws kind d = true) (all_docs db)).

Definition cursor_position (c : Cursor) : option (time * uuid) :=
  if c_Set c then Some (stored_time (c_CreatedAt c), c_ID c) else None.

Definition db_ListPage `{UuidText} (ws : uuid) (q : ListQuery) (db : KnowDB) : res err Page :=
  let q := Normalize q in
  guard! kind_text_ok (q_Kind q) else bad_text in
  let '(shown, next) := keyset_page d_CreatedAt d_ID (Z.to_nat (q_Limit q))
      (filter (fun d => wanted ws (q_Kind q) d && past d_CreatedAt d_ID (cursor_position (q_Before q)) d = true) (all_docs db)) in
  Ok (mkPage shown (match next with Some d => EncodeCursor d | None => "" end) (q_Limit q)).

Definition db_Search `{Nearest} (ws : uuid) (query : list float32) (kind : option Kind) (limit : Z) (db : KnowDB)
  : res err (list Document) :=
  guard! kind_text_ok kind else bad_text in
  match pg_vector_in (vectorLiteral query) with
  | None => Err bad_vector
  | Some v => Ok (take (Z.to_nat limit) (nearest v (filter (fun d => wanted ws kind d = true) (all_docs db))))
  end.

Definition db_Delete (ws id : uuid) (now : time) (db : KnowDB) : res err (unit * KnowDB) :=
  match find_doc ws id db with
  | None => Err ErrNotFound
  | Some _ => Ok (tt, with_rows (delete id (kd_rows db)) db)
  end.
End store.
End vectors.

(** ** service.go *)

Record AuditRecord : Type := mkAudit {
  ka_EventType : string; ka_ConstitutionalPrinciple : string; ka_Outcome : string; ka_WorkspaceID : uuid;
  ka_DocumentID : option uuid; ka_TraceID : string; ka_SpanID : string
}.
Record Event : Type := mkEvent { ke_Type : string; ke_DocumentID : uuid; ke_WorkspaceID : uuid; ke_Trace : string; ke_Span : string }.

Section service.
Context `{VectorText, UuidText, StoredTime, !Nearest}.

Record World : Type := mkWorld {
  w_db : KnowDB;
  w_at : nat;                       (* store calls, clock readings and embeddings so far *)
  w_audit : list AuditRecord;
  w_events : list Event
}.

Record Ctx : Type := mkCtx { cx_trace : string; cx_span : string }.

Variable env : nat -> TxTick KnowDB.
Variable draw : nat -> uuid.
(** The AI provider behind the embedder, and the dimension configured. *)
Variable provider : nat -> uuid -> string -> Z -> res string (list float32).
Variable dimensions : Z.

Definition dim : Z := if (dimensions <=? 0)%Z then DefaultEmbeddingDimensions else dimensions.

Definition tick (w : World) : World := mkWorld (w_db w) (S (w_at w)) (w_audit w) (w_events w).
Definition tx {A} (op : time -> KnowDB -> res err (A * KnowDB)) : act World err A := fun w =>
  let '(r, db) := run_tx ErrStore (env (w_at w)) op (w_db w) in
  (r, mkWorld db (S (w_at w)) (w_audit w) (w_events w)).
Definition read {A} (op : KnowDB -> res err A) : act World err A :=
  tx (fun _ db => try! a := op db in Ok (a, db)).
Definition fresh : act World err (uuid * time) := fun w => (Ok (draw (w_at w), tt_now (env (w_at w))), tick w).
Definition now_ : act World err time := fun w => (Ok (tt_now (env (w_at w))), tick w).

(** [GatewayEmbedder.Embed] *)
Definition Embed (ws : uuid) (content : string) : act World err (list float32) :=
  require! negb (ws =? uuid_Nil)%N else ErrWorkspaceMismatch ;;
  fun w => (match provider (w_at w) ws content dim with Ok v => Ok v | Err m => Err (ErrEmbed m) end, tick w).

Definition audit (ev principle outcome : string) (ws : uuid) (id : option uuid) (cx : Ctx) : act World err unit :=
  act_mod (fun w => mkWorld (w_db w) (w_at w) (mkAudit ev principle outcome ws id (cx_trace cx) (cx_span cx) :: w_audit w) (w_events w)).
Definition emit (e : Event) : act World err unit :=
  act_mod (fun w => mkWorld (w_db w) (w_at w) (w_audit w) (e :: w_events w)).
Definition no_trace : Ctx := mkCtx "" "".

(** An error is audited and passed on. *)
Definition audited {A} (m : act World err A) (ev principle : string) (ws : uuid) (id : option uuid) (cx : Ctx) : act World err A :=
  r <~ act_try m ;;
  match r with Ok a => act_ret a | Err e => audit ev principle "failed" ws id cx ;;! act_fail e end.

Definition set_d_Embedding (v : list float32) (d : Document) : Document :=
  mkDocument (d_ID d) (d_WorkspaceID d) (d_Kind d) (d_Title d) (d_Content d) v (d_CreatedAt d) (d_UpdatedAt d).

Definition Create (cx : Ctx) (ws : uuid) (kind : Kind) (title content : string) : act World err Document :=
  f <~ fresh ;;
  d <~ audited (act_lift (New ws kind title content f.1 f.2)) "knowledge.create" "Vision First" ws None no_trace ;;
  vec <~ audited (Embed ws (d_Content d)) "knowledge.create" "AI Independence" ws (Some (d_ID d)) no_trace ;;
  stored <~ audited (tx (db_Upsert (set_d_Embedding vec d))) "knowledge.create" "Vision First" ws (Some (d_ID d)) no_trace ;;
  audit "knowledge.create" "Vision First" "success" ws (Some (d_ID stored)) no_trace ;;!
  emit (mkEvent "knowledge.created" (d_ID stored) ws (cx_trace cx) (cx_span cx)) ;;!
  act_ret stored.

Definition Get (ws id : uuid) : act World err Document :=
  d <~ read (db_Get ws id) ;;
  require! (d_WorkspaceID d =? ws)%N else ErrWorkspaceMismatch ;;
  act_ret d.

Definition List (ws : uuid) (kind : option Kind) : act World err (list Document) := read (db_List ws kind).

Definition Search (cx : Ctx) (ws : uuid) (query : string) (kind : option Kind) (limit : Z) : act World err (list Document) :=
  require! negb (ws =? uuid_Nil)%N else ErrWorkspaceMismatch ;;
  require! negb (blank query) else ErrInvalidInput ;;
  qv <~ Embed ws (TrimSpace query) ;;
  let limit := if (limit <=? 0)%Z || (50 <? limit)%Z then 10%Z else limit in
  docs <~ read (db_Search ws qv kind limit) ;;
  audit "knowledge.search" "Privacy by Design" "success" ws None cx ;;!
  act_ret docs.

Definition Delete (ws id : uuid) : act World err unit :=
  tx (db_Delete ws id) ;;! audit "knowledge.delete" "Security by Design" "success" ws (Some id) no_trace.

(** The validation of one supplied field. *)
Definition edit {A} (given : option A) (old : A) (check : A -> option err) (value : A -> A) : res err A :=
  match given with
  | None => Ok old
  | Some a => match check a with Some e => Err e | None => Ok (value a) end
  end.

Definition edited (kind : option Kind) (title content : option string) (d : Document) : res err Document :=
  try! kind' := edit kind (d_Kind d) (fun k => if ValidKind k then None else Some ErrInvalidKind) (fun k => k) in
  try! title' := edit title (d_Title d) (fun t => if blank t then Some ErrInvalidInput else None) TrimSpace in
  try! content' := edit content (d_Content d)
    (fun c => if blank c then Some ErrInvalidInput else if Nat.leb (String.length c) MaxContentLength then None else Some ErrTooLarge)
    (fun c => c) in
  Ok (mkDocument (d_ID d) (d_WorkspaceID d) kind' title' content' (d_Embedding d) (d_CreatedAt d) (d_UpdatedAt d)).

Definition set_d_UpdatedAt (t : time) (d : Document) : Document :=
  mkDocument (d_ID d) (d_WorkspaceID d) (d_Kind d) (d_Title d) (d_Content d) (d_Embedding d) (d_CreatedAt d) t.

Definition Update (cx : Ctx) (ws id : uuid) (title content : option string) (kind : option Kind) : act World err Document :=
  require! negb (ws =? uuid_Nil)%N else ErrWorkspaceMismatch ;;
  existing <~ read (db_Get ws id) ;;
  require! (d_WorkspaceID existing =? ws)%N else ErrWorkspaceMismatch ;;
  next <~ audited (act_lift (edited kind title content existing)) "knowledge.update" "Vision First" ws (Some id) cx ;;
  now <~ now_ ;;
  let next := set_d_UpdatedAt now next in
  next <~ (if String.eqb (d_Content next) (d_Content existing) then act_ret next
           else vec <~ audited (Embed ws (d_Content next)) "knowledge.update" "AI Independence" ws (Some id) cx ;;
                act_ret (set_d_Embedding vec next)) ;;
  stored <~ audited (tx (db_Update next)) "knowledge.update" "Vision First" ws (Some id) cx ;;
  audit "knowledge.update" "Vision First" "success" ws (Some (d_ID stored)) cx ;;!
  emit (mkEvent "knowledge.updated" (d_ID stored) ws (cx_trace cx) (cx_span cx)) ;;!
  act_ret stored.

Definition ListPage (ws : uuid) (q : ListQuery) : act World err Page :=
  require! negb (ws =? uuid_Nil)%N else ErrWorkspaceMismatch ;;
  read (db_ListPage ws (Normalize q)).
End service.
