(* ===== verification/KnowledgeProps.v ===== *)
(** * What the knowledge component guarantees

    A document's vector is always an embedding of its content, vectors survive
    their text form, searches and pages are confined, and what a lost update
    does. *)

From S2P Require Import Prelude GoLib GoText Keyset Knowledge.

(** ** The text of a vector *)

(** What is relied on: the extension prints a component in digits, signs, a
    point and an exponent, scanning gives the component back, and reading the
    literal of a vector gives that vector or refuses it, the empty one among
    others. *)
Definition numeric (b : Z) : bool :=
  ((48 <=? b) && (b <=? 57) || (b =? 43) || (b =? 45) || (b =? 46) || (b =? 69) || (b =? 101))%Z.

Class VectorTextLaws `{VectorText} : Prop := {
  scan_component x : Sscanf_f (pg_component x) = Some x;
  component_numeric x : Forall (fun b => numeric b = true) (bytes (pg_component x));
  component_nonempty x : bytes (pg_component x) <> [];
  vector_in_literal v v' : pg_vector_in (vectorLiteral v) = Some v' -> v' = v /\ v <> []
}.

Section vectors.
Context `{VectorTextLaws}.

Definition component (x : float32) : list Z := bytes (pg_component x).

Lemma bytes_join l : bytes (join "," (map pg_component l)) =
  match l with [] => [] | x :: l => component x ++ concat (map (fun y => 44%Z :: component y) l) end.
Proof.
  destruct l as [|x l]; [done|]. revert x. induction l as [|y l IH]; intros x.
  - simpl. unfold component. by rewrite app_nil_r.
  - change (join "," (map pg_component (x :: y :: l))) with (pg_component x +:+ "," +:+ join "," (map pg_component (y :: l))).
    rewrite !bytes_app, IH. done.
Qed.

Lemma component_not b x : numeric b = false -> b ∉ component x.
Proof.
  intros Hb Hin. pose proof (component_numeric x) as Hx. rewrite Forall_forall in Hx. specialize (Hx b Hin). congruence.
Qed.

Lemma split_joined x l :
  split_bytes 44 (component x ++ concat (map (fun y => 44%Z :: component y) l)) = component x :: map component l.
Proof.
  revert x. induction l as [|y l IH]; intros x; simpl.
  - rewrite app_nil_r. apply split_bytes_one. by apply component_not.
  - rewrite split_bytes_app by by apply component_not. by rewrite IH.
Qed.

Lemma numeric_is_solid b : numeric b = true -> solid b = true.
Proof.
  unfold numeric, solid. rewrite andb_true_iff, !Z.ltb_lt, !orb_true_iff, !andb_true_iff, !Z.leb_le, !Z.eqb_eq. lia.
Qed.

Lemma TrimSpace_component x : TrimSpace (pg_component x) = pg_component x.
Proof.
  pose proof (component_numeric x) as Hx. rewrite Forall_forall in Hx.
  apply TrimSpace_solid; intros b Hb; apply numeric_is_solid, Hx.
  - by apply head_Some_elem_of.
  - by apply last_Some_elem_of.
Qed.

Lemma scan_components l : scan_parts (map component l) = Some l.
Proof.
  induction l as [|x l IH]; [done|]. simpl. unfold component at 1. rewrite of_bytes_bytes.
  by rewrite TrimSpace_component, scan_component, IH.
Qed.

Lemma drop_brackets_component x r : drop_brackets (component x ++ r) = component x ++ r.
Proof.
  pose proof (component_numeric x) as Hx. unfold component. destruct (bytes (pg_component x)) as [|b l] eqn:E; [by destruct (component_nonempty x)|].
  simpl. apply Forall_cons in Hx as [Hb _]. unfold is_bracket.
  destruct (Z.eqb_spec b 91) as [->|]; [done|]. destruct (Z.eqb_spec b 93) as [->|]; [done|]. done.
Qed.

Lemma drop_brackets_rev_component x r : drop_brackets (reverse (r ++ component x)) = reverse (r ++ component x).
Proof.
  rewrite reverse_app. pose proof (component_numeric x) as Hx. unfold component.
  destruct (reverse (bytes (pg_component x))) as [|b l] eqn:E.
  - apply (f_equal reverse) in E. rewrite reverse_involutive in E. by destruct (component_nonempty x).
  - simpl. assert (numeric b = true) as Hb.
    { rewrite Forall_forall in Hx. apply Hx. rewrite <-elem_of_reverse, E. left. }
    unfold is_bracket. destruct (Z.eqb_spec b 91) as [->|]; [done|]. destruct (Z.eqb_spec b 93) as [->|]; [done|]. done.
Qed.

Definition joined (x : float32) (l : list float32) : list Z := component x ++ concat (map (fun y => 44%Z :: component y) l).

Lemma joined_last x l : exists r y, joined x l = r ++ component y.
Proof.
  revert x. induction l as [|y l IH]; intros x; [exists [], x; apply app_nil_r|].
  destruct (IH y) as (r & z & E). exists (component x ++ 44%Z :: r), z. unfold joined in *. simpl. by rewrite E, <-app_assoc.
Qed.

Lemma trim_joined x l : trim_brackets (91%Z :: joined x l ++ [93%Z]) = joined x l.
Proof.
  unfold trim_brackets. cbn [drop_brackets is_bracket Z.eqb Pos.eqb orb].
  replace (drop_brackets (joined x l ++ [93%Z])) with (joined x l ++ [93%Z])
    by (unfold joined; by rewrite <-app_assoc, drop_brackets_component).
  rewrite reverse_app, reverse_singleton. cbn [app drop_brackets is_bracket Z.eqb Pos.eqb orb].
  destruct (joined_last x l) as (r & y & ->). by rewrite drop_brackets_rev_component, reverse_involutive.
Qed.

(** What the column prints is read back. *)
Lemma parse_out v : parseVector (pg_vector_out v) = v.
Proof.
  unfold parseVector. rewrite TrimSpace_solid.
  - unfold pg_vector_out. rewrite !bytes_app, bytes_join. destruct v as [|x v]; [done|].
    change (bytes "[" ++ (component x ++ concat (map (fun y => 44%Z :: component y) v)) ++ bytes "]")
      with (91%Z :: joined x v ++ [93%Z]).
    rewrite trim_joined. pose proof (split_joined x v) as Hs. fold (joined x v) in Hs.
    destruct (joined x v) eqn:E; [|rewrite Hs; exact (f_equal (default []) (scan_components (x :: v)))].
    apply app_eq_nil in E as [E _]. by destruct (component_nonempty x).
  - unfold pg_vector_out. rewrite bytes_app. intros b. simpl. by intros [= <-].
  - unfold pg_vector_out. rewrite !bytes_app, app_assoc. intros b. change (bytes "]") with [93%Z]. rewrite last_snoc. by intros [= <-].
Qed.
End vectors.

(** ** The invariant of the documents *)

Section invariant.
Context `{VectorTextLaws, UuidText, StoredTime, !Nearest}.
Variable env : nat -> TxTick KnowDB.
Variable draw : nat -> uuid.
Variable provider : nat -> uuid -> string -> Z -> res string (list float32).
Variable dimensions : Z.

(** The provider gave the vector for that content of that workspace. *)
Definition embedded (ws : uuid) (content : string) (v : list float32) : Prop :=
  exists n, provider n ws content (dim dimensions) = Ok v.

Definition content_ok (c : string) : Prop := blank c = false /\ String.length c <= MaxContentLength.

Definition row_good (r : DocRow) : Prop :=
  doc_row_ok r = true /\ content_ok (r_Content r) /\
  exists v, r_Embedding r = Some v /\ embedded (r_Workspace r) (r_Content r) v.

Definition know_ok (db : KnowDB) : Prop := map_Forall (fun id r => (id < kd_next db)%N /\ row_good r) (kd_rows db).

(** Documents keep workspace and creation time, and identifiers are not used
    twice. *)
Definition history (a b : KnowDB) : Prop :=
  (kd_next a <= kd_next b)%N /\ forall id r', kd_rows b !! id = Some r' ->
    (exists r, kd_rows a !! id = Some r /\ r_Workspace r' = r_Workspace r /\ r_CreatedAt r' = r_CreatedAt r) \/ (kd_next a <= id)%N.

Definition know_step (a b : KnowDB) : Prop := know_ok a -> know_ok b /\ history a b.

#[export] Instance know_step_preorder : PreOrder know_step.
Proof.
  split.
  - intros a Ha. split; [done|]. split; [done|]. intros id r Hr. left. by exists r.
  - intros a b c Hab Hbc Ha. destruct (Hab Ha) as [Hb [Hn Hh]]. destruct (Hbc Hb) as [Hc [Hn' Hh']]. split; [done|].
    split; [lia|]. intros id r'' Hr. destruct (Hh' _ _ Hr) as [(r' & Hr' & Ew & Ec)|?]; [|right; lia].
    destruct (Hh _ _ Hr') as [(r & Hr0 & Ew' & Ec')|?]; [left|by right]. exists r. split_and!; congruence.
Qed.

Hypothesis others : forall n db, know_step db (tt_others (env n) db).

#[local] Abbreviation keeps := (Keyset.keeps w_db know_step).

Lemma know_ok_stable : stable know_step know_ok.
Proof. intros a b Ha Hab. by apply Hab. Qed.

Lemma know_idle {A} F (m : act World err A) : (forall w, w_db (m w).2 = w_db w) -> keeps F m.
Proof. apply (keeps_idle w_db know_step). Qed.

Lemma know_is_tx {A} (op : time -> KnowDB -> res err (A * KnowDB)) : is_tx w_db know_step (tx env op) op.
Proof. intros w. exists ErrStore, (env (w_at w)). split; [apply others|]. unfold tx. by destruct (run_tx _ _ _ _). Qed.

Lemma know_keeps_tx {A} (op : time -> KnowDB -> res err (A * KnowDB)) :
  (forall now db a db', op now db = Ok (a, db') -> know_step db db') -> keeps know_ok (tx env op).
Proof. intros Hop. apply (keeps_tx w_db know_step _ _ op know_ok_stable (know_is_tx op)). intros ? ? ? ? _. apply Hop. Qed.

Lemma know_keeps_audited {A} F (m : act World err A) ev pr ws id cx : keeps F m -> keeps F (audited m ev pr ws id cx).
Proof.
  intros Hm w Hw. specialize (Hm w Hw). unfold audited, act_bind, act_try. destruct (m w) as [[a|e] w']; exact Hm.
Qed.

Lemma audited_Ok {A} (m : act World err A) ev pr ws id cx w a w' :
  audited m ev pr ws id cx w = (Ok a, w') -> m w = (Ok a, w').
Proof. unfold audited, act_bind, act_try. destruct (m w) as [[a'|e] w'']; [done|]. discriminate. Qed.

Lemma know_keeps_Embed F ws content : keeps F (Embed provider dimensions ws content).
Proof. unfold Embed. apply keeps_if; [by apply know_idle|by apply know_idle]. Qed.

Lemma Embed_Ok ws content w v w' :
  Embed provider dimensions ws content w = (Ok v, w') -> embedded ws content v.
Proof.
  unfold Embed. destruct (negb _); [|discriminate]. destruct (provider _ _ _ _) as [v'|m] eqn:Hp; [|discriminate].
  intros [= -> _]. by eexists.
Qed.

(** *** The store *)

Lemma step_insert db id r next :
  (id < next)%N -> (kd_next db <= next)%N -> row_good r ->
  (match kd_rows db !! id with Some r0 => r_Workspace r = r_Workspace r0 /\ r_CreatedAt r = r_CreatedAt r0 | None => (kd_next db <= id)%N end) ->
  know_step db (mkKnowDB (<[id := r]> (kd_rows db)) (kd_workspaces db) next).
Proof.
  intros Hid Hnext Hg Hr Hok. split.
  - apply map_Forall_insert_2; [done|]. intros i r' Hi. destruct (Hok _ _ Hi) as [Hlt ?]. split; [simpl; lia|done].
  - split; [done|]. intros i r' Hi. simpl in Hi. apply lookup_insert_Some in Hi as [[<- <-]|[_ Hi]]; [|left; by exists r'].
    destruct (kd_rows db !! id) as [r0|]; [left|by right]. by exists r0.
Qed.

Definition doc_ok (d : Document) : Prop := content_ok (d_Content d) /\ embedded (d_WorkspaceID d) (d_Content d) (d_Embedding d).

Lemma Upsert_step d now db a db' : doc_ok d -> db_Upsert d now db = Ok (a, db') -> know_step db db'.
Proof.
  intros [Hc He] Hu Hok. unfold db_Upsert in Hu. apply guard_Ok in Hu as [_ Hu].
  destruct (pg_vector_in _) as [v|] eqn:Hv; [|done]. apply vector_in_literal in Hv as [-> _].
  cbv zeta in Hu. apply guard_Ok in Hu as [Hr Hu]. apply guard_Ok in Hu as [_ Hu]. injection Hu as _ <-.
  refine (step_insert db (kd_next db) _ (kd_next db + 1)%N _ _ _ _ Hok); [lia..| |].
  - split; [done|]. split; [done|]. by eexists.
  - destruct (kd_rows db !! kd_next db) as [r0|] eqn:E; [|lia]. destruct (Hok _ _ E) as [? _]. lia.
Qed.

Lemma Update_step d now db a db' : doc_ok d -> db_Update d now db = Ok (a, db') -> know_step db db'.
Proof.
  intros [Hc He] Hu Hok. unfold db_Update in Hu. apply guard_Ok in Hu as [_ Hu].
  destruct (pg_vector_in _) as [v|] eqn:Hv; [|done]. apply vector_in_literal in Hv as [-> _].
  unfold find_doc in Hu. destruct (kd_rows db !! d_ID d) as [r|] eqn:Hr; [|done].
  destruct (N.eqb_spec (r_Workspace r) (d_WorkspaceID d)) as [Hw|]; [|done].
  cbv zeta in Hu. apply guard_Ok in Hu as [Hok' Hu]. injection Hu as _ <-.
  refine (step_insert db (d_ID d) _ (kd_next db) _ _ _ _ Hok); [by apply (Hok _ _ Hr)|done| |by rewrite Hr].
  split; [done|]. split; [done|]. exists (d_Embedding d). split; [done|]. simpl. by rewrite Hw.
Qed.

Lemma Delete_step ws id now db a db' : db_Delete ws id now db = Ok (a, db') -> know_step db db'.
Proof.
  unfold db_Delete. destruct (find_doc ws id db); [|done]. intros [= _ <-] Hok. split.
  - intros i r Hi. simpl in Hi. apply lookup_delete_Some in Hi as [_ Hi]. by apply Hok.
  - split; [done|]. intros i r Hi. simpl in Hi. apply lookup_delete_Some in Hi as [_ Hi]. left. by exists r.
Qed.

Lemma Get_doc_ok ws id db d : know_ok db -> db_Get ws id db = Ok d -> doc_ok d /\ d_WorkspaceID d = ws.
Proof.
  intros Hok. unfold db_Get, find_doc. destruct (kd_rows db !! id) as [r|] eqn:Hr; [|done].
  destruct (N.eqb_spec (r_Workspace r) ws) as [<-|]; [|done]. intros [= <-]. split; [|done].
  destruct (Hok _ _ Hr) as (_ & _ & Hc & v & Ev & He). split; [done|]. unfold scanDocument. simpl. rewrite Ev. by rewrite parse_out.
Qed.

(** *** The service *)

Lemma New_Ok ws kind title content id now d :
  New ws kind title content id now = Ok d -> d_WorkspaceID d = ws /\ d_Content d = content /\ content_ok content.
Proof.
  unfold New. intros Hn. repeat (apply guard_Ok in Hn as [? Hn]). injection Hn as <-. bool_prop.
  split_and!; [done..|]. split; [done|]. by apply Nat.leb_le.
Qed.

Lemma edited_Ok kind title content d d' :
  edited kind title content d = Ok d' ->
  d_WorkspaceID d' = d_WorkspaceID d /\ d_Embedding d' = d_Embedding d /\ (d_Content d' = d_Content d \/ content_ok (d_Content d')).
Proof.
  unfold edited. intros He. apply res_bind_Ok in He as (k & _ & He). apply res_bind_Ok in He as (t & _ & He).
  apply res_bind_Ok in He as (c & Hc & [= <-]). simpl. split_and!; [done..|]. unfold edit in Hc.
  destruct content as [c'|]; [|left; congruence]. destruct (blank c') eqn:Hb; [done|].
  destruct (Nat.leb _ _) eqn:Hl; [|done]. injection Hc as <-. right. split; [done|]. by apply Nat.leb_le.
Qed.

Lemma Create_keeps cx ws kind title content : keeps know_ok (Create env draw provider dimensions cx ws kind title content).
Proof.
  unfold Create. apply keeps_bind; [apply _|exact know_ok_stable|by apply know_idle|]. intros f.
  apply (keeps_bind_post w_db know_step _ (fun d => d_WorkspaceID d = ws /\ d_Content d = content /\ content_ok content));
    [exact know_ok_stable| |by apply know_keeps_audited, know_idle|].
  { intros w d w' Hd%audited_Ok. injection Hd as Hd _. by eapply New_Ok. }
  intros d (Ew & Ec & Hc).
  apply (keeps_bind_post w_db know_step _ (fun v => embedded ws (d_Content d) v));
    [exact know_ok_stable|by intros w v w' Hv%audited_Ok%Embed_Ok|apply know_keeps_audited, know_keeps_Embed|].
  intros v Hv. apply keeps_bind; [apply _|exact know_ok_stable| |].
  - apply know_keeps_audited, know_keeps_tx. intros now db a db'. apply Upsert_step.
    split; simpl; [by rewrite Ec|by rewrite Ew].
  - intros d'. by apply know_idle.
Qed.

Lemma Update_keeps cx ws id title content kind :
  keeps know_ok (Update env provider dimensions cx ws id title content kind).
Proof.
  unfold Update. apply keeps_if; [|by apply know_idle].
  apply (keeps_read_learn w_db know_step _ (fun d db => know_ok db /\ doc_ok d /\ d_WorkspaceID d = ws) _ (db_Get ws id));
    [exact know_ok_stable|apply know_is_tx|by intros d db Hok Hd; split; [|by eapply Get_doc_ok]|].
  intros d w (Hok & [Hc He] & Ew). revert w Hok.
  match goal with |- forall w, know_ok (w_db w) -> know_step (w_db w) (w_db (?m w).2) => change (keeps know_ok m) end.
  apply keeps_if; [|by apply know_idle].
  apply (keeps_bind_post w_db know_step _ (fun d' => d_WorkspaceID d' = ws /\ d_Embedding d' = d_Embedding d /\ content_ok (d_Content d')));
    [exact know_ok_stable| |by apply know_keeps_audited, know_idle|].
  { intros w d' w' Hd%audited_Ok. injection Hd as Hd _. apply edited_Ok in Hd as (-> & -> & Hd'). split_and!; [done..|].
    destruct Hd' as [->|?]; done. }
  intros d' (Ew' & Ev & Hc'). apply keeps_bind; [apply _|exact know_ok_stable|by apply know_idle|]. intros now. cbv zeta.
  apply (keeps_bind_post w_db know_step _ doc_ok); [exact know_ok_stable| | |].
  - intros w a w' Ha. destruct (String.eqb_spec (d_Content (set_d_UpdatedAt now d')) (d_Content d)) as [E|_].
    + injection Ha as <- _. split; [done|]. simpl in *. by rewrite Ew', Ev, E, <-Ew.
    + apply act_bind_Ok in Ha as (v & w1 & Hv%audited_Ok%Embed_Ok & [= <- _]). split; [done|]. simpl in *. by rewrite Ew'.
  - apply keeps_if; [by apply know_idle|]. apply keeps_bind; [apply _|exact know_ok_stable|apply know_keeps_audited, know_keeps_Embed|].
    intros v. by apply know_idle.
  - intros d'' Hd. apply keeps_bind; [apply _|exact know_ok_stable| |].
    + apply know_keeps_audited, know_keeps_tx. intros now' db a db'. by apply Update_step.
    + intros s. by apply know_idle.
Qed.

Inductive Request : Type :=
| ReqCreate (cx : Ctx) (ws : uuid) (kind : Kind) (title content : string)
| ReqUpdate (cx : Ctx) (ws id : uuid) (title content : option string) (kind : option Kind)
| ReqDelete (ws id : uuid)
| ReqGet (ws id : uuid)
| ReqListPage (ws : uuid) (q : ListQuery)
| ReqSearch (cx : Ctx) (ws : uuid) (query : string) (kind : option Kind) (limit : Z).

Definition serve (r : Request) (w : World) : World :=
  match r with
  | ReqCreate cx ws kind title content => (Create env draw provider dimensions cx ws kind title content w).2
  | ReqUpdate cx ws id title content kind => (Update env provider dimensions cx ws id title content kind w).2
  | ReqDelete ws id => (Delete env ws id w).2
  | ReqGet ws id => (Get env ws id w).2
  | ReqListPage ws q => (ListPage env ws q w).2
  | ReqSearch cx ws query kind limit => (Search env provider dimensions cx ws query kind limit w).2
  end.

Lemma know_keeps_read {A} (op : KnowDB -> res err A) : keeps know_ok (read env op).
Proof. apply (keeps_read w_db know_step _ _ op know_ok_stable), know_is_tx. Qed.

Lemma Search_keeps cx ws query kind limit : keeps know_ok (Search env provider dimensions cx ws query kind limit).
Proof.
  unfold Search. do 2 (apply keeps_if; [|by apply know_idle]).
  apply keeps_bind; [apply _|exact know_ok_stable|apply know_keeps_Embed|]. intros v. cbv zeta.
  apply keeps_bind; [apply _|exact know_ok_stable|apply know_keeps_read|]. intros l. by apply know_idle.
Qed.

Lemma know_serve r w : know_step (w_db w) (w_db (serve r w)).
Proof.
  intros Hok. destruct r; cbn [serve].
  - by apply Create_keeps.
  - by apply Update_keeps.
  - unfold Delete. apply (keeps_bind w_db know_step know_ok); [exact know_ok_stable| |intros _; by apply know_idle|done..].
    apply know_keeps_tx. intros ? ? ? ?. apply Delete_step.
  - unfold Get. apply (keeps_bind w_db know_step know_ok); [exact know_ok_stable|apply know_keeps_read| |done..].
    intros d. apply keeps_if; by apply know_idle.
  - unfold ListPage. apply (keeps_if w_db know_step know_ok); [apply know_keeps_read|by apply know_idle|done..].
  - by apply Search_keeps.
Qed.
End invariant.

(** A document's vector is always an embedding of its content.  Whatever
    requests the workspaces make - creations, edits of some of the fields,
    deletions, reads, searches - with other processes writing between the read
    and the write of an edit, the provider or the database failing anywhere and
    acknowledgements lost, every stored document has a valid kind, a non-blank
    title, a non-blank content within the limit, and a vector the provider gave
    for exactly that content in exactly that workspace; it keeps its workspace
    and creation time, and no identifier is used a second time. *)
Theorem embedding_tracks_content `{VectorTextLaws, UuidText, StoredTime, !Nearest} env draw provider dimensions rs w :
  (forall n db, know_step provider dimensions db (tt_others (env n) db)) -> know_ok provider dimensions (w_db w) ->
  let w' := fold_left (fun w r => serve env draw provider dimensions r w) rs w in
  know_ok provider dimensions (w_db w') /\ history (w_db w) (w_db w').
Proof.
  intros Hothers Hok w'.
  assert (know_step provider dimensions (w_db w) (w_db w')) as Hs; [|by apply Hs].
  subst w'. clear Hok. revert w. induction rs as [|r rs IH]; intros w; [reflexivity|]. simpl.
  etrans; [|apply IH]. by apply know_serve.
Qed.

(** ** Reading back *)

Section reading.
Context `{VectorTextLaws, UuidText, StoredTime, !Nearest}.

Lemma Upsert_reads d now db d' db' : db_Upsert d now db = Ok (d', db') -> db_Get (d_WorkspaceID d') (d_ID d') db' = Ok d'.
Proof.
  intros Hu. unfold db_Upsert in Hu. apply guard_Ok in Hu as [_ Hu].
  destruct (pg_vector_in _) as [v|] eqn:Hv; [|done]. apply vector_in_literal in Hv as [-> _].
  cbv zeta in Hu. apply guard_Ok in Hu as [Hr Hu]. apply guard_Ok in Hu as [_ Hu]. injection Hu as <- <-.
  unfold db_Get, find_doc. simpl. rewrite lookup_insert_eq. simpl. rewrite N.eqb_refl. unfold scanDocument. simpl. by rewrite parse_out.
Qed.

Lemma Update_reads d now db d' db' : db_Update d now db = Ok (d', db') -> db_Get (d_WorkspaceID d') (d_ID d') db' = Ok d'.
Proof.
  intros Hu. unfold db_Update in Hu. apply guard_Ok in Hu as [_ Hu].
  destruct (pg_vector_in _) as [v|] eqn:Hv; [|done]. apply vector_in_literal in Hv as [-> _].
  unfold find_doc in Hu. destruct (kd_rows db !! d_ID d) as [r|] eqn:Hr; [|done].
  destruct (N.eqb_spec (r_Workspace r) (d_WorkspaceID d)) as [Hw|]; [|done].
  cbv zeta in Hu. apply guard_Ok in Hu as [Hok' Hu]. injection Hu as <- <-.
  unfold db_Get, find_doc. simpl. rewrite lookup_insert_eq. simpl. rewrite Hw, N.eqb_refl. unfold scanDocument. simpl.
  by rewrite parse_out, ?Hw.
Qed.

Lemma tx_Ok {A} env (op : time -> KnowDB -> res err (A * KnowDB)) w a w' :
  tx env op w = (Ok a, w') -> exists db, op (tt_now (env (w_at w))) db = Ok (a, w_db w') .
Proof.
  unfold tx. destruct (run_tx _ _ _ _) as [r db] eqn:Hr. intros [= -> <-]. apply run_tx_Ok in Hr. by eexists.
Qed.
End reading.

(** What was written reads back.  When a creation or an edit succeeds, the next
    read of that document in its workspace gives exactly the document the
    writer was handed - the vector, which went through two text forms, included
    - provided the database answers and nobody rewrote that row in between; a
    created document has the kind and the content asked for and the title
    trimmed. *)
Theorem knowledge_reads_back `{VectorTextLaws, UuidText, StoredTime} env draw provider dimensions cx ws kind title content w d w' :
  Create env draw provider dimensions cx ws kind title content w = (Ok d, w') \/
  (exists id title' content' kind', Update env provider dimensions cx ws id title' content' kind' w = (Ok d, w')) ->
  tt_fault (env (w_at w')) = NoFault ->
  kd_rows (tt_others (env (w_at w')) (w_db w')) !! d_ID d = kd_rows (w_db w') !! d_ID d ->
  (Get env (d_WorkspaceID d) (d_ID d) w').1 = Ok d /\
  (Create env draw provider dimensions cx ws kind title content w = (Ok d, w') ->
   d_WorkspaceID d = ws /\ d_Kind d = kind /\ d_Title d = TrimSpace title /\ d_Content d = content).
Proof.
  intros Hw Hf Ho.
  assert (db_Get (d_WorkspaceID d) (d_ID d) (w_db w') = Ok d) as Hget.
  { destruct Hw as [Hc|(id & t' & c' & k' & Hu)].
    - unfold Create in Hc. apply act_bind_Ok in Hc as (f & w1 & _ & Hc). apply act_bind_Ok in Hc as (d1 & w2 & _ & Hc).
      apply act_bind_Ok in Hc as (v & w3 & _ & Hc). apply act_bind_Ok in Hc as (d2 & w4 & Htx%audited_Ok & Hc).
      injection Hc as -> <-. apply tx_Ok in Htx as (db & Htx). by apply Upsert_reads in Htx.
    - unfold Update in Hu. destruct (negb _); [|discriminate]. apply act_bind_Ok in Hu as (e & w1 & _ & Hu).
      destruct (_ =? _)%N; [|discriminate]. apply act_bind_Ok in Hu as (d1 & w2 & _ & Hu).
      apply act_bind_Ok in Hu as (now & w3 & _ & Hu). cbv zeta in Hu. apply act_bind_Ok in Hu as (d2 & w4 & _ & Hu).
      apply act_bind_Ok in Hu as (d3 & w5 & Htx%audited_Ok & Hu). injection Hu as -> <-.
      apply tx_Ok in Htx as (db & Htx). by apply Update_reads in Htx. }
  split.
  - assert (db_Get (d_WorkspaceID d) (d_ID d) (tt_others (env (w_at w')) (w_db w')) = Ok d) as Hg
      by (revert Hget; unfold db_Get, find_doc; by rewrite Ho).
    unfold Get, act_bind, read, tx, run_tx. rewrite Hf, Hg. simpl. by rewrite N.eqb_refl.
  - clear Hw. intros Hc. unfold Create in Hc. apply act_bind_Ok in Hc as (f & w1 & _ & Hc).
    apply act_bind_Ok in Hc as (d1 & w2 & Hn%audited_Ok & Hc). injection Hn as Hn _.
    apply act_bind_Ok in Hc as (v & w3 & _ & Hc). apply act_bind_Ok in Hc as (d2 & w4 & Htx%audited_Ok & Hc).
    injection Hc as -> _. apply tx_Ok in Htx as (db & Hu). unfold db_Upsert in Hu. apply guard_Ok in Hu as [_ Hu].
    destruct (pg_vector_in _) as [v'|]; [|done]. cbv zeta in Hu. apply guard_Ok in Hu as [_ Hu]. apply guard_Ok in Hu as [_ Hu].
    injection Hu as <- _. simpl. unfold New in Hn. repeat (apply guard_Ok in Hn as [_ Hn]). by injection Hn as <-.
Qed.

(** A search stays in its workspace.  Whatever the index ranks and whatever the
    limit asked for, a search that succeeds gives at most fifty documents, each
    a stored document of the caller's workspace and of the kind asked for, and
    leaves one audit record. *)
Theorem knowledge_search_confined `{VectorText, StoredTime, !Nearest} env provider dimensions cx ws query kind limit w docs w' :
  (forall v l d, d ∈ nearest v l -> d ∈ l) ->
  Search env provider dimensions cx ws query kind limit w = (Ok docs, w') ->
  length docs <= 50 /\ ws <> uuid_Nil /\ blank query = false /\
  (forall d, d ∈ docs -> d_WorkspaceID d = ws /\ of_kind kind d = true /\
     exists r, kd_rows (w_db w') !! d_ID d = Some r /\ d = scanDocument (d_ID d) r) /\
  w_audit w' = mkAudit "knowledge.search" "Privacy by Design" "success" ws None (cx_trace cx) (cx_span cx) :: w_audit w.
Proof.
  intros Hnear Hs. unfold Search in Hs. destruct (negb (ws =? _)%N) eqn:Hws; [|discriminate].
  destruct (negb (blank query)) eqn:Hb; [|discriminate]. bool_prop.
  apply act_bind_Ok in Hs as (v & w1 & He & Hs). cbv zeta in Hs. set (lim := if (limit <=? 0)%Z || (50 <? limit)%Z then 10%Z else limit) in Hs.
  assert (lim <= 50)%Z as Hlim.
  { subst lim. destruct ((limit <=? 0)%Z || (50 <? limit)%Z) eqn:E; bool_prop; lia. }
  apply act_bind_Ok in Hs as (l & w2 & Hr & Hs). injection Hs as -> <-.
  assert (w_audit w1 = w_audit w) as Ha.
  { unfold Embed in He. destruct (negb _); [|discriminate]. destruct (provider _ _ _ _); [|discriminate]. by injection He as _ <-. }
  unfold read, tx in Hr. destruct (run_tx _ _ _ _) as [r db] eqn:Hx. injection Hr as -> <-. simpl. rewrite Ha.
  apply run_tx_Ok in Hx. apply res_bind_Ok in Hx as (l' & Hx & [= <- <-]). unfold db_Search in Hx. apply guard_Ok in Hx as [_ Hx].
  destruct (pg_vector_in _) as [v'|]; [|done]. injection Hx as <-. rewrite length_take. split_and!; [lia|done..| |done].
  intros d Hd. apply subseteq_take, Hnear, list_elem_of_filter in Hd as [Hw Hd]. unfold wanted in Hw. bool_prop.
  split_and!; [done..|]. unfold all_docs in Hd. apply list_elem_of_fmap in Hd as ([i r] & -> & Hi%elem_of_map_to_list). by exists r.
Qed.

(** ** Concrete runs *)

(** Vectors of noughts and ones, read off any text. *)
Definition bit_text (b : bool) : string := if b then "1" else "0".
Definition bits (l : list Z) : list bool := omap (fun b => if (b =? 48)%Z then Some false else if (b =? 49)%Z then Some true else None) l.
Definition bit_vectors : VectorText :=
  {| float32 := bool; fmt_g := bit_text; pg_component := bit_text;
     Sscanf_f := fun s => if String.eqb s "0" then Some false else if String.eqb s "1" then Some true else None;
     pg_vector_in := fun s => match bits (bytes s) with [] => None | v => Some v end |}.

Lemma bits_literal v : bits (bytes (@vectorLiteral bit_vectors v)) = v.
Proof.
  unfold vectorLiteral. rewrite !bytes_app.
  assert (forall l, bits (bytes (join "," (map bit_text l))) = l) as Hj.
  { intros [|x l]; [done|]. revert x. induction l as [|y l IH]; intros x; [by destruct x|].
    change (join "," (map bit_text (x :: y :: l))) with (bit_text x +:+ "," +:+ join "," (map bit_text (y :: l))).
    rewrite !bytes_app. unfold bits in *. rewrite !omap_app, IH. by destruct x. }
  unfold bits in *. rewrite !omap_app. simpl. rewrite app_nil_r. apply Hj.
Qed.

Lemma bit_vectors_laws : @VectorTextLaws bit_vectors.
Proof.
  split.
  - by intros [].
  - intros []; by repeat constructor.
  - by intros [].
  - intros v v' Hv. change (match bits (bytes (@vectorLiteral bit_vectors v)) with [] => None | v => Some v end = Some v') in Hv.
    rewrite bits_literal in Hv. destruct v; [done|]. by injection Hv as <-.
Qed.

#[local] Hint Extern 0 VectorText => exact bit_vectors : typeclass_instances.
#[local] Hint Extern 0 (VectorTextLaws) => exact bit_vectors_laws : typeclass_instances.
#[local] Hint Extern 0 UuidText => exact unary_uuid : typeclass_instances.
#[local] Hint Extern 0 StoredTime => exact microseconds : typeclass_instances.
#[local] Hint Extern 0 Nearest => exact (fun _ l => l) : typeclass_instances.

(** A provider that tells whether the content is long. *)
Definition demo_provider (n : nat) (ws : uuid) (content : string) (dim : Z) : res string (list bool) :=
  Ok [Nat.ltb 10 (String.length content); true].
Definition demo_doc : DocRow := mkDocRow 7 KindStyleGuide "Tone" "Be brief." (Some [false; true]) 0 0.
Definition demo_docs : KnowDB := mkKnowDB {[1%N := demo_doc]} {[7%N]} 2.
Definition calm : nat -> TxTick KnowDB := fun n => mkTxTick (Z.of_nat n * 1000) (fun db => db) NoFault.
Definition demo_world (db : KnowDB) : World := mkWorld db 0 [] [].
Definition no_ids : nat -> uuid := fun _ => 0%N.

(** A colleague rewrites the content between the two statements of an edit. *)
Definition rewriting : nat -> TxTick KnowDB := fun n =>
  mkTxTick (Z.of_nat n * 1000)
    (if Nat.eqb n 2 then fun db => w_db (Update calm demo_provider 0 no_trace 7 1 None (Some "Be precise and kind.") None (demo_world db)).2
     else fun db => db) NoFault.

Definition content_at (id : uuid) (db : KnowDB) : option string := option_map r_Content (kd_rows db !! id).

(** An edit of the title undoes an edit of the content it overlaps.  The title
    edit reads the document; a colleague's new content is then stored, with its
    vector; the title edit, which was not given a content, writes the content
    and the vector it read: the colleague's text is gone, and both were told of
    success. *)
Theorem title_edit_reverts_content :
  let edit := Update rewriting demo_provider 0 no_trace 7 1 (Some "House tone") None None (demo_world demo_docs) in
  content_at 1 (tt_others (rewriting 2) demo_docs) = Some "Be precise and kind." /\
  is_ok edit.1 = true /\ content_at 1 (w_db edit.2) = Some "Be brief." /\
  option_map r_Embedding (kd_rows (w_db edit.2) !! 1%N) = Some (Some [false; true]).
Proof. cbv zeta. split_and!; by vm_compute. Qed.

Lemma demo_docs_ok : know_ok demo_provider 0 demo_docs.
Proof.
  intros id r Hr. unfold demo_docs in Hr. cbn [kd_rows] in Hr.
  apply lookup_singleton_Some in Hr as [<- <-]. split; [done|]. split; [by vm_compute|]. split; [split; [by vm_compute|by apply Nat.leb_le; vm_compute]|].
  eexists. split; [done|]. by exists 0.
Qed.

Lemma embedding_tracks_content_witness :
  let w' := fold_left (fun w r => serve calm no_ids demo_provider 0 r w)
              [ReqCreate no_trace 7 KindDocument " Plan " "A much longer content"; ReqUpdate no_trace 7 1 None (Some "Be brief, be bold.") None;
               ReqDelete 7 5] (demo_world demo_docs) in
  content_at 1 (w_db w') = Some "Be brief, be bold." /\ content_at 2 (w_db w') = Some "A much longer content" /\
  know_ok demo_provider 0 (w_db w').
Proof.
  cbv zeta. split; [by vm_compute|]. split; [by vm_compute|].
  apply (embedding_tracks_content calm no_ids demo_provider 0 _ (demo_world demo_docs)); [|exact demo_docs_ok].
  intros n db. reflexivity.
Defined.

Lemma knowledge_reads_back_witness :
  exists d w', Create calm no_ids demo_provider 0 no_trace 7 KindDocument " Plan " "Ship it." (demo_world demo_docs) = (Ok d, w') /\
    d_Title d = "Plan" /\ (Get calm (d_WorkspaceID d) (d_ID d) w').1 = Ok d.
Proof.
  destruct (Create calm no_ids demo_provider 0 no_trace 7 KindDocument " Plan " "Ship it." (demo_world demo_docs)) as [[d|e] w'] eqn:E.
  - exists d, w'. split; [done|].
    destruct (knowledge_reads_back calm no_ids demo_provider 0 no_trace 7 KindDocument " Plan " "Ship it." (demo_world demo_docs) d w')
      as [Hg Hf]; [by left|done|done|]. destruct (Hf E) as (_ & _ & -> & _). split; [by vm_compute|exact Hg].
  - exfalso. vm_compute in E. discriminate E.
Defined.

Lemma knowledge_search_confined_witness :
  exists docs w', Search calm demo_provider 0 no_trace 7 " tone " None 500 (demo_world demo_docs) = (Ok docs, w') /\
    length docs = 1 /\ (forall d, d ∈ docs -> d_WorkspaceID d = 7%N).
Proof.
  destruct (Search calm demo_provider 0 no_trace 7 " tone " None 500 (demo_world demo_docs)) as [[docs|e] w'] eqn:E.
  - exists docs, w'. split; [done|]. split; [by vm_compute in E; injection E as <- _|].
    destruct (knowledge_search_confined calm demo_provider 0 no_trace 7 " tone " None 500 (demo_world demo_docs) docs w')
      as (_ & _ & _ & Hd & _); [done|done|]. intros d Hin. by apply Hd.
  - exfalso. vm_compute in E. discriminate E.
Defined.
