(* ===== verification/Schema.v ===== *)
(** * The schema and its migrations (infrastructure/database/database.go)

    The statements the bootstrap sends to PostgreSQL, as data, and what they do
    to a catalogue of tables, columns, constraints, indexes, roles, grants and
    policies.  A statement is refused when what it names is missing; everything
    else a server can refuse it for - a row that violates a new constraint, a
    privilege, a broken connection - is the parameter [refused].  The rows of
    the tables belong to the components that use them.

    A statement is [settled] in a catalogue when running it again changes
    nothing.  A script is restartable when every statement settles and no later
    one unsettles it. *)

From S2P Require Import Prelude.

(** ** Statements *)

Inductive on_delete : Type := Cascade | SetNull (cols : list string) | Restrict.

Inductive attr : Type :=
| PRIMARY_KEY | NOT_NULL | UNIQUE | IDENTITY
| DEFAULT (e : string)
| REFERENCES (t c : string) (d : on_delete).

Record column : Type := col { c_name : string; c_type : string; c_attrs : list attr }.

(** A constraint; a check carries the columns its condition reads. *)
Inductive body : Type :=
| Primary (cols : list string)
| Unique (cols : list string)
| Foreign (cols : list string) (t : string) (keys : list string) (d : on_delete)
| CheckThat (cols : list string) (cond : string).

(** The row conditions the policies are written with. *)
Inductive row_cond : Type :=
| AnyRow                  (** true *)
| IdIsCurrent             (** id = the workspace of the session *)
| WorkspaceIsCurrent      (** workspace_id = the workspace of the session *)
| DepartmentIsCurrent     (** department_id IN (departments of the workspace) *)
| TeamIsCurrent           (** team_id IN (teams of the workspace) *)
| NoneOrCurrent           (** workspace_id IS NULL OR workspace_id = ... *)
| IdentityScope           (** the condition of user_scope_policy *)
| Opaque (text : string). (** of a policy this program did not write *)

(** A policy applies to everyone ([None]: PUBLIC) or to the members of a role. *)
Record Policy : Type := mkPolicy { p_to : option string; p_using : row_cond }.

Inductive sql : Type :=
| CreateExtension (e : string)
| CreateTable (t : string) (cols : list column) (ks : list (string * body))
| CreateIndex (n : string) (unique : bool) (t : string) (keys : list string) (cond : option string) (reads : list string)
| AddColumn (t : string) (c : column)
| Update (t : string) (cols : list string)
    (** a backfill; the rows are not in the catalogue *)
| AddConstraint (scoped : bool) (t n : string) (b : body)
    (** IF NOT EXISTS (SELECT 1 FROM pg_constraint WHERE conname = n [AND conrelid = t]) *)
| DropConstraint (t n : string)
| DropIndex (n : string)
| EnableRLS (t : string)
| ForceRLS (t : string)
| OwnerTo (t r : string)
| EnsureRole (r : string)
| SetPassword (r pw : string)
| GrantPrivileges (rt ad : string)
| EnsurePolicy (t n : string) (p : Policy)
| ReplacePolicy (t n : string) (p : Policy)
| Query (what : string).

#[export] Instance on_delete_eq_dec : EqDecision on_delete.
Proof. solve_decision. Defined.
#[export] Instance attr_eq_dec : EqDecision attr.
Proof. solve_decision. Defined.
#[export] Instance column_eq_dec : EqDecision column.
Proof. solve_decision. Defined.
#[export] Instance body_eq_dec : EqDecision body.
Proof. solve_decision. Defined.
#[export] Instance row_cond_eq_dec : EqDecision row_cond.
Proof. solve_decision. Defined.
#[export] Instance policy_eq_dec : EqDecision Policy.
Proof. solve_decision. Defined.

(** ** The catalogue *)

Record Table : Type := mkTable { t_cols : list column; t_owner : string; t_rls : bool; t_force : bool }.

Record Role : Type := mkRole {
  r_super : bool; r_login : bool; r_bypass : bool; r_createrole : bool; r_createdb : bool; r_password : option string
}.

Record Catalog : Type := mkCatalog {
  c_exts : gset string;
  c_tables : gmap string Table;
  c_cons : gmap (string * string) body;        (** by table and name *)
  c_indexes : gset string;
  c_roles : gmap string Role;
  c_members : gset (string * string);          (** who has the privileges of whom, transitively *)
  c_policies : gmap (string * string) Policy;  (** by table and name *)
  c_grants : list (string * string * string);  (** role, table, privilege *)
  c_defaults : gset (string * string);         (** granted on the tables created from now on *)
  c_usage : gset string;
  c_workspaces : gmap uuid string              (** the rows of workspaces: id and name *)
}.

#[export] Instance table_eq_dec : EqDecision Table.
Proof. solve_decision. Defined.
#[export] Instance role_eq_dec : EqDecision Role.
Proof. solve_decision. Defined.
#[export] Instance catalog_eq_dec : EqDecision Catalog.
Proof. solve_decision. Defined.

Definition set_tables (f : gmap string Table -> gmap string Table) (c : Catalog) : Catalog :=
  mkCatalog (c_exts c) (f (c_tables c)) (c_cons c) (c_indexes c) (c_roles c) (c_members c) (c_policies c) (c_grants c) (c_defaults c) (c_usage c) (c_workspaces c).
Definition set_cons (f : gmap (string * string) body -> gmap (string * string) body) (c : Catalog) : Catalog :=
  mkCatalog (c_exts c) (c_tables c) (f (c_cons c)) (c_indexes c) (c_roles c) (c_members c) (c_policies c) (c_grants c) (c_defaults c) (c_usage c) (c_workspaces c).
Definition set_indexes (f : gset string -> gset string) (c : Catalog) : Catalog :=
  mkCatalog (c_exts c) (c_tables c) (c_cons c) (f (c_indexes c)) (c_roles c) (c_members c) (c_policies c) (c_grants c) (c_defaults c) (c_usage c) (c_workspaces c).
Definition set_roles (f : gmap string Role -> gmap string Role) (c : Catalog) : Catalog :=
  mkCatalog (c_exts c) (c_tables c) (c_cons c) (c_indexes c) (f (c_roles c)) (c_members c) (c_policies c) (c_grants c) (c_defaults c) (c_usage c) (c_workspaces c).
Definition set_policies (f : gmap (string * string) Policy -> gmap (string * string) Policy) (c : Catalog) : Catalog :=
  mkCatalog (c_exts c) (c_tables c) (c_cons c) (c_indexes c) (c_roles c) (c_members c) (f (c_policies c)) (c_grants c) (c_defaults c) (c_usage c) (c_workspaces c).
Definition set_grants (f : list (string * string * string) -> list (string * string * string)) (c : Catalog) : Catalog :=
  mkCatalog (c_exts c) (c_tables c) (c_cons c) (c_indexes c) (c_roles c) (c_members c) (c_policies c) (f (c_grants c)) (c_defaults c) (c_usage c) (c_workspaces c).
Definition set_defaults (f : gset (string * string) -> gset (string * string)) (u : gset string -> gset string) (c : Catalog) : Catalog :=
  mkCatalog (c_exts c) (c_tables c) (c_cons c) (c_indexes c) (c_roles c) (c_members c) (c_policies c) (c_grants c) (f (c_defaults c)) (u (c_usage c)) (c_workspaces c).
Definition set_exts (f : gset string -> gset string) (c : Catalog) : Catalog :=
  mkCatalog (f (c_exts c)) (c_tables c) (c_cons c) (c_indexes c) (c_roles c) (c_members c) (c_policies c) (c_grants c) (c_defaults c) (c_usage c) (c_workspaces c).
Definition set_workspaces (f : gmap uuid string -> gmap uuid string) (c : Catalog) : Catalog :=
  mkCatalog (c_exts c) (c_tables c) (c_cons c) (c_indexes c) (c_roles c) (c_members c) (c_policies c) (c_grants c) (c_defaults c) (c_usage c) (f (c_workspaces c)).

(** ** Running a statement *)

Inductive sql_err : Type :=
| Refused
| NoTable (t : string) | NoColumn (c : string) | NoRoleNamed (r : string)
| NoKey (t : string).          (** a foreign key that points at no unique key *)

Definition has_col (tb : Table) (c : string) : bool := existsb (fun k => (c_name k =? c)%string) (t_cols tb).
Definition has_cols (tb : Table) (cs : list string) : bool := forallb (has_col tb) cs.

(** The names PostgreSQL gives the constraints written at a column. *)
Definition column_constraints (t : string) (c : column) : list (string * body) :=
  flat_map (fun a => match a with
    | PRIMARY_KEY => [(t +:+ "_pkey", Primary [c_name c])]
    | UNIQUE => [(t +:+ "_" +:+ c_name c +:+ "_key", Unique [c_name c])]
    | REFERENCES t' k d => [(t +:+ "_" +:+ c_name c +:+ "_fkey", Foreign [c_name c] t' [k] d)]
    | _ => []
    end) (c_attrs c).

Definition is_key (keys : list string) (b : body) : bool :=
  match b with Primary k | Unique k => bool_decide (k = keys) | _ => false end.
Definition has_key (c : Catalog) (t : string) (keys : list string) : bool :=
  existsb (fun kb => (kb.1.1 =? t)%string && is_key keys kb.2) (map_to_list (c_cons c)).
Definition named (c : Catalog) (n : string) : bool := existsb (fun kb => (kb.1.2 =? n)%string) (map_to_list (c_cons c)).

Definition with_table {A} (c : Catalog) (t : string) (k : Table -> res sql_err A) : res sql_err A :=
  match c_tables c !! t with Some tb => k tb | None => Err (NoTable t) end.

(** A constraint can be added when what it names exists. *)
Definition check_body (c : Catalog) (tb : Table) (b : body) : res sql_err unit :=
  match b with
  | Primary cs | Unique cs => guard! has_cols tb cs else NoColumn (String.concat "," cs) in Ok tt
  | CheckThat cs _ => guard! has_cols tb cs else NoColumn (String.concat "," cs) in Ok tt
  | Foreign cs t keys _ =>
      guard! has_cols tb cs else NoColumn (String.concat "," cs) in
      with_table c t (fun _ => guard! has_key c t keys else NoKey t in Ok tt)
  end.

Fixpoint check_all (c : Catalog) (tb : Table) (ks : list (string * body)) : res sql_err unit :=
  match ks with [] => Ok tt | (_, b) :: l => try! _ := check_body c tb b in check_all c tb l end.

Definition add_constraints (t : string) (ks : list (string * body)) (m : gmap (string * string) body) : gmap (string * string) body :=
  fold_right (fun kb m => <[(t, kb.1) := kb.2]> m) m ks.

(** NOSUPERUSER NOBYPASSRLS NOCREATEDB NOCREATEROLE *)
Definition demoted (a : Role) : Role := mkRole false (r_login a) false false false (r_password a).

Definition DML : list string := ["SELECT"; "INSERT"; "UPDATE"; "DELETE"]%string.
Definition beyond_append : list string := ["UPDATE"; "DELETE"; "TRUNCATE"; "REFERENCES"; "TRIGGER"]%string.
Definition grant_on (r : string) (ts ps : list string) : list (string * string * string) :=
  flat_map (fun t => map (fun p => (r, t, p)) ps) ts.
Definition grant (xs g : list (string * string * string)) : list (string * string * string) :=
  g ++ List.filter (fun x => negb (bool_decide (x ∈ g))) xs.
Definition revoke (xs g : list (string * string * string)) : list (string * string * string) :=
  List.filter (fun x => negb (bool_decide (x ∈ xs))) g.

(** The statements of grantRolePrivileges, in their order: the grants on all the
    tables there are, the narrowing of the audit table, the two grants of the
    administrative role, and the defaults for tables created later. *)
Definition table_names (c : Catalog) : list string := map fst (map_to_list (c_tables c)).
Definition on_audit (rt : string) : list (string * string * string) := grant_on rt ["audit_events"%string] beyond_append.
Definition admin_grants (ad : string) : list (string * string * string) := grant_on ad ["audit_events"; "workspaces"]%string ["SELECT"; "INSERT"]%string.
Definition default_grants (rt ad : string) : gset (string * string) :=
  list_to_set (map (pair rt) DML) ∪ list_to_set (map (pair ad) ["SELECT"; "INSERT"]%string).
Definition granted (rt ad : string) (c : Catalog) : Catalog :=
  set_defaults (fun d => default_grants rt ad ∪ d) (fun u => {[rt; ad]} ∪ u)
    (set_grants (fun g => grant (admin_grants ad) (revoke (on_audit rt) (grant (grant_on rt (table_names c) DML) g))) c).

Section run.
Variable me : string.             (** the role of the connection *)
Variable refused : sql -> bool.

Definition exec (s : sql) (c : Catalog) : res sql_err Catalog :=
  guard! negb (refused s) else Refused in
  match s with
  | CreateExtension e => Ok (set_exts (fun x => {[e]} ∪ x) c)
  | CreateTable t cols ks =>
      match c_tables c !! t with
      | Some _ => Ok c
      | None =>
          let tb := mkTable cols me false false in
          let ks' := flat_map (column_constraints t) cols ++ ks in
          try! _ := check_all c tb ks' in
          Ok (set_grants (grant (map (fun rp => (rp.1, t, rp.2)) (elements (c_defaults c))))
                (set_cons (add_constraints t ks') (set_tables <[t := tb]> c)))
      end
  | CreateIndex n _ t _ _ reads =>
      if decide (n ∈ c_indexes c) then Ok c
      else with_table c t (fun tb => guard! has_cols tb reads else NoColumn (String.concat "," reads) in
             Ok (set_indexes (fun x => {[n]} ∪ x) c))
  | AddColumn t k => with_table c t (fun tb =>
      if has_col tb (c_name k) then Ok c
      else let tb' := mkTable (t_cols tb ++ [k]) (t_owner tb) (t_rls tb) (t_force tb) in
           Ok (set_cons (add_constraints t (column_constraints t k)) (set_tables <[t := tb']> c)))
  | Update t cols => with_table c t (fun tb => guard! has_cols tb cols else NoColumn (String.concat "," cols) in Ok c)
  | AddConstraint scoped t n b =>
      if scoped then
        with_table c t (fun tb =>
          match c_cons c !! (t, n) with
          | Some _ => Ok c
          | None => try! _ := check_body c tb b in Ok (set_cons <[(t, n) := b]> c)
          end)
      else if named c n then Ok c
      else with_table c t (fun tb => try! _ := check_body c tb b in Ok (set_cons <[(t, n) := b]> c))
  | DropConstraint t n => with_table c t (fun _ => Ok (set_cons (delete (t, n)) c))
  | DropIndex n => Ok (set_indexes (fun x => x ∖ {[n]}) c)
  | EnableRLS t => with_table c t (fun tb => Ok (set_tables <[t := mkTable (t_cols tb) (t_owner tb) true (t_force tb)]> c))
  | ForceRLS t => with_table c t (fun tb => Ok (set_tables <[t := mkTable (t_cols tb) (t_owner tb) (t_rls tb) true]> c))
  | OwnerTo t r => with_table c t (fun tb =>
      match c_roles c !! r with
      | Some _ => Ok (set_tables <[t := mkTable (t_cols tb) r (t_rls tb) (t_force tb)]> c)
      | None => Err (NoRoleNamed r)
      end)
  | EnsureRole r => Ok (set_roles <[r := match c_roles c !! r with
                                         | Some a => demoted a
                                         | None => mkRole false true false false false None
                                         end]> c)
  | SetPassword r pw =>
      match c_roles c !! r with
      | Some a => Ok (set_roles <[r := mkRole (r_super a) true (r_bypass a) (r_createrole a) (r_createdb a) (Some pw)]> c)
      | None => Err (NoRoleNamed r)
      end
  | GrantPrivileges rt ad =>
      guard! bool_decide (is_Some (c_roles c !! rt)) else NoRoleNamed rt in
      guard! bool_decide (is_Some (c_roles c !! ad)) else NoRoleNamed ad in
      with_table c "audit_events" (fun _ => with_table c "workspaces" (fun _ => Ok (granted rt ad c)))
  | EnsurePolicy t n p => with_table c t (fun _ =>
      match c_policies c !! (t, n) with
      | Some _ => Ok c
      | None => Ok (set_policies <[(t, n) := p]> c)
      end)
  | ReplacePolicy t n p => with_table c t (fun _ =>
      match p_to p with
      | Some r => guard! bool_decide (is_Some (c_roles c !! r)) else NoRoleNamed r in Ok (set_policies <[(t, n) := p]> c)
      | None => Ok (set_policies <[(t, n) := p]> c)
      end)
  | Query _ => Ok c
  end.

(** Statements sent together are one transaction. *)
Fixpoint exec_all (l : list sql) (c : Catalog) : res sql_err Catalog :=
  match l with [] => Ok c | s :: l' => try! c' := exec s c in exec_all l' c' end.
Definition in_one (l : list sql) : act Catalog sql_err unit :=
  fun c => match exec_all l c with Ok c' => (Ok tt, c') | Err e => (Err e, c) end.
(** Sent one by one, the first refusal ends the sequence. *)
Fixpoint one_by_one (l : list sql) : act Catalog sql_err unit :=
  match l with [] => act_ret tt | s :: l' => in_one [s] ;;! one_by_one l' end.
(** A failure is only logged. *)
Definition best_effort (s : sql) : act Catalog sql_err unit :=
  fun c => match exec s c with Ok c' => (Ok tt, c') | Err _ => (Ok tt, c) end.
End run.

(** ** The schema *)

(** createTables: founders, workspaces and the organisation *)
Definition organisation_tables : list sql := [
  CreateTable "founders" [
    col "id" "UUID" [PRIMARY_KEY; DEFAULT "gen_random_uuid()"];
    col "name" "TEXT" [NOT_NULL];
    col "created_at" "TIMESTAMP" [DEFAULT "NOW()"]
  ] [];
  CreateTable "workspaces" [
    col "id" "UUID" [PRIMARY_KEY; DEFAULT "gen_random_uuid()"];
    col "name" "TEXT" [NOT_NULL];
    col "created_at" "TIMESTAMP" [DEFAULT "NOW()"];
    col "updated_at" "TIMESTAMP" [DEFAULT "NOW()"]
  ] [];
  CreateTable "ceos" [
    col "id" "UUID" [PRIMARY_KEY; DEFAULT "gen_random_uuid()"];
    col "name" "TEXT" [NOT_NULL];
    col "workspace_id" "UUID" [NOT_NULL; REFERENCES "workspaces" "id" Cascade];
    col "created_at" "TIMESTAMP" [DEFAULT "NOW()"]
  ] [];
  CreateTable "departments" [
    col "id" "UUID" [PRIMARY_KEY; DEFAULT "gen_random_uuid()"];
    col "workspace_id" "UUID" [NOT_NULL; REFERENCES "workspaces" "id" Cascade];
    col "name" "TEXT" [NOT_NULL];
    col "created_at" "TIMESTAMP" [DEFAULT "NOW()"]
  ] [];
  CreateTable "teams" [
    col "id" "UUID" [PRIMARY_KEY; DEFAULT "gen_random_uuid()"];
    col "department_id" "UUID" [NOT_NULL; REFERENCES "departments" "id" Cascade];
    col "name" "TEXT" [NOT_NULL];
    col "created_at" "TIMESTAMP" [DEFAULT "NOW()"]
  ] [];
  CreateTable "ai_employees" [
    col "id" "UUID" [PRIMARY_KEY; DEFAULT "gen_random_uuid()"];
    col "team_id" "UUID" [NOT_NULL; REFERENCES "teams" "id" Cascade];
    col "name" "TEXT" [NOT_NULL];
    col "role" "TEXT" [NOT_NULL];
    col "capabilities" "TEXT[]" [DEFAULT "'{}'"];
    col "permissions" "JSONB" [DEFAULT "'{}'"];
    col "memory_id" "UUID" [];
    col "knowledge_access" "JSONB" [DEFAULT "'{}'"];
    col "current_task_id" "UUID" [];
    col "created_at" "TIMESTAMP" [DEFAULT "NOW()"];
    col "updated_at" "TIMESTAMP" [DEFAULT "NOW()"]
  ] [];
  CreateIndex "idx_ceos_workspace" false "ceos" ["workspace_id"] None ["workspace_id"];
  CreateIndex "idx_departments_workspace" false "departments" ["workspace_id"] None ["workspace_id"];
  CreateIndex "idx_teams_department" false "teams" ["department_id"] None ["department_id"];
  CreateIndex "idx_ai_employees_team" false "ai_employees" ["team_id"] None ["team_id"];
  CreateIndex "idx_ai_employees_current_task" false "ai_employees" ["current_task_id"] None ["current_task_id"]
]%string.

(** createTables: the audit chain and the tasks *)
Definition audit_task_tables : list sql := [
  CreateTable "audit_events" [
    col "id" "UUID" [PRIMARY_KEY; DEFAULT "gen_random_uuid()"];
    col "event_id" "UUID" [NOT_NULL; UNIQUE];
    col "seq" "BIGINT" [IDENTITY; UNIQUE];
    col "workspace_id" "UUID" [];
    col "timestamp" "TIMESTAMP" [DEFAULT "NOW()"];
    col "timestamp_canonical" "TEXT" [];
    col "trace_id" "UUID" [];
    col "span_id" "UUID" [];
    col "actor_type" "TEXT" [NOT_NULL];
    col "actor_id" "UUID" [];
    col "target_type" "TEXT" [NOT_NULL];
    col "target_id" "UUID" [];
    col "event_type" "TEXT" [NOT_NULL];
    col "outcome" "TEXT" [NOT_NULL];
    col "outcome_details" "JSONB" [];
    col "permissions_checked" "JSONB" [];
    col "constitutional_principle" "TEXT" [NOT_NULL];
    col "digital_signature" "JSONB" [];
    col "hash_chain_parent" "UUID" [];
    col "hash_chain_value" "BYTEA" [];
    col "genesis" "BOOLEAN" [DEFAULT "false"]
  ] [];
  CreateIndex "idx_audit_events_event_id" false "audit_events" ["event_id"] None ["event_id"];
  CreateIndex "idx_audit_events_actor" false "audit_events" ["actor_type"; "actor_id"] None ["actor_type"; "actor_id"];
  CreateIndex "idx_audit_events_timestamp" false "audit_events" ["timestamp"] None ["timestamp"];
  CreateIndex "idx_audit_events_constitutional" false "audit_events" ["constitutional_principle"] None ["constitutional_principle"];
  CreateIndex "idx_audit_events_workspace" false "audit_events" ["workspace_id"] None ["workspace_id"];
  CreateTable "tasks" [
    col "id" "UUID" [PRIMARY_KEY; DEFAULT "gen_random_uuid()"];
    col "workspace_id" "UUID" [NOT_NULL; REFERENCES "workspaces" "id" Cascade];
    col "title" "TEXT" [NOT_NULL];
    col "description" "TEXT" [];
    col "status" "TEXT" [NOT_NULL; DEFAULT "'backlog'"];
    col "priority" "TEXT" [NOT_NULL; DEFAULT "'normal'"];
    col "assignee_type" "TEXT" [NOT_NULL; DEFAULT "'ai_employee'"];
    col "assignee_id" "UUID" [];
    col "deadline" "TIMESTAMP" [];
    col "created_at" "TIMESTAMP" [DEFAULT "NOW()"];
    col "updated_at" "TIMESTAMP" [DEFAULT "NOW()"]
  ] [];
  CreateIndex "idx_tasks_workspace" false "tasks" ["workspace_id"] None ["workspace_id"];
  CreateIndex "idx_tasks_status" false "tasks" ["status"] None ["status"];
  CreateIndex "idx_tasks_workspace_status" false "tasks" ["workspace_id"; "status"] None ["workspace_id"; "status"]
]%string.

(** createTables: knowledge and memory *)
Definition knowledge_tables : list sql := [
  CreateTable "knowledge_documents" [
    col "id" "UUID" [PRIMARY_KEY; DEFAULT "gen_random_uuid()"];
    col "workspace_id" "UUID" [NOT_NULL; REFERENCES "workspaces" "id" Cascade];
    col "kind" "TEXT" [NOT_NULL];
    col "title" "TEXT" [NOT_NULL];
    col "content" "TEXT" [NOT_NULL];
    col "embedding" "vector(10)" [];
    col "created_at" "TIMESTAMP" [DEFAULT "NOW()"];
    col "updated_at" "TIMESTAMP" [DEFAULT "NOW()"]
  ] [];
  CreateIndex "idx_knowledge_workspace" false "knowledge_documents" ["workspace_id"] None ["workspace_id"];
  CreateIndex "idx_knowledge_kind" false "knowledge_documents" ["workspace_id"; "kind"] None ["workspace_id"; "kind"];
  CreateTable "memory_embeddings" [
    col "id" "UUID" [PRIMARY_KEY; DEFAULT "gen_random_uuid()"];
    col "workspace_id" "UUID" [NOT_NULL; REFERENCES "workspaces" "id" Cascade];
    col "memory_id" "TEXT" [NOT_NULL];
    col "content" "TEXT" [NOT_NULL];
    col "embedding" "vector(10)" []
  ] [];
  CreateIndex "uq_memory_embeddings_memory_id" true "memory_embeddings" ["memory_id"] None ["memory_id"];
  CreateIndex "idx_memory_embeddings_workspace" false "memory_embeddings" ["workspace_id"] None ["workspace_id"]
]%string.

(** createTables: publications and pipelines *)
Definition creator_tables : list sql := [
  CreateTable "publications" [
    col "id" "UUID" [PRIMARY_KEY; DEFAULT "gen_random_uuid()"];
    col "workspace_id" "UUID" [NOT_NULL; REFERENCES "workspaces" "id" Cascade];
    col "goal_id" "UUID" [];
    col "task_id" "UUID" [];
    col "title" "TEXT" [NOT_NULL];
    col "body" "TEXT" [NOT_NULL];
    col "platform" "TEXT" [NOT_NULL];
    col "status" "TEXT" [NOT_NULL];
    col "content_hash" "TEXT" [NOT_NULL];
    col "idempotency_key" "TEXT" [];
    col "external_reference" "TEXT" [];
    col "failure_reason" "TEXT" [];
    col "approved_by" "TEXT" [];
    col "approved_at" "TIMESTAMP" [];
    col "rejected_by" "TEXT" [];
    col "rejected_at" "TIMESTAMP" [];
    col "published_at" "TIMESTAMP" [];
    col "published_by" "TEXT" [];
    col "created_at" "TIMESTAMP" [DEFAULT "NOW()"];
    col "updated_at" "TIMESTAMP" [DEFAULT "NOW()"]
  ] [];
  CreateIndex "idx_publications_workspace" false "publications" ["workspace_id"] None ["workspace_id"];
  CreateIndex "idx_publications_status" false "publications" ["workspace_id"; "status"] None ["workspace_id"; "status"];
  CreateTable "pipelines" [
    col "id" "UUID" [PRIMARY_KEY; DEFAULT "gen_random_uuid()"];
    col "workspace_id" "UUID" [NOT_NULL; REFERENCES "workspaces" "id" Cascade];
    col "goal_id" "UUID" [];
    col "stage" "TEXT" [NOT_NULL];
    col "status" "TEXT" [NOT_NULL];
    col "task_id" "UUID" [];
    col "publication_id" "UUID" [];
    col "research_reference" "TEXT" [];
    col "script_reference" "TEXT" [];
    col "review_reference" "TEXT" [];
    col "published_reference" "TEXT" [];
    col "failure_reason" "TEXT" [];
    col "retry_count" "INTEGER" [NOT_NULL; DEFAULT "0"];
    col "idempotency_key" "TEXT" [];
    col "approved_by" "TEXT" [];
    col "approved_at" "TIMESTAMP" [];
    col "version" "BIGINT" [NOT_NULL; DEFAULT "1"];
    col "trace_id" "TEXT" [];
    col "created_at" "TIMESTAMP" [DEFAULT "NOW()"];
    col "updated_at" "TIMESTAMP" [DEFAULT "NOW()"]
  ] [];
  CreateIndex "idx_pipelines_workspace" false "pipelines" ["workspace_id"] None ["workspace_id"];
  CreateIndex "idx_pipelines_status" false "pipelines" ["workspace_id"; "status"] None ["workspace_id"; "status"];
  CreateIndex "idx_pipelines_workspace_created" false "pipelines" ["workspace_id"; "created_at DESC"; "id DESC"] None ["id"; "workspace_id"; "created_at"];
  CreateIndex "uq_pipelines_workspace_idempotency" true "pipelines" ["workspace_id"; "idempotency_key"] (Some "idempotency_key IS NOT NULL") ["workspace_id"; "idempotency_key"]
]%string.

(** createTables: identities *)
Definition user_table : list sql := [
  CreateTable "users" [
    col "id" "UUID" [PRIMARY_KEY; DEFAULT "gen_random_uuid()"];
    col "username" "TEXT" [NOT_NULL];
    col "password_hash" "TEXT" [NOT_NULL];
    col "display_name" "TEXT" [NOT_NULL; DEFAULT "''"];
    col "email" "TEXT" [NOT_NULL; DEFAULT "''"];
    col "is_founder" "BOOLEAN" [NOT_NULL; DEFAULT "FALSE"];
    col "workspace_id" "UUID" [REFERENCES "workspaces" "id" (SetNull [])];
    col "created_at" "TIMESTAMP" [DEFAULT "NOW()"];
    col "updated_at" "TIMESTAMP" [DEFAULT "NOW()"]
  ] [("users_username_unique", Unique ["username"])];
  CreateIndex "idx_users_single_founder" true "users" ["(TRUE)"] (Some "is_founder = TRUE") ["is_founder"];
  CreateIndex "idx_users_workspace" false "users" ["workspace_id"] None ["workspace_id"]
]%string.

(** createTables: executions *)
Definition execution_table : list sql := [
  CreateTable "ai_executions" [
    col "id" "UUID" [PRIMARY_KEY; DEFAULT "gen_random_uuid()"];
    col "workspace_id" "UUID" [NOT_NULL; REFERENCES "workspaces" "id" Cascade];
    col "ai_employee_id" "UUID" [NOT_NULL; REFERENCES "ai_employees" "id" Restrict];
    col "task_id" "UUID" [REFERENCES "tasks" "id" (SetNull [])];
    col "status" "TEXT" [NOT_NULL; DEFAULT "'pending'"];
    col "attempt" "INTEGER" [NOT_NULL; DEFAULT "0"];
    col "max_attempts" "INTEGER" [NOT_NULL; DEFAULT "3"];
    col "idempotency_key" "TEXT" [];
    col "request_hash" "TEXT" [NOT_NULL];
    col "lease_owner" "TEXT" [];
    col "lease_generation" "BIGINT" [NOT_NULL; DEFAULT "0"];
    col "lease_expires_at" "TIMESTAMP" [];
    col "next_retry_at" "TIMESTAMP" [];
    col "last_error_code" "INTEGER" [];
    col "retryable" "BOOLEAN" [];
    col "error_detail" "TEXT" [];
    col "result_json" "JSONB" [];
    col "completed_at" "TIMESTAMP" [];
    col "failed_at" "TIMESTAMP" [];
    col "cancelled_at" "TIMESTAMP" [];
    col "created_at" "TIMESTAMP" [DEFAULT "NOW()"];
    col "updated_at" "TIMESTAMP" [DEFAULT "NOW()"]
  ] [];
  CreateIndex "idx_ai_executions_workspace" false "ai_executions" ["workspace_id"] None ["workspace_id"];
  CreateIndex "idx_ai_executions_workspace_status" false "ai_executions" ["workspace_id"; "status"] None ["workspace_id"; "status"];
  CreateIndex "idx_ai_executions_employee" false "ai_executions" ["ai_employee_id"; "status"] None ["ai_employee_id"; "status"];
  CreateIndex "idx_ai_executions_lease" false "ai_executions" ["status"; "lease_expires_at"] None ["status"; "lease_expires_at"];
  CreateIndex "idx_ai_executions_next_retry" false "ai_executions" ["status"; "next_retry_at"] None ["status"; "next_retry_at"];
  CreateIndex "idx_ai_executions_task" false "ai_executions" ["task_id"] None ["task_id"];
  CreateIndex "uq_ai_executions_workspace_idempotency" true "ai_executions" ["workspace_id"; "idempotency_key"] (Some "idempotency_key IS NOT NULL") ["workspace_id"; "idempotency_key"]
]%string.

(** createTables: what executions leave behind *)
Definition execution_aux_tables : list sql := [
  CreateTable "ai_execution_retries" [
    col "id" "UUID" [PRIMARY_KEY; DEFAULT "gen_random_uuid()"];
    col "execution_id" "UUID" [NOT_NULL; REFERENCES "ai_executions" "id" Cascade];
    col "workspace_id" "UUID" [NOT_NULL; REFERENCES "workspaces" "id" Cascade];
    col "retry_seq" "INTEGER" [NOT_NULL];
    col "state" "TEXT" [NOT_NULL; DEFAULT "'pending'"];
    col "outcome" "TEXT" [];
    col "worker_id" "TEXT" [];
    col "generation" "BIGINT" [NOT_NULL; DEFAULT "0"];
    col "next_retry_at" "TIMESTAMP" [];
    col "claimed_at" "TIMESTAMP" [];
    col "dispatched_at" "TIMESTAMP" [];
    col "completed_at" "TIMESTAMP" [];
    col "created_at" "TIMESTAMP" [DEFAULT "NOW()"]
  ] [];
  CreateIndex "idx_ai_execution_retries_execution" false "ai_execution_retries" ["execution_id"] None ["execution_id"];
  CreateIndex "idx_ai_execution_retries_workspace" false "ai_execution_retries" ["workspace_id"] None ["workspace_id"];
  CreateIndex "idx_ai_execution_retries_state" false "ai_execution_retries" ["state"; "next_retry_at"] None ["state"; "next_retry_at"];
  CreateTable "retry_dispatch_log" [
    col "id" "UUID" [PRIMARY_KEY; DEFAULT "gen_random_uuid()"];
    col "workspace_id" "UUID" [NOT_NULL; REFERENCES "workspaces" "id" Cascade];
    col "retry_id" "UUID" [NOT_NULL; REFERENCES "ai_execution_retries" "id" Cascade];
    col "worker_id" "TEXT" [NOT_NULL];
    col "generation" "BIGINT" [NOT_NULL];
    col "outcome" "TEXT" [NOT_NULL];
    col "recorded_at" "TIMESTAMP" [DEFAULT "NOW()"]
  ] [];
  CreateIndex "idx_retry_dispatch_log_retry" false "retry_dispatch_log" ["retry_id"] None ["retry_id"];
  CreateIndex "idx_retry_dispatch_log_workspace" false "retry_dispatch_log" ["workspace_id"] None ["workspace_id"];
  CreateTable "ai_execution_dlq" [
    col "id" "UUID" [PRIMARY_KEY; DEFAULT "gen_random_uuid()"];
    col "workspace_id" "UUID" [NOT_NULL; REFERENCES "workspaces" "id" Cascade];
    col "execution_id" "UUID" [NOT_NULL; REFERENCES "ai_executions" "id" Cascade];
    col "attempt" "INTEGER" [NOT_NULL; DEFAULT "0"];
    col "error_code" "INTEGER" [NOT_NULL];
    col "retryable" "BOOLEAN" [NOT_NULL];
    col "error_detail" "TEXT" [];
    col "contexts_snapshot" "JSONB" [];
    col "created_at" "TIMESTAMP" [DEFAULT "NOW()"]
  ] [];
  CreateIndex "idx_ai_execution_dlq_workspace" false "ai_execution_dlq" ["workspace_id"] None ["workspace_id"];
  CreateIndex "idx_ai_execution_dlq_execution" false "ai_execution_dlq" ["execution_id"] None ["execution_id"];
  CreateTable "ai_tool_calls" [
    col "id" "UUID" [PRIMARY_KEY; DEFAULT "gen_random_uuid()"];
    col "workspace_id" "UUID" [NOT_NULL; REFERENCES "workspaces" "id" Cascade];
    col "execution_id" "UUID" [NOT_NULL; REFERENCES "ai_executions" "id" Cascade];
    col "tool_name" "TEXT" [NOT_NULL];
    col "arguments" "JSONB" [];
    col "status" "TEXT" [NOT_NULL];
    col "result" "JSONB" [];
    col "error_detail" "TEXT" [];
    col "duration_ms" "BIGINT" [NOT_NULL; DEFAULT "0"];
    col "created_at" "TIMESTAMP" [DEFAULT "NOW()"];
    col "completed_at" "TIMESTAMP" []
  ] [];
  CreateIndex "idx_ai_tool_calls_execution" false "ai_tool_calls" ["execution_id"] None ["execution_id"];
  CreateIndex "idx_ai_tool_calls_workspace" false "ai_tool_calls" ["workspace_id"] None ["workspace_id"];
  CreateTable "execution_contexts" [
    col "id" "UUID" [PRIMARY_KEY; DEFAULT "gen_random_uuid()"];
    col "workspace_id" "UUID" [NOT_NULL; REFERENCES "workspaces" "id" Cascade];
    col "execution_id" "UUID" [NOT_NULL; REFERENCES "ai_executions" "id" Cascade];
    col "task_title" "TEXT" [];
    col "task_description" "TEXT" [];
    col "ai_employee_name" "TEXT" [NOT_NULL];
    col "ai_employee_role" "TEXT" [NOT_NULL];
    col "team_name" "TEXT" [];
    col "department_name" "TEXT" [];
    col "capabilities" "TEXT[]" [NOT_NULL; DEFAULT "'{}'"];
    col "created_at" "TIMESTAMP" [DEFAULT "NOW()"]
  ] [];
  CreateIndex "uq_execution_contexts_execution" true "execution_contexts" ["execution_id"] None ["execution_id"];
  CreateIndex "idx_execution_contexts_workspace" false "execution_contexts" ["workspace_id"] None ["workspace_id"]
]%string.

(** createTables: process liveness *)
Definition heartbeat_table : list sql := [
  CreateTable "process_heartbeats" [
    col "role" "TEXT" [NOT_NULL];
    col "instance_id" "TEXT" [NOT_NULL];
    col "started_at" "TIMESTAMP" [NOT_NULL; DEFAULT "NOW()"];
    col "last_seen_at" "TIMESTAMP" [NOT_NULL; DEFAULT "NOW()"]
  ] [("process_heartbeats_pkey", Primary ["role"; "instance_id"])];
  CreateIndex "idx_process_heartbeats_role_seen" false "process_heartbeats" ["role"; "last_seen_at DESC"] None ["role"; "last_seen_at"]
]%string.

(** migrateUsers *)
Definition migrateUsers_sql : list sql := [
  AddColumn "users" (col "role" "TEXT" [NOT_NULL; DEFAULT "'workspace_member'"]);
  Update "users" ["role"; "is_founder"];
  AddConstraint false "users" "users_role_valid" (CheckThat ["role"] "role IN ('founder', 'workspace_admin', 'workspace_member')");
  AddConstraint false "users" "users_founder_role_matches" (CheckThat ["is_founder"; "role"] "is_founder = (role = 'founder')");
  AddConstraint false "users" "users_founder_no_workspace" (CheckThat ["is_founder"; "workspace_id"] "NOT is_founder OR workspace_id IS NULL");
  AddConstraint false "users" "users_nonfounder_workspace_required" (CheckThat ["is_founder"; "workspace_id"] "is_founder OR workspace_id IS NOT NULL")
]%string.

(** migrateAuditEvents *)
Definition migrateAuditEvents_sql : list sql := [
  AddColumn "audit_events" (col "seq" "BIGINT" [IDENTITY]);
  AddColumn "audit_events" (col "workspace_id" "UUID" []);
  AddColumn "audit_events" (col "timestamp_canonical" "TEXT" []);
  CreateIndex "uq_audit_events_seq" true "audit_events" ["seq"] None ["seq"];
  CreateIndex "idx_audit_events_workspace" false "audit_events" ["workspace_id"] None ["workspace_id"]
]%string.

(** migrateTasks *)
Definition migrateTasks_sql : list sql := [
  AddConstraint false "tasks" "tasks_status_valid" (CheckThat ["status"] "status IN ( 'backlog', 'planned', 'in_progress', 'in_review', 'completed', 'cancelled', 'rejected', 'failed')");
  AddConstraint false "tasks" "tasks_priority_valid" (CheckThat ["priority"] "priority IN ( 'low', 'normal', 'high', 'urgent')");
  AddConstraint false "tasks" "tasks_assignee_type_valid" (CheckThat ["assignee_type"] "assignee_type IN ( 'ai_employee', 'human')");
  AddConstraint false "tasks" "tasks_title_not_blank" (CheckThat ["title"] "length(trim(title)) > 0");
  CreateIndex "idx_tasks_workspace_created" false "tasks" ["workspace_id"; "created_at DESC"; "id DESC"] None ["id"; "workspace_id"; "created_at"]
]%string.

(** migrateKnowledge *)
Definition migrateKnowledge_sql : list sql := [
  AddConstraint false "knowledge_documents" "knowledge_kind_valid" (CheckThat ["kind"] "kind IN ( 'document', 'campaign_rule', 'style_guide')");
  AddConstraint false "knowledge_documents" "knowledge_title_not_blank" (CheckThat ["title"] "length(trim(title)) > 0");
  AddConstraint false "knowledge_documents" "knowledge_content_not_blank" (CheckThat ["content"] "length(trim(content)) > 0");
  CreateIndex "idx_knowledge_workspace_created" false "knowledge_documents" ["workspace_id"; "created_at DESC"; "id DESC"] None ["id"; "workspace_id"; "created_at"]
]%string.

(** migratePublications *)
Definition migratePublications_sql : list sql := [
  AddColumn "publications" (col "idempotency_key" "TEXT" []);
  AddColumn "publications" (col "external_reference" "TEXT" []);
  AddColumn "publications" (col "failure_reason" "TEXT" []);
  AddColumn "publications" (col "published_by" "TEXT" []);
  AddConstraint false "publications" "publications_status_valid" (CheckThat ["status"] "status IN ( 'queued', 'review', 'approved', 'published', 'failed', 'rejected', 'cancelled')");
  CreateIndex "uq_publications_workspace_idempotency" true "publications" ["workspace_id"; "idempotency_key"] (Some "idempotency_key IS NOT NULL") ["workspace_id"; "idempotency_key"];
  CreateIndex "idx_publications_workspace_created" false "publications" ["workspace_id"; "created_at DESC"; "id DESC"] None ["id"; "workspace_id"; "created_at"]
]%string.

(** migratePipelines *)
Definition migratePipelines_sql : list sql := [
  AddColumn "pipelines" (col "research_reference" "TEXT" []);
  AddColumn "pipelines" (col "script_reference" "TEXT" []);
  AddColumn "pipelines" (col "review_reference" "TEXT" []);
  AddColumn "pipelines" (col "published_reference" "TEXT" []);
  AddColumn "pipelines" (col "failure_reason" "TEXT" []);
  AddColumn "pipelines" (col "retry_count" "INTEGER" [NOT_NULL; DEFAULT "0"]);
  AddColumn "pipelines" (col "idempotency_key" "TEXT" []);
  AddColumn "pipelines" (col "approved_by" "TEXT" []);
  AddColumn "pipelines" (col "approved_at" "TIMESTAMP" []);
  AddColumn "pipelines" (col "version" "BIGINT" [NOT_NULL; DEFAULT "1"]);
  CreateIndex "idx_pipelines_workspace_created" false "pipelines" ["workspace_id"; "created_at DESC"; "id DESC"] None ["id"; "workspace_id"; "created_at"];
  CreateIndex "uq_pipelines_workspace_idempotency" true "pipelines" ["workspace_id"; "idempotency_key"] (Some "idempotency_key IS NOT NULL") ["workspace_id"; "idempotency_key"];
  AddConstraint false "pipelines" "pipelines_stage_valid" (CheckThat ["stage"] "stage IN ('research', 'script', 'review', 'publish', 'complete')");
  AddConstraint false "pipelines" "pipelines_status_valid" (CheckThat ["status"] "status IN ('created', 'active', 'awaiting_approval', 'approved', 'done', 'failed')");
  AddConstraint false "pipelines" "pipelines_retry_count_valid" (CheckThat ["retry_count"] "retry_count >= 0");
  AddConstraint false "pipelines" "pipelines_stage_status_valid" (CheckThat ["stage"; "status"] "status = 'failed' OR (stage = 'research' AND status = 'created') OR (stage IN ('script', 'publish') AND status = 'active') OR (stage = 'review' AND status IN ('awaiting_approval', 'approved')) OR (stage = 'complete' AND status = 'done')");
  AddConstraint false "pipelines" "pipelines_task_fk" (Foreign ["task_id"] "tasks" ["id"] (SetNull []));
  AddConstraint false "pipelines" "pipelines_publication_fk" (Foreign ["publication_id"] "publications" ["id"] (SetNull []))
]%string.

(** migrateOrganization *)
Definition migrateOrganization_sql : list sql := [
  AddColumn "departments" (col "updated_at" "TIMESTAMP" [DEFAULT "NOW()"]);
  AddColumn "teams" (col "updated_at" "TIMESTAMP" [DEFAULT "NOW()"]);
  AddConstraint false "departments" "departments_name_not_blank" (CheckThat ["name"] "length(trim(name)) > 0");
  AddConstraint false "teams" "teams_name_not_blank" (CheckThat ["name"] "length(trim(name)) > 0");
  AddConstraint false "ai_employees" "ai_employees_name_not_blank" (CheckThat ["name"] "length(trim(name)) > 0");
  AddConstraint false "ai_employees" "ai_employees_role_not_blank" (CheckThat ["role"] "length(trim(role)) > 0");
  CreateIndex "uq_departments_workspace_name" true "departments" ["workspace_id"; "lower(name)"] None ["workspace_id"; "name"];
  CreateIndex "uq_teams_department_name" true "teams" ["department_id"; "lower(name)"] None ["department_id"; "name"];
  CreateIndex "uq_ai_employees_team_name" true "ai_employees" ["team_id"; "lower(name)"] None ["team_id"; "name"];
  CreateIndex "idx_departments_workspace_created" false "departments" ["workspace_id"; "created_at DESC"; "id DESC"] None ["id"; "workspace_id"; "created_at"];
  CreateIndex "idx_teams_workspace_created" false "teams" ["department_id"; "created_at DESC"; "id DESC"] None ["id"; "department_id"; "created_at"];
  CreateIndex "idx_ai_employees_workspace_created" false "ai_employees" ["team_id"; "created_at DESC"; "id DESC"] None ["id"; "team_id"; "created_at"]
]%string.

(** migrateExecutions *)
Definition migrateExecutions_sql : list sql := [
  AddColumn "ai_employees" (col "max_concurrent_executions" "INTEGER" [NOT_NULL; DEFAULT "3"]);
  AddConstraint false "ai_executions" "ai_executions_status_valid" (CheckThat ["status"] "status IN ( 'pending', 'running', 'completed', 'failed', 'cancelled')");
  AddConstraint false "ai_executions" "ai_executions_max_attempts_valid" (CheckThat ["max_attempts"] "max_attempts > 0");
  AddConstraint false "ai_executions" "ai_executions_attempt_nonneg" (CheckThat ["attempt"] "attempt >= 0");
  AddConstraint false "ai_executions" "ai_executions_attempt_leq" (CheckThat ["attempt"; "max_attempts"] "attempt <= max_attempts");
  AddConstraint false "ai_executions" "ai_executions_lease_locked" (CheckThat ["status"; "lease_owner"; "lease_expires_at"] "(status <> 'running' AND lease_owner IS NULL AND lease_expires_at IS NULL) OR (status = 'running' AND lease_owner IS NOT NULL AND lease_expires_at IS NOT NULL)");
  AddConstraint false "ai_employees" "ai_employees_max_concurrent_valid" (CheckThat ["max_concurrent_executions"] "max_concurrent_executions >= 1");
  AddConstraint false "ai_execution_retries" "ai_execution_retries_retry_seq_valid" (CheckThat ["retry_seq"] "retry_seq > 0");
  AddConstraint false "ai_execution_retries" "ai_execution_retries_state_valid" (CheckThat ["state"] "state IN ( 'pending', 'claimed', 'dispatched', 'processed')");
  AddConstraint false "ai_execution_retries" "ai_execution_retries_outcome_valid" (CheckThat ["outcome"] "outcome IS NULL OR outcome IN ('success', 'failed', 'cancelled')");
  AddConstraint false "ai_execution_retries" "ai_execution_retries_processed_clear" (CheckThat ["state"; "worker_id"] "state <> 'processed' OR worker_id IS NULL");
  AddConstraint false "retry_dispatch_log" "retry_dispatch_log_outcome_valid" (CheckThat ["outcome"] "outcome IN ('success', 'failed')");
  AddConstraint false "ai_execution_dlq" "ai_execution_dlq_error_code_valid" (CheckThat ["error_code"] "error_code >= 0");
  AddConstraint false "ai_tool_calls" "ai_tool_calls_status_valid" (CheckThat ["status"] "status IN ('completed', 'failed')");
  CreateIndex "uq_ai_execution_retries_one_outstanding" true "ai_execution_retries" ["execution_id"; "workspace_id"] (Some "state IN ('pending', 'claimed', 'dispatched')") ["execution_id"; "workspace_id"; "state"]
]%string.

(** enforceWorkspaceIntegrity *)
Definition enforceWorkspaceIntegrity_sql : list sql := [
  AddConstraint true "tasks" "uq_tasks_id_workspace" (Unique ["id"; "workspace_id"]);
  AddConstraint true "ai_executions" "uq_ai_executions_id_workspace" (Unique ["id"; "workspace_id"]);
  DropConstraint "ai_executions" "ai_executions_task_id_fkey";
  AddConstraint true "ai_executions" "fk_ai_executions_task_workspace" (Foreign ["task_id"; "workspace_id"] "tasks" ["id"; "workspace_id"] (SetNull ["task_id"]));
  AddConstraint true "ai_execution_retries" "fk_ai_execution_retries_execution_workspace" (Foreign ["execution_id"; "workspace_id"] "ai_executions" ["id"; "workspace_id"] Cascade);
  AddConstraint true "workspaces" "uq_workspaces_name" (Unique ["name"]);
  DropIndex "idx_workspaces_name"
]%string.

Definition createTables_sql : list sql :=
  organisation_tables ++ audit_task_tables ++ knowledge_tables ++ creator_tables ++ user_table ++ execution_table
  ++ execution_aux_tables ++ heartbeat_table.

Definition vector_indexes : list sql := [
  CreateIndex "idx_memory_embeddings_embedding" false "memory_embeddings" ["embedding vector_cosine_ops"] None ["embedding"];
  CreateIndex "idx_knowledge_documents_embedding" false "knowledge_documents" ["embedding vector_cosine_ops"] None ["embedding"]
]%string.

(** The tables under row-level security. *)
Definition rlsTables : list string :=
  ["workspaces"; "departments"; "teams"; "ai_employees"; "ceos"; "tasks"; "knowledge_documents"; "memory_embeddings"; "publications"; "pipelines";
   "users"; "audit_events"; "ai_executions"; "ai_execution_retries"; "retry_dispatch_log"; "ai_execution_dlq"; "ai_tool_calls"; "execution_contexts"]%string.

Section steps.
Variable me : string.
Variable refused : sql -> bool.
#[local] Abbreviation in_one := (in_one me refused).
#[local] Abbreviation one_by_one := (one_by_one me refused).
#[local] Abbreviation best_effort := (best_effort me refused).

Definition createExtensions : act Catalog sql_err unit :=
  in_one [CreateExtension "vector"] ;;! best_effort (CreateExtension "pgcrypto").
Definition createTables : act Catalog sql_err unit := in_one createTables_sql.
Definition migrateUsers : act Catalog sql_err unit := in_one migrateUsers_sql.
Definition migrateAuditEvents : act Catalog sql_err unit := in_one migrateAuditEvents_sql.
Definition migrateTasks : act Catalog sql_err unit := in_one migrateTasks_sql.
Definition migrateKnowledge : act Catalog sql_err unit := in_one migrateKnowledge_sql.
Definition migratePublications : act Catalog sql_err unit := in_one migratePublications_sql.
Definition migratePipelines : act Catalog sql_err unit := in_one migratePipelines_sql.
Definition migrateOrganization : act Catalog sql_err unit := in_one migrateOrganization_sql.
Definition migrateExecutions : act Catalog sql_err unit := in_one migrateExecutions_sql.
Definition enforceWorkspaceIntegrity : act Catalog sql_err unit := in_one enforceWorkspaceIntegrity_sql.
Definition enableRLS : act Catalog sql_err unit := one_by_one (map EnableRLS rlsTables).
Definition forceRLS : act Catalog sql_err unit := one_by_one (map ForceRLS rlsTables).
Definition createVectorIndexes : act Catalog sql_err unit :=
  fold_right (fun s k => best_effort s ;;! k) (act_ret tt) vector_indexes.
End steps.

(** ** Restartable scripts *)

(** The columns of a table stay, and neither flag is lifted. *)
Definition table_le (a b : Table) : Prop :=
  (forall k, has_col a k = true -> has_col b k = true) /\ (t_rls a = true -> t_rls b = true) /\ (t_force a = true -> t_force b = true).
#[export] Instance table_le_po : PreOrder table_le.
Proof. split; [by intros a; split_and!|]. intros a b d (?&?&?) (?&?&?). split_and!; auto. Qed.

(** Running [s] again changes nothing, unless it is refused. *)
Definition settled (s : sql) (c : Catalog) : Prop :=
  match s with
  | CreateExtension e => e ∈ c_exts c
  | CreateTable t _ _ => is_Some (c_tables c !! t)
  | CreateIndex n _ _ _ _ _ => n ∈ c_indexes c
  | AddColumn t k => exists tb, c_tables c !! t = Some tb /\ has_col tb (c_name k) = true
  | Update t cols => exists tb, c_tables c !! t = Some tb /\ has_cols tb cols = true
  | AddConstraint true t n _ => is_Some (c_tables c !! t) /\ is_Some (c_cons c !! (t, n))
  | AddConstraint false _ n _ => exists t b, c_cons c !! (t, n) = Some b
  | DropConstraint t n => is_Some (c_tables c !! t) /\ c_cons c !! (t, n) = None
  | DropIndex n => n ∉ c_indexes c
  | EnableRLS t => exists tb, c_tables c !! t = Some tb /\ t_rls tb = true
  | ForceRLS t => exists tb, c_tables c !! t = Some tb /\ t_force tb = true
  | OwnerTo t r => exists tb, c_tables c !! t = Some tb /\ t_owner tb = r /\ is_Some (c_roles c !! r)
  | EnsureRole r => exists a, c_roles c !! r = Some a /\ demoted a = a
  | SetPassword r pw => exists a, c_roles c !! r = Some a /\ r_login a = true /\ r_password a = Some pw
  | GrantPrivileges rt ad =>
      is_Some (c_roles c !! rt) /\ is_Some (c_roles c !! ad) /\ is_Some (c_tables c !! "audit_events"%string) /\
      is_Some (c_tables c !! "workspaces"%string) /\
      (forall x, x ∈ grant_on rt (table_names c) DML -> x ∈ c_grants c \/ x ∈ on_audit rt) /\
      (forall x, x ∈ c_grants c -> x ∉ on_audit rt) /\ (forall x, x ∈ admin_grants ad -> x ∈ c_grants c) /\
      default_grants rt ad ⊆ c_defaults c /\ {[rt; ad]} ⊆ c_usage c
  | EnsurePolicy t n _ => is_Some (c_tables c !! t) /\ is_Some (c_policies c !! (t, n))
  | ReplacePolicy t n p =>
      is_Some (c_tables c !! t) /\ c_policies c !! (t, n) = Some p /\ (forall r, p_to p = Some r -> is_Some (c_roles c !! r))
  | Query _ => True
  end.

Lemma with_table_Ok {A} c t (k : Table -> res sql_err A) a :
  with_table c t k = Ok a <-> exists tb, c_tables c !! t = Some tb /\ k tb = Ok a.
Proof. unfold with_table. destruct (c_tables c !! t); naive_solver. Qed.

Lemma named_true c n : named c n = true <-> exists t b, c_cons c !! (t, n) = Some b.
Proof.
  unfold named. rewrite existsb_exists. split.
  - intros ([[t m] b] & Hin & Heq). simpl in Heq. apply String.eqb_eq in Heq as ->. exists t, b. by apply elem_of_map_to_list, list_elem_of_In.
  - intros (t & b & Hl). exists ((t, n), b). split; [by apply list_elem_of_In, elem_of_map_to_list|]. apply String.eqb_refl.
Qed.

Lemma has_col_cons tb k : existsb (fun x => (c_name x =? c_name k)%string) (tb ++ [k]) = true.
Proof. rewrite existsb_app. simpl. rewrite String.eqb_refl. by rewrite orb_true_r. Qed.

Lemma catalog_eta c : mkCatalog (c_exts c) (c_tables c) (c_cons c) (c_indexes c) (c_roles c) (c_members c) (c_policies c) (c_grants c) (c_defaults c) (c_usage c) (c_workspaces c) = c.
Proof. by destruct c. Qed.

(** What a step of the proofs below sees of a statement that ran. *)
Ltac ran :=
  repeat match goal with
  | H : (if negb (?f ?s) then _ else _) = Ok _ |- _ => apply guard_Ok in H as [_ H]
  | H : with_table _ _ _ = Ok _ |- _ => apply with_table_Ok in H as (? & ? & H)
  | H : (if ?b then _ else Err _) = Ok _ |- _ => let Hb := fresh "Hb" in apply guard_Ok in H as [Hb H]
  | H : res_bind _ _ = Ok _ |- _ => apply res_bind_Ok in H as (? & ? & H)
  | H : Ok _ = Ok _ |- _ => injection H as <-
  | H : Err _ = Ok _ |- _ => discriminate H
  end.

Lemma elem_of_grant x xs g : x ∈ grant xs g <-> x ∈ g \/ x ∈ xs.
Proof.
  unfold grant. rewrite elem_of_app, (list_elem_of_In (List.filter _ _)), filter_In, negb_true_iff, bool_decide_eq_false, <- list_elem_of_In.
  destruct (decide (x ∈ g)); tauto.
Qed.
Lemma elem_of_revoke x xs g : x ∈ revoke xs g <-> x ∈ g /\ x ∉ xs.
Proof. unfold revoke. rewrite list_elem_of_In, filter_In, negb_true_iff, bool_decide_eq_false, <- list_elem_of_In. done. Qed.

Lemma list_filter_none {A} (f : A -> bool) l : (forall x, x ∈ l -> f x = false) -> List.filter f l = [].
Proof.
  intros Hf. induction l as [|x l IH]; [done|]. simpl. rewrite Hf by (by left). apply IH. intros y Hy. apply Hf. by right.
Qed.
Lemma list_filter_all {A} (f : A -> bool) l : (forall x, x ∈ l -> f x = true) -> List.filter f l = l.
Proof.
  intros Hf. induction l as [|x l IH]; [done|]. simpl. rewrite Hf by (by left). f_equal. apply IH. intros y Hy. apply Hf. by right.
Qed.

Lemma grant_noop xs g : (forall x, x ∈ xs -> x ∈ g) -> grant xs g = g.
Proof. intros Hg. unfold grant. rewrite list_filter_none; [apply app_nil_r|]. intros x Hx. by rewrite bool_decide_eq_true_2 by auto. Qed.

(** What is granted only to be revoked leaves no trace. *)
Lemma grant_revoke_noop xs ys g :
  (forall x, x ∈ xs -> x ∈ g \/ x ∈ ys) -> (forall x, x ∈ g -> x ∉ ys) -> revoke ys (grant xs g) = g.
Proof.
  intros Hx Hg. unfold revoke, grant. rewrite List.filter_app. rewrite (list_filter_all _ g) by (intros x Hin; by rewrite bool_decide_eq_false_2 by auto).
  rewrite (list_filter_none _ (List.filter _ _)); [apply app_nil_r|]. intros x Hin. apply list_elem_of_In, filter_In in Hin as [Hin Hn].
  apply negb_true_iff, bool_decide_eq_false in Hn. apply list_elem_of_In, Hx in Hin as [?|?]; [done|]. by rewrite bool_decide_eq_true_2.
Qed.

Lemma elem_of_grant_on r ts ps x : x ∈ grant_on r ts ps <-> x.1.1 = r /\ x.1.2 ∈ ts /\ x.2 ∈ ps.
Proof.
  unfold grant_on. rewrite list_elem_of_In, in_flat_map. destruct x as [[r' t] p]. simpl. split.
  - intros (t' & Ht & Hm). apply in_map_iff in Hm as (p' & [= <- <- <-] & Hp). split_and!; [done|by apply list_elem_of_In..].
  - intros (-> & Ht & Hp). exists t. split; [by apply list_elem_of_In|]. apply in_map_iff. exists p. split; [done|by apply list_elem_of_In].
Qed.

(** The grants of the administrative role are none of what is revoked. *)
Lemma admin_not_revoked rt ad x : x ∈ admin_grants ad -> x ∉ on_audit rt.
Proof.
  unfold admin_grants, on_audit. rewrite !elem_of_grant_on. intros (_ & _ & Hp) (_ & _ & Hq). unfold beyond_append in Hq.
  rewrite !elem_of_cons, elem_of_nil in Hp. rewrite !elem_of_cons, elem_of_nil in Hq.
  destruct Hp as [Hp|[Hp|[]]]; rewrite Hp in Hq; intuition discriminate.
Qed.

Lemma granted_settles rt ad c :
  (forall x, x ∈ grant_on rt (table_names (granted rt ad c)) DML -> x ∈ c_grants (granted rt ad c) \/ x ∈ on_audit rt) /\
  (forall x, x ∈ c_grants (granted rt ad c) -> x ∉ on_audit rt) /\ (forall x, x ∈ admin_grants ad -> x ∈ c_grants (granted rt ad c)) /\
  default_grants rt ad ⊆ c_defaults (granted rt ad c) /\ {[rt; ad]} ⊆ c_usage (granted rt ad c).
Proof.
  unfold granted. simpl. change (table_names _) with (table_names c). split_and!.
  - intros x Hx. rewrite elem_of_grant, elem_of_revoke, elem_of_grant. destruct (decide (x ∈ on_audit rt)); tauto.
  - intros x. rewrite elem_of_grant, elem_of_revoke. intros [[_ ?]|Hx]; [done|by eapply admin_not_revoked].
  - intros x Hx. rewrite elem_of_grant. by right.
  - apply union_subseteq_l.
  - apply union_subseteq_l.
Qed.

Section settling.
Context (me : string) (refused : sql -> bool).
#[local] Abbreviation exec := (exec me refused).

(** What has run is settled. *)
Lemma exec_settles s c c' : exec s c = Ok c' -> settled s c'.
Proof.
  unfold exec. intros H. ran.
  destruct s as [e|t cols ks|n u t keys cond reads|t k|t cols|sc t n b|t n|n|t|t|t r|r|r pw|rt ad|t n p|t n p|q]; simpl.
  - ran. simpl. set_solver.
  - destruct (c_tables c !! t) eqn:E; ran; [done|]. simpl. by rewrite lookup_insert_eq.
  - case_decide; ran; [done|]. simpl. set_solver.
  - ran. destruct (has_col x (c_name k)) eqn:E; ran; [by eauto|]. simpl. rewrite lookup_insert_eq.
    eexists. split; [done|]. apply has_col_cons.
  - ran. eauto.
  - destruct sc.
    + ran. destruct (c_cons c !! (t, n)) eqn:E; ran; [by rewrite E|]. simpl. by rewrite lookup_insert_eq.
    + destruct (named c n) eqn:E; ran; [by apply named_true|]. simpl. exists t, b. by rewrite lookup_insert_eq.
  - ran. simpl. split; [done|]. by rewrite lookup_delete_eq.
  - ran. simpl. set_solver.
  - ran. simpl. rewrite lookup_insert_eq. by eauto.
  - ran. simpl. rewrite lookup_insert_eq. by eauto.
  - ran. destruct (c_roles c !! r) eqn:E; ran. simpl. rewrite lookup_insert_eq, E. by eauto.
  - ran. simpl. rewrite lookup_insert_eq. eexists. split; [done|]. by destruct (c_roles c !! r).
  - destruct (c_roles c !! r) eqn:E; ran. simpl. rewrite lookup_insert_eq. by eauto.
  - ran. simpl. apply bool_decide_eq_true in Hb, Hb0. destruct (granted_settles rt ad c) as (? & ? & ? & ? & ?). split_and!; eauto.
  - ran. destruct (c_policies c !! (t, n)) eqn:E; ran; [by rewrite E|]. simpl. by rewrite lookup_insert_eq.
  - ran. destruct (p_to p) eqn:Ep; ran; simpl.
    + split; [done|]. rewrite lookup_insert_eq. split; [done|]. intros ? [= <-]. by apply bool_decide_eq_true in Hb.
    + split; [done|]. rewrite lookup_insert_eq. done.
  - done.
Qed.

(** What is settled stays as it is. *)
Lemma settled_noop s c : settled s c -> refused s = false -> exec s c = Ok c.
Proof.
  unfold exec. intros H ->. simpl.
  assert (forall f, f (c_tables c) = c_tables c -> set_tables f c = c) as Ht by (intros f Hf; unfold set_tables; rewrite Hf; apply catalog_eta).
  destruct s as [e|t cols ks|n u t keys cond reads|t k|t cols|sc t n b|t n|n|t|t|t r|r|r pw|rt ad|t n p|t n p|q]; simpl in H; unfold with_table.
  - f_equal. unfold set_exts. rewrite subseteq_union_1_L by set_solver. apply catalog_eta.
  - by destruct H as [x ->].
  - by rewrite decide_True.
  - by destruct H as (x & -> & ->).
  - by destruct H as (x & -> & ->).
  - destruct sc; [by destruct H as ([x ->] & [y ->])|]. by rewrite (proj2 (named_true c n) H).
  - destruct H as ([x ->] & Hn). f_equal. unfold set_cons. rewrite delete_id by done. apply catalog_eta.
  - f_equal. unfold set_indexes. replace (c_indexes c ∖ {[n]}) with (c_indexes c) by set_solver. apply catalog_eta.
  - destruct H as (x & Hx & Hr). rewrite Hx. f_equal. apply Ht. apply insert_id. rewrite Hx. destruct x. by simpl in *; subst.
  - destruct H as (x & Hx & Hr). rewrite Hx. f_equal. apply Ht. apply insert_id. rewrite Hx. destruct x. by simpl in *; subst.
  - destruct H as (x & Hx & Ho & [y Hy]). rewrite Hx, Hy. f_equal. apply Ht. apply insert_id. rewrite Hx. destruct x. by simpl in *; subst.
  - destruct H as (a & Ha & Hd). rewrite Ha, Hd. f_equal. unfold set_roles. rewrite insert_id by done. apply catalog_eta.
  - destruct H as (a & Ha & Hl & Hp). rewrite Ha. f_equal. unfold set_roles. rewrite insert_id; [apply catalog_eta|].
    rewrite Ha. destruct a. by simpl in *; subst.
  - destruct H as (H1 & H2 & [x Hx] & [y Hy] & G1 & G2 & G3 & Hd & Hu). rewrite !bool_decide_eq_true_2 by done. rewrite Hx, Hy. f_equal.
    unfold granted, set_defaults, set_grants. simpl. rewrite grant_revoke_noop by done. rewrite grant_noop by done.
    rewrite (subseteq_union_1_L _ _ Hd), (subseteq_union_1_L _ _ Hu). apply catalog_eta.
  - by destruct H as ([x ->] & [y ->]).
  - destruct H as ([x ->] & Hp & Hr). assert (set_policies <[(t, n) := p]> c = c) as Hset.
    { unfold set_policies. rewrite insert_id by done. apply catalog_eta. }
    rewrite Hset. destruct (p_to p) eqn:E; [|done]. by rewrite bool_decide_eq_true_2 by (by apply Hr).
  - done.
Qed.

(** What a statement leaves of what there was. *)
Definition grows (s : sql) (c c' : Catalog) : Prop :=
  (c_exts c ⊆ c_exts c') /\
  (forall t tb, c_tables c !! t = Some tb -> exists tb', c_tables c' !! t = Some tb' /\ table_le tb tb' /\
     (t_owner tb' = t_owner tb \/ s = OwnerTo t (t_owner tb'))) /\
  (forall k b, c_cons c !! k = Some b -> is_Some (c_cons c' !! k) \/ s = DropConstraint k.1 k.2) /\
  (forall n, n ∈ c_indexes c -> n ∈ c_indexes c' \/ s = DropIndex n) /\
  (forall r a, c_roles c !! r = Some a -> exists a', c_roles c' !! r = Some a' /\
     (a' = a \/ (s = EnsureRole r /\ a' = demoted a) \/
      (exists pw, s = SetPassword r pw /\ a' = mkRole (r_super a) true (r_bypass a) (r_createrole a) (r_createdb a) (Some pw)))) /\
  (forall k p, c_policies c !! k = Some p -> exists p', c_policies c' !! k = Some p' /\ (p' = p \/ s = ReplacePolicy k.1 k.2 p')).

Lemma add_constraints_keeps t ks m k b : m !! k = Some b -> is_Some (add_constraints t ks m !! k).
Proof.
  intros Hk. induction ks as [|[n b'] ks IH]; simpl; [by eauto|].
  destruct (decide ((t, n) = k)) as [<-|]; [by rewrite lookup_insert_eq|by rewrite lookup_insert_ne].
Qed.

Lemma grows_same s c : grows s c c.
Proof. unfold grows. split_and!; [done|intros ? tb ?; exists tb; split_and!; auto; done|by eauto|by eauto|eauto 6|eauto 6]. Qed.

(** A table that is written over. *)
Lemma grows_table (s : sql) (c : Catalog) (t : string) (tb tb' : Table) (f : gmap (string * string) body -> gmap (string * string) body)
  (g : list (string * string * string) -> list (string * string * string)) :
  c_tables c !! t = Some tb -> table_le tb tb' -> (t_owner tb' = t_owner tb \/ s = OwnerTo t (t_owner tb')) ->
  (forall k b, c_cons c !! k = Some b -> is_Some (f (c_cons c) !! k)) ->
  grows s c (set_grants g (set_cons f (set_tables <[t := tb']> c))).
Proof.
  intros Ht Hle Ho Hf. unfold grows. simpl. split_and!; [done| |by eauto|by eauto|eauto 6|eauto 6].
  intros t' x Hx. destruct (decide (t = t')) as [<-|].
  - rewrite lookup_insert_eq. simplify_eq. by eauto.
  - rewrite lookup_insert_ne by done. exists x. by split_and!; auto.
Qed.

Lemma set_none c t tb : set_grants (fun g => g) (set_cons (fun k => k) (set_tables <[t := tb]> c)) = set_tables <[t := tb]> c.
Proof. by destruct c. Qed.
Lemma set_none_cons c t tb f : set_grants (fun g => g) (set_cons f (set_tables <[t := tb]> c)) = set_cons f (set_tables <[t := tb]> c).
Proof. by destruct c. Qed.

Lemma insert_keeps {K A} `{Countable K} (m : gmap K A) k x k' y : m !! k' = Some y -> is_Some (<[k := x]> m !! k').
Proof. intros Hk. destruct (decide (k = k')) as [<-|]; [by rewrite lookup_insert_eq|by rewrite lookup_insert_ne]. Qed.

(** The statements that change one table, or the constraints. *)
Lemma grows_one s c t tb tb' :
  c_tables c !! t = Some tb -> table_le tb tb' -> (t_owner tb' = t_owner tb \/ s = OwnerTo t (t_owner tb')) ->
  grows s c (set_tables <[t := tb']> c).
Proof. intros. rewrite <- set_none. eapply grows_table; eauto. Qed.

Lemma grows_con s c k b : grows s c (set_cons <[k := b]> c).
Proof.
  unfold grows. simpl. split_and!; [done|intros ? tb ?; exists tb; split_and!; auto; done| |by eauto|eauto 6|eauto 6].
  intros k' b' Hk. left. by eapply insert_keeps.
Qed.

Lemma grows_role s c r a' :
  (forall a, c_roles c !! r = Some a -> (s = EnsureRole r /\ a' = demoted a) \/
     (exists pw, s = SetPassword r pw /\ a' = mkRole (r_super a) true (r_bypass a) (r_createrole a) (r_createdb a) (Some pw))) ->
  grows s c (set_roles <[r := a']> c).
Proof.
  intros Ha. unfold grows. simpl. split_and!; [done|intros ? tb ?; exists tb; split_and!; auto; done|by eauto|by eauto| |eauto 6].
  intros r' a Hr. destruct (decide (r = r')) as [<-|].
  - rewrite lookup_insert_eq. eexists. split; [done|]. right. by apply Ha.
  - rewrite lookup_insert_ne by done. eauto 6.
Qed.

Lemma grows_policy s c k p :
  c_policies c !! k = None \/ s = ReplacePolicy k.1 k.2 p -> grows s c (set_policies <[k := p]> c).
Proof.
  intros Hp. unfold grows. simpl. split_and!; [done|intros ? tb ?; exists tb; split_and!; auto; done|by eauto|by eauto|eauto 6|].
  intros k' p' Hk. destruct (decide (k = k')) as [<-|]; [|rewrite lookup_insert_ne by done; eauto 6].
  rewrite lookup_insert_eq. eexists. split; [done|]. destruct Hp; [congruence|by right].
Qed.

Lemma exec_grows s c c' : exec s c = Ok c' -> grows s c c'.
Proof.
  unfold exec. intros H. ran.
  destruct s as [e|t cols ks|n u t keys cond reads|t k|t cols|sc t n b|t n|n|t|t|t r|r|r pw|rt ad|t n p|t n p|q].
  - ran. unfold grows. simpl. split_and!; [set_solver|intros ? tb ?; exists tb; split_and!; auto; done|by eauto|by eauto|eauto 6|eauto 6].
  - destruct (c_tables c !! t) eqn:E; ran; [apply grows_same|]. unfold grows. simpl. split_and!; [done| | |by eauto|eauto 6|eauto 6].
    + intros t' y Hy. rewrite lookup_insert_ne by congruence. exists y. by split_and!; auto.
    + intros k b Hk. left. by eapply add_constraints_keeps.
  - case_decide; ran; [apply grows_same|]. unfold grows. simpl.
    split_and!; [done|intros ? tb ?; exists tb; split_and!; auto; done|by eauto|set_solver|eauto 6|eauto 6].
  - ran. destruct (has_col x (c_name k)) eqn:E; ran; [apply grows_same|]. rewrite <- set_none_cons. eapply grows_table; [done| |by left|].
    + split_and!; [|done|done]. intros k' Hk'. unfold has_col in *. simpl. rewrite existsb_app. by rewrite Hk'.
    + intros k' b Hk. by eapply add_constraints_keeps.
  - ran. apply grows_same.
  - destruct sc.
    + ran. destruct (c_cons c !! (t, n)) eqn:E; ran; [apply grows_same|apply grows_con].
    + destruct (named c n) eqn:E; ran; [apply grows_same|apply grows_con].
  - ran. unfold grows. simpl. split_and!; [done|intros ? tb ?; exists tb; split_and!; auto; done| |by eauto|eauto 6|eauto 6].
    intros [t' n'] b Hk. destruct (decide ((t, n) = (t', n'))) as [[= <- <-]|]; [by right|left; by rewrite lookup_delete_ne].
  - ran. unfold grows. simpl. split_and!; [done|intros ? tb ?; exists tb; split_and!; auto; done|by eauto| |eauto 6|eauto 6].
    intros m Hm. destruct (decide (m = n)) as [->|]; [by right|set_solver].
  - ran. by eapply grows_one; eauto.
  - ran. by eapply grows_one; eauto.
  - ran. destruct (c_roles c !! r); ran. by eapply grows_one; eauto.
  - ran. apply grows_role. intros a ->. by left.
  - destruct (c_roles c !! r) eqn:E; ran. apply grows_role. intros a Ha. simplify_eq. right. by eauto.
  - ran. unfold grows, granted. simpl. split_and!; [done|intros ? tb ?; exists tb; split_and!; auto; done|by eauto|by eauto|eauto 6|eauto 6].
  - ran. destruct (c_policies c !! (t, n)) eqn:E; ran; [apply grows_same|]. apply grows_policy. by left.
  - ran. destruct (p_to p); ran; apply grows_policy; by right.
  - ran. apply grows_same.
Qed.

(** Whether [s'] may undo what [s] settled. *)
Definition unsettles (s s' : sql) : bool :=
  match s, s' with
  | AddConstraint _ _ n _, DropConstraint _ n' => (n =? n')%string
  | DropConstraint _ _, (CreateTable _ _ _ | AddColumn _ _) => true
  | DropConstraint t n, AddConstraint _ t' n' _ => (t =? t')%string && (n =? n')%string
  | CreateIndex n _ _ _ _ _, DropIndex n' | DropIndex n, CreateIndex n' _ _ _ _ _ => (n =? n')%string
  | OwnerTo t r, OwnerTo t' r' => (t =? t')%string && negb (r =? r')%string
  | SetPassword r pw, SetPassword r' pw' => (r =? r')%string && negb (pw =? pw')%string
  | GrantPrivileges _ _, (CreateTable _ _ _ | GrantPrivileges _ _) => true
  | ReplacePolicy t n p, ReplacePolicy t' n' p' => (t =? t')%string && (n =? n')%string && negb (bool_decide (p = p'))
  | _, _ => false
  end.

(** Constraints and indexes come from the statements that name them. *)
Lemma exec_cons_new s c c' t n :
  exec s c = Ok c' -> unsettles (DropConstraint t n) s = false -> c_cons c !! (t, n) = None -> c_cons c' !! (t, n) = None.
Proof.
  unfold exec. intros H Hu Hn. ran.
  destruct s as [e|t' cols ks|m u t' keys cond reads|t' k|t' cols|sc t' m b|t' m|m|t'|t'|t' r|r|r pw|rt ad|t' m p|t' m p|q];
    simpl in Hu; try discriminate Hu; ran; try done.
  - case_decide; by ran.
  - assert ((t', m) <> (t, n)) as Hne by (intros [= -> ->]; rewrite !String.eqb_refl in Hu; done).
    destruct sc; ran.
    + destruct (c_cons c !! (t', m)); ran; [done|]. simpl. by rewrite lookup_insert_ne.
    + destruct (named c m); ran; [done|]. simpl. by rewrite lookup_insert_ne.
  - simpl. destruct (decide ((t', m) = (t, n))) as [->|]; [by rewrite lookup_delete_eq|by rewrite lookup_delete_ne].
  - destruct (c_roles c !! r); by ran.
  - destruct (c_roles c !! r); by ran.
  - destruct (c_policies c !! (t', m)); by ran.
  - destruct (p_to p); by ran.
Qed.

Lemma exec_index_new s c c' n :
  exec s c = Ok c' -> unsettles (DropIndex n) s = false -> n ∉ c_indexes c -> n ∉ c_indexes c'.
Proof.
  unfold exec. intros H Hu Hn. ran.
  destruct s as [e|t' cols ks|m u t' keys cond reads|t' k|t' cols|sc t' m b|t' m|m|t'|t'|t' r|r|r pw|rt ad|t' m p|t' m p|q];
    simpl in Hu; try discriminate Hu; ran; try done.
  - destruct (c_tables c !! t'); by ran.
  - apply String.eqb_neq in Hu. case_decide; ran; [done|]. simpl. set_solver.
  - destruct (has_col x (c_name k)); by ran.
  - destruct sc; ran; [destruct (c_cons c !! (t', m))|destruct (named c m)]; by ran.
  - simpl. set_solver.
  - destruct (c_roles c !! r); by ran.
  - destruct (c_roles c !! r); by ran.
  - destruct (c_policies c !! (t', m)); by ran.
  - destruct (p_to p); by ran.
Qed.

(** The privileges change by GRANT, and by the tables there are. *)
Lemma exec_grants_same rt ad s c c' :
  exec s c = Ok c' -> unsettles (GrantPrivileges rt ad) s = false ->
  c_grants c' = c_grants c /\ c_defaults c' = c_defaults c /\ c_usage c' = c_usage c /\ dom (c_tables c') = dom (c_tables c).
Proof.
  unfold exec. intros H Hu. ran.
  assert (forall t tb tb', c_tables c !! t = Some tb -> dom (<[t := tb']> (c_tables c)) = dom (c_tables c)) as Hd.
  { intros t tb tb' Ht. rewrite dom_insert_L. apply elem_of_dom_2 in Ht. set_solver. }
  destruct s as [e|t' cols ks|m u t' keys cond reads|t' k|t' cols|sc t' m b|t' m|m|t'|t'|t' r|r|r pw|rt' ad'|t' m p|t' m p|q];
    simpl in Hu; try discriminate Hu; ran; try (simpl; split_and!; eauto; fail).
  - case_decide; by ran.
  - destruct (has_col x (c_name k)); ran; simpl; split_and!; eauto.
  - destruct sc; ran; [destruct (c_cons c !! (t', m))|destruct (named c m)]; by ran.
  - destruct (c_roles c !! r); ran; simpl; split_and!; eauto.
  - destruct (c_roles c !! r); by ran.
  - destruct (c_policies c !! (t', m)); by ran.
  - destruct (p_to p); by ran.
Qed.

Lemma table_names_In c t : t ∈ table_names c <-> t ∈ dom (c_tables c).
Proof.
  unfold table_names. rewrite list_elem_of_In, in_map_iff, elem_of_dom. split.
  - intros ([t' tb] & <- & Hin). exists tb. by apply elem_of_map_to_list, list_elem_of_In.
  - intros [tb Hl]. exists (t, tb). split; [done|]. by apply list_elem_of_In, elem_of_map_to_list.
Qed.

(** A settled statement stays settled under one that does not unsettle it. *)
Lemma exec_keeps s s' c c' : settled s c -> exec s' c = Ok c' -> unsettles s s' = false -> settled s c'.
Proof.
  intros Hs H Hu. pose proof (exec_grows s' c c' H) as (Ge & Gt & Gc & Gi & Gr & Gp).
  assert (forall t, is_Some (c_tables c !! t) -> is_Some (c_tables c' !! t)) as Gt'.
  { intros t [tb Ht]. destruct (Gt _ _ Ht) as (tb' & ? & _). by eauto. }
  assert (forall r, is_Some (c_roles c !! r) -> is_Some (c_roles c' !! r)) as Gr'.
  { intros r [a Hr]. destruct (Gr _ _ Hr) as (a' & ? & _). by eauto. }
  destruct s as [e|t cols ks|n u t keys cond reads|t k|t cols|sc t n b|t n|n|t|t|t r|r|r pw|rt ad|t n p|t n p|q]; simpl in Hs |- *.
  - set_solver.
  - auto.
  - destruct (Gi _ Hs) as [?| ->]; [done|]. simpl in Hu. by rewrite String.eqb_refl in Hu.
  - destruct Hs as (tb & Ht & Hc). destruct (Gt _ _ Ht) as (tb' & Ht' & (Hle & _) & _). eauto.
  - destruct Hs as (tb & Ht & Hc). destruct (Gt _ _ Ht) as (tb' & Ht' & (Hle & _) & _). exists tb'. split; [done|].
    unfold has_cols in *. rewrite forallb_forall in *. auto.
  - assert (forall t b, c_cons c !! (t, n) = Some b -> is_Some (c_cons c' !! (t, n))) as Hkeep.
    { intros t' b' Hl. destruct (Gc _ _ Hl) as [?| ->]; [done|]. destruct sc; simpl in Hu; by rewrite String.eqb_refl in Hu. }
    destruct sc; [destruct Hs as [Ht [b' Hb]]; split; [by auto|by eapply Hkeep]|].
    destruct Hs as (t' & b' & Hl). destruct (Hkeep _ _ Hl) as [b'' ?]. by eauto.
  - destruct Hs as [Ht Hn]. split; [by auto|]. by eapply exec_cons_new.
  - by eapply exec_index_new.
  - destruct Hs as (tb & Ht & Hc). destruct (Gt _ _ Ht) as (tb' & Ht' & (_ & Hle & _) & _). eauto.
  - destruct Hs as (tb & Ht & Hc). destruct (Gt _ _ Ht) as (tb' & Ht' & (_ & _ & Hle) & _). eauto.
  - destruct Hs as (tb & Ht & Ho & Hr). destruct (Gt _ _ Ht) as (tb' & Ht' & _ & [Ho'| ->]).
    + exists tb'. split_and!; [done|congruence|by auto].
    + exists tb'. split; [done|]. simpl in Hu. rewrite String.eqb_refl in Hu. simpl in Hu.
      apply negb_false_iff, String.eqb_eq in Hu. by split; [|auto].
  - destruct Hs as (a & Ha & Hd). destruct (Gr _ _ Ha) as (a' & Ha' & Hcase). exists a'. split; [done|].
    destruct Hcase as [->|[[_ ->]|(pw & _ & ->)]]; [done|by destruct a|]. destruct a. unfold demoted in *. simpl in *. by simplify_eq.
  - destruct Hs as (a & Ha & Hl & Hp). destruct (Gr _ _ Ha) as (a' & Ha' & Hcase). exists a'. split; [done|].
    destruct Hcase as [->|[[_ ->]|(pw' & -> & ->)]]; [by split|by split|]. simpl in Hu. rewrite String.eqb_refl in Hu. simpl in Hu.
    apply negb_false_iff, String.eqb_eq in Hu as <-. by split.
  - destruct Hs as (H1 & H2 & H3 & H4 & G1 & G2 & G3 & Hd & Hus).
    destruct (exec_grants_same rt ad s' c c' H Hu) as (-> & -> & -> & Hdom). split_and!; auto.
    intros x Hx. apply G1. rewrite elem_of_grant_on, table_names_In, Hdom, <- table_names_In, <- elem_of_grant_on in Hx. done.
  - destruct Hs as [Ht [p' Hp]]. split; [by auto|]. destruct (Gp _ _ Hp) as (p'' & ? & _). by eauto.
  - destruct Hs as (Ht & Hp & Hr). split_and!; [by auto| |by auto]. destruct (Gp _ _ Hp) as (p' & Hp' & [->| ->]); [done|].
    simpl in Hu. rewrite !String.eqb_refl in Hu. simpl in Hu. apply negb_false_iff, bool_decide_eq_true in Hu as <-. done.
  - done.
Qed.

(** ** Scripts *)

(** No statement unsettles an earlier one. *)
Definition restartable (l : list sql) : Prop := ForallOrdPairs (fun s s' => unsettles s s' = false) l.
Fixpoint restartable_b (l : list sql) : bool :=
  match l with [] => true | s :: l' => forallb (fun s' => negb (unsettles s s')) l' && restartable_b l' end.
Lemma restartable_b_ok l : restartable_b l = true -> restartable l.
Proof.
  induction l as [|s l IH]; simpl; [constructor|]. intros [H1 H2]%andb_true_iff. constructor; [|by apply IH].
  rewrite forallb_forall in H1. apply List.Forall_forall. intros x Hx. by apply negb_true_iff, H1.
Qed.

Lemma restartable_app l l' :
  restartable (l ++ l') <-> restartable l /\ restartable l' /\ forall s s', s ∈ l -> s' ∈ l' -> unsettles s s' = false.
Proof.
  unfold restartable. induction l as [|s l IH]; simpl.
  - split; [intros H; split_and!; [constructor|done|]|by intros (_ & ? & _)]. intros s s' Hs. by apply elem_of_nil in Hs.
  - split.
    + intros H. inversion H as [|? ? Hf Hl]; subst. apply IH in Hl as (H1 & H2 & H3).
      apply Forall_app in Hf as [Hf1 Hf2]. split_and!; [by constructor|done|].
      intros x x' [->|Hx]%elem_of_cons Hx'; [|by apply H3]. by apply (proj1 (Forall_forall _ _) Hf2).
    + intros (H1 & H2 & H3). inversion H1 as [|? ? Hf Hl]; subst. constructor.
      * apply Forall_app. split; [done|]. apply Forall_forall. intros x Hx. apply H3; [by left|done].
      * apply IH. split_and!; [done|done|]. intros x x' Hx Hx'. apply H3; [by right|done].
Qed.

#[local] Abbreviation exec_all := (exec_all me refused).

Lemma exec_all_app l l' c c' : exec_all (l ++ l') c = Ok c' <-> exists c0, exec_all l c = Ok c0 /\ exec_all l' c0 = Ok c'.
Proof.
  revert c. induction l as [|s l IH]; intros c; simpl; [naive_solver|]. rewrite res_bind_Ok. setoid_rewrite res_bind_Ok.
  setoid_rewrite IH. naive_solver.
Qed.

Lemma exec_all_keeps s l c c' :
  settled s c -> exec_all l c = Ok c' -> Forall (fun s' => unsettles s s' = false) l -> settled s c'.
Proof.
  revert c. induction l as [|s' l IH]; intros c Hs H Hf; simpl in H; [by simplify_eq|].
  apply res_bind_Ok in H as (c0 & H0 & H). inversion Hf; subst. eapply IH; [|done|done]. by eapply exec_keeps.
Qed.

(** After a script every statement of it is settled, and nothing in it is refused. *)
Lemma exec_all_settles l c c' :
  restartable l -> exec_all l c = Ok c' -> Forall (fun s => settled s c' /\ refused s = false) l.
Proof.
  revert c. induction l as [|s l IH]; intros c Hl H; [constructor|]. simpl in H. apply res_bind_Ok in H as (c0 & H0 & H).
  inversion Hl as [|? ? Hf Hl']; subst. constructor; [|by eapply IH]. split.
  - eapply exec_all_keeps; [by eapply exec_settles|done|done].
  - unfold exec in H0. apply guard_Ok in H0 as [Hr _]. by apply negb_true_iff.
Qed.

Lemma exec_all_noop l c : Forall (fun s => settled s c /\ refused s = false) l -> exec_all l c = Ok c.
Proof. induction 1 as [|s l [Hs Hr] _ IH]; simpl; [done|]. by rewrite settled_noop. Qed.

Lemma in_one_Ok l c c' : in_one me refused l c = (Ok tt, c') <-> exec_all l c = Ok c'.
Proof. unfold in_one. destruct (exec_all l c); naive_solver. Qed.

Lemma one_by_one_Ok l c c' : one_by_one me refused l c = (Ok tt, c') <-> exec_all l c = Ok c'.
Proof.
  revert c. induction l as [|s l IH]; intros c; simpl; [unfold act_ret; naive_solver|].
  rewrite act_bind_Ok. unfold in_one. simpl. destruct (exec s c) as [c0|e]; simpl; [|naive_solver]. rewrite <- IH. naive_solver.
Qed.

(** An index that is attempted at the end leaves everything settled as it was,
    and a second attempt does what the first did. *)
Lemma best_effort_keeps s l c c' :
  best_effort me refused s c = (Ok tt, c') ->
  Forall (fun s0 => unsettles s0 s = false) l -> Forall (fun s0 => settled s0 c /\ refused s0 = false) l ->
  Forall (fun s0 => settled s0 c' /\ refused s0 = false) l.
Proof.
  unfold best_effort. intros H Hu Hl. destruct (exec s c) as [c0|e] eqn:E; injection H as <-; [|done].
  rewrite Forall_forall in *. intros x Hx. destruct (Hl x Hx). split; [|done]. eapply exec_keeps; eauto.
Qed.
End settling.

(** ** What the scripts do and do not install *)

Definition empty_catalog : Catalog := mkCatalog ∅ ∅ ∅ ∅ ∅ ∅ ∅ [] ∅ ∅ ∅.

Definition schema_sql : list sql :=
  createTables_sql ++ migrateUsers_sql ++ migrateAuditEvents_sql ++ migrateTasks_sql ++ migrateKnowledge_sql ++ migratePublications_sql
  ++ migratePipelines_sql ++ migrateOrganization_sql ++ migrateExecutions_sql ++ enforceWorkspaceIntegrity_sql.

Lemma schema_restartable : restartable schema_sql.
Proof. apply restartable_b_ok. by vm_compute. Qed.

(** The references of a table that carries its workspace to another one that
    does, which no key over the pair with the workspace guards: nothing keeps
    the two rows in one workspace. *)
Definition carries_workspace (c : Catalog) (t : string) : bool :=
  match c_tables c !! t with Some tb => has_col tb "workspace_id" | None => false end.
Definition guarded (c : Catalog) (t k t' : string) : bool :=
  existsb (fun kb => (kb.1.1 =? t)%string &&
    match kb.2 with Foreign cs t2 _ _ => bool_decide (cs = [k; "workspace_id"%string]) && (t2 =? t')%string | _ => false end)
    (map_to_list (c_cons c)).
Definition unguarded_references (c : Catalog) : list (string * string * string) :=
  flat_map (fun kb => match kb.2 with
    | Foreign [k] t' [_] _ =>
        if carries_workspace c kb.1.1 && carries_workspace c t' && negb (guarded c kb.1.1 k t') then [(kb.1.1, k, t')] else []
    | _ => []
    end) (map_to_list (c_cons c)).

(** A row's workspace cannot disagree with its parent's, says the comment; the
    composite keys cover two references, and six more join two tables of a
    workspace by an identifier alone. *)
Example references_across_workspaces :
  match exec_all "owner" (fun _ => false) schema_sql empty_catalog with
  | Ok c => unguarded_references c =
      [("execution_contexts", "execution_id", "ai_executions"); ("ai_execution_dlq", "execution_id", "ai_executions");
       ("ai_tool_calls", "execution_id", "ai_executions"); ("retry_dispatch_log", "retry_id", "ai_execution_retries");
       ("pipelines", "task_id", "tasks"); ("pipelines", "publication_id", "publications")]%string
  | Err _ => False
  end.
Proof. by vm_compute. Qed.

(** A database of one table. *)
Definition with_only (t : string) (cols : list string) : Catalog :=
  set_tables <[t := mkTable (map (fun k => col k "TEXT" []) cols) "owner" false false]> empty_catalog.

(** A database from before the audit events had a workspace, or the pipelines a
    key, is said to be upgraded.  It is not: createTables indexes the column
    that only the later migration adds, and the bootstrap ends there; the
    migration alone would have gone through. *)
Example upgrade_blocked :
  let old_audit := with_only "audit_events" ["id"; "event_id"; "actor_type"; "actor_id"; "timestamp"; "constitutional_principle"]%string in
  let old_pipelines := with_only "pipelines" ["id"; "workspace_id"; "stage"; "status"; "created_at"]%string in
  let calm := fun _ => false in
  createTables "owner" calm old_audit = (Err (NoColumn "workspace_id"), old_audit) /\
  is_ok (migrateAuditEvents "owner" calm old_audit).1 = true /\
  createTables "owner" calm old_pipelines = (Err (NoColumn "workspace_id,idempotency_key"), old_pipelines) /\
  is_ok (exec_all "owner" calm (firstn 12 migratePipelines_sql) old_pipelines) = true.
Proof. split_and!; by vm_compute. Qed.

(** Most guards look for the name of a constraint anywhere in the database: a
    constraint of that name on any other table, a copy in another schema for
    one, and the invariant is silently not installed. *)
Example homonym_suppresses_constraint :
  let copy := set_cons <[("backup_users", "users_role_valid") := CheckThat [] "true"]>%string empty_catalog in
  match exec_all "owner" (fun _ => false) schema_sql copy with
  | Ok c => c_cons c !! ("users", "users_role_valid")%string = None
  | Err _ => False
  end.
Proof. by vm_compute. Qed.
