(* ===== verification/Boot.v ===== *)
(** * Bringing up the database (infrastructure/database: roles.go, database.go,
      runtime_verify.go)

    The roles and their privileges, the row-level security policies, the
    sequence of Bootstrap, the checks of a connection that is about to serve -
    the canary included -, and MustInitializeTopology.

    What PostgreSQL does with a policy is its documentation: a superuser, a role
    with BYPASSRLS and, unless FORCE is set, the owner of a table are not
    constrained; any other session sees a row that one of the policies that
    apply to it admits, and none when there is no such policy. *)

From S2P Require Import Prelude GoLib GoText Config ConfigProps Schema.

Inductive boot_err : Type :=
| Sql (e : sql_err)
| Unresolved (e : topology_err)
| Unconnected (dsn : string)
| BadName (role : string)
| NoSuchRole (role : string) | CannotLogin (role : string) | IsSuperuser (role : string) | HoldsBypass (role : string)
| HoldsPrivileges (role : string) (privs : list string)
| ConnectedAs (current expected : string)
| OwnsTables (ts : list string)
| TablesAbsent (ts : list string) | NotEnabled (ts : list string) | NotForced (ts : list string)
| Denied (t : string) | NewRowRefused (t : string) | Duplicate (t : string)
| Leaks (n : nat) | OverRestrictive (n : nat)
| InStep (name : string) (e : boot_err).

Definition map_err {S E E' A} (f : E -> E') (m : act S E A) : act S E' A :=
  fun s => match m s with (Ok a, s') => (Ok a, s') | (Err e, s') => (Err (f e), s') end.

Lemma map_err_Ok {S E E' A} (f : E -> E') (m : act S E A) s a s' : map_err f m s = (Ok a, s') <-> m s = (Ok a, s').
Proof. unfold map_err. destruct (m s) as [[]]; naive_solver. Qed.

(** ** Row-level security *)

(** A row of a tenant table, as far as the policies read it: its workspace, its
    department or team, whether it is a founder's, its user name. *)
Record Row : Type := mkRow { rw_workspace : option uuid; rw_parent : option uuid; rw_founder : bool; rw_username : string }.

(** A session: its role and the two settings the policies read. *)
Record Session : Type := mkSession { ss_role : string; ss_workspace : option uuid; ss_principal : option string }.

Section rls.
Context `{UuidText}.
Variable opaque : string -> Session -> uuid -> Row -> bool.   (** the conditions of other people's policies *)
Variable rows : string -> uuid -> option Row.                 (** what the tables hold *)

Definition is_super (c : Catalog) (r : string) : bool := match c_roles c !! r with Some a => r_super a | None => false end.
Definition skips_rls (c : Catalog) (r : string) : bool := match c_roles c !! r with Some a => r_super a || r_bypass a | None => false end.
Definition has_privs_of (c : Catalog) (r r' : string) : bool :=
  (r =? r')%string || is_super c r || bool_decide ((r, r') ∈ c_members c).

(** Whether the policies of [t] do not apply to [r]. *)
Definition unconstrained (c : Catalog) (r t : string) : bool :=
  skips_rls c r ||
  match c_tables c !! t with
  | Some tb => negb (t_rls tb) || (has_privs_of c r (t_owner tb) && negb (t_force tb))
  | None => false
  end.

Definition in_current (s : Session) (w : option uuid) : bool := match ss_workspace s with Some x => bool_decide (w = Some x) | None => false end.

Definition applies (c : Catalog) (s : Session) (p : Policy) : bool :=
  match p_to p with None => true | Some r => has_privs_of c (ss_role s) r end.

(** The row conditions; the subselects are under the policies of the tables they
    read, of which [sub] tells what the session sees. *)
Section conditions.
Context (s : Session) (sub : string -> uuid -> Row -> bool).
Definition department_in (k : option uuid) : bool :=
  match k with
  | Some k => match rows "departments" k with Some dr => sub "departments"%string k dr && in_current s (rw_workspace dr) | None => false end
  | None => false
  end.
Definition team_in (k : option uuid) : bool :=
  match k with
  | Some k => match rows "teams" k with Some tr => sub "teams"%string k tr && department_in (rw_parent tr) | None => false end
  | None => false
  end.
Definition holds (id : uuid) (row : Row) (u : row_cond) : bool :=
  match u with
  | AnyRow => true
  | IdIsCurrent => in_current s (Some id)
  | WorkspaceIsCurrent => in_current s (rw_workspace row)
  | DepartmentIsCurrent => department_in (rw_parent row)
  | TeamIsCurrent => team_in (rw_parent row)
  | NoneOrCurrent => match rw_workspace row with None => true | w => in_current s w end
  | IdentityScope =>
      rw_founder row || in_current s (rw_workspace row)
      || match ss_principal s with Some p => (rw_username row =? p)%string || (uuid_String id =? p)%string | None => false end
  | Opaque text => opaque text s id row
  end.
End conditions.

Fixpoint sees (depth : nat) (c : Catalog) (s : Session) (t : string) (id : uuid) (row : Row) : bool :=
  match depth with
  | O => false
  | S d =>
      unconstrained c (ss_role s) t
      || existsb (fun kp => (kp.1.1 =? t)%string && applies c s kp.2 && holds s (sees d c s) id row (p_using kp.2)) (map_to_list (c_policies c))
  end.

(** Enough for the longest chain of subselects: employees, teams, departments. *)
Definition depth : nat := 4.
Definition visible := sees depth.

Definition has_priv (c : Catalog) (r t p : string) : bool :=
  is_super c r
  || match c_tables c !! t with Some tb => has_privs_of c r (t_owner tb) | None => false end
  || existsb (fun g => has_privs_of c r g.1.1 && (g.1.2 =? t)%string && (g.2 =? p)%string) (c_grants c).
End rls.

(** ** The policies *)

Definition by_workspace : Policy := mkPolicy None WorkspaceIsCurrent.

(** setupRLSPolicies, in its order: the isolation policies are created where
    they are missing, the four others are dropped and created. *)
Definition policies_sql (adminRole : string) : list sql := [
  EnsurePolicy "workspaces" "workspace_isolation_policy" (mkPolicy None IdIsCurrent);
  EnsurePolicy "founders" "founder_org_policy" (mkPolicy None AnyRow);
  EnsurePolicy "ceos" "workspace_isolation_policy" by_workspace;
  EnsurePolicy "departments" "workspace_isolation_policy" by_workspace;
  EnsurePolicy "teams" "workspace_isolation_policy" (mkPolicy None DepartmentIsCurrent);
  EnsurePolicy "ai_employees" "workspace_isolation_policy" (mkPolicy None TeamIsCurrent);
  EnsurePolicy "tasks" "workspace_isolation_policy" by_workspace;
  EnsurePolicy "knowledge_documents" "workspace_isolation_policy" by_workspace;
  EnsurePolicy "memory_embeddings" "workspace_isolation_policy" by_workspace;
  EnsurePolicy "publications" "workspace_isolation_policy" by_workspace;
  EnsurePolicy "pipelines" "workspace_isolation_policy" by_workspace;
  ReplacePolicy "workspaces" "org_admin_policy" (mkPolicy (Some adminRole) AnyRow);
  ReplacePolicy "audit_events" "audit_workspace_policy" (mkPolicy None NoneOrCurrent);
  ReplacePolicy "audit_events" "audit_org_policy" (mkPolicy (Some adminRole) AnyRow);
  ReplacePolicy "users" "user_scope_policy" (mkPolicy None IdentityScope);
  EnsurePolicy "ai_executions" "workspace_isolation_policy" by_workspace;
  EnsurePolicy "ai_execution_retries" "workspace_isolation_policy" by_workspace;
  EnsurePolicy "retry_dispatch_log" "workspace_isolation_policy" by_workspace;
  EnsurePolicy "ai_execution_dlq" "workspace_isolation_policy" by_workspace;
  EnsurePolicy "ai_tool_calls" "workspace_isolation_policy" by_workspace;
  EnsurePolicy "execution_contexts" "workspace_isolation_policy" by_workspace
]%string.

Section boot.
Context `{RuneFold, GoURL, UuidText}.
Variable Getenv : string -> string.
Variable refused : string -> sql -> bool.              (** by the role of the connection *)
Variable connect : Catalog -> string -> option string. (** the role a connection string authenticates as *)
Variable opaque : string -> Session -> uuid -> Row -> bool.
Variable rows : string -> uuid -> option Row.

(** ** roles.go *)

Definition passwordFromDSN (dsn : string) : string :=
  match url_Parse dsn with
  | Some u => match url_User u with Some i => default "" (ui_Password i) | None => "" end
  | None => ""
  end.

Definition grantRolePrivileges (owner : string) (topo : Topology) : act Catalog boot_err unit :=
  map_err Sql (in_one owner (refused owner) [GrantPrivileges (tp_Runtime topo) (tp_Admin topo)]).

Definition passwords_sql (topo : Topology) : list sql :=
  flat_map (fun p : string * string => if empty (passwordFromDSN p.2) then [] else [SetPassword p.1 (passwordFromDSN p.2)])
    [(tp_Runtime topo, tp_RuntimeDSN topo); (tp_Admin topo, tp_AdminDSN topo)].

Definition provisionRoles (owner : string) (topo : Topology) : act Catalog boot_err unit :=
  require! validRole (tp_Runtime topo) else BadName (tp_Runtime topo) ;;
  require! validRole (tp_Admin topo) else BadName (tp_Admin topo) ;;
  map_err Sql (one_by_one owner (refused owner) (map EnsureRole [tp_Runtime topo; tp_Admin topo])) ;;!
  map_err Sql (one_by_one owner (refused owner) (passwords_sql topo)) ;;!
  grantRolePrivileges owner topo.

Definition verifyPreProvisionedRole (owner role : string) : act Catalog boot_err unit :=
  map_err Sql (in_one owner (refused owner) [Query "pg_roles"]) ;;!
  c <~ act_get ;;
  match c_roles c !! role with
  | None => act_fail (NoSuchRole role)
  | Some a =>
      require! r_login a else CannotLogin role ;;
      require! negb (r_super a) else IsSuperuser role ;;
      require! negb (r_bypass a) else HoldsBypass role ;;
      require! negb (r_createrole a || r_createdb a) else
        HoldsPrivileges role ((if r_createrole a then ["CREATEROLE"%string] else []) ++ (if r_createdb a then ["CREATEDB"%string] else [])) ;;
      act_ret tt
  end.

Fixpoint assert_roles (owner : string) (roles : list string) : act Catalog boot_err unit :=
  match roles with
  | [] => act_ret tt
  | r :: l => require! validRole r else BadName r ;; verifyPreProvisionedRole owner r ;;! assert_roles owner l
  end.
Definition assertPreProvisionedRoles (owner : string) (topo : Topology) : act Catalog boot_err unit :=
  assert_roles owner [tp_Runtime topo; tp_Admin topo].

Definition assertOwnership (owner : string) (topo : Topology) : act Catalog boot_err unit :=
  ownerRole <~ map_err Unresolved (act_lift (roleFromDSN (tp_OwnerDSN topo))) ;;
  require! validRole ownerRole else BadName ownerRole ;;
  map_err Sql (one_by_one owner (refused owner) (map (fun t => OwnerTo t ownerRole) rlsTables)).

(** ** database.go *)

Definition setupRLSPolicies (owner adminRole : string) : act Catalog boot_err unit :=
  require! validRole adminRole else BadName adminRole ;;
  map_err Sql (in_one owner (refused owner) (policies_sql adminRole)).

Fixpoint run_steps (steps : list (string * act Catalog boot_err unit)) : act Catalog boot_err unit :=
  match steps with
  | [] => act_ret tt
  | (name, m) :: l => map_err (InStep name) m ;;! run_steps l
  end.

(** The connection [owner] runs the steps in their order. *)
Definition boot_steps (owner : string) (topo : Topology) : list (string * act Catalog boot_err unit) :=
  let ddl m := map_err Sql (m owner (refused owner)) in
  [("extensions", ddl createExtensions); ("tables", ddl createTables); ("migrate-users", ddl migrateUsers);
   ("migrate-audit-events", ddl migrateAuditEvents); ("migrate-tasks", ddl migrateTasks); ("migrate-knowledge", ddl migrateKnowledge);
   ("migrate-publications", ddl migratePublications); ("migrate-pipelines", ddl migratePipelines);
   ("migrate-organization", ddl migrateOrganization); ("migrate-executions", ddl migrateExecutions);
   ("workspace-integrity", ddl enforceWorkspaceIntegrity); ("enable-rls", ddl enableRLS);
   ("roles", if tp_PreProvisioned topo
             then assertPreProvisionedRoles owner topo ;;! grantRolePrivileges owner topo
             else provisionRoles owner topo);
   ("table-ownership", assertOwnership owner topo); ("policies", setupRLSPolicies owner (tp_Admin topo)); ("force-rls", ddl forceRLS)]%string.

Definition Bootstrap (owner : string) (topo : Topology) : act Catalog boot_err unit :=
  run_steps (boot_steps owner topo) ;;!
  map_err Sql (createVectorIndexes owner (refused owner)).

(** ** runtime_verify.go *)

Definition read_catalog (role what : string) : act Catalog boot_err Catalog :=
  map_err Sql (in_one role (refused role) [Query what]) ;;! act_get.

(** The two checks of a principal differ in their messages only. *)
Definition check_principal (current expected : string) : act Catalog boot_err unit :=
  c <~ read_catalog current "pg_roles" ;;
  match c_roles c !! current with
  | None => act_fail (NoSuchRole current)
  | Some a =>
      require! negb (negb (empty expected) && negb (EqualFold current expected)) else ConnectedAs current expected ;;
      require! negb (r_super a) else IsSuperuser current ;;
      require! negb (r_bypass a) else HoldsBypass current ;;
      act_ret tt
  end.
Definition VerifyAdminRole (current expected : string) : act Catalog boot_err unit := check_principal current expected.
Definition verifyRoleAttributes (current expected : string) : act Catalog boot_err unit := check_principal current expected.

(** The protected tables of which [P] holds, those that are missing left out. *)
Definition tables_where (c : Catalog) (P : Table -> bool) : list string :=
  List.filter (fun t => match c_tables c !! t with Some tb => P tb | None => false end) rlsTables.

Definition verifyTableOwnership (current : string) : act Catalog boot_err unit :=
  c <~ read_catalog current "ownership" ;;
  let owned := tables_where c (fun tb => (t_owner tb =? current)%string) in
  require! bool_decide (owned = []) else OwnsTables owned ;; act_ret tt.

Definition verifyRLSForced (current : string) : act Catalog boot_err unit :=
  c <~ read_catalog current "rls flags" ;;
  let missing := List.filter (fun t => negb (bool_decide (is_Some (c_tables c !! t)))) rlsTables in
  let notEnabled := tables_where c (fun tb => negb (t_rls tb)) in
  let notForced := tables_where c (fun tb => negb (t_force tb)) in
  require! bool_decide (missing = []) else TablesAbsent missing ;;
  require! bool_decide (notEnabled = []) else NotEnabled notEnabled ;;
  require! bool_decide (notForced = []) else NotForced notForced ;;
  act_ret tt.

(** A transaction bound to a workspace; it is undone when it fails. *)
Definition inWorkspace {A} (current : string) (ws : uuid) (fn : Session -> act Catalog boot_err A) : act Catalog boot_err A :=
  fun c => match (map_err Sql (in_one current (refused current) [Query "app.current_workspace"]) ;;!
                  fn (mkSession current (Some ws) None)) c with
           | (Ok a, c') => (Ok a, c')
           | (Err e, _) => (Err e, c)
           end.

Definition sees_workspace (c : Catalog) (s : Session) (id : uuid) (name : string) : bool :=
  visible opaque rows c s "workspaces" id (mkRow None None false name).

(** DELETE FROM workspaces WHERE id = $1: of what the session sees. *)
Definition delete_workspace (s : Session) (id : uuid) : act Catalog boot_err unit :=
  map_err Sql (in_one (ss_role s) (refused (ss_role s)) [Query "delete"]) ;;!
  c <~ act_get ;;
  require! has_priv c (ss_role s) "workspaces" "SELECT" && has_priv c (ss_role s) "workspaces" "DELETE" else Denied "workspaces" ;;
  match c_workspaces c !! id with
  | Some name => if sees_workspace c s id name then act_mod (set_workspaces (delete id)) else act_ret tt
  | None => act_ret tt
  end.

(** INSERT INTO workspaces (id, name): the policies hold for the new row, and
    the keys see every row. *)
Definition unique_name (c : Catalog) : bool :=
  existsb (fun kb => (kb.1.1 =? "workspaces")%string && bool_decide (kb.2 = Unique ["name"%string])) (map_to_list (c_cons c)).
Definition insert_workspace (s : Session) (id : uuid) (name : string) : act Catalog boot_err unit :=
  map_err Sql (in_one (ss_role s) (refused (ss_role s)) [Query "insert"]) ;;!
  c <~ act_get ;;
  require! has_priv c (ss_role s) "workspaces" "INSERT" else Denied "workspaces" ;;
  require! sees_workspace c s id name else NewRowRefused "workspaces" ;;
  require! bool_decide (c_workspaces c !! id = None) else Duplicate "workspaces" ;;
  require! negb (unique_name c && existsb (fun kv => (kv.2 =? name)%string) (map_to_list (c_workspaces c))) else Duplicate "workspaces" ;;
  act_mod (set_workspaces <[id := name]>).

(** SELECT count of workspaces with this id *)
Definition count_workspace (s : Session) (id : uuid) : act Catalog boot_err nat :=
  map_err Sql (in_one (ss_role s) (refused (ss_role s)) [Query "count"]) ;;!
  c <~ act_get ;;
  require! has_priv c (ss_role s) "workspaces" "SELECT" else Denied "workspaces" ;;
  act_ret (match c_workspaces c !! id with Some name => if sees_workspace c s id name then 1 else 0 | None => 0 end).

Definition canaryWorkspaceA : uuid := 0xdeadbeef00004000800000000000000a%N.
Definition canaryWorkspaceB : uuid := 0xdeadbeef00004000800000000000000b%N.
Definition canaryNameA : string := "austro-rls-canary-a".
Definition canaryNameB : string := "austro-rls-canary-b".

(** The transactions of the canary. *)
Definition seed_probe (current : string) (ws : uuid) (name : string) : act Catalog boot_err unit :=
  inWorkspace current ws (fun s => delete_workspace s ws ;;! insert_workspace s ws name).
Definition read_probes (current : string) : act Catalog boot_err (nat * nat) :=
  inWorkspace current canaryWorkspaceB (fun s =>
    own <~ count_workspace s canaryWorkspaceB ;; other <~ count_workspace s canaryWorkspaceA ;; act_ret (own, other)).
Definition clean_probe (current : string) (ws : uuid) : act Catalog boot_err unit :=
  _ <~ act_try (inWorkspace current ws (fun s => delete_workspace s ws)) ;; act_ret tt.
Definition verdict (seen : nat * nat) : act Catalog boot_err unit :=
  require! seen.2 =? 0 else Leaks seen.2 ;;
  require! seen.1 =? 1 else OverRestrictive seen.1 ;;
  act_ret tt.

Definition verifyIsolationLive (current : string) : act Catalog boot_err unit :=
  seed_probe current canaryWorkspaceA canaryNameA ;;!
  seed_probe current canaryWorkspaceB canaryNameB ;;!
  seen <~ read_probes current ;;
  clean_probe current canaryWorkspaceA ;;!
  clean_probe current canaryWorkspaceB ;;!
  verdict seen.

Definition VerifyRuntimeSecurity (current expectedRole : string) : act Catalog boot_err unit :=
  verifyRoleAttributes current expectedRole ;;!
  verifyTableOwnership current ;;!
  verifyRLSForced current ;;!
  verifyIsolationLive current.

(** ** MustInitializeTopology: an error ends the process *)

Record Handles : Type := mkHandles { hd_Runtime : string; hd_Admin : string; hd_Topology : Topology }.

Definition openOrFail (dsn : string) : act Catalog boot_err string :=
  c <~ act_get ;; match connect c dsn with Some r => act_ret r | None => act_fail (Unconnected dsn) end.

Definition MustInitializeTopology (cfg : Config) : act Catalog boot_err Handles :=
  topo <~ map_err Unresolved (act_lift (ResolveTopologyWithAdmin Getenv (c_PostgresDSN cfg) (c_PostgresRuntimeDSN cfg) (c_PostgresAdminDSN cfg))) ;;
  owner <~ openOrFail (tp_OwnerDSN topo) ;;
  Bootstrap owner topo ;;!
  runtime <~ openOrFail (tp_RuntimeDSN topo) ;;
  admin <~ openOrFail (tp_AdminDSN topo) ;;
  VerifyRuntimeSecurity runtime (tp_Runtime topo) ;;!
  VerifyAdminRole admin (tp_Admin topo) ;;!
  act_ret (mkHandles runtime admin topo).
End boot.
