(* ===== verification/BootProps.v ===== *)
(** * What coming up establishes

    A bootstrap as one script, whose statements settle and stay settled: run
    again it changes nothing.  It changes no role but its two.  A process that
    passes the checks of its own connection serves as a role that sees exactly
    the rows of the workspace its sessions are bound to. *)

From S2P Require Import Prelude GoLib GoText Config ConfigProps Schema Boot.

(** ** Bootstrap as one script *)

Section script.
Context `{RuneFold, GoURL, UuidText}.
Variable refused : string -> sql -> bool.
Variables (owner : string) (topo : Topology) (ownerRole : string).
#[local] Abbreviation exec_all := (exec_all owner (refused owner)).

Definition roles_sql : list sql :=
  (if tp_PreProvisioned topo then [] else map EnsureRole [tp_Runtime topo; tp_Admin topo] ++ passwords_sql topo)
  ++ [GrantPrivileges (tp_Runtime topo) (tp_Admin topo)].
Definition extensions_sql : list sql :=
  CreateExtension "vector" :: (if refused owner (CreateExtension "pgcrypto") then [] else [CreateExtension "pgcrypto"]).

(** What each step sends. *)
Definition scripts : list (list sql) :=
  [extensions_sql; createTables_sql; migrateUsers_sql; migrateAuditEvents_sql; migrateTasks_sql; migrateKnowledge_sql; migratePublications_sql;
   migratePipelines_sql; migrateOrganization_sql; migrateExecutions_sql; enforceWorkspaceIntegrity_sql; map EnableRLS rlsTables;
   roles_sql; map (fun t => OwnerTo t ownerRole) rlsTables; policies_sql (tp_Admin topo); map ForceRLS rlsTables].
Definition script : list sql := concat scripts.

(** The statements about who may do what. *)
Definition security_kind (s : sql) : option nat :=
  match s with
  | EnsureRole _ => Some 0 | SetPassword _ _ => Some 1 | GrantPrivileges _ _ => Some 2 | OwnerTo _ _ => Some 3
  | EnsurePolicy _ _ _ => Some 4 | ReplacePolicy _ _ _ => Some 5 | ForceRLS _ => Some 6 | _ => None
  end.

Lemma unsettles_kinds s s' k : security_kind s' = Some k -> security_kind s <> Some k -> unsettles s s' = false.
Proof. destruct s, s'; simpl; congruence. Qed.

(** Lists whose statements have kinds of their own go together. *)
Lemma restartable_kinds l l' :
  restartable l -> restartable l' ->
  (forall s s', s ∈ l -> s' ∈ l' -> exists k, security_kind s' = Some k /\ security_kind s <> Some k) -> restartable (l ++ l').
Proof.
  intros Hl Hl' Hk. apply restartable_app. split_and!; [done|done|]. intros s s' Hs Hs'. destruct (Hk s s' Hs Hs') as (k & ? & ?).
  by eapply unsettles_kinds.
Qed.

Lemma restartable_map {A} (f : A -> sql) (l : list A) : (forall a b, unsettles (f a) (f b) = false) -> restartable (map f l).
Proof.
  intros Hf. unfold restartable. induction l as [|a l IH]; simpl; constructor; [|done]. apply Forall_map, Forall_forall. auto.
Qed.

Definition has_kinds (ks : list nat) (l : list sql) : Prop := Forall (fun s => exists k, k ∈ ks /\ security_kind s = Some k) l.

Lemma restartable_disjoint ks ks' l l' :
  has_kinds ks l -> has_kinds ks' l' -> (forall k, k ∈ ks -> k ∈ ks' -> False) -> restartable l -> restartable l' -> restartable (l ++ l').
Proof.
  unfold has_kinds. rewrite !Forall_forall. intros Hk Hk' Hd Hl Hl'. apply restartable_kinds; [done..|]. intros s s' Hs Hs'.
  destruct (Hk s Hs) as (k & Hin & ->), (Hk' s' Hs') as (k' & Hin' & ->). exists k'. split; [done|]. intros [= ->]. by eapply Hd.
Qed.

Lemma has_kinds_map {A} k (f : A -> sql) l : (forall a, security_kind (f a) = Some k) -> has_kinds [k] (map f l).
Proof. intros Hf. apply Forall_map, Forall_forall. intros a _. exists k. split; [by left|apply Hf]. Qed.

Lemma has_kinds_app ks ks' l l' : has_kinds ks l -> has_kinds ks' l' -> has_kinds (ks ++ ks') (l ++ l').
Proof.
  unfold has_kinds. intros Hl Hl'. apply Forall_app. split; (eapply Forall_impl; [done|]); intros s (k & Hk & ?);
    exists k; (split; [|done]); apply elem_of_app; auto.
Qed.

Lemma passwords_kind : has_kinds [1] (passwords_sql topo).
Proof.
  unfold has_kinds, passwords_sql. simpl. repeat case_match; simpl; repeat constructor; eexists; (split; [by left|done]).
Qed.

Lemma passwords_restartable : tp_Runtime topo <> tp_Admin topo -> restartable (passwords_sql topo).
Proof.
  intros Hne. apply String.eqb_neq in Hne. unfold restartable, passwords_sql. simpl. repeat case_match; simpl; repeat constructor.
  simpl. by rewrite Hne.
Qed.

Lemma roles_kinds : has_kinds [0; 1; 2] roles_sql.
Proof.
  unfold roles_sql. assert (has_kinds [2] [GrantPrivileges (tp_Runtime topo) (tp_Admin topo)]) as H2.
  { repeat constructor. exists 2. split; [by left|done]. }
  destruct (tp_PreProvisioned topo).
  - eapply Forall_impl; [exact H2|]. intros s (k & Hk & ?). exists k. split; [|done]. apply list_elem_of_singleton in Hk as ->. set_solver.
  - change [0; 1; 2] with (([0] ++ [1]) ++ [2]). apply has_kinds_app; [|done]. apply has_kinds_app; [by apply has_kinds_map|apply passwords_kind].
Qed.

Lemma policies_kinds a : has_kinds [4; 5] (policies_sql a).
Proof.
  unfold has_kinds, policies_sql. repeat constructor; eexists; (split; [|reflexivity]); set_solver.
Qed.

Lemma policies_restartable a : restartable (policies_sql a).
Proof. unfold restartable, policies_sql. repeat constructor. Qed.

Definition ddl_sql : list sql := extensions_sql ++ schema_sql ++ map EnableRLS rlsTables.
Definition security_sql : list sql :=
  roles_sql ++ map (fun t => OwnerTo t ownerRole) rlsTables ++ policies_sql (tp_Admin topo) ++ map ForceRLS rlsTables.

Lemma script_parts : script = ddl_sql ++ security_sql.
Proof.
  unfold script, scripts.
  change (concat _) with (extensions_sql ++ createTables_sql ++ migrateUsers_sql ++ migrateAuditEvents_sql ++ migrateTasks_sql ++ migrateKnowledge_sql
    ++ migratePublications_sql ++ migratePipelines_sql ++ migrateOrganization_sql ++ migrateExecutions_sql ++ enforceWorkspaceIntegrity_sql
    ++ map EnableRLS rlsTables ++ roles_sql ++ map (fun t => OwnerTo t ownerRole) rlsTables ++ policies_sql (tp_Admin topo) ++ map ForceRLS rlsTables ++ []).
  rewrite app_nil_r. unfold ddl_sql, security_sql, schema_sql. by rewrite <- !app_assoc.
Qed.

Lemma security_kinds : has_kinds ([0; 1; 2] ++ [3] ++ [4; 5] ++ [6]) security_sql.
Proof.
  unfold security_sql. apply has_kinds_app; [apply roles_kinds|]. apply has_kinds_app; [by apply has_kinds_map|].
  apply has_kinds_app; [apply policies_kinds|by apply has_kinds_map].
Qed.

Lemma security_restartable : tp_Runtime topo <> tp_Admin topo -> restartable security_sql.
Proof.
  intros Hne. unfold security_sql.
  apply (restartable_disjoint [0; 1; 2] ([3] ++ [4; 5] ++ [6])); [apply roles_kinds| |set_solver| |].
  - apply has_kinds_app; [by apply has_kinds_map|]. apply has_kinds_app; [apply policies_kinds|by apply has_kinds_map].
  - unfold roles_sql. destruct (tp_PreProvisioned topo); [repeat constructor|].
    apply (restartable_disjoint ([0] ++ [1]) [2]); [|repeat constructor; exists 2; split; [by left|done]|set_solver| |repeat constructor].
    + apply has_kinds_app; [by apply has_kinds_map|apply passwords_kind].
    + apply (restartable_disjoint [0] [1]); [by apply has_kinds_map|apply passwords_kind|set_solver|by apply restartable_map|by apply passwords_restartable].
  - apply (restartable_disjoint [3] ([4; 5] ++ [6])); [by apply has_kinds_map| |set_solver| |].
    + apply has_kinds_app; [apply policies_kinds|by apply has_kinds_map].
    + apply restartable_map. intros a b. simpl. by rewrite String.eqb_refl, andb_false_r.
    + apply (restartable_disjoint [4; 5] [6]); [apply policies_kinds|by apply has_kinds_map|set_solver|apply policies_restartable|by apply restartable_map].
Qed.

Lemma ddl_checked :
  restartable ddl_sql /\ (forall s, s ∈ ddl_sql -> security_kind s = None /\ forall i, i ∈ vector_indexes -> unsettles s i = false).
Proof.
  unfold ddl_sql, extensions_sql. split; [apply restartable_b_ok; destruct (refused owner _); by vm_compute|].
  assert (forallb (fun s => match security_kind s with None => forallb (fun i => negb (unsettles s i)) vector_indexes | _ => false end)
    ((CreateExtension "vector" :: (if refused owner (CreateExtension "pgcrypto") then [] else [CreateExtension "pgcrypto"]))
       ++ schema_sql ++ map EnableRLS rlsTables) = true) as Hb by (destruct (refused owner _); by vm_compute).
  rewrite forallb_forall in Hb. intros s Hs. apply list_elem_of_In, Hb in Hs. destruct (security_kind s); [done|]. split; [done|].
  rewrite forallb_forall in Hs. intros i Hi. by apply negb_true_iff, Hs, list_elem_of_In.
Qed.

Lemma script_restartable : tp_Runtime topo <> tp_Admin topo -> restartable script.
Proof.
  intros Hne. rewrite script_parts. destruct ddl_checked as [Hd Hn]. apply restartable_kinds; [done|by apply security_restartable|].
  intros s s' Hs Hs'. pose proof security_kinds as Hk. unfold has_kinds in Hk. rewrite Forall_forall in Hk.
  destruct (Hk s' Hs') as (k & _ & ?). exists k. split; [done|]. destruct (Hn s Hs) as [-> _]. done.
Qed.

Lemma script_then_index s i : s ∈ script -> i ∈ vector_indexes -> unsettles s i = false.
Proof.
  rewrite script_parts. intros [Hs|Hs]%elem_of_app Hi; [by apply ddl_checked|].
  pose proof security_kinds as Hk. unfold has_kinds in Hk. rewrite Forall_forall in Hk. destruct (Hk s Hs) as (k & _ & Hsk).
  assert (exists n u t ks w r, i = CreateIndex n u t ks w r) as (n & u & t & ks & w & r & ->).
  { unfold vector_indexes in Hi. apply elem_of_cons in Hi as [->|Hi]; [by repeat eexists|]. apply list_elem_of_singleton in Hi as ->. by repeat eexists. }
  by destruct s.
Qed.
End script.

Section bootstrap.
Context `{RuneFold, GoURL, UuidText}.
Variable refused : string -> sql -> bool.
Variables (owner : string) (topo : Topology).
#[local] Abbreviation exec := (exec owner (refused owner)).
#[local] Abbreviation exec_all := (exec_all owner (refused owner)).
#[local] Abbreviation script := (script refused owner topo).
#[local] Abbreviation booting := (Bootstrap refused owner topo).

(** [m], when it succeeds, has sent [l]. *)
Definition sends (m : act Catalog boot_err unit) (l : list sql) : Prop := forall c c', m c = (Ok tt, c') -> exec_all l c = Ok c'.

Lemma sends_in_one l : sends (map_err Sql (in_one owner (refused owner) l)) l.
Proof. intros c c' H'. by apply map_err_Ok, in_one_Ok in H'. Qed.
Lemma sends_one_by_one l : sends (map_err Sql (one_by_one owner (refused owner) l)) l.
Proof. intros c c' H'. by apply map_err_Ok, one_by_one_Ok in H'. Qed.
Lemma sends_then m l m' l' : sends m l -> sends m' l' -> sends (m ;;! m') (l ++ l').
Proof. intros Hm Hm' c c' Hc. apply act_bind_Ok in Hc as ([] & c0 & ? & ?). apply exec_all_app. eauto. Qed.
Lemma sends_require (b : bool) e m l : sends m l -> sends (if b then m else act_fail e) l.
Proof. intros Hm c c' Hc. destruct b; [by apply Hm|done]. Qed.
Lemma sends_ret : sends (act_ret tt) [].
Proof. by intros c c' [= <-]. Qed.

Lemma run_steps_sends steps ls : Forall2 (fun st l => sends st.2 l) steps ls -> sends (run_steps steps) (concat ls).
Proof.
  induction 1 as [|[name m] l steps ls Hm _ IH]; simpl; [apply sends_ret|]. apply sends_then; [|done].
  intros c c' Hc. by apply map_err_Ok, Hm in Hc.
Qed.

Lemma query_run r what c :
  map_err Sql (in_one r (refused r) [Query what]) c = (if refused r (Query what) then Err (Sql Refused) else Ok tt, c).
Proof. unfold map_err, in_one. simpl. unfold Schema.exec. by destruct (refused r (Query what)). Qed.

(** Reading roles sends nothing that changes anything. *)
Lemma verifyPreProvisionedRole_reads r c : (verifyPreProvisionedRole refused owner r c).2 = c.
Proof.
  unfold verifyPreProvisionedRole, act_bind. rewrite query_run. destruct (refused owner (Query "pg_roles")); simpl; [done|].
  destruct (c_roles c !! r) as [a|]; simpl; [|done].
  by destruct (r_login a), (r_super a), (r_bypass a), (r_createrole a || r_createdb a).
Qed.

Lemma assert_roles_reads l c : (assert_roles refused owner l c).2 = c.
Proof.
  revert c. induction l as [|r l IH]; intros c; simpl; [done|]. case_match; [|done]. unfold act_bind.
  pose proof (verifyPreProvisionedRole_reads r c) as Hr. destruct (verifyPreProvisionedRole refused owner r c) as [[[]|e] c0]; simpl in *; subst; [apply IH|done].
Qed.

Lemma roles_step_sends :
  sends (if tp_PreProvisioned topo then assertPreProvisionedRoles refused owner topo ;;! grantRolePrivileges refused owner topo
         else provisionRoles refused owner topo) (roles_sql topo).
Proof.
  unfold roles_sql. destruct (tp_PreProvisioned topo).
  - apply (sends_then _ []); [|apply sends_in_one]. intros c c' Hc. pose proof (assert_roles_reads [tp_Runtime topo; tp_Admin topo] c) as Hr.
    unfold assertPreProvisionedRoles in Hc. rewrite Hc in Hr. by simpl in *; subst.
  - rewrite <- app_assoc. unfold provisionRoles. do 2 apply sends_require. repeat apply sends_then; [apply sends_one_by_one..|apply sends_in_one].
Qed.

Lemma extensions_sends : sends (map_err Sql (createExtensions owner (refused owner))) (extensions_sql refused owner).
Proof.
  intros c c' Hc%map_err_Ok. unfold createExtensions in Hc. apply act_bind_Ok in Hc as ([] & c0 & Hv%in_one_Ok & Hp).
  unfold extensions_sql. simpl in Hv |- *. apply res_bind_Ok in Hv as (c1 & -> & [= ->]). simpl. unfold best_effort, Schema.exec in Hp.
  destruct (refused owner (CreateExtension "pgcrypto")) eqn:E; simpl in *; [by injection Hp as ->|]. unfold Schema.exec. rewrite E. simpl. by injection Hp as ->.
Qed.

Lemma ownership_sends r :
  roleFromDSN (tp_OwnerDSN topo) = Ok r -> sends (assertOwnership refused owner topo) (map (fun t => OwnerTo t r) rlsTables).
Proof.
  intros Er c c' Hc. unfold assertOwnership in Hc. rewrite Er in Hc. apply act_bind_Ok in Hc as (x & c2 & Hl%map_err_Ok & Hc).
  injection Hl as <- <-. revert Hc. apply sends_require, sends_one_by_one.
Qed.

Lemma steps_send c c' :
  run_steps (boot_steps refused owner topo) c = (Ok tt, c') ->
  exists ownerRole, roleFromDSN (tp_OwnerDSN topo) = Ok ownerRole /\ exec_all (script ownerRole) c = Ok c'.
Proof.
  intros Hrun. destruct (roleFromDSN (tp_OwnerDSN topo)) as [ownerRole|e] eqn:Er.
  - exists ownerRole. split; [done|]. revert Hrun. apply run_steps_sends. unfold boot_steps, scripts.
    repeat (apply Forall2_cons; split); try apply sends_in_one; try apply sends_one_by_one; try apply Forall2_nil_2; try done.
    + apply extensions_sends.
    + apply roles_step_sends.
    + by apply ownership_sends.
    + apply sends_require, sends_in_one.
  - exfalso. unfold boot_steps in Hrun. cbn [run_steps] in Hrun.
    do 13 (apply act_bind_Ok in Hrun as ([] & ? & _ & Hrun)). apply act_bind_Ok in Hrun as ([] & ? & Hown%map_err_Ok & _).
    unfold assertOwnership in Hown. rewrite Er in Hown. simpl in Hown. by apply act_bind_Ok in Hown as (? & ? & Hl%map_err_Ok & _).
Qed.

Lemma vector_indexes_end c c' :
  createVectorIndexes owner (refused owner) c = (Ok tt, c') ->
  exists c1, best_effort owner (refused owner) (nth 0 vector_indexes (Query "")) c = (Ok tt, c1) /\
    best_effort owner (refused owner) (nth 1 vector_indexes (Query "")) c1 = (Ok tt, c').
Proof.
  unfold createVectorIndexes. simpl. intros Hc. apply act_bind_Ok in Hc as ([] & c1 & Hv1 & Hc).
  apply act_bind_Ok in Hc as ([] & c2 & Hv2 & [= <-]). by exists c1.
Qed.

(** After a bootstrap everything it sent is settled. *)
Lemma Bootstrap_settles c c' :
  tp_Runtime topo <> tp_Admin topo -> booting c = (Ok tt, c') ->
  exists ownerRole, roleFromDSN (tp_OwnerDSN topo) = Ok ownerRole /\ Forall (fun s => settled s c' /\ refused owner s = false) (script ownerRole).
Proof.
  intros Hne Hb. unfold Bootstrap in Hb. apply act_bind_Ok in Hb as ([] & c1 & Hs & Hv%map_err_Ok).
  apply steps_send in Hs as (ownerRole & Hr & Hs). exists ownerRole. split; [done|].
  apply vector_indexes_end in Hv as (c2 & Hv1 & Hv2).
  eapply best_effort_keeps; [exact Hv2|apply Forall_forall; intros s Hin; eapply script_then_index; [done|by right; left]|].
  eapply best_effort_keeps; [exact Hv1|apply Forall_forall; intros s Hin; eapply script_then_index; [done|by left]|].
  eapply exec_all_settles; [by apply script_restartable|exact Hs].
Qed.
End bootstrap.

(** ** Who a bootstrap changes, and running it again *)

Definition touches (r : string) (s : sql) : bool :=
  match s with EnsureRole r' | SetPassword r' _ => (r =? r')%string | _ => false end.

Definition roles_kept (ok : string -> Prop) (c c' : Catalog) : Prop := forall r, ok r -> c_roles c' !! r = c_roles c !! r.
#[export] Instance roles_kept_po ok : PreOrder (roles_kept ok).
Proof. split; [by intros c r|]. intros a b d Hab Hbd r Hr. by rewrite (Hbd r Hr), (Hab r Hr). Qed.

Section roles.
Context (me : string) (ref : sql -> bool) (ok : string -> Prop).

Lemma exec_roles s c c' r : exec me ref s c = Ok c' -> touches r s = false -> c_roles c' !! r = c_roles c !! r.
Proof.
  unfold exec. intros H Hu. ran.
  destruct s as [e|t' cols ks|m u t' keys cond reads|t' k|t' cols|sc t' m b|t' m|m|t'|t'|t' r'|r'|r' pw|rt' ad'|t' m p|t' m p|q];
    simpl in Hu; ran; try done.
  - destruct (c_tables c !! t'); by ran.
  - case_decide; by ran.
  - destruct (has_col x (c_name k)); by ran.
  - destruct sc; ran; [destruct (c_cons c !! (t', m))|destruct (named c m)]; by ran.
  - destruct (c_roles c !! r'); by ran.
  - apply String.eqb_neq in Hu. simpl. by rewrite lookup_insert_ne.
  - apply String.eqb_neq in Hu. destruct (c_roles c !! r'); ran. simpl. by rewrite lookup_insert_ne.
  - destruct (c_policies c !! (t', m)); by ran.
  - destruct (p_to p); by ran.
Qed.

Definition leaves (s : sql) : Prop := forall r, ok r -> touches r s = false.

Lemma in_one_roles l : Forall leaves l -> preserves (roles_kept ok) (in_one me ref l).
Proof.
  intros Hl c. unfold in_one. destruct (exec_all me ref l c) as [c'|] eqn:E; simpl; [|reflexivity].
  revert c E. induction Hl as [|s l Hs _ IH]; intros c E; simpl in E; [by injection E as <-|].
  apply res_bind_Ok in E as (c0 & E0 & E). etrans; [|by eapply IH]. intros r Hr. eapply exec_roles; [done|by apply Hs].
Qed.

Lemma one_by_one_roles l : Forall leaves l -> preserves (roles_kept ok) (one_by_one me ref l).
Proof.
  induction 1; simpl; [apply preserves_ret; apply _|]. apply preserves_bind; [apply _|apply in_one_roles; by constructor|done].
Qed.

Lemma map_err_keeps {E E' A} (f : E -> E') (m : act Catalog E A) R : preserves R m -> preserves R (map_err f m).
Proof. intros Hm c. specialize (Hm c). unfold map_err. by destruct (m c) as [[]]. Qed.

Lemma best_effort_roles s : leaves s -> preserves (roles_kept ok) (best_effort me ref s).
Proof.
  intros Hs c. unfold best_effort. destruct (exec me ref s c) eqn:E; simpl; [|reflexivity]. intros r Hr. eapply exec_roles; [done|by apply Hs].
Qed.

Lemma ddl_leaves l : forallb (fun s => match s with EnsureRole _ | SetPassword _ _ => false | _ => true end) l = true -> Forall leaves l.
Proof. intros Hl. apply Forall_forall. intros s Hs r _. rewrite forallb_forall in Hl. apply list_elem_of_In, Hl in Hs. by destruct s. Qed.

Lemma map_leaves {A} (f : A -> sql) l : (forall a, leaves (f a)) -> Forall leaves (map f l).
Proof. intros Hf. apply Forall_map, Forall_forall. auto. Qed.
End roles.
#[local] Hint Resolve in_one_roles one_by_one_roles map_err_keeps best_effort_roles : preserves.

Section again.
Context `{RuneFold, GoURL, UuidText}.
Variable refused : string -> sql -> bool.
Variables (owner : string) (topo : Topology).
#[local] Abbreviation booting := (Bootstrap refused owner topo).

(** The roles a bootstrap has no business with: all of them when they are
    provisioned elsewhere, otherwise all but its two. *)
Definition foreign_role (r : string) : Prop := tp_PreProvisioned topo = true \/ (r <> tp_Runtime topo /\ r <> tp_Admin topo).
#[local] Abbreviation kept := (roles_kept foreign_role).

Lemma run_steps_keep (R : Catalog -> Catalog -> Prop) `{!PreOrder R} steps :
  Forall (fun st : string * act Catalog boot_err unit => preserves R st.2) steps -> preserves R (run_steps steps).
Proof.
  induction 1 as [|[name m] l Hm _ IH]; simpl; [by apply preserves_ret|]. apply preserves_bind; [done|by apply map_err_keeps|done].
Qed.

Lemma roles_step_keeps :
  preserves kept (if tp_PreProvisioned topo then assertPreProvisionedRoles refused owner topo ;;! grantRolePrivileges refused owner topo
                  else provisionRoles refused owner topo).
Proof.
  assert (preserves kept (grantRolePrivileges refused owner topo)) as Hg by (apply map_err_keeps, in_one_roles; by repeat constructor).
  destruct (tp_PreProvisioned topo) eqn:E.
  - apply preserves_bind; [apply _| |done]. intros c. pose proof (assert_roles_reads refused owner [tp_Runtime topo; tp_Admin topo] c) as Hr.
    unfold assertPreProvisionedRoles. rewrite Hr. reflexivity.
  - assert (forall r, foreign_role r -> r <> tp_Runtime topo /\ r <> tp_Admin topo) as Hf by (intros r [Hr|Hr]; [congruence|done]).
    unfold provisionRoles. apply preserves_if; [apply preserves_if|apply preserves_fail; apply _]; [|apply preserves_fail; apply _].
    apply preserves_bind; [apply _| |intros _; apply preserves_bind; [apply _| |done]]; apply map_err_keeps, one_by_one_roles.
    + apply Forall_map. repeat constructor; intros r Hr; apply String.eqb_neq; by apply Hf.
    + unfold passwords_sql. simpl. repeat case_match; repeat constructor; intros r Hr; apply String.eqb_neq; by apply Hf.
Qed.

Lemma boot_steps_keep : Forall (fun st => preserves kept st.2) (boot_steps refused owner topo).
Proof.
    unfold boot_steps. repeat (apply Forall_cons; split); try apply Forall_nil_2; simpl; try (apply map_err_keeps, in_one_roles, ddl_leaves; by vm_compute);
      try (apply map_err_keeps, one_by_one_roles, ddl_leaves; by vm_compute).
    - apply map_err_keeps, preserves_bind; [apply _|apply in_one_roles, ddl_leaves; by vm_compute|]. intros _. by apply best_effort_roles.
    - apply roles_step_keeps.
    - unfold assertOwnership. apply preserves_bind; [apply _|apply map_err_keeps, preserves_lift; apply _|]. intros r.
      apply preserves_if; [|apply preserves_fail; apply _]. apply map_err_keeps, one_by_one_roles. by apply map_leaves.
    - unfold setupRLSPolicies. apply preserves_if; [|apply preserves_fail; apply _]. apply map_err_keeps, in_one_roles, ddl_leaves. by vm_compute.
Qed.

Lemma Bootstrap_keeps : preserves kept booting.
Proof.
  unfold Bootstrap. apply preserves_bind; [apply _|apply run_steps_keep; [apply _|apply boot_steps_keep]|].
  intros _. apply map_err_keeps. unfold createVectorIndexes. simpl.
    apply preserves_bind; [apply _|by apply best_effort_roles|intros _]. apply preserves_bind; [apply _|by apply best_effort_roles|intros _].
    apply preserves_ret. apply _.
Qed.
End again.

Section once_more.
Context `{RuneFold, GoURL, UuidText}.
Variable refused : string -> sql -> bool.
Variables (owner : string) (topo : Topology).
#[local] Abbreviation booting := (Bootstrap refused owner topo).
#[local] Abbreviation calm l c := (Forall (fun s => settled s c /\ refused owner s = false) l).

Lemma run_steps_noop steps c :
  Forall (fun st : string * act Catalog boot_err unit => st.2 c = (Ok tt, c)) steps -> run_steps steps c = (Ok tt, c).
Proof.
  induction 1 as [|[name m] l Hm _ IH]; simpl; [done|]. unfold act_bind, map_err. simpl in Hm. by rewrite Hm.
Qed.

(** Each step of a run that went through has gone through, from a state [R]
    relates to the first. *)
Lemma run_steps_each (R : Catalog -> Catalog -> Prop) `{!PreOrder R} steps c c' :
  Forall (fun st : string * act Catalog boot_err unit => preserves R st.2) steps -> run_steps steps c = (Ok tt, c') ->
  Forall (fun st => exists c1 c2, R c c1 /\ st.2 c1 = (Ok tt, c2)) steps.
Proof.
  intros Hk. revert c. induction Hk as [|[name m] l Hm _ IH]; intros c Hc; [constructor|]. simpl in Hc.
  apply act_bind_Ok in Hc as ([] & c0 & Hrun%map_err_Ok & Hc). constructor; [exists c, c0; by split; [reflexivity|]|].
  pose proof (Hm c) as Hr. simpl in Hr. rewrite Hrun in Hr. simpl in Hr.
  eapply Forall_impl; [by apply IH|]. intros st (c1 & c2 & ? & ?). exists c1, c2. split; [by etrans|done].
Qed.

Lemma in_one_noop l c : calm l c -> map_err Sql (in_one owner (refused owner) l) c = (Ok tt, c).
Proof. intros Hl. by apply map_err_Ok, in_one_Ok, exec_all_noop. Qed.
Lemma one_by_one_noop l c : calm l c -> map_err Sql (one_by_one owner (refused owner) l) c = (Ok tt, c).
Proof. intros Hl. by apply map_err_Ok, one_by_one_Ok, exec_all_noop. Qed.

(** What reading a role finds depends on that role. *)
Lemma verify_same r c c' :
  c_roles c' !! r = c_roles c !! r -> verifyPreProvisionedRole refused owner r c = (Ok tt, c) ->
  verifyPreProvisionedRole refused owner r c' = (Ok tt, c').
Proof.
  intros Hr. unfold verifyPreProvisionedRole, act_bind. rewrite !query_run. destruct (refused owner (Query "pg_roles")); [done|].
  simpl. rewrite Hr. destruct (c_roles c !! r) as [a|]; [|done].
  by destruct (r_login a), (r_super a), (r_bypass a), (r_createrole a || r_createdb a).
Qed.

Lemma assert_roles_same l c c' :
  (forall r, r ∈ l -> c_roles c' !! r = c_roles c !! r) -> assert_roles refused owner l c = (Ok tt, c) ->
  assert_roles refused owner l c' = (Ok tt, c').
Proof.
  induction l as [|r l IH]; simpl; [done|]. intros Hr. destruct (validRole r); [|done]. intros Hc.
  apply act_bind_Ok in Hc as ([] & c0 & Hv & Hc). pose proof (verifyPreProvisionedRole_reads refused owner r c) as E. rewrite Hv in E.
  simpl in E. subst c0. unfold act_bind. rewrite (verify_same r c c'); [apply IH; [|done]; intros x Hx; apply Hr; by right|apply Hr; by left|done].
Qed.

(** An index attempted at the end, attempted again. *)
Lemma best_effort_again n u t keys cond reads c c1 c' :
  best_effort owner (refused owner) (CreateIndex n u t keys cond reads) c = (Ok tt, c1) ->
  c_tables c' = c_tables c -> c_indexes c1 ⊆ c_indexes c' -> (n ∈ c_indexes c' -> n ∈ c_indexes c1) ->
  best_effort owner (refused owner) (CreateIndex n u t keys cond reads) c' = (Ok tt, c').
Proof.
  unfold best_effort. intros Hb Ht Hi Hn. unfold Schema.exec in *. destruct (refused owner _); [done|]. simpl in *.
  destruct (decide (n ∈ c_indexes c')); [done|]. assert (n ∉ c_indexes c1) as Hn1 by set_solver.
  unfold with_table in *. rewrite Ht. destruct (decide (n ∈ c_indexes c)); [injection Hb as <-; done|].
  destruct (c_tables c !! t) as [tb|]; [|done]. destruct (has_cols tb reads); [|done]. injection Hb as <-. simpl in Hn1. set_solver.
Qed.

Lemma index_frame n u t keys cond reads c c' :
  best_effort owner (refused owner) (CreateIndex n u t keys cond reads) c = (Ok tt, c') ->
  c_tables c' = c_tables c /\ c_indexes c ⊆ c_indexes c' /\ (forall m, m <> n -> m ∈ c_indexes c' -> m ∈ c_indexes c).
Proof.
  unfold best_effort. intros Hb. unfold Schema.exec in *. destruct (refused owner _); simpl in Hb; [by injection Hb as <-|].
  destruct (decide (n ∈ c_indexes c)); [by injection Hb as <-|]. unfold with_table in Hb.
  destruct (c_tables c !! t) as [tb|]; simpl in Hb; [|by injection Hb as <-].
  destruct (has_cols tb reads); simpl in Hb; injection Hb as <-; simpl; [|done]. split_and!; [done|set_solver|set_solver].
Qed.

Lemma vector_indexes_again c c' :
  createVectorIndexes owner (refused owner) c = (Ok tt, c') -> createVectorIndexes owner (refused owner) c' = (Ok tt, c').
Proof.
  intros Hc. apply vector_indexes_end in Hc as (c1 & Hv1 & Hv2). simpl in Hv1, Hv2.
  destruct (index_frame _ _ _ _ _ _ _ _ Hv1) as (T1 & I1 & N1), (index_frame _ _ _ _ _ _ _ _ Hv2) as (T2 & I2 & N2).
  unfold createVectorIndexes. simpl. unfold act_bind.
  rewrite (best_effort_again _ _ _ _ _ _ _ _ c' Hv1); [|congruence|done|by apply N2].
  rewrite (best_effort_again _ _ _ _ _ _ _ _ c' Hv2); [done|congruence|done|done].
Qed.

Lemma roles_step_again c c1 c2 c' :
  (if tp_PreProvisioned topo then assertPreProvisionedRoles refused owner topo ;;! grantRolePrivileges refused owner topo
   else provisionRoles refused owner topo) c1 = (Ok tt, c2) ->
  roles_kept (foreign_role topo) c c1 -> roles_kept (foreign_role topo) c c' -> calm (roles_sql topo) c' ->
  (if tp_PreProvisioned topo then assertPreProvisionedRoles refused owner topo ;;! grantRolePrivileges refused owner topo
   else provisionRoles refused owner topo) c' = (Ok tt, c').
Proof.
  intros Hrun K1 K2 Hs. unfold roles_sql in Hs. destruct (tp_PreProvisioned topo) eqn:E.
  - apply act_bind_Ok in Hrun as ([] & c3 & Ha & _). unfold assertPreProvisionedRoles in *.
    pose proof (assert_roles_reads refused owner [tp_Runtime topo; tp_Admin topo] c1) as Hr. rewrite Ha in Hr. simpl in Hr. subst c3.
    unfold act_bind. rewrite (assert_roles_same _ c1 c'); [by apply in_one_noop| |done].
    intros r _. rewrite (K1 r), (K2 r); [done|by left..].
  - apply Forall_app in Hs as [[Hs1 Hs2]%Forall_app Hs3]. unfold provisionRoles in *.
    destruct (validRole (tp_Runtime topo)); [|done]. destruct (validRole (tp_Admin topo)); [|done].
    unfold act_bind. rewrite one_by_one_noop by done. rewrite one_by_one_noop by done. by apply in_one_noop.
Qed.

Lemma extensions_again c : calm (extensions_sql refused owner) c -> map_err Sql (createExtensions owner (refused owner)) c = (Ok tt, c).
Proof.
  unfold extensions_sql. intros [Hv Hp]%Forall_cons. apply map_err_Ok. unfold createExtensions, act_bind.
  rewrite (proj2 (in_one_Ok owner (refused owner) _ c c)) by (apply exec_all_noop; by constructor).
  unfold best_effort. destruct (refused owner (CreateExtension "pgcrypto")) eqn:E.
  - unfold Schema.exec. by rewrite E.
  - apply Forall_cons in Hp as [[Hp _] _]. by rewrite settled_noop.
Qed.

Lemma ownership_again r c c1 c2 :
  roleFromDSN (tp_OwnerDSN topo) = Ok r -> assertOwnership refused owner topo c1 = (Ok tt, c2) ->
  calm (map (fun t => OwnerTo t r) rlsTables) c -> assertOwnership refused owner topo c = (Ok tt, c).
Proof.
  unfold assertOwnership. intros -> Hrun Hs. apply act_bind_Ok in Hrun as (x & c3 & Hl%map_err_Ok & Hrun). injection Hl as <- <-.
  unfold act_bind, map_err at 1, act_lift. destruct (validRole r); [by apply one_by_one_noop|done].
Qed.

Lemma policies_again c c1 c2 :
  setupRLSPolicies refused owner (tp_Admin topo) c1 = (Ok tt, c2) -> calm (policies_sql (tp_Admin topo)) c ->
  setupRLSPolicies refused owner (tp_Admin topo) c = (Ok tt, c).
Proof. unfold setupRLSPolicies. destruct (validRole (tp_Admin topo)); [|done]. intros _ Hs. by apply in_one_noop. Qed.

(** What the reading of the roles that are provisioned elsewhere found. *)
Lemma assert_roles_Ok l c r :
  assert_roles refused owner l c = (Ok tt, c) -> r ∈ l ->
  exists a, c_roles c !! r = Some a /\ r_super a = false /\ r_bypass a = false /\ r_createrole a = false /\ r_createdb a = false.
Proof.
  induction l as [|x l IH]; simpl; [by intros _ ?%elem_of_nil|]. destruct (validRole x); [|done]. intros Hc.
  apply act_bind_Ok in Hc as ([] & c0 & Hv & Hc). pose proof (verifyPreProvisionedRole_reads refused owner x c) as E. rewrite Hv in E.
  simpl in E. subst c0. intros [->|Hr]%elem_of_cons; [|by apply IH]. unfold verifyPreProvisionedRole, act_bind in Hv. rewrite query_run in Hv.
  destruct (refused owner (Query "pg_roles")); [done|]. simpl in Hv. destruct (c_roles c !! x) as [a|]; [|done]. exists a. split; [done|].
  by destruct (r_login a), (r_super a), (r_bypass a), (r_createrole a), (r_createdb a).
Qed.

Lemma preprovisioned_demoted c c' r :
  booting c = (Ok tt, c') -> tp_PreProvisioned topo = true -> r ∈ [tp_Runtime topo; tp_Admin topo] ->
  exists a, c_roles c' !! r = Some a /\ r_super a = false /\ r_bypass a = false /\ r_createrole a = false /\ r_createdb a = false.
Proof.
  intros Hb E Hr. pose proof (Bootstrap_keeps refused owner topo c) as K'. rewrite Hb in K'. simpl in K'. rewrite (K' r) by (by left).
  unfold Bootstrap in Hb. apply act_bind_Ok in Hb as ([] & c0 & Hsteps & _).
  pose proof (run_steps_each (roles_kept (foreign_role topo)) _ _ _ (boot_steps_keep refused owner topo) Hsteps) as Heach.
  unfold boot_steps in Heach. repeat (apply Forall_cons in Heach as [? Heach]). cbn [snd] in *.
  match goal with Hs : exists c1 c2, _ /\ (if _ then _ else _) c1 = _ |- _ => destruct Hs as (c1 & c2 & K1 & Hs); rename Hs into Hrun end.
  rewrite E in Hrun. apply act_bind_Ok in Hrun as ([] & c3 & Ha & _). unfold assertPreProvisionedRoles in Ha.
  pose proof (assert_roles_reads refused owner [tp_Runtime topo; tp_Admin topo] c1) as Hc3. rewrite Ha in Hc3. simpl in Hc3. subst c3.
  rewrite <- (K1 r) by (by left). by eapply assert_roles_Ok.
Qed.
End once_more.

(** ** What a served session sees *)

(** The policies of a table, as this program declares them. *)
Definition policies_for (adminRole t : string) : list Policy :=
  flat_map (fun s => match s with EnsurePolicy t' _ p | ReplacePolicy t' _ p => if (t' =? t)%string then [p] else [] | _ => [] end)
    (policies_sql adminRole).

(** The protected tables have no policies but those the bootstrap declares, or
    replaces. *)
Definition own_policies (c : Catalog) : Prop :=
  forall t n p, t ∈ rlsTables -> c_policies c !! (t, n) = Some p ->
    EnsurePolicy t n p ∈ policies_sql "" \/ exists p', ReplacePolicy t n p' ∈ policies_sql "".

(** The two rewrite the same names, whoever the administrator is. *)
Lemma ensured_any a b t n p : EnsurePolicy t n p ∈ policies_sql a -> EnsurePolicy t n p ∈ policies_sql b.
Proof. unfold policies_sql. rewrite !list_elem_of_In. simpl. intuition (try discriminate). Qed.

Lemma replaced_any a b t n p : ReplacePolicy t n p ∈ policies_sql a -> exists p', ReplacePolicy t n p' ∈ policies_sql b.
Proof.
  unfold policies_sql. rewrite list_elem_of_In. simpl. intros Hin.
  assert (exists p', In (ReplacePolicy t n p') (policies_sql b)) as [p' Hp]; [|exists p'; by apply list_elem_of_In].
  unfold policies_sql. simpl.
  repeat (destruct Hin as [Heq|Hin]; [first [discriminate Heq | injection Heq as <- <- <-; eexists; intuition reflexivity]|]). done.
Qed.

Section policies.
Context (me : string) (ref : sql -> bool).

(** A policy comes from the statement that creates it. *)
Lemma exec_policies s c c' t n p :
  exec me ref s c = Ok c' -> c_policies c' !! (t, n) = Some p ->
  c_policies c !! (t, n) = Some p \/ s = EnsurePolicy t n p \/ s = ReplacePolicy t n p.
Proof.
  unfold exec. intros H. ran.
  destruct s as [e|t' cols ks|m u t' keys cond reads|t' k|t' cols|sc t' m b|t' m|m|t'|t'|t' r'|r'|r' pw|rt' ad'|t' m q|t' m q|q];
    ran; try (by left).
  - destruct (c_tables c !! t'); ran; by left.
  - case_decide; ran; by left.
  - destruct (has_col x (c_name k)); ran; by left.
  - destruct sc; ran; [destruct (c_cons c !! (t', m))|destruct (named c m)]; ran; by left.
  - destruct (c_roles c !! r'); ran; by left.
  - destruct (c_roles c !! r'); ran; by left.
  - destruct (c_policies c !! (t', m)) eqn:E; ran; [by left|]. simpl. destruct (decide ((t', m) = (t, n))) as [[= -> ->]|].
    + rewrite lookup_insert_eq. intros [= ->]. by right; left.
    + rewrite lookup_insert_ne by done. by left.
  - assert (c' = set_policies <[(t', m) := q]> c) as -> by (destruct (p_to q); by ran). simpl.
    destruct (decide ((t', m) = (t, n))) as [[= -> ->]|].
    + rewrite lookup_insert_eq. intros [= ->]. by right; right.
    + rewrite lookup_insert_ne by done. by left.
Qed.

Lemma exec_all_policies l c c' t n p :
  exec_all me ref l c = Ok c' -> c_policies c' !! (t, n) = Some p ->
  c_policies c !! (t, n) = Some p \/ EnsurePolicy t n p ∈ l \/ ReplacePolicy t n p ∈ l.
Proof.
  revert c. induction l as [|s l IH]; intros c H Hp; simpl in H; [injection H as <-; by left|].
  apply res_bind_Ok in H as (c0 & H0 & H). destruct (IH c0 H Hp) as [Hc|[?|?]]; [|by right; left; right|by right; right; right].
  destruct (exec_policies _ _ _ _ _ _ H0 Hc) as [?|[->| ->]]; [by left|by right; left; left|by right; right; left].
Qed.
End policies.

(** The policies of the script, by table and name. *)
Definition declared (adminRole : string) : list ((string * string) * Policy) :=
  flat_map (fun s => match s with EnsurePolicy t n p | ReplacePolicy t n p => [((t, n), p)] | _ => [] end) (policies_sql adminRole).

Lemma declared_In a t n p :
  ((t, n), p) ∈ declared a <-> EnsurePolicy t n p ∈ policies_sql a \/ ReplacePolicy t n p ∈ policies_sql a.
Proof.
  unfold declared. rewrite list_elem_of_In, in_flat_map. split.
  - intros (s & Hs & Hin). apply list_elem_of_In in Hs. destruct s; simpl in Hin; try done; destruct Hin as [[= -> -> ->]|[]]; auto.
  - intros [Hin|Hin]; (eexists; split; [by apply list_elem_of_In|by left]).
Qed.

Lemma declared_unique a k p p' : (k, p) ∈ declared a -> (k, p') ∈ declared a -> p = p'.
Proof.
  assert (NoDup (declared a).*1) as Hn by (apply (bool_decide_unpack _); by vm_compute).
  rewrite !(elem_of_list_to_map (M := gmap (string * string))) by done. congruence.
Qed.

Lemma policies_for_In a t p : p ∈ policies_for a t <-> exists n, ((t, n), p) ∈ declared a.
Proof.
  unfold policies_for. rewrite list_elem_of_In, in_flat_map. split.
  - intros (s & Hs & Hin). apply list_elem_of_In in Hs. destruct s; simpl in Hin; try done;
      destruct (String.eqb_spec t0 t) as [<-|]; try done; destruct Hin as [<-|[]]; eexists; apply declared_In; eauto.
  - intros [n [Hin|Hin]%declared_In]; (eexists; split; [by apply list_elem_of_In|]); simpl; rewrite String.eqb_refl; by left.
Qed.

Section installed.
Context `{RuneFold, GoURL, UuidText}.
Variable refused : string -> sql -> bool.
Variables (owner : string) (topo : Topology).

Lemma script_policies ownerRole t n p :
  EnsurePolicy t n p ∈ script refused owner topo ownerRole \/ ReplacePolicy t n p ∈ script refused owner topo ownerRole ->
  ((t, n), p) ∈ declared (tp_Admin topo).
Proof.
  intros Hin. apply declared_In. rewrite script_parts in Hin. unfold security_sql in Hin.
  assert (forall s k, security_kind s = Some k -> (k = 4 \/ k = 5) ->
    s ∈ ddl_sql refused owner ++ roles_sql topo ++ map (fun t => OwnerTo t ownerRole) rlsTables ++ policies_sql (tp_Admin topo) ++ map ForceRLS rlsTables ->
    s ∈ policies_sql (tp_Admin topo)) as Hpart; [|destruct Hin as [Hin|Hin]; [left|right]; (eapply Hpart; [reflexivity|auto|done])].
  intros s k Hk Hk' Hs. rewrite !elem_of_app in Hs.
  destruct Hs as [Hs|[Hs|[Hs|[Hs|Hs]]]]; [| | |done|].
  - destruct (ddl_checked refused owner) as [_ Hd]. destruct (Hd s Hs) as [Hnone _]. rewrite Hk in Hnone. discriminate Hnone.
  - pose proof (roles_kinds refused topo ownerRole) as Hr. unfold has_kinds in Hr. rewrite Forall_forall in Hr. destruct (Hr s Hs) as (k' & Hin' & Hk2).
    rewrite Hk in Hk2. injection Hk2 as <-. rewrite !elem_of_cons, elem_of_nil in Hin'. lia.
  - apply list_elem_of_In, in_map_iff in Hs as (x & <- & _). simpl in Hk. injection Hk as <-. lia.
  - apply list_elem_of_In, in_map_iff in Hs as (x & <- & _). simpl in Hk. injection Hk as <-. lia.
Qed.

Lemma best_effort_policies n u t keys cond reads c c' :
  best_effort owner (refused owner) (CreateIndex n u t keys cond reads) c = (Ok tt, c') -> c_policies c' = c_policies c.
Proof.
  unfold best_effort. destruct (Schema.exec owner (refused owner) _ c) as [c0|] eqn:E; intros [= <-]; [|done].
  unfold Schema.exec in E. ran. case_decide; by ran.
Qed.

(** After a bootstrap the policies of the protected tables are the declared ones. *)
Lemma Bootstrap_policies c c' :
  tp_Runtime topo <> tp_Admin topo -> Bootstrap refused owner topo c = (Ok tt, c') -> own_policies c ->
  forall t n p, t ∈ rlsTables -> c_policies c' !! (t, n) = Some p <-> ((t, n), p) ∈ declared (tp_Admin topo).
Proof.
  intros Hne Hb Hown. destruct (Bootstrap_settles refused owner topo c c' Hne Hb) as (ownerRole & _ & Hs).
  rewrite Forall_forall in Hs.
  assert (forall s, s ∈ policies_sql (tp_Admin topo) -> settled s c') as Hset.
  { intros s Hin. apply Hs. rewrite script_parts. unfold security_sql. rewrite !elem_of_app. auto. }
  assert (forall t n p, t ∈ rlsTables -> c_policies c' !! (t, n) = Some p -> ((t, n), p) ∈ declared (tp_Admin topo)) as Hin.
  { intros t n p Ht Hp. unfold Bootstrap in Hb. apply act_bind_Ok in Hb as ([] & c1 & Hsteps & Hv%map_err_Ok).
    apply vector_indexes_end in Hv as (c2 & Hv1%best_effort_policies & Hv2%best_effort_policies).
    rewrite Hv2, Hv1 in Hp. destruct (steps_send _ _ _ _ _ Hsteps) as (r & _ & Hsend).
    destruct (exec_all_policies _ _ _ _ _ _ _ _ Hsend Hp) as [Hc|Hscript]; [|by eapply script_policies].
    destruct (Hown t n p Ht Hc) as [He|[p' Hr]]; [apply declared_In; left; by eapply ensured_any|].
    destruct (replaced_any _ (tp_Admin topo) _ _ _ Hr) as [p'' Hr']. pose proof (Hset _ Hr') as (_ & Hp'' & _).
    rewrite <- Hv1, <- Hv2 in Hp. rewrite Hp in Hp''. injection Hp'' as ->. apply declared_In. by right. }
  intros t n p Ht. split; [by apply Hin|]. intros Hd. pose proof Hd as Hd'. apply declared_In in Hd as [He|Hr].
  - destruct (Hset _ He) as [_ [p' Hp']]. rewrite Hp'. f_equal. eapply declared_unique; [by apply Hin|done].
  - by destruct (Hset _ Hr) as (_ & ? & _).
Qed.
End installed.

(** ** The checks leave the catalogue as it is, but for the probes *)

Definition but_rows (c c' : Catalog) : Prop := c' = set_workspaces (fun _ => c_workspaces c') c.
#[export] Instance but_rows_po : PreOrder but_rows.
Proof.
  split; [by intros []|]. intros a b d Hab Hbd. unfold but_rows in *. rewrite Hbd, Hab. by destruct a, b, d.
Qed.
Lemma but_rows_mod (f : gmap uuid string -> gmap uuid string) : preserves but_rows (act_mod (set_workspaces f) : act Catalog boot_err unit).
Proof. by intros []. Qed.

Lemma require_Ok {S E A} (b : bool) (e : E) (m : act S E A) s a s' :
  (if b then m else act_fail e) s = (Ok a, s') <-> b = true /\ m s = (Ok a, s').
Proof. destruct b; unfold act_fail; naive_solver. Qed.

Section checks.
Context `{RuneFold, GoURL, UuidText}.
Variable refused : string -> sql -> bool.
Variable opaque : string -> Session -> uuid -> Row -> bool.
Variable rows : string -> uuid -> option Row.
Implicit Types (c : Catalog) (s : Session).

Lemma query_keeps r what : preserves but_rows (map_err Sql (in_one r (refused r) [Query what])).
Proof. intros c. rewrite query_run. simpl. reflexivity. Qed.

Lemma read_keeps r what : preserves but_rows (read_catalog refused r what).
Proof. apply preserves_bind; [apply _|apply query_keeps|]. intros _. apply preserves_get. apply _. Qed.

#[local] Hint Resolve query_keeps read_keeps but_rows_mod but_rows_po : preserves.
Ltac keep := repeat first
  [ done | apply _ | apply query_keeps | apply read_keeps | apply but_rows_mod
  | apply preserves_ret; apply _ | apply preserves_fail; apply _ | apply preserves_get; apply _
  | apply preserves_bind; [apply _| |intros ?] | apply preserves_try | apply preserves_if | case_match ].

Lemma inWorkspace_keeps {A} r ws (fn : Session -> act Catalog boot_err A) :
  (forall s, preserves but_rows (fn s)) -> preserves but_rows (inWorkspace refused r ws fn).
Proof.
  intros Hf c. unfold inWorkspace, act_bind. rewrite query_run. destruct (refused r _); simpl; [reflexivity|].
  specialize (Hf (mkSession r (Some ws) None) c). by destruct (fn _ c) as [[a|e] c'].
Qed.

Lemma delete_keeps s id : preserves but_rows (delete_workspace refused opaque rows s id).
Proof. unfold delete_workspace. keep. Qed.
Lemma insert_keeps_rows s id name : preserves but_rows (insert_workspace refused opaque rows s id name).
Proof. unfold insert_workspace. keep. Qed.
Lemma count_keeps s id : preserves but_rows (count_workspace refused opaque rows s id).
Proof. unfold count_workspace. keep. Qed.

Lemma seed_keeps r ws name : preserves but_rows (seed_probe refused opaque rows r ws name).
Proof. apply inWorkspace_keeps. intros s. apply preserves_bind; [apply _|apply delete_keeps|]. intros _. apply insert_keeps_rows. Qed.
Lemma probes_keep r : preserves but_rows (read_probes refused opaque rows r).
Proof.
  apply inWorkspace_keeps. intros s. apply preserves_bind; [apply _|apply count_keeps|intros own].
  apply preserves_bind; [apply _|apply count_keeps|intros other]. apply preserves_ret. apply _.
Qed.
Lemma clean_keeps r ws : preserves but_rows (clean_probe refused opaque rows r ws).
Proof.
  apply preserves_bind; [apply _|apply preserves_try, inWorkspace_keeps; intros s; apply delete_keeps|intros _]. apply preserves_ret. apply _.
Qed.

Lemma isolation_keeps r : preserves but_rows (verifyIsolationLive refused opaque rows r).
Proof.
  unfold verifyIsolationLive, verdict. apply preserves_bind; [apply _|apply seed_keeps|intros _].
  apply preserves_bind; [apply _|apply seed_keeps|intros _]. apply preserves_bind; [apply _|apply probes_keep|intros x].
  apply preserves_bind; [apply _|apply clean_keeps|intros _]. apply preserves_bind; [apply _|apply clean_keeps|intros _]. keep.
Qed.

Lemma principal_keeps r e : preserves but_rows (check_principal refused r e).
Proof. unfold check_principal. keep. Qed.

Lemma security_keeps r e : preserves but_rows (VerifyRuntimeSecurity refused opaque rows r e).
Proof.
  unfold VerifyRuntimeSecurity. apply preserves_bind; [apply _|apply principal_keeps|intros _].
  apply preserves_bind; [apply _|unfold verifyTableOwnership; keep|intros _].
  apply preserves_bind; [apply _|unfold verifyRLSForced; keep|intros _]. apply isolation_keeps.
Qed.

(** What the checks that passed say. *)
Lemma principal_Ok r e c c' :
  check_principal refused r e c = (Ok tt, c') -> skips_rls c r = false /\ is_super c r = false /\ (e <> "" -> EqualFold r e = true).
Proof.
  unfold check_principal, read_catalog, skips_rls, is_super. intros Hc. apply act_bind_Ok in Hc as (x & c1 & Hr & Hc).
  apply act_bind_Ok in Hr as ([] & c2 & Hq & [= <- <-]). rewrite query_run in Hq. destruct (refused r _); [done|]. injection Hq as <-.
  destruct (c_roles c !! r) as [a|]; [|done]. destruct (negb (negb (empty e) && negb (EqualFold r e))) eqn:Ee; [|done].
  destruct (r_super a), (r_bypass a); try done. split_and!; [done..|]. intros He.
  apply negb_true_iff, andb_false_iff in Ee as [Ee|Ee]; [|by apply negb_false_iff]. apply negb_false_iff, String.eqb_eq in Ee. done.
Qed.

Lemma tables_where_nil c P t tb : tables_where c P = [] -> t ∈ rlsTables -> c_tables c !! t = Some tb -> P tb = false.
Proof.
  unfold tables_where. intros Hn Ht Hl. destruct (P tb) eqn:E; [|done]. exfalso.
  assert (In t (List.filter (fun t => match c_tables c !! t with Some tb => P tb | None => false end) rlsTables)) as Hin.
  { apply filter_In. split; [by apply list_elem_of_In|]. by rewrite Hl. }
  by rewrite Hn in Hin.
Qed.

Lemma forced_Ok r c c' :
  verifyRLSForced refused r c = (Ok tt, c') ->
  forall t, t ∈ rlsTables -> exists tb, c_tables c !! t = Some tb /\ t_rls tb = true /\ t_force tb = true.
Proof.
  unfold verifyRLSForced, read_catalog. intros Hc t Ht. apply act_bind_Ok in Hc as (x & c1 & Hr & Hc).
  apply act_bind_Ok in Hr as ([] & c2 & Hq & [= <- <-]). rewrite query_run in Hq. destruct (refused r _); [done|]. injection Hq as <-.
  cbv zeta in Hc. apply require_Ok in Hc as [E1%bool_decide_eq_true Hc]. apply require_Ok in Hc as [E2%bool_decide_eq_true Hc].
  apply require_Ok in Hc as [E3%bool_decide_eq_true _].
  destruct (c_tables c !! t) as [tb|] eqn:Hl.
  - exists tb. pose proof (tables_where_nil _ _ _ _ E2 Ht Hl) as F2. pose proof (tables_where_nil _ _ _ _ E3 Ht Hl) as F3.
    apply negb_false_iff in F2, F3. auto.
  - exfalso. assert (In t (List.filter (fun t => negb (bool_decide (is_Some (c_tables c !! t)))) rlsTables)) as Hin.
    { apply filter_In. split; [by apply list_elem_of_In|]. rewrite Hl. done. }
    by rewrite E1 in Hin.
Qed.
End checks.

(** ** Isolation *)

(** The rows of a session: of its workspace, directly or through the department
    or the team; the audit events of the organisation; the founder, and the one
    identity that is signing in. *)
Definition belongs `{UuidText} (rows : string -> uuid -> option Row) (s : Session) (t : string) (id : uuid) (row : Row) : bool :=
  let own := in_current s (rw_workspace row) in
  let through (k : option uuid) := match k with
    | Some k => match rows "departments"%string k with Some dr => in_current s (rw_workspace dr) | None => false end
    | None => false
    end in
  if (t =? "workspaces")%string then in_current s (Some id)
  else if (t =? "teams")%string then through (rw_parent row)
  else if (t =? "ai_employees")%string then
    match rw_parent row with Some k => match rows "teams"%string k with Some tr => through (rw_parent tr) | None => false end | None => false end
  else if (t =? "audit_events")%string then match rw_workspace row with None => true | w => in_current s w end
  else if (t =? "users")%string then
    rw_founder row || own || match ss_principal s with Some p => (rw_username row =? p)%string || (uuid_String id =? p)%string | None => false end
  else own.

(** Every protected table constrains [r], with the declared policies. *)
Definition governed (a r : string) (c : Catalog) : Prop :=
  (forall t, t ∈ rlsTables -> unconstrained c r t = false) /\
  (forall t n p, t ∈ rlsTables -> c_policies c !! (t, n) = Some p <-> ((t, n), p) ∈ declared a).

Lemma governed_rows a r c c' : but_rows c c' -> governed a r c -> governed a r c'.
Proof. unfold but_rows. intros ->. done. Qed.
Lemma privs_rows c c' r r' : but_rows c c' -> has_privs_of c' r r' = has_privs_of c r r'.
Proof. unfold but_rows. intros ->. done. Qed.

Section isolation.
Context `{RuneFold, GoURL, UuidText}.
Variable refused : string -> sql -> bool.
Variable opaque : string -> Session -> uuid -> Row -> bool.
Variable rows : string -> uuid -> option Row.
Variables (a r : string).

Lemma sees_governed c s d t id row :
  governed a r c -> ss_role s = r -> t ∈ rlsTables ->
  sees opaque rows (S d) c s t id row
  = existsb (fun p => applies c s p && holds opaque rows s (sees opaque rows d c s) id row (p_using p)) (policies_for a t).
Proof.
  intros [Hu Hp] Hr Ht. cbn [sees]. rewrite Hr, Hu by done. simpl. apply eq_true_iff_eq. rewrite !existsb_exists. split.
  - intros ([[t' n] p] & Hin & Hh). apply list_elem_of_In, elem_of_map_to_list in Hin. cbn [fst snd] in Hh.
    apply andb_true_iff in Hh as [[Heq Ha]%andb_true_iff Hh]. apply String.eqb_eq in Heq as ->. exists p. split; [|by rewrite Ha, Hh].
    apply list_elem_of_In, policies_for_In. exists n. by apply Hp.
  - intros (p & Hin & Hh). apply list_elem_of_In, policies_for_In in Hin as [n Hin]. apply Hp in Hin; [|done].
    exists ((t, n), p). split; [by apply list_elem_of_In, elem_of_map_to_list|]. cbn [fst snd]. by rewrite String.eqb_refl.
Qed.

(** A session of the role sees exactly what belongs to it. *)
Lemma visible_exactly c s t id row :
  governed a r c -> has_privs_of c r a = false -> ss_role s = r -> t ∈ rlsTables ->
  visible opaque rows c s t id row = belongs rows s t id row.
Proof.
  intros Hg Ha Hr Ht.
  assert (forall u, applies c s (mkPolicy None u) = true) as Hpub by done.
  assert (forall u, applies c s (mkPolicy (Some a) u) = false) as Hadm by (intros u; unfold applies; simpl; by rewrite Hr).
  assert (forall d id row, sees opaque rows (S d) c s "departments" id row = in_current s (rw_workspace row)) as Hdept.
  { intros d id' row'. rewrite sees_governed by (done || set_solver). simpl. by rewrite orb_false_r. }
  assert (forall d k, department_in rows s (sees opaque rows (S d) c s) k
    = match k with Some k => match rows "departments" k with Some dr => in_current s (rw_workspace dr) | None => false end | None => false end) as Hdin.
  { intros d [k|]; [|done]. unfold department_in. destruct (rows "departments" k); [|done]. rewrite Hdept. by rewrite andb_diag. }
  assert (forall d id row, sees opaque rows (S (S d)) c s "teams" id row = department_in rows s (sees opaque rows (S d) c s) (rw_parent row)) as Hteam.
  { intros d id' row'. rewrite sees_governed by (done || set_solver). simpl. by rewrite orb_false_r. }
  unfold visible, depth. rewrite sees_governed by done. unfold rlsTables in Ht. rewrite !elem_of_cons, elem_of_nil in Ht.
  assert (has_privs_of c (ss_role s) a = false) as Ha' by (by rewrite Hr).
  assert (team_in rows s (sees opaque rows 3 c s) (rw_parent row) = belongs rows s "ai_employees" id row) as Hemp.
  { cbn -[sees department_in]. unfold team_in. destruct (rw_parent row) as [k|]; [|done]. destruct (rows "teams" k) as [tr|]; [|done].
    rewrite Hteam, !Hdin. by rewrite andb_diag. }
  repeat (destruct Ht as [->|Ht];
    [cbn -[sees department_in team_in has_privs_of]; unfold applies; simpl p_to; cbv iota; rewrite ?Ha', ?orb_false_r; try reflexivity;
     first [exact Hemp|rewrite Hdin; reflexivity]|]).
  done.
Qed.

(** *** The canary *)

Lemma query_Ok q what c c' : map_err Sql (in_one q (refused q) [Query what]) c = (Ok tt, c') -> c' = c.
Proof. rewrite query_run. destruct (refused q _); [done|]. by intros [= <-]. Qed.

Lemma inWorkspace_Ok {A} q ws (fn : Session -> act Catalog boot_err A) c x c' :
  inWorkspace refused q ws fn c = (Ok x, c') -> fn (mkSession q (Some ws) None) c = (Ok x, c').
Proof.
  unfold inWorkspace. destruct (act_bind _ _ c) as [[y|e] c0] eqn:E; [|done]. intros [= -> ->].
  apply act_bind_Ok in E as ([] & c1 & Hq%query_Ok & Hf). by subst.
Qed.

(** Seeding leaves the probe, and every other workspace as it was. *)
Lemma seed_Ok q ws name c c' :
  seed_probe refused opaque rows q ws name c = (Ok tt, c') ->
  c_workspaces c' !! ws = Some name /\ forall k, k <> ws -> c_workspaces c' !! k = c_workspaces c !! k.
Proof.
  intros Hc%inWorkspace_Ok. apply act_bind_Ok in Hc as ([] & c1 & Hd & Hi).
  assert (forall k, k <> ws -> c_workspaces c1 !! k = c_workspaces c !! k) as Hdel.
  { unfold delete_workspace in Hd. apply act_bind_Ok in Hd as ([] & c2 & Hq%query_Ok & Hd). subst.
    apply act_bind_Ok in Hd as (x & c2 & [= <- <-] & Hd). destruct (_ && _); [|done].
    destruct (c_workspaces c !! ws); [|by injection Hd as <-]. destruct (sees_workspace _ _ _ _ _ _); injection Hd as <-; [|done].
    intros k Hk. simpl. by rewrite lookup_delete_ne. }
  unfold insert_workspace in Hi. apply act_bind_Ok in Hi as ([] & c2 & Hq%query_Ok & Hi). subst.
  apply act_bind_Ok in Hi as (x & c2 & [= <- <-] & Hi).
  do 4 (match type of Hi with (if ?b then _ else _) _ = _ => destruct b; [|done] end). injection Hi as <-. simpl. split; [by rewrite lookup_insert_eq|].
  intros k Hk. rewrite lookup_insert_ne by done. by apply Hdel.
Qed.

Lemma count_Ok s id c n c' :
  count_workspace refused opaque rows s id c = (Ok n, c') ->
  c' = c /\ n = match c_workspaces c !! id with Some name => if sees_workspace opaque rows c s id name then 1 else 0 | None => 0 end.
Proof.
  unfold count_workspace. intros Hc. apply act_bind_Ok in Hc as ([] & c2 & Hq%query_Ok & Hc). subst.
  apply act_bind_Ok in Hc as (x & c2 & [= <- <-] & Hc). destruct (has_priv _ _ _ _); [|done]. by injection Hc as <- <-.
Qed.

(** A role with the privileges of the administrative one does not pass. *)
Lemma canary_excludes_admin c c' :
  governed a r c -> verifyIsolationLive refused opaque rows r c = (Ok tt, c') -> has_privs_of c r a = false.
Proof.
  intros Hg Hc. destruct (has_privs_of c r a) eqn:Ha; [exfalso|done]. unfold verifyIsolationLive in Hc.
  apply act_bind_Ok in Hc as ([] & c1 & HA & Hc). apply act_bind_Ok in Hc as ([] & c2 & HB & Hc).
  apply act_bind_Ok in Hc as ([own other] & c3 & Hread%inWorkspace_Ok & Hc).
  assert (but_rows c c2) as Hrows.
  { pose proof (seed_keeps refused opaque rows r canaryWorkspaceA canaryNameA c) as K1. rewrite HA in K1.
    pose proof (seed_keeps refused opaque rows r canaryWorkspaceB canaryNameB c1) as K2. rewrite HB in K2. by etrans. }
  destruct (seed_Ok _ _ _ _ _ HA) as [HA1 _], (seed_Ok _ _ _ _ _ HB) as [_ HB2].
  rewrite <- HB2 in HA1 by done. clear HA HB HB2.
  apply act_bind_Ok in Hread as (n1 & c4 & [-> _]%count_Ok & Hread). apply act_bind_Ok in Hread as (n2 & c5 & [-> Hn2]%count_Ok & [= <- <- <-]).
  rewrite HA1 in Hn2.
  assert (sees_workspace opaque rows c2 (mkSession r (Some canaryWorkspaceB) None) canaryWorkspaceA canaryNameA = true) as Hsees.
  { unfold sees_workspace, visible, depth. rewrite (sees_governed c2) by (done || set_solver || by eapply governed_rows).
    simpl. unfold applies. simpl. rewrite (privs_rows _ _ _ _ Hrows), Ha. done. }
  rewrite Hsees in Hn2. subst n2. apply act_bind_Ok in Hc as ([] & c6 & _ & Hc). by apply act_bind_Ok in Hc as ([] & c7 & _ & Hc).
Qed.
End isolation.

Section served.
Context `{RuneFold, GoURL, UuidText}.
Variable refused : string -> sql -> bool.
Variable opaque : string -> Session -> uuid -> Row -> bool.
Variable rows : string -> uuid -> option Row.

Lemma security_Ok a r e c c' :
  VerifyRuntimeSecurity refused opaque rows r e c = (Ok tt, c') ->
  (forall t n p, t ∈ rlsTables -> c_policies c !! (t, n) = Some p <-> ((t, n), p) ∈ declared a) ->
  governed a r c /\ has_privs_of c r a = false /\ but_rows c c'.
Proof.
  intros Hv Hp. pose proof (security_keeps refused opaque rows r e c) as Hk. rewrite Hv in Hk. simpl in Hk. unfold VerifyRuntimeSecurity in Hv.
  apply act_bind_Ok in Hv as ([] & c1 & H1' & Hv). apply act_bind_Ok in Hv as ([] & c2 & H2' & Hv). apply act_bind_Ok in Hv as ([] & c3 & H3' & Hv).
  pose proof (principal_keeps refused r e c) as K1. unfold verifyRoleAttributes in H1'. rewrite H1' in K1. simpl in K1.
  assert (c2 = c1 /\ c3 = c2) as [-> ->].
  { split.
    - unfold verifyTableOwnership, read_catalog in H2'. apply act_bind_Ok in H2' as (x & c4 & Hr & H2').
      apply act_bind_Ok in Hr as ([] & c5 & Hq%query_Ok & [= <- <-]). subst. cbv zeta in H2'. apply require_Ok in H2' as [_ H2']. by injection H2' as <-.
    - unfold verifyRLSForced, read_catalog in H3'. apply act_bind_Ok in H3' as (x & c4 & Hr & H3').
      apply act_bind_Ok in Hr as ([] & c5 & Hq%query_Ok & [= <- <-]). subst. cbv zeta in H3'. do 3 apply require_Ok in H3' as [_ H3'].
      by injection H3' as <-. }
  destruct (principal_Ok _ _ _ _ _ H1') as (Hs & Hsup & _). pose proof (forced_Ok _ _ _ _ H3') as Hf.
  assert (governed a r c) as Hg.
  { split; [|done]. intros t Ht. destruct (Hf t Ht) as (tb & Hl & Hr & Ho). unfold unconstrained. rewrite Hs. simpl.
    unfold but_rows in K1. assert (c_tables c !! t = Some tb) as -> by (by rewrite K1 in Hl). by rewrite Hr, Ho, andb_false_r. }
  split_and!; [done| |done]. rewrite <- (privs_rows c c1 r a K1). eapply canary_excludes_admin; [|exact Hv]. by eapply governed_rows.
Qed.

Lemma topology_roles_differ Getenv o rt ad topo : ResolveTopologyWithAdmin Getenv o rt ad = Ok topo -> tp_Runtime topo <> tp_Admin topo.
Proof.
  unfold ResolveTopologyWithAdmin. intros Hr. apply res_bind_Ok in Hr as (owner & _ & Hr). cbv zeta in Hr.
  apply res_bind_Ok in Hr as (r & _ & Hr). do 3 apply guard_Ok in Hr as [_ Hr]. apply res_bind_Ok in Hr as (adm & _ & Hr).
  do 2 apply guard_Ok in Hr as [_ Hr]. apply guard_Ok in Hr as [Hne%negb_true_iff [= <-]]. simpl.
  intros Heq. by apply EqualFold_false in Hne.
Qed.
End served.

(** C22. What serving means.  When a process comes up on a database whose protected
    tables have no policies but the program's own, then whatever rows the tables
    hold later and whatever workspace or principal a session of the serving role
    is bound to, the session sees exactly the rows that the policies mean it to
    see: those of its workspace - directly, or through the department or the
    team - and, besides, the audit events without a workspace, the founder's row
    of the users table and the row of the identity that is signing in.
    That no membership gives the role the reach of the administrative one is
    what the canary finds out. *)
Theorem boot_confines `{RuneFold, GoURL, UuidText} Getenv refused connect opaque rows cfg c h c' :
  MustInitializeTopology Getenv refused connect opaque rows cfg c = (Ok h, c') -> own_policies c ->
  forall later s t id row, ss_role s = hd_Runtime h -> t ∈ rlsTables ->
    visible opaque later c' s t id row = belongs later s t id row.
Proof.
  intros Hm Hown later s t id row Hs Ht. unfold MustInitializeTopology in Hm.
  apply act_bind_Ok in Hm as (topo & c0 & Hres%map_err_Ok & Hm). injection Hres as Hres <-.
  apply act_bind_Ok in Hm as (owner & c1 & Ho & Hm). unfold openOrFail in Ho.
  apply act_bind_Ok in Ho as (x & c2 & [= <- <-] & Ho). destruct (connect c (tp_OwnerDSN topo)); [|done]. injection Ho as -> <-.
  apply act_bind_Ok in Hm as ([] & c1 & Hb & Hm). apply act_bind_Ok in Hm as (runtime & c2 & Hrt & Hm).
  apply act_bind_Ok in Hm as (admin & c3 & Had & Hm). apply act_bind_Ok in Hm as ([] & c4 & Hv & Hm).
  apply act_bind_Ok in Hm as ([] & c5 & Ha & [= <- <-]). simpl in Hs.
  unfold openOrFail in Hrt, Had. apply act_bind_Ok in Hrt as (x & c6 & [= <- <-] & Hrt), Had as (y & c7 & [= <- <-] & Had).
  destruct (connect c1 (tp_RuntimeDSN topo)); [|done]. injection Hrt as -> <-.
  destruct (connect c1 (tp_AdminDSN topo)); [|done]. injection Had as -> <-.
  assert (tp_Runtime topo <> tp_Admin topo) as Hne by (by eapply topology_roles_differ).
  destruct (security_Ok refused opaque rows (tp_Admin topo) _ _ _ _ Hv) as (Hg & Hp & Hk);
    [by eapply Bootstrap_policies|].
  pose proof (principal_keeps refused admin (tp_Admin topo) c4) as Hk'. unfold VerifyAdminRole in Ha. rewrite Ha in Hk'. simpl in Hk'.
  assert (but_rows c1 c5) as Hk2 by (by etrans).
  apply (visible_exactly refused opaque later (tp_Admin topo) runtime); [by eapply governed_rows| |done..]. by rewrite (privs_rows _ _ _ _ Hk2).
Qed.

(** C23. Running it again.  A bootstrap that went through, in either mode, run again
    on what it left goes through and changes nothing: not a table, a column, a
    constraint, an index, a role, a password, a grant or a policy. *)
Theorem bootstrap_restartable `{RuneFold, GoURL, UuidText} refused owner topo c c' :
  tp_Runtime topo <> tp_Admin topo -> Bootstrap refused owner topo c = (Ok tt, c') -> Bootstrap refused owner topo c' = (Ok tt, c').
Proof.
  intros Hne Hb. destruct (Bootstrap_settles refused owner topo c c' Hne Hb) as (ownerRole & Hown & Hs).
  pose proof (Bootstrap_keeps refused owner topo c) as K'. rewrite Hb in K'. simpl in K'.
  unfold script, scripts in Hs. apply Forall_concat in Hs.
  unfold Bootstrap in *. apply act_bind_Ok in Hb as ([] & c0 & Hsteps & Hv%map_err_Ok).
  unfold act_bind. rewrite run_steps_noop; [by apply map_err_Ok; eapply vector_indexes_again|].
  pose proof (run_steps_each (roles_kept (foreign_role topo)) _ _ _ (boot_steps_keep refused owner topo) Hsteps) as Heach. clear Hsteps. rename Heach into Hsteps.
  unfold boot_steps in *. repeat (apply Forall_cons in Hs as [? Hs]). repeat (apply Forall_cons in Hsteps as [? Hsteps]).
  repeat (apply Forall_cons; split); try apply Forall_nil_2; cbn [snd] in *; try (by apply in_one_noop); try (by apply one_by_one_noop).
  - by apply extensions_again.
  - match goal with Hr : exists c1 c2, _ /\ (if _ then _ else _) c1 = _ |- _ => destruct Hr as (c1 & c2 & ? & ?) end. by eapply roles_step_again.
  - match goal with Hr : exists c1 c2, _ /\ assertOwnership _ _ _ c1 = _ |- _ => destruct Hr as (c1 & c2 & _ & ?) end. by eapply ownership_again.
  - match goal with Hr : exists c1 c2, _ /\ setupRLSPolicies _ _ _ c1 = _ |- _ => destruct Hr as (c1 & c2 & _ & ?) end. by eapply policies_again.
Qed.

(** C24. What a role that serves is like, and whose business it is.  However a
    bootstrap ends, it has changed no role but its two, and none at all when the
    roles are provisioned elsewhere; and when it goes through, its two exist and
    hold none of the attributes that would place them above the policies. *)
Theorem bootstrap_role_scope `{RuneFold, GoURL, UuidText} refused owner topo c :
  (forall r, tp_PreProvisioned topo = true \/ (r <> tp_Runtime topo /\ r <> tp_Admin topo) ->
     c_roles (Bootstrap refused owner topo c).2 !! r = c_roles c !! r) /\
  (tp_Runtime topo <> tp_Admin topo -> (Bootstrap refused owner topo c).1 = Ok tt ->
     forall r, r ∈ [tp_Runtime topo; tp_Admin topo] ->
     exists a, c_roles (Bootstrap refused owner topo c).2 !! r = Some a /\
       r_super a = false /\ r_bypass a = false /\ r_createrole a = false /\ r_createdb a = false).
Proof.
  split; [intros r Hr; by apply (Bootstrap_keeps refused owner topo c)|]. intros Hne Hok r Hr.
  destruct (Bootstrap refused owner topo c) as [[[]|e] c'] eqn:Hb; [|done]. clear Hok. cbn [snd].
  destruct (Bootstrap_settles refused owner topo c c' Hne Hb) as (ownerRole & _ & Hs).
  destruct (tp_PreProvisioned topo) eqn:E; [by eapply preprovisioned_demoted|].
  rewrite Forall_forall in Hs. destruct (Hs (EnsureRole r)) as [(a & Ha & Hd) _].
  { rewrite script_parts. unfold security_sql, roles_sql. rewrite E, !elem_of_app. right; left; left; left.
    apply list_elem_of_In, (in_map EnsureRole), list_elem_of_In. exact Hr. }
  exists a. split; [done|]. rewrite <- Hd. done.
Qed.

(** ** Witnesses and boundary cases *)

#[local] Existing Instance ConfigProps.plain_fold.
#[local] Existing Instance ConfigProps.pg_url.
#[local] Instance no_text : UuidText := fun _ => "".

Definition demo_catalog : Catalog := set_roles <["austro"%string := mkRole true true false true true (Some "pw"%string)]> empty_catalog.
Definition demo_connect (c : Catalog) (dsn : string) : option string :=
  match roleFromDSN dsn with
  | Ok r => match c_roles c !! r with
            | Some a => if r_login a && bool_decide (r_password a = Some (passwordFromDSN dsn)) then Some r else None
            | None => None
            end
  | Err _ => None
  end.
Definition willing (r : string) (s : sql) : bool := false.
Definition closed (text : string) (s : Session) (id : uuid) (row : Row) : bool := false.
Definition nothing (t : string) (id : uuid) : option Row := None.

Definition demo_up (c : Catalog) : res boot_err Handles * Catalog :=
  MustInitializeTopology (demo_env []) willing demo_connect closed nothing demo_config c.
Definition demo_topo : Topology :=
  mkTopology "postgres://austro:pw@db:5432/austro" "postgres://austro_app:pw@db:5432/austro" "postgres://austro_app_admin:pw@db:5432/austro"
    "austro_app" "austro_app_admin" false.
Definition demo_boot (c : Catalog) : res boot_err unit * Catalog := Bootstrap willing "austro" demo_topo c.

(** A department of workspace 7 and one of workspace 8, and their teams. *)
Definition demo_rows (t : string) (id : uuid) : option Row :=
  if (t =? "departments")%string then Some (mkRow (Some id) None false "") else if (t =? "teams")%string then Some (mkRow None (Some id) false "") else None.

Lemma boot_confines_witness :
  match demo_up demo_catalog with
  | (Ok h, c') =>
      hd_Runtime h = "austro_app"%string /\
      visible closed demo_rows c' (mkSession (hd_Runtime h) (Some 7%N) None) "ai_employees" 1%N (mkRow None (Some 7%N) false "") = true /\
      visible closed demo_rows c' (mkSession (hd_Runtime h) (Some 7%N) None) "ai_employees" 1%N (mkRow None (Some 8%N) false "") = false /\
      visible closed demo_rows c' (mkSession (hd_Runtime h) None None) "tasks" 1%N (mkRow (Some 7%N) None false "") = false
  | _ => False
  end.
Proof.
  assert (match (demo_up demo_catalog).1 with Ok h => hd_Runtime h = "austro_app"%string | Err _ => False end) as Hok by (by vm_compute).
  destruct (demo_up demo_catalog) as [[h|e] c'] eqn:E; [|done]. split; [exact Hok|].
  assert (own_policies demo_catalog) as Hown by (by intros t n p _ Hp).
  pose proof (boot_confines (demo_env []) willing demo_connect closed nothing demo_config demo_catalog h c' E Hown demo_rows) as Hb.
  split_and!; (rewrite Hb; [by vm_compute|done|by apply (bool_decide_unpack _)]).
Defined.

Lemma bootstrap_restartable_witness :
  (demo_boot demo_catalog).1 = Ok tt /\ Bootstrap willing "austro" demo_topo (demo_boot demo_catalog).2 = (Ok tt, (demo_boot demo_catalog).2).
Proof.
  assert ((demo_boot demo_catalog).1 = Ok tt) as Hok by (by vm_compute). split; [exact Hok|].
  apply (bootstrap_restartable willing "austro" demo_topo demo_catalog); [discriminate|].
  exact (eq_trans (surjective_pairing _) (f_equal (fun o => (o, (demo_boot demo_catalog).2)) Hok)).
Defined.

Lemma bootstrap_role_scope_witness :
  c_roles (demo_boot demo_catalog).2 !! "austro"%string = c_roles demo_catalog !! "austro"%string /\
  exists a, c_roles (demo_boot demo_catalog).2 !! "austro_app"%string = Some a /\ r_super a = false.
Proof.
  destruct (bootstrap_role_scope willing "austro" demo_topo demo_catalog) as [Hs Hr]. split; [apply Hs; right; split; discriminate|].
  destruct (Hr ltac:(done) ltac:(by vm_compute) "austro_app"%string ltac:(by left)) as (a & Ha & Hsup & _). exists a. split; [exact Ha|exact Hsup].
Defined.

(** The canary reads one table.  A policy of another table that was changed to
    admit every row keeps its name, so it is not put back, and no check looks at
    it: the process serves, and the tasks of every workspace are visible. *)
Example drifted_policy_served :
  let drifted := set_policies <[("tasks", "workspace_isolation_policy")%string := mkPolicy None AnyRow]> (demo_boot demo_catalog).2 in
  match demo_up drifted with
  | (Ok h, c') => visible closed nothing c' (mkSession (hd_Runtime h) (Some 7%N) None) "tasks" 1%N (mkRow (Some 8%N) None false "") = true
  | _ => False
  end.
Proof. by vm_compute. Qed.

(** A serving role that was made a member of the administrative one is refused. *)
Example member_of_admin_refused :
  (demo_up (mkCatalog ∅ ∅ ∅ ∅ (c_roles demo_catalog) {[("austro_app", "austro_app_admin")%string]} ∅ [] ∅ ∅ ∅)).1 = Err (Leaks 1).
Proof. by vm_compute. Qed.

(** The probes have fixed identifiers and are committed.  Two processes of one
    deployment coming up together take them from each other: the one that reads
    after the other has cleaned up finds no row of its own, and refuses to serve
    on a database with nothing wrong. *)
Definition two_boots : act Catalog boot_err unit :=
  let seed := seed_probe willing closed nothing "austro_app" canaryWorkspaceA canaryNameA ;;!
              seed_probe willing closed nothing "austro_app" canaryWorkspaceB canaryNameB in
  let read := read_probes willing closed nothing "austro_app" in
  let clean := clean_probe willing closed nothing "austro_app" canaryWorkspaceA ;;! clean_probe willing closed nothing "austro_app" canaryWorkspaceB in
  (* the first seeds, then the second *)
  seed ;;! seed ;;!
  (* the first reads and cleans up *)
  first <~ read ;; clean ;;! verdict first ;;!
  (* the second reads *)
  second <~ read ;; clean ;;! verdict second.
Example canary_race : (two_boots (demo_boot demo_catalog).2).1 = Err (OverRestrictive 0).
Proof. by vm_compute. Qed.
