(* ===== verification/Http.v ===== *)
(** * What the HTTP handlers share

    The request as a handler sees it, the strict decoding of a body
    (internal/api/handler.go), the correlation identifiers of a request
    (internal/middleware/middleware.go), the answer, and the audit sink. *)

From S2P Require Import Prelude GoLib GoText Rbac Authz AuditChain.

(** ** Requests *)

(** What encoding/json makes of a body of at most [maxRequestBodyBytes] bytes,
    unknown fields refused: its first value, and whether another follows. *)
Record Body (A : Type) : Type := mkBody { bd_first : option A; bd_more : bool }.
Arguments mkBody {A}.
Arguments bd_first {A}.
Arguments bd_more {A}.

Record Request : Type := mkRequest {
  rq_RemoteAddr : string;
  rq_Header : string -> string;
  rq_RawQuery : string;
  rq_PathValue : string -> string;
  rq_Claims : option Claims
}.

(** [auth.FromRequest] *)
Definition FromRequest (r : Request) : option Claims := rq_Claims r.
(** [auth.WithClaims] *)
Definition WithClaims (r : Request) (c : Claims) : Request := 
  mkRequest (rq_RemoteAddr r) (rq_Header r) (rq_RawQuery r) (rq_PathValue r) (Some c).

(** [WorkspaceFromClaims] of internal/api/workspace.go *)
Definition WorkspaceFromClaims (c : Claims) : option string :=
  match cl_Role c with
  | RoleWorkspaceAdmin | RoleWorkspaceMember =>
      if String.eqb (cl_WorkspaceID c) "" then None else Some (cl_WorkspaceID c)
  | _ => None
  end.

Definition clientIP (r : Request) : string :=
  match SplitHostPort (rq_RemoteAddr r) with Ok hp => hp.1 | Err _ => rq_RemoteAddr r end.
Definition rateKey (route : string) (r : Request) : string := route +:+ ":" +:+ clientIP r.

Record ContextValues : Type := mkContextValues {
  cv_RequestID : string; cv_TraceID : string; cv_SpanID : string; cv_CorrelationID : string
}.

(** [gen] draws the identifiers that are missing. *)
Definition ExtractContextValues (gen : bool -> string) (r : Request) : ContextValues :=
  let request := rq_Header r "X-Request-ID" in
  let or_gen s b := if String.eqb s "" then gen b else s in
  let correlation := rq_Header r "X-Correlation-ID" in
  mkContextValues request (or_gen (rq_Header r "X-Trace-ID") true) (or_gen (rq_Header r "X-Span-ID") false)
    (if String.eqb correlation "" && negb (String.eqb request "") then request else correlation).

(** ** The query string (net/url) *)

(** [url.Values], in the order its map is visited. *)
Abbreviation Values := (list (string * list string)) (only parsing).
Definition values_Get (k : string) (vs : Values) : string :=
  match find (fun kv => String.eqb kv.1 k) vs with Some (_, v :: _) => v | _ => "" end.

Fixpoint values_Add (k v : string) (vs : Values) : Values :=
  match vs with
  | [] => [(k, [v])]
  | (k', l) :: vs' => if String.eqb k k' then (k', l ++ [v]) :: vs' else (k', l) :: values_Add k v vs'
  end.

Definition unhex (b : Z) : option Z :=
  if (48 <=? b)%Z && (b <=? 57)%Z then Some (b - 48)%Z
  else if (97 <=? b)%Z && (b <=? 102)%Z then Some (b - 87)%Z
  else if (65 <=? b)%Z && (b <=? 70)%Z then Some (b - 55)%Z
  else None.

(** [url.QueryUnescape] *)
Fixpoint query_unescape (l : list Z) : option (list Z) :=
  match l with
  | [] => Some []
  | b :: l' =>
      if (b =? 43)%Z then option_map (cons 32%Z) (query_unescape l')
      else if (b =? 37)%Z then
        match l' with
        | x :: y :: l'' =>
            match unhex x, unhex y, query_unescape l'' with
            | Some h, Some d, Some r => Some ((h * 16 + d)%Z :: r)
            | _, _, _ => None
            end
        | _ => None
        end
      else option_map (cons b) (query_unescape l')
  end.

(** The pairs that can be read, and whether one could not. *)
Fixpoint parse_pairs (pairs : list (list Z)) (vs : Values) (failed : bool) : Values * bool :=
  match pairs with
  | [] => (vs, failed)
  | p :: pairs' =>
      if has_byte 59 p then parse_pairs pairs' vs true
      else if bool_decide (p = []) then parse_pairs pairs' vs failed
      else
        let '(k, v) := match cut_bytes 61 p with Some kv => kv | None => (p, []) end in
        match query_unescape k, query_unescape v with
        | Some k, Some v => parse_pairs pairs' (values_Add (of_bytes k) (of_bytes v) vs) failed
        | _, _ => parse_pairs pairs' vs true
        end
  end.

(** [url.ParseQuery]: what [r.URL.Query()] returns, and whether there is an
    error. *)
Definition ParseQuery (raw : string) : Values * bool := parse_pairs (split_bytes 38 (bytes raw)) [] false.

(** ** Answers *)

(** What is written: a status with the JSON of a result, [A] being the results
    of a handler, or a status with an error message. *)
Inductive Response (A : Type) : Type :=
| Answered (status : Z) (a : A)
| Refused (status : Z) (message : string).
Arguments Answered {A}.
Arguments Refused {A}.

Definition status {A} (r : Response A) : Z := match r with Answered s _ | Refused s _ => s end.
Definition is_success (s : Z) : bool := (200 <=? s)%Z && (s <? 300)%Z.

(** A handler over the state [S]: it returns where it has answered, early
    included.  A call of the layers below hands back its error. *)
Definition handler (S A : Type) : Type := act S (Response A) (Response A).
Definition respond {S A} (m : handler S A) (s : S) : Response A * S :=
  match m s with (Ok r, s') | (Err r, s') => (r, s') end.
Definition attempt {S E E' A} (m : act S E A) : act S E' (res E A) := fun s => let '(r, s') := m s in (Ok r, s').

Definition invalid_body {A} : Response A := Refused 400 "invalid request body".
Definition decodeJSON {R A} (b : Body A) : res (Response R) A :=
  match bd_first b with
  | Some a => if bd_more b then Err invalid_body else Ok a
  | None => Err invalid_body
  end.

(** ** The audit sink *)

Inductive sink_err : Type := ErrAuditUnavailable | ErrSink (msg : string).

(** No sink, or one that answers each record with its failure, if any. *)
Definition Sink : Type := option (nat -> option string).

Section audit.
Context `{UuidParse}.

(** [parseActorID] *)
Definition parseActorID (id : string) : uuid :=
  if String.eqb id "" then uuid_Nil else match uuid_Parse id with Some u => u | None => uuid_Nil end.

(** A record with the correlation of the request; [with_span] for the handlers
    that set the span. *)
Definition correlated (with_span : bool) (cv : ContextValues) (rec : AuditInput) : AuditInput :=
  mkRecord (i_EventType rec) (i_ActorType rec) (i_ActorID rec) (i_TargetType rec) (i_TargetID rec) (i_Outcome rec)
    (i_Principle rec) (i_WorkspaceID rec)
    (match uuid_Parse (cv_TraceID cv) with Some u => u | None => i_TraceID rec end)
    (if with_span then match uuid_Parse (cv_SpanID cv) with Some u => u | None => i_SpanID rec end else i_SpanID rec).

(** A record of the audit chain with its detail, empty when none is given. *)
Record Audited : Type := mkAudited { aa_Record : AuditInput; aa_Detail : string }.

(** One append to the sink, at its [at]-th use: the record is kept, or the
    error returned. *)
Definition sink_append {A} (sink : Sink) (at_ : nat) (rec : A) (kept : list A) : res sink_err unit * list A :=
  match sink with
  | None => (Err ErrAuditUnavailable, kept)
  | Some f => match f at_ with Some e => (Err (ErrSink e), kept) | None => (Ok tt, rec :: kept) end
  end.
End audit.

(** ** Reasoning about handlers

    From [P], [m] ends with a value in [Q], or has answered in [Z]. *)

Definition replies {S E A : Type} (P : S -> Prop) (m : act S E A) (Q : A -> S -> Prop) (Z : E -> S -> Prop) : Prop :=
  forall s, P s -> match m s with (Ok a, s') => Q a s' | (Err e, s') => Z e s' end.

Section replies_rules.
Context {S E : Type}.
Implicit Types (P : S -> Prop) (Z : E -> S -> Prop).

Lemma replies_ret {A} P (a : A) (Q : A -> S -> Prop) Z : (forall s, P s -> Q a s) -> replies P (act_ret a) Q Z.
Proof. intros HQ s. apply HQ. Qed.
Lemma replies_fail {A} P e (Q : A -> S -> Prop) Z : (forall s, P s -> Z e s) -> replies P (act_fail e) Q Z.
Proof. intros HZ s. apply HZ. Qed.
Lemma replies_lift {A} P (r : res E A) (Q : A -> S -> Prop) Z :
  (forall s, P s -> match r with Ok a => Q a s | Err e => Z e s end) -> replies P (act_lift r) Q Z.
Proof. intros H s Hs. unfold act_lift. specialize (H s Hs). by destruct r. Qed.
Lemma replies_bind {A B} P (m : act S E A) (f : A -> act S E B) Q R Z :
  replies P m Q Z -> (forall a, replies (Q a) (f a) R Z) -> replies P (act_bind m f) R Z.
Proof. intros Hm Hf s Hs. specialize (Hm s Hs). unfold act_bind. destruct (m s) as [[a|e] s']; [by apply Hf|done]. Qed.
Lemma replies_if {A} P (b : bool) (m1 m2 : act S E A) Q Z :
  (b = true -> replies P m1 Q Z) -> (b = false -> replies P m2 Q Z) -> replies P (if b then m1 else m2) Q Z.
Proof. destruct b; auto. Qed.
Lemma replies_weaken {A} P P' (m : act S E A) Q Q' Z Z' :
  replies P' m Q' Z' -> (forall s, P s -> P' s) -> (forall a s, Q' a s -> Q a s) -> (forall e s, Z' e s -> Z e s) -> replies P m Q Z.
Proof. intros Hm HP HQ HZ s Hs. specialize (Hm s (HP s Hs)). destruct (m s) as [[a|e] s']; auto. Qed.
Lemma replies_attempt {A E'} P (m : act S E' A) (Q : res E' A -> S -> Prop) Z :
  (forall s, P s -> Q (m s).1 (m s).2) -> replies P (attempt m) Q Z.
Proof. intros HQ s Hs. specialize (HQ s Hs). unfold attempt. by destruct (m s). Qed.
(** A pure fact of the state before. *)
Lemma replies_pure {A} (F : Prop) P (m : act S E A) Q Z : (F -> replies P m Q Z) -> replies (fun s => F /\ P s) m Q Z.
Proof. intros Hm s [HF Hs]. by apply Hm. Qed.
End replies_rules.

Lemma respond_replies {S A} P (m : handler S A) (Q : Response A -> S -> Prop) s :
  replies P m Q Q -> P s -> Q (respond m s).1 (respond m s).2.
Proof. intros Hm Hs. specialize (Hm s Hs). unfold respond. by destruct (m s) as [[r|r] s']. Qed.
