(* ===== verification/Surface.v ===== *)
(** * Handlers over one service

    What the workspace-scoped handlers of internal/api share: the caller and the
    workspace of verified claims, the audit record of a decision, best effort or
    fail closed, the checks of a request before the service is called, the caller
    a change is signed with, and what a request of one workspace may do to a
    table every workspace shares. *)

From S2P Require Import Prelude GoLib GoText Keyset Rbac Authz AuditChain Http.

(** The state of a service, what the audit sink has kept, latest first, and the
    uses of the sink so far. *)
Record Front (W : Type) : Type := mkFront { fr_svc : W; fr_audit : list Audited; fr_at : nat }.
Arguments mkFront {W}.
Arguments fr_svc {W}.
Arguments fr_audit {W}.
Arguments fr_at {W}.

(** How the records of a handler read: the prefix of its event types, the suffix
    trimmed from its action names, its target type and its principle. *)
Record Surface : Type := mkSurface { sf_Event : string; sf_Suffix : string; sf_Target : string; sf_Principle : string }.

Definition forbidden {A} : Response A := Refused 403 "forbidden".
Definition audit_unavailable {A} : Response A := Refused 500 "audit unavailable".
Definition internal_error {A} : Response A := Refused 500 "internal error".

(** Formatting to the second drops the fraction. *)
Definition to_second (t : time) : time := (t / 1000000000 * 1000000000)%Z.

Notation "'check!' b 'else' m ';;' k" := (if b then k else m)
  (at level 100, b at level 99, m at level 99, k at level 100, right associativity) : austro_scope.

Section surface.
Context `{UuidText, UuidParse, MapOrder}.
Context {W E A : Type}.
Variable draw_header : nat -> bool -> string.
Variable sink : Sink.
Variable sf : Surface.
Variable r : Request.

Abbreviation M := (act (Front W) (Response A)).

(** A call of the service. *)
Definition svc {B} (m : act W E B) : M (res E B) := fun s =>
  let '(x, w) := m (fr_svc s) in (Ok x, mkFront w (fr_audit s) (fr_at s)).

(** [appendAudit]: the record of a decision *)
Definition decision (claims : Claims) (action : string) (target ws : uuid) (outcome detail : string) : Audited :=
  mkAudited (mkRecord (sf_Event sf +:+ TrimSuffix action (sf_Suffix sf)) "user" (parseActorID (cl_ID claims)) (sf_Target sf) target
               outcome (sf_Principle sf) (if (ws =? uuid_Nil)%N then None else Some ws) uuid_Nil uuid_Nil) detail.

Definition appendAudit (claims : Claims) (action : string) (target ws : uuid) (outcome detail : string)
  : M (res sink_err unit) := fun s =>
  let cv := ExtractContextValues (draw_header (fr_at s)) r in
  let rec := decision claims action target ws outcome detail in
  let '(res, kept) := sink_append sink (fr_at s) (mkAudited (correlated false cv (aa_Record rec)) (aa_Detail rec)) (fr_audit s) in
  (Ok res, mkFront (fr_svc s) kept (S (fr_at s))).

(** Best effort: the outcome of the append is dropped. *)
Definition record (claims : Claims) (action : string) (target ws : uuid) (outcome detail : string) : M unit :=
  appendAudit claims action target ws outcome detail ;;! act_ret tt.

(** Fail closed. *)
Definition recordSuccess (claims : Claims) (action : string) (target ws : uuid) (detail : string) : M unit :=
  res <~ appendAudit claims action target ws "success" detail ;;
  require! match res with Ok _ => true | Err _ => false end else audit_unavailable ;;
  act_ret tt.

(** A recorded refusal. *)
Definition failing {B} (claims : Claims) (action : string) (target ws : uuid) (outcome detail : string) (answer : Response A) : M B :=
  record claims action target ws outcome detail ;;! act_fail answer.

Definition decoded {B} (body : Body B) (otherwise : Response A -> M B) : M B :=
  match decodeJSON body with Ok req => act_ret req | Err e => otherwise e end.

(** [scope]; [malformed] where a workspace claim that is no identifier is
    recorded. *)
Definition scope (malformed : bool) (action : string) : M (Claims * uuid) :=
  match FromRequest r with
  | None => act_fail (Refused 401 "unauthorized")
  | Some claims =>
      match WorkspaceFromClaims claims with
      | None => failing claims action uuid_Nil uuid_Nil "denied" "no_workspace_context" forbidden
      | Some binding =>
          match uuid_Parse binding with
          | None =>
              if malformed then failing claims action uuid_Nil uuid_Nil "denied" "invalid_workspace_claim" forbidden
              else act_fail forbidden
          | Some ws => act_ret (claims, ws)
          end
      end
  end.

(** The identifier of the path. *)
Definition idFromPath (message : string) : M uuid :=
  match uuid_Parse (rq_PathValue r "id") with
  | None => act_fail (Refused 400 message)
  | Some id => act_ret id
  end.

(** An optional field of a body. *)
Definition field {B} (o : option string) (read : string -> M B) : M (option B) :=
  match o with None => act_ret None | Some v => b <~ read v ;; act_ret (Some b) end.

(** *** The query string *)

(** The values of a query in which every parameter is known; [said] answers a
    refusal, recorded or not. *)
Definition known_values (known : list string) (said : string -> Response A -> M Values) : M Values :=
  let '(vs, failed) := ParseQuery (rq_RawQuery r) in
  if failed then said "malformed_query" (Refused 400 "malformed query string")
  else
    match find (fun kv => negb (existsb (String.eqb kv.1) known)) (map_order vs) with
    | Some (key, _) => said "unknown_parameter" (Refused 400 ("unsupported query parameter: " +:+ key))
    | None => act_ret vs
    end.

(** A refusal that records nothing. *)
Definition silent {B} (detail : string) (answer : Response A) : M B := act_fail answer.

(** An optional parameter: absent when empty. *)
Definition optional {B} (v : string) (parse : string -> option B) (otherwise : M (option B)) : M (option B) :=
  if String.eqb v "" then act_ret None
  else match parse v with Some b => act_ret (Some b) | None => otherwise end.

Definition Limit (low : Z) (v : string) : option Z :=
  match ParseInt v with Some n => if (low <=? n)%Z then Some n else None | None => None end.
End surface.

(** The caller of a request and the workspace it acts in. *)
Definition caller `{UuidParse} (r : Request) : option (Claims * uuid) :=
  match FromRequest r with
  | None => None
  | Some claims =>
      match WorkspaceFromClaims claims with
      | None => None
      | Some binding => match uuid_Parse binding with Some ws => Some (claims, ws) | None => None end
      end
  end.

(** ** Reasoning about handlers over a service

    [safe J G m Φ]: from a service state in [J], [m] ends in [J], with a value
    in [Φ] or with an answer in [G]. *)
Section safe.
Context `{UuidText, UuidParse, MapOrder}.
Context {W E A : Type}.
Variable J : W -> Prop.
Variable G : Response A -> Prop.
Hypothesis refusals : forall code msg, (400 <= code)%Z -> G (Refused code msg).

Definition safe {B} (m : act (Front W) (Response A) B) (Φ : B -> Prop) : Prop :=
  replies (fun s => J (fr_svc s)) m (fun b s => Φ b /\ J (fr_svc s)) (fun resp s => G resp /\ J (fr_svc s)).

Lemma safe_ret {B} (b : B) (Φ : B -> Prop) : Φ b -> safe (act_ret b) Φ.
Proof. intros Hb s Hs. done. Qed.
Lemma safe_answer {B} resp (Φ : B -> Prop) : G resp -> safe (act_fail resp) Φ.
Proof. intros Hb s Hs. done. Qed.
Lemma safe_refuse {B} code msg (Φ : B -> Prop) : (400 <= code)%Z -> safe (act_fail (Refused code msg)) Φ.
Proof. intros Hb. by apply safe_answer, refusals. Qed.
Lemma safe_bind {B C} (m : act (Front W) (Response A) B) (f : B -> act (Front W) (Response A) C) Φ Ψ :
  safe m Φ -> (forall b, Φ b -> safe (f b) Ψ) -> safe (act_bind m f) Ψ.
Proof.
  intros Hm Hf s Hs. specialize (Hm s Hs). unfold act_bind. destruct (m s) as [[b|e] s']; [|done].
  destruct Hm as [Hb Hs']. by apply Hf.
Qed.
Lemma safe_weaken {B} (m : act (Front W) (Response A) B) (Φ Ψ : B -> Prop) : safe m Φ -> (forall b, Φ b -> Ψ b) -> safe m Ψ.
Proof. intros Hm HΦ s Hs. specialize (Hm s Hs). destruct (m s) as [[b|e] s']; [|done]. destruct Hm. split; auto. Qed.

Section rules.
Variable draw_header : nat -> bool -> string.
Variable sink : Sink.
Variable sf : Surface.
Variable r : Request.

Lemma appendAudit_svc claims action target ws outcome detail s : exists res s',
  appendAudit (W := W) (A := A) draw_header sink sf r claims action target ws outcome detail s = (Ok res, s') /\ fr_svc s' = fr_svc s.
Proof. unfold appendAudit. destruct (sink_append _ _ _ _) as [res kept]. by eexists _, _. Qed.

Lemma safe_record claims action target ws outcome detail :
  safe (record draw_header sink sf r claims action target ws outcome detail) (fun _ => True).
Proof.
  intros s Hs. unfold record, act_bind. destruct (appendAudit_svc claims action target ws outcome detail s) as (res & s' & -> & Hw).
  simpl. by rewrite Hw.
Qed.
Lemma safe_failing {B} claims action target ws outcome detail resp (Φ : B -> Prop) :
  G resp -> safe (failing draw_header sink sf r claims action target ws outcome detail resp) Φ.
Proof. intros Hr. eapply safe_bind; [apply safe_record|]. intros _ _. by apply safe_answer. Qed.
Lemma safe_success claims action target ws detail :
  safe (recordSuccess draw_header sink sf r claims action target ws detail) (fun _ => True).
Proof.
  intros s Hs. unfold recordSuccess, act_bind. destruct (appendAudit_svc claims action target ws "success" detail s) as (res & s' & -> & Hw).
  destruct res; simpl; rewrite Hw; [done|]. split; [|done]. by apply refusals.
Qed.
Lemma safe_svc {B} (m : act W E B) (Φ : B -> Prop) :
  (forall w, J w -> J (m w).2 /\ forall b w', m w = (Ok b, w') -> Φ b) ->
  safe (svc m) (fun x => match x with Ok b => Φ b | Err _ => True end).
Proof.
  intros Hm s Hs. unfold svc. destruct (Hm _ Hs) as [HJ HΦ]. destruct (m (fr_svc s)) as [[b|e] w]; simpl in *; [|done].
  split; [by eapply HΦ|done].
Qed.
Lemma safe_scope malformed action : safe (scope draw_header sink sf r malformed action) (fun cw => caller r = Some cw).
Proof.
  unfold scope, caller. destruct (FromRequest r) as [claims|]; [|by apply safe_refuse].
  destruct (WorkspaceFromClaims claims) as [binding|]; [|by apply safe_failing, refusals].
  destruct (uuid_Parse binding) as [ws|]; [by apply safe_ret|].
  destruct malformed; [by apply safe_failing, refusals|by apply safe_refuse].
Qed.
Lemma safe_idFromPath msg : safe (idFromPath r msg) (fun _ => True).
Proof. unfold idFromPath. destruct (uuid_Parse _); [by apply safe_ret|by apply safe_refuse]. Qed.
Lemma safe_known_values known said :
  (forall d m, safe (said d (Refused 400 m)) (fun _ => True)) -> safe (known_values r known said) (fun _ => True).
Proof.
  intros Hs. unfold known_values. destruct (ParseQuery _) as [vs []]; [apply Hs|].
  destruct (find _ _) as [[key l]|]; [apply Hs|by apply safe_ret].
Qed.
End rules.

Lemma safe_decoded {B} (body : Body B) otherwise :
  (forall m, safe (otherwise (Refused 400 m)) (fun _ => True)) -> safe (decoded body otherwise) (fun _ => True).
Proof.
  intros Ho. unfold decoded, decodeJSON. destruct (bd_first body); [destruct (bd_more body)|]; [apply Ho|by apply safe_ret|apply Ho].
Qed.
Lemma safe_field {B} o (read : string -> act (Front W) (Response A) B) :
  (forall v, safe (read v) (fun _ => True)) -> safe (field o read) (fun _ => True).
Proof.
  intros Hr. unfold field. destruct o as [v|]; [|by apply safe_ret]. eapply safe_bind; [apply Hr|]. intros b _. by apply safe_ret.
Qed.
Lemma safe_optional {B} v (parse : string -> option B) otherwise :
  safe otherwise (fun _ => True) -> safe (optional v parse otherwise) (fun _ => True).
Proof. intros Ho. unfold optional. destruct (String.eqb _ _); [by apply safe_ret|]. destruct (parse v); [by apply safe_ret|done]. Qed.

(** Without a caller a handler that begins with [scope] answers there. *)
Lemma respond_no_caller draw_header sink sf r malformed action (f : Claims * uuid -> handler (Front W) A) s :
  caller r = None -> exists code msg s',
  respond (act_bind (scope draw_header sink sf r malformed action) f) s = (Refused code msg, s') /\
  (code = 401 \/ code = 403)%Z /\ fr_svc s' = fr_svc s.
Proof.
  assert (forall claims d, exists s', failing (B := Claims * uuid) (W := W) (A := A) draw_header sink sf r claims action uuid_Nil uuid_Nil "denied" d
    forbidden s = (Err forbidden, s') /\ fr_svc s' = fr_svc s) as Hf.
  { intros claims d. unfold failing, record, act_bind. destruct (appendAudit_svc draw_header sink sf r claims action uuid_Nil uuid_Nil "denied" d s) as (res & s' & -> & Hw). by exists s'. }
  unfold caller, scope, respond, act_bind. destruct (FromRequest r) as [claims|]; [|intros _; eexists _, _, _; split_and!; [done|by left|done]].
  destruct (WorkspaceFromClaims claims) as [b|].
  - destruct (uuid_Parse b) as [ws|]; [done|]. intros _. destruct malformed.
    + destruct (Hf claims "invalid_workspace_claim"%string) as (s' & -> & Hs). eexists _, _, _. split_and!; [done|by right|done].
    + eexists _, _, _. split_and!; [done|by right|done].
  - intros _. destruct (Hf claims "no_workspace_context"%string) as (s' & -> & Hs). eexists _, _, _. split_and!; [done|by right|done].
Qed.

(** What a safe handler answers. *)
Lemma respond_safe (m : handler (Front W) A) s : safe m G -> J (fr_svc s) -> G (respond m s).1 /\ J (fr_svc (respond m s).2).
Proof. intros Hm Hs. specialize (Hm s Hs). unfold respond. by destruct (m s) as [[|] ?]. Qed.
End safe.

(** ** What is recorded when a handler succeeds *)

(** A record of [sf] for the caller [claims]: its event, target and detail. *)
Definition records `{UuidParse} (sf : Surface) (claims : Claims) (action : string) (target ws : uuid) (detail : string) (a : Audited) : Prop :=
  i_EventType (aa_Record a) = sf_Event sf +:+ TrimSuffix action (sf_Suffix sf) /\ i_ActorType (aa_Record a) = "user"%string /\
  i_ActorID (aa_Record a) = parseActorID (cl_ID claims) /\ i_TargetType (aa_Record a) = sf_Target sf /\
  i_TargetID (aa_Record a) = target /\ i_Outcome (aa_Record a) = "success"%string /\
  i_WorkspaceID (aa_Record a) = (if (ws =? uuid_Nil)%N then None else Some ws) /\ aa_Detail a = detail.

Section recorded.
Context `{UuidText, UuidParse, MapOrder}.
Context {W A : Type}.
(** What an answer should have left as the latest record. *)
Variable D : Response A -> Audited -> Prop.

Definition ends_recorded (m : handler (Front W) A) : Prop := forall s,
  let '(resp, s') := respond m s in is_success (status resp) = true -> exists a l, fr_audit s' = a :: l /\ D resp a.

Definition refusal (resp : Response A) : Prop := is_success (status resp) = false.

Lemma refusal_refused code msg : (400 <= code)%Z -> refusal (Refused code msg).
Proof. unfold refusal, is_success. simpl. intros Hc. apply andb_false_iff. right. lia. Qed.

Lemma recorded_bind {B} (m : act (Front W) (Response A) B) f (Φ : B -> Prop) :
  safe (fun _ => True) refusal m Φ -> (forall b, Φ b -> ends_recorded (f b)) -> ends_recorded (act_bind m f).
Proof.
  intros Hm Hf s. specialize (Hm s I). unfold respond, act_bind. destruct (m s) as [[b|resp] s'].
  - destruct Hm as [Hb _]. apply (Hf b Hb s').
  - destruct Hm as [Hr _]. unfold refusal in Hr. by rewrite Hr.
Qed.

Lemma recorded_fails (m : handler (Front W) A) : safe (fun _ => True) refusal m (fun _ => False) -> ends_recorded m.
Proof.
  intros Hm s. specialize (Hm s I). unfold respond. destruct (m s) as [[b|resp] s']; [by destruct Hm|].
  destruct Hm as [Hr _]. unfold refusal in Hr. by rewrite Hr.
Qed.

Lemma recorded_tail draw_header sink sf r claims action target ws detail resp :
  (forall a, records sf claims action target ws detail a -> D resp a) ->
  ends_recorded (act_bind (recordSuccess draw_header sink sf r claims action target ws detail) (fun _ => act_ret resp)).
Proof.
  intros HD s. unfold respond, recordSuccess, appendAudit, act_bind, sink_append. destruct sink as [f|]; [|done].
  destruct (f _) as [e|]; [done|]. simpl. intros _. eexists _, _. split; [done|]. by apply HD.
Qed.
End recorded.

(** An operation that leaves the service alone answers in [G], or goes on. *)
Lemma quiet_in {W A B} (G : Response A -> Prop) (m : act (Front W) (Response A) B) (Φ : B -> Prop) s :
  (forall w, safe (eq w) G m Φ) ->
  (exists resp s', m s = (Err resp, s') /\ G resp /\ fr_svc s' = fr_svc s) \/
  (exists b s', m s = (Ok b, s') /\ Φ b /\ fr_svc s' = fr_svc s).
Proof.
  intros Hm. specialize (Hm (fr_svc s) s eq_refl). destruct (m s) as [[b|resp] s'] eqn:E.
  - right. exists b, s'. by destruct Hm as [? <-].
  - left. exists resp, s'. by destruct Hm as [? <-].
Qed.
Definition quiet_cases {W A B} := @quiet_in W A B refusal.

(** The same for a handler that begins with it: [P] is to hold of such an
    answer, and of what the rest ends with. *)
Lemma respond_quiet {W A B} (G : Response A -> Prop) (P : Response A -> Front W -> Prop) (m : act (Front W) (Response A) B)
    (f : B -> handler (Front W) A) (Φ : B -> Prop) s :
  (forall w, safe (eq w) G m Φ) ->
  (forall resp s', G resp -> fr_svc s' = fr_svc s -> P resp s') ->
  (forall b s', Φ b -> fr_svc s' = fr_svc s -> let '(resp, s'') := respond (f b) s' in P resp s'') ->
  let '(resp, s') := respond (act_bind m f) s in P resp s'.
Proof.
  intros Hm Hr Hf. unfold respond, act_bind.
  destruct (quiet_in G m Φ s Hm) as [(resp & s' & -> & ? & ?)|(b & s' & -> & HΦ & E)]; [by apply Hr|]. by apply (Hf b s').
Qed.

(** A handler that only answers in [G]. *)
Lemma respond_only {W A} (G : Response A -> Prop) (m : handler (Front W) A) s :
  (forall w, safe (eq w) G m (fun _ => False)) -> G (respond m s).1 /\ fr_svc (respond m s).2 = fr_svc s.
Proof.
  intros Hm. unfold respond. destruct (quiet_in G m (fun _ => False) s Hm) as [(resp & s' & -> & ? & ?)|(b & s' & _ & [] & _)]. done.
Qed.

(** One step of a handler, by the rule of its first operation. *)
Ltac safe_step :=
  first
    [ apply safe_refuse; [assumption|done]
    | apply safe_failing; match goal with Hr : forall code msg, _ -> ?G _ |- ?G _ => by apply Hr end
    | apply safe_record
    | apply safe_success; assumption
    | apply safe_scope; assumption
    | apply safe_idFromPath; assumption
    | apply safe_known_values; [intros ? ?]
    | apply safe_decoded; intros ?
    | apply safe_field; intros ?
    | apply safe_optional
    | by apply safe_ret
    | eapply safe_bind; [|intros ? ?]
    | match goal with
      | |- safe _ _ (if ?b then _ else _) _ => destruct b
      | |- safe _ _ (match ?x with _ => _ end) _ => destruct x
      | |- safe _ _ (let _ := _ in _) _ => cbv zeta
      end
    ].

(** The same for what a success records. *)
Ltac recorded_step :=
  first
    [ solve [apply recorded_fails; safe_step]
    | eapply recorded_bind; [solve [repeat safe_step]|intros ? ?]
    | match goal with
      | |- ends_recorded _ (if ?b then _ else _) => destruct b
      | |- ends_recorded _ (match ?x with _ => _ end) => destruct x
      | |- ends_recorded _ (let _ := _ in _) => cbv zeta
      end
    ].

(** ** Handlers of named operations

    What the publication and pipeline handlers of internal/api share: claims
    strict enough to sign a decision with, an operation without a body, the
    identifier of the path, the correlation identifiers of the request. *)


Section signatory.
Context `{UuidText, UuidParse, MapOrder}.
Context {W A : Type}.
Variable draw_header : nat -> bool -> string.
Variable r : Request.

Abbreviation M := (act (Front W) (Response A)).

(** The [scope] of both handlers; [no_id] is their test of an empty
    identifier. *)
Definition signed_scope (no_id : string -> bool) : M (Claims * uuid) :=
  match FromRequest r with
  | None => act_fail (Refused 401 "unauthorized")
  | Some claims =>
      check! ValidRole (cl_Role claims) && negb (no_id (cl_ID claims)) else act_fail forbidden ;;
      check! bool_decide (is_Some (uuid_Parse (cl_ID claims))) else act_fail forbidden ;;
      match WorkspaceFromClaims claims with
      | None => act_fail forbidden
      | Some binding =>
          match uuid_Parse binding with
          | Some ws => check! negb (ws =? uuid_Nil)%N else act_fail forbidden ;; act_ret (claims, ws)
          | None => act_fail forbidden
          end
      end
  end.

(** The body as it is read, unless reading fails. *)
Definition emptyBody (body : option string) : M unit :=
  check! bool_decide (body = Some ""%string) else act_fail (Refused 400 "operation does not accept a request body") ;;
  act_ret tt.

Definition namedID (message : string) : M uuid :=
  match uuid_Parse (rq_PathValue r "id") with
  | Some id => check! negb (id =? uuid_Nil)%N else act_fail (Refused 400 message) ;; act_ret id
  | None => act_fail (Refused 400 message)
  end.

Definition contextValues : M ContextValues := fun s =>
  (Ok (ExtractContextValues (draw_header (fr_at s)) r), mkFront (fr_svc s) (fr_audit s) (S (fr_at s))).

(** The header that makes a creation repeatable. *)
Definition idempotencyKey : M string :=
  let key := TrimSpace (rq_Header r "Idempotency-Key") in
  check! (String.length key <=? 128)%nat else act_fail (Refused 400 "idempotency key is too long") ;;
  act_ret key.
End signatory.

(** The signatory of a request and its workspace. *)
Definition signatory `{UuidParse} (no_id : string -> bool) (r : Request) : option (Claims * uuid) :=
  match caller r with
  | Some (claims, ws) =>
      if ValidRole (cl_Role claims) && negb (no_id (cl_ID claims)) && bool_decide (is_Some (uuid_Parse (cl_ID claims))) &&
         negb (ws =? uuid_Nil)%N
      then Some (claims, ws) else None
  | None => None
  end.

Section rules.
Context `{UuidText, UuidParse, MapOrder}.
Context {W A : Type}.
Variable J : W -> Prop.
Variable G : Response A -> Prop.
Hypothesis refusals : forall code msg, (400 <= code)%Z -> G (Refused code msg).

(** Either the request has no signatory and the answer is a refusal there and
    then, or the handler goes on with it. *)
Lemma signed_scope_cases no_id r s :
  match signatory no_id r with
  | Some cw => signed_scope (W := W) (A := A) r no_id s = (Ok cw, s)
  | None => exists code msg, (code = 401 \/ code = 403)%Z /\ signed_scope (W := W) (A := A) r no_id s = (Err (Refused code msg), s)
  end.
Proof.
  unfold signatory, caller, signed_scope. destruct (FromRequest r) as [claims|]; [|exists 401%Z, "unauthorized"%string; by split; [left|]].
  destruct (ValidRole _ && negb (no_id _)) eqn:Hv; simpl.
  - destruct (bool_decide _) eqn:Hi; simpl.
    + destruct (WorkspaceFromClaims claims) as [b|]; [|exists 403%Z, "forbidden"%string; by split; [right|]].
      destruct (uuid_Parse b) as [ws|]; [|exists 403%Z, "forbidden"%string; by split; [right|]].
      rewrite Hv. destruct (ws =? uuid_Nil)%N; simpl; rewrite ?Hi; [exists 403%Z, "forbidden"%string; by split; [right|]|done].
    + destruct (WorkspaceFromClaims claims) as [b|]; [destruct (uuid_Parse b)|];
        rewrite ?Hv, ?Hi; (exists 403%Z, "forbidden"%string; by split; [right|]).
  - destruct (WorkspaceFromClaims claims) as [b|]; [destruct (uuid_Parse b)|];
      rewrite ?Hv; (exists 403%Z, "forbidden"%string; by split; [right|]).
Qed.

Lemma safe_signed_scope no_id r : safe J G (signed_scope r no_id) (fun cw => signatory no_id r = Some cw).
Proof.
  intros s Hs. pose proof (signed_scope_cases no_id r s) as Hc. destruct (signatory no_id r) as [cw|].
  - by rewrite Hc.
  - destruct Hc as (code & msg & Hc & ->). split; [|done]. apply refusals. lia.
Qed.

Lemma safe_emptyBody body : safe J G (emptyBody (W := W) (A := A) body) (fun _ => True).
Proof. unfold emptyBody. destruct (bool_decide _); by safe_step. Qed.

Lemma safe_namedID r msg : safe J G (namedID (W := W) (A := A) r msg) (fun _ => True).
Proof. unfold namedID. destruct (uuid_Parse _) as [id|]; [destruct (negb _)|]; by safe_step. Qed.

Lemma safe_contextValues draw_header r : safe J G (contextValues (W := W) (A := A) draw_header r) (fun _ => True).
Proof. by intros s Hs. Qed.

Lemma safe_idempotencyKey r : safe J G (idempotencyKey (W := W) (A := A) r) (fun _ => True).
Proof. unfold idempotencyKey. cbv zeta. destruct (_ <=? _)%nat; by safe_step. Qed.
End rules.

Ltac signed_step :=
  first
    [ apply safe_signed_scope; assumption
    | apply safe_emptyBody; assumption
    | apply safe_namedID; assumption
    | apply safe_contextValues
    | apply safe_idempotencyKey; assumption
    | safe_step ].

(** ** Requests that stay in one workspace

    What a request under claims of one workspace may do to the rows of a table
    every workspace shares: a row is left alone, or it is one of that workspace
    before and after.  The relation is transitive, so it goes through a whole
    handler, whatever other requests write between two statements. *)


Section rows.
Context {DB Row : Type}.
Variable rows : DB -> gmap uuid Row.
Variable owner : Row -> uuid.
(** What is known of an identifier in use. *)
Variable okay : uuid -> DB -> Prop.

Definition ours (ws : uuid) (o : option Row) : Prop := forall x, o = Some x -> owner x = ws.

Definition confined (ws i : uuid) (db db' : DB) : Prop := okay i db ->
  okay i db' /\ (rows db' !! i = rows db !! i \/ (ours ws (rows db !! i) /\ ours ws (rows db' !! i))).

#[export] Instance confined_preorder ws i : PreOrder (confined ws i).
Proof.
  split.
  - intros db Hb. split; [done|by left].
  - intros a b c H1 H2 Hb. destruct (H1 Hb) as [Hb' C1]. destruct (H2 Hb') as [Hb'' C2]. split; [done|].
    destruct C1 as [E1|[A1 B1]], C2 as [E2|[A2 B2]]; [left; congruence|right..]; [by rewrite <- E1|by rewrite E2|done].
Qed.

(** A row of [ws] is written over nothing, or over a row of [ws]. *)
Lemma confined_insert ws i k x db db' :
  (okay i db -> okay i db') -> rows db' = <[k := x]> (rows db) -> owner x = ws -> (k = i -> okay i db -> ours ws (rows db !! i)) ->
  confined ws i db db'.
Proof.
  intros Hok Hrows Hx Hold Hb. split; [by apply Hok|]. rewrite Hrows. destruct (decide (k = i)) as [->|Hne]; [|left; by rewrite lookup_insert_ne].
  right. rewrite lookup_insert_eq. split; [by apply Hold|by intros ? [= <-]].
Qed.

Lemma confined_delete ws i k db db' :
  (okay i db -> okay i db') -> rows db' = delete k (rows db) -> ours ws (rows db !! k) -> confined ws i db db'.
Proof.
  intros Hok Hrows Hold Hb. split; [by apply Hok|]. rewrite Hrows. destruct (decide (k = i)) as [->|Hne]; [|left; by rewrite lookup_delete_ne].
  right. by rewrite lookup_delete_eq.
Qed.

Lemma ours_Some ws x : owner x = ws -> ours ws (Some x).
Proof. by intros Hx ? [= <-]. Qed.
End rows.

(** Identifiers drawn by a counter: one in use is behind it. *)
Section counted.
Context {DB Row : Type}.
Variable rows : DB -> gmap uuid Row.
Variable owner : Row -> uuid.
Variable next : DB -> uuid.

Definition below (i : uuid) (db : DB) : Prop := forall x, rows db !! i = Some x -> (i < next db)%N.

Lemma below_fresh ws i db : next db = i -> below i db -> ours owner ws (rows db !! i).
Proof. intros Hi Hb x Hx. specialize (Hb _ Hx). lia. Qed.

Lemma below_insert i k x db db' :
  rows db' = <[k := x]> (rows db) -> (next db <= next db')%N -> (k = i -> i < next db')%N -> below i db -> below i db'.
Proof.
  intros Hrows Hn Hk Hb y. rewrite Hrows, lookup_insert_Some. intros [[E _]|[_ Hy]]; [by apply Hk|]. specialize (Hb _ Hy). lia.
Qed.

Lemma below_delete i k db db' : rows db' = delete k (rows db) -> next db' = next db -> below i db -> below i db'.
Proof. intros Hrows Hn Hb y. rewrite Hrows, lookup_delete_Some, Hn. intros [_ Hy]. by eapply Hb. Qed.
End counted.

(** A call of the service goes on from where the handler has got to. *)
Lemma keeps_on {W E DB A} (tables : W -> DB) (R : DB -> DB -> Prop) `{!PreOrder R} (m : act W E A) from w :
  keeps tables R anything m -> R from (tables w) -> R from (tables (m w).2).
Proof. intros Hm Hw. etrans; [exact Hw|by apply Hm]. Qed.

(** ** One request of the service at most

    [becomes handle P m]: the handler [m] refuses and leaves the service alone,
    or what it does there is what one service request in [P] does. *)
Section served.
Context `{UuidText, UuidParse, MapOrder}.
Context {W E A Req : Type}.
Variable handle : Req -> act W E unit.
Variable P : Req -> Prop.

Definition becomes (m : handler (Front W) A) : Prop := forall s,
  let '(resp, s') := respond m s in
  (fr_svc s' = fr_svc s /\ is_success (status resp) = false) \/ exists r, P r /\ fr_svc s' = (handle r (fr_svc s)).2.

Lemma becomes_bind {B} (m : act (Front W) (Response A) B) f (Φ : B -> Prop) :
  (forall w, safe (eq w) refusal m Φ) -> (forall b, Φ b -> becomes (f b)) -> becomes (act_bind m f).
Proof.
  intros Hm Hf s. specialize (Hm (fr_svc s) s eq_refl). unfold respond, act_bind. destruct (m s) as [[b|resp] s'].
  - destruct Hm as [Hb Hs]. specialize (Hf b Hb s'). unfold respond in Hf. destruct (f b s') as [[a|e] s'']; by rewrite Hs.
  - destruct Hm as [Hr Hs]. by left.
Qed.

Lemma becomes_call {B} (c : act (Front W) (Response A) B) r f :
  P r -> (forall s, fr_svc (c s).2 = (handle r (fr_svc s)).2) -> (forall b w, safe (eq w) (fun _ => True) (f b) (fun _ => True)) ->
  becomes (act_bind c f).
Proof.
  intros HP Hc Hf s. specialize (Hc s). unfold respond, act_bind. destruct (c s) as [[b|resp] s']; simpl in Hc.
  - specialize (Hf b (fr_svc s') s' eq_refl). destruct (f b s') as [[a|e] s'']; destruct Hf as [_ Hs]; right; exists r; by rewrite <- Hs.
  - right. by exists r.
Qed.
End served.

(** ** Requests of the concrete runs

    A member of workspace 7 asks for the row of the path; the sink keeps all. *)
Definition member : Claims := mkClaims (@uuid_String unary_uuid 3) RoleWorkspaceMember (@uuid_String unary_uuid 7) ∅.
Definition ask (id : uuid) (claims : option Claims) : Request :=
  mkRequest "203.0.113.9:4711" (fun _ => ""%string) "" (fun _ => @uuid_String unary_uuid id) claims.
Definition no_header : nat -> bool -> string := fun _ _ => ""%string.
Definition open_sink : Sink := Some (fun _ => None).
