(* ===== verification/TaskHttp.v ===== *)
(** * The task routes: internal/api/task_handlers.go *)

From S2P Require Import Prelude GoLib GoText Rbac Authz AuditChain Keyset Tasks Http Surface.

(** [time.Parse] with the layout RFC 3339. *)
Class GoTime : Type := parse_RFC3339 : string -> option time.

Definition taskTitleMaxRunes : nat := 200.
Definition taskDescriptionMaxRunes : nat := 4000.

Record createTaskRequest : Type := mkCreateTask { ct_Title : string; ct_Description : string; ct_Priority : string }.

(** A field that is absent is [None]. *)
Record updateTaskRequest : Type := mkUpdateTask {
  ut_Title : option string; ut_Description : option string; ut_Priority : option string;
  ut_AssigneeType : option string; ut_AssigneeID : option string; ut_Deadline : option string
}.
Record transitionTaskRequest : Type := mkTransitionTask { tt_Status : string }.

Definition status_text (s : Status) : string :=
  match s with
  | StatusBacklog => "backlog" | StatusPlanned => "planned" | StatusInProgress => "in_progress" | StatusInReview => "in_review"
  | StatusCompleted => "completed" | StatusCancelled => "cancelled" | StatusRejected => "rejected" | StatusFailed => "failed"
  | StatusOther s => s
  end.
Definition priority_text (p : Priority) : string :=
  match p with
  | PriorityLow => "low" | PriorityNormal => "normal" | PriorityHigh => "high" | PriorityUrgent => "urgent" | PriorityOther s => s
  end.
Definition priority_of (s : string) : Priority :=
  if String.eqb s "low" then PriorityLow else if String.eqb s "normal" then PriorityNormal
  else if String.eqb s "high" then PriorityHigh else if String.eqb s "urgent" then PriorityUrgent else PriorityOther s.
Definition assignee_text (a : AssigneeType) : string :=
  match a with AssigneeAI => "ai_employee" | AssigneeHuman => "human" | AssigneeOther s => s end.
Definition assignee_of (s : string) : AssigneeType :=
  if String.eqb s "ai_employee" then AssigneeAI else if String.eqb s "human" then AssigneeHuman else AssigneeOther s.

(** An instant stands for its RFC 3339 text: with nanoseconds, or to the second
    ([tr_Deadline]). *)
Record taskResponse : Type := mkTaskResponse {
  tr_ID : string; tr_WorkspaceID : string; tr_Title : string; tr_Description : string; tr_Status : string; tr_Priority : string;
  tr_AssigneeType : string; tr_AssigneeID : string; tr_Deadline : option time; tr_CreatedAt : time; tr_UpdatedAt : time;
  tr_Transitions : list string
}.
Record taskPage : Type := mkTaskPage { tp_Tasks : list taskResponse; tp_NextCursor : string; tp_Limit : Z }.
Inductive TaskAnswer : Type := OneTask (t : taskResponse) | TaskPage (p : taskPage).

(** The candidates of [toTaskResponse], in its order. *)
Definition candidates : list Status :=
  [StatusBacklog; StatusPlanned; StatusInProgress; StatusInReview; StatusCompleted; StatusCancelled; StatusRejected; StatusFailed].

Definition err_Error (e : err) : string :=
  match e with
  | ErrInvalidInput => "task: invalid input"
  | ErrNotFound => "task: not found"
  | ErrWorkspaceMismatch => "task: workspace mismatch"
  | ErrInvalidTransition => "task: invalid status transition"
  | ErrTerminalState => "task: task is in a terminal state"
  | ErrPriority => "task: invalid priority"
  | ErrStatus => "task: invalid status"
  | ErrAssigneeType => "task: invalid assignee type"
  | ErrInvalidCursor => "task: invalid cursor"
  | ErrStore msg => msg
  end.

Definition task_surface : Surface := mkSurface "task." "-task" "task" "Human Oversight".

Section tasks.
Context `{UuidText, UuidParse, StoredTime, MapOrder, GoTime}.
Variable env : nat -> TxTick TaskDB.
Variable draw : nat -> uuid.
Variable draw_header : nat -> bool -> string.
Variable sink : Sink.
Variable r : Request.

Abbreviation M := (act (Front World) (Response TaskAnswer)).
Abbreviation scope := (Surface.scope draw_header sink task_surface r false).
Abbreviation record := (Surface.record draw_header sink task_surface r).
Abbreviation recordSuccess := (Surface.recordSuccess draw_header sink task_surface r).
Abbreviation failing := (Surface.failing draw_header sink task_surface r).

Definition toTaskResponse (t : Task) : taskResponse :=
  mkTaskResponse (uuid_String (k_ID t)) (uuid_String (k_WorkspaceID t)) (k_Title t) (k_Description t) (status_text (k_Status t))
    (priority_text (k_Priority t)) (assignee_text (k_AssigneeType t))
    (match k_AssigneeID t with Some a => uuid_String a | None => "" end) (option_map to_second (k_Deadline t))
    (k_CreatedAt t) (k_UpdatedAt t)
    (map status_text (filter (fun s => CanTransition (k_Status t) s = None) candidates)).

Definition toTaskPage (p : Page) : taskPage := mkTaskPage (map toTaskResponse (pg_Tasks p)) (pg_NextCursor p) (pg_Limit p).

(** [TaskHandler.fail] *)
Definition fail {B} (claims : Claims) (action : string) (id : uuid) (e : err) : M B :=
  match e with
  | ErrNotFound => failing claims action id uuid_Nil "failed" "not_found" (Refused 404 "task not found")
  | ErrWorkspaceMismatch => failing claims action id uuid_Nil "denied" "workspace_mismatch" forbidden
  | ErrInvalidTransition | ErrTerminalState | ErrStatus | ErrPriority | ErrAssigneeType | ErrInvalidInput | ErrInvalidCursor =>
      failing claims action id uuid_Nil "failed" "invalid_request" (Refused 400 (err_Error e))
  | ErrStore _ => act_fail internal_error
  end.

(** A call of the service whose error is answered by [fail]. *)
Definition calling {B} (claims : Claims) (action : string) (id : uuid) (m : act World err B) : M B :=
  res <~ svc m ;;
  match res with Ok b => act_ret b | Err e => fail claims action id e end.

Definition taskIDFromPath : M uuid := idFromPath r "invalid task id".

Definition optionalPriority (raw : string) : option Priority :=
  let trimmed := TrimSpace raw in
  if String.eqb trimmed "" then Some PriorityNormal
  else let p := priority_of trimmed in if ValidPriority p then Some p else None.
Definition invalid_priority : Response TaskAnswer := Refused 400 "priority must be low, normal, high or urgent".

Definition parseTaskQuery : M ListQuery :=
  vs <~ known_values r ["status"; "limit"; "cursor"]%string silent ;;
  status <~ optional (TrimSpace (values_Get "status" vs))
    (fun v => match ValidateStatus v with Ok st => Some st | Err _ => None end)
    (act_fail (Refused 400 "status is not a task lifecycle stage")) ;;
  limit <~ optional (values_Get "limit" vs) (Limit 0) (act_fail (Refused 400 "limit must be a non-negative integer")) ;;
  cursor <~ optional (values_Get "cursor" vs) (fun v => match DecodeCursor v with Ok c => Some c | Err _ => None end)
    (act_fail (Refused 400 "cursor is not valid")) ;;
  act_ret (Normalize (mkQuery status (default 0%Z limit) (default no_cursor cursor))).

Definition List : handler (Front World) TaskAnswer :=
  cw <~ scope "list-tasks" ;;
  q <~ parseTaskQuery ;;
  page <~ calling cw.1 "list-tasks" uuid_Nil (ListPage env cw.2 q) ;;
  act_ret (Answered 200 (TaskPage (toTaskPage page))).

Definition Get : handler (Front World) TaskAnswer :=
  cw <~ scope "get-task" ;;
  id <~ taskIDFromPath ;;
  t <~ calling cw.1 "get-task" id (Tasks.Get env cw.2 id) ;;
  act_ret (Answered 200 (OneTask (toTaskResponse t))).

Definition Create (body : Body createTaskRequest) : handler (Front World) TaskAnswer :=
  cw <~ scope "create-task" ;;
  let '(claims, ws) := cw in
  let failed {B} (detail : string) (answer : Response TaskAnswer) : M B :=
    failing claims "create-task" uuid_Nil ws "failed" detail answer in
  req <~ decoded body (failed "invalid_body") ;;
  let title := TrimSpace (ct_Title req) in
  check! negb (String.eqb title "") else failed "title_required" (Refused 400 "title is required") ;;
  check! (rune_count title <=? taskTitleMaxRunes)%nat
    else failed "title_too_long" (Refused 400 "title exceeds the maximum length") ;;
  check! (rune_count (ct_Description req) <=? taskDescriptionMaxRunes)%nat
    else failed "description_too_long" (Refused 400 "description exceeds the maximum length") ;;
  match optionalPriority (ct_Priority req) with
  | None => failed "invalid_priority" invalid_priority
  | Some priority =>
      t <~ calling claims "create-task" uuid_Nil (Tasks.Create env draw ws title priority (TrimSpace (ct_Description req))) ;;
      recordSuccess claims "create-task" (k_ID t) ws "" ;;!
      act_ret (Answered 201 (OneTask (toTaskResponse t)))
  end.

Definition Update (body : Body updateTaskRequest) : handler (Front World) TaskAnswer :=
  cw <~ scope "update-task" ;;
  let '(claims, ws) := cw in
  id <~ taskIDFromPath ;;
  let failed {B} (detail : string) (answer : Response TaskAnswer) : M B :=
    failing claims "update-task" id ws "failed" detail answer in
  req <~ decoded body (failed "invalid_body") ;;
  title <~ field (ut_Title req) (fun v =>
    let title := TrimSpace v in
    check! negb (String.eqb title "") else failed "title_blank" (Refused 400 "title must not be blank") ;;
    check! (rune_count title <=? taskTitleMaxRunes)%nat
      else failed "title_too_long" (Refused 400 "title exceeds the maximum length") ;;
    act_ret title) ;;
  description <~ field (ut_Description req) (fun v =>
    check! (rune_count v <=? taskDescriptionMaxRunes)%nat
      else failed "description_too_long" (Refused 400 "description exceeds the maximum length") ;;
    act_ret (TrimSpace v)) ;;
  priority <~ field (ut_Priority req) (fun v =>
    check! negb (String.eqb (TrimSpace v) "") else failed "priority_blank" (Refused 400 "priority must not be blank") ;;
    match optionalPriority v with Some p => act_ret p | None => failed "invalid_priority" invalid_priority end) ;;
  assigneeType <~ field (ut_AssigneeType req) (fun v =>
    let a := assignee_of (TrimSpace v) in
    check! ValidAssigneeType a
      else failed "invalid_assignee_type" (Refused 400 "assignee_type must be ai_employee or human") ;;
    act_ret a) ;;
  assigneeID <~ field (ut_AssigneeID req) (fun v =>
    match uuid_Parse (TrimSpace v) with
    | Some a => act_ret a
    | None => failed "invalid_assignee_id" (Refused 400 "assignee_id must be a UUID")
    end) ;;
  deadline <~ field (ut_Deadline req) (fun v =>
    match parse_RFC3339 (TrimSpace v) with
    | Some d => act_ret d
    | None => failed "invalid_deadline" (Refused 400 "deadline must be an RFC 3339 timestamp")
    end) ;;
  t <~ calling claims "update-task" id
    (Tasks.Update env ws id (default "" title) (default no_priority priority) description (default no_assignee assigneeType)
       assigneeID deadline) ;;
  recordSuccess claims "update-task" (k_ID t) ws "" ;;!
  act_ret (Answered 200 (OneTask (toTaskResponse t))).

(** The context of a request carries no trace of package task. *)
Definition Transition (body : Body transitionTaskRequest) : handler (Front World) TaskAnswer :=
  cw <~ scope "transition-task" ;;
  let '(claims, ws) := cw in
  id <~ taskIDFromPath ;;
  let failed {B} (detail : string) (answer : Response TaskAnswer) : M B :=
    failing claims "transition-task" id ws "failed" detail answer in
  req <~ decoded body (failed "invalid_body") ;;
  let to := status_of (TrimSpace (tt_Status req)) in
  check! negb (String.eqb (TrimSpace (tt_Status req)) "") else failed "status_required" (Refused 400 "status is required") ;;
  check! ValidStatus to else failed "unknown_status" (Refused 400 "status is not a task lifecycle stage") ;;
  t <~ calling claims "transition-task" id (Tasks.Transition env (mkCtx "" "") ws id to) ;;
  recordSuccess claims "transition-task" (k_ID t) ws (status_text to) ;;!
  act_ret (Answered 200 (OneTask (toTaskResponse t))).
End tasks.
