(* ===== verification/TaskHttpProps.v ===== *)
(** * What the task routes guarantee

    A request reaches the tasks of the workspace of its claims only; a success
    is on the audit chain; and the transitions a task offers are the ones its
    service accepts. *)

From S2P Require Import Prelude GoLib GoText Rbac Authz AuditChain Keyset Tasks TasksProps Http Surface TaskHttp.

(** The requests of the task routes. *)
Inductive TaskRequest : Type :=
| TaskList (r : Http.Request)
| TaskGet (r : Http.Request)
| TaskCreate (r : Http.Request) (body : Body createTaskRequest)
| TaskUpdate (r : Http.Request) (body : Body updateTaskRequest)
| TaskTransition (r : Http.Request) (body : Body transitionTaskRequest).

Definition task_request (q : TaskRequest) : Http.Request :=
  match q with TaskList r | TaskGet r | TaskCreate r _ | TaskUpdate r _ | TaskTransition r _ => r end.

Definition shown (resp : Response TaskAnswer) : list taskResponse :=
  match resp with Answered _ (OneTask t) => [t] | Answered _ (TaskPage p) => tp_Tasks p | Refused _ _ => [] end.

(** ** Confinement of the service *)

(** A row that is not one of [ws] before and after is left alone; identifiers to
    come are not in use. *)
Definition task_confined : uuid -> uuid -> TaskDB -> TaskDB -> Prop := confined td_rows k_WorkspaceID (below td_rows td_next).

(** A step that leaves the tables alone. *)
Ltac idle := solve [apply keeps_idle; [apply _|done]].

Section confinement.
Context `{UuidText, StoredTime}.
Variable env : nat -> TxTick TaskDB.
Variable draw : nat -> uuid.
Variables ws i : uuid.
Hypothesis others : forall n db, task_confined ws i db (tt_others (env n) db).

Abbreviation kept m := (keeps w_db (task_confined ws i) anything m).

Lemma confined_tx {A} (op : time -> TaskDB -> res err (A * TaskDB)) :
  (forall now db a db', op now db = Ok (a, db') -> task_confined ws i db db') -> kept (tx env op).
Proof.
  intros Hop w _. unfold tx. pose proof (run_tx_cases ErrStore (env (w_at w)) op (w_db w)) as Hc.
  destruct (run_tx _ _ _ _) as [x db]. simpl in *.
  destruct Hc as [->|(a & db' & Ho & ->)]; [apply others|]. etrans; [apply others|by eapply Hop].
Qed.

Lemma confined_read {A} (op : TaskDB -> res err A) : kept (read env op).
Proof. apply confined_tx. intros now db a db' (? & _ & [= _ <-])%res_bind_Ok. reflexivity. Qed.

Lemma confined_Get id : kept (Tasks.Get env ws id).
Proof.
  apply keeps_bind; [apply _|apply stable_anything|apply confined_read|]. intros t. apply keeps_if; [idle|idle].
Qed.

Lemma confined_db_Update t now db a db' : db_Update ws t now db = Ok (a, db') -> task_confined ws i db db'.
Proof.
  unfold db_Update. intros [_ Hu]%guard_Ok. destruct (find_row ws (k_ID t) db) as [row|] eqn:Hf; [|done].
  apply task_row_Some in Hf as [Hrow Hws]. cbv zeta in Hu. apply guard_Ok in Hu as [_ [= _ <-]].
  eapply confined_insert; [|reflexivity|done|].
  - intros Hb. eapply below_insert; [reflexivity|reflexivity| |done]. intros <-. by eapply Hb.
  - intros <- _. rewrite Hrow. by apply ours_Some.
Qed.

Lemma confined_db_Create t now db a db' :
  k_WorkspaceID t = ws -> db_Create t now db = Ok (a, db') -> task_confined ws i db db'.
Proof.
  intros Hws Hc. unfold db_Create in Hc. cbv zeta in Hc. apply guard_Ok in Hc as [_ Hc]. apply guard_Ok in Hc as [_ Hc].
  apply guard_Ok in Hc as [_ [= _ <-]]. eapply confined_insert; [|reflexivity|done|].
  - eapply below_insert; [reflexivity|simpl; lia|simpl; lia].
  - intros Hi. by apply below_fresh.
Qed.

Lemma confined_service_Update id title p d a who dl : kept (Tasks.Update env ws id title p d a who dl).
Proof.
  apply keeps_bind; [apply _|apply stable_anything|apply confined_Get|]. intros t. apply keeps_if; [|idle]. apply keeps_if; [|idle].
  apply keeps_bind; [apply _|apply stable_anything|apply confined_tx; intros now db x db'; apply confined_db_Update|]. intros t'.
  apply keeps_bind; [apply _|apply stable_anything|idle|]. intros _. idle.
Qed.

Lemma confined_service_Transition cx id to : kept (Tasks.Transition env cx ws id to).
Proof.
  apply keeps_if; [|idle]. apply keeps_bind; [apply _|apply stable_anything|apply confined_Get|]. intros t.
  destruct (CanTransition _ _).
  - apply keeps_bind; [apply _|apply stable_anything|idle|]. intros _. idle.
  - apply keeps_bind; [apply _|apply stable_anything|apply confined_tx; intros now db x db'; apply confined_db_Update|]. intros t'.
    apply keeps_bind; [apply _|apply stable_anything|idle|]. intros _.
    apply keeps_bind; [apply _|apply stable_anything|idle|]. intros _. idle.
Qed.

Lemma confined_service_Create title p d : kept (Tasks.Create env draw ws title p d).
Proof.
  apply keeps_if; [|idle]. apply keeps_bind; [apply _|apply stable_anything|idle|]. intros now.
  apply keeps_bind; [apply _|apply stable_anything|idle|]. intros w.
  destruct (New _ _ _ _ _ _) as [t|e] eqn:Hn.
  - assert (k_WorkspaceID t = ws) as Hws.
    { unfold New in Hn. apply guard_Ok in Hn as [_ Hn]. apply guard_Ok in Hn as [_ Hn]. by apply guard_Ok in Hn as [_ [= <-]]. }
    apply keeps_bind; [apply _|apply stable_anything|apply keeps_try, confined_tx; intros ? ? ? ?; by apply confined_db_Create|].
    intros [t'|e]; (apply keeps_bind; [apply _|apply stable_anything|idle|]); intros _; [|idle].
    apply keeps_bind; [apply _|apply stable_anything|idle|]. intros _. idle.
  - apply keeps_bind; [apply _|apply stable_anything|idle|]. intros _. idle.
Qed.

Lemma confined_service_ListPage q : kept (Tasks.ListPage env ws q).
Proof. apply keeps_if; [|idle]. apply keeps_if; [|idle]. apply confined_read. Qed.
End confinement.

(** ** What the service hands out *)

Section handed_out.
Context `{UuidText, StoredTime}.
Variable env : nat -> TxTick TaskDB.
Variable draw : nat -> uuid.
Variable ws : uuid.

Lemma task_tx_Ok {A} (op : time -> TaskDB -> res err (A * TaskDB)) w a w' :
  tx env op w = (Ok a, w') -> exists now db db', op now db = Ok (a, db').
Proof. unfold tx. destruct (run_tx _ _ _ _) as [x db] eqn:Hr. intros [= -> _]. apply run_tx_Ok in Hr. by eexists _, _, _. Qed.

Lemma Get_ours id w t w' : Tasks.Get env ws id w = (Ok t, w') -> k_WorkspaceID t = ws.
Proof.
  unfold Tasks.Get. intros (t' & w1 & _ & Hr)%act_bind_Ok. destruct (N.eqb_spec (k_WorkspaceID t') ws); [|done].
  by injection Hr as <- _.
Qed.

Lemma db_Update_ours t now db a db' : db_Update ws t now db = Ok (a, db') -> k_WorkspaceID a = ws.
Proof.
  unfold db_Update. intros [_ Hu]%guard_Ok. destruct (find_row ws (k_ID t) db) as [row|] eqn:Hf; [|done].
  apply task_row_Some in Hf as [_ Hws]. cbv zeta in Hu. by apply guard_Ok in Hu as [_ [= <- _]].
Qed.

Lemma Update_ours id title p d a who dl w t w' : Tasks.Update env ws id title p d a who dl w = (Ok t, w') -> k_WorkspaceID t = ws.
Proof.
  unfold Tasks.Update. intros (t0 & w1 & _ & Hr)%act_bind_Ok. case_match; [|done]. case_match; [|done].
  apply act_bind_Ok in Hr as (t1 & w2 & Hu & Hr). apply act_bind_Ok in Hr as (? & ? & _ & [= <- _]).
  apply task_tx_Ok in Hu as (now & db & db' & Hu). by eapply db_Update_ours.
Qed.

Lemma Transition_ours cx id to w t w' : Tasks.Transition env cx ws id to w = (Ok t, w') -> k_WorkspaceID t = ws.
Proof.
  unfold Tasks.Transition. case_match; [|done]. intros (t0 & w1 & _ & Hr)%act_bind_Ok. destruct (CanTransition _ _).
  { apply act_bind_Ok in Hr as (? & ? & _ & Hr). done. }
  apply act_bind_Ok in Hr as (t1 & w2 & Hu & Hr). apply act_bind_Ok in Hr as (? & ? & _ & Hr).
  apply act_bind_Ok in Hr as (? & ? & _ & [= <- _]). apply task_tx_Ok in Hu as (now & db & db' & Hu). by eapply db_Update_ours.
Qed.

Lemma Create_ours title p d w t w' : Tasks.Create env draw ws title p d w = (Ok t, w') -> k_WorkspaceID t = ws.
Proof.
  unfold Tasks.Create. case_match; [|done]. intros (now & w1 & _ & Hr)%act_bind_Ok. apply act_bind_Ok in Hr as (w2 & w3 & _ & Hr).
  destruct (New _ _ _ _ _ _) as [t0|e] eqn:Hn; [|by apply act_bind_Ok in Hr as (? & ? & _ & Hr)].
  assert (k_WorkspaceID t0 = ws) as Hws.
  { unfold New in Hn. apply guard_Ok in Hn as [_ Hn]. apply guard_Ok in Hn as [_ Hn]. by apply guard_Ok in Hn as [_ [= <-]]. }
  apply act_bind_Ok in Hr as (x & w4 & Hx & Hr). unfold act_try in Hx.
  destruct (tx env (db_Create t0) w3) as [y w5] eqn:Ht. injection Hx as -> <-. destruct x as [t1|e]; [|by apply act_bind_Ok in Hr as (? & ? & _ & Hr)].
  apply act_bind_Ok in Hr as (? & ? & _ & Hr). apply act_bind_Ok in Hr as (? & ? & _ & [= <- _]).
  apply task_tx_Ok in Ht as (n & db & db' & Hc). unfold db_Create in Hc. cbv zeta in Hc. apply guard_Ok in Hc as [_ Hc].
  apply guard_Ok in Hc as [_ Hc]. by apply guard_Ok in Hc as [_ [= <- _]].
Qed.

Lemma ListPage_ours q w p w' : Tasks.ListPage env ws q w = (Ok p, w') -> forall t, t ∈ pg_Tasks p -> k_WorkspaceID t = ws.
Proof.
  unfold Tasks.ListPage. case_match; [|done]. case_match; [|done]. intros Hr.
  apply task_tx_Ok in Hr as (now & db & db' & Hr). apply res_bind_Ok in Hr as (p' & Hp & [= <- _]). unfold db_ListPage in Hp.
  destruct (keyset_page _ _ _ _) as [l next] eqn:Hk. injection Hp as <-. simpl. intros t Ht.
  assert (t ∈ filter (fun t => matching ws (Normalize (Normalize q)) t = true) (all_rows db)) as Hin.
  { eapply keyset_page_sub. by rewrite Hk. }
  apply list_elem_of_filter in Hin as [Hm _]. unfold matching in Hm. apply andb_true_iff in Hm as [Hm _].
  apply andb_true_iff in Hm as [Hm _]. by apply N.eqb_eq.
Qed.
End handed_out.

(** ** The handlers *)

Section routes.
Context `{UuidText, UuidParse, StoredTime, MapOrder, GoTime}.
Variable env : nat -> TxTick TaskDB.
Variable draw : nat -> uuid.
Variable draw_header : nat -> bool -> string.
Variable sink : Sink.

Definition task_route (q : TaskRequest) : handler (Front World) TaskAnswer :=
  match q with
  | TaskList r => List env draw_header sink r
  | TaskGet r => Get env draw_header sink r
  | TaskCreate r body => Create env draw draw_header sink r body
  | TaskUpdate r body => Update env draw_header sink r body
  | TaskTransition r body => Transition env draw_header sink r body
  end.

Section safety.
Variable J : World -> Prop.
Variable G : Response TaskAnswer -> Prop.
Hypothesis refusals : forall code msg, (400 <= code)%Z -> G (Refused code msg).

Lemma safe_fail {B} r claims action id e (Φ : B -> Prop) :
  safe J G (fail draw_header sink r claims action id e) Φ.
Proof. unfold fail. destruct e; by safe_step. Qed.

Lemma safe_calling {B} r claims action id (m : act World err B) (Φ : B -> Prop) :
  (forall w, J w -> J (m w).2 /\ forall b w', m w = (Ok b, w') -> Φ b) ->
  safe J G (calling draw_header sink r claims action id m) Φ.
Proof.
  intros Hm. eapply safe_bind; [by apply safe_svc|]. intros [b|e] Hb; [by apply safe_ret|]. apply safe_fail.
Qed.

Lemma safe_parseTaskQuery r : safe J G (parseTaskQuery r) (fun _ => True).
Proof. unfold parseTaskQuery, silent. repeat safe_step. Qed.
End safety.

(** Whatever the service does and hands out under claims of [ws]. *)
Section scoped.
Variable J : World -> Prop.
Variable ws : uuid.
Definition only_ours (resp : Response TaskAnswer) : Prop := forall t, t ∈ shown resp -> tr_WorkspaceID t = uuid_String ws.
Hypothesis Get_J : forall id w, J w -> J (Tasks.Get env ws id w).2.
Hypothesis List_J : forall q w, J w -> J (Tasks.ListPage env ws q w).2.
Hypothesis Create_J : forall t p d w, J w -> J (Tasks.Create env draw ws t p d w).2.
Hypothesis Update_J : forall id t p d a who dl w, J w -> J (Tasks.Update env ws id t p d a who dl w).2.
Hypothesis Transition_J : forall cx id to w, J w -> J (Tasks.Transition env cx ws id to w).2.

Lemma only_ours_refused code msg : (400 <= code)%Z -> only_ours (Refused code msg).
Proof. by intros _ t Ht%elem_of_nil. Qed.

Lemma only_ours_one code t : k_WorkspaceID t = ws -> only_ours (Answered code (OneTask (toTaskResponse t))).
Proof. intros Hws u Hu%list_elem_of_singleton. subst u. simpl. by rewrite Hws. Qed.

Lemma task_route_safe q c : caller (task_request q) = Some (c, ws) -> safe J only_ours (task_route q) only_ours.
Proof.
  pose proof only_ours_refused as Hr.
  intros Hc. destruct q as [r|r|r body|r body|r body]; simpl in Hc; cbn [task_route];
    (eapply safe_bind; [by apply safe_scope|]; intros cw Hcw; rewrite Hc in Hcw; injection Hcw as <-; cbn [fst snd]).
  - eapply safe_bind; [by apply safe_parseTaskQuery|]. intros q _.
    eapply safe_bind; [apply safe_calling; [done|]; intros w Hw; split; [by apply List_J|]; intros p w'; exact (ListPage_ours env ws q w p w')|].
    intros p Hp. apply safe_ret. intros t (t0 & -> & Ht0)%list_elem_of_fmap. simpl. by rewrite (Hp _ Ht0).
  - eapply safe_bind; [by apply safe_idFromPath|]. intros id _.
    eapply safe_bind; [apply safe_calling; [done|]; intros w Hw; split; [by apply Get_J|]; intros t w'; apply Get_ours|].
    intros t Ht. by apply safe_ret, only_ours_one.
  - repeat first [eapply safe_bind; [apply safe_calling; [done|]; intros w Hw; split; [by apply Create_J|]; intros t w'; apply Create_ours|]; intros t Ht|safe_step].
    by apply safe_ret, only_ours_one.
  - repeat first [eapply safe_bind; [apply safe_calling; [done|]; intros w Hw; split; [by apply Update_J|]; intros t w'; apply Update_ours|]; intros t Ht|safe_step].
    by apply safe_ret, only_ours_one.
  - repeat first [eapply safe_bind; [apply safe_calling; [done|]; intros w Hw; split; [by apply Transition_J|]; intros t w'; apply Transition_ours|]; intros t Ht|safe_step].
    by apply safe_ret, only_ours_one.
Qed.
End scoped.

(** C18. Task routes stay in the workspace of the claims.  A request whose verified
    claims bind no workspace is refused and reaches no task.  Otherwise every
    task in the answer is one of that workspace, whatever identifier the request
    names and whatever other requests do in the meantime; and a row that the
    others leave alone, or touch only as one of that workspace, is as it was
    unless it is one of that workspace before and after. *)
Theorem task_routes_confined q s :
  let '(resp, s') := respond (task_route q) s in
  match caller (task_request q) with
  | None => (status resp = 401 \/ status resp = 403)%Z /\ shown resp = [] /\ fr_svc s' = fr_svc s
  | Some (_, ws) =>
      (forall t, t ∈ shown resp -> tr_WorkspaceID t = uuid_String ws) /\
      (forall i, (forall n db, task_confined ws i db (tt_others (env n) db)) -> task_confined ws i (w_db (fr_svc s)) (w_db (fr_svc s')))
  end.
Proof.
  destruct (caller (task_request q)) as [[c ws]|] eqn:Hc.
  - pose proof (task_route_safe (fun _ => True) ws ltac:(done) ltac:(done) ltac:(done) ltac:(done) ltac:(done) q c Hc) as Ha.
    destruct (respond_safe _ _ _ s Ha I) as [Hours _].
    assert (forall i, (forall n db, task_confined ws i db (tt_others (env n) db)) ->
      task_confined ws i (w_db (fr_svc s)) (w_db (fr_svc (respond (task_route q) s).2))) as Hi.
    { intros i others.
      eapply (respond_safe (fun w => task_confined ws i (w_db (fr_svc s)) (w_db w)) (only_ours ws)); [|reflexivity].
      eapply task_route_safe; [..|exact Hc]; intros; apply (keeps_on w_db (task_confined ws i)); try done.
      - by apply confined_Get.
      - by apply confined_service_ListPage.
      - by apply confined_service_Create.
      - by apply confined_service_Update.
      - by apply confined_service_Transition. }
    destruct (respond _ s) as [resp s']. done.
  - assert (exists code msg s', respond (task_route q) s = (Refused code msg, s') /\ (code = 401 \/ code = 403)%Z /\ fr_svc s' = fr_svc s)
      as (code & msg & s' & -> & ? & ?); [|done].
    destruct q; simpl in Hc; cbn [task_route]; by apply respond_no_caller.
Qed.

(** *** Successes are recorded *)

(** What a change of a task is recorded as. *)
Definition task_verb (q : TaskRequest) : option string :=
  match q with
  | TaskCreate _ _ => Some "create-task" | TaskUpdate _ _ => Some "update-task" | TaskTransition _ _ => Some "transition-task"
  | _ => None
  end%string.

Definition task_recorded (q : TaskRequest) (action : string) (resp : Response TaskAnswer) (a : Audited) : Prop :=
  exists claims ws t detail, caller (task_request q) = Some (claims, ws) /\ k_WorkspaceID t = ws /\
    (exists code, resp = Answered code (OneTask (toTaskResponse t))) /\ records task_surface claims action (k_ID t) ws detail a.

(** The end of a handler that changes a task. *)
Lemma recorded_end q r claims ws action t detail code :
  caller (task_request q) = Some (claims, ws) -> k_WorkspaceID t = ws ->
  ends_recorded (task_recorded q action)
    (act_bind (recordSuccess (W := World) draw_header sink task_surface r claims action (k_ID t) ws detail)
       (fun _ => act_ret (Answered code (OneTask (toTaskResponse t))))).
Proof. intros Hc Hws. apply recorded_tail. intros a Ha. exists claims, ws, t, detail. split_and!; [done..|by exists code|done]. Qed.

(** A change of a task that is answered as a success is the latest record on the
    audit chain: by the caller, of the task in the answer, in the workspace of
    the claims. *)
Theorem task_change_recorded q action s : task_verb q = Some action ->
  let '(resp, s') := respond (task_route q) s in
  is_success (status resp) = true -> exists a l, fr_audit s' = a :: l /\ task_recorded q action resp a.
Proof.
  pose proof (refusal_refused (A := TaskAnswer)) as Hr. intros Hv. revert s. change (ends_recorded (task_recorded q action) (task_route q)).
  destruct q as [r|r|r body|r body|r body]; [done..| | |]; injection Hv as <-; cbn [task_route];
    (eapply recorded_bind; [by apply safe_scope|]; intros [claims ws] Hc); repeat recorded_step.
  - eapply recorded_bind; [apply safe_calling; [done|]; intros w _; split; [done|]; intros t w'; apply Create_ours|].
    intros t Ht. by apply recorded_end.
  - eapply recorded_bind; [apply safe_calling; [done|]; intros w _; split; [done|]; intros t w'; apply Update_ours|].
    intros t Ht. by apply recorded_end.
  - eapply recorded_bind; [apply safe_calling; [done|]; intros w _; split; [done|]; intros t w'; apply Transition_ours|].
    intros t Ht. by apply recorded_end.
Qed.

(** *** The transitions a task offers *)

Lemma status_of_text st : ValidStatus st = true -> status_of (status_text st) = st.
Proof. by destruct st. Qed.

Lemma status_text_of v : ValidStatus (status_of v) = true -> status_text (status_of v) = v.
Proof. unfold status_of. repeat (case_match; [intros _; symmetry; by apply String.eqb_eq|]). done. Qed.

Lemma offered t v : v ∈ tr_Transitions (toTaskResponse t) <-> CanTransition (k_Status t) (status_of v) = None.
Proof.
  simpl. rewrite list_elem_of_fmap. split.
  - intros (st & -> & Hst). apply list_elem_of_filter in Hst as [Hc Hst]. rewrite status_of_text; [done|].
    unfold CanTransition in Hc. by destruct (ValidStatus st); [|destruct (ValidStatus _)].
  - intros Hc. assert (ValidStatus (status_of v) = true) as Hv.
    { unfold CanTransition in Hc. by destruct (ValidStatus (status_of v)); [|destruct (ValidStatus (k_Status t))]. }
    exists (status_of v). rewrite status_text_of by done. split; [done|]. apply list_elem_of_filter. split; [done|].
    destruct (status_of v); try done; set_solver.
Qed.

Section calm.
Hypothesis calm : forall n, tt_fault (env n) = NoFault /\ forall db, tt_others (env n) db = db.

Lemma calm_tx {A} (op : time -> TaskDB -> res err (A * TaskDB)) w :
  tx env op w = match op (tt_now (env (w_at w))) (w_db w) with
                | Ok (a, db) => (Ok a, mkWorld db (S (w_at w)) (w_audit w) (w_events w))
                | Err e => (Err e, mkWorld (w_db w) (S (w_at w)) (w_audit w) (w_events w))
                end.
Proof.
  unfold tx, run_tx. destruct (calm (w_at w)) as [-> ->]. by destruct (op _ _) as [[a db]|e].
Qed.

Lemma calm_Get ws id t w : find_row ws id (w_db w) = Some t ->
  Tasks.Get env ws id w = (Ok t, mkWorld (w_db w) (S (w_at w)) (w_audit w) (w_events w)).
Proof.
  intros Ht. pose proof Ht as [_ Hws]%task_row_Some. unfold Tasks.Get, act_bind, read. rewrite calm_tx. unfold db_Get. rewrite Ht. simpl.
  by rewrite Hws, N.eqb_refl.
Qed.

Definition storable (t : Task) : Prop := task_row_ok t = true /\ text_ok (k_Title t) = true /\ text_ok (k_Description t) = true.

Lemma calm_Transition ws id to t w : find_row ws id (w_db w) = Some t -> k_ID t = id -> storable t ->
  is_ok (Tasks.Transition env (mkCtx "" "") ws id to w).1 = bool_decide (CanTransition (k_Status t) to = None).
Proof.
  intros Ht Hid (Hrow & Htitle & Hdesc). unfold Tasks.Transition, act_bind. destruct (ValidStatus to) eqn:Hto.
  - rewrite (calm_Get _ _ _ _ Ht). destruct (CanTransition _ _) as [e|] eqn:Hc; [done|].
    rewrite calm_tx. unfold db_Update. cbn [set_k_Status k_Title k_Description k_ID w_db]. rewrite Htitle, Hdesc, Hid, Ht. simpl.
    unfold task_row_ok in *. simpl. rewrite Hto. apply andb_true_iff in Hrow as [Hrow Hsp]. apply andb_true_iff in Hrow as [Hrow Ha].
    apply andb_true_iff in Hrow as [_ Hp]. by rewrite Hp, Ha, Hsp.
  - simpl. unfold CanTransition. rewrite Hto, orb_true_r. done.
Qed.

(** A task offers the transitions its service accepts.  When nothing interferes
    or fails, what a read of a task lists as its next states are exactly the
    texts that a transition request naming one of them succeeds with. *)
Theorem offered_transitions_accepted r claims ws id t f s :
  sink = Some f -> (forall n, f n = None) ->
  caller r = Some (claims, ws) -> uuid_Parse (rq_PathValue r "id") = Some id ->
  td_rows (w_db (fr_svc s)) !! id = Some t -> k_WorkspaceID t = ws -> k_ID t = id -> storable t ->
  (respond (task_route (TaskGet r)) s).1 = Answered 200 (OneTask (toTaskResponse t)) /\
  forall v, status (respond (task_route (TaskTransition r (mkBody (Some (mkTransitionTask v)) false))) s).1 = 200%Z <->
            TrimSpace v ∈ tr_Transitions (toTaskResponse t).
Proof.
  intros Hsink Hf Hc Hpath Hrow Hws Hid Hst.
  assert (find_row ws id (w_db (fr_svc s)) = Some t) as Ht by by apply task_row_Some.
  assert (forall action, scope (A := TaskAnswer) draw_header sink task_surface r false action s = (Ok (claims, ws), s)) as Hscope.
  { intros action. unfold caller in Hc. unfold scope. destruct (FromRequest r) as [c|]; [|done].
    destruct (WorkspaceFromClaims c); [|done]. destruct (uuid_Parse _); [|done]. by injection Hc as -> ->. }
  assert (forall msg, idFromPath (A := TaskAnswer) r msg s = (Ok id, s)) as Hidp by (intros; unfold idFromPath; by rewrite Hpath).
  split.
  - unfold respond. cbn [task_route]. unfold Get, act_bind at 1. rewrite Hscope. unfold act_bind at 1, taskIDFromPath. rewrite Hidp.
    unfold act_bind, calling, svc, act_bind. simpl. by rewrite (calm_Get _ _ _ _ Ht).
  - intros v. rewrite offered. unfold respond. cbn [task_route]. unfold Transition, act_bind at 1. rewrite Hscope.
    unfold act_bind at 1, taskIDFromPath. rewrite Hidp. unfold act_bind at 1. cbn [decoded decodeJSON bd_first bd_more act_ret tt_Status].
    pose proof (calm_Transition ws id (status_of (TrimSpace v)) t (fr_svc s) Ht Hid Hst) as Htr.
    destruct (String.eqb_spec (TrimSpace v) "") as [He|_].
    { rewrite He. cbn [negb]. unfold failing, record, appendAudit, act_bind. destruct (sink_append _ _ _ _). simpl. split; [done|]. by destruct (k_Status t). }
    cbn [negb]. destruct (ValidStatus (status_of (TrimSpace v))) eqn:Hv.
    + unfold act_bind at 1, calling, svc, act_bind at 1. destruct (Tasks.Transition _ _ _ _ _ _) as [x w] eqn:Hx. simpl in Htr.
      destruct x as [t'|e]; simpl in Htr; symmetry in Htr; [apply bool_decide_eq_true in Htr|apply bool_decide_eq_false in Htr].
      * unfold recordSuccess, appendAudit, act_bind, sink_append. rewrite Hsink. cbn -[correlated decision ExtractContextValues]. by rewrite Hf.
      * split; [|done]. intros Hs. exfalso. revert Hs. destruct e; simpl; unfold failing, record, appendAudit, act_bind, act_fail;
          try (destruct (sink_append _ _ _ _)); done.
    + unfold failing, record, appendAudit, act_bind. destruct (sink_append _ _ _ _). simpl. split; [done|].
      unfold CanTransition. rewrite Hv, orb_true_r. done.
Qed.
End calm.
End routes.

(** ** Concrete runs *)

#[local] Hint Extern 0 UuidText => exact unary_uuid : typeclass_instances.
#[local] Hint Extern 0 UuidParse => exact unary_parse : typeclass_instances.
#[local] Hint Extern 0 StoredTime => exact microseconds : typeclass_instances.
#[local] Hint Extern 0 StoredTimeLaws => exact microseconds_laws : typeclass_instances.
#[local] Hint Extern 0 MapOrder => exact in_order : typeclass_instances.
#[local] Instance no_deadlines : GoTime := fun _ => None.

Definition task_front : Front World := mkFront (mkWorld (demo_table 2) 0 [] []) [] 0.

Abbreviation run q := (respond (task_route alone_env (fun _ => 0%N) no_header open_sink q) task_front).

Lemma task_routes_confined_witness :
  let '(resp, s') := run (TaskTransition (ask 1 (Some member)) (mkBody (Some (mkTransitionTask "completed")) false)) in
  status resp = 200%Z /\ status_at 1 (w_db (fr_svc s')) = Some StatusCompleted /\
  (forall t, t ∈ shown resp -> tr_WorkspaceID t = uuid_String 7) /\ task_confined 7 2 (demo_table 2) (w_db (fr_svc s')).
Proof.
  pose proof (task_routes_confined alone_env (fun _ => 0%N) no_header open_sink
    (TaskTransition (ask 1 (Some member)) (mkBody (Some (mkTransitionTask "completed")) false)) task_front) as Hp.
  match goal with |- let '(_, _) := ?a in _ =>
    assert (status a.1 = 200%Z) as Hs by (vm_compute; reflexivity);
    assert (status_at 1 (w_db (fr_svc a.2)) = Some StatusCompleted) as Ht by (vm_compute; reflexivity); destruct a as [resp s'] end.
  assert (caller (ask 1 (Some member)) = Some (member, 7%N)) as Hc by (vm_compute; reflexivity).
  cbn [task_request] in Hp. rewrite Hc in Hp. destruct Hp as [Hours Hrow].
  split; [exact Hs|]. split; [exact Ht|]. split; [exact Hours|]. apply Hrow. intros n db. reflexivity.
Defined.

Lemma task_change_recorded_witness :
  let '(resp, s') := run (TaskTransition (ask 1 (Some member)) (mkBody (Some (mkTransitionTask "completed")) false)) in
  exists a l, fr_audit s' = a :: l /\
    task_recorded (TaskTransition (ask 1 (Some member)) (mkBody (Some (mkTransitionTask "completed")) false)) "transition-task" resp a.
Proof.
  pose proof (task_change_recorded alone_env (fun _ => 0%N) no_header open_sink
    (TaskTransition (ask 1 (Some member)) (mkBody (Some (mkTransitionTask "completed")) false)) "transition-task" task_front eq_refl) as Hp.
  match goal with |- let '(_, _) := ?a in _ =>
    assert (is_success (status a.1) = true) as Hs by (vm_compute; reflexivity); destruct a as [resp s'] end.
  exact (Hp Hs).
Defined.

Lemma offered_transitions_accepted_witness :
  (run (TaskGet (ask 1 (Some member)))).1 = Answered 200 (OneTask (toTaskResponse (demo_task 1 StatusInReview 0))) /\
  tr_Transitions (toTaskResponse (demo_task 1 StatusInReview 0)) = ["completed"; "cancelled"; "rejected"; "failed"]%string /\
  status (run (TaskTransition (ask 1 (Some member)) (mkBody (Some (mkTransitionTask " rejected ")) false))).1 = 200%Z.
Proof.
  destruct (offered_transitions_accepted alone_env (fun _ => 0%N) no_header open_sink) with (r := ask 1 (Some member)) (claims := member)
    (ws := 7%N) (id := 1%N) (t := demo_task 1 StatusInReview 0) (f := fun _ : nat => @None string) (s := task_front) as [Hg Ht];
    [intros n; by split|done|done|by vm_compute..|].
  split; [exact Hg|]. split; [by vm_compute|]. apply Ht. apply (bool_decide_unpack _). by vm_compute.
Defined.

(** ** What is not as it is said to be *)

(** A title with a NUL byte is the mistake of the client; PostgreSQL refuses the
    text and the answer is a server error. *)
Example nul_title_is_a_server_error :
  (run (TaskCreate (ask 1 (Some member)) (mkBody (Some (mkCreateTask (of_bytes [80; 0; 80]%Z) "" "")) false))).1 = internal_error.
Proof. by vm_compute. Qed.

Definition founder_claims : Claims := mkClaims (uuid_String 3) RoleFounder "" ∅.

(** The event type of a refused listing keeps the plural of its action. *)
Example listing_event_type :
  map (fun a => i_EventType (aa_Record a)) (fr_audit (run (TaskList (ask 1 (Some founder_claims)))).2) = ["task.list-tasks"]%string.
Proof. by vm_compute. Qed.
