(* ===== verification/OrgHttp.v ===== *)
(** * The routes of departments, teams and AI employees

    internal/api/department_handlers.go, team_handlers.go and
    aiemployee_handlers.go over the services of Org. *)

From S2P Require Import Prelude GoLib GoText Rbac Authz AuditChain Keyset Org Http Surface.

(** An instant stands for its RFC 3339 text, which is to the second. *)
Record departmentResponse : Type := mkDepartmentResponse {
  dp_ID : string; dp_WorkspaceID : string; dp_Name : string; dp_CreatedAt : time; dp_UpdatedAt : time
}.
Record teamResponse : Type := mkTeamResponse {
  tp_ID : string; tp_DepartmentID : string; tp_WorkspaceID : string; tp_Name : string; tp_CreatedAt : time; tp_UpdatedAt : time
}.
Record aiEmployeeResponse : Type := mkEmployeeResponse {
  mp_ID : string; mp_TeamID : string; mp_DepartmentID : string; mp_WorkspaceID : string; mp_Name : string; mp_Role : string;
  mp_Capabilities : list string; mp_CurrentTaskID : string; mp_CreatedAt : time; mp_UpdatedAt : time
}.

(** The three listing envelopes. *)
Record page (A : Type) : Type := mkPageResponse { pp_Rows : list A; pp_NextCursor : string; pp_Limit : Z }.
Arguments mkPageResponse {A}.
Arguments pp_Rows {A}.
Arguments pp_NextCursor {A}.
Arguments pp_Limit {A}.

Inductive OrgAnswer : Type :=
| OneDepartment (d : departmentResponse) | DepartmentPage (p : page departmentResponse)
| OneTeam (t : teamResponse) | TeamPage (p : page teamResponse)
| OneEmployee (e : aiEmployeeResponse) | EmployeePage (p : page aiEmployeeResponse)
| OrgNoContent.

Record createDepartmentRequest : Type := mkCreateDepartment { cd_Name : string }.
Record updateDepartmentRequest : Type := mkUpdateDepartment { ud_Name : option string }.
Record createTeamRequest : Type := mkCreateTeam { cm_Name : string; cm_DepartmentID : string }.
Record updateTeamRequest : Type := mkUpdateTeam { um_Name : option string; um_DepartmentID : option string }.
(** Capabilities that are absent or null are [None]. *)
Record createAIEmployeeRequest : Type := mkCreateEmployee {
  ce_Name : string; ce_Role : string; ce_TeamID : string; ce_Capabilities : option (list string)
}.
Record updateAIEmployeeRequest : Type := mkUpdateEmployee {
  ue_Name : option string; ue_Role : option string; ue_TeamID : option string; ue_Capabilities : option (list string);
  ue_CurrentTaskID : option string
}.

Definition departmentNameMaxRunes : nat := 100.
Definition teamNameMaxRunes : nat := 100.
Definition employeeNameMaxRunes : nat := 100.
Definition employeeRoleMaxRunes : nat := 100.

Definition department_surface : Surface := mkSurface "department." "-department" "department" "Security by Design".
Definition team_surface : Surface := mkSurface "team." "-team" "team" "Security by Design".
Definition employee_surface : Surface := mkSurface "ai_employee." "-ai-employee" "ai_employee" "Security by Design".

Section org.
Context `{UuidText, UuidParse, StoredTime, SqlLower, Collation, MapOrder}.
Variable rls : bool.
Variable env : nat -> TxTick OrgDB.
Variable draw : nat -> uuid.
Variable draw_header : nat -> bool -> string.
Variable sink : Sink.
Variable r : Request.

Abbreviation M := (act (Front World) (Response OrgAnswer)).

(** [fail] of the three handlers: what the messages call a row, and the text of
    the package's invalid-input error. *)
Definition org_fail {B} (sf : Surface) (row invalid : string) (claims : Claims) (action : string) (id : uuid) (e : err) : M B :=
  let failing {B} := @failing _ World OrgAnswer draw_header sink sf r B claims action id uuid_Nil in
  match e with
  | ErrNotFound => failing "failed" "not_found" (Refused 404 (row +:+ " not found"))
  | ErrWorkspaceMismatch => failing "denied" "workspace_mismatch" forbidden
  | ErrNameTaken => failing "failed" "name_taken" (Refused 409 (row +:+ " name already exists"))
  | ErrInvalidInput => failing "failed" "invalid_input" (Refused 400 invalid)
  | ErrStore _ => act_fail internal_error
  end.

Definition org_calling {B} (fail : err -> M B) (m : act World err B) : M B :=
  res <~ svc m ;;
  match res with Ok b => act_ret b | Err e => fail e end.

(** The listing queries; [parent] names the filter of teams and employees. *)
Definition parseOrgQuery (parent : option string) : M ListQuery :=
  vs <~ known_values r (["limit"; "cursor"]%string ++ match parent with Some p => [p] | None => [] end) silent ;;
  limit <~ optional (values_Get "limit" vs) (Limit 0) (act_fail (Refused 400 "limit must be a non-negative integer")) ;;
  cursor <~ optional (values_Get "cursor" vs) (fun v => match DecodeCursor v with Ok c => Some c | Err _ => None end)
    (act_fail (Refused 400 "cursor is not valid")) ;;
  filter <~ match parent with
            | Some p => optional (values_Get p vs) (fun v => uuid_Parse (TrimSpace v)) (act_fail (Refused 400 (p +:+ " must be a UUID")))
            | None => act_ret None
            end ;;
  act_ret (Normalize (mkQuery (default 0%Z limit) filter (default no_cursor cursor))).

(** A name or a role that is given: trimmed, not blank, not too long. *)
Definition org_text (what : string) (max : nat) (failed : string -> Response OrgAnswer -> M string) (blank : string * string) (v : string)
  : M string :=
  let trimmed := TrimSpace v in
  check! negb (String.eqb trimmed "") else failed blank.1 (Refused 400 blank.2) ;;
  check! (rune_count trimmed <=? max)%nat else failed (what +:+ "_too_long") (Refused 400 (what +:+ " is too long")) ;;
  act_ret trimmed.
Definition required (what : string) : string * string := (what +:+ "_required", what +:+ " is required").
Definition not_blank (what : string) : string * string := (what +:+ "_blank", what +:+ " must not be blank").

(** *** department_handlers.go *)

Definition toDepartmentResponse (d : Department) : departmentResponse :=
  mkDepartmentResponse (uuid_String (d_ID d)) (uuid_String (d_WorkspaceID d)) (d_Name d) (to_second (d_CreatedAt d)) (to_second (d_UpdatedAt d)).
Definition toDepartmentPage (p : Page Department) : page departmentResponse :=
  mkPageResponse (map toDepartmentResponse (pg_Rows p)) (pg_NextCursor p) (pg_Limit p).

Abbreviation dept_scope := (scope draw_header sink department_surface r false).
Abbreviation dept_record := (record draw_header sink department_surface r).
Abbreviation dept_failing := (failing draw_header sink department_surface r).
Definition department_fail {B} := @org_fail B department_surface "department" "department: invalid input".
Definition departmentIDFromPath : M uuid := idFromPath r "invalid department id".

Definition Department_List : handler (Front World) OrgAnswer :=
  cw <~ dept_scope "list-department" ;;
  let '(claims, ws) := cw in
  q <~ parseOrgQuery None ;;
  p <~ org_calling (department_fail claims "list-department" uuid_Nil) (ListDepartmentsPage env ws q) ;;
  dept_record claims "list-department" uuid_Nil ws "success" "" ;;!
  act_ret (Answered 200 (DepartmentPage (toDepartmentPage p))).

Definition Department_Create (body : Body createDepartmentRequest) : handler (Front World) OrgAnswer :=
  cw <~ dept_scope "create-department" ;;
  let '(claims, ws) := cw in
  let failed {B} (detail : string) (answer : Response OrgAnswer) : M B :=
    dept_failing claims "create-department" uuid_Nil ws "failed" detail answer in
  req <~ decoded body (failed "invalid_body") ;;
  name <~ org_text "name" departmentNameMaxRunes failed (required "name") (cd_Name req) ;;
  d <~ org_calling (department_fail claims "create-department" uuid_Nil) (CreateDepartment env draw ws name) ;;
  dept_record claims "create-department" (d_ID d) ws "success" "" ;;!
  act_ret (Answered 201 (OneDepartment (toDepartmentResponse d))).

Definition Department_Get : handler (Front World) OrgAnswer :=
  cw <~ dept_scope "get-department" ;;
  let '(claims, ws) := cw in
  id <~ departmentIDFromPath ;;
  d <~ org_calling (department_fail claims "get-department" id) (GetDepartment env ws id) ;;
  dept_record claims "get-department" (d_ID d) ws "success" "" ;;!
  act_ret (Answered 200 (OneDepartment (toDepartmentResponse d))).

Definition Department_Update (body : Body updateDepartmentRequest) : handler (Front World) OrgAnswer :=
  cw <~ dept_scope "update-department" ;;
  let '(claims, ws) := cw in
  id <~ departmentIDFromPath ;;
  let failed {B} (detail : string) (answer : Response OrgAnswer) : M B :=
    dept_failing claims "update-department" id ws "failed" detail answer in
  req <~ decoded body (failed "invalid_body") ;;
  match ud_Name req with
  | None => failed "name_required" (Refused 400 "name is required")
  | Some v =>
      name <~ org_text "name" departmentNameMaxRunes failed (not_blank "name") v ;;
      d <~ org_calling (department_fail claims "update-department" id) (UpdateDepartment env ws id name) ;;
      dept_record claims "update-department" (d_ID d) ws "success" "" ;;!
      act_ret (Answered 200 (OneDepartment (toDepartmentResponse d)))
  end.

Definition Department_Delete : handler (Front World) OrgAnswer :=
  cw <~ dept_scope "delete-department" ;;
  let '(claims, ws) := cw in
  id <~ departmentIDFromPath ;;
  org_calling (department_fail claims "delete-department" id) (DeleteDepartment env ws id) ;;!
  dept_record claims "delete-department" id ws "success" "" ;;!
  act_ret (Answered 204 OrgNoContent).

(** *** team_handlers.go *)

Definition toTeamResponse (t : Team) : teamResponse :=
  mkTeamResponse (uuid_String (t_ID t)) (uuid_String (t_DepartmentID t)) (uuid_String (t_WorkspaceID t)) (t_Name t)
    (to_second (t_CreatedAt t)) (to_second (t_UpdatedAt t)).
Definition toTeamPage (p : Page Team) : page teamResponse :=
  mkPageResponse (map toTeamResponse (pg_Rows p)) (pg_NextCursor p) (pg_Limit p).

Abbreviation team_scope := (scope draw_header sink team_surface r false).
Abbreviation team_record := (record draw_header sink team_surface r).
Abbreviation team_failing := (failing draw_header sink team_surface r).
Definition team_fail {B} := @org_fail B team_surface "team" "team: invalid input".
Definition teamIDFromPath : M uuid := idFromPath r "invalid team id".

Definition Team_List : handler (Front World) OrgAnswer :=
  cw <~ team_scope "list-team" ;;
  let '(claims, ws) := cw in
  q <~ parseOrgQuery (Some "department_id"%string) ;;
  p <~ org_calling (team_fail claims "list-team" uuid_Nil) (ListTeamsPage rls env ws q) ;;
  team_record claims "list-team" uuid_Nil ws "success" "" ;;!
  act_ret (Answered 200 (TeamPage (toTeamPage p))).

Definition Team_Create (body : Body createTeamRequest) : handler (Front World) OrgAnswer :=
  cw <~ team_scope "create-team" ;;
  let '(claims, ws) := cw in
  let failed {B} (detail : string) (answer : Response OrgAnswer) : M B :=
    team_failing claims "create-team" uuid_Nil ws "failed" detail answer in
  req <~ decoded body (failed "invalid_body") ;;
  name <~ org_text "name" teamNameMaxRunes failed (required "name") (cm_Name req) ;;
  match uuid_Parse (TrimSpace (cm_DepartmentID req)) with
  | None => failed "invalid_department_id" (Refused 400 "department_id must be a UUID")
  | Some dept =>
      t <~ org_calling (team_fail claims "create-team" uuid_Nil) (CreateTeam rls env draw ws dept name) ;;
      team_record claims "create-team" (t_ID t) ws "success" "" ;;!
      act_ret (Answered 201 (OneTeam (toTeamResponse t)))
  end.

Definition Team_Get : handler (Front World) OrgAnswer :=
  cw <~ team_scope "get-team" ;;
  let '(claims, ws) := cw in
  id <~ teamIDFromPath ;;
  t <~ org_calling (team_fail claims "get-team" id) (GetTeam env ws id) ;;
  team_record claims "get-team" (t_ID t) ws "success" "" ;;!
  act_ret (Answered 200 (OneTeam (toTeamResponse t))).

Definition Team_Update (body : Body updateTeamRequest) : handler (Front World) OrgAnswer :=
  cw <~ team_scope "update-team" ;;
  let '(claims, ws) := cw in
  id <~ teamIDFromPath ;;
  let failed {B} (detail : string) (answer : Response OrgAnswer) : M B :=
    team_failing claims "update-team" id ws "failed" detail answer in
  req <~ decoded body (failed "invalid_body") ;;
  check! bool_decide (is_Some (um_Name req)) || bool_decide (is_Some (um_DepartmentID req))
    else failed "empty_update" (Refused 400 "at least one field is required") ;;
  name <~ field (um_Name req) (org_text "name" teamNameMaxRunes failed (not_blank "name")) ;;
  dept <~ field (um_DepartmentID req) (fun v =>
    match uuid_Parse (TrimSpace v) with
    | Some d => act_ret d
    | None => failed "invalid_department_id" (Refused 400 "department_id must be a UUID")
    end) ;;
  t <~ org_calling (team_fail claims "update-team" id) (UpdateTeam rls env ws id (default "" name) dept) ;;
  team_record claims "update-team" (t_ID t) ws "success" "" ;;!
  act_ret (Answered 200 (OneTeam (toTeamResponse t))).

Definition Team_Delete : handler (Front World) OrgAnswer :=
  cw <~ team_scope "delete-team" ;;
  let '(claims, ws) := cw in
  id <~ teamIDFromPath ;;
  org_calling (team_fail claims "delete-team" id) (DeleteTeam env ws id) ;;!
  team_record claims "delete-team" id ws "success" "" ;;!
  act_ret (Answered 204 OrgNoContent).

(** *** aiemployee_handlers.go *)

Definition toAIEmployeeResponse (e : AIEmployee) : aiEmployeeResponse :=
  mkEmployeeResponse (uuid_String (m_ID e)) (uuid_String (m_TeamID e)) (uuid_String (m_DepartmentID e)) (uuid_String (m_WorkspaceID e))
    (m_Name e) (m_Role e) (m_Capabilities e) (match m_CurrentTaskID e with Some t => uuid_String t | None => "" end)
    (to_second (m_CreatedAt e)) (to_second (m_UpdatedAt e)).
Definition toAIEmployeePage (p : Page AIEmployee) : page aiEmployeeResponse :=
  mkPageResponse (map toAIEmployeeResponse (pg_Rows p)) (pg_NextCursor p) (pg_Limit p).

Abbreviation emp_scope := (scope draw_header sink employee_surface r false).
Abbreviation emp_record := (record draw_header sink employee_surface r).
Abbreviation emp_failing := (failing draw_header sink employee_surface r).
Definition employee_fail {B} := @org_fail B employee_surface "ai employee" "aiemployee: invalid input".
Definition aiEmployeeIDFromPath : M uuid := idFromPath r "invalid ai employee id".

Definition Employee_List : handler (Front World) OrgAnswer :=
  cw <~ emp_scope "list-ai-employee" ;;
  let '(claims, ws) := cw in
  q <~ parseOrgQuery (Some "team_id"%string) ;;
  p <~ org_calling (employee_fail claims "list-ai-employee" uuid_Nil) (ListEmployeesPage rls env ws q) ;;
  emp_record claims "list-ai-employee" uuid_Nil ws "success" "" ;;!
  act_ret (Answered 200 (EmployeePage (toAIEmployeePage p))).

Definition Employee_Create (body : Body createAIEmployeeRequest) : handler (Front World) OrgAnswer :=
  cw <~ emp_scope "create-ai-employee" ;;
  let '(claims, ws) := cw in
  let failed {B} (detail : string) (answer : Response OrgAnswer) : M B :=
    emp_failing claims "create-ai-employee" uuid_Nil ws "failed" detail answer in
  req <~ decoded body (failed "invalid_body") ;;
  let name := TrimSpace (ce_Name req) in
  let role := TrimSpace (ce_Role req) in
  check! negb (String.eqb name "") else failed "name_required" (Refused 400 "name is required") ;;
  check! negb (String.eqb role "") else failed "role_required" (Refused 400 "role is required") ;;
  check! (rune_count name <=? employeeNameMaxRunes)%nat else failed "name_too_long" (Refused 400 "name is too long") ;;
  check! (rune_count role <=? employeeRoleMaxRunes)%nat else failed "role_too_long" (Refused 400 "role is too long") ;;
  match uuid_Parse (TrimSpace (ce_TeamID req)) with
  | None => failed "invalid_team_id" (Refused 400 "team_id must be a UUID")
  | Some team =>
      e <~ org_calling (employee_fail claims "create-ai-employee" uuid_Nil)
        (CreateEmployee rls env draw ws team name role (default [] (ce_Capabilities req))) ;;
      emp_record claims "create-ai-employee" (m_ID e) ws "success" "" ;;!
      act_ret (Answered 201 (OneEmployee (toAIEmployeeResponse e)))
  end.

Definition Employee_Get : handler (Front World) OrgAnswer :=
  cw <~ emp_scope "get-ai-employee" ;;
  let '(claims, ws) := cw in
  id <~ aiEmployeeIDFromPath ;;
  e <~ org_calling (employee_fail claims "get-ai-employee" id) (GetEmployee env ws id) ;;
  emp_record claims "get-ai-employee" (m_ID e) ws "success" "" ;;!
  act_ret (Answered 200 (OneEmployee (toAIEmployeeResponse e))).

(** The task of an update: blank clears it, with the nil identifier. *)
Definition current_task (failed : string -> Response OrgAnswer -> M uuid) (v : string) : M uuid :=
  if String.eqb (TrimSpace v) "" then act_ret uuid_Nil
  else match uuid_Parse (TrimSpace v) with
       | Some t => act_ret t
       | None => failed "invalid_task_id" (Refused 400 "current_task_id must be a UUID")
       end.

(** The answer shows no task when the request clears it. *)
Definition cleared (v : option string) (e : AIEmployee) : AIEmployee :=
  match v with
  | Some v =>
      if String.eqb (TrimSpace v) "" then
        mkEmployee (m_ID e) (m_TeamID e) (m_DepartmentID e) (m_WorkspaceID e) (m_Name e) (m_Role e) (m_Capabilities e) (m_Permissions e)
          (m_KnowledgeAccess e) None (m_CreatedAt e) (m_UpdatedAt e)
      else e
  | None => e
  end.

Definition Employee_Update (body : Body updateAIEmployeeRequest) : handler (Front World) OrgAnswer :=
  cw <~ emp_scope "update-ai-employee" ;;
  let '(claims, ws) := cw in
  id <~ aiEmployeeIDFromPath ;;
  let failed {B} (detail : string) (answer : Response OrgAnswer) : M B :=
    emp_failing claims "update-ai-employee" id ws "failed" detail answer in
  req <~ decoded body (failed "invalid_body") ;;
  check! bool_decide (is_Some (ue_Name req)) || bool_decide (is_Some (ue_Role req)) || bool_decide (is_Some (ue_TeamID req))
         || bool_decide (is_Some (ue_Capabilities req)) || bool_decide (is_Some (ue_CurrentTaskID req))
    else failed "empty_update" (Refused 400 "at least one field is required") ;;
  name <~ field (ue_Name req) (org_text "name" employeeNameMaxRunes failed (not_blank "name")) ;;
  role <~ field (ue_Role req) (org_text "role" employeeRoleMaxRunes failed (not_blank "role")) ;;
  team <~ field (ue_TeamID req) (fun v =>
    match uuid_Parse (TrimSpace v) with
    | Some t => act_ret t
    | None => failed "invalid_team_id" (Refused 400 "team_id must be a UUID")
    end) ;;
  task <~ field (ue_CurrentTaskID req) (current_task failed) ;;
  e <~ org_calling (employee_fail claims "update-ai-employee" id) (UpdateEmployee rls env ws id name role (ue_Capabilities req) team task) ;;
  let e := cleared (ue_CurrentTaskID req) e in
  emp_record claims "update-ai-employee" (m_ID e) ws "success" "" ;;!
  act_ret (Answered 200 (OneEmployee (toAIEmployeeResponse e))).

Definition Employee_Delete : handler (Front World) OrgAnswer :=
  cw <~ emp_scope "delete-ai-employee" ;;
  let '(claims, ws) := cw in
  id <~ aiEmployeeIDFromPath ;;
  org_calling (employee_fail claims "delete-ai-employee" id) (DeleteEmployee env ws id) ;;!
  emp_record claims "delete-ai-employee" id ws "success" "" ;;!
  act_ret (Answered 204 OrgNoContent).
End org.
