(* ===== verification/OrgHttpProps.v ===== *)
(** * What the routes of the organisation guarantee

    A request reaches the rows of the workspace of its claims only. *)

From S2P Require Import Prelude GoLib GoText Rbac Authz AuditChain Keyset Org OrgProps Http Surface OrgHttp.

Inductive OrgRequest : Type :=
| HListDepartments (r : Http.Request) | HGetDepartment (r : Http.Request) | HDeleteDepartment (r : Http.Request)
| HCreateDepartment (r : Http.Request) (body : Body createDepartmentRequest)
| HUpdateDepartment (r : Http.Request) (body : Body updateDepartmentRequest)
| HListTeams (r : Http.Request) | HGetTeam (r : Http.Request) | HDeleteTeam (r : Http.Request)
| HCreateTeam (r : Http.Request) (body : Body createTeamRequest)
| HUpdateTeam (r : Http.Request) (body : Body updateTeamRequest)
| HListEmployees (r : Http.Request) | HGetEmployee (r : Http.Request) | HDeleteEmployee (r : Http.Request)
| HCreateEmployee (r : Http.Request) (body : Body createAIEmployeeRequest)
| HUpdateEmployee (r : Http.Request) (body : Body updateAIEmployeeRequest).

Definition org_request (q : OrgRequest) : Http.Request :=
  match q with
  | HListDepartments r | HGetDepartment r | HDeleteDepartment r | HCreateDepartment r _ | HUpdateDepartment r _
  | HListTeams r | HGetTeam r | HDeleteTeam r | HCreateTeam r _ | HUpdateTeam r _
  | HListEmployees r | HGetEmployee r | HDeleteEmployee r | HCreateEmployee r _ | HUpdateEmployee r _ => r
  end.

(** The workspaces the rows of an answer name. *)
Definition shown_workspaces (resp : Response OrgAnswer) : list string :=
  match resp with
  | Answered _ (OneDepartment d) => [dp_WorkspaceID d]
  | Answered _ (DepartmentPage p) => map dp_WorkspaceID (pp_Rows p)
  | Answered _ (OneTeam t) => [tp_WorkspaceID t]
  | Answered _ (TeamPage p) => map tp_WorkspaceID (pp_Rows p)
  | Answered _ (OneEmployee e) => [mp_WorkspaceID e]
  | Answered _ (EmployeePage p) => map mp_WorkspaceID (pp_Rows p)
  | Answered _ OrgNoContent | Refused _ _ => []
  end.

(** ** What the services hand out *)

Section handed_out.
Context `{UuidText, StoredTime, SqlLower, Collation}.
Variable rls : bool.
Variable env : nat -> TxTick OrgDB.
Variable draw : nat -> uuid.
Variable ws : uuid.

Definition ours {A} (workspace : A -> uuid) (x : A) : Prop := workspace x = ws.
Definition all_ours {A} (workspace : A -> uuid) (p : Page A) : Prop := forall x, x ∈ pg_Rows p -> workspace x = ws.

Lemma org_gives_tx {A} (op : time -> OrgDB -> res err (A * OrgDB)) (Φ : A -> Prop) :
  (forall now db a db', op now db = Ok (a, db') -> Φ a) -> gives (tx env op) Φ.
Proof. apply (gives_tx op ErrStore (fun w => env (w_at w)) w_db). intros w. unfold tx. by destruct (run_tx _ _ _ _). Qed.
Lemma org_gives_read {A} (op : OrgDB -> res err A) (Φ : A -> Prop) :
  (forall db a, op db = Ok a -> Φ a) -> gives (read env op) Φ.
Proof. intros Ho. apply org_gives_tx. intros now db a db' (a' & Ha & [= <- _])%res_bind_Ok. by eapply Ho. Qed.

(** A service method ends with what its store call gives. *)
Ltac handed :=
  repeat first
    [ apply gives_fail | apply gives_if
    | eapply gives_bind; [apply gives_any|intros ? _]
    | match goal with |- gives (match ?x with _ => _ end) _ => destruct x end ].

Lemma dept_in_ours i row d : dept_in ws i row = Some d -> d_WorkspaceID d = ws.
Proof. unfold dept_in. destruct (N.eqb_spec (dr_Workspace row) ws); [|done]. by intros [= <-]. Qed.
Lemma team_in_ours db i row t : team_in db ws i row = Some t -> t_WorkspaceID t = ws.
Proof. unfold team_in. case_match; [|done]. by intros [= <-]. Qed.
Lemma emp_in_ours db i row e : emp_in db ws i row = Some e -> m_WorkspaceID e = ws.
Proof. unfold emp_in. repeat case_match; [|done..]. by intros [= <-]. Qed.

Lemma page_of_sub {A} (created : A -> time) ident limit at_ rows : pg_Rows (page_of created ident limit at_ rows) ⊆ rows.
Proof.
  unfold page_of. destruct (keyset_page _ _ _ _) as [shown next] eqn:Hk. simpl. intros x Hx.
  assert (x ∈ filter (fun x => past created ident at_ x = true) rows) as Hin; [|by apply list_elem_of_filter in Hin as [_ ?]].
  eapply keyset_page_sub. by rewrite Hk.
Qed.

Lemma GetDepartment_ours id : gives (GetDepartment env ws id) (ours d_WorkspaceID).
Proof.
  unfold GetDepartment. handed. apply org_gives_read. intros db d. unfold dept_Get. destruct (o_depts db !! id) as [row|]; [|done].
  destruct (dept_in ws id row) eqn:Hd; [|done]. intros [= <-]. by eapply dept_in_ours.
Qed.
Lemma ListDepartments_ours q : gives (ListDepartmentsPage env ws q) (all_ours d_WorkspaceID).
Proof.
  unfold ListDepartmentsPage. handed. apply org_gives_read. intros db p. unfold dept_ListPage.
  intros (at_ & _ & [= <-])%res_bind_Ok x Hx%page_of_sub. apply scan_elem in Hx as (i & row & _ & Hr). by eapply dept_in_ours.
Qed.
Lemma CreateDepartment_ours name : gives (CreateDepartment env draw ws name) (ours d_WorkspaceID).
Proof.
  unfold CreateDepartment. cbv zeta. do 3 (apply gives_if; [|apply gives_fail]). apply (gives_bind _ _ (ours d_WorkspaceID)).
  - unfold dept_New. handed. by apply gives_ret.
  - intros d Hd. apply org_gives_tx. intros now db a db' Hc. unfold dept_Create in Hc. cbv zeta in Hc.
    apply guard_Ok in Hc as [_ Hc]. apply guard_Ok in Hc as [_ Hc]. apply guard_Ok in Hc as [_ Hc]. case_match; [done|].
    by apply guard_Ok in Hc as [_ [= <- _]].
Qed.
Lemma UpdateDepartment_ours id name : gives (UpdateDepartment env ws id name) (ours d_WorkspaceID).
Proof.
  unfold UpdateDepartment. handed. apply org_gives_tx. intros now db a' db' Hc. unfold dept_Update in Hc.
  case_match; [|done]. apply guard_Ok in Hc as [Hw%N.eqb_eq Hc].
  cbv zeta in Hc. apply guard_Ok in Hc as [_ Hc]. by apply guard_Ok in Hc as [_ [= <- _]].
Qed.

Lemma GetTeam_ours id : gives (GetTeam env ws id) (ours t_WorkspaceID).
Proof.
  unfold GetTeam. handed. apply org_gives_read. intros db t. unfold team_Get. destruct (o_teams db !! id) as [row|]; [|done].
  destruct (team_in db ws id row) eqn:Hd; [|done]. intros [= <-]. by eapply team_in_ours.
Qed.
Lemma ListTeams_ours q : gives (ListTeamsPage rls env ws q) (all_ours t_WorkspaceID).
Proof.
  unfold ListTeamsPage. handed. apply org_gives_read. intros db p. unfold team_ListPage.
  intros (at_ & _ & [= <-])%res_bind_Ok x Hx%page_of_sub. apply list_elem_of_filter in Hx as [_ Hx].
  apply scan_elem in Hx as (i & row & _ & Hr). by eapply team_in_ours.
Qed.
Lemma CreateTeam_ours dept name : gives (CreateTeam rls env draw ws dept name) (ours t_WorkspaceID).
Proof.
  unfold CreateTeam. cbv zeta. do 3 (apply gives_if; [|apply gives_fail]). eapply gives_bind; [apply gives_any|]. intros _ _.
  apply (gives_bind _ _ (ours t_WorkspaceID)).
  - unfold team_New. handed. by apply gives_ret.
  - intros t Ht. apply org_gives_tx. intros now db a db' Hc. unfold team_Create in Hc. apply res_bind_Ok in Hc as (_ & _ & Hc). cbv zeta in Hc.
    apply guard_Ok in Hc as [_ Hc]. apply guard_Ok in Hc as [_ Hc]. apply guard_Ok in Hc as [_ Hc]. case_match; [done|]. by injection Hc as <- _.
Qed.
Lemma UpdateTeam_ours id name dept : gives (UpdateTeam rls env ws id name dept) (ours t_WorkspaceID).
Proof.
  unfold UpdateTeam. handed. apply org_gives_tx. intros now db a' db' Hc. unfold team_Update in Hc.
  case_match; [|done]. cbv zeta in Hc. do 3 apply guard_Ok in Hc as [_ Hc]. by apply guard_Ok in Hc as [_ [= <- _]].
Qed.

Lemma GetEmployee_ours id : gives (GetEmployee env ws id) (ours m_WorkspaceID).
Proof.
  unfold GetEmployee. handed. apply org_gives_read. intros db e. unfold emp_Get. destruct (o_emps db !! id) as [row|]; [|done].
  destruct (emp_in db ws id row) eqn:Hd; [|done]. intros [= <-]. by eapply emp_in_ours.
Qed.
Lemma ListEmployees_ours q : gives (ListEmployeesPage rls env ws q) (all_ours m_WorkspaceID).
Proof.
  unfold ListEmployeesPage. handed. apply org_gives_read. intros db p. unfold emp_ListPage.
  intros (at_ & _ & [= <-])%res_bind_Ok x Hx%page_of_sub. apply list_elem_of_filter in Hx as [_ Hx].
  apply scan_elem in Hx as (i & row & _ & Hr). by eapply emp_in_ours.
Qed.
Lemma CreateEmployee_ours team name role caps : gives (CreateEmployee rls env draw ws team name role caps) (ours m_WorkspaceID).
Proof.
  unfold CreateEmployee. cbv zeta. do 3 (apply gives_if; [|apply gives_fail]). eapply gives_bind; [apply gives_any|]. intros wd _.
  apply (gives_bind _ _ (ours m_WorkspaceID)).
  - unfold emp_New. handed. by apply gives_ret.
  - intros e He. apply org_gives_tx. intros now db a db' Hc. unfold emp_Create in Hc. apply res_bind_Ok in Hc as (dept & _ & Hc). cbv zeta in Hc.
    apply guard_Ok in Hc as [_ Hc]. apply guard_Ok in Hc as [_ Hc]. apply guard_Ok in Hc as [_ Hc]. case_match; [done|]. by injection Hc as <- _.
Qed.
Lemma UpdateEmployee_ours id name role caps team task : gives (UpdateEmployee rls env ws id name role caps team task) (ours m_WorkspaceID).
Proof.
  unfold UpdateEmployee. cbv zeta. handed. apply org_gives_tx. intros now db x db' Hc. unfold emp_Update in Hc.
  case_match; [|done]. cbv zeta in Hc. do 3 apply guard_Ok in Hc as [_ Hc]. by apply guard_Ok in Hc as [_ [= <- _]].
Qed.
End handed_out.

(** ** The handlers *)

Section routes.
Context `{UuidText, UuidParse, StoredTime, SqlLower, Collation, MapOrder}.
Variable rls : bool.
Variable env : nat -> TxTick OrgDB.
Variable draw : nat -> uuid.
Variable draw_header : nat -> bool -> string.
Variable sink : Sink.

Definition org_route (q : OrgRequest) : handler (Front World) OrgAnswer :=
  match q with
  | HListDepartments r => Department_List env draw_header sink r
  | HGetDepartment r => Department_Get env draw_header sink r
  | HDeleteDepartment r => Department_Delete env draw_header sink r
  | HCreateDepartment r body => Department_Create env draw draw_header sink r body
  | HUpdateDepartment r body => Department_Update env draw_header sink r body
  | HListTeams r => Team_List rls env draw_header sink r
  | HGetTeam r => Team_Get env draw_header sink r
  | HDeleteTeam r => Team_Delete env draw_header sink r
  | HCreateTeam r body => Team_Create rls env draw draw_header sink r body
  | HUpdateTeam r body => Team_Update rls env draw_header sink r body
  | HListEmployees r => Employee_List rls env draw_header sink r
  | HGetEmployee r => Employee_Get env draw_header sink r
  | HDeleteEmployee r => Employee_Delete env draw_header sink r
  | HCreateEmployee r body => Employee_Create rls env draw draw_header sink r body
  | HUpdateEmployee r body => Employee_Update rls env draw_header sink r body
  end.

Section safety.
Variable J : World -> Prop.
Variable G : Response OrgAnswer -> Prop.
Hypothesis refusals : forall code msg, (400 <= code)%Z -> G (Refused code msg).

Lemma safe_org_calling {B} r sf row invalid claims action id (m : act World err B) (Φ : B -> Prop) :
  (forall w, J w -> J (m w).2) -> gives m Φ ->
  safe J G (org_calling (org_fail draw_header sink r sf row invalid claims action id) m) Φ.
Proof.
  intros HJ HΦ. eapply safe_bind; [apply safe_svc; intros w Hw; split; [by apply HJ|apply HΦ]|].
  intros [b|e] Hb; [by apply safe_ret|]. destruct e; simpl; safe_step.
Qed.

Lemma safe_parseOrgQuery r parent : safe J G (parseOrgQuery r parent) (fun _ => True).
Proof. unfold parseOrgQuery, silent. repeat safe_step. Qed.

Lemma safe_org_text what max failed blank v :
  (forall d m, safe J G (failed d (Refused 400 m)) (fun _ => True)) -> safe J G (org_text what max failed blank v) (fun _ => True).
Proof. intros Hf. unfold org_text. cbv zeta. destruct (negb _); [|apply Hf]. destruct (_ <=? _)%nat; [by apply safe_ret|apply Hf]. Qed.

Lemma safe_current_task failed v :
  (forall d m, safe J G (failed d (Refused 400 m)) (fun _ => True)) -> safe J G (current_task failed v) (fun _ => True).
Proof. intros Hf. unfold current_task. repeat case_match; [by apply safe_ret..|apply Hf]. Qed.
End safety.

Section scoped.
Variable J : World -> Prop.
Variable ws : uuid.
Hypothesis serve_J : forall req w, req_ws req = ws -> J w -> J (serve rls env draw req w).
Hypothesis dept_J : forall id w, J w -> J (GetDepartment env ws id w).2.
Hypothesis team_J : forall id w, J w -> J (GetTeam env ws id w).2.
Hypothesis emp_J : forall id w, J w -> J (GetEmployee env ws id w).2.

Definition names_only (resp : Response OrgAnswer) : Prop := forall v, v ∈ shown_workspaces resp -> v = uuid_String ws.

Lemma names_refused code msg : (400 <= code)%Z -> names_only (Refused code msg).
Proof. by intros _ v Hv%elem_of_nil. Qed.
Lemma names_one code a v : shown_workspaces (Answered code a) = [v] -> v = uuid_String ws -> names_only (Answered code a).
Proof. intros Hs -> u Hu. rewrite Hs in Hu. by apply list_elem_of_singleton in Hu. Qed.
Lemma names_page {A B} (f : A -> B) (name : B -> string) (workspace : A -> uuid) (p : Page A) code a :
  all_ours ws workspace p -> (forall x, name (f x) = uuid_String (workspace x)) ->
  shown_workspaces (Answered code a) = map name (map f (pg_Rows p)) -> names_only (Answered code a).
Proof.
  intros Hp Hf Hs v Hv. rewrite Hs in Hv. apply list_elem_of_fmap in Hv as (b & -> & Hb). apply list_elem_of_fmap in Hb as (x & -> & Hx).
  by rewrite Hf, (Hp x Hx).
Qed.

(** The call of the service in a handler: its request, and what it hands out. *)
Ltac org_call req lem :=
  eapply safe_bind;
    [apply safe_org_calling; [done|intros w Hw; first [exact (serve_J req w eq_refl Hw)|by apply dept_J|by apply team_J|by apply emp_J]|apply lem]|].
Ltac org_text_step := first [apply safe_parseOrgQuery; done | apply safe_org_text; [intros ? ?] | apply safe_current_task; [intros ? ?]].
Ltac org_steps := repeat first [org_text_step | safe_step].
Ltac one_row := eapply safe_bind; [apply safe_record|]; intros _ _; apply safe_ret; eapply names_one; [done|]; simpl; congruence.

Lemma org_route_safe q c : caller (org_request q) = Some (c, ws) -> safe J names_only (org_route q) names_only.
Proof.
  pose proof names_refused as Hr.
  intros Hc. destruct q as [r|r|r|r body|r body|r|r|r|r body|r body|r|r|r|r body|r body]; simpl in Hc; cbn [org_route];
    (eapply safe_bind; [by apply safe_scope|]; intros cw Hcw; rewrite Hc in Hcw; injection Hcw as <-).
  - eapply safe_bind; [by apply safe_parseOrgQuery|]. intros q _. org_call (ReqListDepartments ws q) ListDepartments_ours.
    intros p Hp. eapply safe_bind; [apply safe_record|]. intros _ _. apply safe_ret. by eapply (names_page toDepartmentResponse dp_WorkspaceID d_WorkspaceID).
  - eapply safe_bind; [by apply safe_idFromPath|]. intros id _. org_call (ReqDeleteDepartment ws id) GetDepartment_ours. intros d Hd. one_row.
  - eapply safe_bind; [by apply safe_idFromPath|]. intros id _. org_call (ReqDeleteDepartment ws id) (@gives_any World err unit).
    intros _ _. eapply safe_bind; [apply safe_record|]. intros _ _. apply safe_ret. by intros v Hv%elem_of_nil.
  - cbv zeta. eapply safe_bind; [org_steps|]. intros req _. eapply safe_bind; [org_steps|]. intros name _.
    org_call (ReqCreateDepartment ws name) CreateDepartment_ours. intros d Hd. one_row.
  - eapply safe_bind; [by apply safe_idFromPath|]. intros id _. cbv zeta. eapply safe_bind; [org_steps|]. intros req _.
    destruct (ud_Name req); [|org_steps]. eapply safe_bind; [org_steps|]. intros name _.
    org_call (ReqUpdateDepartment ws id name) UpdateDepartment_ours. intros d Hd. one_row.
  - eapply safe_bind; [by apply safe_parseOrgQuery|]. intros q _. org_call (ReqListTeams ws q) ListTeams_ours.
    intros p Hp. eapply safe_bind; [apply safe_record|]. intros _ _. apply safe_ret. by eapply (names_page toTeamResponse tp_WorkspaceID t_WorkspaceID).
  - eapply safe_bind; [by apply safe_idFromPath|]. intros id _. org_call (ReqDeleteTeam ws id) GetTeam_ours. intros t Ht. one_row.
  - eapply safe_bind; [by apply safe_idFromPath|]. intros id _. org_call (ReqDeleteTeam ws id) (@gives_any World err unit).
    intros _ _. eapply safe_bind; [apply safe_record|]. intros _ _. apply safe_ret. by intros v Hv%elem_of_nil.
  - cbv zeta. eapply safe_bind; [org_steps|]. intros req _. eapply safe_bind; [org_steps|]. intros name _.
    destruct (uuid_Parse _) as [dept|]; [|org_steps]. org_call (ReqCreateTeam ws dept name) CreateTeam_ours. intros t Ht. one_row.
  - eapply safe_bind; [by apply safe_idFromPath|]. intros id _. cbv zeta. eapply safe_bind; [org_steps|]. intros req _.
    destruct (_ || _); [|org_steps]. eapply safe_bind; [org_steps|]. intros name _. eapply safe_bind; [org_steps|]. intros dept _.
    org_call (ReqUpdateTeam ws id (default "" name) dept) UpdateTeam_ours. intros t Ht. one_row.
  - eapply safe_bind; [by apply safe_parseOrgQuery|]. intros q _. org_call (ReqListEmployees ws q) ListEmployees_ours.
    intros p Hp. eapply safe_bind; [apply safe_record|]. intros _ _. apply safe_ret. by eapply (names_page toAIEmployeeResponse mp_WorkspaceID m_WorkspaceID).
  - eapply safe_bind; [by apply safe_idFromPath|]. intros id _. org_call (ReqDeleteEmployee ws id) GetEmployee_ours. intros e He. one_row.
  - eapply safe_bind; [by apply safe_idFromPath|]. intros id _. org_call (ReqDeleteEmployee ws id) (@gives_any World err unit).
    intros _ _. eapply safe_bind; [apply safe_record|]. intros _ _. apply safe_ret. by intros v Hv%elem_of_nil.
  - cbv zeta. eapply safe_bind; [org_steps|]. intros req _. do 4 (match goal with |- safe _ _ (if ?b then _ else _) _ => destruct b end; [|org_steps]).
    destruct (uuid_Parse _) as [team|]; [|org_steps].
    org_call (ReqCreateEmployee ws team (TrimSpace (ce_Name req)) (TrimSpace (ce_Role req)) (default [] (ce_Capabilities req))) CreateEmployee_ours.
    intros e He. one_row.
  - eapply safe_bind; [by apply safe_idFromPath|]. intros id _. cbv zeta. eapply safe_bind; [org_steps|]. intros req _.
    match goal with |- safe _ _ (if ?b then _ else _) _ => destruct b end; [|org_steps].
    eapply safe_bind; [org_steps|]. intros name _. eapply safe_bind; [org_steps|]. intros role _.
    eapply safe_bind; [org_steps|]. intros team _. eapply safe_bind; [org_steps|]. intros task _.
    org_call (ReqUpdateEmployee ws id name role (ue_Capabilities req) team task) UpdateEmployee_ours. intros e He.
    assert (m_WorkspaceID (cleared (ue_CurrentTaskID req) e) = ws) as Hcl by (unfold cleared; by repeat case_match). one_row.
Qed.
End scoped.

(** The routes of the organisation stay in the workspace of the claims.  A
    request whose verified claims bind no workspace is refused and reaches no
    row.  Otherwise every row of the answer names that workspace; and what
    another workspace reads of its departments, teams and employees is as it
    was, whatever identifiers the request names, with and without row-level
    security, provided the other processes leave that alone too. *)
Theorem org_routes_confined q s :
  let '(resp, s') := respond (org_route q) s in
  match caller (org_request q) with
  | None => (status resp = 401 \/ status resp = 403)%Z /\ shown_workspaces resp = [] /\ fr_svc s' = fr_svc s
  | Some (_, ws) =>
      (forall v, v ∈ shown_workspaces resp -> v = uuid_String ws) /\
      (forall A, A <> ws -> (forall n db, same_view A db (tt_others (env n) db)) -> forall id,
         dept_Get A id (w_db (fr_svc s')) = dept_Get A id (w_db (fr_svc s)) /\
         team_Get A id (w_db (fr_svc s')) = team_Get A id (w_db (fr_svc s)) /\
         emp_Get A id (w_db (fr_svc s')) = emp_Get A id (w_db (fr_svc s)))
  end.
Proof.
  destruct (caller (org_request q)) as [[c ws]|] eqn:Hc.
  - pose proof (org_route_safe (fun _ => True) ws ltac:(done) ltac:(done) ltac:(done) ltac:(done) q c Hc) as Ha.
    destruct (respond_safe _ _ _ s Ha I) as [Hours _].
    assert (forall A, A <> ws -> (forall n db, same_view A db (tt_others (env n) db)) ->
      same_view A (w_db (fr_svc s)) (w_db (fr_svc (respond (org_route q) s).2))) as Hv.
    { intros A Hne others.
      assert (forall B (m : act World err B) w, keeps w_db (same_view A) anything m ->
        same_view A (w_db (fr_svc s)) (w_db w) -> same_view A (w_db (fr_svc s)) (w_db (m w).2)) as Hk.
      { intros B m w Hm Hw. etrans; [exact Hw|by apply Hm]. }
      eapply (respond_safe (fun w => same_view A (w_db (fr_svc s)) (w_db w)) (names_only ws)); [|reflexivity].
      eapply org_route_safe; [| | | |exact Hc].
      - intros req w Hreq Hw. etrans; [exact Hw|]. eapply (serve_keeps rls env draw (same_view A) others).
        rewrite Hreq. by apply isolation_kept.
      - intros id w. apply Hk. unfold GetDepartment. apply keeps_if; [eapply org_keeps_read; [apply _|exact others|apply stable_anything]|by apply keeps_idle; [apply _|]].
      - intros id w. apply Hk. unfold GetTeam. apply keeps_if; [eapply org_keeps_read; [apply _|exact others|apply stable_anything]|by apply keeps_idle; [apply _|]].
      - intros id w. apply Hk. unfold GetEmployee. apply keeps_if; [eapply org_keeps_read; [apply _|exact others|apply stable_anything]|by apply keeps_idle; [apply _|]]. }
    destruct (respond _ s) as [resp s']. split; [done|]. intros A Hne others id.
    destruct (same_view_reads A _ _ id (Hv A Hne others)) as (E1 & E2 & E3). split_and!; by symmetry.
  - assert (exists code msg s', respond (org_route q) s = (Refused code msg, s') /\ (code = 401 \/ code = 403)%Z /\ fr_svc s' = fr_svc s)
      as (code & msg & s' & -> & ? & ?); [|done].
    destruct q; simpl in Hc; cbn [org_route]; by apply respond_no_caller.
Qed.
End routes.

(** ** Concrete runs *)

#[local] Hint Extern 0 UuidText => exact unary_uuid : typeclass_instances.
#[local] Hint Extern 0 UuidParse => exact unary_parse : typeclass_instances.
#[local] Hint Extern 0 StoredTime => exact microseconds : typeclass_instances.
#[local] Hint Extern 0 SqlLower => exact (fun s => s) : typeclass_instances.
#[local] Hint Extern 0 Collation => exact (fun _ _ => true) : typeclass_instances.
#[local] Hint Extern 0 MapOrder => exact in_order : typeclass_instances.

Definition org_member : Claims := mkClaims (uuid_String 3) RoleWorkspaceAdmin (uuid_String 2) ∅.
Definition org_ask (id : uuid) (query : string) : Http.Request :=
  mkRequest "203.0.113.9:4711" (fun _ => ""%string) query (fun _ => uuid_String id) (Some org_member).
Definition org_front : Front World := mkFront (mkWorld demo_org 0) [] 0.

Abbreviation run sink q := (respond (org_route false still draw_30 (fun _ _ => ""%string) sink q) org_front).

(** A member of workspace 2 tries to rename a team of workspace 1. *)
Lemma org_routes_confined_witness :
  let '(resp, s') := run None (HUpdateTeam (org_ask 12 "") (mkBody (Some (mkUpdateTeam (Some "Mine"%string) None)) false)) in
  status resp = 404%Z /\ (forall v, v ∈ shown_workspaces resp -> v = uuid_String 2) /\
  team_Get 1 12 (w_db (fr_svc s')) = team_Get 1 12 demo_org.
Proof.
  pose proof (org_routes_confined false still draw_30 (fun _ _ => ""%string) None
    (HUpdateTeam (org_ask 12 "") (mkBody (Some (mkUpdateTeam (Some "Mine"%string) None)) false)) org_front) as Hp.
  match goal with |- let '(_, _) := ?a in _ => assert (status a.1 = 404%Z) as Hs by (vm_compute; reflexivity); destruct a as [resp s'] end.
  assert (caller (org_ask 12 "") = Some (org_member, 2%N)) as Hc by (vm_compute; reflexivity).
  cbn [org_request] in Hp. rewrite Hc in Hp. destruct Hp as [Hours Hsame].
  split; [exact Hs|]. split; [exact Hours|].
  destruct (Hsame 1%N ltac:(lia) ltac:(intros n db; reflexivity) 12%N) as (_ & Ht & _). exact Ht.
Defined.

(** Without a sink a department is created and answered as a success, and
    nothing is recorded. *)
Example department_created_unrecorded :
  let '(resp, s') := run None (HCreateDepartment (org_ask 0 "") (mkBody (Some (mkCreateDepartment "Ops")) false)) in
  status resp = 201%Z /\ fr_audit s' = [].
Proof. vm_compute. by split. Qed.

(** A listing filtered by a team: the last page. *)
Example employees_of_team :
  match (run None (HListEmployees (org_ask 0 "team_id=0000000000000000000000&limit=2"))).1 with
  | Answered 200 (EmployeePage p) => map mp_ID (pp_Rows p) = [uuid_String 23] /\ pp_NextCursor p = ""%string /\ pp_Limit p = 2%Z
  | _ => False
  end.
Proof. vm_compute. by split_and!. Qed.
