(* ===== verification/KnowledgeHttp.v ===== *)
(** * The knowledge routes: internal/api/knowledge_handlers.go *)

From S2P Require Import Prelude GoLib GoText Rbac Authz AuditChain Keyset Knowledge Http Surface.

Record createKnowledgeRequest : Type := mkCreateKnowledge { ck_Kind : string; ck_Title : string; ck_Content : string }.
Record updateKnowledgeRequest : Type := mkUpdateKnowledge {
  uk_Kind : option string; uk_Title : option string; uk_Content : option string
}.
Record searchKnowledgeRequest : Type := mkSearchKnowledge { sk_Query : string; sk_Kind : string; sk_Limit : option Z }.

(** The embedding is not part of it; an instant stands for its text. *)
Record knowledgeResponse : Type := mkKnowledgeResponse {
  kr_ID : string; kr_WorkspaceID : string; kr_Kind : string; kr_Title : string; kr_Content : string;
  kr_CreatedAt : time; kr_UpdatedAt : time
}.
Record knowledgePage : Type := mkKnowledgePage { kp_Documents : list knowledgeResponse; kp_NextCursor : string; kp_Limit : Z }.

Inductive KnowledgeAnswer : Type :=
| OneDocument (d : knowledgeResponse)
| KnowledgePage (p : knowledgePage)
| Found (documents : list knowledgeResponse) (count : Z)
| KnowledgeNoContent.

Definition kind_text (k : Kind) : string :=
  match k with
  | KindDocument => "document" | KindCampaignRule => "campaign_rule" | KindStyleGuide => "style_guide" | KindOther s => s
  end.

Definition maxContentRunes : nat := 2000.
Definition maxTitleRunes : nat := 300.

Definition err_Error (e : err) : string :=
  match e with
  | ErrInvalidInput => "knowledge: invalid input"
  | ErrNotFound => "knowledge: not found"
  | ErrWorkspaceMismatch => "knowledge: workspace mismatch"
  | ErrInvalidKind => "knowledge: invalid kind"
  | ErrTooLarge => "knowledge: content exceeds the maximum length"
  | ErrInvalidCursor => "knowledge: invalid cursor"
  | ErrEmbed msg | ErrStore msg => msg
  end.

Definition knowledge_surface : Surface := mkSurface "knowledge." "" "knowledge_document" "Privacy by Design".

Section knowledge.
Context `{VectorText, UuidText, UuidParse, StoredTime, !Nearest, MapOrder}.
Variable env : nat -> TxTick KnowDB.
Variable draw : nat -> uuid.
Variable provider : nat -> uuid -> string -> Z -> res string (list float32).
Variable dimensions : Z.
Variable draw_header : nat -> bool -> string.
Variable sink : Sink.
Variable r : Request.

Abbreviation M := (act (Front World) (Response KnowledgeAnswer)).
Abbreviation scope := (Surface.scope draw_header sink knowledge_surface r true).
Abbreviation recordFailure := (Surface.failing draw_header sink knowledge_surface r).
Abbreviation recordOrInternal := (Surface.recordSuccess draw_header sink knowledge_surface r).

Definition newKnowledgeResponse (d : Document) : knowledgeResponse :=
  mkKnowledgeResponse (uuid_String (d_ID d)) (uuid_String (d_WorkspaceID d)) (kind_text (d_Kind d)) (d_Title d) (d_Content d)
    (d_CreatedAt d) (d_UpdatedAt d).

(** [KnowledgeHandler.fail] *)
Definition fail {B} (claims : Claims) (action : string) (id ws : uuid) (e : err) : M B :=
  match e with
  | ErrNotFound => recordFailure claims action id ws "failed" "not_found" (Refused 404 "knowledge document not found")
  | ErrWorkspaceMismatch => recordFailure claims action id ws "denied" "workspace_mismatch" forbidden
  | ErrInvalidInput | ErrInvalidKind | ErrTooLarge | ErrInvalidCursor =>
      recordFailure claims action id ws "failed" "invalid_request" (Refused 400 (err_Error e))
  | ErrEmbed _ | ErrStore _ => recordFailure claims action id ws "failed" "internal_error" internal_error
  end.

Definition calling {B} (claims : Claims) (action : string) (id ws : uuid) (m : act World err B) : M B :=
  res <~ svc m ;;
  match res with Ok b => act_ret b | Err e => fail claims action id ws e end.

Definition bad_kind : Response KnowledgeAnswer := Refused 400 "kind must be document, campaign_rule or style_guide".
Definition valid_kind (s : string) : option Kind := match ValidateKind s with Ok k => Some k | Err _ => None end.

(** [KnowledgeHandler.kind] *)
Definition kind (claims : Claims) (ws : uuid) (raw action : string) (id : uuid) (allowDefault : bool) : M Kind :=
  let trimmed := TrimSpace raw in
  if String.eqb trimmed "" then
    if allowDefault then act_ret KindDocument
    else recordFailure claims action id ws "failed" "kind_blank" (Refused 400 "kind must not be blank")
  else match valid_kind trimmed with
       | Some k => act_ret k
       | None => recordFailure claims action id ws "failed" "invalid_kind" bad_kind
       end.

Definition checkContentLength (claims : Claims) (ws : uuid) (action : string) (id : uuid) (title content : string) : M unit :=
  check! (rune_count title <=? maxTitleRunes)%nat
    else recordFailure claims action id ws "failed" "title_too_long" (Refused 400 "title is too long") ;;
  check! (String.length content <=? MaxContentLength)%nat
    else recordFailure claims action id ws "failed" "content_too_large" (Refused 400 "content exceeds the maximum length") ;;
  act_ret tt.

Definition docID (claims : Claims) (ws : uuid) (action : string) : M uuid :=
  match uuid_Parse (TrimSpace (rq_PathValue r "id")) with
  | Some id => act_ret id
  | None => recordFailure claims action uuid_Nil ws "failed" "malformed_id" (Refused 400 "malformed knowledge document id")
  end.

Definition parseQuery (claims : Claims) (ws : uuid) : M ListQuery :=
  let said {B} (detail : string) (answer : Response KnowledgeAnswer) : M B :=
    recordFailure claims "list" uuid_Nil ws "failed" detail answer in
  vs <~ known_values r ["kind"; "limit"; "cursor"]%string said ;;
  k <~ optional (values_Get "kind" vs) (fun v => valid_kind (TrimSpace v)) (said "invalid_kind" bad_kind) ;;
  limit <~ optional (values_Get "limit" vs) (Limit 1) (said "invalid_limit" (Refused 400 "limit must be a positive integer")) ;;
  cursor <~ optional (values_Get "cursor" vs) (fun v => match DecodeCursor v with Ok c => Some c | Err _ => None end)
    (said "invalid_cursor" (Refused 400 "cursor is not valid")) ;;
  act_ret (Normalize (mkQuery k (default 0%Z limit) (default no_cursor cursor))).

Definition Create (body : Body createKnowledgeRequest) : handler (Front World) KnowledgeAnswer :=
  cw <~ scope "create" ;;
  let '(claims, ws) := cw in
  req <~ decoded body (recordFailure claims "create" uuid_Nil ws "failed" "malformed_body") ;;
  k <~ kind claims ws (ck_Kind req) "create" uuid_Nil true ;;
  checkContentLength claims ws "create" uuid_Nil (ck_Title req) (ck_Content req) ;;!
  doc <~ calling claims "create" uuid_Nil ws
    (Knowledge.Create env draw provider dimensions no_trace ws k (ck_Title req) (ck_Content req)) ;;
  recordOrInternal claims "create" (d_ID doc) ws "" ;;!
  act_ret (Answered 201 (OneDocument (newKnowledgeResponse doc))).

Definition List : handler (Front World) KnowledgeAnswer :=
  cw <~ scope "list" ;;
  let '(claims, ws) := cw in
  q <~ parseQuery claims ws ;;
  p <~ calling claims "list" uuid_Nil ws (ListPage env ws q) ;;
  act_ret (Answered 200 (KnowledgePage (mkKnowledgePage (map newKnowledgeResponse (pg_Documents p)) (pg_NextCursor p) (pg_Limit p)))).

Definition Get : handler (Front World) KnowledgeAnswer :=
  cw <~ scope "get" ;;
  let '(claims, ws) := cw in
  id <~ docID claims ws "get" ;;
  doc <~ calling claims "get" id ws (Knowledge.Get env ws id) ;;
  act_ret (Answered 200 (OneDocument (newKnowledgeResponse doc))).

Definition Update (body : Body updateKnowledgeRequest) : handler (Front World) KnowledgeAnswer :=
  cw <~ scope "update" ;;
  let '(claims, ws) := cw in
  id <~ docID claims ws "update" ;;
  let failed {B} (detail : string) (answer : Response KnowledgeAnswer) : M B :=
    recordFailure claims "update" id ws "failed" detail answer in
  req <~ decoded body (failed "malformed_body") ;;
  check! bool_decide (is_Some (uk_Kind req)) || bool_decide (is_Some (uk_Title req)) || bool_decide (is_Some (uk_Content req))
    else failed "empty_update" (Refused 400 "at least one field must be provided") ;;
  k <~ field (uk_Kind req) (fun v =>
    check! negb (String.eqb (TrimSpace v) "") else failed "kind_blank" (Refused 400 "kind must not be blank") ;;
    match valid_kind (TrimSpace v) with Some k => act_ret k | None => failed "invalid_kind" bad_kind end) ;;
  doc <~ calling claims "update" id ws
    (Knowledge.Update env provider dimensions no_trace ws id (uk_Title req) (uk_Content req) k) ;;
  recordOrInternal claims "update" (d_ID doc) ws "" ;;!
  act_ret (Answered 200 (OneDocument (newKnowledgeResponse doc))).

Definition Delete : handler (Front World) KnowledgeAnswer :=
  cw <~ scope "delete" ;;
  let '(claims, ws) := cw in
  id <~ docID claims ws "delete" ;;
  calling claims "delete" id ws (Knowledge.Delete env ws id) ;;!
  recordOrInternal claims "delete" id ws "" ;;!
  act_ret (Answered 204 KnowledgeNoContent).

Definition Search (body : Body searchKnowledgeRequest) : handler (Front World) KnowledgeAnswer :=
  cw <~ scope "search" ;;
  let '(claims, ws) := cw in
  let failed {B} (detail : string) (answer : Response KnowledgeAnswer) : M B :=
    recordFailure claims "search" uuid_Nil ws "failed" detail answer in
  req <~ decoded body (failed "malformed_body") ;;
  check! negb (String.eqb (TrimSpace (sk_Query req)) "") else failed "empty_query" (Refused 400 "query must not be empty") ;;
  check! (rune_count (sk_Query req) <=? maxContentRunes)%nat else failed "query_too_long" (Refused 400 "query is too long") ;;
  k <~ optional (TrimSpace (sk_Kind req)) valid_kind (failed "invalid_kind" bad_kind) ;;
  let limit := default 0%Z (sk_Limit req) in
  check! match sk_Limit req with Some l => (1 <=? l)%Z && (l <=? MaxSearchResults)%Z | None => true end
    else failed "invalid_limit" (Refused 400 ("limit must be between 1 and " +:+ strconv_Itoa MaxSearchResults)) ;;
  docs <~ calling claims "search" uuid_Nil ws
    (Knowledge.Search env provider dimensions no_trace ws (sk_Query req) k (NormalizeSearchLimit limit)) ;;
  recordOrInternal claims "search" uuid_Nil ws "" ;;!
  act_ret (Answered 200 (Found (map newKnowledgeResponse docs) (Z.of_nat (length docs)))).
End knowledge.
