(* ===== verification/KnowledgeHttpProps.v ===== *)
(** * What the knowledge routes guarantee

    A request reaches the documents of the workspace of its claims only, a
    search included, whatever the similarity index ranks; and a success that
    changes a document, or searches, is on the audit chain. *)

From S2P Require Import Prelude GoLib GoText Rbac Authz AuditChain Keyset Knowledge KnowledgeProps Http Surface KnowledgeHttp.

Inductive KnowledgeRequest : Type :=
| KnowList (r : Http.Request)
| KnowGet (r : Http.Request)
| KnowCreate (r : Http.Request) (body : Body createKnowledgeRequest)
| KnowUpdate (r : Http.Request) (body : Body updateKnowledgeRequest)
| KnowDelete (r : Http.Request)
| KnowSearch (r : Http.Request) (body : Body searchKnowledgeRequest).

Definition knowledge_request (q : KnowledgeRequest) : Http.Request :=
  match q with KnowList r | KnowGet r | KnowCreate r _ | KnowUpdate r _ | KnowDelete r | KnowSearch r _ => r end.

Definition shown (resp : Response KnowledgeAnswer) : list knowledgeResponse :=
  match resp with
  | Answered _ (OneDocument d) => [d]
  | Answered _ (KnowledgePage p) => kp_Documents p
  | Answered _ (Found l _) => l
  | Answered _ KnowledgeNoContent | Refused _ _ => []
  end.

Definition know_confined `{VectorText} : uuid -> uuid -> KnowDB -> KnowDB -> Prop := confined kd_rows r_Workspace (below kd_rows kd_next).

Ltac know_idle := solve [apply keeps_idle; [apply _|done]].

(** ** The service *)

Section service.
Context `{VectorText, UuidText, StoredTime, !Nearest}.
(** The index ranks what it is given. *)
Hypothesis near : forall v l d, d ∈ nearest v l -> d ∈ l.
Variable env : nat -> TxTick KnowDB.
Variable draw : nat -> uuid.
Variable provider : nat -> uuid -> string -> Z -> res string (list float32).
Variable dimensions : Z.
Variable ws : uuid.

Section confinement.
Variable i : uuid.
Hypothesis others : forall n db, know_confined ws i db (tt_others (env n) db).

Abbreviation kept m := (keeps w_db (know_confined ws i) anything m).

Lemma kept_bind {A B} (m : act World err A) (f : A -> act World err B) : kept m -> (forall a, kept (f a)) -> kept (act_bind m f).
Proof. apply keeps_bind; [apply _|apply stable_anything]. Qed.

Lemma kept_bind_post {A B} (m : act World err A) (f : A -> act World err B) (Q : A -> Prop) :
  gives m Q -> kept m -> (forall a, Q a -> kept (f a)) -> kept (act_bind m f).
Proof. intros Hg. apply keeps_bind_post; [apply _|apply stable_anything|]. intros w a w'. apply Hg. Qed.

Lemma kept_tx {A} (op : time -> KnowDB -> res err (A * KnowDB)) :
  (forall now db a db', op now db = Ok (a, db') -> know_confined ws i db db') -> kept (tx env op).
Proof.
  intros Hop w _. unfold tx. pose proof (run_tx_cases ErrStore (env (w_at w)) op (w_db w)) as Hc.
  destruct (run_tx _ _ _ _) as [x db]. simpl in *.
  destruct Hc as [->|(a & db' & Ho & ->)]; [apply others|]. etrans; [apply others|by eapply Hop].
Qed.

Lemma kept_read {A} (op : KnowDB -> res err A) : kept (read env op).
Proof. apply kept_tx. intros now db a db' (? & _ & [= _ <-])%res_bind_Ok. reflexivity. Qed.

Lemma kept_audited {A} (m : act World err A) ev pr id cx : kept m -> kept (audited m ev pr ws id cx).
Proof.
  intros Hm. apply kept_bind; [by apply keeps_try|]. intros [a|e]; [know_idle|]. apply kept_bind; [know_idle|]. intros _. know_idle.
Qed.

Lemma kept_Embed content : kept (Embed provider dimensions ws content).
Proof. apply keeps_if; know_idle. Qed.

Lemma find_doc_Some id db r : find_doc ws id db = Some r -> kd_rows db !! id = Some r /\ r_Workspace r = ws.
Proof.
  unfold find_doc. destruct (kd_rows db !! id) as [r'|]; [|done]. destruct (N.eqb_spec (r_Workspace r') ws); [|done]. by intros [= <-].
Qed.

Lemma confined_Upsert d now db a db' : d_WorkspaceID d = ws -> db_Upsert d now db = Ok (a, db') -> know_confined ws i db db'.
Proof.
  intros Hws Hu. unfold db_Upsert in Hu. apply guard_Ok in Hu as [_ Hu]. destruct (pg_vector_in _) as [v|]; [|done]. cbv zeta in Hu.
  apply guard_Ok in Hu as [_ Hu]. apply guard_Ok in Hu as [_ [= _ <-]]. eapply confined_insert; [|reflexivity|done|].
  - eapply below_insert; [reflexivity|simpl; lia|simpl; lia].
  - intros Hi. by apply below_fresh.
Qed.

Lemma confined_Update d now db a db' : d_WorkspaceID d = ws -> Knowledge.db_Update d now db = Ok (a, db') -> know_confined ws i db db'.
Proof.
  intros Hws Hu. unfold Knowledge.db_Update in Hu. apply guard_Ok in Hu as [_ Hu]. destruct (pg_vector_in _) as [v|]; [|done]. rewrite Hws in Hu.
  destruct (find_doc ws (d_ID d) db) as [r|] eqn:Hf; [|done]. apply find_doc_Some in Hf as [Hr Hrw]. cbv zeta in Hu.
  apply guard_Ok in Hu as [_ [= _ <-]]. eapply confined_insert; [|reflexivity|done|].
  - intros Hb. eapply below_insert; [reflexivity|reflexivity| |done]. intros <-. by eapply Hb.
  - intros <- _. rewrite Hr. by apply ours_Some.
Qed.

Lemma confined_Delete id now db a db' : db_Delete ws id now db = Ok (a, db') -> know_confined ws i db db'.
Proof.
  unfold db_Delete. destruct (find_doc ws id db) as [r|] eqn:Hf; [|done]. apply find_doc_Some in Hf as [Hr Hrw]. intros [= _ <-].
  eapply confined_delete; [|reflexivity|rewrite Hr; by apply ours_Some]. by eapply below_delete.
Qed.

Lemma New_ours kind title content id now d : New ws kind title content id now = Ok d -> d_WorkspaceID d = ws.
Proof. intros Hn. by apply New_Ok in Hn as [? _]. Qed.

Lemma edited_ours kind title content d d' : edited kind title content d = Ok d' -> d_WorkspaceID d' = d_WorkspaceID d.
Proof. intros He. by apply edited_Ok in He as [? _]. Qed.

Lemma kept_Create cx kind title content : kept (Knowledge.Create env draw provider dimensions cx ws kind title content).
Proof.
  apply kept_bind; [know_idle|]. intros f. apply (kept_bind_post _ _ (fun d => d_WorkspaceID d = ws)); [|apply kept_audited; know_idle|].
  { intros w d w' Hd%audited_Ok. injection Hd as Hd _. by eapply New_ours. }
  intros d Hd. apply kept_bind; [apply kept_audited, kept_Embed|]. intros v. apply kept_bind.
  { apply kept_audited, kept_tx. intros now db a db'. by apply confined_Upsert. }
  intros s. apply kept_bind; [know_idle|]. intros _. apply kept_bind; [know_idle|]. intros _. know_idle.
Qed.

Lemma kept_Update cx id title content kind : kept (Knowledge.Update env provider dimensions cx ws id title content kind).
Proof.
  apply keeps_if; [|know_idle]. apply kept_bind; [apply kept_read|]. intros d0. destruct (N.eqb_spec (d_WorkspaceID d0) ws) as [Hd0|_]; [|know_idle].
  apply (kept_bind_post _ _ (fun d => d_WorkspaceID d = ws)); [|apply kept_audited; know_idle|].
  { intros w d w' Hd%audited_Ok. injection Hd as Hd _. apply edited_ours in Hd. congruence. }
  intros d1 Hd1. apply kept_bind; [know_idle|]. intros now. cbv zeta.
  apply (kept_bind_post _ _ (fun d => d_WorkspaceID d = ws)).
  { apply gives_if; [by apply gives_ret|]. eapply gives_bind; [apply gives_any|]. intros v _. by apply gives_ret. }
  { apply keeps_if; [know_idle|]. apply kept_bind; [apply kept_audited, kept_Embed|]. intros v. know_idle. }
  intros d2 Hd2. apply kept_bind; [apply kept_audited, kept_tx; intros n db a db'; by apply confined_Update|].
  intros s. apply kept_bind; [know_idle|]. intros _. apply kept_bind; [know_idle|]. intros _. know_idle.
Qed.

Lemma kept_Get id : kept (Knowledge.Get env ws id).
Proof. apply kept_bind; [apply kept_read|]. intros d. apply keeps_if; know_idle. Qed.

Lemma kept_Delete id : kept (Knowledge.Delete env ws id).
Proof. apply kept_bind; [|intros _; know_idle]. apply kept_tx. intros now db a db'. apply confined_Delete. Qed.

Lemma kept_ListPage q : kept (ListPage env ws q).
Proof. apply keeps_if; [apply kept_read|know_idle]. Qed.

Lemma kept_Search cx query kind limit : kept (Knowledge.Search env provider dimensions cx ws query kind limit).
Proof.
  do 2 (apply keeps_if; [|know_idle]). apply kept_bind; [apply kept_Embed|]. intros v. cbv zeta. apply kept_bind; [apply kept_read|].
  intros l. apply kept_bind; [know_idle|]. intros _. know_idle.
Qed.
End confinement.

(** *** What it hands out *)

Definition mine (d : Document) : Prop := d_WorkspaceID d = ws.

Lemma gives_tx_ {A} (op : time -> KnowDB -> res err (A * KnowDB)) (Φ : A -> Prop) :
  (forall now db a db', op now db = Ok (a, db') -> Φ a) -> gives (tx env op) Φ.
Proof. apply (gives_tx op ErrStore (fun w => env (w_at w)) w_db). intros w. unfold tx. by destruct (run_tx _ _ _ _). Qed.

Lemma gives_read {A} (op : KnowDB -> res err A) (Φ : A -> Prop) : (forall db a, op db = Ok a -> Φ a) -> gives (read env op) Φ.
Proof. intros Hop. apply gives_tx_. intros now db a db' (a' & Ha & [= <- _])%res_bind_Ok. by eapply Hop. Qed.

Lemma gives_audited {A} (m : act World err A) ev pr id cx (Φ : A -> Prop) : gives m Φ -> gives (audited m ev pr ws id cx) Φ.
Proof. intros Hm w a w' Ha%audited_Ok. by eapply Hm. Qed.

Lemma gives_Create cx kind title content : gives (Knowledge.Create env draw provider dimensions cx ws kind title content) mine.
Proof.
  eapply gives_bind; [apply gives_any|]. intros f _.
  apply (gives_bind _ _ mine); [apply gives_audited; intros w d w' [= Hd _]; by eapply New_ours|]. intros d Hd.
  eapply gives_bind; [apply gives_any|]. intros v _. apply (gives_bind _ _ mine).
  { apply gives_audited, gives_tx_. intros now db a db' Hu. unfold db_Upsert in Hu. apply guard_Ok in Hu as [_ Hu].
    destruct (pg_vector_in _) as [v'|]; [|done]. cbv zeta in Hu. apply guard_Ok in Hu as [_ Hu]. by apply guard_Ok in Hu as [_ [= <- _]]. }
  intros s Hs. do 2 (eapply gives_bind; [apply gives_any|]; intros _ _). by apply gives_ret.
Qed.

Lemma gives_Update cx id title content kind : gives (Knowledge.Update env provider dimensions cx ws id title content kind) mine.
Proof.
  apply gives_if; [|apply gives_fail]. eapply gives_bind; [apply gives_any|]. intros d0 _.
  destruct (N.eqb_spec (d_WorkspaceID d0) ws) as [Hd0|_]; [|apply gives_fail].
  apply (gives_bind _ _ mine).
  { apply gives_audited. intros w d w' [= Hd _]. apply edited_ours in Hd. unfold mine. congruence. }
  intros d1 Hd1. eapply gives_bind; [apply gives_any|]. intros now _. cbv zeta. apply (gives_bind _ _ mine).
  { apply gives_if; [by apply gives_ret|]. eapply gives_bind; [apply gives_any|]. intros v _. by apply gives_ret. }
  intros d2 Hd2. apply (gives_bind _ _ mine).
  { apply gives_audited, gives_tx_. intros n db a db' Hu. unfold Knowledge.db_Update in Hu. apply guard_Ok in Hu as [_ Hu].
    destruct (pg_vector_in _) as [v|]; [|done]. destruct (find_doc _ _ _); [|done]. cbv zeta in Hu. by apply guard_Ok in Hu as [_ [= <- _]]. }
  intros s Hs. do 2 (eapply gives_bind; [apply gives_any|]; intros _ _). by apply gives_ret.
Qed.

Lemma gives_Get id : gives (Knowledge.Get env ws id) mine.
Proof.
  eapply gives_bind; [apply gives_any|]. intros d _. destruct (N.eqb_spec (d_WorkspaceID d) ws); [by apply gives_ret|apply gives_fail].
Qed.

Lemma wanted_mine kind (l : list Document) d : d ∈ filter (fun d => wanted ws kind d = true) l -> mine d.
Proof. intros [Hw _]%list_elem_of_filter. unfold wanted in Hw. apply andb_true_iff in Hw as [Hw _]. by apply N.eqb_eq. Qed.

Lemma gives_ListPage q : gives (ListPage env ws q) (fun p => forall d, d ∈ pg_Documents p -> mine d).
Proof.
  apply gives_if; [|apply gives_fail]. apply gives_read. intros db p Hp. unfold db_ListPage in Hp. cbv zeta in Hp.
  apply guard_Ok in Hp as [_ Hp]. destruct (keyset_page _ _ _ _) as [l next] eqn:Hk. injection Hp as <-. simpl. intros d Hd.
  assert (d ∈ filter (fun d => wanted ws (q_Kind (Normalize (Normalize q))) d &&
      past d_CreatedAt d_ID (cursor_position (q_Before (Normalize (Normalize q)))) d = true) (all_docs db)) as Hin.
  { eapply keyset_page_sub. by rewrite Hk. }
  apply list_elem_of_filter in Hin as [Hm Hin]. apply andb_true_iff in Hm as [Hm _].
  by eapply (wanted_mine (q_Kind (Normalize (Normalize q))) (all_docs db)), list_elem_of_filter.
Qed.

Lemma gives_Search cx query kind limit :
  gives (Knowledge.Search env provider dimensions cx ws query kind limit) (fun l => forall d, d ∈ l -> mine d).
Proof.
  do 2 (apply gives_if; [|apply gives_fail]). eapply gives_bind; [apply gives_any|]. intros v _. cbv zeta.
  eapply gives_bind; [|intros l Hl; eapply gives_bind; [apply gives_any|]; intros _ _; apply gives_ret; exact Hl].
  apply gives_read. intros db l Hl. unfold db_Search in Hl. apply guard_Ok in Hl as [_ Hl].
  destruct (pg_vector_in _) as [v'|]; [|done]. injection Hl as <-. intros d Hd.
  eapply wanted_mine, near, subseteq_take, Hd.
Qed.
End service.

(** ** The handlers *)

Section routes.
Context `{VectorText, UuidText, UuidParse, StoredTime, !Nearest, MapOrder}.
Hypothesis near : forall v l d, d ∈ nearest v l -> d ∈ l.
Variable env : nat -> TxTick KnowDB.
Variable draw : nat -> uuid.
Variable provider : nat -> uuid -> string -> Z -> res string (list float32).
Variable dimensions : Z.
Variable draw_header : nat -> bool -> string.
Variable sink : Sink.

Definition knowledge_route (q : KnowledgeRequest) : handler (Front World) KnowledgeAnswer :=
  match q with
  | KnowList r => List env draw_header sink r
  | KnowGet r => Get env draw_header sink r
  | KnowCreate r body => Create env draw provider dimensions draw_header sink r body
  | KnowUpdate r body => Update env provider dimensions draw_header sink r body
  | KnowDelete r => Delete env draw_header sink r
  | KnowSearch r body => Search env provider dimensions draw_header sink r body
  end.

Section safety.
Variable J : World -> Prop.
Variable G : Response KnowledgeAnswer -> Prop.
Hypothesis refusals : forall code msg, (400 <= code)%Z -> G (Refused code msg).

Lemma safe_know_fail {B} r claims action id ws e (Φ : B -> Prop) : safe J G (fail draw_header sink r claims action id ws e) Φ.
Proof. unfold fail. destruct e; by safe_step. Qed.

Lemma safe_know_calling {B} r claims action id ws (m : act World err B) (Φ : B -> Prop) :
  (forall w, J w -> J (m w).2) -> gives m Φ -> safe J G (calling draw_header sink r claims action id ws m) Φ.
Proof.
  intros Hm Hg. eapply safe_bind; [apply (safe_svc J G m Φ)|].
  - intros w Hw. split; [by apply Hm|]. intros b w'. apply Hg.
  - intros [b|e] Hb; [by apply safe_ret|]. apply safe_know_fail.
Qed.

Lemma safe_kind r claims ws raw action id d : safe J G (kind draw_header sink r claims ws raw action id d) (fun _ => True).
Proof. unfold kind. cbv zeta. destruct (String.eqb _ _); [destruct d|destruct (valid_kind _)]; by safe_step. Qed.

Lemma safe_checkContentLength r claims ws action id title content :
  safe J G (checkContentLength draw_header sink r claims ws action id title content) (fun _ => True).
Proof. unfold checkContentLength. repeat (destruct (_ <=? _)%nat; [|by safe_step]). by safe_step. Qed.

Lemma safe_docID r claims ws action : safe J G (docID draw_header sink r claims ws action) (fun _ => True).
Proof. unfold docID. destruct (uuid_Parse _); by safe_step. Qed.

Lemma safe_parseQuery r claims ws : safe J G (parseQuery draw_header sink r claims ws) (fun _ => True).
Proof. unfold parseQuery. repeat safe_step. Qed.
End safety.

Ltac know_step :=
  first
    [ eapply safe_bind; [solve [by apply safe_kind|by apply safe_checkContentLength|by apply safe_docID|by apply safe_parseQuery]|intros ? _]
    | safe_step ].

Section scoped.
Variable J : World -> Prop.
Variable ws : uuid.
Definition only_ours (resp : Response KnowledgeAnswer) : Prop := forall d, d ∈ shown resp -> kr_WorkspaceID d = uuid_String ws.
Hypothesis Get_J : forall id w, J w -> J (Knowledge.Get env ws id w).2.
Hypothesis List_J : forall q w, J w -> J (ListPage env ws q w).2.
Hypothesis Create_J : forall cx k t c w, J w -> J (Knowledge.Create env draw provider dimensions cx ws k t c w).2.
Hypothesis Update_J : forall cx id t c k w, J w -> J (Knowledge.Update env provider dimensions cx ws id t c k w).2.
Hypothesis Delete_J : forall id w, J w -> J (Knowledge.Delete env ws id w).2.
Hypothesis Search_J : forall cx q k l w, J w -> J (Knowledge.Search env provider dimensions cx ws q k l w).2.

Lemma know_refused code msg : (400 <= code)%Z -> only_ours (Refused code msg).
Proof. by intros _ t Ht%elem_of_nil. Qed.

Lemma know_one code d : mine ws d -> only_ours (Answered code (OneDocument (newKnowledgeResponse d))).
Proof. intros Hws u Hu%list_elem_of_singleton. subst u. simpl. by rewrite Hws. Qed.

Lemma know_many l : (forall d, d ∈ l -> mine ws d) -> forall k, k ∈ map newKnowledgeResponse l -> kr_WorkspaceID k = uuid_String ws.
Proof. intros Hl k (d & -> & Hd)%list_elem_of_fmap. simpl. by rewrite (Hl _ Hd). Qed.

Lemma knowledge_route_safe q c : caller (knowledge_request q) = Some (c, ws) -> safe J only_ours (knowledge_route q) only_ours.
Proof.
  pose proof know_refused as Hr.
  intros Hc. destruct q as [r|r|r body|r body|r|r body]; simpl in Hc; cbn [knowledge_route];
    (eapply safe_bind; [by apply safe_scope|]; intros cw Hcw; rewrite Hc in Hcw; injection Hcw as <-; cbn [fst snd]).
  - know_step. eapply safe_bind; [apply safe_know_calling; [done|by apply List_J|apply gives_ListPage]|].
    intros p Hp. apply safe_ret. exact (know_many _ Hp).
  - know_step. eapply safe_bind; [apply safe_know_calling; [done|by apply Get_J|apply gives_Get]|].
    intros d Hd. by apply safe_ret, know_one.
  - repeat first [eapply safe_bind; [apply safe_know_calling; [done|by apply Create_J|apply gives_Create]|]; intros d Hd|know_step].
    by apply safe_ret, know_one.
  - repeat first [eapply safe_bind; [apply safe_know_calling; [done|by apply Update_J|apply gives_Update]|]; intros d Hd|know_step].
    by apply safe_ret, know_one.
  - repeat first [eapply safe_bind; [apply safe_know_calling; [done|by apply Delete_J|apply gives_any]|]; intros d _|know_step].
    apply safe_ret. by intros k Hk%elem_of_nil.
  - repeat first [eapply safe_bind; [apply safe_know_calling; [done|by apply Search_J|apply gives_Search, near]|]; intros d Hd|know_step].
    apply safe_ret. exact (know_many _ Hd).
Qed.
End scoped.

(** Knowledge routes stay in the workspace of the claims.  A request whose
    verified claims bind no workspace is refused and reaches no document.
    Otherwise every document in the answer, a search's included, whatever the
    index ranks first, is one of that workspace; and a row that the others leave
    alone, or touch only as one of that workspace, is as it was unless it is one
    of that workspace before and after. *)
Theorem knowledge_routes_confined q s :
  let '(resp, s') := respond (knowledge_route q) s in
  match caller (knowledge_request q) with
  | None => (status resp = 401 \/ status resp = 403)%Z /\ shown resp = [] /\ fr_svc s' = fr_svc s
  | Some (_, ws) =>
      (forall d, d ∈ shown resp -> kr_WorkspaceID d = uuid_String ws) /\
      (forall i, (forall n db, know_confined ws i db (tt_others (env n) db)) -> know_confined ws i (w_db (fr_svc s)) (w_db (fr_svc s')))
  end.
Proof.
  destruct (caller (knowledge_request q)) as [[c ws]|] eqn:Hc.
  - pose proof (knowledge_route_safe (fun _ => True) ws ltac:(done) ltac:(done) ltac:(done) ltac:(done) ltac:(done) ltac:(done) q c Hc) as Ha.
    destruct (respond_safe _ _ _ s Ha I) as [Hours _].
    assert (forall i, (forall n db, know_confined ws i db (tt_others (env n) db)) ->
      know_confined ws i (w_db (fr_svc s)) (w_db (fr_svc (respond (knowledge_route q) s).2))) as Hi.
    { intros i others.
      eapply (respond_safe (fun w => know_confined ws i (w_db (fr_svc s)) (w_db w)) (only_ours ws)); [|reflexivity].
      eapply knowledge_route_safe; [..|exact Hc]; intros; apply (keeps_on w_db (know_confined ws i)); try done.
      - by apply kept_Get.
      - by apply kept_ListPage.
      - by apply kept_Create.
      - by apply kept_Update.
      - by apply kept_Delete.
      - by apply kept_Search. }
    destruct (respond _ s) as [resp s']. done.
  - assert (exists code msg s', respond (knowledge_route q) s = (Refused code msg, s') /\ (code = 401 \/ code = 403)%Z /\ fr_svc s' = fr_svc s)
      as (code & msg & s' & -> & ? & ?); [|done].
    destruct q; simpl in Hc; cbn [knowledge_route]; by apply respond_no_caller.
Qed.

(** *** Successes are recorded *)

Definition knowledge_verb (q : KnowledgeRequest) : option string :=
  match q with
  | KnowCreate _ _ => Some "create" | KnowUpdate _ _ => Some "update" | KnowDelete _ => Some "delete" | KnowSearch _ _ => Some "search"
  | KnowList _ | KnowGet _ => None
  end%string.

(** What the answer says the record is of: its document, the one the path names,
    or none for a search. *)
Definition is_of (q : KnowledgeRequest) (resp : Response KnowledgeAnswer) (target : uuid) : Prop :=
  match resp with
  | Answered _ (OneDocument d) => kr_ID d = uuid_String target
  | Answered _ (Found _ _) => target = uuid_Nil
  | Answered _ KnowledgeNoContent => uuid_Parse (TrimSpace (rq_PathValue (knowledge_request q) "id")) = Some target
  | _ => False
  end.

Definition know_recorded (q : KnowledgeRequest) (action : string) (resp : Response KnowledgeAnswer) (a : Audited) : Prop :=
  exists claims ws target, caller (knowledge_request q) = Some (claims, ws) /\ is_of q resp target /\
    records knowledge_surface claims action target ws "" a.

Lemma know_recorded_end q r claims ws action target answer code :
  caller (knowledge_request q) = Some (claims, ws) -> is_of q (Answered code answer) target ->
  ends_recorded (know_recorded q action)
    (act_bind (recordSuccess (W := World) draw_header sink knowledge_surface r claims action target ws "") (fun _ => act_ret (Answered code answer))).
Proof. intros Hc Ht. apply recorded_tail. intros a Ha. by exists claims, ws, target. Qed.

Lemma know_recorded_call {B} D r claims action id ws (m : act World err B) (f : B -> handler (Front World) KnowledgeAnswer) :
  (forall b, ends_recorded D (f b)) -> ends_recorded D (act_bind (calling draw_header sink r claims action id ws m) f).
Proof.
  intros Hf. eapply (recorded_bind _ _ _ (fun _ => True)); [|by intros b _].
  by apply safe_know_calling; [apply refusal_refused|done|apply gives_any].
Qed.

Ltac know_recorded_step :=
  first
    [ eapply recorded_bind; [solve [by apply safe_kind|by apply safe_checkContentLength|by apply safe_docID]|intros ? ?]
    | recorded_step ].

(** A knowledge request that changes a document or searches, and is answered as
    a success, is the latest record on the audit chain: by the caller, in the
    workspace of the claims, of the document of the answer or of the path. *)
Theorem knowledge_success_recorded q action s : knowledge_verb q = Some action ->
  let '(resp, s') := respond (knowledge_route q) s in
  is_success (status resp) = true -> exists a l, fr_audit s' = a :: l /\ know_recorded q action resp a.
Proof.
  pose proof (refusal_refused (A := KnowledgeAnswer)) as Hr. intros Hv. revert s.
  change (ends_recorded (know_recorded q action) (knowledge_route q)).
  destruct q as [r|r|r body|r body|r|r body]; [done..| | | |]; injection Hv as <-; cbn [knowledge_route];
    (eapply recorded_bind; [by apply safe_scope|]; intros [claims ws] Hc); cbn [knowledge_request] in Hc.
  - repeat know_recorded_step. apply know_recorded_call. intros d. by apply know_recorded_end.
  - repeat know_recorded_step. apply know_recorded_call. intros d. by apply know_recorded_end.
  - unfold docID. destruct (uuid_Parse (TrimSpace (rq_PathValue r "id"))) as [id|] eqn:Hid.
    + intros s. unfold act_ret, act_bind at 1. revert s.
      change (ends_recorded (know_recorded (KnowDelete r) "delete")
        (calling draw_header sink r claims "delete" id ws (Knowledge.Delete env ws id) ;;!
         recordSuccess draw_header sink knowledge_surface r claims "delete" id ws "" ;;! act_ret (Answered 204 KnowledgeNoContent))).
      apply know_recorded_call. intros _. by apply know_recorded_end.
    + eapply (recorded_bind _ _ _ (fun _ => False)); [by safe_step|done].
  - repeat know_recorded_step. apply know_recorded_call. intros d. by apply know_recorded_end.
Qed.
End routes.

(** ** Concrete runs *)

#[local] Hint Extern 0 VectorText => exact bit_vectors : typeclass_instances.
#[local] Hint Extern 0 UuidText => exact unary_uuid : typeclass_instances.
#[local] Hint Extern 0 UuidParse => exact unary_parse : typeclass_instances.
#[local] Hint Extern 0 StoredTime => exact microseconds : typeclass_instances.
#[local] Hint Extern 0 MapOrder => exact in_order : typeclass_instances.
#[local] Hint Extern 0 Nearest => exact (fun _ l => l) : typeclass_instances.

(** A document of workspace 7 and one of workspace 8. *)
Definition two_docs : KnowDB :=
  mkKnowDB {[1%N := demo_doc; 2%N := mkDocRow 8 KindDocument "Plan" "Not yours." (Some [true; true]) 0 0]} {[7%N; 8%N]} 3.
Definition know_front : Front World := mkFront (demo_world two_docs) [] 0.

Abbreviation run q := (respond (knowledge_route calm no_ids demo_provider 0 no_header open_sink q) know_front).

Lemma knowledge_routes_confined_witness :
  let '(resp, s') := run (KnowSearch (ask 1 (Some member)) (mkBody (Some (mkSearchKnowledge "plan" "" None)) false)) in
  status resp = 200%Z /\ length (shown resp) = 1 /\
  (forall d, d ∈ shown resp -> kr_WorkspaceID d = uuid_String 7) /\ know_confined 7 2 two_docs (w_db (fr_svc s')).
Proof.
  pose proof (knowledge_routes_confined (fun _ l d H => H) calm no_ids demo_provider 0 no_header open_sink
    (KnowSearch (ask 1 (Some member)) (mkBody (Some (mkSearchKnowledge "plan" "" None)) false)) know_front) as Hp.
  match goal with |- let '(_, _) := ?a in _ =>
    assert (status a.1 = 200%Z) as Hs by (vm_compute; reflexivity);
    assert (length (shown a.1) = 1) as Hl by (vm_compute; reflexivity); destruct a as [resp s'] end.
  assert (caller (ask 1 (Some member)) = Some (member, 7%N)) as Hc by (vm_compute; reflexivity).
  cbn [knowledge_request] in Hp. rewrite Hc in Hp. destruct Hp as [Hours Hrow].
  split; [exact Hs|]. split; [exact Hl|]. split; [exact Hours|]. apply Hrow. intros n db. reflexivity.
Defined.

Lemma knowledge_success_recorded_witness :
  let '(resp, s') := run (KnowDelete (ask 1 (Some member))) in
  status resp = 204%Z /\ exists a l, fr_audit s' = a :: l /\ know_recorded (KnowDelete (ask 1 (Some member))) "delete" resp a.
Proof.
  pose proof (knowledge_success_recorded calm no_ids demo_provider 0 no_header open_sink (KnowDelete (ask 1 (Some member))) "delete"
    know_front eq_refl) as Hp.
  match goal with |- let '(_, _) := ?a in _ =>
    assert (status a.1 = 204%Z) as Hs by (vm_compute; reflexivity); destruct a as [resp s'] end.
  split; [exact Hs|]. apply Hp. cbn [fst] in Hs. unfold is_success. by rewrite Hs.
Defined.

(** ** What is not as it is said to be *)

Definition long_title : string := of_bytes (repeat 84%Z 301).

(** A creation refuses a title over the limit; an edit stores it. *)
Example patched_title_over_limit :
  (run (KnowCreate (ask 1 (Some member)) (mkBody (Some (mkCreateKnowledge "" long_title "Text.")) false))).1 = Refused 400 "title is too long" /\
  status (run (KnowUpdate (ask 1 (Some member)) (mkBody (Some (mkUpdateKnowledge None (Some long_title) None)) false))).1 = 200%Z.
Proof. split; by vm_compute. Qed.
