(* ===== verification/PublicationHttp.v ===== *)
(** * The publication routes: internal/api/publication_handlers.go *)

From S2P Require Import Prelude GoLib GoText Throttle Publish PublishService Rbac Authz AuditChain Http Surface.

Record createPublicationRequest : Type := mkCreatePublication { cp_Title : string; cp_Body : string; cp_Platform : string }.
Record publicationListResponse : Type := mkPublicationList { pl_Publications : list Publication; pl_Count : Z; pl_Limit : Z }.

(** A publication is answered as it is, under its JSON names. *)
Inductive PublicationAnswer : Type := OnePublication (p : Publication) | PublicationList (l : publicationListResponse).

Definition publicationTitleMaxRunes : nat := 200.
Definition publicationBodyMaxRunes : nat := 10000.
Definition publicationPlatformMax : nat := 64.
Definition publicationPageSize : Z := 100.

Definition publication_status (s : string) : Status :=
  if String.eqb s "queued" then StatusQueued else if String.eqb s "review" then StatusReview
  else if String.eqb s "approved" then StatusApproved else if String.eqb s "published" then StatusPublished
  else if String.eqb s "failed" then StatusFailed else if String.eqb s "rejected" then StatusRejected
  else if String.eqb s "cancelled" then StatusCancelled else StatusOther s.

Section publications.
Context `{UuidText, UuidParse, MapOrder}.
Variable env : nat -> TxTick PubDB.
Variable deliver : nat -> Publication -> res err string.
Variable draw_header : nat -> bool -> string.
Variable r : Request.

Abbreviation M := (act (Front World) (Response PublicationAnswer)).

Definition scope : M (Claims * uuid) := signed_scope r (fun id => String.eqb id "").

(** The context of a request carries no actor and no trace of package
    publish. *)
Definition publicationContext (claims : Claims) : M Ctx :=
  cv <~ contextValues draw_header r ;;
  act_ret (WithActor (WithTrace (mkCtx "" "" "") (cv_TraceID cv) (cv_SpanID cv)) (cl_ID claims)).

Definition publicationID : M uuid := namedID r "invalid publication id".

Definition publicationError {B} (e : err) : M B :=
  match e with
  | ErrNotFound | ErrWorkspaceMismatch => act_fail (Refused 404 "publication not found")
  | ErrRateLimited => act_fail (Refused 429 "publishing rate limit exceeded")
  | ErrInvalidInput | ErrEmptyContent | ErrInvalidStatus | ErrInvalidTransition | ErrTerminalState | ErrApprovalRequired
  | ErrUnauthorizedApprover | ErrUnauthorizedRejecter | ErrUnauthorizedPublisher => act_fail (Refused 400 (err_Error e))
  | ErrStore _ | ErrDelivery _ => act_fail (Refused 502 "publication delivery failed")
  end.

Definition calling {B} (m : act World err B) : M B :=
  res <~ svc m ;;
  match res with Ok b => act_ret b | Err e => publicationError e end.

Definition validPublicationText (title body platform : string) : M unit :=
  check! negb (String.eqb (TrimSpace title) "" || String.eqb (TrimSpace body) "")
    else act_fail (Refused 400 "title and body are required") ;;
  check! (rune_count title <=? publicationTitleMaxRunes)%nat && (rune_count body <=? publicationBodyMaxRunes)%nat
    else act_fail (Refused 400 "publication content is too long") ;;
  check! negb (String.eqb (TrimSpace platform) "") else act_fail (Refused 400 "platform is required") ;;
  check! (rune_count platform <=? publicationPlatformMax)%nat else act_fail (Refused 400 "platform is too long") ;;
  act_ret tt.

Definition parsePublicationQuery : M (option Status * Z) :=
  vs <~ known_values r ["status"; "limit"]%string silent ;;
  status <~ optional (TrimSpace (values_Get "status" vs))
    (fun v => if ValidStatus (publication_status v) then Some (publication_status v) else None)
    (act_fail (Refused 400 "invalid publication status")) ;;
  limit <~ optional (values_Get "limit" vs)
    (fun v => match Limit 1 v with Some n => if (n <=? publicationPageSize)%Z then Some n else None | None => None end)
    (act_fail (Refused 400 "limit must be between 1 and 100")) ;;
  act_ret (status, default 50%Z limit).

Definition Create (body : Body createPublicationRequest) : handler (Front World) PublicationAnswer :=
  cw <~ scope ;;
  let '(claims, ws) := cw in
  req <~ decoded body act_fail ;;
  validPublicationText (cp_Title req) (cp_Body req) (cp_Platform req) ;;!
  key <~ idempotencyKey r ;;
  cx <~ publicationContext claims ;;
  p <~ calling (CreateWithIdempotency env cx ws None None (cp_Title req) (cp_Body req) (cp_Platform req) key) ;;
  act_ret (Answered 201 (OnePublication p)).

Definition List : handler (Front World) PublicationAnswer :=
  cw <~ scope ;;
  let '(claims, ws) := cw in
  q <~ parsePublicationQuery ;;
  let '(status, limit) := q in
  _ <~ publicationContext claims ;;
  l <~ calling (PublishService.List env ws status) ;;
  let l := take (Z.to_nat limit) l in
  act_ret (Answered 200 (PublicationList (mkPublicationList l (Z.of_nat (length l)) limit))).

Definition Get : handler (Front World) PublicationAnswer :=
  cw <~ scope ;;
  let '(claims, ws) := cw in
  id <~ publicationID ;;
  _ <~ publicationContext claims ;;
  p <~ calling (PublishService.Get env ws id) ;;
  act_ret (Answered 200 (OnePublication p)).

Definition Submit (body : option string) : handler (Front World) PublicationAnswer :=
  cw <~ scope ;;
  let '(claims, ws) := cw in
  emptyBody body ;;!
  id <~ publicationID ;;
  cx <~ publicationContext claims ;;
  p <~ calling (ToReview env cx ws id) ;;
  act_ret (Answered 200 (OnePublication p)).

(** [fn] may return a publication together with an error. *)
Definition decide (body : option string) (fn : Ctx -> uuid -> uuid -> string -> act World err (Publication * option err))
  : handler (Front World) PublicationAnswer :=
  cw <~ scope ;;
  let '(claims, ws) := cw in
  check! bool_decide (cl_Role claims = RoleWorkspaceAdmin) else act_fail forbidden ;;
  emptyBody body ;;!
  id <~ publicationID ;;
  cx <~ publicationContext claims ;;
  pe <~ calling (fn cx ws id (cl_ID claims)) ;;
  match pe with
  | (_, Some e) => publicationError e
  | (p, None) => act_ret (Answered 200 (OnePublication p))
  end.

Definition no_error {B} (m : act World err B) : act World err (B * option err) := b <~ m ;; act_ret (b, None).

Definition Approve (body : option string) : handler (Front World) PublicationAnswer :=
  decide body (fun cx ws id actor => no_error (PublishService.Approve env cx ws id actor)).
Definition Reject (body : option string) : handler (Front World) PublicationAnswer :=
  decide body (fun cx ws id actor => no_error (PublishService.Reject env cx ws id actor)).
Definition Publish (body : option string) : handler (Front World) PublicationAnswer :=
  decide body (PublishService.Publish env deliver).
Definition Retry (body : option string) : handler (Front World) PublicationAnswer :=
  decide body (PublishService.Retry env deliver).
End publications.
