(* ===== verification/PublicationHttpProps.v ===== *)
(** * What the publication routes guarantee

    A request becomes at most one request of the publishing service, in the
    workspace of its signatory, and a decision only of an admin and under the
    admin's own identifier; the answer shows publications of that workspace
    only; and the signatures on record are those of admins. *)

From S2P Require Import Prelude GoLib GoText Throttle Publish PublishService PublishProps Rbac Authz AuditChain Keyset Http Surface PublicationHttp.

(** ** Signatures *)

Definition signatures (p : Publication) : list string := omap id [p_ApprovedBy p; p_RejectedBy p; p_PublishedBy p].

Lemma elem_signatures p a :
  a ∈ signatures p <-> p_ApprovedBy p = Some a \/ p_RejectedBy p = Some a \/ p_PublishedBy p = Some a.
Proof. unfold signatures. rewrite list_elem_of_omap. simpl. set_solver. Qed.

(** ** What a service request does to the tables *)

Section kept.
Context `{UuidText}.
Variable env : nat -> TxTick PubDB.
Variable deliver : nat -> Publication -> res err string.
Variable R : PubDB -> PubDB -> Prop.
Context `{!PreOrder R}.
(** What holds of the tables throughout. *)
Variable F : PubDB -> Prop.
Hypothesis F_kept : stable R F.
Hypothesis others : forall n db, R db (tt_others (env n) db).

(** Who may have signed in which workspace. *)
Variable vouched : uuid -> string -> Prop.
Definition stamped (p : Publication) : Prop := forall a, a ∈ signatures p -> vouched (p_WorkspaceID p) a.

Variable ws : uuid.
Definition mine (p : Publication) : Prop := p_WorkspaceID p = ws /\ stamped p.
Hypothesis on_record : forall db i p, F db -> pd_rows db !! i = Some p -> stamped p.
Hypothesis creating : forall p now db a db', mine p -> F db -> db_Create p now db = Ok (a, db') -> R db db'.
Hypothesis updating : forall p now db a db', mine p -> F db -> db_Update ws p now db = Ok (a, db') -> R db db'.

Abbreviation kept m := (keeps w_db R F m).

Lemma pub_bind {A B} (m : act World err A) (f : A -> act World err B) : kept m -> (forall a, kept (f a)) -> kept (act_bind m f).
Proof. by apply keeps_bind. Qed.

Lemma pub_idle {A} (m : act World err A) : (forall w, w_db (m w).2 = w_db w) -> kept m.
Proof. by apply keeps_idle. Qed.

Lemma pub_tx {A} (op : time -> PubDB -> res err (A * PubDB)) :
  (forall now db a db', F db -> op now db = Ok (a, db') -> R db db') -> kept (tx env op).
Proof.
  intros Hop w Hw. unfold tx. pose proof (run_tx_cases ErrStore (env (w_at w)) op (w_db w)) as Hc.
  destruct (run_tx _ _ _ _) as [x db]. simpl in *.
  destruct Hc as [->|(a & db' & Ho & ->)]; [apply others|]. etrans; [apply others|eapply Hop; [|done]]. eapply F_kept; [exact Hw|apply others].
Qed.

Lemma pub_read {A} (op : PubDB -> res err A) : kept (read env op).
Proof. apply pub_tx. intros now db a db' _ (? & _ & [= _ <-])%res_bind_Ok. reflexivity. Qed.

Lemma pub_throttle k : kept (throttle_Allow env k).
Proof. apply pub_idle. intros w. unfold throttle_Allow. by destruct (Allow _ _ _). Qed.

(** A publication read is one of the workspace, signed by those vouched for. *)
Lemma pub_owned {A} id (f : Publication -> act World err A) : (forall p, mine p -> kept (f p)) -> kept (act_bind (getOwned env ws id) f).
Proof.
  intros Hf. apply (keeps_bind_learn w_db R F (fun p db => mine p /\ F db)).
  - intros w p w' Hw Hp. unfold getOwned in Hp. apply act_bind_Ok in Hp as (q & w1 & Hq & Hp).
    destruct (N.eqb_spec (p_WorkspaceID q) ws) as [Hws|]; [|done]. injection Hp as -> ->. unfold read, tx in Hq.
    pose proof (run_tx_cases ErrStore (env (w_at w)) (fun _ db => try! a := db_Get ws id db in Ok (a, db)) (w_db w)) as Hc.
    destruct (run_tx _ _ _ _) as [x db] eqn:Hr. injection Hq as -> <-. simpl in *.
    assert (F (tt_others (env (w_at w)) (w_db w))) as HF by (eapply F_kept; [exact Hw|apply others]).
    apply run_tx_Ok in Hr. apply res_bind_Ok in Hr as (p' & Hg & [= -> <-]). split; [|done]. split; [done|].
    unfold db_Get, find_row in Hg. destruct (pd_rows _ !! id) as [p0|] eqn:Hp0; [|done].
    destruct (_ =? _)%N; [|done]. injection Hg as <-. by eapply on_record.
  - apply pub_bind; [apply pub_read|]. intros p. apply keeps_if; by apply pub_idle.
  - intros p w [Hp Hw]. by apply Hf.
Qed.

Ltac pub_step :=
  first
    [ assumption | apply pub_owned; intros ? ? | apply pub_read | apply pub_throttle
    | solve [by apply pub_idle] | apply keeps_try | apply keeps_if
    | apply pub_bind; [|intros ?]
    | match goal with |- keeps _ _ _ (match ?x with _ => _ end) => destruct x eqn:? end ].

Lemma pub_apply cx p to at_ a : mine p -> kept (apply env cx ws p to at_ a).
Proof.
  intros Hp. unfold apply. repeat pub_step. apply pub_tx. intros now db x db' HF. by apply updating.
Qed.

Lemma mine_New goal task title body platform fresh now p key :
  New ws goal task title body platform fresh now = Ok p -> mine (set_p_IdempotencyKey key p).
Proof.
  unfold New. intros [_ Hn]%guard_Ok. apply guard_Ok in Hn as [_ [= <-]]. split; [done|]. by intros a Ha%elem_of_nil.
Qed.

Lemma pub_create cx goal task title body platform key : kept (create env cx ws goal task title body platform key).
Proof.
  unfold create. repeat pub_step.
  apply pub_tx. intros now db x db' HF. apply creating; [by eapply mine_New|done].
Qed.

Lemma pub_CreateWithIdempotency cx goal task title body platform key :
  kept (CreateWithIdempotency env cx ws goal task title body platform key).
Proof. unfold CreateWithIdempotency, Create. cbv zeta. repeat first [apply pub_create|pub_step]. Qed.

Lemma pub_ToReview cx id : kept (ToReview env cx ws id).
Proof. unfold ToReview, transition. repeat pub_step. by apply pub_apply. Qed.

(** The same publication, perhaps with one more signature. *)
Lemma signed_more p p' who : mine p -> vouched ws who -> p_WorkspaceID p' = p_WorkspaceID p ->
  (p_ApprovedBy p' = p_ApprovedBy p \/ p_ApprovedBy p' = Some who) -> (p_RejectedBy p' = p_RejectedBy p \/ p_RejectedBy p' = Some who) ->
  (p_PublishedBy p' = p_PublishedBy p \/ p_PublishedBy p' = Some who) -> mine p'.
Proof.
  intros [Hws Hp] Hwho Hw Ha Hr Hu. split; [congruence|]. intros a. rewrite elem_signatures, Hw. intros Hin.
  assert (a ∈ signatures p \/ a = who) as [Hs| ->]; [|by apply Hp|by rewrite Hws]. rewrite elem_signatures.
  destruct Hin as [E|[E|E]]; [destruct Ha as [Hd|Hd]|destruct Hr as [Hd|Hd]|destruct Hu as [Hd|Hd]];
    rewrite Hd in E; first [by injection E as ->; right|left; auto].
Qed.

Section decisions.
Variable who : string.
Hypothesis Hwho : vouched ws who.

Ltac sign Hp := eapply signed_more; [exact Hp|exact Hwho|simpl; auto..].

Lemma pub_Approve cx id : kept (PublishService.Approve env cx ws id who).
Proof.
  unfold PublishService.Approve. repeat pub_step. apply pub_apply.
  match goal with Hp : mine _ |- _ => sign Hp end.
Qed.

Lemma pub_Reject cx id : kept (PublishService.Reject env cx ws id who).
Proof.
  unfold PublishService.Reject. repeat pub_step. apply pub_apply.
  match goal with Hp : mine _ |- _ => sign Hp end.
Qed.

Lemma pub_Publish_ p : kept (pub_Publish deliver p).
Proof. by apply pub_idle. Qed.

Lemma pub_PublishService cx id : kept (PublishService.Publish env deliver cx ws id who).
Proof.
  unfold PublishService.Publish. cbv zeta. repeat first [apply pub_Publish_|apply pub_apply|pub_step];
    match goal with Hp : mine _ |- _ => sign Hp end.
Qed.

Lemma pub_Retry cx id : kept (PublishService.Retry env deliver cx ws id who).
Proof.
  unfold PublishService.Retry. cbv zeta. repeat first [apply pub_Publish_|apply pub_apply|pub_step];
    try (match goal with Hp : mine _ |- mine _ => sign Hp end).
  apply pub_tx. intros now db x db' HF. apply updating; [|done]. match goal with Hp : mine _ |- mine _ => sign Hp end.
Qed.
End decisions.

(** A service request of the workspace, a decision by one who may sign. *)
Definition allowed (r : request) : Prop :=
  match r with
  | ReqCreate _ w _ _ _ _ _ _ | ReqToReview _ w _ | ReqGet w _ | ReqList w _ => w = ws
  | ReqApprove _ w _ who | ReqReject _ w _ who | ReqPublish _ w _ who | ReqRetry _ w _ who => w = ws /\ vouched ws who
  | ReqCancel _ _ _ => False
  end.

Lemma pub_handle r : allowed r -> kept (handle env deliver r).
Proof.
  intros Hr. destruct r; simpl in Hr; [subst|subst|done|destruct Hr as [-> Hwho]..|subst|subst]; cbn [handle];
    (apply pub_bind; [|intros _; by apply pub_idle]).
  - apply pub_CreateWithIdempotency.
  - apply pub_ToReview.
  - by apply pub_Approve.
  - by apply pub_Reject.
  - by apply pub_PublishService.
  - by apply pub_Retry.
  - unfold PublishService.Get, getOwned. repeat pub_step.
  - apply pub_read.
Qed.
End kept.

(** ** What the service hands out *)

Section handed_out.
Context `{UuidText}.
Variable env : nat -> TxTick PubDB.
Variable deliver : nat -> Publication -> res err string.
Variable ws : uuid.
Definition of_ws (p : Publication) : Prop := p_WorkspaceID p = ws.

Lemma pub_gives_tx {A} (op : time -> PubDB -> res err (A * PubDB)) (Φ : A -> Prop) :
  (forall now db a db', op now db = Ok (a, db') -> Φ a) -> gives (tx env op) Φ.
Proof. apply (gives_tx op ErrStore (fun w => env (w_at w)) w_db). intros w. unfold tx. by destruct (run_tx _ _ _ _). Qed.

Lemma pub_gives_read {A} (op : PubDB -> res err A) (Φ : A -> Prop) : (forall db a, op db = Ok a -> Φ a) -> gives (read env op) Φ.
Proof. intros Hop. apply pub_gives_tx. intros now db a db' (a' & Ha & [= <- _])%res_bind_Ok. by eapply Hop. Qed.

Lemma pub_gives_try {A} (m : act World err A) (Φ : A -> Prop) :
  gives m Φ -> gives (act_try m) (fun x => match x with Ok a => Φ a | Err _ => True end).
Proof. intros Hm w x w'. unfold act_try. destruct (m w) as [[a|e] w1] eqn:E; intros [= <- _]; [by eapply Hm|done]. Qed.

Ltac gives_step :=
  first
    [ apply gives_fail | by apply gives_ret | apply gives_if
    | eapply gives_bind; [apply gives_any|intros ? _]
    | match goal with |- gives (match ?x with _ => _ end) _ => destruct x eqn:? end ].

Lemma gives_getOwned id : gives (getOwned env ws id) of_ws.
Proof.
  unfold getOwned. gives_step. match goal with |- gives (if (p_WorkspaceID ?p =? _)%N then _ else _) _ => destruct (N.eqb_spec (p_WorkspaceID p) ws) end.
  - by apply gives_ret.
  - apply gives_fail.
Qed.

Lemma gives_apply cx p to at_ a : of_ws p -> gives (apply env cx ws p to at_ a) of_ws.
Proof.
  intros Hp. unfold apply. cbv zeta. destruct (CanTransition _ _); [by repeat gives_step|]. gives_step. apply (gives_bind _ _ of_ws); [|intros q Hq; by repeat gives_step].
  apply pub_gives_tx. intros now db x db' Hu. unfold db_Update in Hu. apply guard_Ok in Hu as [_ Hu].
  destruct (find_row _ _ _); [|by injection Hu as <- _]. cbv zeta in Hu. apply guard_Ok in Hu as [_ Hu]. by apply guard_Ok in Hu as [_ [= <- _]].
Qed.

Lemma gives_owned {A} id (f : Publication -> act World err A) (Φ : A -> Prop) :
  (forall p, of_ws p -> gives (f p) Φ) -> gives (act_bind (getOwned env ws id) f) Φ.
Proof. apply gives_bind, gives_getOwned. Qed.

Lemma found_by_key key db q : db_GetByIdempotency ws key db = Ok q -> of_ws q.
Proof.
  unfold db_GetByIdempotency. destruct (filter _ _) as [|[i p] l] eqn:Hf; [done|]. intros [= <-].
  assert ((i, p) ∈ (i, p) :: l) as Hin by left. rewrite <- Hf in Hin. apply list_elem_of_filter in Hin as [Hp _]. simpl in Hp.
  apply andb_true_iff in Hp as [Hp _]. apply andb_true_iff in Hp as [Hp _]. by apply N.eqb_eq.
Qed.

Lemma gives_create cx goal task title body platform key : gives (create env cx ws goal task title body platform key) of_ws.
Proof.
  unfold create. cbv zeta. apply gives_if; [|apply gives_fail]. do 2 gives_step. destruct (New _ _ _ _ _ _ _ _) as [p|e] eqn:Hn; [|by repeat gives_step].
  apply (gives_bind _ _ (fun x => match x with Ok a => of_ws a | Err _ => True end)).
  - apply pub_gives_try, pub_gives_tx. intros now db x db' Hc. unfold db_Create in Hc. do 4 (apply guard_Ok in Hc as [_ Hc]).
    injection Hc as <- _. unfold New in Hn. apply guard_Ok in Hn as [_ Hn]. by apply guard_Ok in Hn as [_ [= <-]].
  - intros [q|e] Hq; [by repeat gives_step|]. gives_step; [|by repeat gives_step].
    apply (gives_bind _ _ (fun x => match x with Ok a => of_ws a | Err _ => True end)); [|intros [q|e'] Hq'; by repeat gives_step].
    apply pub_gives_try, pub_gives_read. apply found_by_key.
Qed.

Lemma gives_CreateWithIdempotency cx goal task title body platform key :
  gives (CreateWithIdempotency env cx ws goal task title body platform key) of_ws.
Proof.
  unfold CreateWithIdempotency, PublishService.Create. cbv zeta. apply gives_if; [apply gives_create|]. apply gives_if; [apply gives_fail|].
  apply (gives_bind _ _ (fun x => match x with Ok a => of_ws a | Err _ => True end)).
  - apply pub_gives_try, pub_gives_read. apply found_by_key.
  - intros [q|e] Hq; [by apply gives_ret|]. destruct e; try apply gives_fail. apply gives_create.
Qed.

Lemma gives_ToReview cx id : gives (ToReview env cx ws id) of_ws.
Proof. unfold ToReview, transition. apply gives_if; [|apply gives_fail]. apply gives_owned. intros p Hp. by apply gives_apply. Qed.

Lemma gives_Approve cx id who : gives (PublishService.Approve env cx ws id who) of_ws.
Proof.
  unfold PublishService.Approve. repeat first [apply gives_owned; intros ? ?|apply gives_apply|gives_step].
  match goal with Hp : of_ws _ |- _ => exact Hp end.
Qed.

Lemma gives_Reject cx id who : gives (PublishService.Reject env cx ws id who) of_ws.
Proof.
  unfold PublishService.Reject. repeat first [apply gives_owned; intros ? ?|apply gives_apply|gives_step].
  match goal with Hp : of_ws _ |- _ => exact Hp end.
Qed.

Abbreviation first_of_ws := (fun pe : Publication * option err => of_ws pe.1).

(** The end of a delivery that failed. *)
Lemma gives_failed (m : act World err Publication) (f : act World err unit) e :
  gives m of_ws ->
  gives (q <~ act_try m ;; f ;;! match q with Err x => act_fail x | Ok p => act_ret (p, Some e) end) first_of_ws.
Proof.
  intros Hm. eapply gives_bind; [by apply pub_gives_try|]. intros [q|x] Hq; (eapply gives_bind; [apply gives_any|]; intros _ _);
    [by apply gives_ret|apply gives_fail].
Qed.

Lemma gives_Publish cx id who : gives (PublishService.Publish env deliver cx ws id who) first_of_ws.
Proof.
  unfold PublishService.Publish. cbv zeta. do 3 gives_step; [repeat gives_step..|]. apply gives_owned. intros p Hp.
  destruct (CanTransition _ _); [by repeat gives_step|]. apply gives_if; [by repeat gives_step|].
  gives_step. match goal with |- gives (match ?x with _ => _ end) _ => destruct x as [ref|e] end.
  - gives_step. apply (gives_bind _ _ of_ws); [by apply gives_apply|]. intros q Hq. by apply gives_ret.
  - by apply gives_failed, gives_apply.
Qed.

Lemma gives_Retry cx id who : gives (PublishService.Retry env deliver cx ws id who) first_of_ws.
Proof.
  unfold PublishService.Retry. cbv zeta. apply gives_if; [apply gives_fail|]. gives_step. apply gives_if; [|apply gives_fail].
  apply gives_owned. intros p Hp. do 2 (apply gives_if; [|apply gives_fail]).
  gives_step. match goal with |- gives (match ?x with _ => _ end) _ => destruct x as [ref|e] end.
  - gives_step. apply (gives_bind _ _ of_ws); [by apply gives_apply|]. intros q Hq. by apply gives_ret.
  - gives_step. apply gives_failed, pub_gives_tx. intros now db x db' Hu. unfold db_Update in Hu. apply guard_Ok in Hu as [_ Hu].
    destruct (find_row _ _ _); [|by injection Hu as <- _]. cbv zeta in Hu. apply guard_Ok in Hu as [_ Hu]. by apply guard_Ok in Hu as [_ [= <- _]].
Qed.

Lemma gives_List status : gives (PublishService.List env ws status) (fun l => forall p, p ∈ l -> of_ws p).
Proof.
  apply pub_gives_read. intros db l [= <-] p Hp. apply subseteq_take in Hp. rewrite merge_sort_Permutation in Hp.
  apply list_elem_of_filter in Hp as [Hp _]. apply andb_true_iff in Hp as [Hp _]. by apply N.eqb_eq.
Qed.
End handed_out.

(** ** The handlers *)

Inductive PublicationRequest : Type :=
| PubCreate (r : Http.Request) (body : Body createPublicationRequest)
| PubList (r : Http.Request)
| PubGet (r : Http.Request)
| PubSubmit (r : Http.Request) (body : option string)
| PubApprove (r : Http.Request) (body : option string)
| PubReject (r : Http.Request) (body : option string)
| PubPublish (r : Http.Request) (body : option string)
| PubRetry (r : Http.Request) (body : option string).

Definition publication_request (q : PublicationRequest) : Http.Request :=
  match q with
  | PubCreate r _ | PubList r | PubGet r | PubSubmit r _ | PubApprove r _ | PubReject r _ | PubPublish r _ | PubRetry r _ => r
  end.

Definition shown (resp : Response PublicationAnswer) : list Publication :=
  match resp with Answered _ (OnePublication p) => [p] | Answered _ (PublicationList l) => pl_Publications l | Refused _ _ => [] end.

Abbreviation pub_signatory q := (signatory (fun id => String.eqb id "") (publication_request q)).

(** The service request a route may become: named by the route and the path,
    in the workspace of the signatory; a decision is an admin's, under the
    admin's own identifier. *)
Definition asked `{UuidParse} (q : PublicationRequest) (claims : Claims) (ws : uuid) (r : request) : Prop :=
  let named id := uuid_Parse (rq_PathValue (publication_request q) "id") = Some id in
  let by_actor cx := cx_actor cx = TrimSpace (cl_ID claims) in
  let decided cx w id who := w = ws /\ named id /\ by_actor cx /\ who = cl_ID claims /\ cl_Role claims = RoleWorkspaceAdmin in
  match q, r with
  | PubCreate _ _, ReqCreate cx w None None _ _ _ _ => w = ws /\ by_actor cx
  | PubList _, ReqList w _ => w = ws
  | PubGet _, ReqGet w id => w = ws /\ named id
  | PubSubmit _ _, ReqToReview cx w id => w = ws /\ named id /\ by_actor cx
  | PubApprove _ _, ReqApprove cx w id who | PubReject _ _, ReqReject cx w id who
  | PubPublish _ _, ReqPublish cx w id who | PubRetry _ _, ReqRetry cx w id who => decided cx w id who
  | _, _ => False
  end.

Section routes.
Context `{UuidText, UuidParse, MapOrder}.
Variable env : nat -> TxTick PubDB.
Variable deliver : nat -> Publication -> res err string.
Variable draw_header : nat -> bool -> string.

Definition publication_route (q : PublicationRequest) : handler (Front World) PublicationAnswer :=
  match q with
  | PubCreate r body => Create env draw_header r body
  | PubList r => List env draw_header r
  | PubGet r => Get env draw_header r
  | PubSubmit r body => Submit env draw_header r body
  | PubApprove r body => Approve env draw_header r body
  | PubReject r body => Reject env draw_header r body
  | PubPublish r body => Publish env deliver draw_header r body
  | PubRetry r body => Retry env deliver draw_header r body
  end.

Section safety.
Variable J : World -> Prop.
Variable G : Response PublicationAnswer -> Prop.
Hypothesis refusals : forall code msg, (400 <= code)%Z -> G (Refused code msg).

Lemma safe_publicationError {B} e (Φ : B -> Prop) : safe J G (publicationError e) Φ.
Proof. unfold publicationError. destruct e; by safe_step. Qed.

Lemma safe_pub_calling {B} (m : act World err B) (Φ : B -> Prop) : (forall w, J w -> J (m w).2) -> gives m Φ -> safe J G (calling m) Φ.
Proof.
  intros Hm Hg. eapply safe_bind; [apply (safe_svc J G m Φ)|].
  - intros w Hw. split; [by apply Hm|]. intros b w'. apply Hg.
  - intros [b|e] Hb; [by apply safe_ret|]. apply safe_publicationError.
Qed.

Lemma safe_publicationContext r claims :
  safe J G (publicationContext draw_header r claims) (fun cx => cx_actor cx = TrimSpace (cl_ID claims)).
Proof. unfold publicationContext. eapply safe_bind; [apply safe_contextValues|]. intros cv _. by apply safe_ret. Qed.

Lemma safe_validPublicationText t b p : safe J G (validPublicationText t b p) (fun _ => True).
Proof. unfold validPublicationText. repeat signed_step. Qed.

Lemma safe_publicationID r : safe J G (publicationID r) (fun id => uuid_Parse (rq_PathValue r "id") = Some id).
Proof.
  unfold publicationID, namedID. destruct (uuid_Parse _) as [id|]; [|by safe_step]. destruct (negb _); [by apply safe_ret|by safe_step].
Qed.

Lemma safe_parsePublicationQuery r : safe J G (parsePublicationQuery r) (fun _ => True).
Proof. unfold parsePublicationQuery, silent. repeat safe_step. Qed.
End safety.

Lemma calling_svc {B} (m : act World err B) s : fr_svc (calling m s).2 = (m (fr_svc s)).2.
Proof. unfold calling, svc, act_bind. destruct (m (fr_svc s)) as [[b|e] w]; [done|]. by destruct e. Qed.

Lemma then_unit {B} (m : act World err B) w : ((m ;;! act_ret tt) w).2 = (m w).2.
Proof. unfold act_bind. by destruct (m w) as [[b|e] w']. Qed.

Lemma no_error_svc {B} (m : act World err B) w : (no_error m w).2 = (m w).2.
Proof. unfold no_error, act_bind. by destruct (m w) as [[b|e] w']. Qed.

Ltac pub_route_step :=
  first
    [ apply safe_publicationContext; assumption | apply safe_validPublicationText; assumption
    | apply safe_publicationID; assumption | apply safe_parsePublicationQuery; assumption | signed_step ].

(** Up to the call of the service. *)
Ltac quietly := eapply becomes_bind; [intros ?; solve [repeat pub_route_step]|intros ? ?].

Lemma decide_becomes P r body (fn : Ctx -> uuid -> uuid -> string -> act World err (Publication * option err)) rq :
  (forall cx ws id claims, signatory (fun id => String.eqb id "") r = Some (claims, ws) -> cl_Role claims = RoleWorkspaceAdmin ->
     uuid_Parse (rq_PathValue r "id") = Some id -> cx_actor cx = TrimSpace (cl_ID claims) ->
     P (rq cx ws id (cl_ID claims)) /\ forall w, (handle env deliver (rq cx ws id (cl_ID claims)) w).2 = (fn cx ws id (cl_ID claims) w).2) ->
  becomes (handle env deliver) P (decide draw_header r body fn).
Proof.
  intros HP. pose proof (refusal_refused (A := PublicationAnswer)) as Hr. unfold decide.
  eapply becomes_bind; [intros w; by apply safe_signed_scope|]. intros [claims ws] Hc.
  destruct (bool_decide (cl_Role claims = RoleWorkspaceAdmin)) eqn:Hrole.
  2: { intros s. unfold respond, act_fail. by left. }
  apply bool_decide_eq_true in Hrole. quietly. eapply becomes_bind; [intros w; by apply safe_publicationID|]. intros id Hid.
  eapply becomes_bind; [intros w; by apply safe_publicationContext|]. intros cx Hcx.
  destruct (HP cx ws id claims Hc Hrole Hid Hcx) as [Hrq Hfn].
  eapply becomes_call; [exact Hrq|intros s; by rewrite calling_svc, Hfn|].
  intros [p [e|]] w; [by apply safe_publicationError|by apply safe_ret].
Qed.

Lemma route_becomes q :
  becomes (handle env deliver) (fun rq => exists claims ws, pub_signatory q = Some (claims, ws) /\ asked q claims ws rq) (publication_route q).
Proof.
  pose proof (refusal_refused (A := PublicationAnswer)) as Hr.
  destruct q as [r body|r|r|r body|r body|r body|r body|r body]; cbn [publication_route publication_request].
  5: apply (decide_becomes _ _ _ _ ReqApprove).
  6: apply (decide_becomes _ _ _ _ ReqReject).
  7: apply (decide_becomes _ _ _ _ ReqPublish).
  8: apply (decide_becomes _ _ _ _ ReqRetry).
  5-8: intros cx ws id claims Hc Hrole Hid Hcx;
    (split; [exists claims, ws; split; [exact Hc|by repeat split]|intros w; cbn [handle]; by rewrite then_unit, ?no_error_svc]).
  all: eapply becomes_bind; [intros w; by apply safe_signed_scope|]; intros [claims ws] Hc.
  - do 3 quietly. eapply becomes_bind; [intros w; by apply safe_publicationContext|]. intros cx Hcx.
    eapply (becomes_call _ _ _ (ReqCreate cx ws None None _ _ _ _)).
    + exists claims, ws. split; [exact Hc|]. by split.
    + intros s. rewrite calling_svc. cbn [handle]. by rewrite then_unit.
    + intros p w. by apply safe_ret.
  - quietly. match goal with |- becomes _ _ (let '(_, _) := ?x in _) => destruct x as [status limit] end. quietly.
    eapply (becomes_call _ _ _ (ReqList ws status)).
    + by exists claims, ws.
    + intros s. rewrite calling_svc. cbn [handle]. by rewrite then_unit.
    + intros p w. by apply safe_ret.
  - eapply becomes_bind; [intros w; by apply safe_publicationID|]. intros id Hid. quietly.
    eapply (becomes_call _ _ _ (ReqGet ws id)).
    + by exists claims, ws.
    + intros s. rewrite calling_svc. cbn [handle]. by rewrite then_unit.
    + intros p w. by apply safe_ret.
  - quietly. eapply becomes_bind; [intros w; by apply safe_publicationID|]. intros id Hid.
    eapply becomes_bind; [intros w; by apply safe_publicationContext|]. intros cx Hcx.
    eapply (becomes_call _ _ _ (ReqToReview cx ws id)).
    + by exists claims, ws.
    + intros s. rewrite calling_svc. cbn [handle]. by rewrite then_unit.
    + intros p w. by apply safe_ret.
Qed.

(** C13. A publication request is a request of the service.  A request is refused and
    reaches no publication, or it is the one service request its route and path
    name, in the workspace of its signatory; a decision - approve, reject,
    publish, retry - only of a workspace admin and under the admin's own
    identifier, whatever body or header the request carries. *)
Theorem publication_routes_refine q s :
  let '(resp, s') := respond (publication_route q) s in
  (fr_svc s' = fr_svc s /\ is_success (status resp) = false) \/
  (exists claims ws rq, pub_signatory q = Some (claims, ws) /\ asked q claims ws rq /\ fr_svc s' = (handle env deliver rq (fr_svc s)).2).
Proof.
  pose proof (route_becomes q s) as Hb. destruct (respond _ s) as [resp s']. destruct Hb as [?|(rq & (claims & ws & Hc & Ha) & Hs)]; [by left|].
  right. by exists claims, ws, rq.
Qed.

(** *** The workspace of the signatory *)

Definition pub_confined : uuid -> uuid -> PubDB -> PubDB -> Prop := confined pd_rows p_WorkspaceID (below pd_rows pd_next).

Lemma publication_row_Some ws id db p : find_row ws id db = Some p -> pd_rows db !! id = Some p /\ p_WorkspaceID p = ws.
Proof.
  unfold find_row. destruct (pd_rows db !! id) as [q|]; [|done]. destruct (N.eqb_spec (p_WorkspaceID q) ws); [|done]. by intros [= <-].
Qed.

Lemma create_confined ws i p now db a db' : p_WorkspaceID p = ws -> db_Create p now db = Ok (a, db') -> pub_confined ws i db db'.
Proof.
  intros Hws Hc. unfold db_Create in Hc. cbv zeta in Hc. do 4 (apply guard_Ok in Hc as [_ Hc]). injection Hc as _ <-.
  eapply confined_insert; [|reflexivity|done|].
  - eapply below_insert; [reflexivity|simpl; lia|simpl; lia].
  - intros Hi. by apply below_fresh.
Qed.

Lemma update_confined ws i p now db a db' : db_Update ws p now db = Ok (a, db') -> pub_confined ws i db db'.
Proof.
  unfold db_Update. cbv zeta. intros [_ Hu]%guard_Ok. destruct (find_row _ _ _) as [row|] eqn:Hf; [|injection Hu as _ <-; reflexivity].
  apply publication_row_Some in Hf as [Hrow Hws]. do 2 (apply guard_Ok in Hu as [_ Hu]). injection Hu as _ <-. simpl in *.
  eapply confined_insert; [|reflexivity|done|].
  - intros Hb. eapply below_insert; [reflexivity|reflexivity| |done]. intros <-. by eapply Hb.
  - intros <- _. rewrite Hrow. by apply ours_Some.
Qed.

Lemma asked_allowed q claims ws rq (vouched : uuid -> string -> Prop) :
  asked q claims ws rq -> (cl_Role claims = RoleWorkspaceAdmin -> vouched ws (cl_ID claims)) -> allowed vouched ws rq.
Proof.
  intros Ha Hv. destruct q, rq; cbn in Ha; try done; cbn [allowed];
    repeat match goal with |- context [match ?g with _ => _ end] => destruct g | H : context [match ?g with _ => _ end] |- _ => destruct g end;
    try done; try (by destruct Ha as [-> _]); try (by destruct Ha); by destruct Ha as (-> & _ & _ & -> & Hr); split; [|apply Hv].
Qed.

Definition only_ours (ws : uuid) (resp : Response PublicationAnswer) : Prop := forall p, p ∈ shown resp -> p_WorkspaceID p = ws.

Lemma none_of_ours ws code msg : (400 <= code)%Z -> only_ours ws (Refused code msg).
Proof. by intros _ t Ht%elem_of_nil. Qed.

Lemma one_of_ours ws code p : of_ws ws p -> only_ours ws (Answered code (OnePublication p)).
Proof. by intros Hws u ->%list_elem_of_singleton. Qed.

Abbreviation shows ws m := (safe (fun _ : World => True) (only_ours ws) m (only_ours ws)).

Lemma decide_shows ws claims r body (fn : Ctx -> uuid -> uuid -> string -> act World err (Publication * option err)) :
  signatory (fun id => String.eqb id "") r = Some (claims, ws) ->
  (forall cx id who, gives (fn cx ws id who) (fun pe => of_ws ws pe.1)) -> shows ws (decide draw_header r body fn).
Proof.
  intros Hc Hfn. pose proof (none_of_ours ws) as Hr. unfold decide.
  eapply safe_bind; [by apply safe_signed_scope|]. intros cw Hcw. rewrite Hc in Hcw. injection Hcw as <-. cbn [fst snd].
  destruct (bool_decide _); [|by safe_step]. do 2 (eapply safe_bind; [by repeat pub_route_step|]; intros ? _).
  eapply safe_bind; [by apply safe_publicationContext|]. intros cx _.
  eapply safe_bind; [by apply safe_pub_calling; [|done|apply Hfn]|].
  intros [p [e|]] Hp; [by apply safe_publicationError|]. by apply safe_ret, one_of_ours.
Qed.

Lemma no_error_gives {B} (m : act World err B) (Φ : B -> Prop) : gives m Φ -> gives (no_error m) (fun be => Φ be.1).
Proof. intros Hm. eapply gives_bind; [exact Hm|]. intros b Hb. by apply gives_ret. Qed.

Lemma route_shows q claims ws : pub_signatory q = Some (claims, ws) -> shows ws (publication_route q).
Proof.
  intros Hc. pose proof (none_of_ours ws) as Hr.
  destruct q as [r body|r|r|r body|r body|r body|r body|r body]; cbn [publication_route publication_request] in *.
  5-8: eapply decide_shows; [exact Hc|]; intros cx id who;
    first [apply no_error_gives; first [apply gives_Approve|apply gives_Reject]|apply gives_Publish|apply gives_Retry].
  all: eapply safe_bind; [by apply safe_signed_scope|]; intros cw Hcw; rewrite Hc in Hcw; injection Hcw as <-; cbn [fst snd].
  - do 3 (eapply safe_bind; [by repeat pub_route_step|]; intros ? _). eapply safe_bind; [by apply safe_publicationContext|]. intros cx _.
    eapply safe_bind; [by apply safe_pub_calling; [|done|apply gives_CreateWithIdempotency]|]. intros p Hp. by apply safe_ret, one_of_ours.
  - eapply safe_bind; [by repeat pub_route_step|]. intros [st limit] _. eapply safe_bind; [by apply safe_publicationContext|]. intros cx _.
    eapply safe_bind; [by apply safe_pub_calling; [|done|apply gives_List]|]. intros l Hl. apply safe_ret. cbv zeta.
    intros p Hp. simpl in Hp. apply Hl. by eapply subseteq_take.
  - eapply safe_bind; [by repeat pub_route_step|]. intros id _. eapply safe_bind; [by apply safe_publicationContext|]. intros cx _.
    eapply safe_bind; [by apply safe_pub_calling; [|done|apply gives_getOwned]|]. intros p Hp. by apply safe_ret, one_of_ours.
  - do 2 (eapply safe_bind; [by repeat pub_route_step|]; intros ? _). eapply safe_bind; [by apply safe_publicationContext|]. intros cx _.
    eapply safe_bind; [by apply safe_pub_calling; [|done|apply gives_ToReview]|]. intros p Hp. by apply safe_ret, one_of_ours.
Qed.

(** Without a signatory a request is refused. *)
Lemma route_unsigned q s : pub_signatory q = None ->
  exists code msg, respond (publication_route q) s = (Refused code msg, s) /\ (code = 401 \/ code = 403)%Z.
Proof.
  intros Hc. pose proof (signed_scope_cases (W := World) (A := PublicationAnswer) (fun id => String.eqb id "") (publication_request q) s) as Hs.
  rewrite Hc in Hs. destruct Hs as (code & msg & Hcode & Hs). exists code, msg. split; [|done].
  destruct q; cbn [publication_route publication_request] in *; unfold respond, Create, List, Get, Submit, Approve, Reject, Publish, Retry, decide,
    act_bind at 1, scope; by rewrite Hs.
Qed.

(** Publication routes stay in the workspace of the signatory.  Without a valid
    role, an identifier and a workspace in the claims a request is refused and
    reaches nothing.  Otherwise every publication in the answer is one of that
    workspace, and a row that the others leave alone, or touch only as one of
    that workspace, is as it was unless it is one of that workspace before and
    after. *)
Theorem publication_routes_confined q s :
  let '(resp, s') := respond (publication_route q) s in
  match pub_signatory q with
  | None => (status resp = 401 \/ status resp = 403)%Z /\ shown resp = [] /\ fr_svc s' = fr_svc s
  | Some (_, ws) =>
      (forall p, p ∈ shown resp -> p_WorkspaceID p = ws) /\
      (forall i, (forall n db, pub_confined ws i db (tt_others (env n) db)) -> pub_confined ws i (w_db (fr_svc s)) (w_db (fr_svc s')))
  end.
Proof.
  destruct (pub_signatory q) as [[claims ws]|] eqn:Hc.
  - destruct (respond_safe _ _ (publication_route q) s (route_shows q claims ws Hc) I) as [Hshown _].
    pose proof (route_becomes q s) as Hb. destruct (respond _ s) as [resp s']. split; [exact Hshown|]. intros i others.
    destruct Hb as [[-> _]|(rq & (c & w & Hc' & Ha) & ->)]; [reflexivity|]. rewrite Hc in Hc'. injection Hc' as <- <-.
    apply (pub_handle env deliver (pub_confined ws i) anything (stable_anything _) others (fun _ _ => True) ws); [done|..|done].
    + intros p now db a db' [Hp _] _. by apply create_confined.
    + intros p now db a db' _ _. by apply update_confined.
    + by eapply asked_allowed.
  - destruct (route_unsigned q s Hc) as (code & msg & -> & ?). done.
Qed.

(** *** Signatures *)

(** Requests one after the other. *)
Definition serve_routes (qs : list PublicationRequest) (s : Front World) : Front World :=
  fold_left (fun s q => (respond (publication_route q) s).2) qs s.

Section signatures.
Variable vouched : uuid -> string -> Prop.
Definition signed (db : PubDB) : Prop := forall i p, pd_rows db !! i = Some p -> stamped vouched p.
Definition keeps_signed (db db' : PubDB) : Prop := signed db -> signed db'.

#[local] Instance keeps_signed_preorder : PreOrder keeps_signed.
Proof. split; [by intros db Hdb|intros a b c Hab Hbc Ha; by apply Hbc, Hab]. Qed.

Lemma create_signed p now db a db' : db_Create p now db = Ok (a, db') -> keeps_signed db db'.
Proof.
  intros Hc Hs i q. unfold db_Create in Hc. cbv zeta in Hc. do 4 (apply guard_Ok in Hc as [_ Hc]). injection Hc as _ <-. simpl.
  rewrite lookup_insert_Some. intros [[_ <-]|[_ Hq]]; [by intros x Hx%elem_of_nil|by eapply Hs].
Qed.

Lemma update_signed ws p now db a db' : mine vouched ws p -> db_Update ws p now db = Ok (a, db') -> keeps_signed db db'.
Proof.
  intros [Hws Hp] Hu Hs i q. unfold db_Update in Hu. cbv zeta in Hu. apply guard_Ok in Hu as [_ Hu].
  destruct (find_row _ _ _) as [row|] eqn:Hf; [|injection Hu as _ <-; by apply Hs]. apply publication_row_Some in Hf as [_ Hrow].
  do 2 (apply guard_Ok in Hu as [_ Hu]). injection Hu as _ <-. simpl. rewrite lookup_insert_Some. intros [[_ <-]|[_ Hq]]; [|by eapply Hs].
  intros x Hx. simpl. rewrite Hrow, <- Hws. by apply Hp.
Qed.

Definition admitted (q : PublicationRequest) : Prop :=
  forall claims ws, pub_signatory q = Some (claims, ws) -> cl_Role claims = RoleWorkspaceAdmin -> vouched ws (cl_ID claims).

Hypothesis others_sign : forall n db, keeps_signed db (tt_others (env n) db).
Hypothesis others_oversee : forall n db, oversight db -> oversight (tt_others (env n) db).

Lemma route_signed q s : admitted q -> Inv (fr_svc s) -> signed (w_db (fr_svc s)) ->
  let s' := (respond (publication_route q) s).2 in Inv (fr_svc s') /\ signed (w_db (fr_svc s')).
Proof.
  intros Hq Hinv Hs. cbv zeta. pose proof (route_becomes q s) as Hb. destruct (respond _ s) as [resp s']. simpl.
  destruct Hb as [[-> _]|(rq & (c & ws & Hc & Ha) & ->)]; [done|]. split.
  - exact (Inv_serve env deliver others_oversee [rq] (fr_svc s) Hinv).
  - apply (pub_handle env deliver keeps_signed signed ltac:(by intros a b Ha' Hab; apply Hab) others_sign vouched ws); [by intros db i p Hdb; apply Hdb|..].
    + intros p now db a db' _ _. apply create_signed.
    + intros p now db a db' Hp _. by apply update_signed.
    + eapply asked_allowed; [exact Ha|]. by apply Hq.
    + exact Hs.
    + exact Hs.
Qed.

(** C14. Approvals are signed by admins.  Let [vouched ws a] hold of the workspace
    admins whose verified claims the requests carry.  Whatever requests are
    served, one after the other, while the other processes keep the same rule,
    every publication that is approved, published or failed carries the
    identifier of such an admin of its own workspace as its approver; and no
    member, however the request is formed, adds a signature. *)
Theorem approvals_signed_by_admins qs s :
  Forall admitted qs -> oversight (w_db (fr_svc s)) -> handed_ok (w_handed (fr_svc s)) -> signed (w_db (fr_svc s)) ->
  let db := w_db (fr_svc (serve_routes qs s)) in
  (forall i p, pd_rows db !! i = Some p -> needs_approval (p_Status p) = true ->
     exists a, p_ApprovedBy p = Some a /\ vouched (p_WorkspaceID p) a) /\
  (forall i p a, pd_rows db !! i = Some p -> a ∈ signatures p -> vouched (p_WorkspaceID p) a).
Proof.
  intros Hqs Ho Hh Hs. cbv zeta.
  assert (Inv (fr_svc (serve_routes qs s)) /\ signed (w_db (fr_svc (serve_routes qs s)))) as [[Ho' _] Hs'].
  { assert (Inv (fr_svc s)) as Hinv by done. clear Ho Hh. revert s Hs Hinv. induction Hqs as [|q qs Hq Hqs IH]; intros s Hs Hinv; [done|].
    destruct (route_signed q s Hq Hinv Hs) as [Hinv' Hs']. by apply IH. }
  split; [|by intros i p a Hp; apply (Hs' i p Hp)]. intros i p Hp Hn. destruct (Ho' i p Hp Hn) as (a & Ha & _). exists a. split; [done|].
  assert (a ∈ signatures p) as Hin by (rewrite elem_signatures; by left). exact (Hs' i p Hp a Hin).
Qed.
End signatures.
End routes.

(** ** Concrete runs *)

#[local] Hint Extern 0 UuidText => exact unary_uuid : typeclass_instances.
#[local] Hint Extern 0 UuidParse => exact unary_parse : typeclass_instances.
#[local] Hint Extern 0 MapOrder => exact GoText.in_order : typeclass_instances.

(** An admin of workspace 7, beside the member. *)
Definition admin : Claims := mkClaims (uuid_String 5) RoleWorkspaceAdmin (uuid_String 7) ∅.
Definition pub_front : Front World := mkFront start [] 0.
Definition draft : Body createPublicationRequest := mkBody (Some (mkCreatePublication "Title" "Body" "stub")) false.

(** The member writes and submits, tries to approve, and the admin approves and
    publishes. *)
Definition editorial : list PublicationRequest :=
  [PubCreate (ask 0 (Some member)) draft; PubSubmit (ask 1 (Some member)) (Some "")%string;
   PubApprove (ask 1 (Some member)) (Some "")%string; PubApprove (ask 1 (Some admin)) (Some "")%string;
   PubPublish (ask 1 (Some admin)) (Some "")%string].

Abbreviation run q := (respond (publication_route demo_calm demo_deliver no_header q)).
Abbreviation run_all qs := (serve_routes demo_calm demo_deliver no_header qs pub_front).

Lemma publication_routes_refine_witness :
  let '(resp, s') := run (PubApprove (ask 1 (Some admin)) (Some "")%string) (run_all (take 3 editorial)) in
  status resp = 200%Z /\ exists claims ws rq, signatory (fun id => String.eqb id "") (ask 1 (Some admin)) = Some (claims, ws) /\
    asked (PubApprove (ask 1 (Some admin)) (Some "")%string) claims ws rq /\
    fr_svc s' = (handle demo_calm demo_deliver rq (fr_svc (run_all (take 3 editorial)))).2.
Proof.
  pose proof (publication_routes_refine demo_calm demo_deliver no_header (PubApprove (ask 1 (Some admin)) (Some "")%string)
    (run_all (take 3 editorial))) as Hp.
  match goal with |- let '(_, _) := ?a in _ =>
    assert (status a.1 = 200%Z) as Hs by (vm_compute; reflexivity); destruct a as [resp s'] end.
  cbn [fst] in Hs. split; [exact Hs|]. destruct Hp as [[_ Hf]|Hp]; [|exact Hp]. unfold is_success in Hf. rewrite Hs in Hf. discriminate Hf.
Defined.

Lemma publication_routes_confined_witness :
  let '(resp, s') := run (PubSubmit (ask 1 (Some member)) (Some "")%string) (run_all (take 1 editorial)) in
  status resp = 200%Z /\ (forall p, p ∈ shown resp -> p_WorkspaceID p = 7%N) /\
  pub_confined 7 9 (w_db (fr_svc (run_all (take 1 editorial)))) (w_db (fr_svc s')).
Proof.
  pose proof (publication_routes_confined demo_calm demo_deliver no_header (PubSubmit (ask 1 (Some member)) (Some "")%string)
    (run_all (take 1 editorial))) as Hp.
  match goal with |- let '(_, _) := ?a in _ =>
    assert (status a.1 = 200%Z) as Hs by (vm_compute; reflexivity); destruct a as [resp s'] end.
  assert (signatory (fun id => String.eqb id "") (ask 1 (Some member)) = Some (member, 7%N)) as Hc by (vm_compute; reflexivity).
  cbn [publication_request] in Hp. rewrite Hc in Hp. destruct Hp as [Hours Hrow].
  split; [exact Hs|]. split; [exact Hours|]. apply Hrow. intros n db. reflexivity.
Defined.

Lemma approvals_signed_by_admins_witness :
  let db := w_db (fr_svc (run_all editorial)) in
  option_map p_Status (pd_rows db !! 1%N) = Some StatusPublished /\
  forall i p, pd_rows db !! i = Some p -> needs_approval (p_Status p) = true ->
    exists a, p_ApprovedBy p = Some a /\ a = uuid_String 5 /\ p_WorkspaceID p = 7%N.
Proof.
  cbv zeta. split; [vm_compute; reflexivity|].
  destruct (approvals_signed_by_admins demo_calm demo_deliver no_header (fun ws a => a = uuid_String 5 /\ ws = 7%N)
    ltac:(by intros n db Hdb) ltac:(by intros n db Hdb) editorial pub_front) as [Ha _].
  - unfold editorial. rewrite !Forall_cons, Forall_nil. split_and!; try done;
      (intros claims ws Hc Hrole; vm_compute in Hc; injection Hc as <- <-; first [by vm_compute in Hrole|by split; vm_compute]).
  - apply start_oversight.
  - apply start_oversight.
  - by intros i p Hp.
  - intros i p Hp Hn. exact (Ha i p Hp Hn).
Defined.

(** ** What is not as it is said to be *)

(** The default answer is meant for what the delivery adapter reports; a database
    that is down while the publications are listed is answered with it too. *)
Example listing_answers_delivery_failed :
  (respond (publication_route (fun _ => mkTxTick 0 (fun db => db) (FailBegin "connection refused")) demo_deliver no_header
     (PubList (ask 0 (Some member)))) pub_front).1 = Refused 502 "publication delivery failed".
Proof. by vm_compute. Qed.
