(* ===== verification/PipelineHttp.v ===== *)
(** * The pipeline routes: internal/api/pipeline_handlers.go *)

From S2P Require Import Prelude GoLib GoText Throttle Pipeline PipelineService Rbac Authz AuditChain Http Surface.

Record createPipelineRequest : Type := mkCreatePipeline { cq_GoalID : string }.
Record pipelineListResponse : Type := mkPipelineList { ql_Pipelines : list Pipeline; ql_Count : Z; ql_Limit : Z }.

(** A pipeline is answered as it is, under its JSON names. *)
Inductive PipelineAnswer : Type := OnePipeline (p : Pipeline) | PipelineList (l : pipelineListResponse).

Definition pipelinePageSize : Z := 100.

Section pipelines.
Context `{UuidText, UuidParse, MapOrder} {S : Type}.
Variable env : nat -> TxTick PipeDB.
Variable caps : Capabilities.
Variable publication : option (PublicationPort S).
Variable draw_header : nat -> bool -> string.
Variable r : Request.

Abbreviation World := (PipelineService.World S).
Abbreviation M := (act (Front World) (Response PipelineAnswer)).

Definition scope : M (Claims * uuid) := signed_scope r (fun id => String.eqb (TrimSpace id) "").

(** The context of a request carries no actor and no trace of package
    orchestration. *)
Definition request_ctx : Ctx := mkCtx "" "" "".
Definition pipelineContext (claims : Claims) : M Ctx :=
  cv <~ contextValues draw_header r ;;
  act_ret (WithActor (WithTrace request_ctx (cv_TraceID cv) (cv_SpanID cv)) (cl_ID claims)).
Definition traceFromRequest : M string := cv <~ contextValues draw_header r ;; act_ret (cv_TraceID cv).

Definition pipelineID : M uuid := namedID r "invalid pipeline id".

Definition pipelineError {B} (e : err) : M B :=
  let any := existsb (errors_Is e) in
  act_fail
    (if any [ErrNotFound; ErrWorkspaceMismatch] then Refused 404 "pipeline not found"
     else if any [ErrInvalidInput; ErrInvalidStage; ErrInvalidStatus] then Refused 400 (err_Error e)
     else if any [ErrApprovalRequired; ErrInvalidTransition; ErrTerminalState; ErrConsecutiveAdvance] then Refused 409 (err_Error e)
     else if any [ErrConcurrentUpdate] then Refused 409 "pipeline changed; retry the request"
     else if any [ErrRateLimited] then Refused 429 "pipeline rate limit exceeded"
     else if any [ErrUnauthorizedActor] then forbidden
     else Refused 502 "pipeline stage failed").

Definition calling {B} (m : act World err B) : M B :=
  res <~ svc m ;;
  match res with Ok b => act_ret b | Err e => pipelineError e end.

(** A pipeline returned together with an error is not answered. *)
Definition answered (code : Z) (pe : Pipeline * option err) : handler (Front World) PipelineAnswer :=
  match pe with
  | (_, Some e) => pipelineError e
  | (p, None) => act_ret (Answered code (OnePipeline p))
  end.

(** [r.URL.Query()] drops what cannot be parsed. *)
Definition pipelineLimit : option Z :=
  let q := (ParseQuery (rq_RawQuery r)).1 in
  let limits := match find (fun kv => String.eqb kv.1 "limit") q with Some (_, l) => l | None => [] end in
  if existsb (fun kv => negb (String.eqb kv.1 "limit")) q then None
  else if (1 <? length limits)%nat then None
  else if (length limits =? 0)%nat || String.eqb (values_Get "limit" q) "" then Some pipelinePageSize
  else match ParseInt (values_Get "limit" q) with
       | Some n => if (n <? 1)%Z || (pipelinePageSize <? n)%Z then None else Some n
       | None => None
       end.

Definition goalID (raw : string) : M (option uuid) :=
  if String.eqb (TrimSpace raw) "" then act_ret None
  else match uuid_Parse raw with
       | Some id =>
           check! negb (id =? uuid_Nil)%N else act_fail (Refused 400 "invalid goal_id") ;; act_ret (Some id)
       | None => act_fail (Refused 400 "invalid goal_id")
       end.

Definition Create (body : Body createPipelineRequest) : handler (Front World) PipelineAnswer :=
  cw <~ scope ;;
  let '(claims, ws) := cw in
  req <~ decoded body act_fail ;;
  goal <~ goalID (cq_GoalID req) ;;
  key <~ idempotencyKey r ;;
  cx <~ pipelineContext claims ;;
  trace <~ traceFromRequest ;;
  pe <~ calling (CreateWithIdempotency env caps cx ws goal trace key) ;;
  answered 201 pe.

Definition List : handler (Front World) PipelineAnswer :=
  cw <~ scope ;;
  let '(_, ws) := cw in
  limit <~ match pipelineLimit with
           | Some n => act_ret n
           | None => act_fail (Refused 400 "invalid pipeline list query")
           end ;;
  items <~ calling (PipelineService.List env ws) ;;
  let items := take (Z.to_nat limit) items in
  act_ret (Answered 200 (PipelineList (mkPipelineList items (Z.of_nat (length items)) limit))).

Definition Get : handler (Front World) PipelineAnswer :=
  cw <~ scope ;;
  let '(_, ws) := cw in
  id <~ pipelineID ;;
  p <~ calling (PipelineService.Get env ws id) ;;
  act_ret (Answered 200 (OnePipeline p)).

Definition Approve (body : option string) : handler (Front World) PipelineAnswer :=
  cw <~ scope ;;
  let '(claims, ws) := cw in
  check! bool_decide (cl_Role claims = RoleWorkspaceAdmin) else act_fail forbidden ;;
  emptyBody body ;;!
  id <~ pipelineID ;;
  cx <~ pipelineContext claims ;;
  pe <~ calling (PipelineService.Approve env caps publication cx ws id (cl_ID claims)) ;;
  answered 200 pe.

Definition Retry (body : option string) : handler (Front World) PipelineAnswer :=
  cw <~ scope ;;
  let '(claims, ws) := cw in
  emptyBody body ;;!
  id <~ pipelineID ;;
  cx <~ pipelineContext claims ;;
  pe <~ calling (PipelineService.Retry env caps publication cx ws id (cl_ID claims)) ;;
  answered 200 pe.
End pipelines.
