(* ===== verification/PipelineHttpProps.v ===== *)
(** * What the pipeline routes guarantee

    A request becomes at most one request of the orchestration service, in the
    workspace of its signatory, an approval only of an admin and under the
    admin's own identifier; the answer shows pipelines of that workspace only;
    and every approval on record is an admin's. *)

From S2P Require Import Prelude GoLib GoText Throttle Pipeline PipelineService PipelineProps Rbac Authz AuditChain Keyset Http Surface PipelineHttp.

(** ** What a service request does to the tables *)

Section kept.
Context `{UuidText} {S : Type}.
Variable env : nat -> TxTick PipeDB.
Variable caps : Capabilities.
Variable publication : option (PublicationPort S).
Variable R : PipeDB -> PipeDB -> Prop.
Context `{!PreOrder R}.
(** What holds of the tables throughout. *)
Variable F : PipeDB -> Prop.
Hypothesis F_kept : Keyset.stable R F.
Hypothesis others : forall n db, R db (tt_others (env n) db).

(** Who may have approved in which workspace. *)
Variable vouched : uuid -> string -> Prop.
Definition stamped (p : Pipeline) : Prop := pl_ApprovedBy p = ""%string \/ vouched (pl_WorkspaceID p) (pl_ApprovedBy p).

Variable ws : uuid.
Definition mine (p : Pipeline) : Prop := pl_WorkspaceID p = ws /\ stamped p.
Hypothesis on_record : forall db i p, F db -> pd_rows db !! i = Some p -> stamped p.
Hypothesis creating : forall p now db a db', mine p -> F db -> db_Create p now db = Ok (a, db') -> R db db'.
Hypothesis updating : forall p now db a db', mine p -> F db -> db_Update ws p now db = Ok (a, db') -> R db db'.

Abbreviation kept m := (keeps (w_db (S := S)) R F m).
Abbreviation M := (act (World S) err).

Lemma pipe_bind {A B} (m : M A) (f : A -> M B) : kept m -> (forall a, kept (f a)) -> kept (act_bind m f).
Proof. by apply keeps_bind. Qed.

Lemma pipe_post {A B} (m : M A) (f : A -> M B) (Q : A -> Prop) : gives m Q -> kept m -> (forall a, Q a -> kept (f a)) -> kept (act_bind m f).
Proof. intros Hg. by apply keeps_bind_post. Qed.

Lemma pipe_idle {A} (m : M A) : (forall w, w_db (m w).2 = w_db w) -> kept m.
Proof. by apply keeps_idle. Qed.

Lemma pipe_tx {A} (op : time -> PipeDB -> res err (A * PipeDB)) :
  (forall now db a db', F db -> op now db = Ok (a, db') -> R db db') -> kept (tx env op).
Proof.
  intros Hop w Hw. unfold tx. pose proof (run_tx_cases ErrPort (env (w_at w)) op (w_db w)) as Hc.
  destruct (run_tx _ _ _ _) as [x db]. simpl in *.
  destruct Hc as [->|(a & db' & Ho & ->)]; [apply others|]. etrans; [apply others|eapply Hop; [|done]]. eapply F_kept; [exact Hw|apply others].
Qed.

Lemma pipe_read {A} (op : PipeDB -> res err A) : kept (read env op).
Proof. apply pipe_tx. intros now db a db' _ (? & _ & [= _ <-])%res_bind_Ok. reflexivity. Qed.

Lemma pipe_throttle k : kept (throttle_Allow env k).
Proof. apply pipe_idle. intros w. unfold throttle_Allow. by destruct (Allow _ _ _). Qed.

Lemma pipe_pub {A} (call : S -> res err A * S) : kept (pub call).
Proof. apply pipe_idle. intros w. unfold pub. by destruct (call _). Qed.

(** A pipeline read is one of the workspace, approved by those vouched for. *)
Lemma pipe_owned {A} id (f : Pipeline -> M A) : (forall p, mine p -> kept (f p)) -> kept (act_bind (getOwned env ws id) f).
Proof.
  intros Hf. apply (keeps_bind_learn w_db R F (fun p db => mine p /\ F db)).
  - intros w p w' Hw Hp. unfold getOwned in Hp. destruct (negb _); [|done]. apply act_bind_Ok in Hp as (q & w1 & Hq & Hp).
    destruct (N.eqb_spec (pl_WorkspaceID q) ws) as [Hws|]; [|done]. injection Hp as -> ->. unfold read, tx in Hq.
    destruct (run_tx _ _ _ _) as [x db] eqn:Hr. injection Hq as -> <-. simpl in *.
    assert (F (tt_others (env (w_at w)) (w_db w))) as HF by (eapply F_kept; [exact Hw|apply others]).
    apply run_tx_Ok in Hr. apply res_bind_Ok in Hr as (p' & Hg & [= -> <-]). split; [|done]. split; [done|].
    unfold db_Get, find_row in Hg. destruct (pd_rows _ !! id) as [p0|] eqn:Hp0; [|done].
    destruct (_ =? _)%N; [|done]. injection Hg as <-. by eapply on_record.
  - unfold getOwned. apply keeps_if; [|by apply pipe_idle]. apply pipe_bind; [apply pipe_read|]. intros p. apply keeps_if; by apply pipe_idle.
  - intros p w [Hp Hw]. by apply Hf.
Qed.

Ltac pipe_step :=
  first
    [ assumption
    | match goal with
      | |- keeps _ _ _ (act_bind (getOwned _ _ _) _) => apply pipe_owned; intros ? ?
      | |- keeps _ _ _ (act_bind _ _) => apply pipe_bind; [|intros ?]
      | |- keeps _ _ _ (act_try _) => apply keeps_try
      | |- keeps _ _ _ (if _ then _ else _) => apply keeps_if
      | |- keeps _ _ _ (match ?x with _ => _ end) => destruct x eqn:?
      end
    | apply pipe_read | apply pipe_throttle | apply pipe_pub | solve [by apply pipe_idle] ].

Lemma pipe_gives_tx {A} (op : time -> PipeDB -> res err (A * PipeDB)) (Φ : A -> Prop) :
  (forall now db a db', op now db = Ok (a, db') -> Φ a) -> gives (tx (S := S) env op) Φ.
Proof. apply (gives_tx op ErrPort (fun w => env (w_at w)) w_db). intros w. unfold tx. by destruct (run_tx _ _ _ _). Qed.

(** The same pipeline, but for columns that are neither its workspace nor its
    approver. *)
Lemma mine_same p p' : mine p -> pl_WorkspaceID p' = pl_WorkspaceID p -> pl_ApprovedBy p' = pl_ApprovedBy p -> mine p'.
Proof. unfold mine, stamped. intros Hp -> ->. exact Hp. Qed.

Lemma update_mine p : mine p -> gives (tx (S := S) env (db_Update ws p)) mine.
Proof.
  intros Hp. apply pipe_gives_tx. intros now db x db' Hu. unfold db_Update in Hu. cbv zeta in Hu. do 2 (apply guard_Ok in Hu as [_ Hu]).
  destruct (find_row _ _ _); [|done]. apply guard_Ok in Hu as [_ Hu]. apply res_bind_Ok in Hu as (_ & _ & [= <- _]).
  by eapply mine_same.
Qed.

Lemma pipe_update p : mine p -> kept (tx env (db_Update ws p)).
Proof. intros Hp. apply pipe_tx. intros now db x db' HF. by apply updating. Qed.

Lemma pipe_fail_stage p e : mine p -> kept (fail_stage env p e).
Proof.
  intros Hp. unfold fail_stage. pipe_step; [by apply pipe_idle|]. apply keeps_try. destruct Hp as [Hws Hs]. rewrite Hws.
  apply pipe_update. eapply (mine_same p); by try split.
Qed.

Lemma stageWork_mine p to : mine p -> gives (stageWork caps publication p to) (fun x => mine x.1).
Proof.
  intros Hp w x w' Hx. assert (pl_WorkspaceID x.1 = pl_WorkspaceID p /\ pl_ApprovedBy x.1 = pl_ApprovedBy p) as [Hw Ha]; [|by eapply mine_same].
  unfold stageWork in Hx. destruct to.
  - by injection Hx as <- _.
  - apply act_bind_Ok in Hx as ([rr|e] & w1 & _ & Hx); [|by injection Hx as <- _].
    apply act_bind_Ok in Hx as ([sr|e] & w2 & _ & Hx); by injection Hx as <- _.
  - apply act_bind_Ok in Hx as ([[]|e] & w1 & _ & Hx); by injection Hx as <- _.
  - destruct publication; [by injection Hx as <- _|]. apply act_bind_Ok in Hx as (rr & w1 & _ & Hx). by injection Hx as <- _.
  - by injection Hx as <- _.
  - by injection Hx as <- _.
Qed.

Lemma publicationWork_mine p to : mine p -> gives (publicationWork env publication p to) mine.
Proof.
  intros Hp. unfold publicationWork. destruct publication as [port|]; [|by apply gives_ret]. apply gives_if.
  - eapply gives_bind; [apply gives_any|]. intros [pid|e] _; [by apply gives_ret, (mine_same p)|].
    eapply gives_bind; [apply gives_any|]. intros. apply gives_fail.
  - apply gives_if; [|by apply gives_ret]. destruct (pl_PublicationID p); [|apply gives_fail]. apply gives_if; [|apply gives_fail].
    eapply gives_bind; [apply gives_any|]. intros [rf|e] _; [by apply gives_ret, (mine_same p)|].
    eapply gives_bind; [apply gives_any|]. intros. apply gives_fail.
Qed.

Lemma pipe_stageWork p to : kept (stageWork caps publication p to).
Proof. unfold stageWork. cbv zeta. repeat pipe_step. Qed.

Lemma pipe_publicationWork p to : mine p -> kept (publicationWork env publication p to).
Proof. intros Hp. unfold publicationWork. repeat first [by apply pipe_fail_stage|pipe_step]. Qed.

Lemma pipe_doAdvance cx p to at_ actor : mine p -> kept (doAdvance env caps publication cx p to at_ actor).
Proof.
  intros Hp. unfold doAdvance. cbv zeta.
  apply (pipe_post _ _ (fun x => mine x.1)); [by apply stageWork_mine|apply pipe_stageWork|]. intros [q [ref|e]] Hq; simpl in Hq.
  - apply (pipe_post _ _ mine); [by apply publicationWork_mine|by apply pipe_publicationWork|]. intros p1 Hp1.
    pipe_step; [by apply pipe_idle|]. destruct Hp as [-> Hs]. pipe_step; [|repeat pipe_step].
    apply pipe_update. by eapply mine_same.
  - repeat first [by apply pipe_fail_stage|pipe_step].
Qed.

Lemma pipe_CreateWithIdempotency cx goal trace key : kept (CreateWithIdempotency env caps cx ws goal trace key).
Proof.
  assert (forall k, kept (create_fresh env caps cx ws goal trace k)) as Hfresh.
  { intros k. unfold create_fresh, replay. pipe_step; [by apply pipe_idle|]. pipe_step; [by apply pipe_idle|].
    apply (pipe_post _ _ mine); [|by apply pipe_idle|].
    - intros w p w' Hp. unfold act_lift in Hp. destruct (NewWithIdempotency _ _ _ _ _ _) as [q|] eqn:Hn; [|done]. injection Hp as <- _.
      unfold NewWithIdempotency in Hn. repeat (apply guard_Ok in Hn as [_ Hn]). injection Hn as <-. split; [done|by left].
    - intros p Hp. repeat pipe_step. apply pipe_tx. intros now db x db' HF. by apply creating. }
  unfold CreateWithIdempotency, replay. cbv zeta. repeat first [apply Hfresh|pipe_step].
Qed.

Lemma pipe_Approve cx id actor : vouched ws (TrimSpace actor) -> kept (PipelineService.Approve env caps publication cx ws id actor).
Proof.
  intros Hv. unfold PipelineService.Approve. cbv zeta. repeat pipe_step.
  apply pipe_update. match goal with Hp : mine ?p |- _ => destruct Hp as [Hws _] end. split; [exact Hws|]. right. simpl. by rewrite Hws.
Qed.

Lemma pipe_Retry cx id actor : kept (PipelineService.Retry env caps publication cx ws id actor).
Proof.
  unfold PipelineService.Retry. cbv zeta. apply keeps_if; [|by apply pipe_idle]. apply pipe_bind; [apply pipe_throttle|]. intros b.
  apply keeps_if; [|by apply pipe_idle]. apply pipe_owned. intros p Hp. do 2 (apply keeps_if; [|by apply pipe_idle]).
  apply pipe_bind; [by apply pipe_idle|]. intros now.
  eapply (pipe_post _ _ mine); [apply update_mine; by eapply mine_same|apply pipe_update; by eapply mine_same|].
  intros q Hq. apply pipe_bind; [by apply pipe_idle|]. intros next. by apply pipe_doAdvance.
Qed.
(** A service request of the workspace, an approval by one who may approve. *)
Definition allowed (r : request) : Prop :=
  match r with
  | ReqCreate _ w _ _ _ | ReqGet w _ | ReqList w | ReqRetry _ w _ _ => w = ws
  | ReqApprove _ w _ actor => w = ws /\ vouched ws (TrimSpace actor)
  | ReqAdvance _ _ _ _ _ | ReqEvent _ _ _ _ _ _ => False
  end.

Lemma pipe_handle r : allowed r -> kept (handle env caps publication r).
Proof.
  intros Hr. destruct r; simpl in Hr; [subst|subst|subst|destruct Hr as [-> Hv]|subst|done|done]; cbn [handle];
    (apply pipe_bind; [|intros _; by apply pipe_idle]).
  - apply pipe_CreateWithIdempotency.
  - unfold PipelineService.Get, getOwned. repeat pipe_step.
  - apply pipe_read.
  - by apply pipe_Approve.
  - apply pipe_Retry.
Qed.
End kept.

(** ** What the service hands out *)

Section handed_out.
Context `{UuidText} {S : Type}.
Variable env : nat -> TxTick PipeDB.
Variable caps : Capabilities.
Variable publication : option (PublicationPort S).
Variable ws : uuid.
Definition of_ws (p : Pipeline) : Prop := pl_WorkspaceID p = ws.
Abbreviation M := (act (World S) err).
Abbreviation first_of_ws := (fun pe : Pipeline * option err => of_ws pe.1).

Lemma of_ws_mine p : of_ws p <-> mine (fun _ _ => True) ws p.
Proof. split; [|by intros [? _]]. intros Hp. split; [done|]. by right. Qed.

Lemma pipe_gives_read {A} (op : PipeDB -> res err A) (Φ : A -> Prop) :
  (forall db a, op db = Ok a -> Φ a) -> gives (read (S := S) env op) Φ.
Proof. intros Hop. apply pipe_gives_tx. intros now db a db' (a' & Ha & [= <- _])%res_bind_Ok. by eapply Hop. Qed.

Lemma pipe_gives_try {A} (m : M A) (Φ : A -> Prop) :
  gives m Φ -> gives (act_try m) (fun x => match x with Ok a => Φ a | Err _ => True end).
Proof. intros Hm w x w'. unfold act_try. destruct (m w) as [[a|e] w1] eqn:E; intros [= <- _]; [by eapply Hm|done]. Qed.

Lemma gives_update p : of_ws p -> gives (tx (S := S) env (db_Update ws p)) of_ws.
Proof. intros Hp%of_ws_mine w q w' Hq. apply of_ws_mine. by eapply update_mine. Qed.

(** The end of a command: the event is sent, and the pipeline answered. *)
Lemma gives_sent (m : M unit) p : of_ws p ->
  gives (r <~ act_try m ;; match r with Err e => act_ret (p, Some e) | Ok _ => act_ret (p, None) end) first_of_ws.
Proof. intros Hp. eapply gives_bind; [apply gives_any|]. intros [|] _; by apply gives_ret. Qed.

Lemma pipe_gives_owned {A} id (f : Pipeline -> M A) (Φ : A -> Prop) :
  (forall p, of_ws p -> gives (f p) Φ) -> gives (act_bind (getOwned env ws id) f) Φ.
Proof.
  apply gives_bind. unfold getOwned. apply gives_if; [|apply gives_fail]. eapply gives_bind; [apply gives_any|]. intros p _.
  destruct (N.eqb_spec (pl_WorkspaceID p) ws); [by apply gives_ret|apply gives_fail].
Qed.

Lemma gives_replay cx p : of_ws p -> gives (replay (S := S) caps cx ws p) first_of_ws.
Proof. intros Hp. unfold replay. apply gives_if; [by apply gives_sent|by apply gives_ret]. Qed.

Lemma pipe_found_by_key key db q : db_GetByIdempotency ws key db = Ok q -> of_ws q.
Proof.
  unfold db_GetByIdempotency. destruct (filter _ _) as [|[i p] l] eqn:Hf; [done|]. intros [= <-].
  assert ((i, p) ∈ (i, p) :: l) as Hin by left. rewrite <- Hf in Hin. apply list_elem_of_filter in Hin as [Hp _]. simpl in Hp.
  apply andb_true_iff in Hp as [Hp _]. apply andb_true_iff in Hp as [Hp _]. by apply N.eqb_eq.
Qed.

Abbreviation ok_of_ws := (fun x : res err Pipeline => match x with Ok a => of_ws a | Err _ => True end).

Lemma gives_create_fresh cx goal trace key : gives (create_fresh (S := S) env caps cx ws goal trace key) first_of_ws.
Proof.
  unfold create_fresh. do 2 (eapply gives_bind; [apply gives_any|]; intros ? _). apply (gives_bind _ _ of_ws).
  - intros w p w' Hp. unfold act_lift in Hp. destruct (NewWithIdempotency _ _ _ _ _ _) as [q|] eqn:Hn; [|done]. injection Hp as <- _.
    unfold NewWithIdempotency in Hn. repeat (apply guard_Ok in Hn as [_ Hn]). by injection Hn as <-.
  - intros p Hp. apply (gives_bind _ _ ok_of_ws).
    + apply pipe_gives_try, pipe_gives_tx. intros now db x db' Hc. unfold db_Create in Hc. cbv zeta in Hc. do 2 (apply guard_Ok in Hc as [_ Hc]).
      apply res_bind_Ok in Hc as (_ & _ & Hc). by apply guard_Ok in Hc as [_ [= <- _]].
    + intros [q|e] Hq.
      * eapply gives_bind; [apply gives_any|]. intros _ _. by apply gives_sent.
      * apply gives_if; [|apply gives_fail]. apply (gives_bind _ _ ok_of_ws); [apply pipe_gives_try, pipe_gives_read, pipe_found_by_key|].
        intros [q|e'] Hq'; [by apply gives_replay|apply gives_fail].
Qed.

Lemma pipe_gives_Create cx goal trace key : gives (CreateWithIdempotency (S := S) env caps cx ws goal trace key) first_of_ws.
Proof.
  unfold CreateWithIdempotency. apply gives_if; [|apply gives_fail]. cbv zeta. apply gives_if; [|apply gives_fail].
  apply gives_if; [|apply gives_create_fresh]. apply (gives_bind _ _ ok_of_ws); [apply pipe_gives_try, pipe_gives_read, pipe_found_by_key|].
  intros [q|e] Hq; [by apply gives_replay|]. destruct e; first [apply gives_create_fresh|apply gives_fail].
Qed.

Lemma pipe_gives_Approve cx id actor : gives (PipelineService.Approve env caps publication cx ws id actor) first_of_ws.
Proof.
  unfold PipelineService.Approve. cbv zeta. apply gives_if; [|apply gives_fail]. apply pipe_gives_owned. intros p Hp.
  apply gives_if; [|apply gives_fail]. apply gives_if; [by apply gives_sent|]. apply gives_if; [|apply gives_fail].
  do 2 (eapply gives_bind; [apply gives_any|]; intros ? _). apply (gives_bind _ _ of_ws); [by apply gives_update|]. intros q Hq.
  eapply gives_bind; [apply gives_any|]. intros _ _. by apply gives_sent.
Qed.

Lemma gives_doAdvance cx p to at_ actor : of_ws p -> gives (doAdvance env caps publication cx p to at_ actor) first_of_ws.
Proof.
  intros Hp%of_ws_mine. unfold doAdvance. cbv zeta. eapply gives_bind; [by apply stageWork_mine|]. intros [q [rf|e]] Hq; simpl in Hq.
  - eapply gives_bind; [by apply publicationWork_mine|]. intros p1 [Hp1 _]. eapply gives_bind; [apply gives_any|]. intros now _.
    destruct Hp as [-> _]. apply (gives_bind _ _ of_ws); [by apply gives_update|]. intros q' Hq'.
    eapply gives_bind; [apply gives_any|]. intros _ _. by apply gives_sent.
  - do 2 (eapply gives_bind; [apply gives_any|]; intros ? _). match goal with |- gives (match ?x with _ => _ end) _ => destruct x end; apply gives_fail.
Qed.

Lemma pipe_gives_Retry cx id actor : gives (PipelineService.Retry env caps publication cx ws id actor) first_of_ws.
Proof.
  unfold PipelineService.Retry. cbv zeta. apply gives_if; [|apply gives_fail]. eapply gives_bind; [apply gives_any|]. intros b _.
  apply gives_if; [|apply gives_fail]. apply pipe_gives_owned. intros p Hp. do 2 (apply gives_if; [|apply gives_fail]).
  eapply gives_bind; [apply gives_any|]. intros now _. apply (gives_bind _ _ of_ws); [by apply gives_update|]. intros q Hq.
  eapply gives_bind; [apply gives_any|]. intros next _. by apply gives_doAdvance.
Qed.

Lemma pipe_gives_List : gives (PipelineService.List (S := S) env ws) (fun l => forall p, p ∈ l -> of_ws p).
Proof.
  apply pipe_gives_read. intros db l [= <-] p Hp. apply subseteq_take in Hp. rewrite merge_sort_Permutation in Hp.
  apply list_elem_of_filter in Hp as [Hp _]. by apply N.eqb_eq.
Qed.

Lemma pipe_gives_Get id : gives (PipelineService.Get (S := S) env ws id) of_ws.
Proof.
  unfold PipelineService.Get, getOwned. apply gives_if; [|apply gives_fail]. eapply gives_bind; [apply gives_any|]. intros p _.
  destruct (N.eqb_spec (pl_WorkspaceID p) ws); [by apply gives_ret|apply gives_fail].
Qed.
End handed_out.

(** ** The handlers *)

Inductive PipelineRequest : Type :=
| PipeCreate (r : Http.Request) (body : Body createPipelineRequest)
| PipeList (r : Http.Request)
| PipeGet (r : Http.Request)
| PipeApprove (r : Http.Request) (body : option string)
| PipeRetry (r : Http.Request) (body : option string).

Definition pipeline_request (q : PipelineRequest) : Http.Request :=
  match q with PipeCreate r _ | PipeList r | PipeGet r | PipeApprove r _ | PipeRetry r _ => r end.

Definition shown (resp : Response PipelineAnswer) : list Pipeline :=
  match resp with Answered _ (OnePipeline p) => [p] | Answered _ (PipelineList l) => ql_Pipelines l | Refused _ _ => [] end.

Abbreviation pipe_signatory q := (signatory (fun id => String.eqb (TrimSpace id) "") (pipeline_request q)).

(** The service request a route may become: named by the route and the path, in
    the workspace of the signatory; an approval is an admin's, under the admin's
    own identifier. *)
Definition asked `{UuidParse} (q : PipelineRequest) (claims : Claims) (ws : uuid) (r : request) : Prop :=
  let named id := uuid_Parse (rq_PathValue (pipeline_request q) "id") = Some id in
  let by_actor cx := cx_actor cx = TrimSpace (cl_ID claims) in
  match q, r with
  | PipeCreate _ _, ReqCreate cx w _ _ _ => w = ws /\ by_actor cx
  | PipeList _, ReqList w => w = ws
  | PipeGet _, ReqGet w id => w = ws /\ named id
  | PipeApprove _ _, ReqApprove cx w id who =>
      w = ws /\ named id /\ by_actor cx /\ who = cl_ID claims /\ cl_Role claims = RoleWorkspaceAdmin
  | PipeRetry _ _, ReqRetry cx w id who => w = ws /\ named id /\ by_actor cx /\ who = cl_ID claims
  | _, _ => False
  end.

Section routes.
Context `{UuidText, UuidParse, MapOrder} {S : Type}.
Variable env : nat -> TxTick PipeDB.
Variable caps : Capabilities.
Variable publication : option (PublicationPort S).
Variable draw_header : nat -> bool -> string.

Definition pipeline_route (q : PipelineRequest) : handler (Front (World S)) PipelineAnswer :=
  match q with
  | PipeCreate r body => Create env caps draw_header r body
  | PipeList r => List env r
  | PipeGet r => Get env r
  | PipeApprove r body => Approve env caps publication draw_header r body
  | PipeRetry r body => Retry env caps publication draw_header r body
  end.

Section safety.
Variable J : World S -> Prop.
Variable G : Response PipelineAnswer -> Prop.
Hypothesis refusals : forall code msg, (400 <= code)%Z -> G (Refused code msg).

Lemma safe_pipelineError {B} e (Φ : B -> Prop) : safe J G (pipelineError e) Φ.
Proof. unfold pipelineError. cbv zeta. repeat (destruct (existsb _ _); [by safe_step|]). by safe_step. Qed.

Lemma safe_pipe_calling {B} (m : act (World S) err B) (Φ : B -> Prop) : (forall w, J w -> J (m w).2) -> gives m Φ -> safe J G (calling m) Φ.
Proof.
  intros Hm Hg. eapply safe_bind; [apply (safe_svc J G m Φ)|].
  - intros w Hw. split; [by apply Hm|]. intros b w'. apply Hg.
  - intros [b|e] Hb; [by apply safe_ret|]. apply safe_pipelineError.
Qed.

Lemma safe_pipelineContext r claims :
  safe J G (pipelineContext draw_header r claims) (fun cx => cx_actor cx = TrimSpace (cl_ID claims)).
Proof. unfold pipelineContext. eapply safe_bind; [apply safe_contextValues|]. intros cv _. by apply safe_ret. Qed.

Lemma safe_traceFromRequest r : safe J G (traceFromRequest draw_header r) (fun _ => True).
Proof. unfold traceFromRequest. eapply safe_bind; [apply safe_contextValues|]. intros cv _. by apply safe_ret. Qed.

Lemma safe_pipelineID r : safe J G (pipelineID r) (fun id => uuid_Parse (rq_PathValue r "id") = Some id).
Proof.
  unfold pipelineID, namedID. destruct (uuid_Parse _) as [id|]; [|by safe_step]. destruct (negb _); [by apply safe_ret|by safe_step].
Qed.

Lemma safe_goalID raw : safe J G (goalID (S := S) raw) (fun _ => True).
Proof. unfold goalID. repeat safe_step. Qed.

Lemma safe_pipelineLimit r msg :
  safe J G (match pipelineLimit r with Some n => act_ret n | None => act_fail (Refused 400 msg) end) (fun _ => True).
Proof. destruct (pipelineLimit r); by safe_step. Qed.

Lemma safe_answered code pe (Φ : _ -> Prop) : (pe.2 = None -> Φ (Answered code (OnePipeline pe.1))) -> safe J G (answered (S := S) code pe) Φ.
Proof. intros Hpe. destruct pe as [p [e|]]; [apply safe_pipelineError|]. by apply safe_ret, Hpe. Qed.
End safety.

Lemma pipe_calling_svc {B} (m : act (World S) err B) s : fr_svc (calling m s).2 = (m (fr_svc s)).2.
Proof. unfold calling, svc, act_bind. by destruct (m (fr_svc s)) as [[b|e] w]. Qed.

Lemma pipe_then_unit {B} (m : act (World S) err B) w : ((m ;;! act_ret tt) w).2 = (m w).2.
Proof. unfold act_bind. by destruct (m w) as [[b|e] w']. Qed.

Ltac pipe_route_step :=
  first
    [ apply safe_pipelineContext; assumption | apply safe_traceFromRequest; assumption | apply safe_goalID; assumption
    | apply safe_pipelineLimit; assumption | apply safe_pipelineID; assumption | signed_step ].

Ltac quietly := eapply becomes_bind; [intros ?; solve [repeat pipe_route_step]|intros ? ?].
Ltac serving rq := eapply (becomes_call _ _ _ rq);
  [ | intros ?; rewrite pipe_calling_svc; cbn [handle]; by rewrite pipe_then_unit
    | intros ? ?; first [by apply safe_answered|by apply safe_ret] ].

Lemma pipe_route_becomes q :
  becomes (handle env caps publication) (fun rq => exists claims ws, pipe_signatory q = Some (claims, ws) /\ asked q claims ws rq)
    (pipeline_route q).
Proof.
  pose proof (refusal_refused (A := PipelineAnswer)) as Hr.
  destruct q as [r body|r|r|r body|r body]; cbn [pipeline_route pipeline_request];
    (eapply becomes_bind; [intros w; by apply safe_signed_scope|]; intros [claims ws] Hc).
  - do 3 quietly. eapply becomes_bind; [intros w; by apply safe_pipelineContext|]. intros cx Hcx. quietly.
    match goal with |- becomes _ _ (act_bind (calling (CreateWithIdempotency _ _ _ _ ?g ?t ?k)) _) => serving (ReqCreate cx ws g t k) end.
    by exists claims, ws.
  - quietly. serving (ReqList ws). by exists claims, ws.
  - eapply becomes_bind; [intros w; by apply safe_pipelineID|]. intros id Hid. serving (ReqGet ws id). by exists claims, ws.
  - destruct (bool_decide (cl_Role claims = RoleWorkspaceAdmin)) eqn:Hrole; [|intros s; unfold respond, act_fail; by left].
    apply bool_decide_eq_true in Hrole. quietly. eapply becomes_bind; [intros w; by apply safe_pipelineID|]. intros id Hid.
    eapply becomes_bind; [intros w; by apply safe_pipelineContext|]. intros cx Hcx.
    serving (ReqApprove cx ws id (cl_ID claims)). by exists claims, ws.
  - quietly. eapply becomes_bind; [intros w; by apply safe_pipelineID|]. intros id Hid.
    eapply becomes_bind; [intros w; by apply safe_pipelineContext|]. intros cx Hcx.
    serving (ReqRetry cx ws id (cl_ID claims)). by exists claims, ws.
Qed.

(** A pipeline request is a request of the service.  A request is refused and
    reaches no pipeline, or it is the one service request its route and path
    name, in the workspace of its signatory, under the signatory's own
    identifier; an approval only of a workspace admin. *)
Theorem pipeline_routes_refine q s :
  let '(resp, s') := respond (pipeline_route q) s in
  (fr_svc s' = fr_svc s /\ is_success (status resp) = false) \/
  (exists claims ws rq, pipe_signatory q = Some (claims, ws) /\ asked q claims ws rq /\
     fr_svc s' = (handle env caps publication rq (fr_svc s)).2).
Proof.
  pose proof (pipe_route_becomes q s) as Hb. destruct (respond _ s) as [resp s']. destruct Hb as [?|(rq & (claims & ws & Hc & Ha) & Hs)]; [by left|].
  right. by exists claims, ws, rq.
Qed.

(** *** The workspace of the signatory *)

Definition pipe_confined : uuid -> uuid -> PipeDB -> PipeDB -> Prop := confined pd_rows pl_WorkspaceID (below pd_rows pd_next).

Lemma pipe_row_Some ws id db p : find_row ws id db = Some p -> pd_rows db !! id = Some p /\ pl_WorkspaceID p = ws.
Proof.
  unfold find_row. destruct (pd_rows db !! id) as [q|]; [|done]. destruct (N.eqb_spec (pl_WorkspaceID q) ws); [|done]. by intros [= <-].
Qed.

Lemma pipe_create_confined ws i p now db a db' : pl_WorkspaceID p = ws -> db_Create p now db = Ok (a, db') -> pipe_confined ws i db db'.
Proof.
  intros Hws Hc. unfold db_Create in Hc. cbv zeta in Hc. do 2 (apply guard_Ok in Hc as [_ Hc]). apply res_bind_Ok in Hc as (_ & _ & Hc).
  apply guard_Ok in Hc as [_ [= _ <-]]. eapply confined_insert; [|reflexivity|done|].
  - eapply below_insert; [reflexivity|simpl; lia|simpl; lia].
  - intros Hi. by apply below_fresh.
Qed.

Lemma pipe_update_confined ws i p now db a db' : db_Update ws p now db = Ok (a, db') -> pipe_confined ws i db db'.
Proof.
  unfold db_Update. cbv zeta. intros [_ Hu]%guard_Ok. apply guard_Ok in Hu as [_ Hu].
  destruct (find_row _ _ _) as [row|] eqn:Hf; [|done]. apply pipe_row_Some in Hf as [Hrow Hws].
  apply guard_Ok in Hu as [_ Hu]. apply res_bind_Ok in Hu as (_ & _ & [= _ <-]). simpl in *. eapply confined_insert; [|reflexivity|done|].
  - intros Hb. eapply below_insert; [reflexivity|reflexivity| |done]. intros <-. by eapply Hb.
  - intros <- _. rewrite Hrow. by apply ours_Some.
Qed.

Lemma pipe_asked_allowed q claims ws rq (vouched : uuid -> string -> Prop) :
  asked q claims ws rq -> (cl_Role claims = RoleWorkspaceAdmin -> vouched ws (TrimSpace (cl_ID claims))) -> allowed vouched ws rq.
Proof.
  intros Ha Hv. destruct q, rq; cbn in Ha; try done; cbn [allowed]; try (by destruct Ha as [-> _]).
  destruct Ha as (-> & _ & _ & -> & Hr). split; [done|by apply Hv].
Qed.

Definition only_ours (ws : uuid) (resp : Response PipelineAnswer) : Prop := forall p, p ∈ shown resp -> pl_WorkspaceID p = ws.

Lemma pipe_refused ws code msg : (400 <= code)%Z -> only_ours ws (Refused code msg).
Proof. by intros _ t Ht%elem_of_nil. Qed.

Lemma pipe_one ws code p : of_ws ws p -> only_ours ws (Answered code (OnePipeline p)).
Proof. by intros Hws u ->%list_elem_of_singleton. Qed.

Abbreviation shows ws m := (safe (fun _ : World S => True) (only_ours ws) m (only_ours ws)).
Ltac passing := eapply safe_bind; [by repeat pipe_route_step|]; intros ? _.
Ltac asking tac := eapply safe_bind; [by apply safe_pipe_calling; [|done|tac]|].

Lemma pipe_route_shows q claims ws : pipe_signatory q = Some (claims, ws) -> shows ws (pipeline_route q).
Proof.
  intros Hc. pose proof (pipe_refused ws) as Hr.
  destruct q as [r body|r|r|r body|r body]; cbn [pipeline_route pipeline_request] in *;
    (eapply safe_bind; [by apply safe_signed_scope|]; intros cw Hcw; rewrite Hc in Hcw; injection Hcw as <-; cbn [fst snd]).
  - do 3 passing. eapply safe_bind; [by apply safe_pipelineContext|]. intros cx _. passing.
    asking ltac:(apply pipe_gives_Create). intros pe Hp. apply safe_answered; [done|]. intros _. by apply pipe_one.
  - passing. asking ltac:(apply pipe_gives_List). intros l Hl. apply safe_ret. cbv zeta. intros p Hp. simpl in Hp. apply Hl. by eapply subseteq_take.
  - passing. asking ltac:(apply pipe_gives_Get). intros p Hp. by apply safe_ret, pipe_one.
  - destruct (bool_decide _); [|by safe_step]. do 2 passing. eapply safe_bind; [by apply safe_pipelineContext|]. intros cx _.
    asking ltac:(apply pipe_gives_Approve). intros pe Hp. apply safe_answered; [done|]. intros _. by apply pipe_one.
  - do 2 passing. eapply safe_bind; [by apply safe_pipelineContext|]. intros cx _.
    asking ltac:(apply pipe_gives_Retry). intros pe Hp. apply safe_answered; [done|]. intros _. by apply pipe_one.
Qed.

Lemma pipe_route_unsigned q s : pipe_signatory q = None ->
  exists code msg, respond (pipeline_route q) s = (Refused code msg, s) /\ (code = 401 \/ code = 403)%Z.
Proof.
  intros Hc. pose proof (signed_scope_cases (W := World S) (A := PipelineAnswer) (fun id => String.eqb (TrimSpace id) "") (pipeline_request q) s) as Hs.
  rewrite Hc in Hs. destruct Hs as (code & msg & Hcode & Hs). exists code, msg. split; [|done].
  destruct q; cbn [pipeline_route pipeline_request] in *; unfold respond, Create, List, Get, Approve, Retry, act_bind at 1, scope; by rewrite Hs.
Qed.

(** Pipeline routes stay in the workspace of the signatory, as the publication
    routes do: refused without one; the answer shows pipelines of its workspace;
    and a row that the others leave alone, or touch only as one of that
    workspace, is as it was unless it is one of that workspace before and
    after. *)
Theorem pipeline_routes_confined q s :
  let '(resp, s') := respond (pipeline_route q) s in
  match pipe_signatory q with
  | None => (status resp = 401 \/ status resp = 403)%Z /\ shown resp = [] /\ fr_svc s' = fr_svc s
  | Some (_, ws) =>
      (forall p, p ∈ shown resp -> pl_WorkspaceID p = ws) /\
      (forall i, (forall n db, pipe_confined ws i db (tt_others (env n) db)) -> pipe_confined ws i (w_db (fr_svc s)) (w_db (fr_svc s')))
  end.
Proof.
  destruct (pipe_signatory q) as [[claims ws]|] eqn:Hc.
  - destruct (respond_safe _ _ (pipeline_route q) s (pipe_route_shows q claims ws Hc) I) as [Hshown _].
    pose proof (pipe_route_becomes q s) as Hb. destruct (respond _ s) as [resp s']. split; [exact Hshown|]. intros i others.
    destruct Hb as [[-> _]|(rq & (c & w & Hc' & Ha) & ->)]; [reflexivity|]. rewrite Hc in Hc'. injection Hc' as <- <-.
    apply (pipe_handle env caps publication (pipe_confined ws i) anything (stable_anything _) others (fun _ _ => True) ws);
      [by intros; right|..|done].
    + intros p now db a db' [Hp _] _. by apply pipe_create_confined.
    + intros p now db a db' _ _. by apply pipe_update_confined.
    + by eapply pipe_asked_allowed.
  - destruct (pipe_route_unsigned q s Hc) as (code & msg & -> & ?). done.
Qed.

(** *** Approvals *)

Definition serve_pipeline_routes (qs : list PipelineRequest) (s : Front (World S)) : Front (World S) :=
  fold_left (fun s q => (respond (pipeline_route q) s).2) qs s.

Section approvals.
Variable vouched : uuid -> string -> Prop.
Definition signed (db : PipeDB) : Prop := forall i p, pd_rows db !! i = Some p -> stamped vouched p.
Definition keeps_signed (db db' : PipeDB) : Prop := signed db -> signed db'.

#[local] Instance pipe_signed_preorder : PreOrder keeps_signed.
Proof. split; [by intros db Hdb|intros a b c Hab Hbc Ha; by apply Hbc, Hab]. Qed.

Lemma pipe_create_signed ws p now db a db' : mine vouched ws p -> db_Create p now db = Ok (a, db') -> keeps_signed db db'.
Proof.
  intros [Hws Hp] Hc Hs i q. unfold db_Create in Hc. cbv zeta in Hc. do 2 (apply guard_Ok in Hc as [_ Hc]).
  apply res_bind_Ok in Hc as (_ & _ & Hc). apply guard_Ok in Hc as [_ [= _ <-]]. simpl.
  rewrite lookup_insert_Some. intros [[_ <-]|[_ Hq]]; [exact Hp|by eapply Hs].
Qed.

Lemma pipe_update_signed ws p now db a db' : mine vouched ws p -> db_Update ws p now db = Ok (a, db') -> keeps_signed db db'.
Proof.
  intros [Hws Hp] Hu Hs i q. unfold db_Update in Hu. cbv zeta in Hu. do 2 (apply guard_Ok in Hu as [_ Hu]).
  destruct (find_row _ _ _) as [row|] eqn:Hf; [|done]. apply pipe_row_Some in Hf as [_ Hrow].
  apply guard_Ok in Hu as [_ Hu]. apply res_bind_Ok in Hu as (_ & _ & [= _ <-]). simpl.
  rewrite lookup_insert_Some. intros [[_ <-]|[_ Hq]]; [|by eapply Hs]. unfold stamped in *. simpl in *. by rewrite Hrow, <- Hws.
Qed.

Definition admitted (q : PipelineRequest) : Prop :=
  forall claims ws, pipe_signatory q = Some (claims, ws) -> cl_Role claims = RoleWorkspaceAdmin -> vouched ws (TrimSpace (cl_ID claims)).

Hypothesis others_sign : forall n db, keeps_signed db (tt_others (env n) db).
Hypothesis others_gate : forall n db, gate db -> gate (tt_others (env n) db) /\ grows db (tt_others (env n) db).

Lemma pipe_route_signed q s : admitted q -> gate (w_db (fr_svc s)) -> signed (w_db (fr_svc s)) ->
  let s' := (respond (pipeline_route q) s).2 in gate (w_db (fr_svc s')) /\ signed (w_db (fr_svc s')).
Proof.
  intros Hq Hg Hs. cbv zeta. pose proof (pipe_route_becomes q s) as Hb. destruct (respond _ s) as [resp s']. simpl.
  destruct Hb as [[-> _]|(rq & (c & ws & Hc & Ha) & ->)]; [done|]. split.
  - destruct (St_serve env caps publication (fun _ => True) ltac:(done) others_gate (w_db (fr_svc s)) [rq] (fr_svc s)) as [Hg' _]; [|exact Hg'].
    split; [done|]. split; [reflexivity|done].
  - apply (pipe_handle env caps publication keeps_signed signed ltac:(by intros a b Ha' Hab; apply Hab) others_sign vouched ws);
      [by intros db i p Hdb; apply Hdb|..].
    + intros p now db a db' Hp _. by apply (pipe_create_signed ws p now db a db').
    + intros p now db a db' Hp _. by apply pipe_update_signed.
    + eapply pipe_asked_allowed; [exact Ha|]. by apply Hq.
    + exact Hs.
    + exact Hs.
Qed.

(** The gate is opened by admins.  Let [vouched ws a] hold of the workspace
    admins whose verified claims the requests carry.  Whatever requests are
    served, one after the other, whatever the stages, the publishing service and
    the event sink do, and while the other processes keep the same rules, a
    pipeline that is past the review stage bears the identifier of such an admin
    of its own workspace as its approver. *)
Theorem gate_opened_by_admins qs s :
  Forall admitted qs -> gate (w_db (fr_svc s)) -> signed (w_db (fr_svc s)) ->
  let db := w_db (fr_svc (serve_pipeline_routes qs s)) in
  gate db /\ forall i p, pd_rows db !! i = Some p -> beyond p = true -> vouched (pl_WorkspaceID p) (pl_ApprovedBy p).
Proof.
  intros Hqs Hg Hs. cbv zeta.
  assert (gate (w_db (fr_svc (serve_pipeline_routes qs s))) /\ signed (w_db (fr_svc (serve_pipeline_routes qs s)))) as [Hg' Hs'].
  { revert s Hs Hg. induction Hqs as [|q qs Hq Hqs IH]; intros s Hs Hg; [done|].
    destruct (pipe_route_signed q s Hq Hg Hs) as [Hg' Hs']. by apply IH. }
  split; [done|]. intros i p Hp Hb. destruct (Hg' i p Hp) as (_ & _ & _ & _ & Hrow). rewrite Hb in Hrow. destruct Hrow as [Hne _].
  by destruct (Hs' i p Hp).
Qed.
End approvals.
End routes.

(** ** Concrete runs *)

#[local] Hint Extern 0 UuidText => exact unary_uuid : typeclass_instances.
#[local] Hint Extern 0 UuidParse => exact unary_parse : typeclass_instances.
#[local] Hint Extern 0 MapOrder => exact GoText.in_order : typeclass_instances.

Definition still : nat -> TxTick PipeDB := fun n => mkTxTick (Z.of_nat n) (fun db => db) NoFault.
Definition willing : Capabilities :=
  mkCapabilities (fun _ _ _ => Ok "research"%string) (fun _ _ _ _ => Ok "script"%string) (fun _ _ _ => Ok true)
    (fun _ _ _ _ => Ok "reference"%string) (fun _ _ => Ok tt).
Definition open_port : PublicationPort unit :=
  mkPort (fun _ _ s => (Ok 1%N, s)) (fun _ _ _ s => (Ok tt, s)) (fun _ _ _ s => (Ok "reference"%string, s)).
(** A pipeline of workspace 7 at its gate. *)
Definition at_gate : Pipeline :=
  mkPipeline 1 7 None StageReview StatusAwaitingApproval None (Some 1%N) "research" "script" "review-ok" "" "" 0 "key-1" "" None "trace" 0 0 3.
Definition gate_db : PipeDB := mkPipeDB {[1%N := at_gate]} {[7%N]} ∅ {[1%N]} 2.
Definition gate_front : Front (World unit) := mkFront (mkWorld gate_db 0 service_throttle tt [] []) [] 0.
Definition admin : Claims := mkClaims (uuid_String 5) RoleWorkspaceAdmin (uuid_String 7) ∅.

Abbreviation run q := (respond (pipeline_route still willing (Some open_port) no_header q) gate_front).

Lemma gate_of_gate_db : gate gate_db.
Proof. apply map_Forall_singleton. split; [done|]. split; [done|]. split; [done|]. by split; vm_compute. Qed.

Lemma pipeline_routes_refine_witness :
  let '(resp, s') := run (PipeApprove (ask 1 (Some admin)) (Some "")%string) in
  status resp = 200%Z /\ exists claims ws rq, signatory (fun id => String.eqb (TrimSpace id) "") (ask 1 (Some admin)) = Some (claims, ws) /\
    asked (PipeApprove (ask 1 (Some admin)) (Some "")%string) claims ws rq /\
    fr_svc s' = (handle still willing (Some open_port) rq (fr_svc gate_front)).2.
Proof.
  pose proof (pipeline_routes_refine still willing (Some open_port) no_header (PipeApprove (ask 1 (Some admin)) (Some "")%string) gate_front) as Hp.
  match goal with |- let '(_, _) := ?a in _ =>
    assert (status a.1 = 200%Z) as Hs by (vm_compute; reflexivity); destruct a as [resp s'] end.
  cbn [fst] in Hs. split; [exact Hs|]. destruct Hp as [[_ Hf]|Hp]; [|exact Hp]. unfold is_success in Hf. rewrite Hs in Hf. discriminate Hf.
Defined.

Lemma pipeline_routes_confined_witness :
  let '(resp, s') := run (PipeGet (ask 1 (Some member))) in
  status resp = 200%Z /\ (forall p, p ∈ shown resp -> pl_WorkspaceID p = 7%N) /\ pipe_confined 7 9 gate_db (w_db (fr_svc s')).
Proof.
  pose proof (pipeline_routes_confined still willing (Some open_port) no_header (PipeGet (ask 1 (Some member))) gate_front) as Hp.
  match goal with |- let '(_, _) := ?a in _ =>
    assert (status a.1 = 200%Z) as Hs by (vm_compute; reflexivity); destruct a as [resp s'] end.
  assert (signatory (fun id => String.eqb (TrimSpace id) "") (ask 1 (Some member)) = Some (member, 7%N)) as Hc by (vm_compute; reflexivity).
  cbn [pipeline_request] in Hp. rewrite Hc in Hp. destruct Hp as [Hours Hrow].
  split; [exact Hs|]. split; [exact Hours|]. apply Hrow. intros n db. reflexivity.
Defined.

(** The member tries, the admin opens the gate. *)
Definition opening : list PipelineRequest :=
  [PipeApprove (ask 1 (Some member)) (Some "")%string; PipeApprove (ask 1 (Some admin)) (Some "")%string].

Lemma gate_opened_by_admins_witness :
  let db := w_db (fr_svc (serve_pipeline_routes still willing (Some open_port) no_header opening gate_front)) in
  option_map beyond (pd_rows db !! 1%N) = Some true /\
  forall i p, pd_rows db !! i = Some p -> beyond p = true -> pl_ApprovedBy p = uuid_String 5 /\ pl_WorkspaceID p = 7%N.
Proof.
  cbv zeta. split; [vm_compute; reflexivity|].
  destruct (gate_opened_by_admins still willing (Some open_port) no_header (fun ws a => a = uuid_String 5 /\ ws = 7%N)
    ltac:(by intros n db Hdb) ltac:(by intros n db Hdb) opening gate_front) as [_ Ha].
  - unfold opening. rewrite !Forall_cons, Forall_nil. split_and!; try done;
      (intros claims ws Hc Hrole; vm_compute in Hc; injection Hc as <- <-; first [by vm_compute in Hrole|by split; vm_compute]).
  - exact gate_of_gate_db.
  - intros i p Hp. cbn in Hp. apply lookup_singleton_Some in Hp as [_ <-]. by left.
  - intros i p Hp Hb. exact (Ha i p Hp Hb).
Defined.

(** ** What is not as it is said to be *)

(** A query that cannot be parsed is not refused: what is left of it is used. *)
Example malformed_query_is_ignored :
  status (respond (pipeline_route still willing (Some open_port) no_header
    (PipeList (mkRequest "203.0.113.9:4711" (fun _ => ""%string) "limit=%zz" (fun _ => ""%string) (Some member)))) gate_front).1 = 200%Z.
Proof. by vm_compute. Qed.
