(* ===== verification/ExecHttp.v ===== *)
(** * The execution routes: internal/api/execution_handlers.go

    Over three services: the tasks, the AI employees and the execution store,
    the last one behind its port. *)

From S2P Require Import Prelude GoLib GoText Tasks Org Execution ExecStore ExecInv Ports ExecService Rbac Authz AuditChain Http Surface.
From S2P Require TaskHttp.

(** What the three services keep. *)
Record Runtime (X : Type) : Type := mkRuntime { rt_tasks : Tasks.World; rt_employees : Org.World; rt_execs : X }.
Arguments mkRuntime {X}.
Arguments rt_tasks {X}.
Arguments rt_employees {X}.
Arguments rt_execs {X}.

Record executeTaskRequest : Type := mkExecuteTask { xr_AIEmployeeID : string; xr_MaxAttempts : Z; xr_IdempotencyKey : string }.

(** An instant stands for its text. *)
Record executionResponse : Type := mkExecutionResponse {
  xs_ID : string; xs_WorkspaceID : string; xs_AIEmployeeID : string; xs_TaskID : string; xs_Status : string; xs_Attempt : Z;
  xs_MaxAttempts : Z; xs_IdempotencyKey : string; xs_LastErrorCode : option string; xs_ErrorDetail : option string;
  xs_ResultJSON : option string; xs_Created : bool; xs_CreatedAt : time; xs_UpdatedAt : time; xs_CompletedAt : option time;
  xs_FailedAt : option time; xs_CancelledAt : option time
}.

Definition execution_status (s : Execution.Status) : string :=
  match s with
  | Execution.StatusPending => "pending" | Execution.StatusRunning => "running" | Execution.StatusCompleted => "completed"
  | Execution.StatusFailed => "failed" | Execution.StatusCancelled => "cancelled" | Execution.StatusOther s => s
  end.

(** An error of one of the three packages. *)
Inductive fault : Type := OfTask (e : Tasks.err) | OfEmployee (e : Org.err) | OfExecution (e : Execution.err).

Definition execution_surface : Surface := mkSurface "execution." "-execution" "execution" "Security by Design".

Section executions.
Context `{UuidText, UuidParse, StoredTime, MapOrder} {X : Type} `{ExecutionStore X}.
Variable task_env : nat -> TxTick TaskDB.
Variable org_env : nat -> TxTick OrgDB.
Variable draw_header : nat -> bool -> string.
Variable sink : Sink.
Variable r : Request.

Abbreviation Runtime := (Runtime X).
Abbreviation M := (act (Front Runtime) (Response executionResponse)).
Abbreviation scope := (Surface.scope draw_header sink execution_surface r true).
Abbreviation recordSuccess := (Surface.recordSuccess draw_header sink execution_surface r).

Definition toExecutionResponse (e : Execution) (created : bool) : executionResponse :=
  mkExecutionResponse (uuid_String (x_ID e)) (uuid_String (x_WorkspaceID e)) (uuid_String (x_AIEmployeeID e))
    (match x_TaskID e with Some t => uuid_String t | None => "" end) (execution_status (x_Status e)) (x_Attempt e) (x_MaxAttempts e)
    (default "" (x_IdempotencyKey e))
    (match x_LastErrorCode e with Some c => if (c =? CodeNone)%Z then None else Some (ErrorCode_String c) | None => None end)
    (x_ErrorDetail e)
    (match x_ResultJSON e with Some t => if (0 <? String.length t)%nat then Some t else None | None => None end)
    created (x_CreatedAt e) (x_UpdatedAt e) (x_CompletedAt e) (x_FailedAt e) (x_CancelledAt e).

(** [ExecutionHandler.fail]: the case of the first sentinel that matches. *)
Definition fail {B} (claims : Claims) (action : string) (id : uuid) (e : fault) : M B :=
  let failing := @Surface.failing _ Runtime executionResponse draw_header sink execution_surface r B claims action id uuid_Nil in
  let invalid message := failing "failed"%string "invalid_request"%string (Refused 400 message) in
  match e with
  | OfTask Tasks.ErrNotFound | OfEmployee Org.ErrNotFound | OfExecution Execution.ErrNotFound =>
      failing "failed" "not_found" (Refused 404 "not found")
  | OfExecution ErrCapacityExceeded => failing "failed" "capacity_exceeded" (Refused 429 "ai employee concurrency capacity exceeded")
  | OfExecution ErrIdempotencyKey => failing "failed" "idempotency_key_conflict" (Refused 409 "idempotency key conflict")
  | OfTask Tasks.ErrWorkspaceMismatch | OfEmployee Org.ErrWorkspaceMismatch | OfExecution Execution.ErrWorkspaceMismatch =>
      failing "denied" "workspace_mismatch" forbidden
  | OfTask ((Tasks.ErrInvalidInput | Tasks.ErrInvalidTransition | Tasks.ErrTerminalState | Tasks.ErrStatus | Tasks.ErrPriority
            | Tasks.ErrAssigneeType) as e) => invalid (TaskHttp.err_Error e)
  | OfEmployee Org.ErrInvalidInput => invalid "aiemployee: invalid input"
  | OfExecution Execution.ErrInvalidInput => invalid "execution: invalid input"
  | OfExecution Execution.ErrStatus => invalid "execution: invalid status"
  | _ => act_fail internal_error
  end.

(** A call of one of the services. *)
Definition answering {B} (claims : Claims) (action : string) (id : uuid) (res : res fault B) : M B :=
  match res with Ok b => act_ret b | Err e => fail claims action id e end.

Definition on_tasks {B} (m : act Tasks.World Tasks.err B) : M (res fault B) := fun s =>
  let '(x, w) := m (rt_tasks (fr_svc s)) in
  (Ok (match x with Ok b => Ok b | Err e => Err (OfTask e) end),
   mkFront (mkRuntime w (rt_employees (fr_svc s)) (rt_execs (fr_svc s))) (fr_audit s) (fr_at s)).
Definition on_employees {B} (m : act Org.World Org.err B) : M (res fault B) := fun s =>
  let '(x, w) := m (rt_employees (fr_svc s)) in
  (Ok (match x with Ok b => Ok b | Err e => Err (OfEmployee e) end),
   mkFront (mkRuntime (rt_tasks (fr_svc s)) w (rt_execs (fr_svc s))) (fr_audit s) (fr_at s)).
Definition on_execs {B} (m : act X Execution.err B) : M (res fault B) := fun s =>
  let '(x, w) := m (rt_execs (fr_svc s)) in
  (Ok (match x with Ok b => Ok b | Err e => Err (OfExecution e) end),
   mkFront (mkRuntime (rt_tasks (fr_svc s)) (rt_employees (fr_svc s)) w) (fr_audit s) (fr_at s)).

Definition taskIDFromPath : M uuid := idFromPath r "invalid task id".
Definition executionIDFromPath : M uuid := idFromPath r "invalid execution id".

(** What the caller asks the runtime to admit: the snapshot names what was read
    inside the workspace. *)
Definition admission (ws employeeID taskID : uuid) (body : executeTaskRequest) (t : Task) (emp : AIEmployee) : AdmitRequest :=
  mkAdmit ws employeeID (Some taskID) (xr_MaxAttempts body) (TrimSpace (xr_IdempotencyKey body))
    (Some (mkMaterialized (k_Title t) (k_Description t) (m_Name emp) (m_Role emp) "" "" (Org.m_Capabilities emp))).

Definition employee_of (body : executeTaskRequest) : M uuid :=
  let refused := Refused 400 "ai_employee_id must be a uuid" in
  match uuid_Parse (TrimSpace (xr_AIEmployeeID body)) with
  | Some id => check! negb (id =? uuid_Nil)%N else act_fail refused ;; act_ret id
  | None => act_fail refused
  end.

Definition Execute (body : Body executeTaskRequest) : handler (Front Runtime) executionResponse :=
  cw <~ scope "execute-task" ;;
  let '(claims, ws) := cw in
  taskID <~ taskIDFromPath ;;
  req <~ decoded body act_fail ;;
  employeeID <~ employee_of req ;;
  res <~ on_tasks (Tasks.Get task_env ws taskID) ;;
  t <~ answering claims "execute-task" taskID res ;;
  res <~ on_employees (GetEmployee org_env ws employeeID) ;;
  emp <~ answering claims "execute-task" taskID res ;;
  res <~ on_execs (Admit (admission ws employeeID taskID req t emp)) ;;
  res <~ answering claims "execute-task" taskID res ;;
  recordSuccess claims "execute-task" (x_ID (ar_Execution res)) ws "" ;;!
  act_ret (Answered (if ar_Completed res then 200 else 202)%Z (toExecutionResponse (ar_Execution res) (ar_Created res))).

Definition Get : handler (Front Runtime) executionResponse :=
  cw <~ scope "get-execution" ;;
  let '(claims, ws) := cw in
  id <~ executionIDFromPath ;;
  res <~ on_execs (Service_Get ws id) ;;
  e <~ answering claims "get-execution" id res ;;
  act_ret (Answered 200 (toExecutionResponse e false)).

Definition Cancel : handler (Front Runtime) executionResponse :=
  cw <~ scope "cancel-execution" ;;
  let '(claims, ws) := cw in
  id <~ executionIDFromPath ;;
  res <~ on_execs (Service_Cancel ws id) ;;
  answering claims "cancel-execution" id res ;;!
  res <~ on_execs (Service_Get ws id) ;;
  e <~ answering claims "cancel-execution" id res ;;
  recordSuccess claims "cancel-execution" id ws "" ;;!
  act_ret (Answered 202 (toExecutionResponse e false)).
End executions.
