(* ===== verification/ExecHttpProps.v ===== *)
(** * What the execution routes guarantee

    An execution is admitted for a task and an employee read inside the caller's
    workspace, with the snapshot that was read; reading and cancelling one are
    exactly the service requests of the caller's workspace; a success is on the
    audit chain; whatever a route does to the board is what the board allows. *)

From S2P Require Import Prelude GoLib GoText Keyset Tasks Org Execution ExecStore ExecInv Ports ExecService Rbac Authz AuditChain Http Surface ExecHttp.
From S2P Require PgStore Recovery ExecProps TasksProps OrgProps TaskHttpProps OrgHttpProps.

Inductive ExecRequest : Type :=
| HExecute (r : Http.Request) (body : Body executeTaskRequest)
| HGet (r : Http.Request)
| HCancel (r : Http.Request).

Definition exec_request (q : ExecRequest) : Http.Request := match q with HExecute r _ | HGet r | HCancel r => r end.

Section routes.
Context `{UuidText, UuidParse, StoredTime, MapOrder} {X : Type} `{ExecutionStore X}.
Variable task_env : nat -> TxTick TaskDB.
Variable org_env : nat -> TxTick OrgDB.
Variable draw_header : nat -> bool -> string.
Variable sink : Sink.

Definition exec_route (q : ExecRequest) : handler (Front (Runtime X)) executionResponse :=
  match q with
  | HExecute r body => Execute task_env org_env draw_header sink r body
  | HGet r => Get draw_header sink r
  | HCancel r => Cancel draw_header sink r
  end.

Section safety.
Variable J : Runtime X -> Prop.
Variable G : Response executionResponse -> Prop.
Hypothesis refusals : forall code msg, (400 <= code)%Z -> G (Refused code msg).

Lemma safe_exec_fail {B} r claims action id e (Φ : B -> Prop) : safe J G (fail draw_header sink r claims action id e) Φ.
Proof. unfold fail. cbv zeta. destruct e as [[]|[]|[]]; by safe_step. Qed.

Lemma safe_answering {B} r claims action id (x : res fault B) (Φ : B -> Prop) :
  (forall b, x = Ok b -> Φ b) -> safe J G (answering draw_header sink r claims action id x) Φ.
Proof. intros Hx. unfold answering. destruct x as [b|e]; [by apply safe_ret, Hx|apply safe_exec_fail]. Qed.

Lemma safe_employee_of body : safe J G (employee_of (X := X) body) (fun id => uuid_Parse (TrimSpace (xr_AIEmployeeID body)) = Some id).
Proof.
  unfold employee_of. destruct (uuid_Parse _) as [id|]; [|by safe_step]. destruct (negb _); [by apply safe_ret|by safe_step].
Qed.
End safety.

(** ** Admission *)

(** What a request to execute has admitted. *)
Definition admitted (r : Http.Request) (body : Body executeTaskRequest) (s s' : Front (Runtime X)) (resp : Response executionResponse) : Prop :=
  exists claims ws taskID employeeID req t emp,
    caller r = Some (claims, ws) /\ uuid_Parse (rq_PathValue r "id") = Some taskID /\ bd_first body = Some req /\
    uuid_Parse (TrimSpace (xr_AIEmployeeID req)) = Some employeeID /\
    (Tasks.Get task_env ws taskID (rt_tasks (fr_svc s))).1 = Ok t /\ k_WorkspaceID t = ws /\
    (GetEmployee org_env ws employeeID (rt_employees (fr_svc s))).1 = Ok emp /\ m_WorkspaceID emp = ws /\
    let '(res, x) := Admit (admission ws employeeID taskID req t emp) (rt_execs (fr_svc s)) in
    rt_execs (fr_svc s') = x /\
    (is_success (status resp) = true -> exists a, res = Ok a /\
       resp = Answered (if ar_Completed a then 200 else 202)%Z (toExecutionResponse (ar_Execution a) (ar_Created a)) /\
       exists rec l, fr_audit s' = rec :: l /\ records execution_surface claims "execute-task" (x_ID (ar_Execution a)) ws "" rec).

(** The refusal of an answer to a service call. *)
Lemma answering_cases {B} r claims action id (x : res fault B) (s : Front (Runtime X)) :
  (exists resp s', answering draw_header sink r claims action id x s = (Err resp, s') /\ refusal resp /\ fr_svc s' = fr_svc s) \/
  (exists b, x = Ok b /\ answering draw_header sink r claims action id x s = (Ok b, s)).
Proof.
  destruct x as [b|e]; [right; by exists b|]. left.
  destruct (quiet_cases (fail (B := B) draw_header sink r claims action id e) (fun _ => False) s) as [Hr|(b & s' & _ & [] & _)]; [|exact Hr].
  intros w. apply safe_exec_fail, refusal_refused.
Qed.

Lemma success_cases r claims action target ws detail (resp : Response executionResponse) (s : Front (Runtime X)) :
  let '(resp', s') := respond (recordSuccess draw_header sink execution_surface r claims action target ws detail ;;! act_ret resp) s in
  fr_svc s' = fr_svc s /\
  (refusal resp' \/ resp' = resp /\ exists rec l, fr_audit s' = rec :: l /\ records execution_surface claims action target ws detail rec).
Proof.
  unfold respond, recordSuccess, appendAudit, act_bind, sink_append. destruct sink as [f|]; [|split; [done|by left]].
  destruct (f _) as [e|]; [split; [done|by left]|]. split; [done|]. right. split; [done|]. eexists _, _. by split.
Qed.

Lemma Execute_cases r body s :
  let '(resp, s') := respond (Execute task_env org_env draw_header sink r body) s in
  (rt_execs (fr_svc s') = rt_execs (fr_svc s) /\ is_success (status resp) = false) \/ admitted r body s s' resp.
Proof.
  pose proof (refusal_refused (A := executionResponse)) as Hr. unfold respond, Execute, act_bind at 1.
  destruct (quiet_cases (A := executionResponse) (scope draw_header sink execution_surface r true "execute-task") (fun cw => caller r = Some cw) s)
    as [(resp & s1 & -> & Hf & E1)|([claims ws] & s1 & -> & Hc & E1)]; [by intros w; apply safe_scope|left; by rewrite E1|].
  unfold act_bind at 1.
  destruct (quiet_cases (A := executionResponse) (taskIDFromPath r) (fun id => uuid_Parse (rq_PathValue r "id") = Some id) s1)
    as [(resp & s2 & -> & Hf & E2)|(taskID & s2 & -> & Hid & E2)].
  { intros w. unfold taskIDFromPath, idFromPath. destruct (uuid_Parse _); [by apply safe_ret|by safe_step]. }
  { left. by rewrite E2, E1. }
  unfold act_bind at 1.
  destruct (quiet_cases (A := executionResponse) (decoded body act_fail) (fun req => bd_first body = Some req) s2)
    as [(resp & s3 & -> & Hf & E3)|(req & s3 & -> & Hreq & E3)].
  { intros w. unfold decoded, decodeJSON. destruct (bd_first body); [destruct (bd_more body)|]; [by safe_step|by apply safe_ret|by safe_step]. }
  { left. by rewrite E3, E2, E1. }
  unfold act_bind at 1.
  destruct (quiet_cases (A := executionResponse) (employee_of req) (fun id => uuid_Parse (TrimSpace (xr_AIEmployeeID req)) = Some id) s3)
    as [(resp & s4 & -> & Hf & E4)|(employeeID & s4 & -> & Hemp & E4)]; [by intros w; apply safe_employee_of|left; by rewrite E4, E3, E2, E1|].
  assert (fr_svc s4 = fr_svc s) as E by (by rewrite E4, E3, E2, E1). clear E1 E2 E3 E4.
  unfold act_bind at 1, on_tasks. rewrite E. destruct (Tasks.Get task_env ws taskID (rt_tasks (fr_svc s))) as [xt wt] eqn:Ht.
  cbv beta iota. unfold act_bind at 1. match goal with |- context [answering _ _ _ _ _ _ ?x ?s0] =>
    destruct (answering_cases r claims "execute-task" taskID x s0) as [(resp & s5 & -> & Hf & E5)|(t & Hx & ->)] end; [left; by rewrite E5|].
  destruct xt as [t'|]; [|done]. injection Hx as ->.
  unfold act_bind at 1, on_employees. cbn [fr_svc rt_employees rt_tasks rt_execs fr_audit fr_at].
  destruct (GetEmployee org_env ws employeeID (rt_employees (fr_svc s))) as [xe we] eqn:He.
  cbv beta iota. unfold act_bind at 1. match goal with |- context [answering _ _ _ _ _ _ ?x ?s0] =>
    destruct (answering_cases r claims "execute-task" taskID x s0) as [(resp & s5 & -> & Hf & E5)|(emp & Hx & ->)] end; [left; by rewrite E5|].
  destruct xe as [emp'|]; [|done]. injection Hx as ->.
  unfold act_bind at 1, on_execs. cbn [fr_svc rt_employees rt_tasks rt_execs fr_audit fr_at].
  destruct (Admit (admission ws employeeID taskID req t emp) (rt_execs (fr_svc s))) as [xa wa] eqn:Ha.
  cbv beta iota. unfold act_bind at 1. match goal with |- context [answering _ _ _ _ _ _ ?x ?s0] =>
    destruct (answering_cases r claims "execute-task" taskID x s0) as [(resp & s5 & -> & Hf & E5)|(a & Hx & ->)] end.
  all: assert (k_WorkspaceID t = ws /\ m_WorkspaceID emp = ws) as [Hws Hwe]
    by (split; [by eapply TaskHttpProps.Get_ours|by eapply OrgHttpProps.GetEmployee_ours]).
  - right. exists claims, ws, taskID, employeeID, req, t, emp. rewrite Ht, He, Ha. split_and!; try done; [by rewrite E5|].
    unfold refusal in Hf. by rewrite Hf.
  - match goal with |- context [act_bind ?m ?f ?s0] =>
      pose proof (success_cases r claims "execute-task" (x_ID (ar_Execution a)) ws ""
        (Answered (if ar_Completed a then 200 else 202)%Z (toExecutionResponse (ar_Execution a) (ar_Created a))) s0) as Hs end.
    unfold respond in Hs. revert Hs. destruct (act_bind _ _ _) as [[resp|resp] s6]; intros [E6 Hs]; right.
    all: exists claims, ws, taskID, employeeID, req, t, emp; rewrite Ht, He, Ha; destruct xa as [a'|]; [|done]; injection Hx as ->;
      split_and!; try done; [by rewrite E6|].
    all: intros Hok; destruct Hs as [Hf|[-> Hrec]]; [unfold refusal in Hf; congruence|by exists a].
Qed.

(** C16. Execute admits what it read.  A request to execute a task either leaves the
    executions alone and is refused, or asks the runtime to admit exactly this:
    the task the path names and the employee the body names, both read inside
    the workspace of the claims, with the title, description, name, role and
    capabilities that were read; and it is answered as a success only with the
    execution the runtime gave, 200 when that is completed and 202 otherwise,
    recorded by the caller on the audit chain. *)
Theorem execute_admits_what_it_read r body s :
  let '(resp, s') := respond (Execute task_env org_env draw_header sink r body) s in
  (rt_execs (fr_svc s') = rt_execs (fr_svc s) /\ is_success (status resp) = false) \/ admitted r body s s' resp.
Proof. apply Execute_cases. Qed.

(** ** Reading and cancelling *)

(** The answer to an error of the execution service. *)
Definition execution_answer (e : Execution.err) : Response executionResponse :=
  match e with
  | Execution.ErrNotFound => Refused 404 "not found"
  | ErrCapacityExceeded => Refused 429 "ai employee concurrency capacity exceeded"
  | ErrIdempotencyKey => Refused 409 "idempotency key conflict"
  | Execution.ErrWorkspaceMismatch => forbidden
  | Execution.ErrInvalidInput => Refused 400 "execution: invalid input"
  | Execution.ErrStatus => Refused 400 "execution: invalid status"
  | _ => internal_error
  end.

Lemma answering_execution {B} r claims action id (x : res Execution.err B) (s : Front (Runtime X)) :
  exists s', fr_svc s' = fr_svc s /\
    answering draw_header sink r claims action id (match x with Ok b => Ok b | Err e => Err (OfExecution e) end) s =
    (match x with Ok b => Ok b | Err e => Err (execution_answer e) end, match x with Ok _ => s | Err _ => s' end).
Proof.
  destruct x as [b|e]; [by exists s|]. unfold answering, fail, failing, record, appendAudit, act_bind.
  destruct e; cbn [execution_answer]; try (exists s; by split); unfold sink_append; destruct sink as [f|]; try destruct (f _);
    cbn; by eexists (mkFront _ _ _).
Qed.

(** The executions moved on, the rest of the runtime as it was. *)
Definition with_execs (x : X) (w : Runtime X) : Runtime X := mkRuntime (rt_tasks w) (rt_employees w) x.

(** A read of one execution of a workspace, answered with what was read. *)
Definition read_exactly (ws id : uuid) (s s' : Front (Runtime X)) (resp : Response executionResponse) : Prop :=
  let '(res, x) := Service_Get ws id (rt_execs (fr_svc s)) in
  fr_svc s' = with_execs x (fr_svc s) /\
  match res with Ok e => resp = Answered 200 (toExecutionResponse e false) | Err e => resp = execution_answer e end.

(** A cancellation in a workspace and, if it went through, a read of what it left;
    a success only with both, recorded by the caller. *)
Definition cancel_exactly (r : Http.Request) (claims : Claims) (ws id : uuid) (s s' : Front (Runtime X)) (resp : Response executionResponse) : Prop :=
  let '(res, x) := Service_Cancel ws id (rt_execs (fr_svc s)) in
  match res with
  | Err e => fr_svc s' = with_execs x (fr_svc s) /\ resp = execution_answer e
  | Ok _ =>
      let '(res, x) := Service_Get ws id x in
      fr_svc s' = with_execs x (fr_svc s) /\
      match res with
      | Err e => resp = execution_answer e
      | Ok e => refusal resp \/
          resp = Answered 202 (toExecutionResponse e false) /\
          exists rec l, fr_audit s' = rec :: l /\ records execution_surface claims "cancel-execution" id ws "" rec
      end
  end.

(** A call of the execution service and the answer to its error. *)
Lemma on_execs_answering {B C} (m : act X Execution.err B) r claims action id (k : B -> act (Front (Runtime X)) (Response executionResponse) C) s :
  let '(res, x) := m (rt_execs (fr_svc s)) in
  exists s', fr_svc s' = with_execs x (fr_svc s) /\
    act_bind (on_execs m) (fun res => act_bind (answering draw_header sink r claims action id res) k) s =
    match res with Ok b => k b s' | Err e => (Err (execution_answer e), s') end.
Proof.
  unfold act_bind, on_execs. destruct (m _) as [res x]. cbv beta iota.
  set (s1 := mkFront (mkRuntime (rt_tasks (fr_svc s)) (rt_employees (fr_svc s)) x) (fr_audit s) (fr_at s)).
  destruct (answering_execution r claims action id res s1) as (s2 & E & ->).
  destruct res as [b|e]; [by exists s1|]. by exists s2.
Qed.

(** The start both routes share. *)
Lemma scoped_id {B} r action (f : Claims -> uuid -> uuid -> act (Front (Runtime X)) (Response executionResponse) B) s :
  let m := act_bind (scope draw_header sink execution_surface r true action)
             (fun cw => let '(claims, ws) := cw in act_bind (executionIDFromPath r) (f claims ws)) in
  match caller r, uuid_Parse (rq_PathValue r "id") with
  | Some (claims, ws), Some id => m s = f claims ws id s
  | _, _ => exists resp s', m s = (Err resp, s') /\ refusal resp /\ fr_svc s' = fr_svc s
  end.
Proof.
  cbv zeta. unfold act_bind. destruct (caller r) as [[claims ws]|] eqn:Hc.
  - unfold scope. unfold caller in Hc. destruct (FromRequest r) as [cl|]; [|done]. destruct (WorkspaceFromClaims cl) as [b|]; [|done].
    destruct (uuid_Parse b) as [w|]; [|done]. injection Hc as -> ->. cbn [act_ret]. unfold executionIDFromPath, idFromPath.
    destruct (uuid_Parse (rq_PathValue r "id")) as [id|]; [done|]. eexists _, _. split; [done|]. split; [by apply refusal_refused|done].
  - destruct (quiet_cases (A := executionResponse) (scope draw_header sink execution_surface r true action) (fun cw => caller r = Some cw) s)
      as [(resp & s1 & -> & Hf & E1)|([claims ws] & s1 & _ & Hc' & _)]; [intros w; apply safe_scope, refusal_refused|by exists resp, s1|congruence].
Qed.

(** A refusal that leaves the services alone. *)
Definition turned_away (s s' : Front (Runtime X)) (resp : Response executionResponse) : Prop :=
  fr_svc s' = fr_svc s /\ is_success (status resp) = false.

Lemma Get_cases r s :
  let '(resp, s') := respond (Get draw_header sink r) s in
  match caller r, uuid_Parse (rq_PathValue r "id") with
  | Some (_, ws), Some id => read_exactly ws id s s' resp
  | _, _ => turned_away s s' resp
  end.
Proof.
  unfold respond, Get. match goal with |- context [act_bind (scope _ _ _ _ _ _) (fun cw => let '(claims, ws) := cw in act_bind _ (@?f claims ws))] =>
    pose proof (scoped_id r "get-execution" f s) as Hs end.
  cbv zeta in Hs. destruct (caller r) as [[claims ws]|]; [destruct (uuid_Parse _) as [id|]|].
  2,3: destruct Hs as (resp & s' & -> & Hr & E); by split.
  rewrite Hs. cbv beta. clear Hs. unfold read_exactly.
  match goal with |- context [act_bind (on_execs ?m) (fun res => act_bind (_ res) ?k) s] =>
    pose proof (on_execs_answering m r claims "get-execution" id k s) as Hg end.
  destruct (Service_Get _ _ _) as [[e|e] x]; destruct Hg as (s' & E & ->); by split.
Qed.

Lemma Cancel_cases r s :
  let '(resp, s') := respond (Cancel draw_header sink r) s in
  match caller r, uuid_Parse (rq_PathValue r "id") with
  | Some (claims, ws), Some id => cancel_exactly r claims ws id s s' resp
  | _, _ => turned_away s s' resp
  end.
Proof.
  unfold respond, Cancel. match goal with |- context [act_bind (scope _ _ _ _ _ _) (fun cw => let '(claims, ws) := cw in act_bind _ (@?f claims ws))] =>
    pose proof (scoped_id r "cancel-execution" f s) as Hs end.
  cbv zeta in Hs. destruct (caller r) as [[claims ws]|]; [destruct (uuid_Parse _) as [id|]|].
  2,3: destruct Hs as (resp & s' & -> & Hr & E); by split.
  rewrite Hs. cbv beta. clear Hs. unfold cancel_exactly.
  match goal with |- context [act_bind (on_execs ?m) (fun res => act_bind (_ res) ?k) s] =>
    pose proof (on_execs_answering m r claims "cancel-execution" id k s) as Hc end.
  destruct (Service_Cancel _ _ _) as [[[]|e] x]; destruct Hc as (s' & E & ->); [|by split].
  match goal with |- context [act_bind (on_execs ?m) (fun res => act_bind (_ res) ?k) s'] =>
    pose proof (on_execs_answering m r claims "cancel-execution" id k s') as Hg end.
  rewrite E in Hg. cbn [with_execs rt_execs rt_tasks rt_employees] in Hg.
  destruct (Service_Get _ _ _) as [[e|e] x2]; destruct Hg as (s2 & E2 & ->); [|by split].
  pose proof (success_cases r claims "cancel-execution" id ws "" (Answered 202 (toExecutionResponse e false)) s2) as Hs.
  unfold respond in Hs. destruct (act_bind _ _ s2) as [[resp|resp] s3]; (destruct Hs as [E3 Hs]; split; [by rewrite E3|exact Hs]).
Qed.

(** C17. Reading and cancelling are the service's.  Over any store, a read of an
    execution by a caller bound to a workspace, with an identifier in the path,
    is exactly the service's read of that identifier in that workspace, and is
    answered with the row it gave or the answer to its error; a cancellation is
    exactly the service's cancellation in that workspace followed, if it went
    through, by the read, and it is answered as a success only when both went
    through, with the row read and recorded by the caller on the audit chain.
    Anyone else, or another path, is refused and the services are as they were. *)
Theorem exec_routes_refine r s :
  let '(got, s1) := respond (Get draw_header sink r) s in
  let '(cancelled, s2) := respond (Cancel draw_header sink r) s in
  match caller r, uuid_Parse (rq_PathValue r "id") with
  | Some (claims, ws), Some id => read_exactly ws id s s1 got /\ cancel_exactly r claims ws id s s2 cancelled
  | _, _ => turned_away s s1 got /\ turned_away s s2 cancelled
  end.
Proof.
  pose proof (Get_cases r s) as Hg. pose proof (Cancel_cases r s) as Hc.
  destruct (respond (Get _ _ _) s) as [got s1], (respond (Cancel _ _ _) s) as [cancelled s2].
  destruct (caller r) as [[claims ws]|]; [destruct (uuid_Parse _) as [id|]|]; by split.
Qed.

(** ** The board *)

Section board.
Context `{Board X, Materializer X, Publisher X, Clock X, !BoardStore X}.

Section moving.
Variable from : X.
Definition moved (w : Runtime X) : Prop := moves from (rt_execs w).
Abbreviation goes m := (safe moved (fun _ : Response executionResponse => True) m (fun _ => True)).

Lemma goes_tasks {B} (m : act Tasks.World Tasks.err B) : goes (on_tasks m).
Proof. intros s Hs. unfold on_tasks. by destruct (m _). Qed.
Lemma goes_employees {B} (m : act Org.World Org.err B) : goes (on_employees m).
Proof. intros s Hs. unfold on_employees. by destruct (m _). Qed.
Lemma goes_execs {B} (m : act X Execution.err B) : triple (fun _ => True) m (fun _ _ => True) -> goes (on_execs m).
Proof.
  intros Hm s Hs. destruct (Hm (rt_execs (fr_svc s)) I) as [Hmv _]. unfold on_execs. destruct (m _) as [x w]. simpl in *. split; [done|].
  unfold moved in *. simpl. by etrans.
Qed.
Lemma goes_answering {B} r claims action id (x : res fault B) : goes (answering draw_header sink r claims action id x).
Proof. by apply safe_answering. Qed.

Lemma goes_employee_of body : goes (employee_of (X := X) body).
Proof. eapply safe_weaken; [by apply safe_employee_of|done]. Qed.

Lemma admit_triple req : triple (fun _ => True) (Admit (S := X) req) (fun _ _ => True).
Proof.
  unfold Admit. do 2 (apply triple_if; [|apply triple_fail]). cbv zeta.
  eapply (triple_bind _ (fun _ => True)); [by apply true_stable|done|apply bs_admit; apply normalized_fields|].
  intros a. apply triple_if; [apply triple_fail|]. eapply triple_weaken; [| |apply (triple_done a (fun _ => True))]; done.
Qed.

Ltac goes_step :=
  first [ apply goes_tasks | apply goes_employees | apply goes_employee_of | apply goes_answering
        | apply goes_execs; first [apply admit_triple|apply bs_get|apply bs_cancel] | safe_step ].

Lemma exec_route_goes q : goes (exec_route q).
Proof.
  assert (forall code msg, (400 <= code)%Z -> (fun _ : Response executionResponse => True) (Refused code msg)) as Hr by done.
  destruct q as [r body|r|r]; cbn [exec_route].
  - unfold Execute, taskIDFromPath. repeat goes_step.
  - unfold Get, executionIDFromPath, Service_Get. repeat goes_step.
  - unfold Cancel, executionIDFromPath, Service_Get, Service_Cancel. repeat goes_step.
Qed.
End moving.

(** Execution routes keep to the board.  Against any store that keeps the
    contract of the dispatcher and the workers, whatever an execution request
    does amounts to committed transitions of the board: the invariants of its
    reachable states hold on, and no message is sent without a lease. *)
Lemma exec_routes_on_board q s : moves (rt_execs (fr_svc s)) (rt_execs (fr_svc (respond (exec_route q) s).2)).
Proof.
  apply (respond_safe (moved (rt_execs (fr_svc s))) (fun _ => True)); [apply exec_route_goes|]. unfold moved. reflexivity.
Qed.
End board.
End routes.

(** ** Over PostgreSQL *)

(** An admission with a snapshot does not insert: the row of the snapshot has
    no workspace, which the table demands. *)
Lemma admission_inserts_nothing req h now db a db' :
  is_Some (a_Context req) -> AdmissionAdmit req h now db = Ok (a, db') -> db' = db /\ ar_Created a = false.
Proof.
  intros [m Hm]. unfold AdmissionAdmit. rewrite Hm.
  destruct (if String.eqb _ _ then _ else _) as [e|]; [by intros [= <- <-]|].
  destruct (find_capacity _ _ _); [|done]. destruct (negb _); [|done]. destruct (insert_exec _ _) as [db1|x]; [|by destruct (isUniqueViolation x)].
  simpl. by destruct (insert_retry _ _).
Qed.

Section pg.
Context `{UuidText, UuidParse, StoredTime, MapOrder}.
Variable env : nat -> PgStore.Tick.
#[local] Hint Extern 0 (ExecutionStore PgStore.World) => exact (PgStore.pg_store env) : typeclass_instances.

Lemma Admit_inserts_nothing req (w : PgStore.World) :
  is_Some (a_Context req) ->
  let '(res, w') := Admit req w in
  (w' = w \/ PgStore.w_sys w' = PgStore.tk_others (env (PgStore.w_at w)) (PgStore.w_sys w)) /\
  forall a, res = Ok a -> ar_Created a = false.
Proof.
  intros Hc. unfold Admit. destruct (negb _); [|by split; [left|]]. destruct (negb _); [|by split; [left|]]. cbv zeta.
  assert (is_Some (a_Context (normalized req))) as Hn by (unfold normalized; by destruct (_ <=? _)%Z).
  unfold act_bind, st_AdmissionAdmit, PgStore.pg_store, PgStore.tx.
  destruct (PgStore.tk_others _ _) as [db T] eqn:Es. cbn [s_db s_tokens].
  destruct (AdmissionAdmit _ _ _ db) as [[a db']|e] eqn:Ha.
  - apply admission_inserts_nothing in Ha as [-> Hf]; [|done].
    destruct (PgStore.tk_fault _) as [|m|[] m]; cbn [act_fail PgStore.w_sys app]; try (split; [by right|done]).
    destruct (_ && _); (split; [by right|]); [done|]. by intros a' [= <-].
  - destruct (PgStore.tk_fault _) as [|m|ap m]; (split; [by right|done]).
Qed.

(** No execution is ever created.  Over the PostgreSQL store a request to
    execute a task never inserts an execution: it leaves the rows as it found
    them, and what it answers as a success is an execution admitted before
    under its key. *)
Theorem execute_creates_nothing (task_env : nat -> TxTick TaskDB) (org_env : nat -> TxTick OrgDB) draw_header sink r body
    (s : Front (Runtime PgStore.World)) :
  let '(resp, s') := respond (Execute task_env org_env draw_header sink r body) s in
  let w := rt_execs (fr_svc s) in let w' := rt_execs (fr_svc s') in
  (w' = w \/ PgStore.w_sys w' = PgStore.tk_others (env (PgStore.w_at w)) (PgStore.w_sys w)) /\
  (is_success (status resp) = true -> exists code e, resp = Answered code e /\ xs_Created e = false).
Proof.
  pose proof (Execute_cases task_env org_env draw_header sink r body s) as He.
  destruct (respond _ _) as [resp s']. destruct He as [[-> Hr]|(claims & ws & tid & emp & req & t & m & _ & _ & _ & _ & _ & _ & _ & _ & Ha)].
  { split; [by left|]. by rewrite Hr. }
  pose proof (Admit_inserts_nothing (admission ws emp tid req t m) (rt_execs (fr_svc s)) ltac:(by eexists)) as Hi.
  destruct (Admit _ _) as [res x]. destruct Hi as [Hw Hf], Ha as [-> Ha]. split; [done|].
  intros Hok. destruct (Ha Hok) as (a & -> & -> & _). eexists _, _. split; [done|]. by apply Hf.
Qed.
End pg.

(** ** Concrete runs *)

#[local] Hint Extern 0 UuidText => exact unary_uuid : typeclass_instances.
#[local] Hint Extern 0 UuidParse => exact unary_parse : typeclass_instances.
#[local] Hint Extern 0 StoredTime => exact microseconds : typeclass_instances.
#[local] Hint Extern 0 MapOrder => exact in_order : typeclass_instances.

Definition board_env : nat -> PgStore.Tick := Recovery.calm 250.
Lemma board_fair : PgStore.fair board_env.
Proof. apply Recovery.quiet_fair, Recovery.calm_quiet. Defined.
#[local] Hint Extern 0 (Board PgStore.World) => exact PgStore.World_board : typeclass_instances.
#[local] Hint Extern 0 (ExecutionStore PgStore.World) => exact (PgStore.pg_store board_env) : typeclass_instances.
#[local] Hint Extern 0 (Materializer PgStore.World) => exact (PgStore.pg_materializer board_env) : typeclass_instances.
#[local] Hint Extern 0 (Clock PgStore.World) => exact (PgStore.env_clock board_env) : typeclass_instances.
#[local] Hint Extern 0 (Publisher PgStore.World) => exact (PgStore.env_publisher board_env) : typeclass_instances.
#[local] Hint Extern 0 (BoardStore PgStore.World) => exact (PgStore.pg_board_store board_env board_fair) : typeclass_instances.

(** Workspace 7 has two tasks and the employee 5, who runs task 1 under the key
    [k1]; that execution was admitted without a snapshot. *)
Definition staff : OrgDB :=
  mkOrgDB {[11 := mkDeptRow 7 "Research" 0]}%N {[12 := mkTeamRow 11 "Drafts" 0]}%N {[5 := OrgProps.demo_emp 12 "Ada" 1000]}%N {[7]}%N ∅.
Definition exec_board : PgStore.World :=
  (Admit (mkAdmit 7 5 (Some 1%N) 0 "k1" None) (PgStore.mkWorld (initial ExecProps.demo_emps {[1 := 7; 2 := 7]}%N) 0 [])).2.
Definition exec_front : Front (Runtime PgStore.World) :=
  mkFront (mkRuntime (Tasks.mkWorld (TasksProps.demo_table 2) 0 [] []) (Org.mkWorld staff 0) exec_board) [] 0.

Abbreviation asking sink q := (respond (exec_route TasksProps.alone_env OrgProps.still no_header sink q)).
Definition execute (task : uuid) (key : string) : ExecRequest :=
  HExecute (ask task (Some member)) (mkBody (Some (mkExecuteTask (uuid_String 5) 0 key)) false).
Definition answered (resp : Response executionResponse) : Z * option (string * bool) :=
  (status resp, match resp with Answered _ e => Some (xs_Status e, xs_Created e) | _ => None end).

(** A member cancels the execution: the request is the service's cancellation in
    the member's workspace. *)
Example member_cancels :
  let '(resp, s') := asking open_sink (HCancel (ask 1 (Some member))) exec_front in
  answered resp = (202%Z, Some ("cancelled"%string, false)) /\
  cancel_exactly (ask 1 (Some member)) member 7 1 exec_front s' resp /\ moves exec_board (rt_execs (fr_svc s')).
Proof.
  pose proof (exec_routes_on_board TasksProps.alone_env OrgProps.still no_header open_sink (HCancel (ask 1 (Some member))) exec_front) as Hp.
  pose proof (Cancel_cases no_header open_sink (ask 1 (Some member)) exec_front) as Hc.
  match goal with |- let '(_, _) := ?a in _ =>
    assert (answered a.1 = (202%Z, Some ("cancelled"%string, false))) as Hs by (vm_compute; reflexivity) end.
  cbn [exec_route] in *. destruct (respond _ _) as [resp s']. split; [exact Hs|]. split; [exact Hc|exact Hp].
Qed.

(** ** What is not as it is said to be *)

Definition requests (qs : list ExecRequest) : list (Z * option (string * bool)) * Front (Runtime PgStore.World) :=
  foldl (fun p q => let '(resp, s) := asking open_sink q p.2 in (p.1 ++ [answered resp], s)) ([], exec_front) qs.

(** A fresh admission is a server error, and is not recorded; a replay, a read
    and a cancellation of what was admitted without a snapshot go through. *)
Example fresh_admission_is_a_server_error :
  (requests [execute 1 "k2"]).1 = [(500%Z, None)] /\ fr_audit (requests [execute 1 "k2"]).2 = [] /\
  (requests [execute 1 " k1 "; execute 2 "k1"; HGet (ask 1 (Some member)); HCancel (ask 1 (Some member)); HCancel (ask 1 (Some member))]).1 =
    [(202%Z, Some ("pending"%string, false)); (409%Z, None); (200%Z, Some ("pending"%string, false));
     (202%Z, Some ("cancelled"%string, false)); (202%Z, Some ("cancelled"%string, false))].
Proof. by vm_compute. Qed.

(** The conflict is recorded as an execution whose identifier is the task's. *)
Example task_recorded_as_execution :
  map (fun a => (i_TargetType (aa_Record a), i_TargetID (aa_Record a), aa_Detail a)) (fr_audit (requests [execute 2 "k1"]).2) =
    [("execution"%string, 2%N, "idempotency_key_conflict"%string)].
Proof. by vm_compute. Qed.
