(* ===== verification/Gateway.v ===== *)
(** * internal/ai: the gateway, its usage guard and its providers

    gateway.go, types.go, stub.go, openai_compatible.go, provider_factory.go, and
    the reviewer of internal/composition/reviewer.go that goes through it. *)

From S2P Require Import Prelude GoLib GoText Config Pipeline.

(** ** types.go *)

Record Scope : Type := mkScope { sc_WorkspaceID : string; sc_TraceID : uuid; sc_SpanID : uuid }.
Record CompletionRequest : Type := mkCompletion { cq_Scope : Scope; cq_Instruction : string }.
Record EmbedRequest : Type := mkEmbed { eq_Scope : Scope; eq_Content : string; eq_Dimensions : Z }.
Record ClassificationRequest : Type := mkClassification { kq_Scope : Scope; kq_Categories : list string; kq_Input : string }.
Record EmbeddingResult (F : Type) : Type := mkEmbedding { er_Values : list F; er_Dimensions : Z }.
Arguments mkEmbedding {F}.
Arguments er_Values {F}.
Arguments er_Dimensions {F}.

(** The sentinels with what they are wrapped with, and the errors of a guard and
    of a provider. *)
Inductive ai_err : Type :=
| ErrWorkspaceRequired | ErrInvalidInput (what : string) | ErrUsageLimitExceeded
| ErrProviderConfig (what : string) | ErrGuard (msg : string) | ErrProvider (msg : string).

(** float32, as far as the stub computes with it. *)
Class Float32 : Type := { float32 : Type; f_of_Z : Z -> float32; f_add : float32 -> float32 -> float32 }.

Class Provider (S : Type) `{Float32} : Type := {
  prov_Complete : CompletionRequest -> act S ai_err string;
  prov_Embed : EmbedRequest -> act S ai_err (EmbeddingResult float32);
  prov_Classify : ClassificationRequest -> act S ai_err string
}.

Class UsageGuard (G : Type) : Type := guard_Allow : string -> Z -> act G ai_err bool.

Record DecisionRecord : Type := mkDecision {
  dc_EventType : string; dc_Principle : string; dc_Outcome : string; dc_WorkspaceID : string; dc_TraceID : uuid; dc_SpanID : uuid
}.

Definition validateScope (s : Scope) : option ai_err := if blank (sc_WorkspaceID s) then Some ErrWorkspaceRequired else None.

(** *** The guards *)

#[export] Instance NoopGuard : UsageGuard unit := fun _ _ => act_ret true.

(** [used], uint64 counters. *)
Definition wrap_u64 (z : Z) : Z := z mod 2 ^ 64.
Abbreviation Usage := (gmap string Z).
Definition Used (workspaceID : string) (g : Usage) : Z := default 0%Z (g !! workspaceID).

(** [ConfigurableUsageGuard.Allow] *)
Definition ConfigurableUsageGuard (MaxPerWorkspace : Z) : UsageGuard Usage := fun workspaceID unit_ g =>
  if String.eqb workspaceID "" then (Ok false, g)
  else
    let next := wrap_u64 (Used workspaceID g + unit_) in
    if (0 <? MaxPerWorkspace)%Z && (MaxPerWorkspace <? next)%Z then (Ok false, g) else (Ok true, <[workspaceID := next]> g).

(** ** gateway.go *)

(** The provider's state, the guard's, and the decisions the sink was given,
    latest first. *)
Record Gateway (S G : Type) : Type := mkGateway { gw_provider : S; gw_guard : G; gw_decisions : list DecisionRecord }.
Arguments mkGateway {S G}.
Arguments gw_provider {S G}.
Arguments gw_guard {S G}.
Arguments gw_decisions {S G}.

Section gateway.
Context {S G : Type} `{Provider S, UsageGuard G}.
(** Whether a sink was injected; [NullSink] forgets. *)
Variable sink : bool.

Definition outcomeOf {A} (r : res ai_err A) : string := if is_ok r then "success" else "failed".

Definition emit (scope : Scope) (eventType outcome principle : string) : act (Gateway S G) ai_err unit :=
  act_mod (fun g => if sink then mkGateway (gw_provider g) (gw_guard g)
    (mkDecision eventType principle outcome (sc_WorkspaceID scope) (sc_TraceID scope) (sc_SpanID scope) :: gw_decisions g) else g).

Definition guarding {A} (m : act G ai_err A) : act (Gateway S G) ai_err A := fun g =>
  let '(r, u) := m (gw_guard g) in (r, mkGateway (gw_provider g) u (gw_decisions g)).
Definition delegating {A} (m : act S ai_err A) : act (Gateway S G) ai_err (res ai_err A) := fun g =>
  let '(r, s) := m (gw_provider g) in (Ok r, mkGateway s (gw_guard g) (gw_decisions g)).

(** What the three operations share. *)
Definition governed {A} (scope : Scope) (event principle : string) (call : act S ai_err A) : act (Gateway S G) ai_err A :=
  match validateScope scope with
  | Some e => act_fail e
  | None =>
      ok <~ guarding (guard_Allow (sc_WorkspaceID scope) 1) ;;
      require! ok else ErrUsageLimitExceeded ;;
      r <~ delegating call ;;
      emit scope event (outcomeOf r) principle ;;!
      act_lift r
  end.

Definition Gateway_Complete (req : CompletionRequest) : act (Gateway S G) ai_err string :=
  governed (cq_Scope req) "ai.complete" "Replaceability" (prov_Complete req).
Definition Gateway_Embed (req : EmbedRequest) : act (Gateway S G) ai_err (EmbeddingResult float32) :=
  governed (eq_Scope req) "ai.embed" "AI Independence" (prov_Embed req).
Definition Gateway_Classify (req : ClassificationRequest) : act (Gateway S G) ai_err string :=
  governed (kq_Scope req) "ai.classify" "Human Oversight" (prov_Classify req).
End gateway.

(** ** stub.go *)

Definition text_runes (s : string) : list Z := runes (length (bytes s)) (bytes s).
Definition rune_sum (s : string) : Z := foldr Z.add 0%Z (text_runes s).

Section stub.
Context `{Float32}.

Definition scoped {S A} (s : Scope) (m : act S ai_err A) : act S ai_err A :=
  match validateScope s with Some e => act_fail e | None => m end.

#[export] Instance StubProvider : Provider unit := {|
  prov_Complete req :=
    scoped (cq_Scope req)
      (require! negb (blank (cq_Instruction req)) else ErrInvalidInput "instruction is empty" ;;
       act_ret ("stub-completion[" +:+ strconv_Itoa (Z.of_nat (rune_count (cq_Instruction req))) +:+ "]"));
  prov_Embed req :=
    scoped (eq_Scope req)
      (require! negb (blank (eq_Content req)) else ErrInvalidInput "content is empty" ;;
       require! (0 <? eq_Dimensions req)%Z else ErrInvalidInput "dimensions must be positive" ;;
       let zeros := replicate (Z.to_nat (eq_Dimensions req)) (f_of_Z 0) in
       act_ret (mkEmbedding (<[0%nat := f_add (f_of_Z (rune_sum (eq_Content req))) (f_of_Z 1)]> zeros) (eq_Dimensions req)));
  prov_Classify req :=
    scoped (kq_Scope req)
      (require! negb (bool_decide (kq_Categories req = [])) else ErrInvalidInput "categories is empty" ;;
       require! negb (blank (kq_Input req)) else ErrInvalidInput "input is empty" ;;
       act_ret (nth (Z.to_nat (rune_sum (kq_Input req) mod Z.of_nat (length (kq_Categories req)))) (kq_Categories req) ""))
|}.
End stub.

(** ** openai_compatible.go *)

Record OpenAI : Type := mkOpenAI { oa_baseURL : string; oa_model : string; oa_apiKey : string }.

Record HttpRequest : Type := mkHttp { hq_URL : string; hq_Authorization : option string; hq_Body : string }.
(** What a request comes back with: no response, a body that cannot be read, or
    a status and a body. *)
Inductive HttpReply : Type := NoReply (msg : string) | Unreadable (msg : string) | Received (status : Z) (body : string).

(** encoding/json on the response: the contents of the choices; the vectors of
    the data. *)
Class AiJson `{Float32} : Type := {
  json_choices : string -> option (list string);
  json_data : string -> option (list (list float32))
}.

Definition maxResponseBytes : Z := 64 * 2 ^ 20.

(** The requests sent so far, latest first. *)
Definition Wire : Type := list HttpRequest.

(** strings.TrimRight(s, slash) *)
Fixpoint drop_slashes (l : list Z) : list Z := match l with 47%Z :: l' => drop_slashes l' | _ => l end.
Definition TrimRightSlash (s : string) : string := of_bytes (rev (drop_slashes (rev (bytes s)))).

Definition json_field (k v : string) : string := json_key k +:+ v.
Definition chat_payload (model content : string) : string :=
  "{" +:+ json_field "messages" ("[{" +:+ json_field "content" (json_string content) +:+ "," +:+ json_field "role" (json_string "user") +:+ "}]")
  +:+ "," +:+ json_field "model" (json_string model) +:+ "}".
Definition embed_payload (model content : string) : string :=
  "{" +:+ json_field "input" (json_string content) +:+ "," +:+ json_field "model" (json_string model) +:+ "}".

Definition newline : string := of_bytes [10%Z].
Definition classify_instruction (categories : list string) (input : string) : string :=
  "Classify the input into exactly one of these categories and reply with only the category label: " +:+ join ", " categories
  +:+ newline +:+ newline +:+ "Input:" +:+ newline +:+ input.

Section openai.
Context `{Float32, !AiJson, RuneFold, GoURL}.
(** The server, asked for the [n]-th time. *)
Variable exchange : nat -> HttpRequest -> HttpReply.
Variable p : OpenAI.

Definition http_do (req : HttpRequest) : act Wire ai_err HttpReply := fun sent => (Ok (exchange (length sent) req), req :: sent).

(** [post], [decode] being [json.Unmarshal] into the result. *)
Definition post {A} (path body : string) (decode : string -> option A) : act Wire ai_err A :=
  let target := oa_baseURL p +:+ path in
  require! bool_decide (is_Some (url_Parse target)) else ErrProvider "ai: build request" ;;
  reply <~ http_do (mkHttp target (if String.eqb (oa_apiKey p) "" then None else Some ("Bearer " +:+ oa_apiKey p)) body) ;;
  match reply with
  | NoReply msg => act_fail (ErrProvider ("ai: provider request failed: " +:+ msg))
  | Unreadable msg => act_fail (ErrProvider ("ai: read provider response: " +:+ msg))
  | Received status raw =>
      require! negb (maxResponseBytes <? Z.of_nat (String.length raw))%Z else ErrProvider "ai: provider response too large" ;;
      require! (status =? 200)%Z else ErrProvider ("ai: provider returned status " +:+ strconv_Itoa status) ;;
      match decode raw with
      | None => act_fail (ErrProvider "ai: decode provider response")
      | Some out => act_ret out
      end
  end.

(** The category an answer names, the first one when it names none. *)
Definition named_category (label : string) (categories : list string) : string :=
  match find (fun c => EqualFold label c) categories with Some c => c | None => nth 0 categories "" end.

#[export] Instance OpenAICompatibleProvider : Provider Wire := {|
  prov_Complete req :=
    scoped (cq_Scope req)
      (out <~ post "/chat/completions" (chat_payload (oa_model p) (cq_Instruction req)) json_choices ;;
       match out with
       | c :: _ => require! negb (blank c) else ErrProvider "ai: provider returned no completion" ;; act_ret c
       | [] => act_fail (ErrProvider "ai: provider returned no completion")
       end);
  prov_Embed req :=
    scoped (eq_Scope req)
      (require! negb (blank (eq_Content req)) else ErrInvalidInput "content is empty" ;;
       require! (0 <? eq_Dimensions req)%Z else ErrInvalidInput "dimensions must be positive" ;;
       out <~ post "/embeddings" (embed_payload (oa_model p) (eq_Content req)) json_data ;;
       match out with
       | (x :: v) :: _ =>
           let n := Z.to_nat (eq_Dimensions req) in
           act_ret (mkEmbedding (take n (x :: v) ++ replicate (n - length (x :: v)) (f_of_Z 0)) (eq_Dimensions req))
       | _ => act_fail (ErrProvider "ai: provider returned no embedding")
       end);
  prov_Classify req :=
    scoped (kq_Scope req)
      (require! negb (bool_decide (kq_Categories req = [])) else ErrInvalidInput "categories is empty" ;;
       require! negb (blank (kq_Input req)) else ErrInvalidInput "input is empty" ;;
       out <~ post "/chat/completions" (chat_payload (oa_model p) (classify_instruction (kq_Categories req) (kq_Input req))) json_choices ;;
       match out with
       | [] => act_fail (ErrProvider "ai: provider returned no classification")
       | c :: _ => act_ret (named_category (TrimSpace c) (kq_Categories req))
       end)
|}.
End openai.

(** ** provider_factory.go *)

Record ProviderConfig : Type := mkProviderConfig { pc_Backend : string; pc_Model : string; pc_BaseURL : string; pc_APIKey : string }.
(** The provider selected. *)
Inductive Selected : Type := SelectedStub | SelectedHTTP (p : OpenAI).

Definition buildHTTPProvider (cfg : ProviderConfig) : Selected :=
  SelectedHTTP (mkOpenAI (TrimRightSlash (pc_BaseURL cfg)) (pc_Model cfg) (pc_APIKey cfg)).

Definition NewLocalProvider (cfg : ProviderConfig) : res ai_err Selected :=
  guard! negb (blank (pc_Model cfg)) else ErrProviderConfig "model is required" in
  guard! negb (blank (pc_BaseURL cfg)) else ErrProviderConfig "base url is required" in
  Ok (buildHTTPProvider cfg).

Definition NewOpenAICompatibleProvider (cfg : ProviderConfig) : res ai_err Selected :=
  guard! negb (blank (pc_Model cfg)) else ErrProviderConfig "model is required" in
  guard! negb (blank (pc_BaseURL cfg)) else ErrProviderConfig "base url is required" in
  guard! negb (blank (pc_APIKey cfg)) else ErrProviderConfig "api key is required" in
  Ok (buildHTTPProvider cfg).

Definition NewProvider `{GoQuote} (cfg : ProviderConfig) : res ai_err Selected :=
  if String.eqb (pc_Backend cfg) "" || String.eqb (pc_Backend cfg) "stub" then Ok SelectedStub
  else if String.eqb (pc_Backend cfg) "local" then NewLocalProvider cfg
  else if String.eqb (pc_Backend cfg) "openai-compatible" then NewOpenAICompatibleProvider cfg
  else Err (ErrProviderConfig ("unknown backend " +:+ fmt_q (pc_Backend cfg))).

(** ** internal/composition/reviewer.go *)

Section reviewer.
Context {S G : Type} `{UuidText} `{Provider S, UsageGuard G}.
Variable sink : bool.

(** [aiReviewer.Review] *)
Definition aiReviewer_Review (workspaceID : uuid) (p : Pipeline) : act (Gateway S G) ai_err bool :=
  category <~ Gateway_Classify sink (mkClassification (mkScope (uuid_String workspaceID) uuid_Nil uuid_Nil)
    ["compliant"; "needs_review"]%string (stage_text (pl_Stage p) +:+ ":" +:+ uuid_String (pl_ID p))) ;;
  act_ret (String.eqb category "compliant").

(** [reviewerFor]: the reviewer of a backend. *)
Definition reviewerFor (aiBackend : string) (workspaceID : uuid) (p : Pipeline) : act (Gateway S G) ai_err bool :=
  if String.eqb aiBackend "" || String.eqb aiBackend "stub" then act_ret true else aiReviewer_Review workspaceID p.
End reviewer.
