(* ===== verification/GatewayProps.v ===== *)
(** * What the AI gateway guarantees

    A workspace never gets more calls than its budget, and each is a decision of
    the sink; answers are well formed whatever the model says; the API key
    stays in its header. *)

From S2P Require Import Prelude GoLib GoText Config Pipeline Gateway.

Inductive AIRequest : Type :=
| AComplete (r : CompletionRequest)
| AEmbed (r : EmbedRequest)
| AClassify (r : ClassificationRequest).

Definition ai_scope (q : AIRequest) : Scope :=
  match q with AComplete r => cq_Scope r | AEmbed r => eq_Scope r | AClassify r => kq_Scope r end.
Definition ai_workspace (q : AIRequest) : string := sc_WorkspaceID (ai_scope q).

(** ** The budget *)

Definition decided (ws : string) (l : list DecisionRecord) : nat := length (filter (fun d => dc_WorkspaceID d = ws) l).

Lemma Used_insert_eq k v (u : Usage) : Used k (<[k := v]> u) = v.
Proof. unfold Used. by rewrite lookup_insert_eq. Qed.
Lemma Used_insert_ne k k' v (u : Usage) : k' <> k -> Used k (<[k' := v]> u) = Used k u.
Proof. intros Hne. unfold Used. by rewrite lookup_insert_ne. Qed.

Section budget.
Context {S : Type} `{Provider S}.
Variable budget : Z.
#[local] Hint Extern 0 (UsageGuard Usage) => exact (ConfigurableUsageGuard budget) : typeclass_instances.

(** The provider's part of a request, its result left aside. *)
Definition provided (q : AIRequest) (s : S) : S :=
  match q with
  | AComplete r => (prov_Complete r s).2
  | AEmbed r => (prov_Embed r s).2
  | AClassify r => (prov_Classify r s).2
  end.
Definition ask (q : AIRequest) (g : Gateway S Usage) : Gateway S Usage :=
  match q with
  | AComplete r => (Gateway_Complete true r g).2
  | AEmbed r => (Gateway_Embed true r g).2
  | AClassify r => (Gateway_Classify true r g).2
  end.
Definition ask_all (qs : list AIRequest) (g : Gateway S Usage) : Gateway S Usage := foldl (fun g q => ask q g) g qs.

(** A governed call either stops before the provider, or counts one unit, calls
    it once and leaves one decision. *)
Definition counted (ws : string) (g g' : Gateway S Usage) : Prop :=
  (exists d, gw_decisions g' = d :: gw_decisions g /\ dc_WorkspaceID d = ws) /\
  let next := wrap_u64 (Used ws (gw_guard g) + 1) in
  gw_guard g' = <[ws := next]> (gw_guard g) /\ (0 < budget -> next <= budget)%Z.

Lemma governed_cases {A} scope event principle (call : act S ai_err A) (g : Gateway S Usage) :
  let '(r, g') := governed true scope event principle call g in
  g' = g \/ gw_provider g' = (call (gw_provider g)).2 /\ r = (call (gw_provider g)).1 /\ counted (sc_WorkspaceID scope) g g'.
Proof.
  unfold governed. destruct (validateScope scope) as [e|]; [by left|].
  destruct g as [s u l]. unfold act_bind at 1, guarding, guard_Allow, ConfigurableUsageGuard. cbn [gw_guard gw_provider gw_decisions].
  destruct (String.eqb_spec (sc_WorkspaceID scope) "") as [|Hne]; [by left|].
  destruct ((0 <? budget)%Z && (budget <? wrap_u64 (Used (sc_WorkspaceID scope) u + 1))%Z) eqn:Hb; [by left|].
  unfold act_bind, delegating. cbn [gw_provider gw_guard gw_decisions]. destruct (call s) as [x s'] eqn:Hc.
  assert (counted (sc_WorkspaceID scope) (mkGateway s u l)
    (mkGateway s' (<[sc_WorkspaceID scope := wrap_u64 (Used (sc_WorkspaceID scope) u + 1)]> u)
       (mkDecision event principle (outcomeOf x) (sc_WorkspaceID scope) (sc_TraceID scope) (sc_SpanID scope) :: l))) as Hcount.
  { split; [by eexists|]. split; [done|]. intros Hpos. apply andb_false_iff in Hb. cbn [gw_guard]. lia. }
  destruct x; right; (split; [done|]); (split; [done|exact Hcount]).
Qed.

Lemma ask_cases q g : ask q g = g \/ gw_provider (ask q g) = provided q (gw_provider g) /\ counted (ai_workspace q) g (ask q g).
Proof.
  destruct q as [r|r|r]; cbn [ask provided]; unfold Gateway_Complete, Gateway_Embed, Gateway_Classify, ai_workspace; cbn [ai_scope].
  - pose proof (governed_cases (cq_Scope r) "ai.complete" "Replaceability" (prov_Complete r) g) as Hg. destruct (governed _ _ _ _ _ _).
    destruct Hg as [->|(? & _ & ?)]; [by left|by right].
  - pose proof (governed_cases (eq_Scope r) "ai.embed" "AI Independence" (prov_Embed r) g) as Hg. destruct (governed _ _ _ _ _ _).
    destruct Hg as [->|(? & _ & ?)]; [by left|by right].
  - pose proof (governed_cases (kq_Scope r) "ai.classify" "Human Oversight" (prov_Classify r) g) as Hg. destruct (governed _ _ _ _ _ _).
    destruct Hg as [->|(? & _ & ?)]; [by left|by right].
Qed.
(** [calls] counts what a provider does for a workspace: a request adds at most
    one to the count of its own. *)
Definition counts (calls : string -> S -> nat) : Prop := forall q s ws,
  calls ws (provided q s) <= calls ws s + (if decide (ai_workspace q = ws) then 1 else 0).

Definition within_budget (calls : string -> S -> nat) (c0 : nat) (ws : string) (g : Gateway S Usage) : Prop :=
  Used ws (gw_guard g) = Z.of_nat (decided ws (gw_decisions g)) /\ (Used ws (gw_guard g) <= budget)%Z /\
  calls ws (gw_provider g) <= c0 + decided ws (gw_decisions g).

Lemma ask_within calls c0 ws q g :
  (0 < budget < 2 ^ 64 - 1)%Z -> counts calls -> within_budget calls c0 ws g -> within_budget calls c0 ws (ask q g).
Proof.
  intros Hb Hc (Hu & Hle & Hk). destruct (ask_cases q g) as [->|(Hp & [d [Hd Hw]] & Hg & Hn)]; [done|].
  unfold within_budget, decided. rewrite Hp, Hd, Hg, filter_cons. specialize (Hc q (gw_provider g) ws). unfold decided in Hu, Hk.
  destruct (decide (ai_workspace q = ws)) as [He|He].
  - rewrite decide_True by congruence. subst ws. rewrite Used_insert_eq. simpl length.
    assert (wrap_u64 (Used (ai_workspace q) (gw_guard g) + 1) = Used (ai_workspace q) (gw_guard g) + 1)%Z as E.
    { unfold wrap_u64. apply Z.mod_small. lia. }
    rewrite E in *. split_and!; [lia|by apply Hn; lia|lia].
  - rewrite decide_False by congruence. rewrite Used_insert_ne by done. split_and!; [done|done|lia].
Qed.

(** C26. The budget of a gateway holds.  Whatever completions, embeddings and
    classifications are asked for through one gateway that starts with an empty
    counter, over any provider, a workspace is served at most as many of them as
    the budget allows, and no more than the sink has decisions for - as long as
    the budget is positive, zero meaning none, and below the greatest number the
    counter holds.  Calls that do not go through a gateway are not counted: the
    execution worker's and those of the knowledge service. *)
Theorem usage_bounded calls qs s ws :
  (0 < budget < 2 ^ 64 - 1)%Z -> counts calls ->
  let g := ask_all qs (mkGateway s ∅ []) in
  calls ws (gw_provider g) <= calls ws s + decided ws (gw_decisions g) /\ (Z.of_nat (decided ws (gw_decisions g)) <= budget)%Z.
Proof.
  intros Hb Hc. assert (forall g, within_budget calls (calls ws s) ws g -> within_budget calls (calls ws s) ws (ask_all qs g)) as Hall.
  { induction qs as [|q qs' IH]; intros g Hg; [done|]. simpl. by apply IH, ask_within. }
  destruct (Hall (mkGateway s ∅ [])) as (Hu & Hle & Hk); [|cbv zeta; split; [done|lia]].
  unfold within_budget, Used, decided. simpl. rewrite lookup_empty. simpl. split_and!; [done|lia|lia].
Qed.
End budget.

(** ** Answers are well formed *)

(** A classification is one of the categories asked about, an embedding has the
    dimensions asked for. *)
Definition category_asked (req : ClassificationRequest) (c : string) : Prop := c ∈ kq_Categories req.
Definition dimensions_asked `{Float32} (req : EmbedRequest) (r : EmbeddingResult float32) : Prop :=
  er_Dimensions r = eq_Dimensions req /\ Z.of_nat (length (er_Values r)) = eq_Dimensions req.

Definition provider_wellformed {S} `{Float32} (P : Provider S) : Prop :=
  (forall req s c s', prov_Classify req s = (Ok c, s') -> category_asked req c) /\
  (forall req s r s', prov_Embed req s = (Ok r, s') -> dimensions_asked req r).
Definition gateway_wellformed {S G} `{Float32} (P : Provider S) (guard : UsageGuard G) (sink : bool) : Prop := forall g : Gateway S G,
  (forall req c g', Gateway_Classify sink req g = (Ok c, g') -> category_asked req c) /\
  (forall req r g', Gateway_Embed sink req g = (Ok r, g') -> dimensions_asked req r).

Lemma stub_wellformed `{Float32} : provider_wellformed StubProvider.
Proof.
  split.
  - intros req s c s'. simpl. unfold scoped. destruct (validateScope _); [done|]. unfold act_bind.
    destruct (bool_decide_reflect (kq_Categories req = [])) as [|Hne]; [done|]. cbn [negb]. destruct (negb _); [|done].
    intros [= <- _]. apply list_elem_of_In, nth_In. destruct (kq_Categories req) as [|c0 l] eqn:E; [done|].
    pose proof (Z.mod_pos_bound (rune_sum (kq_Input req)) (Z.of_nat (length (c0 :: l)))) as Hm. simpl length in *. lia.
  - intros req s r s'. simpl. unfold scoped. destruct (validateScope _); [done|]. destruct (negb _); [|done].
    destruct (Z.ltb_spec 0 (eq_Dimensions req)) as [Hd|]; [|done]. intros [= <- _]. unfold dimensions_asked. simpl. split; [done|].
    rewrite length_insert, length_replicate. lia.
Qed.

Lemma named_category_in `{RuneFold} label l : l <> [] -> named_category label l ∈ l.
Proof.
  intros Hne. unfold named_category. destruct (find _ l) as [c|] eqn:Hf.
  - apply find_some in Hf as [Hin _]. by apply list_elem_of_In.
  - destruct l; [done|]. left.
Qed.

Lemma openai_wellformed `{Float32, !AiJson, RuneFold, GoURL} exchange p : provider_wellformed (OpenAICompatibleProvider exchange p).
Proof.
  split.
  - intros req s c s'. simpl. unfold scoped. destruct (validateScope _); [done|].
    destruct (bool_decide_reflect (kq_Categories req = [])) as [|Hne]; [done|]. cbn [negb]. destruct (negb _); [|done].
    unfold act_bind at 1. destruct (post _ _ _ _ _ s) as [[[|x l]|e] s1]; [done| |done]. intros [= <- _]. by apply named_category_in.
  - intros req s r s'. simpl. unfold scoped. destruct (validateScope _); [done|]. destruct (negb _); [|done].
    destruct (Z.ltb_spec 0 (eq_Dimensions req)) as [Hd|]; [|done].
    unfold act_bind at 1. destruct (post _ _ _ _ _ s) as [[[|[|x v] l]|e] s1]; try done. intros [= <- _]. unfold dimensions_asked. cbn [er_Values er_Dimensions]. split; [done|].
    rewrite length_app, length_take, length_replicate. simpl length. lia.
Qed.

Lemma governed_Ok {S G A} `{Provider S, UsageGuard G} sink scope event principle (call : act S ai_err A) (g : Gateway S G) a g' :
  governed sink scope event principle call g = (Ok a, g') -> exists s s', call s = (Ok a, s').
Proof.
  unfold governed. destruct (validateScope scope); [done|]. unfold act_bind at 1. destruct (guarding _ g) as [[ok|e] g1]; [|done].
  destruct ok; [|done]. unfold act_bind, delegating. destruct (call (gw_provider g1)) as [[b|e] s'] eqn:Hc; [|done].
  intros [= <- _]. by eexists _, _.
Qed.

Lemma governed_wellformed {S G} `{Float32} (P : Provider S) (guard : UsageGuard G) sink :
  provider_wellformed P -> gateway_wellformed P guard sink.
Proof.
  intros [Hc He] g. split; intros req x g' (s & s' & Hx)%governed_Ok; [by eapply Hc|by eapply He].
Qed.

(** C27. Answers are well formed.  Through the gateway, with any guard and with or
    without a sink, over the stub, and over the HTTP provider whatever its
    endpoint, model and key are and whatever the server answers, a
    classification is one of the categories asked about and an embedding has
    exactly the dimensions asked for. *)
Theorem answers_wellformed `{Float32, !AiJson, RuneFold, GoURL} {G} (guard : UsageGuard G) sink :
  gateway_wellformed StubProvider guard sink /\
  forall exchange p, gateway_wellformed (OpenAICompatibleProvider exchange p) guard sink.
Proof.
  split; [apply governed_wellformed, stub_wellformed|]. intros exchange p. apply governed_wellformed, openai_wellformed.
Qed.

(** ** The key *)

(** What a provider answers to a request. *)
Inductive AIAnswer `{Float32} : Type := ACompletion (text : string) | AEmbedding (v : EmbeddingResult float32) | ACategory (c : string).
Definition provider_run `{Float32} {S} (P : Provider S) (q : AIRequest) : act S ai_err AIAnswer :=
  match q with
  | AComplete r => x <~ prov_Complete r ;; act_ret (ACompletion x)
  | AEmbed r => x <~ prov_Embed r ;; act_ret (AEmbedding x)
  | AClassify r => x <~ prov_Classify r ;; act_ret (ACategory x)
  end.

(** What a request shows besides its credential. *)
Definition body_of (r : HttpRequest) : string * string := (hq_URL r, hq_Body r).

Section key.
Context `{Float32, !AiJson, RuneFold, GoURL}.
Variables (exchange exchange' : nat -> HttpRequest -> HttpReply) (p p' : OpenAI).
(** Two providers that differ in their key, and servers that do not answer by it. *)
Hypothesis same_url : oa_baseURL p = oa_baseURL p'.
Hypothesis same_model : oa_model p = oa_model p'.
Hypothesis same_answers : forall n r r', body_of r = body_of r' -> exchange n r = exchange' n r'.

(** Runs alike, up to the credential of the requests. *)
Definition alike {A} (m m' : act Wire ai_err A) : Prop := forall s s', map body_of s = map body_of s' ->
  (m s).1 = (m' s').1 /\ map body_of (m s).2 = map body_of (m' s').2.

Lemma alike_ret {A} (x : A) : alike (act_ret x) (act_ret x).
Proof. by intros s s' Hs. Qed.
Lemma alike_fail {A} e : alike (A := A) (act_fail e) (act_fail e).
Proof. by intros s s' Hs. Qed.
Lemma alike_bind {A B} (m m' : act Wire ai_err A) (f f' : A -> act Wire ai_err B) :
  alike m m' -> (forall a, alike (f a) (f' a)) -> alike (act_bind m f) (act_bind m' f').
Proof.
  intros Hm Hf s s' Hs. specialize (Hm s s' Hs). unfold act_bind. destruct (m s) as [r w], (m' s') as [r' w']. simpl in Hm. destruct Hm as [<- Hw].
  destruct r as [a|e]; [by apply Hf|done].
Qed.
Lemma alike_post {A} path body (decode : string -> option A) : alike (post exchange p path body decode) (post exchange' p' path body decode).
Proof.
  unfold post. cbv zeta. rewrite same_url. destruct (bool_decide _); [|apply alike_fail]. apply alike_bind.
  - intros s s' Hs. unfold http_do. simpl. split; [|by rewrite Hs]. f_equal.
    apply (f_equal length) in Hs. rewrite !length_map in Hs. rewrite Hs. by apply same_answers.
  - intros [msg|msg|status raw]; try apply alike_fail. destruct (negb _); [|apply alike_fail]. destruct (_ =? _)%Z; [|apply alike_fail].
    destruct (decode raw); [apply alike_ret|apply alike_fail].
Qed.

Abbreviation openai exchange p := (OpenAICompatibleProvider exchange p).

Lemma alike_scoped {A} s (m m' : act Wire ai_err A) : alike m m' -> alike (scoped s m) (scoped s m').
Proof. intros Hm. unfold scoped. destruct (validateScope s); [apply alike_fail|done]. Qed.
Lemma alike_if {A} (b : bool) (m m' f f' : act Wire ai_err A) : alike m m' -> alike f f' -> alike (if b then m else f) (if b then m' else f').
Proof. by destruct b. Qed.

#[local] Hint Resolve alike_ret alike_fail alike_post alike_scoped alike_if alike_bind : alike.

Lemma provider_alike q : alike (provider_run (openai exchange p) q) (provider_run (openai exchange' p') q).
Proof.
  destruct q as [r|r|r]; cbn [provider_run]; (apply alike_bind; [|intros x; apply alike_ret]); simpl; rewrite ?same_model; apply alike_scoped.
  - apply alike_bind; [apply alike_post|]. intros [|c l]; auto with alike.
  - do 2 (apply alike_if; [|apply alike_fail]). apply alike_bind; [apply alike_post|]. intros [|[|x v] l]; auto with alike.
  - do 2 (apply alike_if; [|apply alike_fail]). apply alike_bind; [apply alike_post|]. intros [|c l]; auto with alike.
Qed.

(** The key stays in its header.  Two providers of one endpoint and model that
    differ in their keys, with servers that do not look at the credential, give
    the same results and the same errors to every request, and send the same
    requests but for the Authorization header: the key is in no result, error,
    address or body. *)
Theorem key_confined q s : let '(x, w) := provider_run (openai exchange p) q s in let '(x', w') := provider_run (openai exchange' p') q s in
  x = x' /\ map body_of w = map body_of w'.
Proof. pose proof (provider_alike q s s eq_refl) as Ha. by destruct (provider_run (openai exchange p) q s) as [x w], (provider_run (openai exchange' p') q s) as [x' w']. Qed.
End key.

(** ** Concrete runs *)

#[local] Instance whole_floats : Float32 := {| float32 := Z; f_of_Z z := z; f_add := Z.add |}.
#[local] Instance plain_fold : RuneFold := fun r => if ((65 <=? r) && (r <=? 90))%Z then (r + 32)%Z else r.
#[local] Instance any_url : GoURL := {| url := string; url_Parse := Some; url_User _ := None; with_User _ u := u; url_Hostname u := u; url_String u := u |}.
(** A body is the one choice, or the text of one vector of its length. *)
#[local] Instance bare_json : AiJson := {| json_choices s := Some [s]; json_data s := Some [[Z.of_nat (String.length s)]] |}.
#[local] Hint Extern 0 UuidText => exact unary_uuid : typeclass_instances.

(** A provider that notes whom it serves. *)
#[local] Instance tally : Provider (list string) := {|
  prov_Complete r := act_mod (cons (sc_WorkspaceID (cq_Scope r))) ;;! act_ret "ok"%string;
  prov_Embed r := act_mod (cons (sc_WorkspaceID (eq_Scope r))) ;;! act_ret (mkEmbedding [] 0);
  prov_Classify r := act_mod (cons (sc_WorkspaceID (kq_Scope r))) ;;! act_ret ""%string
|}.
Definition tallied (ws : string) (l : list string) : nat := length (filter (eq ws) l).

Definition complete_for (ws : string) : AIRequest := AComplete (mkCompletion (mkScope ws 0 0) "write").
Definition demo_asks : list AIRequest := map complete_for ["a"; "a"; "b"; "a"; " "; "a"]%string.

Lemma usage_bounded_witness :
  let g := ask_all 2 demo_asks (mkGateway ([] : list string) ∅ []) in
  gw_provider g = ["b"; "a"; "a"]%string /\ tallied "a" (gw_provider g) <= 0 + decided "a" (gw_decisions g) /\
  (Z.of_nat (decided "a" (gw_decisions g)) <= 2)%Z.
Proof.
  split; [vm_compute; reflexivity|]. apply (usage_bounded 2 tallied demo_asks [] "a"); [lia|].
  intros [r|r|r] s ws; cbv [provided prov_Complete prov_Embed prov_Classify tally act_bind act_mod act_ret snd ai_workspace ai_scope tallied];
    rewrite filter_cons; repeat case_decide; simpl; try congruence; lia.
Defined.

Definition echo (text : string) : nat -> HttpRequest -> HttpReply := fun _ _ => Received 200 text.
Definition model_server (key : string) : OpenAI := mkOpenAI "http://model:8000" "small" key.
Definition verdict_request : ClassificationRequest := mkClassification (mkScope "a" 0 0) ["compliant"; "needs_review"]%string "review:1".

Lemma answers_wellformed_witness :
  exists g', Gateway_Classify (H0 := OpenAICompatibleProvider (echo "Needs_Review ") (model_server "k")) (H1 := NoopGuard) true
    verdict_request (mkGateway [] tt []) = (Ok "needs_review"%string, g') /\ "needs_review"%string ∈ kq_Categories verdict_request.
Proof.
  eexists. split; [vm_compute; reflexivity|].
  destruct (answers_wellformed NoopGuard true) as [_ Hhttp].
  destruct (Hhttp (echo "Needs_Review ") (model_server "k") (mkGateway [] tt [])) as [Hc _]. eapply Hc. vm_compute. reflexivity.
Defined.

Lemma key_confined_witness :
  let '(x, w) := provider_run (OpenAICompatibleProvider (echo "done") (model_server "s3cret")) (complete_for "a") [] in
  let '(x', w') := provider_run (OpenAICompatibleProvider (echo "done") (model_server "other")) (complete_for "a") [] in
  x = x' /\ map body_of w = map body_of w' /\ map hq_Authorization w = [Some "Bearer s3cret"%string].
Proof.
  pose proof (key_confined (echo "done") (echo "done") (model_server "s3cret") (model_server "other") eq_refl eq_refl (fun _ _ _ _ => eq_refl)
    (complete_for "a") []) as Hp.
  assert (map hq_Authorization (provider_run (OpenAICompatibleProvider (echo "done") (model_server "s3cret")) (complete_for "a") []).2 =
    [Some "Bearer s3cret"%string]) as Ha by (vm_compute; reflexivity).
  destruct (provider_run (OpenAICompatibleProvider _ (model_server "s3cret")) _ _) as [x w].
  destruct (provider_run _ _ _) as [x' w']. destruct Hp as [E Ew]. split; [exact E|]. split; [exact Ew|exact Ha].
Defined.

(** ** What is not as it is said to be *)

Definition in_review : Pipeline := mkPipeline 1 7 None StageReview StatusActive None None "r" "s" "" "" "" 0 "" "" None "" 0 0 1.
(** The verdict of the AI-backed reviewer when the model says [reply]. *)
Definition verdict (reply : string) : res ai_err bool :=
  (aiReviewer_Review (H1 := OpenAICompatibleProvider (echo reply) (model_server "k")) (H2 := NoopGuard) true 7 in_review (mkGateway [] tt [])).1.

(** An answer that names no category passes the review, and so does an empty
    one: the first category is the one that passes. *)
Example unrecognised_verdict_passes :
  verdict "I cannot assess this." = Ok true /\ verdict "" = Ok true /\ verdict "needs_review." = Ok true /\ verdict "needs_review" = Ok false.
Proof. by vm_compute. Qed.

(** A breach of the limit is no error of the guard. *)
Example limit_breach_is_no_error : ConfigurableUsageGuard 1%Z "a" 1%Z {["a"%string := 1%Z]} = (Ok false, {["a"%string := 1%Z]}).
Proof. by vm_compute. Qed.

(** At the greatest budget the counter wraps round and starts again. *)
Example greatest_budget_wraps :
  (ConfigurableUsageGuard (2 ^ 64 - 1)%Z "a" 1%Z {["a"%string := (2 ^ 64 - 1)%Z]}).1 = Ok true /\
  Used "a" (ConfigurableUsageGuard (2 ^ 64 - 1)%Z "a" 1%Z {["a"%string := (2 ^ 64 - 1)%Z]}).2 = 0%Z.
Proof. by vm_compute. Qed.

(** A backend of another name is no HTTP backend. *)
Example unknown_backend_refused (q : GoQuote) :
  NewProvider (mkProviderConfig "anthropic" "m" "https://api" "k") = Err (ErrProviderConfig ("unknown backend " +:+ fmt_q "anthropic")).
Proof. reflexivity. Qed.

(** A call refused for its budget is no decision. *)
Example refusal_is_no_decision :
  let g := ask_all 1 [complete_for "a"; complete_for "a"] (mkGateway ([] : list string) ∅ []) in
  gw_provider g = ["a"]%string /\ map dc_Outcome (gw_decisions g) = ["success"]%string.
Proof. vm_compute. by split. Qed.
