(* ===== verification/Compose.v ===== *)
(** * Putting a process together (internal/composition/composition.go, main.go,
      cmd/worker/main.go)

    What Compose builds from a configuration, the part each binary plays for
    each role - what it listens on, sweeps, publishes to, consumes and reports -,
    and the registration of the routes.  What a process opens outside itself (the
    database, Redis, the broker, the audit chain) is the parameter [up]; when one
    of them fails the process ends. *)

From S2P Require Import Prelude GoLib GoText Execution Config ConfigProps Rbac Authz Worker Gateway Delivery.

(** ** composition.go *)

Record Runtime : Type := mkRuntime {
  rt_AIProvider : Selected;
  rt_AIBackend : string;
  rt_UsageLimit : Z;                    (** of the gateway's guard, by workspace *)
  rt_Reviewed : bool;                   (** whether the review step asks the gateway *)
  rt_Publisher : Publisher;
  rt_PublishBackend : string;
  rt_ExecutionWorker : option Worker;
  rt_TransportBackend : string
}.

Inductive start_err : Type :=
| AIProvider (e : ai_err) | PublisherError (e : string) | NoMaterializer
| InvalidRole (role : string) | Unreachable (what : string) | UnknownTransport (backend : string)
| NoExecutionWorker | NoHandler (route : string * string) | NoRoute (route : string * string) | NoAsset (path : string).

Section compose.
Context `{RuneLower, GoQuote}.

Definition or_stub (backend : string) : string := if empty backend then "stub" else backend.

Definition provider_config (cfg : Config) : ProviderConfig :=
  mkProviderConfig (c_AIBackend cfg) (c_AIModel cfg) (c_AIBaseURL cfg) (c_AIAPIKey cfg).
Definition publisher_config (cfg : Config) : PublisherConfig :=
  Delivery.mkConfig (c_PublishBackend cfg) (c_PublishWebhookURL cfg) (c_PublishToken cfg) (c_PublishIdempotencyField cfg)
    (c_PublishMaxAttempts cfg) (c_PublishBackoffBase cfg) (c_PublishBackoffMax cfg).

(** [executions]: no execution store, or one that does or does not materialise;
    [id] is [NewWorkerID]. *)
Definition Compose (cfg : Config) (executions : option bool) (id : string) : res start_err Runtime :=
  try! provider := (match NewProvider (provider_config cfg) with Ok p => Ok p | Err e => Err (AIProvider e) end) in
  try! publisher := (match NewPublisher (publisher_config cfg) with Ok p => Ok p | Err e => Err (PublisherError e) end) in
  try! worker := (match executions with
                  | None => Ok None
                  | Some false => Err NoMaterializer
                  | Some true => Ok (Some (mkWorker id (c_LeaseTTL cfg) (c_HeartbeatInterval cfg) (c_Window cfg) (c_BackoffBase cfg) (c_BackoffMax cfg)))
                  end) in
  Ok (mkRuntime provider (or_stub (c_AIBackend cfg)) (c_AIUsageLimit cfg) (negb (stub_backend (c_AIBackend cfg)))
        publisher (or_stub (c_PublishBackend cfg)) worker (or_stub (c_TransportBackend cfg))).

(** ** The routes of the API (registerRoutes) *)

Definition api_handlers : list ((string * string) * string) :=
  [(("GET", "/health/live"), "live");
   (("GET", "/health/ready"), "readiness");
   (("POST", "/api/auth/bootstrap"), "authHandler.Bootstrap");
   (("POST", "/api/auth/login"), "authHandler.Login");
   (("POST", "/api/auth/refresh"), "authHandler.Refresh");
   (("POST", "/api/auth/logout"), "authHandler.Logout");
   (("GET", "/api/me"), "authHandler.Me");
   (("GET", "/workspaces"), "workspaceHandler.List");
   (("POST", "/workspaces"), "workspaceHandler.Create");
   (("GET", "/workspaces/{id}"), "workspaceHandler.Get");
   (("GET", "/audit/events"), "auditHandler.ListOrg");
   (("GET", "/audit/verification"), "auditHandler.Verification");
   (("GET", "/workspaces/{id}/audit/events"), "auditHandler.ListForWorkspace");
   (("POST", "/tasks"), "taskHandler.Create");
   (("GET", "/tasks"), "taskHandler.List");
   (("GET", "/tasks/{id}"), "taskHandler.Get");
   (("PATCH", "/tasks/{id}"), "taskHandler.Update");
   (("POST", "/tasks/{id}/transition"), "taskHandler.Transition");
   (("POST", "/tasks/{id}/execute"), "executionHandler.Execute");
   (("GET", "/executions/{id}"), "executionHandler.Get");
   (("POST", "/executions/{id}/cancel"), "executionHandler.Cancel");
   (("POST", "/knowledge"), "knowledgeHandler.Create");
   (("GET", "/knowledge"), "knowledgeHandler.List");
   (("GET", "/knowledge/{id}"), "knowledgeHandler.Get");
   (("PATCH", "/knowledge/{id}"), "knowledgeHandler.Update");
   (("DELETE", "/knowledge/{id}"), "knowledgeHandler.Delete");
   (("POST", "/knowledge/search"), "knowledgeHandler.Search");
   (("POST", "/publications"), "publicationHandler.Create");
   (("GET", "/publications"), "publicationHandler.List");
   (("GET", "/publications/{id}"), "publicationHandler.Get");
   (("POST", "/publications/{id}/submit"), "publicationHandler.Submit");
   (("POST", "/publications/{id}/approve"), "publicationHandler.Approve");
   (("POST", "/publications/{id}/reject"), "publicationHandler.Reject");
   (("POST", "/publications/{id}/publish"), "publicationHandler.Publish");
   (("POST", "/publications/{id}/retry"), "publicationHandler.Retry");
   (("POST", "/pipelines"), "pipelineHandler.Create");
   (("GET", "/pipelines"), "pipelineHandler.List");
   (("GET", "/pipelines/{id}"), "pipelineHandler.Get");
   (("POST", "/pipelines/{id}/approve"), "pipelineHandler.Approve");
   (("POST", "/pipelines/{id}/retry"), "pipelineHandler.Retry");
   (("POST", "/departments"), "departmentHandler.Create");
   (("GET", "/departments"), "departmentHandler.List");
   (("GET", "/departments/{id}"), "departmentHandler.Get");
   (("PATCH", "/departments/{id}"), "departmentHandler.Update");
   (("DELETE", "/departments/{id}"), "departmentHandler.Delete");
   (("POST", "/teams"), "teamHandler.Create");
   (("GET", "/teams"), "teamHandler.List");
   (("GET", "/teams/{id}"), "teamHandler.Get");
   (("PATCH", "/teams/{id}"), "teamHandler.Update");
   (("DELETE", "/teams/{id}"), "teamHandler.Delete");
   (("POST", "/ai-employees"), "aiEmployeeHandler.Create");
   (("GET", "/ai-employees"), "aiEmployeeHandler.List");
   (("GET", "/ai-employees/{id}"), "aiEmployeeHandler.Get");
   (("PATCH", "/ai-employees/{id}"), "aiEmployeeHandler.Update");
   (("DELETE", "/ai-employees/{id}"), "aiEmployeeHandler.Delete");
   (("GET", "/memory/{layer}/{key}"), "memoryHandler.Read");
   (("PUT", "/memory/{layer}/{key}"), "memoryHandler.Write")
  ]%string.

(** Every declared route takes its handler out of the table. *)
Fixpoint register (routes : list (string * string)) (handlers : gmap (string * string) string)
    : res start_err (list ((string * string) * string) * gmap (string * string) string) :=
  match routes with
  | [] => Ok ([], handlers)
  | r :: l =>
      match handlers !! r with
      | None => Err (NoHandler r)
      | Some h => try! rest := register l (delete r handlers) in Ok ((r, h) :: rest.1, rest.2)
      end
  end.

(** The range over what is left of a map starts anywhere; its first element is
    reported. *)
Definition registerRoutes (handlers : gmap (string * string) string) (loaded : list string)
    : res start_err (list ((string * string) * string)) :=
  try! done := register Routes handlers in
  match map_to_list done.2 with
  | (r, _) :: _ => Err (NoRoute r)
  | [] =>
      match List.filter (fun a => negb (bool_decide (a ∈ loaded))) Assets with
      | a :: _ => Err (NoAsset a)
      | [] => Ok (done.1 ++ map (fun a => (("GET", a), "asset")%string) Assets)
      end
  end.

(** ** The processes *)

Definition queueFor (cfg : Config) : string := if empty (c_RabbitMQQueue cfg) then "austro.events" else c_RabbitMQQueue cfg.

(** The transport of the dispatches: the stub, or a queue of the broker. *)
Inductive Transport : Type := StubTransport | BrokerQueue (name : string).

Record SweepLoop : Type := mkSweepLoop {
  sw_Workspaces : list uuid; sw_Transport : Transport;
  sw_LeaseTTL : duration; sw_BackoffBase : duration; sw_BackoffMax : duration; sw_Interval : duration
}.

(** What a process does once it runs. *)
Record Running : Type := mkRunning {
  run_Routes : option (list ((string * string) * string));  (** the listener, if there is one *)
  run_Runtime : option Runtime;
  run_Events : option string;      (** the queue its events are sent to *)
  run_Sweep : option SweepLoop;
  run_Consumes : list string;      (** queues *)
  run_Beats : option string        (** the role its heartbeat is for *)
}.

Definition assertServableRole (cfg : Config) : res start_err unit :=
  guard! negb (String.eqb (effectiveProcessRole cfg) ProcessRoleWorker) else InvalidRole ProcessRoleWorker in Ok tt.
Definition assertWorkerRole (cfg : Config) : res start_err unit :=
  guard! String.eqb (effectiveProcessRole cfg) ProcessRoleWorker else InvalidRole (c_ProcessRole cfg) in Ok tt.
Definition isDispatcherRole (cfg : Config) : bool := String.eqb (effectiveProcessRole cfg) ProcessRoleDispatcher.
Definition sweepsHere (cfg : Config) : bool := DispatchesHere cfg.

Section processes.
Variable up : string -> bool.
Variable id : string.
Definition reach (what : string) : res start_err unit := guard! up what else Unreachable what in Ok tt.

Definition newExecutionPublisher (cfg : Config) : res start_err Transport :=
  if stub_backend (c_TransportBackend cfg) then Ok StubTransport
  else if broker_backed cfg then try! _ := reach "execution transport" in Ok (BrokerQueue (c_ExecutionQueue cfg))
  else Err (UnknownTransport (c_TransportBackend cfg)).

Definition startDispatchSweep (cfg : Config) : res start_err SweepLoop :=
  try! pub := newExecutionPublisher cfg in
  Ok (mkSweepLoop (c_WorkspaceIDs cfg) pub (c_LeaseTTL cfg) (c_BackoffBase cfg) (c_BackoffMax cfg) (c_SweepInterval cfg)).

Definition runDispatchService (cfg : Config) : res start_err Running :=
  try! _ := reach "database" in
  let beating := mkRunning None None None in
  if bool_decide (c_WorkspaceIDs cfg = []) then Ok (beating None [] (Some ProcessRoleDispatcher))
  else try! sweep := startDispatchSweep cfg in Ok (beating (Some sweep) [] (Some ProcessRoleDispatcher)).

(** The sweep of an API process: only if it is its own dispatcher, for the
    workspaces it was given. *)
Definition api_sweep (cfg : Config) : res start_err (option SweepLoop) :=
  if isDispatcherRole cfg then Ok None
  else if negb (sweepsHere cfg) then Ok None
  else if bool_decide (c_WorkspaceIDs cfg = []) then Ok None
  else try! sweep := startDispatchSweep cfg in Ok (Some sweep).

(** main.go *)
Definition api_main (cfg : Config) (loaded : list string) : res start_err Running :=
  try! _ := assertServableRole cfg in
  if isDispatcherRole cfg then runDispatchService cfg
  else
    try! _ := reach "database" in
    try! _ := reach "audit" in
    try! _ := reach "redis" in
    try! _ := reach "event sink" in
    try! rt := Compose cfg (Some true) id in
    try! sweep := api_sweep cfg in
    try! _ := (match NewProvider (provider_config cfg) with Ok p => Ok p | Err e => Err (AIProvider e) end) in
    try! routes := registerRoutes (list_to_map api_handlers) loaded in
    Ok (mkRunning (Some routes) (Some rt) (Some (queueFor cfg)) sweep [] None).

(** cmd/worker/main.go *)
Definition worker_main (cfg : Config) : res start_err Running :=
  try! _ := assertWorkerRole cfg in
  try! _ := reach "event sink" in
  try! _ := reach "database" in
  try! _ := reach "audit" in
  try! rt := Compose cfg (Some true) id in
  try! _ := reach "event consumer" in
  match rt_ExecutionWorker rt with
  | None => Err NoExecutionWorker
  | Some _ =>
      try! _ := reach "execution consumer" in
      Ok (mkRunning None (Some rt) (Some (queueFor cfg)) None [queueFor cfg; c_ExecutionQueue cfg] (Some ProcessRoleWorker))
  end.
End processes.
End compose.

(** ** A validated configuration starts *)

Ltac simplify_start := cbn -[registerRoutes Compose NewProvider reach api_sweep queueFor list_to_map].

Section starting.
Context `{RuneLower, RuneFold, UuidParse, GoURL, GoIP, GoDuration, GoQuote, MapOrderLaws}.
Variable Getenv : string -> string.
Variable up : string -> bool.
Variable id : string.
Variable cfg : Config.
Hypothesis reached : forall what, up what = true.

(** A setting of a backend in use holds nothing but white space. *)
Definition blank_setting (c : Config) : bool :=
  (negb (stub_backend (c_AIBackend c)) &&
     (blank (c_AIModel c) || blank (c_AIBaseURL c) || (String.eqb (c_AIBackend c) "openai-compatible" && blank (c_AIAPIKey c)))) ||
  (negb (stub_backend (c_PublishBackend c)) && (blank (c_PublishWebhookURL c) || blank (c_PublishToken c))).

(** The sweep of a configuration, and the routes of the API. *)
Definition sweep_of (c : Config) : option SweepLoop :=
  if bool_decide (c_WorkspaceIDs c = []) then None
  else Some (mkSweepLoop (c_WorkspaceIDs c) (if broker_backed c then BrokerQueue (c_ExecutionQueue c) else StubTransport)
               (c_LeaseTTL c) (c_BackoffBase c) (c_BackoffMax c) (c_SweepInterval c)).
Definition served : list ((string * string) * string) := api_handlers ++ map (fun a => (("GET", a), "asset")%string) Assets.

Lemma reach_up what : reach up what = Ok tt.
Proof. unfold reach. by rewrite reached. Qed.

Lemma stub_backend_or b : stub_backend b = String.eqb b "" || String.eqb b "stub".
Proof. done. Qed.

Lemma NewProvider_of_validated :
  Validate Getenv cfg = None ->
  is_Some (match NewProvider (provider_config cfg) with Ok p => Some p | Err _ => None end) <->
  negb (stub_backend (c_AIBackend cfg)) &&
     (blank (c_AIModel cfg) || blank (c_AIBaseURL cfg) || (String.eqb (c_AIBackend cfg) "openai-compatible" && blank (c_AIAPIKey cfg))) = false.
Proof.
  intros [_ Ha]%validated_ai. unfold NewProvider, provider_config. simpl. rewrite <- stub_backend_or.
  destruct (stub_backend (c_AIBackend cfg)); simpl; [naive_solver|]. destruct (Ha eq_refl) as [[->|[-> _]] _]; simpl;
    unfold NewLocalProvider, NewOpenAICompatibleProvider; simpl;
    repeat (destruct (blank _); simpl); split; by (done || (intros []; done) || eauto).
Qed.

Lemma NewPublisher_of_validated :
  Validate Getenv cfg = None ->
  is_Some (match NewPublisher (publisher_config cfg) with Ok p => Some p | Err _ => None end) <->
  negb (stub_backend (c_PublishBackend cfg)) && (blank (c_PublishWebhookURL cfg) || blank (c_PublishToken cfg)) = false.
Proof.
  intros [_ Hp]%validated_publish. unfold NewPublisher, publisher_config. simpl. change BackendStub with "stub"%string. rewrite <- stub_backend_or.
  destruct (stub_backend (c_PublishBackend cfg)); simpl; [naive_solver|]. destruct (Hp eq_refl) as [-> _]. simpl.
  unfold NewGenericHTTPPublisher; simpl; repeat (destruct (blank _); simpl); split; by (done || (intros []; done) || eauto).
Qed.

Lemma Compose_validated :
  Validate Getenv cfg = None -> (exists rt, Compose cfg (Some true) id = Ok rt) <-> blank_setting cfg = false.
Proof.
  intros Hv. unfold blank_setting. rewrite orb_false_iff, <- NewProvider_of_validated, <- NewPublisher_of_validated by done.
  unfold Compose. destruct (NewProvider _) as [p|e], (NewPublisher _) as [q|e']; cbn [res_bind]; split.
  1: by split; eexists.
  1: by eexists.
  all: try (intros (rt & Hrt); discriminate Hrt). all: intros [[? X1] [? X2]]; discriminate.
Qed.

Lemma Compose_worker rt :
  Compose cfg (Some true) id = Ok rt ->
  rt_ExecutionWorker rt = Some (mkWorker id (c_LeaseTTL cfg) (c_HeartbeatInterval cfg) (c_Window cfg) (c_BackoffBase cfg) (c_BackoffMax cfg)).
Proof. unfold Compose. destruct (NewProvider _), (NewPublisher _); simpl; by intros [= <-]. Qed.

Lemma sweep_validated : Validate Getenv cfg = None -> c_WorkspaceIDs cfg <> [] ->
  exists s, startDispatchSweep up cfg = Ok s /\ sweep_of cfg = Some s.
Proof.
  intros Hb%validated_backends Hw. unfold startDispatchSweep, newExecutionPublisher, sweep_of. rewrite bool_decide_eq_false_2 by done.
  unfold validateBackends, validateAdapters in Hb. unreported. bool_prop.
  match goal with X : (_ || broker_backed cfg) = true |- _ => rename X into Ht end.
  rewrite reach_up. revert Ht. unfold broker_backed, stub_backend, empty.
  destruct (String.eqb_spec (c_TransportBackend cfg) "") as [->|]; [by eexists|].
  destruct (String.eqb_spec (c_TransportBackend cfg) "stub") as [->|]; [by eexists|]. simpl. intros ->. by eexists.
Qed.

Lemma registered loaded : (forall a, a ∈ Assets -> a ∈ loaded) -> registerRoutes (list_to_map api_handlers) loaded = Ok served.
Proof.
  intros Hl. unfold registerRoutes.
  assert (register Routes (list_to_map api_handlers) = Ok (api_handlers, ∅)) as -> by (vm_compute; reflexivity).
  cbn [res_bind snd fst]. rewrite map_to_list_empty.
  replace (List.filter _ Assets) with (@nil string); [done|]. symmetry. simpl.
  rewrite !bool_decide_eq_true_2 by (apply Hl; unfold Assets; set_solver). done.
Qed.

(** What a process is for, by its role. *)
Definition part (c : Config) (rt : Runtime) : Running :=
  if String.eqb (effectiveProcessRole c) ProcessRoleAPI then
    mkRunning (Some served) (Some rt) (Some (queueFor c)) (if DispatchesHere c then sweep_of c else None) [] None
  else if String.eqb (effectiveProcessRole c) ProcessRoleDispatcher then
    mkRunning None None None (sweep_of c) [] (Some ProcessRoleDispatcher)
  else mkRunning None (Some rt) (Some (queueFor c)) None [queueFor c; c_ExecutionQueue c] (Some ProcessRoleWorker).

Lemma api_sweep_validated :
  Validate Getenv cfg = None -> effectiveProcessRole cfg = "api"%string ->
  api_sweep up cfg = Ok (if DispatchesHere cfg then sweep_of cfg else None).
Proof.
  intros Hv Hr. unfold api_sweep, isDispatcherRole, sweepsHere. rewrite Hr. change (_ =? _)%string with false. cbn [negb].
  destruct (DispatchesHere cfg); [|done]. simpl. case_bool_decide as Hw; [unfold sweep_of; by rewrite bool_decide_eq_true_2|].
  by destruct (sweep_validated Hv Hw) as (s & -> & ->).
Qed.

Lemma dispatcher_starts : Validate Getenv cfg = None ->
  runDispatchService up cfg = Ok (mkRunning None None None (sweep_of cfg) [] (Some ProcessRoleDispatcher)).
Proof.
  intros Hv. unfold runDispatchService. rewrite reach_up. cbn [res_bind].
  case_bool_decide as Hw; [unfold sweep_of; by rewrite bool_decide_eq_true_2|]. by destruct (sweep_validated Hv Hw) as (s & -> & ->).
Qed.

Lemma api_starts loaded :
  Validate Getenv cfg = None -> (forall a, a ∈ Assets -> a ∈ loaded) -> effectiveProcessRole cfg = "api"%string ->
  api_main up id cfg loaded = try! rt := Compose cfg (Some true) id in Ok (part cfg rt).
Proof.
  intros Hv Hl Hr. unfold api_main, part, assertServableRole, isDispatcherRole. rewrite Hr. simplify_start. rewrite !reach_up. simplify_start.
  rewrite (api_sweep_validated Hv Hr). destruct (Compose cfg (Some true) id) as [rt|e] eqn:Hc; simplify_start; [|done].
  assert (exists p, NewProvider (provider_config cfg) = Ok p) as [p ->].
  { unfold Compose in Hc. destruct (NewProvider _); [by eexists|done]. }
  by rewrite (registered loaded Hl).
Qed.

Lemma worker_starts :
  Validate Getenv cfg = None -> effectiveProcessRole cfg = "worker"%string ->
  worker_main up id cfg = try! rt := Compose cfg (Some true) id in Ok (part cfg rt).
Proof.
  intros Hv Hr. unfold worker_main, part, assertWorkerRole. rewrite Hr. simplify_start. rewrite !reach_up. simplify_start.
  destruct (Compose cfg (Some true) id) as [rt|e] eqn:Hc; simplify_start; [|done]. by rewrite (Compose_worker rt Hc).
Qed.
End starting.

(** C25. A validated configuration starts as its role and nothing else.  With
    everything it opens reachable, the binary that is not for the role refuses
    it; a dispatcher sweeps its workspaces, and neither listens, consumes nor
    holds a runtime; and an API or a worker becomes exactly what [Compose] gives
    it and its role says - an API serves the declared routes, each by its
    handler, and sweeps only if it is its own dispatcher; a worker consumes the
    two queues and does neither -, which it does unless a setting of a backend in
    use is only white space: that passes the validation and stops the process. *)
Theorem validated_process_starts `{RuneLower, RuneFold, UuidParse, GoURL, GoIP, GoDuration, GoQuote, MapOrderLaws} Getenv up id cfg loaded :
  Validate Getenv cfg = None -> (forall what, up what = true) -> (forall a, a ∈ Assets -> a ∈ loaded) ->
  let role := effectiveProcessRole cfg in
  (role <> "worker" -> worker_main up id cfg = Err (InvalidRole (c_ProcessRole cfg))) /\
  (role = "worker" -> api_main up id cfg loaded = Err (InvalidRole ProcessRoleWorker)) /\
  (role = "dispatcher" -> forall rt, api_main up id cfg loaded = Ok (part cfg rt)) /\
  (role = "api" -> api_main up id cfg loaded = try! rt := Compose cfg (Some true) id in Ok (part cfg rt)) /\
  (role = "worker" -> worker_main up id cfg = try! rt := Compose cfg (Some true) id in Ok (part cfg rt)) /\
  ((exists rt, Compose cfg (Some true) id = Ok rt) <-> blank_setting cfg = false).
Proof.
  intros Hv Hup Hl. cbv zeta. split_and!.
  - intros Hr. unfold worker_main, assertWorkerRole, ProcessRoleWorker. by apply String.eqb_neq in Hr as ->.
  - intros Hr. unfold api_main, assertServableRole. by rewrite Hr.
  - intros Hr rt. unfold api_main, part, assertServableRole, isDispatcherRole. rewrite Hr. simplify_start. by apply (dispatcher_starts Getenv).
  - by apply (api_starts Getenv).
  - by apply (worker_starts Getenv).
  - by apply (Compose_validated Getenv).
Qed.

(** ** The production configuration of the examples *)

#[local] Existing Instances ConfigProps.plain_lower ConfigProps.plain_fold ConfigProps.plain_parse ConfigProps.no_ip
  ConfigProps.plain_quote ConfigProps.seconds ConfigProps.pg_url.
#[local] Hint Extern 0 MapOrder => exact in_order : typeclass_instances.
#[local] Hint Extern 0 (@MapOrderLaws in_order) => exact in_order_laws : typeclass_instances.

Definition everything (what : string) : bool := true.
Definition part_of (c : Config) : res start_err Running := try! rt := Compose c (Some true) "w1" in Ok (part c rt).

Lemma validated_process_starts_witness :
  Validate (demo_env []) demo_config = None /\ api_main everything "w1" demo_config Assets = part_of demo_config /\
  worker_main everything "w1" demo_config = Err (InvalidRole "api") /\
  match part_of demo_config with
  | Ok r => option_map length (run_Routes r) = Some 60 /\
      option_map (fun s => (sw_Workspaces s, sw_Transport s)) (run_Sweep r) = Some ([1; 2]%N, BrokerQueue "austro.executions")
  | Err _ => False
  end.
Proof.
  split; [by vm_compute|].
  destruct (validated_process_starts (demo_env []) everything "w1" demo_config Assets) as (Hw & _ & _ & Ha & _); [by vm_compute|done..|].
  assert (effectiveProcessRole demo_config = "api"%string) as Hr by by vm_compute.
  split; [exact (Ha Hr)|]. split.
  { rewrite Hw by (by rewrite Hr). clear. vm_compute. reflexivity. }
  clear. vm_compute. split; reflexivity.
Defined.

(** A model of one space is neither missing nor insecure, and no provider. *)
Example blank_model_stops :
  let c := defaults (demo_env [("AUSTRO_AI_MODEL", " ")]%string) in
  Validate (demo_env []) c = None /\
  api_main everything "w1" c Assets = Err (AIProvider (ErrProviderConfig "model is required")).
Proof. split; by vm_compute. Qed.

(** Nothing keeps the two queues apart: with the name of the event queue the
    dispatches go where the event consumer, which drops what it does not know,
    takes them too. *)
Example one_queue_for_both :
  let c := defaults (demo_env [("AUSTRO_EXECUTION_QUEUE", "austro.events")]%string) in
  Validate (demo_env []) c = None /\
  match api_main everything "w1" c Assets with
  | Ok r => option_map sw_Transport (run_Sweep r) = Some (BrokerQueue "austro.events") /\ run_Events r = Some "austro.events"%string
  | Err _ => False
  end.
Proof. split; by vm_compute. Qed.
