(* ===== verification/Bus.v ===== *)
(** * infrastructure/rabbitmq, internal/event: what travels on the queues

    The envelope of event.go with its JSON, the sinks of sinks.go and
    executions.go, and how worker.go reads a delivery back for its handler. *)

From stdpp Require Import gmap.
From S2P Require Import Prelude GoLib GoText Json Execution Ports Gateway Consumer.

(** ** internal/event/event.go *)

(** Raw messages are kept as their values; the entries of a map are in the
    order of its keys. *)
Record Envelope : Type := mkEnv {
  ue_EventID : uuid;
  ue_Timestamp : time;
  ue_WorkspaceID : string;
  ue_TraceID : uuid;
  ue_SpanID : uuid;
  ue_ActorType : string;
  ue_ActorID : uuid;
  ue_TargetType : string;
  ue_TargetID : uuid;
  ue_EventType : string;
  ue_Outcome : string;
  ue_OutcomeDetails : option Json;
  ue_PermissionsChecked : list (string * bool);
  ue_ConstitutionalPrinciple : string;
  ue_Details : option Json;
  ue_Genesis : bool
}.

Definition EventTypeCreated : string := "created".

Definition zero_envelope : Envelope :=
  mkEnv uuid_Nil 0 "" uuid_Nil uuid_Nil "" uuid_Nil "" uuid_Nil "" "" None [] "" None false.

(** An instant as time.Time marshals it, in UTC; a year of five digits is an
    error. *)
Class TimeText : Type := { time_text : time -> option string; time_of_text : string -> option time }.
Class TimeTextLaws `{TimeText} : Prop :=
  time_text_read t s : time_text t = Some s -> utf8_ValidString s = true /\ time_of_text s = Some t.

#[local] Open Scope string_scope.
#[local] Open Scope list_scope.

Section json.
Context `{UuidText, UuidParse, TimeText}.

(** A member that [omitempty] leaves out. *)
Definition unless (empty : bool) (p : string * Json) : list (string * Json) := if empty then [] else [p].
Definition raw (k : string) (o : option Json) : list (string * Json) := match o with Some v => [(k, v)] | None => [] end.
Definition uuid_json (u : uuid) : Json := JString (uuid_String u).

Definition envelope_json (e : Envelope) (stamp : string) : Json :=
  JObject (
    [("event_id", uuid_json (ue_EventID e)); ("timestamp", JString stamp)]
    ++ unless (String.eqb (ue_WorkspaceID e) "") ("workspace_id", JString (ue_WorkspaceID e))
    ++ [("trace_id", uuid_json (ue_TraceID e)); ("span_id", uuid_json (ue_SpanID e));
        ("actor_type", JString (ue_ActorType e)); ("actor_id", uuid_json (ue_ActorID e));
        ("target_type", JString (ue_TargetType e)); ("target_id", uuid_json (ue_TargetID e));
        ("event_type", JString (ue_EventType e)); ("outcome", JString (ue_Outcome e))]
    ++ raw "outcome_details" (ue_OutcomeDetails e)
    ++ unless (bool_decide (ue_PermissionsChecked e = []))
         ("permissions_checked", JObject (map (fun p => (p.1, JBool p.2)) (ue_PermissionsChecked e)))
    ++ [("constitutional_principle", JString (ue_ConstitutionalPrinciple e))]
    ++ raw "details" (ue_Details e)
    ++ unless (negb (ue_Genesis e)) ("genesis", JBool true)).

(** [UniversalEnvelope.MarshalJSON] *)
Definition MarshalJSON (e : Envelope) : option string :=
  option_map (fun stamp => json_print (envelope_json e stamp)) (time_text (ue_Timestamp e)).

(** One field replaced. *)
Definition set_EventID (x : uuid) (v : Envelope) : Envelope := let '(mkEnv _ b c d e f g h i j k l m n o p) := v in mkEnv x b c d e f g h i j k l m n o p.
Definition set_Timestamp (x : time) (v : Envelope) : Envelope := let '(mkEnv a _ c d e f g h i j k l m n o p) := v in mkEnv a x c d e f g h i j k l m n o p.
Definition set_WorkspaceID (x : string) (v : Envelope) : Envelope := let '(mkEnv a b _ d e f g h i j k l m n o p) := v in mkEnv a b x d e f g h i j k l m n o p.
Definition set_TraceID (x : uuid) (v : Envelope) : Envelope := let '(mkEnv a b c _ e f g h i j k l m n o p) := v in mkEnv a b c x e f g h i j k l m n o p.
Definition set_SpanID (x : uuid) (v : Envelope) : Envelope := let '(mkEnv a b c d _ f g h i j k l m n o p) := v in mkEnv a b c d x f g h i j k l m n o p.
Definition set_ActorType (x : string) (v : Envelope) : Envelope := let '(mkEnv a b c d e _ g h i j k l m n o p) := v in mkEnv a b c d e x g h i j k l m n o p.
Definition set_ActorID (x : uuid) (v : Envelope) : Envelope := let '(mkEnv a b c d e f _ h i j k l m n o p) := v in mkEnv a b c d e f x h i j k l m n o p.
Definition set_TargetType (x : string) (v : Envelope) : Envelope := let '(mkEnv a b c d e f g _ i j k l m n o p) := v in mkEnv a b c d e f g x i j k l m n o p.
Definition set_TargetID (x : uuid) (v : Envelope) : Envelope := let '(mkEnv a b c d e f g h _ j k l m n o p) := v in mkEnv a b c d e f g h x j k l m n o p.
Definition set_EventType (x : string) (v : Envelope) : Envelope := let '(mkEnv a b c d e f g h i _ k l m n o p) := v in mkEnv a b c d e f g h i x k l m n o p.
Definition set_Outcome (x : string) (v : Envelope) : Envelope := let '(mkEnv a b c d e f g h i j _ l m n o p) := v in mkEnv a b c d e f g h i j x l m n o p.
Definition set_OutcomeDetails (x : option Json) (v : Envelope) : Envelope := let '(mkEnv a b c d e f g h i j k _ m n o p) := v in mkEnv a b c d e f g h i j k x m n o p.
Definition set_PermissionsChecked (x : list (string * bool)) (v : Envelope) : Envelope := let '(mkEnv a b c d e f g h i j k l _ n o p) := v in mkEnv a b c d e f g h i j k l x n o p.
Definition set_ConstitutionalPrinciple (x : string) (v : Envelope) : Envelope := let '(mkEnv a b c d e f g h i j k l m _ o p) := v in mkEnv a b c d e f g h i j k l m x o p.
Definition set_Details (x : option Json) (v : Envelope) : Envelope := let '(mkEnv a b c d e f g h i j k l m n _ p) := v in mkEnv a b c d e f g h i j k l m n x p.
Definition set_Genesis (x : bool) (v : Envelope) : Envelope := let '(mkEnv a b c d e f g h i j k l m n o _) := v in mkEnv a b c d e f g h i j k l m n o x.

(** The fields json.Unmarshal assigns to. *)
Definition envelope_fields : list (Field Envelope) := [
  mkField "event_id" (into_text uuid_Parse set_EventID);
  mkField "timestamp" (into_text time_of_text set_Timestamp);
  mkField "workspace_id" (into_string set_WorkspaceID);
  mkField "trace_id" (into_text uuid_Parse set_TraceID);
  mkField "span_id" (into_text uuid_Parse set_SpanID);
  mkField "actor_type" (into_string set_ActorType);
  mkField "actor_id" (into_text uuid_Parse set_ActorID);
  mkField "target_type" (into_string set_TargetType);
  mkField "target_id" (into_text uuid_Parse set_TargetID);
  mkField "event_type" (into_string set_EventType);
  mkField "outcome" (into_string set_Outcome);
  mkField "outcome_details" (into_raw set_OutcomeDetails);
  mkField "permissions_checked" (into_flags ue_PermissionsChecked set_PermissionsChecked);
  mkField "constitutional_principle" (into_string set_ConstitutionalPrinciple);
  mkField "details" (into_raw set_Details);
  mkField "genesis" (into_bool set_Genesis)
].

Definition read_envelope (body : string) : option Envelope := unmarshal envelope_fields body zero_envelope.
(** ** internal/execution/publisher.go: the message of a dispatch *)

Definition msg_WorkspaceID (x : uuid) (v : PublishMessage) : PublishMessage := let '(mkMessage _ b c d e f g h i j) := v in mkMessage x b c d e f g h i j.
Definition msg_ExecutionID (x : uuid) (v : PublishMessage) : PublishMessage := let '(mkMessage a _ c d e f g h i j) := v in mkMessage a x c d e f g h i j.
Definition msg_AIEmployeeID (x : uuid) (v : PublishMessage) : PublishMessage := let '(mkMessage a b _ d e f g h i j) := v in mkMessage a b x d e f g h i j.
Definition msg_TaskID (x : option uuid) (v : PublishMessage) : PublishMessage := let '(mkMessage a b c _ e f g h i j) := v in mkMessage a b c x e f g h i j.
Definition msg_Attempt (x : Z) (v : PublishMessage) : PublishMessage := let '(mkMessage a b c d _ f g h i j) := v in mkMessage a b c d x f g h i j.
Definition msg_MaxAttempts (x : Z) (v : PublishMessage) : PublishMessage := let '(mkMessage a b c d e _ g h i j) := v in mkMessage a b c d e x g h i j.
Definition msg_RetryID (x : uuid) (v : PublishMessage) : PublishMessage := let '(mkMessage a b c d e f _ h i j) := v in mkMessage a b c d e f x h i j.
Definition msg_Generation (x : Z) (v : PublishMessage) : PublishMessage := let '(mkMessage a b c d e f g _ i j) := v in mkMessage a b c d e f g x i j.
Definition msg_LeaseExpiresAt (x : time) (v : PublishMessage) : PublishMessage := let '(mkMessage a b c d e f g h _ j) := v in mkMessage a b c d e f g h x j.
Definition msg_LeaseOwner (x : string) (v : PublishMessage) : PublishMessage := let '(mkMessage a b c d e f g h i _) := v in mkMessage a b c d e f g h i x.

Definition message_fields : list (Field PublishMessage) := [
  mkField "WorkspaceID" (into_text uuid_Parse msg_WorkspaceID);
  mkField "ExecutionID" (into_text uuid_Parse msg_ExecutionID);
  mkField "AIEmployeeID" (into_text uuid_Parse msg_AIEmployeeID);
  mkField "TaskID" (into_text_ptr uuid_Parse msg_TaskID);
  mkField "Attempt" (into_int msg_Attempt);
  mkField "MaxAttempts" (into_int msg_MaxAttempts);
  mkField "RetryID" (into_text uuid_Parse msg_RetryID);
  mkField "Generation" (into_int msg_Generation);
  mkField "LeaseExpiresAt" (into_text time_of_text msg_LeaseExpiresAt);
  mkField "LeaseOwner" (into_string msg_LeaseOwner)
].
Definition zero_message : PublishMessage := mkMessage uuid_Nil uuid_Nil uuid_Nil None 0 0 uuid_Nil 0 0 "".

Definition int_json (z : Z) : Json := JNumber (strconv_Itoa z).
Definition message_json (m : PublishMessage) (lease : string) : Json := JObject [
  ("WorkspaceID", uuid_json (pm_WorkspaceID m)); ("ExecutionID", uuid_json (pm_ExecutionID m));
  ("AIEmployeeID", uuid_json (pm_AIEmployeeID m));
  ("TaskID", match pm_TaskID m with Some t => uuid_json t | None => JNull end);
  ("Attempt", int_json (pm_Attempt m)); ("MaxAttempts", int_json (pm_MaxAttempts m)); ("RetryID", uuid_json (pm_RetryID m));
  ("Generation", int_json (pm_Generation m)); ("LeaseExpiresAt", JString lease); ("LeaseOwner", JString (pm_LeaseOwner m))
].
(** [json.Marshal] of a message *)
Definition marshal_message (m : PublishMessage) : option Json := option_map (message_json m) (time_text (pm_LeaseExpiresAt m)).
End json.

(** ** Queues *)

(** The value of a header the program sets. *)
Inductive Header : Type := HString (s : string) | HInt (z : Z).
Abbreviation Table := (gmap string Header).

Record Publishing : Type := mkPublishing { pb_Body : string; pb_MessageId : string; pb_Headers : Table }.

(** What one publication meets: a fresh identifier, the clock, the errors of
    opening a channel and of publishing, if any, and whether the broker takes
    the message.  The channel is not in confirm mode: what the client reports of
    a publication and what the broker does with it are independent. *)
Record BusTick : Type := mkBusTick {
  bt_id : uuid;
  bt_now : time;
  bt_channel : option string;
  bt_publish : option string;
  bt_kept : bool
}.

(** The publications so far, and the declared queues, oldest message first. *)
Record Queues : Type := mkQueues { qs_at : nat; qs_queues : gmap string (list Publishing) }.

(** [Sink]: a supervised connection, or a channel of the caller, if there is
    one. *)
Record Sink : Type := mkSink { sk_queue : string; sk_provider : bool; sk_channel : bool }.

Definition NewSink (channel : bool) (queue : string) : Sink := mkSink (if String.eqb queue "" then "austro.events" else queue) false channel.
(** A reconnecting sink, once its first connection is up. *)
Definition NewReconnectingSink (queue : string) : Sink := mkSink queue true false.
(** The queue the supervised connection declares. *)
Definition newReconnector (queue : string) : string := if String.eqb queue "" then "austro.events" else queue.

Section sinks.
Context `{UuidText, UuidParse, TimeText}.
Variable env : nat -> BusTick.

Definition tick : act Queues string BusTick := fun w => (Ok (env (qs_at w)), mkQueues (S (qs_at w)) (qs_queues w)).
Definition fails (o : option string) : act Queues string unit := match o with Some e => act_fail e | None => act_ret tt end.

(** The default exchange: a message that gets there goes to the queue of that
    name, and nowhere when there is none. *)
Definition route (kept : bool) (queue : string) (p : Publishing) : act Queues string unit :=
  act_mod (fun w => mkQueues (qs_at w)
    (match qs_queues w !! queue with
     | Some l => if kept then <[queue := l ++ [p]]> (qs_queues w) else qs_queues w
     | None => qs_queues w
     end)).

(** [amqp.Channel.Publish] of the default exchange, not mandatory *)
Definition channel_Publish (t : BusTick) (queue : string) (p : Publishing) : act Queues string unit :=
  route (bt_kept t) queue p ;;! fails (bt_publish t).

Definition publishChannel (s : Sink) (t : BusTick) : act Queues string unit :=
  if sk_provider s then fails (bt_channel t) else require! sk_channel s else "rabbitmq: sink has no channel" ;; act_ret tt.

Definition deliver (s : Sink) (t : BusTick) (e : Envelope) (headers : Table) : act Queues string unit :=
  publishChannel s t ;;!
  match MarshalJSON e with
  | None => act_fail "rabbitmq: marshal event"
  | Some body => channel_Publish t (sk_queue s) (mkPublishing body (uuid_String (ue_EventID e)) headers)
  end.

Definition parse_or_nil (s : string) : uuid := default uuid_Nil (uuid_Parse s).

(** [baseEnvelope], the details being given in the order of their keys. *)
Definition baseEnvelope (t : BusTick) (targetType : string) (targetID workspaceID : uuid) (traceID spanID : string)
    (details : list (string * string)) (hdrs : Table) : Envelope * Table :=
  (mkEnv (bt_id t) (bt_now t) (uuid_String workspaceID) (parse_or_nil traceID) (parse_or_nil spanID) "system" uuid_Nil targetType targetID
     EventTypeCreated "success" None [] "" (Some (JObject (map (fun p => (p.1, JString p.2)) details))) false,
   <["target_type" := HString targetType]> (<["workspace_id" := HString (uuid_String workspaceID)]>
     (<["span_id" := HString spanID]> (<["trace_id" := HString traceID]> hdrs)))).

(** [PublishEventSink.Publish] *)
Definition PublishEventSink (s : Sink) (eventType : string) (publicationID workspaceID : uuid) (traceID spanID : string) : act Queues string unit :=
  t <~ tick ;;
  let '(e, hdrs) := baseEnvelope t "publication" publicationID workspaceID traceID spanID [("event", eventType)] {["event_type" := HString eventType]} in
  deliver s t e hdrs.

(** [PipelineEventSink.PublishPipeline] *)
Definition PipelineEventSink (s : Sink) (eventType : string) (pipelineID workspaceID : uuid) (stage traceID spanID : string) : act Queues string unit :=
  t <~ tick ;;
  let '(e, hdrs) := baseEnvelope t "pipeline" pipelineID workspaceID traceID spanID [("event", eventType); ("stage", stage)]
    {["event_type" := HString eventType]} in
  deliver s t e hdrs.

(** [DecisionSink.Sink]: a failure is logged and forgotten. *)
Definition DecisionSink (s : Sink) (d : DecisionRecord) : act Queues string unit :=
  t <~ tick ;;
  let '(e, hdrs) := baseEnvelope t "ai" uuid_Nil uuid_Nil (uuid_String (dc_TraceID d)) (uuid_String (dc_SpanID d))
    [("event", dc_EventType d); ("outcome", dc_Outcome d)]
    (<["principle" := HString (dc_Principle d)]> {["event_type" := HString (dc_EventType d)]}) in
  _ <~ act_try (deliver s t (set_Outcome (dc_Outcome d) (set_WorkspaceID (dc_WorkspaceID d) e)) hdrs) ;;
  act_ret tt.

(** *** infrastructure/rabbitmq/executions.go *)

Definition ExecutionQueue : string := "austro.executions".

Definition executionEnvelope (t : BusTick) (msg : PublishMessage) (details : Json) : Envelope * Table :=
  (mkEnv (bt_id t) (bt_now t) (uuid_String (pm_WorkspaceID msg)) uuid_Nil uuid_Nil "system" uuid_Nil "execution" (pm_ExecutionID msg)
     EventTypeCreated "dispatched" None [] "" (Some details) false,
   <["event_type" := HString "execution.dispatch"]> (<["workspace_id" := HString (uuid_String (pm_WorkspaceID msg))]>
     (<["execution_id" := HString (uuid_String (pm_ExecutionID msg))]> (<["retry_id" := HString (uuid_String (pm_RetryID msg))]>
       {["generation" := HInt (pm_Generation msg)]})))).

(** [ExecutionPublisher.Publish] *)
Definition ExecutionPublisher (s : Sink) (msg : PublishMessage) : act Queues string unit :=
  match marshal_message msg with
  | None => act_fail "rabbitmq: marshal execution dispatch"
  | Some details =>
      t <~ tick ;;
      let '(e, hdrs) := executionEnvelope t msg details in deliver s t e hdrs
  end.
End sinks.

(** ** internal/worker/worker.go: a delivery *)

Section delivery.
Context `{UuidText, UuidParse, TimeText}.

(** A header that is a text form of an identifier replaces the field. *)
Definition from_header (o : option Header) (set : uuid -> Envelope -> Envelope) (e : Envelope) : Envelope :=
  match o with
  | Some (HString s) => match uuid_Parse s with Some u => set u e | None => e end
  | _ => e
  end.

(** The envelope a handler is given. *)
Definition received (d : Publishing) : option Envelope :=
  option_map (fun e => from_header (pb_Headers d !! "span_id") set_SpanID (from_header (pb_Headers d !! "trace_id") set_TraceID e))
    (read_envelope (pb_Body d)).

(** [Worker.processMessage] of a delivery *)
Definition process {S} (handler : Envelope -> S -> option failure * S) (d : Publishing) (s : S) : settlement * S :=
  processMessage handler (received d) s.

(** *** cmd/worker/handler.go: the details of an envelope *)

Definition event_field : Field pipelineEventDetails := mkField "event" (into_string (fun x d => mkDetails x (d_Stage d))).
Definition stage_field : Field pipelineEventDetails := mkField "stage" (into_string (fun x d => mkDetails (d_Event d) x)).

Definition event_details (e : Envelope) : option pipelineEventDetails :=
  match ue_Details e with
  | None => None
  | Some v =>
      decode_struct (if String.eqb (ue_TargetType e) "publication" then [event_field] else [event_field; stage_field]) v (mkDetails "" "")
  end.

(** What the handlers of the two queues read of an envelope. *)
Definition as_event (e : Envelope) : UniversalEnvelope :=
  mkEnvelope (ue_TargetType e) (ue_TargetID e) (ue_WorkspaceID e) (ue_TraceID e) (ue_SpanID e) (event_details e).
Definition as_dispatch (e : Envelope) : DispatchEnvelope :=
  mkDispatch (ue_TargetType e) (match ue_Details e with Some v => decode_struct message_fields v zero_message | None => None end).
End delivery.
