(* ===== verification/BusProps.v ===== *)
(** * What is sent is what is received

    An envelope survives its JSON; an event of a pipeline that gets onto its
    queue reaches the handler of the worker as the command it stands for; a
    dispatch that does reaches the worker with the lease it was fenced with.
    Nothing is confirmed: whether the broker takes a message is a parameter,
    independent of what the client reports. *)

From stdpp Require Import gmap.
From S2P Require PgStore WorkerProps Worker.
From S2P Require Import Prelude GoLib GoText Json Execution Ports Pipeline PipelineService Gateway PipelineProps PipelineFlow Consumer Bus.

#[local] Open Scope string_scope.
#[local] Open Scope list_scope.

Section roundtrip.
Context `{UuidTextLaws, !UuidParse, !UuidParseLaws, !TimeText, !TimeTextLaws}.

(** Assign a member by its name. *)
Ltac assign_one :=
  match goal with |- context [assign ?fs (?k, ?v) ?a] => rewrite (assign_field fs k v a _ eq_refl) end;
  unfold uuid_json, int_json; cbn [fld_set into_string into_text into_text_ptr into_bool into_int into_raw into_flags];
  rewrite ?uuid_Parse_String; cbn [option_map].
Ltac assigned := rewrite assign_all_cons; assign_one.
Ltac all_assigned := repeat assigned; match goal with |- context [assign_all ?fs [] ?o] => change (assign_all fs [] o) with o end.

Lemma assign_unless {A} (fields : list (Field A)) (b : bool) p a a' :
  (b = true -> a = a') -> (b = false -> assign fields p a = Some a') -> assign_all fields (unless b p) (Some a) = Some a'.
Proof. intros Ht Hf. destruct b; [by rewrite Ht|]. simpl. by apply Hf. Qed.
Lemma assign_raw {A} (fields : list (Field A)) k o a a' :
  (o = None -> a = a') -> (forall v, o = Some v -> assign fields (k, v) a = Some a') -> assign_all fields (raw k o) (Some a) = Some a'.
Proof. intros Hn Hs. destruct o as [v|]; [by apply Hs|]. simpl. by rewrite Hn. Qed.

(** An envelope the program can send: text that is UTF-8, raw messages that
    are JSON, not too deep. *)
Definition raw_ok (o : option Json) : Prop := match o with Some v => wf_json v /\ (json_depth v < maxNestingDepth)%N | None => True end.
Definition sendable (e : Envelope) : Prop :=
  Forall (fun s => utf8_ValidString s = true)
    [ue_WorkspaceID e; ue_ActorType e; ue_TargetType e; ue_EventType e; ue_Outcome e; ue_ConstitutionalPrinciple e] /\
  Forall (fun p => utf8_ValidString p.1 = true) (ue_PermissionsChecked e) /\ NoDup (map fst (ue_PermissionsChecked e)) /\
  raw_ok (ue_OutcomeDetails e) /\ raw_ok (ue_Details e).

Lemma read_members_of e stamp : sendable e -> time_of_text stamp = Some (ue_Timestamp e) ->
  decode_struct envelope_fields (envelope_json e stamp) zero_envelope = Some e.
Proof.
  intros (_ & _ & Hnd & _) Ht. unfold decode_struct, envelope_json. rewrite !assign_all_app.
  destruct e as [eid ts ws tr sp at' aid tt tid et oc od pc cp de ge]. cbn [ue_EventID ue_Timestamp ue_WorkspaceID ue_TraceID ue_SpanID ue_ActorType
    ue_ActorID ue_TargetType ue_TargetID ue_EventType ue_Outcome ue_OutcomeDetails ue_PermissionsChecked ue_ConstitutionalPrinciple ue_Details ue_Genesis] in *.
  assigned. assigned. rewrite Ht. cbn [option_map]. all_assigned.
  match goal with |- context [assign_all ?fs (unless _ _) (Some ?a)] => rewrite (assign_unless fs _ _ a (set_WorkspaceID ws a)) end.
  2: { intros Hw. apply String.eqb_eq in Hw. by subst. }
  2: { intros _. by assign_one. }
  all_assigned.
  match goal with |- context [assign_all ?fs (raw _ _) (Some ?a)] => rewrite (assign_raw fs _ _ a (set_OutcomeDetails od a)) end.
  2: { by intros ->. }
  2: { intros v ->. by assign_one. }
  match goal with |- context [assign_all ?fs (unless _ _) (Some ?a)] => rewrite (assign_unless fs _ _ a (set_PermissionsChecked pc a)) end.
  2: { intros Hw. by apply bool_decide_eq_true in Hw as ->. }
  2: { intros _. assign_one. cbn. by rewrite read_flags_printed. }
  all_assigned.
  match goal with |- context [assign_all ?fs (raw _ _) (Some ?a)] => rewrite (assign_raw fs _ _ a (set_Details de a)) end.
  2: { by intros ->. }
  2: { intros v ->. by assign_one. }
  match goal with |- context [assign_all ?fs (unless _ _) (Some ?a)] => rewrite (assign_unless fs _ _ a (set_Genesis ge a)) end.
  2: { by destruct ge. }
  2: { destruct ge; [|done]. intros _. by assign_one. }
  done.
Qed.

Lemma uuid_valid u : utf8_ValidString (uuid_String u) = true.
Proof. apply json_plain_valid, uuid_String_plain. Qed.

(** A member with valid text, not too deep. *)
Definition flat (d : N) (p : string * Json) : Prop := (utf8_ValidString p.1 = true /\ wf_json p.2) /\ (json_depth p.2 <= d)%N.
Lemma flat_text d k s : utf8_ValidString k = true -> utf8_ValidString s = true -> flat d (k, JString s).
Proof. intros Hk Hs. split; [by split|apply N.le_0_l]. Qed.
Lemma flat_null d k : utf8_ValidString k = true -> flat d (k, JNull).
Proof. intros Hk. split; [by split|apply N.le_0_l]. Qed.
Lemma flat_uuid d k u : utf8_ValidString k = true -> flat d (k, uuid_json u).
Proof. intros Hk. apply flat_text; [done|apply uuid_valid]. Qed.
Lemma flat_bool d k b : utf8_ValidString k = true -> flat d (k, JBool b).
Proof. intros Hk. split; [by split|apply N.le_0_l]. Qed.
Lemma flat_int d k z : utf8_ValidString k = true -> flat d (k, int_json z).
Proof. intros Hk. split; [split; [done|by exists z]|apply N.le_0_l]. Qed.
Lemma flat_raw k o : utf8_ValidString k = true -> raw_ok o -> Forall (flat (maxNestingDepth - 1)) (raw k o).
Proof. intros Hk Ho. destruct o as [v|]; [|constructor]. destruct Ho as [Hw Hd]. apply Forall_singleton. split; [done|]. cbn [snd]. lia. Qed.
Lemma flat_unless d b p : flat d p -> Forall (flat d) (unless b p).
Proof. intros Hp. destruct b; [constructor|by apply Forall_singleton]. Qed.

#[local] Hint Resolve flat_text flat_null flat_bool flat_uuid flat_int flat_raw flat_unless : flat.
#[local] Hint Extern 1 (utf8_ValidString _ = true) => (by vm_compute) : flat.
#[local] Hint Extern 1 (Forall _ []) => constructor : flat.

Lemma flat_object d m : Forall (flat d) m -> wf_json (JObject m) /\ (json_depth (JObject m) <= 1 + d)%N.
Proof.
  intros HF. split; [apply wf_object|apply depth_object]; (eapply Forall_impl; [exact HF|]); by intros p [? ?].
Qed.
Lemma parse_flat m : Forall (flat (maxNestingDepth - 1)) m -> json_parse (json_print (JObject m)) = Some (JObject m).
Proof. intros [Hw Hd]%flat_object. by apply json_parse_print. Qed.
Lemma raw_flat m : Forall (flat 0) m -> raw_ok (Some (JObject m)).
Proof. intros [Hw Hd]%flat_object. split; [done|]. by eapply N.le_lt_trans. Qed.

Lemma envelope_flat e stamp : sendable e -> utf8_ValidString stamp = true ->
  json_parse (json_print (envelope_json e stamp)) = Some (envelope_json e stamp).
Proof.
  intros (Hs & Hp & _ & Hod & Hd) Ht. rewrite !Forall_cons in Hs. destruct Hs as (? & ? & ? & ? & ? & ? & _).
  apply parse_flat. rewrite !Forall_app, !Forall_cons. split_and!; try solve [auto with flat].
  apply flat_unless. destruct (flat_object 0 (map (fun p => (p.1, JBool p.2)) (ue_PermissionsChecked e))) as [Hw Hdp].
  - apply Forall_map. eapply Forall_impl; [exact Hp|]. intros [k b] Hk. by apply flat_bool.
  - split; [by split|]. cbn [snd]. by etrans.
Qed.

(** What is marshalled is unmarshalled. *)
Lemma envelope_read e body : sendable e -> MarshalJSON e = Some body -> read_envelope body = Some e.
Proof.
  intros Hs. unfold MarshalJSON. destruct (time_text (ue_Timestamp e)) as [stamp|] eqn:Et; [|done]. intros [= <-].
  apply time_text_read in Et as [Hv Ht]. unfold read_envelope, unmarshal. rewrite envelope_flat by done. by apply read_members_of.
Qed.

(** ** A message in its queue *)

(** The queue of the sink is there, and has one message more. *)
Definition lands (s : Sink) (w w' : Queues) (P : Publishing -> Prop) : Prop :=
  exists l d, qs_queues w !! sk_queue s = Some l /\ qs_queues w' = <[sk_queue s := l ++ [d]]> (qs_queues w) /\ P d.

(** What a publication comes to: nothing on the queues, or one message at the
    end of the sink's queue; the second, if it is reported as sent, the broker
    took it and the queue was there. *)
Definition published (s : Sink) (t : BusTick) (r : res string unit) (w w' : Queues) (P : Publishing -> Prop) : Prop :=
  (qs_queues w' = qs_queues w \/ lands s w w' P) /\
  (r = Ok tt -> bt_kept t = true -> is_Some (qs_queues w !! sk_queue s) -> lands s w w' P).

Lemma published_mono s t r w w' (P Q : Publishing -> Prop) :
  (forall d, P d -> Q d) -> published s t r w w' P -> published s t r w w' Q.
Proof.
  intros HPQ [Hone Hsent]. assert (lands s w w' P -> lands s w w' Q) as Hl by (intros (l & d & ? & ? & ?); exists l, d; auto).
  split; [destruct Hone; auto|auto].
Qed.

Lemma deliver_published s t e hdrs w0 w r w' :
  deliver s t e hdrs w = (r, w') -> qs_queues w = qs_queues w0 ->
  published s t r w0 w' (fun d => exists body, MarshalJSON e = Some body /\ d = mkPublishing body (uuid_String (ue_EventID e)) hdrs).
Proof.
  unfold deliver, act_bind. intros Hd Hw. destruct (publishChannel s t w) as [x w1] eqn:Ec.
  assert (w1 = w) as ->.
  { unfold publishChannel, fails in Ec. destruct (sk_provider s); [destruct (bt_channel t)|destruct (sk_channel s)]; by inversion Ec. }
  destruct x as [[]|e1]; [|injection Hd as <- <-; split; [by left|done]].
  destruct (MarshalJSON e) as [body|] eqn:Hm; [|injection Hd as <- <-; split; [by left|done]].
  unfold channel_Publish, act_bind, route, act_mod in Hd.
  set (p := mkPublishing body (uuid_String (ue_EventID e)) hdrs) in *.
  assert (qs_queues w' = match qs_queues w0 !! sk_queue s with
                         | Some l => if bt_kept t then <[sk_queue s := l ++ [p]]> (qs_queues w0) else qs_queues w0
                         | None => qs_queues w0
                         end) as Hq.
  { rewrite <-Hw. unfold fails, act_fail, act_ret in Hd. destruct (bt_publish t); by injection Hd as _ <-. }
  clear Hd. split.
  - destruct (qs_queues w0 !! sk_queue s) as [l|] eqn:Hl; [|by left]. destruct (bt_kept t); [|by left]. right. exists l, p. eauto.
  - intros _ Hk [l Hl]. rewrite Hl, Hk in Hq. exists l, p. eauto.
Qed.

(** What the handlers are given of a message. *)
Lemma received_body e body id hdrs : sendable e -> MarshalJSON e = Some body ->
  received (mkPublishing body id hdrs) = Some (from_header (hdrs !! "span_id") set_SpanID (from_header (hdrs !! "trace_id") set_TraceID e)).
Proof. intros Hs Hm. unfold received. cbn [pb_Body pb_Headers]. by rewrite (envelope_read e body). Qed.

Lemma from_own_header s set e u : u = parse_or_nil s -> (uuid_Parse s = None -> e = set u e) -> from_header (Some (HString s)) set e = set u e.
Proof. intros -> Hn. unfold from_header, parse_or_nil in *. destruct (uuid_Parse s); [done|]. by apply Hn. Qed.

(** The details of the domain events. *)
Definition details_ok (l : list (string * string)) : Prop := Forall (fun p => utf8_ValidString p.1 = true /\ utf8_ValidString p.2 = true) l.
Lemma details_sendable l : details_ok l -> raw_ok (Some (JObject (map (fun p => (p.1, JString p.2)) l))).
Proof. intros Hl. apply raw_flat, Forall_map. eapply Forall_impl; [exact Hl|]. intros [k v] [? ?]. by apply flat_text. Qed.

Lemma base_sendable t tt tid ws tr sp l hdrs : utf8_ValidString tt = true -> details_ok l ->
  sendable (baseEnvelope t tt tid ws tr sp l hdrs).1.
Proof.
  intros Ht Hl. split_and!; [|constructor|constructor|done|by apply details_sendable].
  cbn. repeat (apply Forall_cons; split); try apply uuid_valid; by try vm_compute.
Qed.

Lemma set_sendable e ws o : sendable e -> utf8_ValidString ws = true -> utf8_ValidString o = true ->
  sendable (set_Outcome o (set_WorkspaceID ws e)).
Proof. destruct e. intros (Hs & Hr) Hw Ho. split; [|exact Hr]. rewrite !Forall_cons in *. cbn in *. naive_solver. Qed.

(** A domain event is received as it was sent, its trace and span from the
    headers. *)
Lemma base_received t tt tid ws tr sp l hdrs body id : utf8_ValidString tt = true -> details_ok l ->
  let '(e, h) := baseEnvelope t tt tid ws tr sp l hdrs in MarshalJSON e = Some body -> received (mkPublishing body id h) = Some e.
Proof.
  intros Ht Hl. pose proof (base_sendable t tt tid ws tr sp l hdrs Ht Hl) as Hs. unfold baseEnvelope in *. cbn [fst] in Hs. intros Hm.
  rewrite (received_body _ _ _ _ Hs Hm).
  rewrite !lookup_insert_ne by done. rewrite lookup_insert_eq. rewrite !lookup_insert_ne by done. rewrite lookup_insert_eq.
  rewrite (from_own_header tr _ _ _ eq_refl) by done. by rewrite (from_own_header sp _ _ _ eq_refl).
Qed.

(** ** Commands *)

(** An event whose name goes with its stage, and what it asks the worker for:
    the end of a pipeline and its review are only announced. *)
Definition named (ev : Event) : Prop :=
  ValidStage (stage_of (ev_stage ev)) = true /\ EventKind (ev_type ev) = Some (stage_of (ev_stage ev)) /\
  utf8_ValidString (ev_type ev) = true /\ utf8_ValidString (ev_stage ev) = true.
Definition announcement (ev : Event) : bool :=
  bool_decide (ev_type ev ∈ ["pipeline.review"; "pipeline.review_ready"; "pipeline.complete"]).
Definition command_of (ev : Event) : demand :=
  if announcement ev then Observed else Command (ev_workspace ev) (ev_pipeline ev) (stage_of (ev_stage ev)).

(** Every event the pipeline service sends is one. *)
Lemma service_events_named cx p ws to trace :
  ValidStage (pl_Stage p) = true -> ValidStage to = true ->
  (pl_Stage p = StageResearch -> named (research_event cx p ws trace)) /\
  named (mkEvent (event_after to) (pl_ID p) ws (stage_text to) (cx_trace cx) (cx_span cx)) /\
  named (mkEvent (current_event p) (pl_ID p) (pl_WorkspaceID p) (stage_text (pl_Stage p)) (cx_trace cx) (cx_span cx)) /\
  named (mkEvent "pipeline.review_approved" (pl_ID p) ws (stage_text StageReview) (cx_trace cx) (cx_span cx)).
Proof.
  intros Hp Ht. split_and!.
  - intros E. unfold named, research_event. cbn [ev_stage ev_type]. rewrite E. by vm_compute.
  - destruct to; try done; by vm_compute.
  - unfold named, current_event. cbn [ev_stage ev_type]. destruct (pl_Stage p), (bool_decide (pl_Status p = StatusApproved)); try done; by vm_compute.
  - by vm_compute.
Qed.

Lemma details_decoded e ev : ue_TargetType e = "pipeline" ->
  ue_Details e = Some (JObject [("event", JString (ev_type ev)); ("stage", JString (ev_stage ev))]) ->
  event_details e = Some (mkDetails (ev_type ev) (ev_stage ev)).
Proof.
  intros Ht Hd. unfold event_details. rewrite Hd, Ht.
  change (("pipeline" =? "publication")%string) with false. cbv iota. unfold decode_struct, event_field, stage_field. by assigned; assigned.
Qed.

Lemma named_demand ev tr sp : named ev -> ev_pipeline ev <> uuid_Nil ->
  pipeline_event uuid_Parse (mkEnvelope "pipeline" (ev_pipeline ev) (uuid_String (ev_workspace ev)) tr sp (Some (mkDetails (ev_type ev) (ev_stage ev)))) =
  Ok (command_of ev).
Proof.
  intros (Hv & Hk & _) Hid. unfold pipeline_event. cbn [env_Details d_Stage d_Event env_WorkspaceID env_TargetID].
  rewrite Hv. rewrite (bool_decide_eq_true_2 _ Hk), uuid_Parse_String, (proj2 (N.eqb_neq _ _) Hid). cbn [negb].
  unfold command_of, announcement.
  destruct (String.eqb_spec (ev_type ev) "pipeline.review"), (String.eqb_spec (ev_type ev) "pipeline.review_ready"),
    (String.eqb_spec (ev_type ev) "pipeline.complete"); cbn [orb];
    first [rewrite bool_decide_eq_true_2 by set_solver; done|rewrite bool_decide_eq_false_2 by set_solver; done].
Qed.

(** C19. Commands arrive.  Whatever a sink reports of an event of a pipeline, the
    queues are as they were or the sink's queue was declared and has exactly
    one message more, and that message is settled by the worker as the command
    the event stands for: to advance that pipeline of that workspace from that
    stage, under the trace and span it was sent with; the announcements are
    acknowledged and do nothing.  The message is there when the sink reported
    the event as sent, the queue was declared and the broker took it; without
    confirms the report alone does not say so ([reported_and_lost]). *)
Theorem pipeline_events_arrive {S : Type} env s ev w r w' (txs : nat -> TxTick PipeDB) caps (publication : option (PublicationPort S)) W :
  named ev -> ev_pipeline ev <> uuid_Nil ->
  PipelineEventSink env s (ev_type ev) (ev_pipeline ev) (ev_workspace ev) (ev_stage ev) (ev_trace ev) (ev_span ev) w = (r, w') ->
  published s (env (qs_at w)) r w w' (fun d =>
    process (fun e => newHandler uuid_Parse txs caps publication (as_event e)) d W =
    match command_of ev with
    | Observed => (Ack, W)
    | Command ws id stage =>
        processMessage (fun _ : unit => advance_event txs caps publication ws id stage
          (uuid_String (parse_or_nil (ev_trace ev))) (uuid_String (parse_or_nil (ev_span ev)))) (Some tt) W
    end).
Proof.
  intros Hn Hid Hrun. assert (details_ok [("event", ev_type ev); ("stage", ev_stage ev)]) as Hd.
  { destruct Hn as (_ & _ & ? & ?). by repeat (apply Forall_cons; split). }
  unfold PipelineEventSink, act_bind, tick in Hrun.
  pose proof (base_received (env (qs_at w)) "pipeline" (ev_pipeline ev) (ev_workspace ev) (ev_trace ev) (ev_span ev)
    [("event", ev_type ev); ("stage", ev_stage ev)] {["event_type" := HString (ev_type ev)]}) as Hr.
  destruct (baseEnvelope _ _ _ _ _ _ _ _) as [e h] eqn:Eb. apply (deliver_published _ _ _ _ w) in Hrun; [|done].
  eapply published_mono; [|exact Hrun]. intros d (body & Hm & ->). unfold process. rewrite (Hr body _ ltac:(by vm_compute) Hd Hm).
  unfold baseEnvelope in Eb. injection Eb as <- _. unfold processMessage, newHandler, as_event. cbn [env_TargetType ue_TargetType].
  rewrite (details_decoded _ ev) by done. change (("pipeline" =? "publication")%string) with false. change (("pipeline" =? "pipeline")%string) with true.
  cbn [negb]. cbn [ue_TargetID ue_WorkspaceID ue_TraceID ue_SpanID ue_TargetType env_TraceID env_SpanID].
  rewrite named_demand by done. by destruct (command_of ev).
Qed.

(** ** Dispatches *)

Definition int64_fields (m : PublishMessage) : Prop := in_int64 (pm_Attempt m) /\ in_int64 (pm_MaxAttempts m) /\ in_int64 (pm_Generation m).

Ltac assign_int := assigned; rewrite ?ParseInt_Itoa by done; cbn [option_map].

Lemma read_message m lease : int64_fields m -> time_of_text lease = Some (pm_LeaseExpiresAt m) ->
  decode_struct message_fields (message_json m lease) zero_message = Some m.
Proof.
  intros (Ha & Hm & Hg) Ht. unfold decode_struct, message_json. destruct m as [ws id emp task a mx rid g lt own].
  cbn [pm_WorkspaceID pm_ExecutionID pm_AIEmployeeID pm_TaskID pm_Attempt pm_MaxAttempts pm_RetryID pm_Generation pm_LeaseExpiresAt pm_LeaseOwner] in *.
  do 3 assigned. rewrite assign_all_cons.
  assert (forall a, assign message_fields ("TaskID", match task with Some t => uuid_json t | None => JNull end) a = Some (msg_TaskID task a)) as ->.
  { intros x. destruct task as [t|]; by assign_one. }
  do 2 assign_int. assigned. assign_int. assigned. rewrite Ht. cbn [option_map]. by assigned.
Qed.

(** C20. The lease arrives.  Whatever the publisher reports of a dispatch, the
    queues are as they were or its queue was declared and has exactly one
    message more, which reaches the worker with exactly the message: the
    execution, the retry, the generation, the attempt and the lease it was
    fenced with.  The message is there when the publisher reported the dispatch
    as sent, the queue was declared and the broker took it. *)
Theorem dispatches_arrive {S : Type} `{!ExecutionStore S, !Materializer S, !Clock S, !Worker.Provider S} env s msg w r w' (wk : Worker.Worker) W :
  int64_fields msg -> utf8_ValidString (pm_LeaseOwner msg) = true -> ExecutionPublisher env s msg w = (r, w') ->
  published s (env (qs_at w)) r w w' (fun d =>
    process (fun e => newExecutionHandler wk (as_dispatch e)) d W =
    processMessage (newExecutionHandler wk) (Some (mkDispatch "execution" (Some msg))) W).
Proof.
  intros Hi Hv. unfold ExecutionPublisher, marshal_message. destruct (time_text (pm_LeaseExpiresAt msg)) as [lease|] eqn:Et.
  2: { intros [= <- <-]. split; [by left|done]. }
  apply time_text_read in Et as [Htv Ht]. cbn [option_map]. unfold act_bind at 1, tick. intros Hrun.
  assert (sendable (executionEnvelope (env (qs_at w)) msg (message_json msg lease)).1) as Hs.
  { split_and!; [|constructor|constructor|done|].
    - cbn. repeat (apply Forall_cons; split); try apply uuid_valid; by try vm_compute.
    - apply raw_flat. repeat (apply Forall_cons; split); try solve [auto with flat]. destruct (pm_TaskID msg); auto with flat. }
  destruct (executionEnvelope _ _ _) as [e h] eqn:Eb. apply (deliver_published _ _ _ _ w) in Hrun; [|done].
  eapply published_mono; [|exact Hrun]. intros d (body & Hm & ->). unfold process. unfold executionEnvelope in Eb. injection Eb as <- <-. cbn [fst] in Hs.
  rewrite (received_body _ _ _ _ Hs Hm). rewrite !lookup_insert_ne, !lookup_singleton_ne by done. cbn [from_header]. unfold processMessage, as_dispatch. cbn [ue_TargetType ue_Details].
  by rewrite read_message.
Qed.

(** ** Announcements and decisions *)

(** What is sent to be seen is acknowledged and changes nothing: an event of a
    publication, and a decision of the AI gateway, whose sink reports nothing. *)
Theorem observations_change_nothing {S : Type} env s w r w' (txs : nat -> TxTick PipeDB) caps (publication : option (PublicationPort S)) W :
  let seen := fun d => process (fun e => newHandler uuid_Parse txs caps publication (as_event e)) d W = (Ack, W) in
  (forall type pid ws trace span, utf8_ValidString type = true -> Consumer.HasPrefix type "publication." = true -> pid <> uuid_Nil ->
     PublishEventSink env s type pid ws trace span w = (r, w') -> published s (env (qs_at w)) r w w' seen) /\
  (forall dc, utf8_ValidString (dc_EventType dc) = true -> utf8_ValidString (dc_Outcome dc) = true -> utf8_ValidString (dc_WorkspaceID dc) = true ->
     DecisionSink env s dc w = (r, w') -> qs_queues w' = qs_queues w \/ lands s w w' seen).
Proof.
  intros seen. split.
  - intros type pid ws trace span Hv Hp Hid Hrun. unfold PublishEventSink, act_bind, tick in Hrun.
    assert (details_ok [("event", type)]) as Hd by (by repeat (apply Forall_cons; split)).
    pose proof (base_received (env (qs_at w)) "publication" pid ws trace span [("event", type)] {["event_type" := HString type]}) as Hr.
    destruct (baseEnvelope _ _ _ _ _ _ _ _) as [e h] eqn:Eb. apply (deliver_published _ _ _ _ w) in Hrun; [|done].
    eapply published_mono; [|exact Hrun]. intros d (body & Hm & ->). unfold seen, process. rewrite (Hr body _ ltac:(by vm_compute) Hd Hm).
    unfold baseEnvelope in Eb. injection Eb as <- _. unfold processMessage, newHandler, as_event. cbn [env_TargetType ue_TargetType].
    change (("publication" =? "publication")%string) with true. cbv iota.
    unfold publication_event. cbn [env_Details]. unfold event_details. cbn [ue_Details ue_TargetType].
    change (("publication" =? "publication")%string) with true. cbv iota. unfold decode_struct, event_field. cbn [map]. assigned. all_assigned.
    cbn [d_Event env_WorkspaceID ue_WorkspaceID env_TargetID ue_TargetID]. rewrite Hp, uuid_Parse_String, (proj2 (N.eqb_neq _ _) Hid). done.
  - intros dc Hv1 Hv2 Hv3 Hrun. unfold DecisionSink, act_bind, tick in Hrun.
    assert (details_ok [("event", dc_EventType dc); ("outcome", dc_Outcome dc)]) as Hd by (by repeat (apply Forall_cons; split)).
    pose proof (base_sendable (env (qs_at w)) "ai" uuid_Nil uuid_Nil (uuid_String (dc_TraceID dc)) (uuid_String (dc_SpanID dc))
      [("event", dc_EventType dc); ("outcome", dc_Outcome dc)]
      {["principle" := HString (dc_Principle dc); "event_type" := HString (dc_EventType dc)]} ltac:(by vm_compute) Hd) as Hs.
    destruct (baseEnvelope _ _ _ _ _ _ _ _) as [e h] eqn:Eb. unfold baseEnvelope in Eb. injection Eb as <- _. cbn [fst] in *.
    unfold act_try in Hrun. destruct (deliver _ _ _ _ _) as [x w1] eqn:Ed; injection Hrun as _ <-.
    apply (deliver_published _ _ _ _ w) in Ed; [|done]. eapply published_mono in Ed as [Hpub _]; [exact Hpub|].
    intros d (body & Hm & ->). unfold seen, process.
    rewrite (received_body _ _ _ _ (set_sendable _ _ _ Hs Hv3 Hv2) Hm). unfold from_header. repeat case_match; reflexivity.
Qed.
End roundtrip.

(** ** Concrete runs *)

#[local] Hint Extern 0 UuidText => exact unary_uuid : typeclass_instances.
#[local] Hint Extern 0 (@UuidTextLaws _) => exact unary_uuid_laws : typeclass_instances.
#[local] Hint Extern 0 UuidParse => exact unary_parse : typeclass_instances.
#[local] Hint Extern 0 (@UuidParseLaws _ _) => exact unary_parse_laws : typeclass_instances.

(** An instant as its number of nanoseconds. *)
#[local] Instance decimal_time : TimeText := {|
  time_text t := if (- 2 ^ 63 <=? t)%Z && (t <? 2 ^ 63)%Z then Some (strconv_Itoa t) else None;
  time_of_text := ParseInt
|}.
Lemma Itoa_safe z : json_plain (strconv_Itoa z).
Proof.
  assert (forall p, json_plain (pretty (N.pos p))) as Hp.
  { intros p. destruct (pretty_pos p) as [[_ Hd] _]. unfold json_plain. eapply Forall_impl; [exact Hd|]. cbv beta. intros b Hb.
    unfold json_safe. cbn [existsb]. rewrite !(proj2 (Z.eqb_neq b _)), (proj2 (Z.leb_le _ _)), (proj2 (Z.ltb_lt _ _)) by lia. done. }
  unfold strconv_Itoa. destruct z as [|p|p]; [by vm_compute; repeat constructor|apply Hp|].
  change (pretty (Z.neg p)) with ("-" +:+ pretty (N.pos p)). unfold json_plain. rewrite bytes_app. constructor; [done|apply Hp].
Qed.
#[local] Instance decimal_time_laws : TimeTextLaws.
Proof.
  intros t s. cbn. destruct (_ && _)%bool eqn:Hr; [|done]. intros [= <-]. split; [apply json_plain_valid, Itoa_safe|].
  apply ParseInt_Itoa. unfold in_int64. lia.
Qed.

Definition calm_bus : nat -> BusTick := fun n => mkBusTick (100 + N.of_nat n)%N (Z.of_nat n) None None true.
Definition events : Sink := NewReconnectingSink "events".
Definition queues_of (names : list string) : Queues := mkQueues 0 (list_to_map (map (fun n => (n, [])) names)).

Definition research : Event := mkEvent "pipeline.research" 1 7 "research" "trace" "sp".

Lemma pipeline_events_arrive_witness :
  exists w', PipelineEventSink calm_bus events "pipeline.research" 1 7 "research" "trace" "sp" (queues_of ["events"]) = (Ok tt, w') /\
    lands events (queues_of ["events"]) w' (fun d =>
      process (fun e => newHandler uuid_Parse calm_env plain_caps (Some plain_port) (as_event e)) d created_world =
      processMessage (fun _ : unit => advance_event calm_env plain_caps (Some plain_port) 7 1 StageResearch (uuid_String 5) (uuid_String 2)) (Some tt) created_world).
Proof.
  destruct (PipelineEventSink calm_bus events "pipeline.research" 1 7 "research" "trace" "sp" (queues_of ["events"])) as [r w'] eqn:Hr.
  assert (r = Ok tt) as -> by (change r with (r, w').1; rewrite <-Hr; vm_compute; reflexivity).
  destruct (pipeline_events_arrive calm_bus events research (queues_of ["events"]) (Ok tt) w' calm_env plain_caps (Some plain_port) created_world)
    as [_ Hl]; [by vm_compute|discriminate|exact Hr|].
  exists w'. split; [reflexivity|]. apply Hl; [reflexivity|reflexivity|vm_compute; by eexists].
Defined.

#[local] Hint Extern 0 (ExecutionStore PgStore.World) => exact (PgStore.pg_store WorkerProps.demo_env) : typeclass_instances.
#[local] Hint Extern 0 (Materializer PgStore.World) => exact (PgStore.pg_materializer WorkerProps.demo_env) : typeclass_instances.
#[local] Hint Extern 0 (Clock PgStore.World) => exact (PgStore.env_clock WorkerProps.demo_env) : typeclass_instances.
#[local] Hint Extern 0 (Worker.Provider PgStore.World) =>
  exact {| Worker.prov_Complete _ _ _ := ([Worker.Beat], Ok (Worker.mkCompletionResult "done")) |} : typeclass_instances.

Definition executions : Sink := NewReconnectingSink ExecutionQueue.

Lemma dispatches_arrive_witness :
  exists w', ExecutionPublisher calm_bus executions WorkerProps.demo_msg (queues_of [ExecutionQueue]) = (Ok tt, w') /\
    lands executions (queues_of [ExecutionQueue]) w' (fun d =>
      process (fun e => newExecutionHandler WorkerProps.demo_worker (as_dispatch e)) d WorkerProps.demo_ready =
      processMessage (newExecutionHandler WorkerProps.demo_worker) (Some exec_message) WorkerProps.demo_ready).
Proof.
  destruct (ExecutionPublisher calm_bus executions WorkerProps.demo_msg (queues_of [ExecutionQueue])) as [r w'] eqn:Hr.
  assert (r = Ok tt) as -> by (change r with (r, w').1; rewrite <-Hr; vm_compute; reflexivity).
  destruct (dispatches_arrive calm_bus executions WorkerProps.demo_msg (queues_of [ExecutionQueue]) (Ok tt) w' WorkerProps.demo_worker WorkerProps.demo_ready)
    as [_ Hl]; [by vm_compute|by vm_compute|exact Hr|].
  exists w'. split; [reflexivity|]. apply Hl; [reflexivity|reflexivity|vm_compute; by eexists].
Defined.

Definition completion : DecisionRecord := mkDecision "ai.complete" "Replaceability" "success" "7" 3 4.

Lemma observations_change_nothing_witness :
  exists w', DecisionSink calm_bus events completion (queues_of ["events"]) = (Ok tt, w') /\ lands events (queues_of ["events"]) w' (fun d =>
    process (fun e => newHandler uuid_Parse calm_env plain_caps (Some plain_port) (as_event e)) d created_world = (Ack, created_world)).
Proof.
  destruct (DecisionSink calm_bus events completion (queues_of ["events"])) as [r w'] eqn:Hr.
  assert (r = Ok tt) as -> by (change r with (r, w').1; rewrite <-Hr; vm_compute; reflexivity).
  destruct (observations_change_nothing calm_bus events (queues_of ["events"]) (Ok tt) w' calm_env plain_caps (Some plain_port) created_world)
    as [_ Hd].
  destruct (Hd completion) as [E|Hl]; [by vm_compute|by vm_compute|by vm_compute|exact Hr| |].
  - exfalso. assert (w' = (DecisionSink calm_bus events completion (queues_of ["events"])).2) as -> by (by rewrite Hr). by vm_compute in E.
  - exists w'. split; [reflexivity|exact Hl].
Defined.

(** A publication the client reports as sent and the broker never took: the
    command is lost, and nobody is told. *)
Example reported_and_lost :
  let '(r, w) := PipelineEventSink (fun n => mkBusTick 100 0 None None false) events "pipeline.research" 1 7 "research" "" "" (queues_of ["events"]) in
  r = Ok tt /\ qs_queues w !! "events" = Some [].
Proof. vm_compute. by split. Qed.

(** A reconnecting sink without a name publishes to no queue, while its
    connection declares the default one: nothing arrives and nothing fails. *)
Example unnamed_queue_loses_messages :
  let s := NewReconnectingSink "" in
  let '(r, w) := PipelineEventSink calm_bus s "pipeline.research" 1 7 "research" "" "" (queues_of [newReconnector ""]) in
  r = Ok tt /\ qs_queues w !! newReconnector "" = Some [].
Proof. vm_compute. by split. Qed.
