(* ===== verification/Reconnector.v ===== *)
(** * infrastructure/rabbitmq/reconnect.go: the supervised connection of a sink

    [reconnector] as a step relation: the supervising goroutine, the callers,
    and a broker that closes connections when it likes.  A connection is the
    number of its dial. *)

From stdpp Require Import gmap.
From S2P Require Import Prelude Backoff.

(** Where the goroutine of [supervise] stands: at the top of its loop; in the
    select over [NotifyClose] and [stop]; before a redial; dialling; with a new
    connection not yet set; in the pause. *)
Inductive Pc : Type := Top | Watch (c : nat) | Retry | Dialling | Dialled (c : nat) | Pause | Done.

(** [st_closing] is the connection a [close] has taken out and not yet closed;
    [st_live] the connections open at the broker, [st_next] the dials so far. *)
Record State : Type := mkState {
  st_conn : option nat; st_stopped : bool; st_closing : option nat;
  st_pc : Pc; st_delay : duration;
  st_live : gset nat; st_next : nat
}.

(** [newReconnector], its first dial having succeeded *)
Definition newReconnector : State := mkState (Some 0) false None Top redialBase {[0]} 1.

Definition at_pc (pc : Pc) (s : State) : State :=
  mkState (st_conn s) (st_stopped s) (st_closing s) pc (st_delay s) (st_live s) (st_next s).
Definition pause (s : State) : State :=
  mkState (st_conn s) (st_stopped s) (st_closing s) Retry (next_redial (st_delay s)) (st_live s) (st_next s).
(** A dial that succeeds. *)
Definition dialled (s : State) : State :=
  mkState (st_conn s) (st_stopped s) (st_closing s) (Dialled (st_next s)) redialBase ({[st_next s]} ∪ st_live s) (S (st_next s)).
Definition setConn (c : nat) (s : State) : State :=
  mkState (Some c) (st_stopped s) (st_closing s) Top (st_delay s) (st_live s) (st_next s).
(** [close]: its critical section, and the closing of the connection. *)
Definition close (s : State) : State :=
  if st_stopped s then s else mkState None true (st_conn s) (st_pc s) (st_delay s) (st_live s) (st_next s).
Definition hang_up (c : nat) (s : State) : State :=
  mkState (st_conn s) (st_stopped s) (if decide (st_closing s = Some c) then None else st_closing s) (st_pc s) (st_delay s) (st_live s ∖ {[c]}) (st_next s).

(** What [supervise] does next. *)
Inductive supervise (s : State) : State -> Prop :=
| sup_current c : st_pc s = Top -> st_conn s = Some c -> supervise s (at_pc (Watch c) s)
| sup_closed : st_pc s = Top -> st_conn s = None -> supervise s (at_pc Done s)
| sup_notified c : st_pc s = Watch c -> c ∉ st_live s -> supervise s (at_pc Retry s)
| sup_stopped c : st_pc s = Watch c -> st_stopped s = true -> supervise s (at_pc Done s)
| sup_stop_retry : st_pc s = Retry -> st_stopped s = true -> supervise s (at_pc Done s)
| sup_retry : st_pc s = Retry -> st_stopped s = false -> supervise s (at_pc Dialling s)
| sup_dialled : st_pc s = Dialling -> supervise s (dialled s)
| sup_set c : st_pc s = Dialled c -> supervise s (setConn c s)
| sup_refused : st_pc s = Dialling -> supervise s (at_pc Pause s)
| sup_stop_pause : st_pc s = Pause -> st_stopped s = true -> supervise s (at_pc Done s)
| sup_paused : st_pc s = Pause -> supervise s (pause s).

Inductive step (s : State) : State -> Prop :=
| step_supervise s' : supervise s s' -> step s s'
| step_close : step s (close s)
| step_hang_up c : st_closing s = Some c -> step s (hang_up c s)
| step_broken c : c ∈ st_live s -> step s (hang_up c s).

Definition reachable : State -> Prop := rtc step newReconnector.

(** [channel]: whether a publish channel can be opened. *)
Definition channel (s : State) : bool := match st_conn s with Some c => bool_decide (c ∈ st_live s) | None => false end.

(** *** While it is open *)

(** The connections known to someone. *)
Definition held (s : State) (c : nat) : Prop := st_conn s = Some c \/ st_closing s = Some c \/ st_pc s = Dialled c.

(** A replaced connection is dead: redialling starts from a dead one. *)
Definition replaced (s : State) : Prop :=
  match st_pc s with
  | Retry | Dialling | Dialled _ | Pause => forall c, st_conn s = Some c -> c ∉ st_live s
  | Watch c => forall c', st_conn s = Some c' -> c' = c
  | _ => True
  end.

Record inv (s : State) : Prop := mkInv {
  inv_fresh : forall c, c ∈ st_live s -> c < st_next s;
  inv_conn_fresh : forall c, st_conn s = Some c \/ st_pc s = Dialled c -> c < st_next s;
  inv_delay : (redialBase <= st_delay s <= redialMax)%Z;
  inv_open : st_stopped s = false -> is_Some (st_conn s) /\ st_pc s <> Done /\ st_closing s = None;
  inv_replaced : replaced s;
  inv_held : forall c, c ∈ st_live s -> held s c
}.

Ltac members := repeat match goal with
  | H : context [_ ∈ _ ∪ _] |- _ => rewrite elem_of_union in H
  | H : context [_ ∈ {[ _ ]}] |- _ => rewrite elem_of_singleton in H
  | H : context [_ ∈ _ ∖ _] |- _ => rewrite elem_of_difference in H
  | |- context [_ ∈ _ ∪ _] => rewrite elem_of_union
  | |- context [_ ∈ {[ _ ]}] => rewrite elem_of_singleton
  | |- context [_ ∈ _ ∖ _] => rewrite elem_of_difference
  end.

Lemma sink_inv_init : inv newReconnector.
Proof. split; unfold newReconnector, replaced, held; cbn; intros; try done; members; naive_solver lia. Qed.

(** What is left of a step, field by field. *)
Ltac open_case Ho := let Hst := fresh in intros Hst; destruct (Ho Hst) as (? & ? & ?); repeat split; first [congruence | eauto].
Ltac held_case Hh := let c := fresh in let Hin := fresh in intros c Hin; destruct (Hh c Hin) as [?|[?|?]]; simplify_eq; eauto.
Ltac fresh_case Hc := intros ? [?|?]; simplify_eq; auto.

Lemma supervise_sink_inv s s' : inv s -> supervise s s' -> inv s'.
Proof.
  intros [Hf Hc Hd Ho Hr Hh] Hs. destruct s as [conn stopped closing pc delay live nxt]. unfold replaced, held in *. cbn in *.
  destruct Hs; cbn in *; subst; (split; unfold replaced, held; cbn);
    try solve [exact Hd | exact I | exact Hf | exact Hr | open_case Ho | held_case Hh | fresh_case Hc | congruence].
  - intros Hst. by destruct (Ho Hst) as ([] & _).
  - intros c' E. by rewrite (Hr c' E).
  - intros c [Hin| Hin%Hf]%elem_of_union; [apply elem_of_singleton in Hin as ->|]; lia.
  - intros c [E|[= <-]]; [specialize (Hc c (or_introl E))|]; lia.
  - done.
  - intros c E [Hin|Hin]%elem_of_union; [|by apply (Hr c)]. apply elem_of_singleton in Hin as ->. specialize (Hc nxt (or_introl E)). lia.
  - intros c [Hin|Hin]%elem_of_union; [apply elem_of_singleton in Hin as ->; by right; right|].
    destruct (Hh c Hin) as [?|[?|?]]; [by left|by right; left|done].
  - intros c' Hin. destruct (Hh c' Hin) as [E|[?|[= <-]]]; [by destruct (Hr c' E)|by right; left|by left].
  - by apply redial_step.
Qed.

Lemma hang_up_inv c s : inv s -> inv (hang_up c s).
Proof.
  intros [Hf Hcf Hd Ho Hr Hh]. destruct s as [conn stopped closing pc delay live nxt]. unfold hang_up, replaced, held in *. cbn in *.
  split; unfold replaced, held; cbn.
  - intros c' [Hin _]%elem_of_difference. by apply Hf.
  - exact Hcf.
  - exact Hd.
  - intros Hst. destruct (Ho Hst) as (? & ? & ->). by case_decide.
  - destruct pc; try done; intros c' E Hin; apply elem_of_difference in Hin as [Hin _]; by apply (Hr c').
  - intros c' [Hin Hne]%elem_of_difference. destruct (Hh c' Hin) as [?|[->|?]]; [by left| |by right; right].
    case_decide; [simplify_eq; set_solver|by right; left].
Qed.

Lemma sink_step_inv s s' : inv s -> step s s' -> inv s'.
Proof.
  intros Hi Hs. destruct Hs as [s' Hs| |c _|c _]; [by eapply supervise_sink_inv| |by apply hang_up_inv..].
  destruct s as [conn [] closing pc delay live nxt]; [done|]. destruct Hi as [Hf Hc Hd Ho Hr Hh]. unfold close, replaced, held in *. cbn in *.
  destruct (Ho eq_refl) as (_ & _ & ->).
  split; unfold replaced, held; cbn; [exact Hf|fresh_case Hc|exact Hd|done|destruct pc; done|held_case Hh].
Qed.

Lemma reachable_sink_inv s : reachable s -> inv s.
Proof. unfold reachable. generalize sink_inv_init. generalize newReconnector. induction 2 as [|x y z Hxy _ IH]; [done|]. by eapply IH, sink_step_inv. Qed.

(** *** Recovery *)

(** The supervisor's own way back, if its next dial succeeds. *)
Lemma redial_sink s : st_pc s = Dialling -> exists s', rtc supervise s s' /\ channel s' = true.
Proof.
  intros Hp. exists (setConn (st_next s) (dialled s)). split.
  - eapply rtc_l; [by apply sup_dialled|]. by apply rtc_once, sup_set.
  - unfold channel. cbn. apply bool_decide_eq_true. set_solver.
Qed.
Lemma retry_sink s : st_pc s = Retry -> st_stopped s = false -> exists s', rtc supervise s s' /\ channel s' = true.
Proof.
  intros Hp Hs. destruct (redial_sink (at_pc Dialling s)) as (s' & Hr & Hc); [done|]. exists s'. split; [|done].
  eapply rtc_l; [by apply sup_retry|done].
Qed.
Lemma watching_sink s c : st_pc s = Watch c -> st_conn s = Some c -> st_stopped s = false -> exists s', rtc supervise s s' /\ channel s' = true.
Proof.
  intros Hp Hcn Hs. destruct (decide (c ∈ st_live s)) as [Hl|Hl].
  - exists s. split; [done|]. unfold channel. rewrite Hcn. by apply bool_decide_eq_true.
  - destruct (retry_sink (at_pc Retry s)) as (s' & Hr & Hc); [done|done|]. exists s'. split; [|done].
    eapply rtc_l; [by eapply sup_notified|done].
Qed.

(** An open sink recovers.  However the broker closes connections, until
    [close] is called the supervisor is never done, it pauses between half a
    second and five, no connection is open but the current one and the one just
    dialled, and by its own steps alone - one more dial at most - it comes to
    where a channel can be opened. *)
Theorem open_sink_recovers s : reachable s -> st_stopped s = false ->
  st_pc s <> Done /\ (redialBase <= st_delay s <= redialMax)%Z /\
  (forall c, c ∈ st_live s -> st_conn s = Some c \/ st_pc s = Dialled c) /\
  exists s', rtc supervise s s' /\ channel s' = true.
Proof.
  intros Hr Hs. pose proof (reachable_sink_inv s Hr) as [Hf Hc Hd Ho Hre Hh]. destruct (Ho Hs) as ([c Hcn] & Hp & Hcl).
  split; [done|]. split; [done|]. split.
  - intros c' Hin. destruct (Hh c' Hin) as [?|[?|?]]; [by left|congruence|by right].
  - unfold replaced in Hre. destruct (st_pc s) as [|c'| | |c'| |] eqn:Epc; [| | | | | |done].
    + destruct (watching_sink (at_pc (Watch c) s) c) as (s' & Hr' & Hch); [done..|]. exists s'. split; [|done].
      eapply rtc_l; [by apply sup_current|done].
    + assert (c = c') as -> by (by apply Hre). by apply (watching_sink s c').
    + by apply retry_sink.
    + by apply redial_sink.
    + destruct (watching_sink (at_pc (Watch c') (setConn c' s)) c') as (s' & Hr' & Hch); [done..|]. exists s'. split; [|done].
      eapply rtc_l; [by apply sup_set|]. eapply rtc_l; [by apply (sup_current _ c')|done].
    + destruct (retry_sink (pause s)) as (s' & Hr' & Hch); [done|done|]. exists s'. split; [|done].
      eapply rtc_l; [by apply sup_paused|done].
Qed.

(** *** Closing *)

Definition dialling (s : State) : bool := match st_pc s with Dialling | Dialled _ => true | _ => false end.

(** A sink closed while no dial is under way stays closed. *)
Theorem closed_between_dials_is_final s s' : reachable s -> st_stopped s = true -> st_conn s = None -> dialling s = false ->
  rtc step s s' -> st_conn s' = None /\ channel s' = false.
Proof.
  intros _ Hs Hc Hd Hr. enough (st_stopped s' = true /\ st_conn s' = None /\ dialling s' = false) as (_ & E & _).
  { split; [done|]. unfold channel. by rewrite E. }
  revert Hs Hc Hd. induction Hr as [|s s1 s2 Hst _ IH]; [done|]. intros Hs Hc Hd. apply IH; clear IH;
    (destruct Hst as [s1 Hst| |c _|c _]; [destruct Hst; unfold dialling, pause in *; simpl in *; try rewrite -> H in *; congruence| | |]);
    unfold close; try rewrite Hs; done.
Qed.

(** A close that overlaps a dial is undone by it: the supervisor sets the new
    connection and only then notices, the closed sink publishes again, its
    connection is never closed and a second close does nothing. *)
Example close_during_dial_leaks :
  exists s, reachable s /\ st_stopped s = true /\ st_pc s = Done /\ channel s = true /\ close s = s.
Proof.
  pose (lost := at_pc Dialling (at_pc Retry (hang_up 0 (at_pc (Watch 0) newReconnector)))).
  exists (at_pc Done (at_pc (Watch 1) (setConn 1 (hang_up 0 (close (dialled lost)))))).
  split; [|by vm_compute].
  eapply rtc_l; [apply step_supervise, (sup_current _ 0); reflexivity|].
  eapply rtc_l; [apply (step_broken _ 0); set_solver|].
  eapply rtc_l; [apply step_supervise, (sup_notified _ 0); [reflexivity|set_solver]|].
  eapply rtc_l; [by apply step_supervise, sup_retry|].
  eapply rtc_l; [by apply step_supervise, sup_dialled|].
  eapply rtc_l; [apply step_close|].
  eapply rtc_l; [by apply step_hang_up|].
  eapply rtc_l; [by apply step_supervise, sup_set|].
  eapply rtc_l; [by apply step_supervise, (sup_current _ 1)|].
  apply rtc_once. apply step_supervise, (sup_stopped _ 1); reflexivity.
Qed.

(** *** At work *)

Lemma open_sink_recovers_witness : exists s', rtc supervise (hang_up 0 newReconnector) s' /\ channel s' = true.
Proof.
  destruct (open_sink_recovers (hang_up 0 newReconnector)) as (_ & _ & _ & Hr).
  - apply rtc_once, (step_broken _ 0). vm_compute. reflexivity.
  - reflexivity.
  - exact Hr.
Defined.

Lemma closed_between_dials_is_final_witness :
  channel (hang_up 0 (close newReconnector)) = false.
Proof.
  apply (closed_between_dials_is_final (close newReconnector)).
  - apply rtc_once, step_close.
  - reflexivity.
  - reflexivity.
  - reflexivity.
  - apply rtc_once, step_hang_up. reflexivity.
Defined.
