(* ===== verification/Consumption.v ===== *)
(** * internal/worker/worker.go: the supervised consumer

    [Worker] as a step relation: the supervising goroutine, the goroutines that
    take messages, [Stop], and a broker that closes connections, and channels or
    consumers alone, when it likes.  A connection is the number of its dial. *)

From stdpp Require Import gmap.
From S2P Require Import Prelude.

Definition maxReconnectDelay : duration := (30 * Second)%Z.
Definition next_reconnect (delay : duration) : duration :=
  let d := wrap64 (delay * 2) in if (maxReconnectDelay <? d)%Z then maxReconnectDelay else d.

(** Where [supervise] stands: at the top; in the select over the closing of the
    connection, of the consumer and of [stopCh]; about to drop the connection;
    in the pause of [reconnectLoop]; in [dial]; with a dialled connection whose
    consumer runs, not yet set. *)
Inductive Pc : Type := Top | Watch (c : nat) | Drop | Pause | Dialling | Dialled (c : nat) | Done.
(** Where [Stop] stands: not called; with [stopCh] closed; waiting for the
    supervisor; returned. *)
Inductive StopPc : Type := NotCalled | Stopping | Waiting | Returned.
#[export] Instance StopPc_eq_dec : EqDecision StopPc.
Proof. solve_decision. Defined.

(** [st_consuming]: the connections whose consumer goroutine runs; [st_closed]:
    those whose channel or consumer the broker closed, the connection apart. *)
Record State : Type := mkState {
  st_conn : option nat; st_pc : Pc; st_stop : StopPc; st_delay : duration;
  st_live : gset nat; st_consuming : gset nat; st_next : nat; st_closed : gset nat
}.

(** [Start], its dial having succeeded *)
Definition Start (reconnectDelay : duration) : State := mkState (Some 0) Top NotCalled reconnectDelay {[0]} {[0]} 1 ∅.

Definition at_pc (pc : Pc) (s : State) : State :=
  mkState (st_conn s) pc (st_stop s) (st_delay s) (st_live s) (st_consuming s) (st_next s) (st_closed s).
Definition with_delay (d : duration) (s : State) : State :=
  mkState (st_conn s) (st_pc s) (st_stop s) d (st_live s) (st_consuming s) (st_next s) (st_closed s).
Definition at_stop (p : StopPc) (s : State) : State :=
  mkState (st_conn s) (st_pc s) p (st_delay s) (st_live s) (st_consuming s) (st_next s) (st_closed s).
Definition dropConnection (s : State) : State :=
  mkState None (st_pc s) (st_stop s) (st_delay s) (match st_conn s with Some c => st_live s ∖ {[c]} | None => st_live s end) (st_consuming s) (st_next s) (st_closed s).
(** [dial], up to the critical section that sets the connection, and it. *)
Definition dialled (s : State) : State :=
  mkState (st_conn s) (Dialled (st_next s)) (st_stop s) (st_delay s) ({[st_next s]} ∪ st_live s) ({[st_next s]} ∪ st_consuming s) (S (st_next s)) (st_closed s).
Definition install (c : nat) (s : State) : State :=
  mkState (Some c) Top (st_stop s) (st_delay s) (st_live s) (st_consuming s) (st_next s) (st_closed s).
Definition broken (c : nat) (s : State) : State :=
  mkState (st_conn s) (st_pc s) (st_stop s) (st_delay s) (st_live s ∖ {[c]}) (st_consuming s) (st_next s) (st_closed s).
Definition channel_closed (c : nat) (s : State) : State :=
  mkState (st_conn s) (st_pc s) (st_stop s) (st_delay s) (st_live s) (st_consuming s) (st_next s) ({[c]} ∪ st_closed s).
Definition consumer_ends (c : nat) (s : State) : State :=
  mkState (st_conn s) (st_pc s) (st_stop s) (st_delay s) (st_live s) (st_consuming s ∖ {[c]}) (st_next s) (st_closed s).

Section steps.
Variable reconnectDelay : duration.

Inductive supervise (s : State) : State -> Prop :=
| sup_current c : st_pc s = Top -> st_conn s = Some c -> supervise s (at_pc (Watch c) s)
| sup_none : st_pc s = Top -> st_conn s = None -> supervise s (at_pc Done s)
| sup_stopped c : st_pc s = Watch c -> st_stop s <> NotCalled -> supervise s (at_pc Done s)
| sup_closed c : st_pc s = Watch c -> c ∉ st_live s -> supervise s (at_pc Drop s)
| sup_consumer c : st_pc s = Watch c -> c ∉ st_consuming s -> supervise s (at_pc Drop s)
| sup_drop : st_pc s = Drop -> supervise s (with_delay reconnectDelay (at_pc Pause (dropConnection s)))
| sup_stop_pause : st_pc s = Pause -> st_stop s <> NotCalled -> supervise s (at_pc Done s)
| sup_paused : st_pc s = Pause -> supervise s (at_pc Dialling s)
| sup_dialled : st_pc s = Dialling -> supervise s (dialled s)
| sup_refused : st_pc s = Dialling -> supervise s (with_delay (next_reconnect (st_delay s)) (at_pc Pause s))
| sup_install c : st_pc s = Dialled c -> supervise s (install c s).

Inductive step (s : State) : State -> Prop :=
| step_supervise s' : supervise s s' -> step s s'
| step_stop : st_stop s = NotCalled -> step s (at_stop Stopping s)
| step_stop_drop : st_stop s = Stopping -> step s (at_stop Waiting (dropConnection s))
| step_stop_return : st_stop s = Waiting -> step s (at_stop Returned s)
| step_broken c : c ∈ st_live s -> step s (broken c s)
| step_channel_closed c : c ∈ st_live s -> step s (channel_closed c s)
| step_consumer_ends c :
    c ∈ st_consuming s -> c ∉ st_live s \/ c ∈ st_closed s \/ st_stop s <> NotCalled -> step s (consumer_ends c s).

Definition reachable : State -> Prop := rtc step (Start reconnectDelay).

(** A consumer that can take a message. *)
Definition consumes (s : State) (c : nat) : Prop := c ∈ st_consuming s /\ c ∈ st_live s /\ c ∉ st_closed s.
(** The worker takes messages over its current connection. *)
Definition working (s : State) : Prop := exists c, st_conn s = Some c /\ consumes s c.

Record inv (s : State) : Prop := mkInv {
  inv_fresh : forall c, c ∈ st_live s \/ st_conn s = Some c \/ st_pc s = Dialled c -> c < st_next s;
  inv_closed : forall c, c ∈ st_closed s -> c < st_next s;
  inv_running : st_stop s = NotCalled -> st_pc s <> Done /\ forall c, c ∈ st_live s -> c ∈ st_consuming s \/ c ∈ st_closed s;
  inv_conn : st_stop s = NotCalled ->
    match st_pc s with Top | Drop => is_Some (st_conn s) | Watch c => st_conn s = Some c | Pause | Dialling | Dialled _ => st_conn s = None | Done => False end;
  inv_live : forall c, c ∈ st_live s -> st_conn s = Some c \/ st_pc s = Dialled c \/ st_stop s <> NotCalled
}.

Lemma drop_in (conn : option nat) (live : gset nat) c :
  c ∈ match conn with Some c0 => live ∖ {[c0]} | None => live end -> c ∈ live /\ conn <> Some c.
Proof. destruct conn as [c0|]; [|done]. intros [Hin Hne]%elem_of_difference. split; [done|]. intros [= ->]. by apply Hne, elem_of_singleton. Qed.

Lemma inv_start : inv (Start reconnectDelay).
Proof.
  split; cbn.
  - intros c [->%elem_of_singleton|[[= <-]|?]]; [lia|lia|done].
  - intros c Hc. by apply not_elem_of_empty in Hc.
  - intros _. split; [done|]. by left.
  - intros _. by eexists.
  - intros c ->%elem_of_singleton. by left.
Qed.

Lemma supervise_keeps s s' : inv s -> supervise s s' -> inv s'.
Proof.
  intros [Hf Hcl Hr Hc Hl] Hs. destruct s as [conn pc stop delay live cons nxt closed]. cbn in *.
  destruct Hs; cbn in *; subst; (split; cbn;
    [try solve [intros ? [?|[?|?]]; simplify_eq; auto]
    |try exact Hcl
    |try solve [intros Hst; destruct (Hr Hst) as [? ?]; split; [congruence|auto]]
    |try solve [intros Hst; specialize (Hc Hst); destruct (Hr Hst); cbn in *; simplify_eq; auto; by eexists]
    |try solve [intros ? Hin; destruct (Hl _ Hin) as [?|[?|?]]; simplify_eq; auto]]).
  - intros Hst. by destruct (Hc Hst).
  - intros c [[Hin _]%drop_in|[|]]; [by apply Hf; left|done|done].
  - intros Hst. destruct (Hr Hst) as [_ Hlc]. split; [done|]. intros c [Hin _]%drop_in. by apply Hlc.
  - intros c [Hin Hne]%drop_in. destruct (Hl c Hin) as [?|[?|?]]; [done|done|by right; right].
  - intros c [[->%elem_of_singleton|Hin]%elem_of_union|[?|[= <-]]]; [lia| | |lia]; (assert (c < nxt) by auto; lia).
  - intros c Hin. specialize (Hcl c Hin). lia.
  - intros Hst. destruct (Hr Hst) as [_ Hlc]. split; [done|]. intros c. rewrite !elem_of_union. intros [?|Hin]; [by left; left|].
    destruct (Hlc c Hin); auto.
  - intros c [->%elem_of_singleton|Hin]%elem_of_union; [by right; left|]. destruct (Hl c Hin) as [?|[?|?]]; [by left|done|by right; right].
  - intros c' Hin. destruct (Hl c' Hin) as [?|[[= <-]|?]]; [|by left|by right; right].
    destruct (decide (stop = NotCalled)) as [Hst|]; [|by right; right]. specialize (Hc Hst). congruence.
Qed.

Lemma step_keeps s s' : inv s -> step s s' -> inv s'.
Proof.
  intros Hi Hs. destruct Hs as [s' Hs|Hst|Hst|Hst|c Hin|c Hin|c Hin Hwhy]; [by eapply supervise_keeps| | | | | |]; destruct Hi as [Hf Hcl Hr Hc Hl];
    destruct s as [conn pc stop delay live cons nxt closed]; cbn in *; (split; cbn; [try exact Hf|try exact Hcl|try done|try done|]).
  - intros c Hin. by right; right.
  - intros c [[Hin _]%drop_in|[|]]; [by apply Hf; left|done|apply Hf; by right; right].
  - by intros; right; right.
  - by intros; right; right.
  - intros c' [[Hi _]%elem_of_difference|Hi]; apply Hf; [by left|by right].
  - intros E. destruct (Hr E) as [? Hlc]. split; [done|]. intros c' [Hi _]%elem_of_difference. auto.
  - intros c' [Hi _]%elem_of_difference. auto.
  - intros c' [->%elem_of_singleton|Hi]%elem_of_union; [apply Hf; by left|auto].
  - intros E. destruct (Hr E) as [? Hlc]. split; [done|]. intros c' Hi. rewrite elem_of_union. destruct (Hlc c' Hi); auto.
  - exact Hl.
  - intros E. destruct (Hr E) as [? Hlc]. split; [done|]. intros c' Hi. destruct (decide (c' = c)) as [->|Hne].
    + right. by destruct Hwhy as [?|[?|?]].
    + destruct (Hlc c' Hi) as [?|?]; [left; set_solver|by right].
  - exact Hl.
Qed.

Lemma reachable_keeps s : reachable s -> inv s.
Proof. unfold reachable. generalize inv_start. generalize (Start reconnectDelay). induction 2 as [|x y z Hxy _ IH]; [done|]. by eapply IH, step_keeps. Qed.

(** *** The way back to work *)

Lemma redial_works s : st_pc s = Pause -> st_next s ∉ st_closed s -> exists s', rtc supervise s s' /\ working s'.
Proof.
  intros Hp Hn. exists (install (st_next s) (dialled (at_pc Dialling s))). split.
  - eapply rtc_l; [by apply sup_paused|]. eapply rtc_l; [by apply sup_dialled|]. by apply rtc_once, sup_install.
  - exists (st_next s). split; [done|]. unfold consumes. cbn. set_solver.
Qed.
Lemma dropping s : st_pc s = Drop -> st_next s ∉ st_closed s -> exists s', rtc supervise s s' /\ working s'.
Proof.
  intros Hp Hn. destruct (redial_works (with_delay reconnectDelay (at_pc Pause (dropConnection s)))) as (s' & Hr & Hw); [done..|].
  exists s'. split; [|done]. eapply rtc_l; [by apply sup_drop|done].
Qed.

(** The consumer of a closed channel has ended. *)
Definition noticed (c : nat) (s : State) : Prop := c ∉ st_consuming s \/ c ∉ st_closed s.

Lemma watching_works s c : st_pc s = Watch c -> st_conn s = Some c -> noticed c s -> st_next s ∉ st_closed s ->
  exists s', rtc supervise s s' /\ working s'.
Proof.
  intros Hp Hcn Hno Hn. destruct (decide (c ∈ st_live s)) as [Hl|Hl]; [destruct (decide (c ∈ st_consuming s)) as [Hc|Hc]|].
  - exists s. split; [done|]. exists c. split; [done|]. by destruct Hno.
  - destruct (dropping (at_pc Drop s)) as (s' & Hr & Hw); [done..|]. exists s'. split; [|done]. eapply rtc_l; [by eapply sup_consumer|done].
  - destruct (dropping (at_pc Drop s)) as (s' & Hr & Hw); [done..|]. exists s'. split; [|done]. eapply rtc_l; [by eapply sup_closed|done].
Qed.

(** Nothing happens, or a consumer whose channel the broker closed ends. *)
Definition notices (s s' : State) : Prop :=
  s' = s \/ exists c, c ∈ st_consuming s /\ c ∈ st_closed s /\ s' = consumer_ends c s.

Lemma notice s c : exists s', notices s s' /\ noticed c s' /\ st_pc s' = st_pc s /\ st_conn s' = st_conn s /\
  st_next s' = st_next s /\ st_closed s' = st_closed s.
Proof.
  destruct (decide (c ∈ st_consuming s /\ c ∈ st_closed s)) as [[H1 H2]|H].
  - exists (consumer_ends c s). split_and!; [right; by exists c|left; cbn; set_solver|done..].
  - exists s. split_and!; [by left| |done..]. unfold noticed. destruct (decide (c ∈ st_consuming s)); [right|by left]. tauto.
Qed.

Lemma notices_step s s' : notices s s' -> rtc step s s'.
Proof. intros [->|(c & H1 & H2 & ->)]; [done|]. apply rtc_once, step_consumer_ends; auto. Qed.

(** C21. A worker works until it is stopped.  However the broker closes connections,
    channels and consumers, until [Stop] is called the supervisor is never done,
    no connection is open but the current one and the one just dialled, each
    with its consumer unless the broker closed its channel; and once the consumer
    of a closed channel has ended, if there is one, the supervisor by its own
    steps alone, with one more dial, comes to where the worker takes messages
    over its connection. *)
Theorem worker_recovers s : reachable s -> st_stop s = NotCalled ->
  st_pc s <> Done /\
  (forall c, c ∈ st_live s -> (c ∈ st_consuming s \/ c ∈ st_closed s) /\ (st_conn s = Some c \/ st_pc s = Dialled c)) /\
  exists s0 s', notices s s0 /\ rtc step s s0 /\ rtc supervise s0 s' /\ working s'.
Proof.
  intros Hre Hst. pose proof (reachable_keeps s Hre) as [Hf Hcl Hr Hc Hl]. destruct (Hr Hst) as [Hd Hlc]. specialize (Hc Hst). split; [done|]. split.
  { intros c Hin. split; [auto|]. destruct (Hl c Hin) as [?|[?|?]]; [by left|by right|done]. }
  assert (st_next s ∉ st_closed s) as Hn by (intros Hin; specialize (Hcl _ Hin); lia).
  enough (exists s0 s', notices s s0 /\ rtc supervise s0 s' /\ working s') as (s0 & s' & ? & ? & ?).
  { exists s0, s'. eauto using notices_step. }
  destruct (st_pc s) as [|c| | | |c|] eqn:Ep; [|destruct (notice s c) as (s0 & Hno & Hnc & E1 & E2 & E3 & E4)| | | |destruct (notice s c) as (s0 & Hno & Hnc & E1 & E2 & E3 & E4)|done].
  - destruct Hc as [c Hcn]. destruct (notice s c) as (s0 & Hno & Hnc & E1 & E2 & E3 & E4).
    destruct (watching_works (at_pc (Watch c) s0) c) as (s' & Hr' & Hw); [done|cbn; congruence|done|cbn; by rewrite E3, E4|].
    exists s0, s'. split_and!; [done| |done]. eapply rtc_l; [eapply (sup_current _ c); congruence|done].
  - destruct (watching_works s0 c) as (s' & Hr' & Hw); [congruence|congruence|done|by rewrite E3, E4|]. by exists s0, s'.
  - destruct (dropping s) as (s' & Hr' & Hw); [done..|]. exists s, s'. split_and!; [by left|done..].
  - destruct (redial_works s) as (s' & Hr' & Hw); [done..|]. exists s, s'. split_and!; [by left|done..].
  - destruct (redial_works (with_delay (next_reconnect (st_delay s)) (at_pc Pause s))) as (s' & Hr' & Hw); [done..|].
    exists s, s'. split_and!; [by left| |done]. eapply rtc_l; [by apply sup_refused|done].
  - destruct (watching_works (at_pc (Watch c) (install c s0)) c) as (s' & Hr' & Hw); [done|done|done|cbn; by rewrite E3, E4|].
    exists s0, s'. split_and!; [done| |done]. eapply rtc_l; [apply (sup_install s0 c); congruence|]. eapply rtc_l; [by apply (sup_current _ c)|done].
Qed.

(** The pause stays positive and at most half a minute when the configured one
    is. *)
Lemma pause_bounded s : (0 < reconnectDelay <= maxReconnectDelay)%Z -> reachable s -> (0 < st_delay s <= maxReconnectDelay)%Z.
Proof.
  intros Hb. assert (forall d, (0 < d <= maxReconnectDelay)%Z -> (0 < next_reconnect d <= maxReconnectDelay)%Z) as Hn.
  { intros d Hd. assert (maxReconnectDelay = 30000000000)%Z as E by done. unfold next_reconnect.
    rewrite wrap64_id by (unfold in_int64; lia). destruct (Z.ltb_spec maxReconnectDelay (d * 2)); lia. }
  unfold reachable. assert (0 < st_delay (Start reconnectDelay) <= maxReconnectDelay)%Z as Hi by done. revert Hi.
  generalize (Start reconnectDelay). induction 2 as [|x y z Hxy _ IH]; [done|]. apply IH.
  destruct Hxy as [y Hs| | | | | |]; try done. destruct Hs; try done. cbn. by apply Hn.
Qed.
End steps.

(** A stop that overlaps a dial is undone by it: [Stop] has returned, the
    supervisor has ended, and a connection that nobody will close still takes
    messages. *)
Example stop_during_dial_leaks :
  exists s, reachable Second s /\ st_stop s = Returned /\ st_pc s = Done /\ working s.
Proof.
  pose (lost := at_pc Dialling (with_delay Second (at_pc Pause (dropConnection (at_pc Drop (broken 0 (at_pc (Watch 0) (Start Second)))))))).
  exists (at_pc Done (at_pc (Watch 1) (install 1 (at_stop Returned (at_stop Waiting (dropConnection (at_stop Stopping (dialled lost)))))))).
  split; [|split_and!; [done|done|exists 1; split; [done|]; by vm_compute]].
  eapply rtc_l; [apply step_supervise, (sup_current _ _ 0); reflexivity|].
  eapply rtc_l; [apply (step_broken _ _ 0); set_solver|].
  eapply rtc_l; [apply step_supervise, (sup_closed _ _ 0); [reflexivity|set_solver]|].
  eapply rtc_l; [by apply step_supervise, sup_drop|].
  eapply rtc_l; [by apply step_supervise, sup_paused|].
  eapply rtc_l; [by apply step_supervise, sup_dialled|].
  eapply rtc_l; [by apply step_stop|].
  eapply rtc_l; [by apply step_stop_drop|].
  eapply rtc_l; [by apply step_stop_return|].
  eapply rtc_l; [by apply step_supervise, sup_install|].
  eapply rtc_l; [by apply step_supervise, (sup_current _ _ 1)|].
  apply rtc_once. by apply step_supervise, (sup_stopped _ _ 1).
Qed.

(** Without a pause the supervisor redials as fast as it can. *)
Example no_delay_never_pauses n : Nat.iter n next_reconnect 0%Z = 0%Z.
Proof. induction n as [|n IH]; [done|]. simpl. by rewrite IH. Qed.

(** *** At work *)

(** The broker closes the channel of the first connection, and the connection
    stays open. *)
Lemma worker_recovers_witness : exists s0 s',
  notices (channel_closed 0 (Start Second)) s0 /\ rtc (supervise Second) s0 s' /\ working s'.
Proof.
  destruct (worker_recovers Second (channel_closed 0 (Start Second))) as (_ & _ & s0 & s' & Hn & _ & Hr & Hw).
  - apply rtc_once, (step_channel_closed _ _ 0). vm_compute. reflexivity.
  - reflexivity.
  - exists s0, s'. exact (conj Hn (conj Hr Hw)).
Defined.
