(* ===== verification/Health.v ===== *)
(** * Heartbeats and readiness: infrastructure/postgres/heartbeats.go,
    internal/health/heartbeat.go, heartbeat.go, cmd/worker/heartbeat.go and the
    readiness endpoint of main.go

    The processes other processes depend on leave a row in [process_heartbeats];
    the readiness of an API process is what it reads back. *)

From S2P Require Import Prelude GoLib GoText Config Http.

(** ** The table *)

(** Keyed by role and instance. *)
Record BeatRow : Type := mkBeat { bt_StartedAt : time; bt_LastSeenAt : time }.
Abbreviation BeatDB := (gmap (string * string) BeatRow).

(** What PostgreSQL makes of [staleAfter.Seconds() * INTERVAL '1 second']. *)
Class SqlInterval : Type := sql_interval : duration -> duration.

Inductive BeatStep : Type := Registering | Pruning | Beating | Reading.
(** The error a statement of that step is wrapped in. *)
Inductive beat_err : Type := ErrBeat (step : BeatStep) (role : string) (cause : string).

Record World : Type := mkWorld { w_beats : BeatDB; w_at : nat }.

Record RoleLiveness : Type := mkLiveness { rl_Role : string; rl_FreshInstances : Z; rl_LastSeen : option time }.
Definition Fresh (l : RoleLiveness) : bool := (0 <? rl_FreshInstances l)%Z.

(** INSERT ... ON CONFLICT (role, instance_id) DO UPDATE SET started_at = NOW() *)
Definition upsert_beat (key : string * string) (now : time) (db : BeatDB) : BeatDB :=
  <[key := mkBeat now (match db !! key with Some b => bt_LastSeenAt b | None => now end)]> db.

Definition fresh_row (now : time) (window : duration) (b : BeatRow) : bool := (now - window <=? bt_LastSeenAt b)%Z.

(** DELETE ... WHERE role = $1 AND last_seen_at < NOW() - ... *)
Definition prune_beats (role : string) (window : duration) (now : time) (db : BeatDB) : BeatDB :=
  filter (fun kv => negb (String.eqb kv.1.1 role && negb (fresh_row now window kv.2)) = true) db.

(** UPDATE ... SET last_seen_at = NOW(), with the rows it affected. *)
Definition refresh_beat (key : string * string) (now : time) (db : BeatDB) : Z * BeatDB :=
  match db !! key with
  | Some b => (1%Z, <[key := mkBeat (bt_StartedAt b) now]> db)
  | None => (0%Z, db)
  end.

Definition beats_of (role : string) (db : BeatDB) : list BeatRow :=
  map snd (filter (fun kv => String.eqb kv.1.1 role = true) (map_to_list db)).
Definition latest (l : list BeatRow) : option time :=
  foldr (fun b o => Some (match o with Some t => Z.max (bt_LastSeenAt b) t | None => bt_LastSeenAt b end)) None l.
(** SELECT COUNT( * ) FILTER (WHERE last_seen_at >= NOW() - ...), MAX(last_seen_at) *)
Definition read_liveness (role : string) (window : duration) (now : time) (db : BeatDB) : RoleLiveness :=
  mkLiveness role (Z.of_nat (length (filter (fun b => fresh_row now window b = true) (beats_of role db)))) (latest (beats_of role db)).

Definition fallbackInstanceID (pid : Z) : string := "pid-" +:+ strconv_Itoa pid.
(** [os.Hostname] gives no name when it fails. *)
Definition InstanceID (host : option string) (pid : Z) : string :=
  match host with Some h => if empty h then fallbackInstanceID pid else h | None => fallbackInstanceID pid end.

Section store.
Context `{SqlInterval}.
Variable env : nat -> TxTick BeatDB.
Variable pid : Z.

(** One statement, committed by itself. *)
Definition stmt {A} (step : BeatStep) (role : string) (op : time -> BeatDB -> A * BeatDB) : act World beat_err A := fun w =>
  let '(r, db) := run_tx (ErrBeat step role) (env (w_at w)) (fun now db => Ok (op now db)) (w_beats w) in (r, mkWorld db (S (w_at w))).

Definition instance_or_fallback (instanceID : string) : string := if empty instanceID then fallbackInstanceID pid else instanceID.

Definition Register (role instanceID : string) (staleAfter : duration) : act World beat_err unit :=
  let id := instance_or_fallback instanceID in
  stmt Registering role (fun now db => (tt, upsert_beat (role, id) now db)) ;;!
  stmt Pruning role (fun now db => (tt, prune_beats role (sql_interval staleAfter) now db)).

Definition Beat (role instanceID : string) : act World beat_err unit :=
  let id := instance_or_fallback instanceID in
  n <~ stmt Beating role (refresh_beat (role, id)) ;;
  if (n =? 0)%Z then Register role id Minute else act_ret tt.

Definition Store_Liveness (role : string) (staleAfter : duration) : act World beat_err RoleLiveness :=
  stmt Reading role (fun now db => (read_liveness role (sql_interval staleAfter) now db, db)).

(** [startHeartbeat]: a failed registration or beat is logged, and the next beat
    is tried on the next tick. *)
Definition beat_loop (role instanceID : string) (ticks : nat) (w : World) : World :=
  Nat.iter ticks (fun w => (Beat role instanceID w).2) w.
Definition startHeartbeat (cfg : Config) (role : string) (host : option string) (ticks : nat) (w : World) : World :=
  let instanceID := InstanceID host pid in
  beat_loop role instanceID ticks (Register role instanceID (c_HeartbeatStaleAfter cfg) w).2.
End store.

(** ** Readiness: internal/health *)

Record RoleStatus : Type := mkRoleStatus { rs_Role : string; rs_Instances : Z; rs_LastSeen : option time }.

Class LivenessReader (S E : Type) : Type := Liveness : string -> duration -> act S E RoleStatus.

Record Report : Type := mkReport {
  rp_Ready : bool; rp_Reason : string; rp_Required : list string; rp_Companions : list RoleStatus; rp_CheckedAt : time
}.
Record Dependency : Type := mkDependency { d_Role : string; d_Required : bool }.
Record Evaluator : Type := mkEvaluator { ev_dependencies : list Dependency; ev_staleAfter : duration; ev_now : time }.

Definition named_status (dep : Dependency) (s : RoleStatus) : RoleStatus :=
  if empty (rs_Role s) then mkRoleStatus (d_Role dep) (rs_Instances s) (rs_LastSeen s) else s.
Definition require_role (dep : Dependency) (r : Report) : Report :=
  if d_Required dep then mkReport (rp_Ready r) (rp_Reason r) (rp_Required r ++ [d_Role dep]) (rp_Companions r) (rp_CheckedAt r) else r.
Definition observe (s : RoleStatus) (r : Report) : Report :=
  mkReport (rp_Ready r) (rp_Reason r) (rp_Required r) (rp_Companions r ++ [s]) (rp_CheckedAt r).
Definition degraded (reason : string) (r : Report) : Report :=
  mkReport false reason (rp_Required r) (rp_Companions r) (rp_CheckedAt r).

Section evaluate.
Context {S E : Type} `{LivenessReader S E}.
Variable staleAfter : duration.

Fixpoint check_dependencies (deps : list Dependency) (report : Report) (s : S) : (Report * option E) * S :=
  match deps with
  | [] => ((report, None), s)
  | dep :: deps =>
      let report := require_role dep report in
      match Liveness (d_Role dep) staleAfter s with
      | (Err e, s) => ((degraded "liveness-unavailable" (observe (mkRoleStatus (d_Role dep) 0 None) report), Some e), s)
      | (Ok status, s) =>
          let status := named_status dep status in
          let report := observe status report in
          let report := if d_Required dep && (rs_Instances status =? 0)%Z then degraded "companion-absent" report else report in
          check_dependencies deps report s
      end
  end.
End evaluate.

Definition Evaluate {S E} `{LivenessReader S E} (e : Evaluator) : S -> (Report * option E) * S :=
  check_dependencies (ev_staleAfter e) (ev_dependencies e) (mkReport true "" [] [] (ev_now e)).

(** ** The endpoint: main.go *)

Record ReadinessBody : Type := mkReadiness {
  rb_Ready : bool; rb_Status : string; rb_Reason : string; rb_Required : list string; rb_Roles : list RoleStatus
}.

Definition readinessStatus (ready : bool) : string := if ready then "ok" else "degraded".
Definition writeReadiness (r : Report) : Response ReadinessBody :=
  Answered (if rp_Ready r then 200 else 503)%Z
    (mkReadiness (rp_Ready r) (readinessStatus (rp_Ready r)) (rp_Reason r) (rp_Required r) (rp_Companions r)).

Section endpoint.
Context `{SqlInterval, RuneLower, MapOrder}.
Variable env : nat -> TxTick BeatDB.

#[export] Instance heartbeatReader : LivenessReader World beat_err := fun role staleAfter =>
  l <~ Store_Liveness env role staleAfter ;; act_ret (mkRoleStatus (rl_Role l) (rl_FreshInstances l) (rl_LastSeen l)).

Definition readinessDeps (cfg : Config) : list Dependency := map (fun role => mkDependency role true) (companionRoles cfg).
Definition newReadinessEvaluator (cfg : Config) (now : time) : Evaluator :=
  mkEvaluator (readinessDeps cfg) (c_HeartbeatStaleAfter cfg) now.

(** GET /health/ready; a check that failed is logged and answered all the same. *)
Definition health_ready (cfg : Config) (now : time) (w : World) : Response ReadinessBody * World :=
  let '((report, _), w) := Evaluate (newReadinessEvaluator cfg now) w in (writeReadiness report, w).
End endpoint.
