(* ===== verification/HealthProps.v ===== *)
(** * What readiness tells

    The endpoint answers 200 exactly when every declared companion could be
    looked up and had a fresh beat; a beat that succeeded is seen for as long as
    it is fresh, whatever other processes register, beat or prune. *)

From S2P Require Import Prelude GoLib GoText Config Http Health.
From S2P Require ConfigProps.

(** ** The table *)

Lemma upsert_own key now db : exists b, upsert_beat key now db !! key = Some b.
Proof. eexists. apply lookup_insert_eq. Qed.

Lemma upsert_new key now db : db !! key = None -> upsert_beat key now db !! key = Some (mkBeat now now).
Proof. unfold upsert_beat. intros ->. apply lookup_insert_eq. Qed.

Lemma prune_Some role window now db key b :
  prune_beats role window now db !! key = Some b <-> db !! key = Some b /\ (key.1 = role -> fresh_row now window b = true).
Proof.
  unfold prune_beats. rewrite map_lookup_filter_Some. simpl. f_equiv.
  rewrite negb_true_iff, andb_false_iff, negb_false_iff, String.eqb_neq.
  destruct (decide (key.1 = role)) as [->|Hne]; naive_solver.
Qed.

Lemma beats_of_spec role db b : b ∈ beats_of role db <-> exists id, db !! (role, id) = Some b.
Proof.
  unfold beats_of. rewrite list_elem_of_fmap. split.
  - intros ([[r id] b'] & -> & [Hr Hin]%list_elem_of_filter). simpl in *. apply String.eqb_eq in Hr as ->.
    exists id. by apply elem_of_map_to_list.
  - intros [id Hb]. exists ((role, id), b). split; [done|]. apply list_elem_of_filter. split; [apply String.eqb_refl|].
    by apply elem_of_map_to_list.
Qed.

(** The count tells whether there is a fresh row. *)
Lemma read_liveness_fresh role window now db :
  rl_FreshInstances (read_liveness role window now db) <> 0%Z <->
  exists id b, db !! (role, id) = Some b /\ (now - window <= bt_LastSeenAt b)%Z.
Proof.
  simpl. set (l := filter _ _). assert (Z.of_nat (length l) <> 0%Z <-> exists b, b ∈ l) as ->.
  { destruct l as [|b l]; simpl; split; [done|by intros [b Hb%not_elem_of_nil]|intros _; exists b; left|lia]. }
  unfold l. split.
  - intros (b & [Hf Hb]%list_elem_of_filter). apply beats_of_spec in Hb as [id Hb]. exists id, b. split; [done|].
    unfold fresh_row in Hf. lia.
  - intros (id & b & Hb & Hf). exists b. apply list_elem_of_filter. split; [unfold fresh_row; lia|apply beats_of_spec; by exists id].
Qed.

(** ** Readiness *)

Section readiness.
Context `{SqlInterval, RuneLower, MapOrder}.
Variable env : nat -> TxTick BeatDB.
#[local] Hint Extern 0 (LivenessReader World _) => exact (heartbeatReader env) : typeclass_instances.

(** The tables a sequence of reads finds: others write in between. *)
Fixpoint table_at (w : World) (i : nat) : BeatDB :=
  match i with
  | 0 => tt_others (env (w_at w)) (w_beats w)
  | S i => tt_others (env (w_at w + S i)) (table_at w i)
  end.

(** The [i]-th read succeeds, and finds a fresh beat of the role. *)
Definition beating (window : duration) (w : World) (i : nat) (role : string) : Prop :=
  tt_fault (env (w_at w + i)) = NoFault /\
  exists id b, table_at w i !! (role, id) = Some b /\ (tt_now (env (w_at w + i)) - window <= bt_LastSeenAt b)%Z.

Lemma Liveness_run role stale w :
  let db := tt_others (env (w_at w)) (w_beats w) in
  let '(r, w') := Liveness role stale w in
  w' = mkWorld db (S (w_at w)) /\
  match r with
  | Ok s => tt_fault (env (w_at w)) = NoFault /\ rs_Role s = role /\
      rs_Instances s = rl_FreshInstances (read_liveness role (sql_interval stale) (tt_now (env (w_at w))) db)
  | Err _ => tt_fault (env (w_at w)) <> NoFault
  end.
Proof.
  unfold Liveness, heartbeatReader, act_bind, Store_Liveness, stmt, run_tx. simpl.
  destruct (tt_fault _) as [|m|[] m]; done.
Qed.

Lemma table_shift w i : table_at (mkWorld (tt_others (env (w_at w)) (w_beats w)) (S (w_at w))) i = table_at w (S i).
Proof. induction i as [|i IH]; simpl; [by rewrite Nat.add_1_r|]. rewrite IH. simpl. by rewrite <-!Nat.add_succ_comm. Qed.

Lemma beating_shift window w i role :
  beating window (mkWorld (tt_others (env (w_at w)) (w_beats w)) (S (w_at w))) i role <-> beating window w (S i) role.
Proof. unfold beating. rewrite table_shift. simpl. by rewrite Nat.add_succ_r. Qed.

(** A report against the roles it was asked about. *)
Definition reported (roles : list string) (before after : Report) : Prop :=
  if rp_Ready after then
    rp_Reason after = rp_Reason before /\ rp_Required after = rp_Required before ++ roles /\
    map rs_Role (rp_Companions after) = map rs_Role (rp_Companions before) ++ roles
  else rp_Reason after <> ""%string /\ exists s, s ∈ rp_Companions after /\ rs_Instances s = 0%Z.

Definition absent (r : Report) : Prop := rp_Reason r <> ""%string /\ exists s, s ∈ rp_Companions r /\ rs_Instances s = 0%Z.

Lemma check_required stale roles : forall report w, (rp_Ready report = false -> absent report) ->
  let '((after, _), w') := check_dependencies stale (map (fun role => mkDependency role true) roles) report w in
  (rp_Ready after = true <-> rp_Ready report = true /\ forall i role, roles !! i = Some role -> beating (sql_interval stale) w i role) /\
  reported roles report after.
Proof.
  induction roles as [|role roles IH]; intros report w Habs; cbn [check_dependencies map d_Role].
  - unfold reported. rewrite !app_nil_r. destruct (rp_Ready report) eqn:E; [|split; [split; [done|by intros [? _]]|by apply Habs]].
    split; [|done]. split; [|done]. intros _. split; [done|]. intros i r Hn. by rewrite lookup_nil in Hn.
  - pose proof (Liveness_run role stale w) as Hl. destruct (Liveness role stale w) as [[s|e] w1]; destruct Hl as [-> Hs].
    + destruct Hs as (Hf & Hr & Hn). set (w1 := mkWorld _ _) in *.
      assert (named_status (mkDependency role true) s = s) as ->.
      { unfold named_status, empty. simpl. destruct (String.eqb_spec (rs_Role s) "") as [E|]; [|done]. destruct s; simpl in *. by subst. }
      assert (beating (sql_interval stale) w 0 role <-> rs_Instances s <> 0%Z) as Hb.
      { unfold beating. rewrite Nat.add_0_r, Hn, read_liveness_fresh. naive_solver. }
      assert (forall P : nat -> string -> Prop, (forall i r, (role :: roles) !! i = Some r -> P i r) <->
        P 0 role /\ forall i r, roles !! i = Some r -> P (S i) r) as Hcons.
      { intros P. split; [intros Hp; split; [by apply Hp|intros i r Hi; by apply (Hp (S i))]|]. intros [H0' HS] [|i] r Hi; [by injection Hi as <-|by apply HS]. }
      specialize (Hcons (beating (sql_interval stale) w)). simpl in Hcons. rewrite Hb in Hcons. simpl d_Required. cbn [andb].
      destruct (Z.eqb_spec (rs_Instances s) 0) as [Hz|Hz].
      * specialize (IH (degraded "companion-absent" (observe s (require_role (mkDependency role true) report))) w1).
        destruct (check_dependencies _ _ _ _) as [[after e] w']. destruct IH as [Hi Hrep].
        { intros _. split; [done|]. exists s. split; [|done]. apply elem_of_app. right. by left. }
        split; [rewrite Hcons; split; [by intros [? _]%Hi|by intros (_ & ? & _)]|]. unfold reported in *. simpl in Hi.
        destruct (rp_Ready after) eqn:E; [|done]. by destruct Hi as [[? _] _].
      * specialize (IH (observe s (require_role (mkDependency role true) report)) w1).
        destruct (check_dependencies _ _ _ _) as [[after e] w']. destruct IH as [Hi Hrep].
        { intros E. destruct (Habs E) as [Hre (s0 & Hin & H0')]. split; [done|]. exists s0. split; [apply elem_of_app; by left|done]. }
        split.
        { rewrite Hi, Hcons. simpl. unfold w1. setoid_rewrite beating_shift. naive_solver. }
        unfold reported in *. destruct (rp_Ready after); [|done]. destruct Hrep as (? & Hq & Hc). split; [done|].
        simpl in Hq, Hc. rewrite Hq, Hc, map_app. simpl. rewrite Hr, <-!app_assoc. done.
    + split; [split; [done|]|].
      * intros [_ Hb]. destruct (Hb 0 role eq_refl) as [Hf _]. rewrite Nat.add_0_r in Hf. done.
      * unfold reported. simpl. split; [done|]. exists (mkRoleStatus role 0 None). split; [|done]. apply elem_of_app. right. by left.
Qed.

(** C28. Ready means that the companions beat.  The readiness endpoint answers 200
    exactly when every companion the configuration declares could be looked up
    and, at that moment, had a row that is not stale; otherwise it answers 503
    with a reason and a companion it counted nobody of.  A ready answer lists
    the declared companions, and a process that declares none is ready without
    a query. *)
Theorem ready_means_companions_beat cfg now w :
  let '(resp, w') := health_ready env cfg now w in
  let roles := companionRoles cfg in
  (status resp = 200%Z <-> forall i role, roles !! i = Some role -> beating (sql_interval (c_HeartbeatStaleAfter cfg)) w i role) /\
  (roles = [] -> w' = w) /\
  exists code body, resp = Answered code body /\
    if rb_Ready body then code = 200%Z /\ rb_Reason body = ""%string /\ rb_Required body = roles /\ map rs_Role (rb_Roles body) = roles
    else code = 503%Z /\ rb_Reason body <> ""%string /\ exists s, s ∈ rb_Roles body /\ rs_Instances s = 0%Z.
Proof.
  pose proof (check_required (c_HeartbeatStaleAfter cfg) (companionRoles cfg) (mkReport true "" [] [] now) w ltac:(done)) as Hc.
  unfold health_ready, Evaluate, newReadinessEvaluator, readinessDeps. simpl ev_dependencies. simpl ev_staleAfter. simpl ev_now.
  set (roles := companionRoles cfg) in *.
  destruct (check_dependencies _ _ _ w) as [[after e] w'] eqn:E. destruct Hc as [Hi Hrep]. simpl in Hi. split; [|split].
  - assert (status (writeReadiness after) = 200%Z <-> rp_Ready after = true) as -> by (unfold writeReadiness; by destruct (rp_Ready after)).
    rewrite Hi. split; [by intros [_ ?]|done].
  - intros Hn. rewrite Hn in E. simpl in E. by injection E.
  - eexists _, _. split; [done|]. simpl. unfold reported in Hrep. by destruct (rp_Ready after).
Qed.
End readiness.

(** ** Beating *)

(** What another process does to the table at or before [now]: it registers or
    beats under a key of its own, or prunes with a window no shorter than
    [limit]. *)
Inductive neighbour (key : string * string) (limit : duration) (now : time) : BeatDB -> BeatDB -> Prop :=
| neighbour_upsert k t db : k <> key -> neighbour key limit now db (upsert_beat k t db)
| neighbour_refresh k t db : k <> key -> neighbour key limit now db (refresh_beat k t db).2
| neighbour_prune role window t db : (t <= now)%Z -> (limit <= window)%Z -> neighbour key limit now db (prune_beats role window t db).

Section beats.
Context `{SqlInterval}.
Variable env : nat -> TxTick BeatDB.
Variable pid : Z.
Variables (key : string * string) (limit : duration).

Definition neighbours : Prop := forall n db, rtc (neighbour key limit (tt_now (env n))) db (tt_others (env n) db).

(** The row of [key] was seen at [since] or later. *)
Definition alive (since : time) (db : BeatDB) : Prop := exists b, db !! key = Some b /\ (since <= bt_LastSeenAt b)%Z.

Lemma alive_pruned since role window t db : (t - window <= since)%Z -> alive since db -> alive since (prune_beats role window t db).
Proof. intros Ht (b & Hb & Hs). exists b. split; [|done]. apply prune_Some. split; [done|]. intros _. unfold fresh_row. lia. Qed.

Lemma alive_neighbours since now db db' :
  (now <= since + limit)%Z -> rtc (neighbour key limit now) db db' -> alive since db -> alive since db'.
Proof.
  intros Hn. induction 1 as [|db db1 db' Hstep _ IH]; [done|]. intros Ha. apply IH. clear IH.
  destruct Hstep as [k t db Hk|k t db Hk|role window t db Ht Hw].
  - destruct Ha as (b & Hb & Hs). exists b. split; [|done]. unfold upsert_beat. by rewrite lookup_insert_ne.
  - destruct Ha as (b & Hb & Hs). exists b. split; [|done]. unfold refresh_beat. destruct (db !! k); [|done]. simpl. by rewrite lookup_insert_ne.
  - apply alive_pruned; [lia|done].
Qed.

(** Time passes while others are at work. *)
Definition wait (k : nat) (w : World) : World :=
  Nat.iter k (fun w => mkWorld (tt_others (env (w_at w)) (w_beats w)) (S (w_at w))) w.

Lemma wait_alive since k w :
  neighbours -> (forall n, w_at w <= n < w_at w + k -> (tt_now (env n) <= since + limit)%Z) ->
  alive since (w_beats w) -> alive since (w_beats (wait k w)) /\ w_at (wait k w) = w_at w + k.
Proof.
  intros HN. induction k as [|k IH]; intros Ht Ha; simpl; [split; [done|lia]|].
  destruct IH as [Hk Hat]; [intros n Hn; apply Ht; lia|done|]. fold (wait k w). rewrite Hat. split; [|lia].
  eapply alive_neighbours; [|apply HN|done]. apply Ht. lia.
Qed.

Lemma stmt_Ok {A} (step : BeatStep) (role : string) (op : time -> BeatDB -> A * BeatDB) (w : World) a (w' : World) :
  stmt env step role op w = (Ok a, w') ->
  op (tt_now (env (w_at w))) (tt_others (env (w_at w)) (w_beats w)) = (a, w_beats w') /\ w_at w' = S (w_at w).
Proof.
  unfold stmt. destruct (run_tx _ _ _ _) as [r db] eqn:E. intros [= -> <-]. apply run_tx_Ok in E. injection E as E. by rewrite E.
Qed.

Lemma Register_ticks (role instanceID : string) stale (w w' : World) :
  Register env pid role instanceID stale w = (Ok tt, w') -> w_at w' = S (S (w_at w)).
Proof.
  unfold Register, act_bind. destruct (stmt env Registering role _ w) as [[[]|e] w1] eqn:E1; [|done].
  apply stmt_Ok in E1 as [_ A1]. intros [_ A2]%stmt_Ok. by rewrite A2, A1.
Qed.

Lemma Register_alive (role instanceID : string) stale (w w' : World) :
  key = (role, instance_or_fallback pid instanceID) -> Register env pid role instanceID stale w = (Ok tt, w') -> neighbours ->
  (limit <= sql_interval stale)%Z -> tt_others (env (w_at w)) (w_beats w) !! key = None ->
  (tt_now (env (S (w_at w))) <= tt_now (env (w_at w)) + limit)%Z ->
  alive (tt_now (env (w_at w))) (w_beats w').
Proof.
  intros Hkey HR HN Hl Hnone Ht. unfold Register, act_bind in HR. rewrite <-Hkey in HR.
  destruct (stmt env Registering role _ w) as [[[]|e] w1] eqn:E1; [|done]. apply stmt_Ok in E1 as [[= E1] A1].
  apply stmt_Ok in HR as [[= E2] _]. rewrite <-E2. apply alive_pruned; [rewrite A1; lia|].
  eapply alive_neighbours; [|apply HN|]; [by rewrite A1|]. rewrite <-E1. exists (mkBeat (tt_now (env (w_at w))) (tt_now (env (w_at w)))).
  split; [by apply upsert_new|simpl; lia].
Qed.

Lemma neighbours_none now db db' : rtc (neighbour key limit now) db db' -> db !! key = None -> db' !! key = None.
Proof.
  induction 1 as [|db db1 db' Hstep _ IH]; [done|]. intros Hn. apply IH. destruct Hstep as [k t db Hk|k t db Hk|role window t db _ _].
  - unfold upsert_beat. by rewrite lookup_insert_ne.
  - unfold refresh_beat. destruct (db !! k); [|done]. simpl. by rewrite lookup_insert_ne.
  - apply eq_None_not_Some. intros [b [Hb _]%prune_Some]. congruence.
Qed.

Lemma Beat_alive (role instanceID : string) (w w' : World) :
  key = (role, instance_or_fallback pid instanceID) -> Beat env pid role instanceID w = (Ok tt, w') -> neighbours ->
  (limit <= sql_interval Minute)%Z ->
  (forall n, w_at w <= n < w_at w' -> (tt_now (env (w_at w)) <= tt_now (env n) <= tt_now (env (w_at w)) + limit)%Z) ->
  alive (tt_now (env (w_at w))) (w_beats w') /\ w_at w < w_at w'.
Proof.
  intros Hkey HB HN Hl Ht. unfold Beat, act_bind in HB. rewrite <-Hkey in HB.
  destruct (stmt env Beating role _ w) as [[n|e] w1] eqn:E1; [|done]. apply stmt_Ok in E1 as [E1 A1].
  unfold refresh_beat in E1. destruct (tt_others _ _ !! key) as [b|] eqn:Eb; injection E1 as <- E1; simpl in HB.
  - injection HB as <-. split; [|lia]. rewrite <-E1. eexists. split; [apply lookup_insert_eq|simpl; lia].
  - assert (instance_or_fallback pid (instance_or_fallback pid instanceID) = instance_or_fallback pid instanceID) as Hid.
    { unfold instance_or_fallback, empty. by destruct (String.eqb_spec instanceID "") as [->|Hne%String.eqb_neq]; [|rewrite Hne]. }
    assert (w_at w' = S (S (w_at w1))) as Aw by by eapply Register_ticks.
    destruct (Register_alive role (instance_or_fallback pid instanceID) Minute w1 w') as (b & Hb & Hs); [by rewrite Hid|done|done|done| | |].
    + eapply neighbours_none; [apply HN|]. by rewrite <-E1.
    + pose proof (Ht (S (w_at w1)) ltac:(lia)). pose proof (Ht (w_at w1) ltac:(lia)). lia.
    + split; [|lia]. exists b. split; [done|]. pose proof (Ht (w_at w1) ltac:(lia)). lia.
Qed.

(** C29. A beat is seen.  Take a [limit] of at most a minute and at most the
    reader's window.  When other processes register and refresh other keys and
    prune with windows no shorter than [limit] at instants not ahead of the
    clock, then after a beat that succeeded a look within [limit] that does not
    fail counts the process. *)
Theorem beat_is_seen (role instanceID : string) stale k (w : World) :
  key = (role, instance_or_fallback pid instanceID) -> neighbours ->
  (limit <= sql_interval Minute)%Z -> (limit <= sql_interval stale)%Z ->
  let '(res, w') := Beat env pid role instanceID w in
  (forall n, w_at w <= n <= w_at w' + k -> (tt_now (env (w_at w)) <= tt_now (env n) <= tt_now (env (w_at w)) + limit)%Z) ->
  res = Ok tt -> tt_fault (env (w_at w' + k)) = NoFault ->
  exists l, (Store_Liveness env role stale (wait k w')).1 = Ok l /\ Fresh l = true.
Proof.
  intros Hkey HN Hm Hs. destruct (Beat env pid role instanceID w) as [res w'] eqn:HB. intros Ht -> Hf.
  destruct (Beat_alive role instanceID w w') as [Ha Hlt]; [done|done|done|done|intros n Hn; apply Ht; lia|].
  destruct (wait_alive (tt_now (env (w_at w))) k w') as [Hk Hat]; [done|intros n Hn; apply Ht; lia|done|].
  assert (alive (tt_now (env (w_at w))) (tt_others (env (w_at w' + k)) (w_beats (wait k w')))) as (b & Hb & Hsb).
  { eapply alive_neighbours; [|apply HN|done]. apply Ht. lia. }
  unfold Store_Liveness, stmt, run_tx. rewrite Hat, Hf. cbn [fst snd]. eexists. split; [done|].
  assert (rl_FreshInstances (read_liveness role (sql_interval stale) (tt_now (env (w_at w' + k))) (tt_others (env (w_at w' + k)) (w_beats (wait k w')))) <> 0%Z) as Hn.
  { apply read_liveness_fresh. rewrite Hkey in Hb. eexists _, b. split; [exact Hb|]. pose proof (Ht (w_at w' + k) ltac:(lia)). lia. }
  simpl in Hn. unfold Fresh. simpl. lia.
Qed.
End beats.

(** ** Concrete runs *)

#[local] Instance exact_interval : SqlInterval := fun d => d.
#[local] Hint Extern 0 RuneLower => exact ConfigProps.plain_lower : typeclass_instances.

(** Nobody else is at work, and a second passes between two statements. *)
Definition alone (start : time) : nat -> TxTick BeatDB := fun n => mkTxTick (start + Z.of_nat n * Second)%Z (fun db => db) NoFault.
Definition at_0 (db : BeatDB) : World := mkWorld db 0.

(** The worker beat half a minute ago. *)
Definition worker_seen (ago : duration) : BeatDB := {[("worker", "w1") := mkBeat 0 (1000 * Second - ago)]}%string.
Definition later : nat -> TxTick BeatDB := alone (1000 * Second).

Lemma ready_means_companions_beat_witness :
  status (health_ready later ConfigProps.demo_config 0 (at_0 (worker_seen (30 * Second)))).1 = 200%Z /\
  status (health_ready later ConfigProps.demo_config 0 (at_0 (worker_seen (90 * Second)))).1 <> 200%Z.
Proof.
  assert (companionRoles ConfigProps.demo_config = ["worker"%string]) as Hr by (vm_compute; reflexivity).
  pose proof (ready_means_companions_beat later ConfigProps.demo_config 0 (at_0 (worker_seen (30 * Second)))) as Hp.
  pose proof (ready_means_companions_beat later ConfigProps.demo_config 0 (at_0 (worker_seen (90 * Second)))) as Hq.
  destruct (health_ready _ _ _ (at_0 (worker_seen (30 * Second)))) as [resp w1], (health_ready _ _ _ _) as [resq w2].
  rewrite Hr in Hp, Hq. destruct Hp as (Hp & _), Hq as (Hq & _). simpl fst. rewrite Hp, Hq. split.
  - intros [|[]] role Hi; [|done..]. injection Hi as <-. split; [done|].
    exists "w1"%string. eexists. split; [vm_compute; reflexivity|vm_compute; discriminate].
  - intros Hb. destruct (Hb 0 "worker"%string eq_refl) as (_ & id & b & Hl & Hf).
    destruct (decide (id = "w1"%string)) as [->|Hne].
    + injection Hl as <-. vm_compute in Hf. by apply Hf.
    + simpl in Hl. unfold worker_seen in Hl. rewrite lookup_singleton_ne in Hl; [done|congruence].
Defined.

Lemma beat_is_seen_witness :
  let '(res, w') := Beat (alone 0) 7 "worker" "w1" (at_0 ∅) in
  res = Ok tt /\ exists l, (Store_Liveness (alone 0) "worker" (60 * Second) (wait (alone 0) 20 w')).1 = Ok l /\ Fresh l = true.
Proof.
  pose proof (beat_is_seen (alone 0) 7 ("worker"%string, "w1"%string) (40 * Second) "worker" "w1" (60 * Second) 20 (at_0 ∅) eq_refl) as Hp.
  match goal with |- let '(_, _) := ?a in _ =>
    assert (a.1 = Ok tt) as Hr by (vm_compute; reflexivity); assert (w_at a.2 = 3) as Ha by (vm_compute; reflexivity); destruct a as [res w'] end.
  simpl in Hr, Ha. subst res. split; [reflexivity|]. apply Hp; try reflexivity.
  - intros n db. apply rtc_refl.
  - vm_compute. discriminate.
  - vm_compute. discriminate.
  - rewrite Ha. intros n Hn. simpl. unfold Second. lia.
Defined.

(** ** What is not as it is said to be *)

(** A process that restarts under its name after the window prunes the row it
    has just registered, and nobody sees it until its first beat. *)
Example registration_prunes_itself :
  let '(res, w) := Register later 7 "worker" "w1" (60 * Second) (at_0 (worker_seen (10 * Minute))) in
  res = Ok tt /\ w_beats w = ∅ /\ w_beats (Beat later 7 "worker" "w1" w).2 !! ("worker", "w1")%string <> None.
Proof. split_and!; [by vm_compute..|]. by vm_compute. Qed.

(** A beat that finds no row prunes with a window of one minute: a process seen
    two minutes ago is gone for readers whose window is ten. *)
Example beat_prunes_within_window :
  let db := worker_seen (2 * Minute) in
  (Store_Liveness later "worker" (10 * Minute) (at_0 db)).1 = Ok (mkLiveness "worker" 1 (Some (1000 * Second - 2 * Minute)%Z)) /\
  w_beats (Beat later 7 "worker" "w2" (at_0 db)).2 !! ("worker", "w1")%string = None.
Proof. by vm_compute. Qed.

(** Two hosts without a name whose processes have the same number share a row. *)
Example nameless_hosts_collide : InstanceID None 7 = "pid-7"%string /\ InstanceID (Some "") 7 = "pid-7"%string.
Proof. by vm_compute. Qed.

(** The dispatcher is absent, which is the first unsatisfied dependency; then
    the worker cannot be looked up, and that is the reason reported. *)
Definition second_read_fails : nat -> TxTick BeatDB := fun n => mkTxTick (1000 * Second)%Z (fun db => db) (if Nat.eqb n 1 then FailBegin "timeout" else NoFault).
#[local] Hint Extern 0 (LivenessReader World _) => exact (heartbeatReader second_read_fails) : typeclass_instances.
Example later_failure_hides_first_reason :
  let e roles := mkEvaluator (map (fun r => mkDependency r true) roles) (60 * Second) 0 in
  rp_Reason (Evaluate (e ["dispatcher"]) (at_0 ∅)).1.1 = "companion-absent"%string /\
  rp_Reason (Evaluate (e ["dispatcher"; "worker"]) (at_0 ∅)).1.1 = "liveness-unavailable"%string.
Proof. by vm_compute. Qed.
