(* ===== verification/Workspaces.v ===== *)
(** * Workspace administration: internal/workspace/store.go,
    infrastructure/postgres/workspaces.go and
    internal/api/workspace_handlers.go *)

From S2P Require Import Prelude GoLib GoText Rbac Authz AuditChain Org Http Surface.

(** ** The table *)

Record WorkspaceRow : Type := mkWorkspaceRow { wr_Name : string; wr_CreatedAt : time; wr_UpdatedAt : time }.
Record Workspace : Type := mkWorkspace { ws_ID : uuid; ws_Name : string; ws_CreatedAt : time; ws_UpdatedAt : time }.

Inductive ws_err : Type := ErrWorkspaceNotFound | ErrNameTaken | ErrWorkspaceStore (msg : string).

Record Directory : Type := mkDirectory { dr_rows : gmap uuid WorkspaceRow; dr_at : nat }.

Definition scanWorkspace (id : uuid) (r : WorkspaceRow) : Workspace := mkWorkspace id (wr_Name r) (wr_CreatedAt r) (wr_UpdatedAt r).

(** [uq_workspaces_name] *)
Definition ws_name_taken (name : string) (m : gmap uuid WorkspaceRow) : bool :=
  existsb (fun kv => String.eqb (wr_Name kv.2) name) (map_to_list m).

(** INSERT ... RETURNING; any unique violation is a name taken. *)
Definition insert_workspace (id : uuid) (name : string) (now : time) (m : gmap uuid WorkspaceRow)
  : res ws_err (Workspace * gmap uuid WorkspaceRow) :=
  guard! text_ok name else ErrWorkspaceStore "22021" in
  guard! negb (ws_name_taken name m || bool_decide (is_Some (m !! id))) else ErrNameTaken in
  let row := mkWorkspaceRow name now now in
  Ok (scanWorkspace id row, <[id := row]> m).

Definition select_workspace (id : uuid) (m : gmap uuid WorkspaceRow) : res ws_err Workspace :=
  match m !! id with Some r => Ok (scanWorkspace id r) | None => Err ErrWorkspaceNotFound end.

Definition select_workspaces `{Collation} (m : gmap uuid WorkspaceRow) : list Workspace :=
  merge_sort (listed ws_CreatedAt ws_Name) (map (fun kv => scanWorkspace kv.1 kv.2) (map_to_list m)).

Section workspaces.
Context `{UuidText, UuidParse, StoredTime, Collation}.
Variable env : nat -> TxTick (gmap uuid WorkspaceRow).
Variable draw : nat -> uuid.          (* gen_random_uuid() *)

Definition ws_stmt {A} (op : time -> gmap uuid WorkspaceRow -> res ws_err (A * gmap uuid WorkspaceRow)) : act Directory ws_err A := fun d =>
  let '(r, m) := run_tx ErrWorkspaceStore (env (dr_at d)) op (dr_rows d) in (r, mkDirectory m (S (dr_at d))).

Definition Store_Create (name : string) : act Directory ws_err Workspace := fun d =>
  ws_stmt (fun now m => insert_workspace (draw (dr_at d)) name (stored_time now) m) d.
Definition Store_Get (id : uuid) : act Directory ws_err Workspace := ws_stmt (fun _ m => try! w := select_workspace id m in Ok (w, m)).
Definition Store_List : act Directory ws_err (list Workspace) := ws_stmt (fun _ m => Ok (select_workspaces m, m)).

(** ** The handlers *)

Definition workspaceNameMaxRunes : nat := 100.

Record createWorkspaceRequest : Type := mkCreateWorkspace { cw_Name : string }.
Record workspaceResponse : Type := mkWorkspaceResponse { wp_ID : string; wp_Name : string; wp_CreatedAt : time; wp_UpdatedAt : time }.
Inductive WorkspaceAnswer : Type := OneWorkspace (w : workspaceResponse) | ManyWorkspaces (l : list workspaceResponse).

Definition toWorkspaceResponse (w : Workspace) : workspaceResponse :=
  mkWorkspaceResponse (uuid_String (ws_ID w)) (ws_Name w) (to_second (ws_CreatedAt w)) (to_second (ws_UpdatedAt w)).

Variable draw_header : nat -> bool -> string.
Variable sink : Sink.
Variable r : Request.

Abbreviation M := (act (Front Directory) (Response WorkspaceAnswer)).

(** [recordWorkspaceAudit] *)
Definition recordWorkspaceAudit (rec : AuditInput) : M (res sink_err unit) := fun s =>
  let cv := ExtractContextValues (draw_header (fr_at s)) r in
  let '(x, kept) := sink_append sink (fr_at s) (mkAudited (correlated false cv rec) "") (fr_audit s) in
  (Ok x, mkFront (fr_svc s) kept (S (fr_at s))).

(** The caller, who has to be the founder. *)
Definition founder_only : M Claims :=
  match FromRequest r with
  | None => act_fail (Refused 401 "unauthorized")
  | Some claims => check! bool_decide (cl_Role claims = RoleFounder) else act_fail forbidden ;; act_ret claims
  end.

Definition List_ : handler (Front Directory) WorkspaceAnswer :=
  founder_only ;;!
  x <~ svc Store_List ;;
  match x with
  | Err _ => act_fail internal_error
  | Ok l => act_ret (Answered 200 (ManyWorkspaces (map toWorkspaceResponse l)))
  end.

Definition created_record (claims : Claims) (id : uuid) : AuditInput :=
  mkRecord "workspace.create" "user" (parseActorID (cl_ID claims)) "workspace" id "success" "Security by Design" (Some id) uuid_Nil uuid_Nil.

Definition Create (body : Body createWorkspaceRequest) : handler (Front Directory) WorkspaceAnswer :=
  claims <~ founder_only ;;
  req <~ decoded body act_fail ;;
  let name := TrimSpace (cw_Name req) in
  check! negb (String.eqb name "") else act_fail (Refused 400 "workspace name is required") ;;
  check! (rune_count name <=? workspaceNameMaxRunes)%nat else act_fail (Refused 400 "workspace name is too long") ;;
  x <~ svc (Store_Create name) ;;
  match x with
  | Err ErrNameTaken => act_fail (Refused 409 "workspace name already exists")
  | Err _ => act_fail internal_error
  | Ok w =>
      a <~ recordWorkspaceAudit (created_record claims (ws_ID w)) ;;
      match a with
      | Err _ => act_fail internal_error
      | Ok _ => act_ret (Answered 201 (OneWorkspace (toWorkspaceResponse w)))
      end
  end.

Definition getByID (id : uuid) : handler (Front Directory) WorkspaceAnswer :=
  x <~ svc (Store_Get id) ;;
  match x with
  | Err ErrWorkspaceNotFound => act_fail (Refused 404 "workspace not found")
  | Err _ => act_fail internal_error
  | Ok w => act_ret (Answered 200 (OneWorkspace (toWorkspaceResponse w)))
  end.

(** [None] where the handler panics: [uuid.MustParse] of a binding that is no
    identifier. *)
Definition Get : option (handler (Front Directory) WorkspaceAnswer) :=
  match FromRequest r with
  | None => Some (act_fail (Refused 401 "unauthorized"))
  | Some claims =>
      match cl_Role claims with
      | RoleFounder =>
          Some (match uuid_Parse (rq_PathValue r "id") with
                | None => act_fail (Refused 400 "invalid workspace id")
                | Some id => getByID id
                end)
      | RoleWorkspaceAdmin =>
          match WorkspaceFromClaims claims with
          | None => Some (act_fail forbidden)
          | Some binding => option_map getByID (uuid_Parse binding)
          end
      | _ => Some (act_fail forbidden)
      end
  end.
End workspaces.

(** ** Properties *)

(** ** The table *)

(** Names are unique, not empty, of at most a hundred runes. *)
Definition directory_ok (m : gmap uuid WorkspaceRow) : Prop :=
  (forall i j ri rj, m !! i = Some ri -> m !! j = Some rj -> wr_Name ri = wr_Name rj -> i = j) /\
  map_Forall (fun _ r => text_ok (wr_Name r) = true /\ wr_Name r <> ""%string /\ rune_count (wr_Name r) <= workspaceNameMaxRunes) m.

Lemma ws_name_free name m : ws_name_taken name m = false -> forall i r, m !! i = Some r -> wr_Name r <> name.
Proof.
  unfold ws_name_taken. rewrite <-not_true_iff_false, existsb_exists. intros Hn i r Hr E. apply Hn.
  exists (i, r). split; [by apply list_elem_of_In, elem_of_map_to_list|by apply String.eqb_eq].
Qed.

Lemma insert_workspace_Ok id name now m w m' :
  insert_workspace id name now m = Ok (w, m') ->
  text_ok name = true /\ (forall i r, m !! i = Some r -> wr_Name r <> name) /\ m !! id = None /\
  w = mkWorkspace id name now now /\ m' = <[id := mkWorkspaceRow name now now]> m.
Proof.
  unfold insert_workspace. intros [Ht Hu]%guard_Ok. apply guard_Ok in Hu as [Hf Hu]. injection Hu as <- <-.
  apply negb_true_iff, orb_false_iff in Hf as [Hn Hi]. split_and!; try done; [by apply ws_name_free|].
  apply bool_decide_eq_false in Hi. by apply eq_None_not_Some.
Qed.

Lemma directory_insert id name now m :
  directory_ok m -> text_ok name = true -> name <> ""%string -> rune_count name <= workspaceNameMaxRunes ->
  (forall i r, m !! i = Some r -> wr_Name r <> name) -> m !! id = None -> directory_ok (<[id := mkWorkspaceRow name now now]> m).
Proof.
  intros [Hu Hall] Ht Hne Hl Hf Hid. split.
  - intros i j ri rj Hi Hj E. apply lookup_insert_Some in Hi as [[<- <-]|[Hni Hi]], Hj as [[<- <-]|[Hnj Hj]]; simpl in *; [done| | |by eapply Hu].
    + by destruct (Hf j rj).
    + by destruct (Hf i ri).
  - by apply map_Forall_insert_2.
Qed.

Inductive WorkspaceRequest : Type :=
| HListWorkspaces (r : Http.Request)
| HCreateWorkspace (r : Http.Request) (body : Body createWorkspaceRequest)
| HGetWorkspace (r : Http.Request).

Definition workspace_request (q : WorkspaceRequest) : Http.Request :=
  match q with HListWorkspaces r | HCreateWorkspace r _ | HGetWorkspace r => r end.

(** The identifiers an answer shows. *)
Definition shown_ids (resp : Response WorkspaceAnswer) : list string :=
  match resp with
  | Answered _ (OneWorkspace w) => [wp_ID w]
  | Answered _ (ManyWorkspaces l) => map wp_ID l
  | Refused _ _ => []
  end.

Section routes.
Context `{UuidText, UuidParse, StoredTime, Collation, MapOrder}.
Variable env : nat -> TxTick (gmap uuid WorkspaceRow).
Variable draw : nat -> uuid.
Variable draw_header : nat -> bool -> string.
Variable sink : Sink.

Definition workspace_route (q : WorkspaceRequest) : option (handler (Front Directory) WorkspaceAnswer) :=
  match q with
  | HListWorkspaces r => Some (List_ env r)
  | HCreateWorkspace r body => Some (Create env draw draw_header sink r body)
  | HGetWorkspace r => Get env r
  end.

Definition is_founder (q : WorkspaceRequest) : Prop := exists claims, FromRequest (workspace_request q) = Some claims /\ cl_Role claims = RoleFounder.

(** ** Every statement keeps the table well formed *)

Definition intact : Prop := forall n m, directory_ok m -> directory_ok (tt_others (env n) m).

Section safety.
Variable J : Directory -> Prop.
Variable G : Response WorkspaceAnswer -> Prop.
Hypothesis refusals : forall code msg, (400 <= code)%Z -> G (Refused code msg).

Lemma safe_founder_only r : safe J G (founder_only r) (fun claims => FromRequest r = Some claims /\ cl_Role claims = RoleFounder).
Proof.
  unfold founder_only. destruct (FromRequest r) as [claims|]; [|by safe_step].
  case_bool_decide; [by apply safe_ret|by safe_step].
Qed.

Lemma safe_recordWorkspaceAudit r rec : safe J G (recordWorkspaceAudit draw_header sink r rec) (fun _ => True).
Proof. intros s Hs. unfold recordWorkspaceAudit. by destruct (sink_append _ _ _ _). Qed.
End safety.

Lemma stmt_keeps {A} (P : gmap uuid WorkspaceRow -> Prop) (op : time -> gmap uuid WorkspaceRow -> res ws_err (A * gmap uuid WorkspaceRow)) d :
  (forall n m, P m -> P (tt_others (env n) m)) -> (forall now m a m', P m -> op now m = Ok (a, m') -> P m') ->
  P (dr_rows d) -> P (dr_rows (ws_stmt env op d).2).
Proof.
  intros Ho Hop HP. unfold ws_stmt.
  pose proof (run_tx_cases ErrWorkspaceStore (env (dr_at d)) op (dr_rows d)) as Hc. destruct (run_tx _ _ _ _) as [x m]. simpl in *.
  destruct Hc as [->|(a & m' & Hk & ->)]; [by apply Ho|]. eapply Hop; [|exact Hk]. by apply Ho.
Qed.

Lemma stmt_Ok_row {A} (op : time -> gmap uuid WorkspaceRow -> res ws_err (A * gmap uuid WorkspaceRow)) d a d' :
  ws_stmt env op d = (Ok a, d') -> exists now m, op now m = Ok (a, dr_rows d').
Proof. unfold ws_stmt. destruct (run_tx _ _ _ _) as [x m] eqn:E. intros [= -> <-]. apply run_tx_Ok in E. by eexists _, _. Qed.

(** The founder alone changes the table: what holds of it and others keep, any
    other request keeps; a creation keeps it when the insertion does. *)
Lemma route_keeps (P : gmap uuid WorkspaceRow -> Prop) q h :
  workspace_route q = Some h -> (forall n m, P m -> P (tt_others (env n) m)) ->
  (is_founder q -> forall id name now m, P m -> text_ok name = true -> name <> ""%string -> rune_count name <= workspaceNameMaxRunes ->
     (forall i r, m !! i = Some r -> wr_Name r <> name) -> m !! id = None -> P (<[id := mkWorkspaceRow name now now]> m)) ->
  safe (fun d => P (dr_rows d)) (fun _ => True) h (fun _ => True).
Proof.
  intros Hq Ho Hins. assert (forall code msg, (400 <= code)%Z -> (fun _ : Response WorkspaceAnswer => True) (Refused code msg)) as Hr by done.
  assert (forall id, safe (fun d => P (dr_rows d)) (fun _ => True) (getByID env id) (fun _ => True)) as Hget.
  { intros id. eapply safe_bind; [apply (safe_svc _ _ _ (fun _ => True))|intros [w|[]] _; by safe_step].
    intros d Hd. split; [|done]. apply (stmt_keeps P); [done| |done]. intros now m a m' Hm Hk. by apply res_bind_Ok in Hk as (? & _ & [= _ <-]). }
  destruct q as [r|r body|r]; simpl in Hq.
  - injection Hq as <-. eapply safe_bind; [by apply safe_founder_only|intros _ _].
    eapply safe_bind; [apply (safe_svc _ _ _ (fun _ => True))|intros [l|e] _; by safe_step].
    intros d Hd. split; [|done]. apply (stmt_keeps P); [done| |done]. by intros now m a m' Hm [= _ <-].
  - injection Hq as <-. unfold Create. eapply safe_bind; [by apply safe_founder_only|intros claims Hfo].
    eapply safe_bind; [by apply safe_decoded; intros; apply safe_refuse|intros req _]. cbv zeta.
    destruct (String.eqb_spec (TrimSpace (cw_Name req)) "") as [|Hne]; cbn [negb]; [by safe_step|].
    destruct (Nat.leb_spec (rune_count (TrimSpace (cw_Name req))) workspaceNameMaxRunes) as [Hl|]; [|by safe_step].
    eapply safe_bind; [apply (safe_svc _ _ _ (fun _ => True))|].
    { intros d Hd. split; [|done]. apply (stmt_keeps P); [done| |done]. intros now m w m' Hm Hk.
      apply insert_workspace_Ok in Hk as (Ht & Hf & Hid & _ & ->). apply Hins; try done. by exists claims. }
    intros [w|[]] _; [|by safe_step..]. eapply safe_bind; [apply safe_recordWorkspaceAudit|intros [u|e] _; by safe_step].
  - unfold Get in Hq. repeat case_match; simplify_eq; try (by safe_step); try apply Hget.
    destruct (uuid_Parse _); [|done]. simpl in Hq. injection Hq as <-. apply Hget.
Qed.

Definition serve_workspace (q : WorkspaceRequest) (s : Front Directory) : Front Directory :=
  match workspace_route q with Some h => (respond h s).2 | None => s end.
Definition serve_workspaces (qs : list WorkspaceRequest) (s : Front Directory) : Front Directory :=
  foldl (fun s q => serve_workspace q s) s qs.

(** Names stay unique.  Whatever requests arrive and whatever other processes do
    that keeps the table well formed, every name of a workspace is its own,
    valid text, not empty and of at most a hundred runes. *)
Theorem directory_wellformed qs s : intact -> directory_ok (dr_rows (fr_svc s)) -> directory_ok (dr_rows (fr_svc (serve_workspaces qs s))).
Proof.
  intros Ho. revert s. induction qs as [|q qs IH]; intros s Hs; [done|]. simpl. apply IH. unfold serve_workspace.
  destruct (workspace_route q) as [h|] eqn:Hq; [|done].
  eapply (respond_safe (fun d => directory_ok (dr_rows d)) (fun _ => True)); [|done]. eapply route_keeps; [done|exact Ho|].
  intros _ id name now m Hm. intros. by apply directory_insert.
Qed.
(** An admin is shown its own workspace. *)
Definition own_only (r : Http.Request) (resp : Response WorkspaceAnswer) : Prop :=
  forall i, i ∈ shown_ids resp -> exists claims ws, caller r = Some (claims, ws) /\ cl_Role claims = RoleWorkspaceAdmin /\ i = uuid_String ws.

Lemma directory_shows q h : workspace_route q = Some h -> ~ is_founder q ->
  safe (fun _ => True) (own_only (workspace_request q)) h (own_only (workspace_request q)).
Proof.
  intros Hq Hnf. assert (forall code msg, (400 <= code)%Z -> own_only (workspace_request q) (Refused code msg)) as Hr.
  { by intros code msg _ i ?%not_elem_of_nil. }
  destruct q as [r|r body|r]; simpl in *.
  - injection Hq as <-. eapply safe_bind; [by apply safe_founder_only|]. intros claims Hf. exfalso. apply Hnf. by exists claims.
  - injection Hq as <-. eapply safe_bind; [by apply safe_founder_only|]. intros claims Hf. exfalso. apply Hnf. by exists claims.
  - unfold Get in Hq. destruct (FromRequest r) as [claims|] eqn:Hc; [|injection Hq as <-; by safe_step].
    destruct (cl_Role claims) eqn:Hrole; [exfalso; apply Hnf; by exists claims| |injection Hq as <-; by safe_step..].
    destruct (WorkspaceFromClaims claims) as [binding|] eqn:Hw; [|injection Hq as <-; by safe_step].
    destruct (uuid_Parse binding) as [ws|] eqn:Hp; [|done]. injection Hq as <-.
    eapply safe_bind; [apply (safe_svc _ _ _ (fun w => ws_ID w = ws))|].
    + intros d _. split; [done|]. intros w d' Hk. apply stmt_Ok_row in Hk as (now & m & Hk). apply res_bind_Ok in Hk as (w' & Hk & [= -> _]).
      unfold select_workspace in Hk. destruct (m !! ws); [|done]. by injection Hk as <-.
    + intros [w|[]] Hw'; [|by safe_step..]. apply safe_ret. intros i Hi. apply list_elem_of_singleton in Hi as ->.
      exists claims, ws. unfold caller. rewrite Hc, Hw, Hp. simpl. by rewrite Hw'.
Qed.

(** Only the founder administers.  A request of anyone else shows nothing but
    the own workspace of an admin and leaves the table to others; the handler
    panics only on an admin whose workspace claim is no identifier. *)
Theorem workspace_routes_guarded q s :
  match workspace_route q with
  | None => exists claims, FromRequest (workspace_request q) = Some claims /\ cl_Role claims = RoleWorkspaceAdmin /\
      uuid_Parse (cl_WorkspaceID claims) = None
  | Some h => let '(resp, s') := respond h s in is_founder q \/
      own_only (workspace_request q) resp /\
      forall P, (forall n m, P m -> P (tt_others (env n) m)) -> P (dr_rows (fr_svc s)) -> P (dr_rows (fr_svc s'))
  end.
Proof.
  destruct (workspace_route q) as [h|] eqn:Hq.
  - destruct (respond h s) as [resp s'] eqn:Hs.
    assert (is_founder q \/ ~ is_founder q) as [Hf|Hnf]; [|by left|right].
    { unfold is_founder. destruct (FromRequest _) as [claims|]; [|right; by intros (? & ? & _)].
      destruct (decide (cl_Role claims = RoleFounder)); [left; by exists claims|right; by intros (? & [= <-] & ?)]. }
    split.
    + destruct (respond_safe (fun _ => True) (own_only (workspace_request q)) h s) as [Hown _]; [by apply directory_shows|done|]. by rewrite Hs in Hown.
    + intros P Ho HP. destruct (respond_safe (fun d => P (dr_rows d)) (fun _ => True) h s) as [_ Hk]; [|done|by rewrite Hs in Hk].
      by eapply route_keeps.
  - destruct q as [r|r body|r]; simpl in *; [done..|]. unfold Get in Hq.
    destruct (FromRequest r) as [claims|]; [|done]. exists claims. unfold WorkspaceFromClaims in Hq.
    destruct (cl_Role claims) eqn:Hrole; try done. split_and!; [done..|].
    destruct (String.eqb _ _); [done|]. by destruct (uuid_Parse _).
Qed.

(** The row of the answer and the record of its creation. *)
Definition creation_kept (r : Http.Request) (body : Body createWorkspaceRequest) (resp : Response WorkspaceAnswer) (s' : Front Directory) : Prop :=
  exists claims req id now a l, FromRequest r = Some claims /\ cl_Role claims = RoleFounder /\ bd_first body = Some req /\
    let name := TrimSpace (cw_Name req) in
    resp = Answered 201 (OneWorkspace (toWorkspaceResponse (mkWorkspace id name now now))) /\
    dr_rows (fr_svc s') !! id = Some (mkWorkspaceRow name now now) /\
    fr_audit s' = a :: l /\ i_EventType (aa_Record a) = "workspace.create"%string /\ i_ActorID (aa_Record a) = parseActorID (cl_ID claims) /\
    i_TargetID (aa_Record a) = id /\ i_WorkspaceID (aa_Record a) = Some id /\ i_Outcome (aa_Record a) = "success"%string.

(** A creation is recorded.  A creation answered as a success was asked for by
    the founder; the row it answers is in the table, under the trimmed name,
    and the latest audit record is that of the creation, by the caller. *)
Theorem workspace_created_recorded r body s :
  let '(resp, s') := respond (Create env draw draw_header sink r body) s in
  is_success (status resp) = true -> creation_kept r body resp s'.
Proof.
  set (P := fun resp s' => is_success (status resp) = true -> creation_kept r body resp s').
  assert (forall resp s', refusal resp -> P resp s') as Hstop by (intros resp s' Hf Hok; unfold refusal in Hf; congruence).
  assert (forall code msg s', (400 <= code)%Z -> P (Refused code msg) s') as Hr by (intros; by apply Hstop, refusal_refused).
  unfold Create. eapply (respond_quiet refusal P); [intros w; apply safe_founder_only, refusal_refused|by intros; apply Hstop|].
  intros claims s1 [Hc Hf] _. unfold decoded, decodeJSON. destruct (bd_first body) as [req|] eqn:Hreq; [|by apply Hr].
  destruct (bd_more body); [by apply Hr|]. cbn [act_bind act_ret respond]. unfold respond, act_bind at 1, act_ret at 1. cbv zeta.
  destruct (negb _); [|by apply Hr]. destruct (_ <=? _)%nat; [|by apply Hr].
  unfold act_bind at 1, svc. destruct (Store_Create env draw _ (fr_svc s1)) as [[w|e] d] eqn:Hk; [|destruct e; by apply Hr].
  unfold Store_Create in Hk. apply stmt_Ok_row in Hk as (now & m & Hk). apply insert_workspace_Ok in Hk as (_ & _ & _ & -> & Hm).
  unfold act_bind, recordWorkspaceAudit, sink_append. destruct sink as [f|]; [|by apply Hr]. destruct (f _); [by apply Hr|].
  intros _. exists claims, req, (draw (dr_at (fr_svc s1))), (stored_time now). eexists _, _. cbv zeta. split_and!; try done.
  simpl. rewrite Hm. apply lookup_insert_eq.
Qed.
End routes.

(** ** Concrete runs *)

#[local] Hint Extern 0 UuidText => exact unary_uuid : typeclass_instances.
#[local] Hint Extern 0 UuidParse => exact unary_parse : typeclass_instances.
#[local] Hint Extern 0 StoredTime => exact microseconds : typeclass_instances.
#[local] Hint Extern 0 Collation => exact (fun _ _ => true) : typeclass_instances.
#[local] Hint Extern 0 MapOrder => exact in_order : typeclass_instances.

Definition ws_env : nat -> TxTick (gmap uuid WorkspaceRow) := fun n => mkTxTick (Z.of_nat n * 1000) (fun m => m) NoFault.
Definition draw_40 : nat -> uuid := fun n => (40 + N.of_nat n)%N.
Definition ws_front : Front Directory :=
  mkFront (mkDirectory {[1 := mkWorkspaceRow "Atelier" 0 0; 2 := mkWorkspaceRow "Bureau" 0 0]}%N 0) [] 0.

Definition the_founder : Claims := mkClaims (uuid_String 3) RoleFounder "" ∅.
Definition an_admin (binding : string) : Claims := mkClaims (uuid_String 4) RoleWorkspaceAdmin binding ∅.
Definition ws_ask (id : uuid) (claims : Claims) : Http.Request :=
  mkRequest "203.0.113.9:4711" (fun _ => ""%string) "" (fun _ => uuid_String id) (Some claims).
Definition named (name : string) : Body createWorkspaceRequest := mkBody (Some (mkCreateWorkspace name)) false.
Definition creation : WorkspaceRequest := HCreateWorkspace (ws_ask 0 the_founder) (named " Cabinet ").
Abbreviation route sink q := (workspace_route ws_env draw_40 (fun _ _ => ""%string) sink q).
Abbreviation create sink name s := (respond (Create ws_env draw_40 (fun _ _ => ""%string) sink (ws_ask 0 the_founder) (named name)) s).

Lemma ws_front_ok : directory_ok (dr_rows (fr_svc ws_front)).
Proof.
  split.
  - intros i j ri rj Hi Hj E. simpl in Hi, Hj.
    repeat match goal with X : <[_ := _]> _ !! _ = Some _ |- _ => apply lookup_insert_Some in X as [[<- <-]|[_ X]] end;
      repeat match goal with X : {[_ := _]} !! _ = Some _ |- _ => apply lookup_singleton_Some in X as [<- <-] end; done.
  - apply (bool_decide_unpack _). by vm_compute.
Qed.

Lemma directory_wellformed_witness :
  let s := serve_workspaces ws_env draw_40 (fun _ _ => ""%string) (Some (fun _ => None)) [creation; creation] ws_front in
  directory_ok (dr_rows (fr_svc s)) /\ size (dr_rows (fr_svc s)) = 3.
Proof.
  split; [|by vm_compute].
  apply (directory_wellformed ws_env draw_40 (fun _ _ => ""%string) (Some (fun _ => None)) [creation; creation] ws_front); [by intros n m|exact ws_front_ok].
Defined.

Lemma workspace_created_recorded_witness :
  let '(resp, s') := create (Some (fun _ => None)) " Cabinet " ws_front in
  status resp = 201%Z /\ creation_kept (ws_ask 0 the_founder) (named " Cabinet ") resp s'.
Proof.
  pose proof (workspace_created_recorded ws_env draw_40 (fun _ _ => ""%string) (Some (fun _ => None)) (ws_ask 0 the_founder) (named " Cabinet ") ws_front) as Hp.
  match goal with |- let '(_, _) := ?a in _ => assert (status a.1 = 201%Z) as Hs by (vm_compute; reflexivity); destruct a as [resp s'] end.
  simpl in Hs. split; [exact Hs|]. apply Hp. by rewrite Hs.
Defined.

(** An admin names another workspace in the path and is shown its own. *)
Example path_does_not_drive_the_read :
  option_map (fun h => shown_ids (respond h ws_front).1) (route None (HGetWorkspace (ws_ask 1 (an_admin (uuid_String 2))))) = Some [uuid_String 2].
Proof. by vm_compute. Qed.

(** ** What is not as it is said to be *)

(** The record of a creation cannot be kept: the answer is a server error, the
    workspace is there all the same, unrecorded, and a retry is a conflict. *)
Example unrecorded_creation_persists :
  let down := Some (fun _ : nat => Some "connection refused"%string) in
  let '(first, s1) := create down "Cabinet" ws_front in let '(again, _) := create (Some (fun _ => None)) "Cabinet" s1 in
  first = internal_error /\ fr_audit s1 = [] /\ wr_Name <$> dr_rows (fr_svc s1) !! 40%N = Some "Cabinet"%string /\ status again = 409%Z.
Proof. vm_compute. by split_and!. Qed.

(** A workspace claim that is no identifier: the other handlers answer 403. *)
Definition letters : UuidParse := fun s => if String.eqb s "bureau" then None else unary_parse s.
Example malformed_claim_panics :
  workspace_route (H0 := letters) ws_env draw_40 (fun _ _ => ""%string) None (HGetWorkspace (ws_ask 2 (an_admin "bureau"))) = None.
Proof. by vm_compute. Qed.
