(* ===== verification/Users.v ===== *)
(** * Identities: internal/auth/users.go and infrastructure/postgres/users.go

    The record of an identity, its role, and the PostgreSQL store with the
    constraints and the row-level security of the [users] table. *)

From S2P Require Import Prelude GoLib Rbac.

(** ** internal/auth/users.go *)

Record UserRecord : Type := mkUser {
  u_ID : string; u_Username : string; u_DisplayName : string; u_Email : string; u_IsFounder : bool; u_Role : Role;
  u_WorkspaceID : string; u_PasswordHash : string; u_CreatedAt : time; u_UpdatedAt : time
}.

Inductive user_err : Type :=
| ErrUserNotFound
| ErrUserExists
| ErrWorkspaceText
| ErrUserStore (msg : string).

#[export] Instance user_err_eq_dec : EqDecision user_err.
Proof. solve_decision. Defined.

Definition RoleFor (u : UserRecord) : Role :=
  if u_IsFounder u then RoleFounder else if ValidRole (u_Role u) then u_Role u else RoleWorkspaceMember.

(** ** The users table *)

Record UserRow : Type := mkUserRow {
  ur_Username : string; ur_PasswordHash : string; ur_DisplayName : string; ur_Email : string; ur_IsFounder : bool;
  ur_Role : Role; ur_Workspace : option uuid; ur_CreatedAt : time; ur_UpdatedAt : time
}.

Record UserDB : Type := mkUserDB { ud_rows : gmap uuid UserRow; ud_workspaces : gset uuid }.

(** The CHECK constraints of [migrateUsers]. *)
Definition users_check (r : UserRow) : bool :=
  ValidRole (ur_Role r) && Bool.eqb (ur_IsFounder r) (bool_decide (ur_Role r = RoleFounder))
  && (negb (ur_IsFounder r) || bool_decide (ur_Workspace r = None))
  && (ur_IsFounder r || negb (bool_decide (ur_Workspace r = None))).

(** users_username_unique, idx_users_single_founder. *)
Definition clashes (r r' : UserRow) : bool :=
  String.eqb (ur_Username r) (ur_Username r') || (ur_IsFounder r && ur_IsFounder r').

Definition unicity (id : uuid) (r : UserRow) (db : UserDB) : bool :=
  bool_decide (ud_rows db !! id = None) && forallb (fun kv => negb (clashes r kv.2)) (map_to_list (ud_rows db)).

Section store.
Context `{UuidText, UuidParse, StoredTime}.

(** user_scope_policy, in a session bound to no workspace: [principal] is the
    setting app.auth_principal. *)
Definition user_visible (principal : option string) (id : uuid) (r : UserRow) : bool :=
  ur_IsFounder r || bool_decide (principal = Some (ur_Username r)) || bool_decide (principal = Some (uuid_String id)).

(** Is row-level security enforced on the connection? *)
Variable rls : bool.

Definition seen (principal : option string) (db : UserDB) : list (uuid * UserRow) :=
  filter (fun kv => negb rls || user_visible principal kv.1 kv.2 = true) (map_to_list (ud_rows db)).

Definition scanUser (id : uuid) (r : UserRow) : UserRecord :=
  mkUser (uuid_String id) (ur_Username r) (ur_DisplayName r) (ur_Email r) (ur_IsFounder r) (ur_Role r)
    (match ur_Workspace r with Some w => uuid_String w | None => "" end) (ur_PasswordHash r) (ur_CreatedAt r) (ur_UpdatedAt r).

Definition bad_text : user_err := ErrUserStore "22021".

(** [UserStore.ByUsername]: the setting and the query, one transaction. *)
Definition ByUsername (username : string) (db : UserDB) : res user_err UserRecord :=
  guard! text_ok username else bad_text in
  match filter (fun kv => ur_Username kv.2 = username) (seen (Some username) db) with
  | [] => Err ErrUserNotFound
  | (id, r) :: _ => Ok (scanUser id r)
  end.

Definition ByID (id : string) (db : UserDB) : res user_err UserRecord :=
  match uuid_Parse id with
  | None => Err ErrUserNotFound
  | Some uid =>
      match filter (fun kv => kv.1 = uid) (seen (Some (uuid_String uid)) db) with
      | [] => Err ErrUserNotFound
      | (_, r) :: _ => Ok (scanUser uid r)
      end
  end.

(** [UserStore.Create]; [id] is what gen_random_uuid draws.  The policy is
    checked before the constraints, and the foreign key after them. *)
Definition user_row (u : UserRecord) (ws : option uuid) (now : time) : UserRow :=
  mkUserRow (u_Username u) (u_PasswordHash u) (u_DisplayName u) (u_Email u) (u_IsFounder u) (RoleFor u) ws
    (stored_time now) (stored_time now).

Definition insert_user (id : uuid) (r : UserRow) (db : UserDB) : res user_err UserDB :=
  guard! text_ok (ur_Username r) && text_ok (ur_PasswordHash r) && text_ok (ur_DisplayName r) && text_ok (ur_Email r) else bad_text in
  guard! negb rls || user_visible None id r else ErrUserStore "42501" in
  guard! users_check r else ErrUserExists in
  guard! unicity id r db else ErrUserExists in
  guard! match ur_Workspace r with Some w => bool_decide (w ∈ ud_workspaces db) | None => true end else ErrUserStore "23503" in
  Ok (mkUserDB (<[id := r]> (ud_rows db)) (ud_workspaces db)).

Definition Users_Create (id : uuid) (u : UserRecord) (now : time) (db : UserDB) : res user_err (UserRecord * UserDB) :=
  let role := RoleFor u in
  let workspace := if bool_decide (role = RoleFounder) then "" else u_WorkspaceID u in
  try! ws := (if String.eqb workspace "" then Ok None
              else match uuid_Parse workspace with Some w => Ok (Some w) | None => Err ErrWorkspaceText end) in
  let r := user_row u ws now in
  try! db' := insert_user id r db in
  Ok (mkUser (uuid_String id) (u_Username u) (u_DisplayName u) (u_Email u) (u_IsFounder u) role workspace (u_PasswordHash u)
        (ur_CreatedAt r) (ur_UpdatedAt r), db').
End store.

(** ** What the constraints keep *)

(** The table as its constraints leave it. *)
Definition users_ok (db : UserDB) : Prop :=
  (forall id r, ud_rows db !! id = Some r -> users_check r = true) /\
  (forall i j ri rj, ud_rows db !! i = Some ri -> ud_rows db !! j = Some rj -> clashes ri rj = true -> i = j).

Lemma clashes_sym r r' : clashes r r' = clashes r' r.
Proof. unfold clashes. by rewrite String.eqb_sym, andb_comm. Qed.

Lemma unicity_spec id r db :
  unicity id r db = true <-> ud_rows db !! id = None /\ forall j rj, ud_rows db !! j = Some rj -> clashes r rj = false.
Proof.
  unfold unicity. rewrite andb_true_iff, bool_decide_eq_true, forallb_forall. f_equiv. split.
  - intros Hf j rj Hj. apply negb_true_iff, (Hf (j, rj)), list_elem_of_In. by apply elem_of_map_to_list.
  - intros Hf [j rj] Hj%list_elem_of_In. apply negb_true_iff, (Hf j). by apply elem_of_map_to_list in Hj.
Qed.

Lemma insert_user_ok `{UuidText} rls id r db db' : users_ok db -> insert_user rls id r db = Ok db' ->
  users_ok db' /\ ud_rows db' = <[id := r]> (ud_rows db) /\ ud_rows db !! id = None /\
  (forall j rj, ud_rows db !! j = Some rj -> clashes r rj = false).
Proof.
  intros [Hc Hu] Hi. unfold insert_user in Hi. apply guard_Ok in Hi as [_ Hi]. apply guard_Ok in Hi as [_ Hi].
  apply guard_Ok in Hi as [Hr Hi]. apply guard_Ok in Hi as [[Hn Hf]%unicity_spec Hi]. apply guard_Ok in Hi as [_ [= <-]]. simpl.
  split; [|done]. split; simpl.
  - intros j rj. rewrite lookup_insert_Some. intros [[<- <-]|[_ Hj]]; [done|by eapply Hc].
  - intros i j ri rj. rewrite !lookup_insert_Some. intros [[<- <-]|[Ni Hi]] [[<- <-]|[Nj Hj]] Hcl; [done| | |by eapply Hu].
    + by rewrite (Hf j rj Hj) in Hcl.
    + rewrite clashes_sym, (Hf i ri Hi) in Hcl. done.
Qed.
