(* ===== verification/Login.v ===== *)
(** * Authentication over HTTP: internal/api/handler.go and middleware.go

    The endpoints that create the founder, sign in, refresh, sign out and show
    the caller's profile, over the users table, the refresh tokens of one
    process, the rate limiter and the audit sink; and the middleware that turns
    a bearer token into verified claims.  bcrypt and the signing and parsing of
    JWTs belong to third-party modules and are parameters. *)

From S2P Require Import Prelude GoLib GoText Rbac Authz AuditChain Throttle Refresh Users Http.

(** golang.org/x/crypto/bcrypt; the salt of a hash is drawn per call. *)
Class Bcrypt : Type := {
  bcrypt_Generate : nat -> string -> res string string;
  bcrypt_Compare : string -> string -> bool
}.

(** What an access token is signed over. *)
Record AccessClaims : Type := mkAccess {
  ac_Claims : Claims; ac_Subject : string; ac_IssuedAt : time; ac_ExpiresAt : time; ac_TokenID : string
}.

(** github.com/golang-jwt, with the secrets of the service: signing, and parsing
    with the checks of signature, issuer, audience and expiry at a time. *)
Class Jwt : Type := {
  jwt_SignAccess : AccessClaims -> res string string;
  jwt_ParseAccess : time -> string -> res string Claims;
  jwt_SignRefresh : RefreshClaims -> res string string;
  jwt_ParseRefresh : time -> string -> res string string;
  jwt_Subject : time -> string -> res string string
}.

Definition accessTokenTTLSeconds : Z := 15 * 60.

(** The users table; the refresh tokens and the rate limiter of this process;
    what the sink has kept, latest first; the password comparisons made, latest
    first; and the calls so far. *)
Record World : Type := mkWorld {
  w_db : UserDB;
  w_tokens : gmap string StoredRefreshToken;
  w_limits : RateLimiter;
  w_audit : list Audited;
  w_compared : list (string * string);
  w_at : nat
}.

Record tokenResponse : Type := mkTokens { tr_Access : string; tr_ExpiresIn : Z; tr_Refresh : string }.
Record meResponse : Type := mkMe {
  me_ID : string; me_Username : string; me_DisplayName : string; me_Email : string; me_Role : Role; me_IsFounder : bool;
  me_WorkspaceID : string
}.
Inductive AuthAnswer : Type := Initialized | Tokens (t : tokenResponse) | NoContent | Profile (m : meResponse).

Record credentialsRequest : Type := mkCredentials { cr_Username : string; cr_Password : string }.
Record refreshRequest : Type := mkRefresh { rr_Token : string }.

Definition unauthorized {A} (message : string) : Response A := Refused 401 message.
Definition serverError {A} : Response A := Refused 500 "internal error".

Section auth.
Context `{UuidText, UuidParse, StoredTime, Bcrypt, Jwt}.

(** The tick of each call, and what it draws: the identifier gen_random_uuid
    gives a row, the text uuid.NewString gives a token, the correlation
    identifiers a request came without. *)
Variable env : nat -> TxTick UserDB.
Variable draw_row : nat -> uuid.
Variable draw_token : nat -> string.
Variable draw_header : nat -> bool -> string.

(** Is row-level security enforced; the order the two maps are ranged over; the
    configured founder; the decoy hash; the audit sink. *)
Variable rls : bool.
Variable iter_tokens : gmap string StoredRefreshToken -> list (string * StoredRefreshToken).
Variable iter_limits : gmap string windowEntry -> list (string * windowEntry).
Variables founderUsername founderPassword : string.
Variable dummyHash : string.
Variable sink : Sink.

Abbreviation M := (act World (Response AuthAnswer)).

(** *** The layers below *)

Definition stepped (w : World) : World := mkWorld (w_db w) (w_tokens w) (w_limits w) (w_audit w) (w_compared w) (S (w_at w)).

Definition tx {A} (op : time -> UserDB -> res user_err (A * UserDB)) : M (res user_err A) := fun w =>
  let '(r, db) := run_tx ErrUserStore (env (w_at w)) op (w_db w) in
  (Ok r, stepped (mkWorld db (w_tokens w) (w_limits w) (w_audit w) (w_compared w) (w_at w))).
Definition read {A} (op : UserDB -> res user_err A) : M (res user_err A) := tx (fun _ db => try! a := op db in Ok (a, db)).

Definition at_now : M (nat * time) := fun w => (Ok (w_at w, tt_now (env (w_at w))), stepped w).

Definition limit (route : string) (rule : rateRule) (r : Request) : M bool := fun w =>
  let '(ok, l) := RateLimiter_Allow iter_limits (rateKey route r) rule (tt_now (env (w_at w))) (w_limits w) in
  (Ok ok, stepped (mkWorld (w_db w) (w_tokens w) l (w_audit w) (w_compared w) (w_at w))).

(** A call of the token service, its visits of the table taken together;
    RefreshProps has them interleave. *)
Definition tokens {A} (f : AuthTick -> gmap string StoredRefreshToken -> A * gmap string StoredRefreshToken) : M A := fun w =>
  let '(a, m) := f (mkAuthTick (fun i => tt_now (env (w_at w + i))) (draw_token (w_at w))) (w_tokens w) in
  (Ok a, stepped (mkWorld (w_db w) m (w_limits w) (w_audit w) (w_compared w) (w_at w))).

(** [auth.CheckPasswordHash] *)
Definition CheckPasswordHash (hashed plaintext : string) : M bool := fun w =>
  (Ok (bcrypt_Compare hashed plaintext),
   mkWorld (w_db w) (w_tokens w) (w_limits w) (w_audit w) ((hashed, plaintext) :: w_compared w) (w_at w)).

(** [AuthHandler.recordAudit] *)
Definition recordAudit (r : Request) (rec : Audited) : M (res sink_err unit) := fun w =>
  let cv := ExtractContextValues (draw_header (w_at w)) r in
  let '(res, kept) := sink_append sink (w_at w) (mkAudited (correlated true cv (aa_Record rec)) (aa_Detail rec)) (w_audit w) in
  (Ok res, stepped (mkWorld (w_db w) (w_tokens w) (w_limits w) kept (w_compared w) (w_at w))).

Definition authEvent (actorID eventType outcome detail : string) : Audited :=
  mkAudited (mkRecord eventType "user" (parseActorID actorID) "user" (parseActorID actorID) outcome "Security by Design" None
                 uuid_Nil uuid_Nil) detail.

(** *** The access tokens of internal/auth/auth.go *)

Definition GenerateAccessTokenWithPermissions (userID workspaceID : string) (role : Role) (permissions : gmap string (list string))
  : M (res string string) := fun w =>
  let now := tt_now (env (w_at w)) in
  (Ok (jwt_SignAccess (mkAccess (mkClaims userID role workspaceID permissions) userID now (now + 15 * Minute)%Z (draw_token (w_at w)))),
   stepped w).

Definition VerifyAccessToken (now : time) (token : string) : option Claims :=
  match jwt_ParseAccess now token with
  | Ok c => if validateClaimsShape c then Some c else None
  | Err _ => None
  end.

Definition BearerClaims (bearer : string) (verify : string -> option Claims) : option Claims :=
  let token := TrimSpace bearer in
  if HasPrefix token "Bearer " then
    let raw := TrimSpace (of_bytes (drop 7 (bytes token))) in
    if String.eqb raw "" then None else verify raw
  else None.

Definition SubjectFromRefreshToken (now : time) (token : string) : res auth_err string :=
  match jwt_Subject now token with
  | Err e => Err (ErrJWT e)
  | Ok "" => Err ErrInvalidToken
  | Ok subject => Ok subject
  end.

(** [AuthHandler.RequireAuth]: the request handed on, or a refusal. *)
Definition RequireAuth {A} (now : time) (r : Request) : res (Response A) Request :=
  let header := rq_Header r "Authorization" in
  if String.eqb header "" then Ok r
  else match BearerClaims header (VerifyAccessToken now) with
       | Some c => Ok (WithClaims r c)
       | None => Err (unauthorized "unauthorized")
       end.

(** *** The endpoints *)

Definition too_many : Response AuthAnswer := Refused 429 "too many requests".

Definition Bootstrap (r : Request) : handler World AuthAnswer :=
  ok <~ limit "bootstrap" bootstrapRateRule r ;;
  require! ok else too_many ;;
  require! negb (String.eqb founderUsername "" || String.eqb founderPassword "") else Refused 409 "bootstrap not configured" ;;
  t <~ at_now ;;
  match bcrypt_Generate t.1 founderPassword with
  | Err _ => act_fail serverError
  | Ok hash =>
      let u := mkUser "" founderUsername founderUsername "" true RoleFounder "" hash 0 0 in
      created <~ tx (fun now db => Users_Create rls (draw_row t.1) u now db) ;;
      match created with
      | Err ErrUserExists =>
          recordAudit r (authEvent "" "auth.bootstrap" "denied" "already_initialized") ;;!
          act_ret (Refused 409 "already initialized")
      | Err _ => act_fail serverError
      | Ok u =>
          recorded <~ recordAudit r (authEvent (u_ID u) "auth.bootstrap" "success" "founder_created") ;;
          require! match recorded with Ok _ => true | Err _ => false end else serverError ;;
          act_ret (Answered 201 Initialized)
      end
  end.

Definition issueTokens (u : UserRecord) : M (res string tokenResponse) :=
  let role := RoleFor u in
  access <~ GenerateAccessTokenWithPermissions (u_ID u) (u_WorkspaceID u) role (PermissionsForRole role) ;;
  match access with
  | Err e => act_ret (Err e)
  | Ok access =>
      refresh <~ tokens (fun t => IssueRefreshToken iter_tokens jwt_SignRefresh t (u_ID u)) ;;
      match refresh with
      | Err _ => act_ret (Err "refresh"%string)
      | Ok refresh => act_ret (Ok (mkTokens access accessTokenTTLSeconds refresh))
      end
  end.

Definition invalid_credentials : Response AuthAnswer := unauthorized "invalid credentials".

Definition Login (r : Request) (body : Body credentialsRequest) : handler World AuthAnswer :=
  ok <~ limit "login" loginRateRule r ;;
  require! ok else too_many ;;
  req <~ act_lift (decodeJSON body) ;;
  if String.eqb (cr_Username req) "" || String.eqb (cr_Password req) "" then
    CheckPasswordHash dummyHash (cr_Password req) ;;!
    act_ret invalid_credentials
  else
    found <~ read (ByUsername rls (cr_Username req)) ;;
    match found with
    | Err ErrUserNotFound =>
        CheckPasswordHash dummyHash (cr_Password req) ;;!
        recordAudit r (authEvent "" "auth.login" "denied" "invalid_credentials") ;;!
        act_ret invalid_credentials
    | Err _ => act_fail serverError
    | Ok u =>
        matches <~ CheckPasswordHash (u_PasswordHash u) (cr_Password req) ;;
        if negb matches then
          recordAudit r (authEvent (u_ID u) "auth.login" "denied" "invalid_credentials") ;;!
          act_ret invalid_credentials
        else
          resp <~ issueTokens u ;;
          match resp with
          | Err _ => act_fail serverError
          | Ok resp =>
              recorded <~ recordAudit r (authEvent (u_ID u) "auth.login" "success" "issued") ;;
              require! match recorded with Ok _ => true | Err _ => false end else serverError ;;
              act_ret (Answered 200 (Tokens resp))
          end
    end.

Definition invalid_token : Response AuthAnswer := unauthorized "invalid token".

Definition RefreshHandler (r : Request) (body : Body refreshRequest) : handler World AuthAnswer :=
  ok <~ limit "refresh" refreshRateRule r ;;
  require! ok else too_many ;;
  req <~ act_lift (decodeJSON body) ;;
  require! negb (String.eqb (rr_Token req) "") else invalid_token ;;
  t <~ at_now ;;
  match SubjectFromRefreshToken t.2 (rr_Token req) with
  | Err _ => act_fail invalid_token
  | Ok subject =>
      found <~ read (ByID rls subject) ;;
      match found with
      | Err ErrUserNotFound => act_fail invalid_token
      | Err _ => act_fail serverError
      | Ok u =>
          rotated <~ tokens (fun t => Refresh iter_tokens jwt_SignRefresh jwt_ParseRefresh t (rr_Token req)) ;;
          match rotated with
          | Err e =>
              let detail := match e with ErrRefreshTokenReused => "replay_detected" | _ => "token_rejected" end in
              recordAudit r (authEvent (u_ID u) "auth.refresh" "denied" detail) ;;!
              act_ret invalid_token
          | Ok newRefresh =>
              access <~ GenerateAccessTokenWithPermissions (u_ID u) (u_WorkspaceID u) (RoleFor u) (PermissionsForRole (RoleFor u)) ;;
              match access with
              | Err _ => act_fail serverError
              | Ok access =>
                  recorded <~ recordAudit r (authEvent (u_ID u) "auth.refresh" "success" "rotated") ;;
                  require! match recorded with Ok _ => true | Err _ => false end else serverError ;;
                  act_ret (Answered 200 (Tokens (mkTokens access accessTokenTTLSeconds newRefresh)))
              end
          end
      end
  end.

Definition Logout (r : Request) (body : Body refreshRequest) : handler World AuthAnswer :=
  ok <~ limit "logout" logoutRateRule r ;;
  require! ok else too_many ;;
  req <~ act_lift (decodeJSON body) ;;
  require! negb (String.eqb (rr_Token req) "") else invalid_token ;;
  tokens (fun _ m => (tt, RevokeRefreshToken (rr_Token req) m)) ;;!
  recorded <~ recordAudit r (authEvent "" "auth.logout" "success" "revoked") ;;
  require! match recorded with Ok _ => true | Err _ => false end else serverError ;;
  act_ret (Answered 204 NoContent).

Definition Me (r : Request) : handler World AuthAnswer :=
  match FromRequest r with
  | None => act_fail (unauthorized "unauthorized")
  | Some claims =>
      found <~ read (ByID rls (cl_ID claims)) ;;
      match found with
      | Err ErrUserNotFound => act_fail (unauthorized "unauthorized")
      | Err _ => act_fail serverError
      | Ok u => act_ret (Answered 200 (Profile (mkMe (u_ID u) (u_Username u) (u_DisplayName u) (u_Email u) (RoleFor u)
                                                  (u_IsFounder u) (u_WorkspaceID u))))
      end
  end.
End auth.
