(* ===== verification/LoginProps.v ===== *)
(** * What authentication over HTTP guarantees

    Refusals do not depend on who exists; a session is given for a matching
    password only, with the claims of the database row; at most one founder
    under every interleaving; and what is on the audit chain when a request
    succeeds. *)

From S2P Require Import Prelude GoLib GoText Rbac Authz AuditChain Throttle Refresh Users Http Login.

(** The rest of a handler that can only refuse. *)
Ltac refused := unfold act_bind, recordAudit, act_ret, act_fail; repeat case_match; intros; simplify_eq/=; by eauto.

Section props.
Context `{UuidText, UuidParse, StoredTime, Bcrypt, Jwt}.
Variable env : nat -> TxTick UserDB.
Variable draw_row : nat -> uuid.
Variable draw_token : nat -> string.
Variable draw_header : nat -> bool -> string.
Variable rls : bool.
Variable iter_tokens : gmap string StoredRefreshToken -> list (string * StoredRefreshToken).
Variable iter_limits : gmap string windowEntry -> list (string * windowEntry).
Variables founderUsername founderPassword dummyHash : string.
Variable sink : Sink.

Abbreviation login := (Login env draw_token draw_header rls iter_tokens iter_limits dummyHash sink).

Abbreviation issue_tokens := (issueTokens env draw_token iter_tokens).

(** What an access token is signed over for an identity. *)
Definition claims_of (u : UserRecord) : Claims := mkClaims (u_ID u) (RoleFor u) (u_WorkspaceID u) (PermissionsForRole (RoleFor u)).

(** An access token for [u]. *)
Definition access_for (u : UserRecord) (token : string) : Prop :=
  exists now id, jwt_SignAccess (mkAccess (claims_of u) (u_ID u) now (now + 15 * Minute)%Z id) = Ok token.

(** A refresh token of [userID] that is in the table and was not used. *)
Definition live_refresh (userID token : string) (m : gmap string StoredRefreshToken) : Prop :=
  exists rt, m !! hashToken token = Some rt /\ st_UserID rt = userID /\ st_Used rt = false /\ st_Revoked rt = false.

Lemma issueRefreshToken_live userID id family now later m token m' :
  issueRefreshToken iter_tokens jwt_SignRefresh userID id family now later m = (Ok token, m') -> live_refresh userID token m'.
Proof.
  unfold issueRefreshToken. destruct (jwt_SignRefresh _) as [signed|]; [|done]. unfold Save. cbn [issued_record st_TokenHash].
  destruct (String.eqb _ _); [done|]. intros [= <- <-]. eexists. by rewrite lookup_insert_eq.
Qed.

Lemma issueTokens_spec u w : exists x w',
  issue_tokens u w = (Ok x, w') /\ w_db w' = w_db w /\ w_limits w' = w_limits w /\ w_audit w' = w_audit w /\ w_compared w' = w_compared w /\
  match x with Ok t => access_for u (tr_Access t) /\ live_refresh (u_ID u) (tr_Refresh t) (w_tokens w') | Err _ => True end.
Proof.
  unfold issueTokens, act_bind, GenerateAccessTokenWithPermissions. destruct (jwt_SignAccess _) as [access|] eqn:Ha; [|by eexists _, _].
  unfold tokens. destruct (IssueRefreshToken _ _ _ _ _) as [[refresh|] m] eqn:Hr; [|by eexists _, _].
  eexists _, _. split_and!; [done..|]. split; [by eexists _, _|]. by eapply issueRefreshToken_live.
Qed.

(** ** Refusals *)

(** Would the limiter let the request through? *)
Definition admitted_by (route : string) (rule : rateRule) (r : Request) (w : World) : bool :=
  (RateLimiter_Allow iter_limits (rateKey route r) rule (tt_now (env (w_at w))) (w_limits w)).1.

(** What a refused sign-in is answered, whoever exists. *)
Definition login_refusal (admitted : bool) (body : Body credentialsRequest) : Response AuthAnswer :=
  if admitted then match decodeJSON (R := AuthAnswer) body with Err e => e | Ok _ => invalid_credentials end else too_many.

(** The passwords a refused sign-in compares. *)
Definition login_compares (admitted : bool) (body : Body credentialsRequest) : list string :=
  if admitted then match decodeJSON (R := AuthAnswer) body with Err _ => [] | Ok req => [cr_Password req] end else [].

(** ** The audit chain of a success *)

(** The latest record of the sink. *)
Definition last_recorded (w : World) (actorID eventType outcome detail : string) : Prop :=
  exists a l, w_audit w = a :: l /\ aa_Detail a = detail /\ i_EventType (aa_Record a) = eventType /\
    i_Outcome (aa_Record a) = outcome /\ i_ActorID (aa_Record a) = parseActorID actorID.

Lemma recordAudit_spec r actorID eventType outcome detail w : exists x w',
  recordAudit draw_header sink r (authEvent actorID eventType outcome detail) w = (Ok x, w') /\
  w_db w' = w_db w /\ w_tokens w' = w_tokens w /\ w_limits w' = w_limits w /\ w_compared w' = w_compared w /\
  match x with Ok _ => last_recorded w' actorID eventType outcome detail | Err _ => True end.
Proof.
  unfold recordAudit, sink_append. destruct sink as [f|]; [|by eexists _, _]. destruct (f _) as [e|]; [by eexists _, _|].
  eexists _, _. split_and!; [done..|]. by eexists _, _.
Qed.

(** A read that found something found it in the table at its moment. *)
Lemma read_spec {A} (op : UserDB -> res user_err A) w : exists x db',
  read env op w = (Ok x, mkWorld db' (w_tokens w) (w_limits w) (w_audit w) (w_compared w) (S (w_at w))) /\
  forall a, x = Ok a -> op (tt_others (env (w_at w)) (w_db w)) = Ok a.
Proof.
  unfold read, tx. destruct (run_tx _ _ _ _) as [x db'] eqn:Hr. eexists _, _. split; [done|]. intros a ->.
  apply run_tx_Ok in Hr. by apply res_bind_Ok in Hr as (? & Ho & [= -> _]).
Qed.

Lemma seen_elem principal db kv : kv ∈ seen rls principal db -> ud_rows db !! kv.1 = Some kv.2.
Proof. unfold seen. intros [_ Hin]%list_elem_of_filter. destruct kv. by apply elem_of_map_to_list. Qed.

Lemma ByUsername_Ok username db u : ByUsername rls username db = Ok u ->
  exists id row, ud_rows db !! id = Some row /\ ur_Username row = username /\ u = scanUser id row.
Proof.
  unfold ByUsername. intros [_ Hf]%guard_Ok.
  destruct (filter _ _) as [|[id row] l] eqn:E; [done|]. injection Hf as <-. exists id, row.
  assert ((id, row) ∈ filter (fun kv : uuid * UserRow => ur_Username kv.2 = username) (seen rls (Some username) db)) as Hin by (rewrite E; left).
  apply list_elem_of_filter in Hin as [Hn Hin%seen_elem]. done.
Qed.

(** *** Refused sign-ins *)

(** Is a refused sign-in recorded at the step [n]? *)
Definition login_records (n : nat) (admitted : bool) (body : Body credentialsRequest) : bool :=
  match sink, decodeJSON (R := AuthAnswer) body with
  | Some f, Ok req =>
      admitted && negb (String.eqb (cr_Username req) "" || String.eqb (cr_Password req) "") && bool_decide (f n = None)
  | _, _ => false
  end.

(** The record of a refused sign-in: nothing of its body. *)
Definition denied_record (n : nat) (r : Request) (actorID : string) : Audited :=
  let rec := authEvent actorID "auth.login" "denied" "invalid_credentials" in
  mkAudited (correlated true (ExtractContextValues (draw_header n) r) (aa_Record rec)) (aa_Detail rec).

(** Nobody, or the identifier of a row. *)
Definition actor_text (actorID : string) : Prop := actorID = ""%string \/ exists id, actorID = uuid_String id.

Lemma recordAudit_denied r actorID w : exists x w',
  recordAudit draw_header sink r (authEvent actorID "auth.login" "denied" "invalid_credentials") w = (Ok x, w') /\
  w_tokens w' = w_tokens w /\ w_limits w' = w_limits w /\ w_compared w' = w_compared w /\
  w_audit w' = (if match sink with Some f => bool_decide (f (w_at w) = None) | None => false end
                then [denied_record (w_at w) r actorID] else []) ++ w_audit w.
Proof.
  unfold recordAudit, sink_append. destruct sink as [f|]; [|by eexists _, _]. destruct (f _) as [e|] eqn:Ef; by eexists _, _.
Qed.

Lemma login_refused r body w :
  let '(resp, w') := respond (login r body) w in
  let admitted := admitted_by "login" loginRateRule r w in
  status resp = 200%Z \/ status resp = 500%Z \/
  (resp = login_refusal admitted body /\
   w_limits w' = (RateLimiter_Allow iter_limits (rateKey "login" r) loginRateRule (tt_now (env (w_at w))) (w_limits w)).2 /\
   w_tokens w' = w_tokens w /\
   map snd (w_compared w') = login_compares admitted body ++ map snd (w_compared w) /\
   exists actorID, actor_text actorID /\
     w_audit w' = (if login_records (S (S (w_at w))) admitted body then [denied_record (S (S (w_at w))) r actorID] else []) ++ w_audit w).
Proof.
  assert (actor_text "") as Hnobody by (by left).
  unfold respond, Login, admitted_by, login_refusal, login_compares, login_records.
  unfold act_bind at 1. unfold limit. destruct (RateLimiter_Allow _ _ _ _ _) as [[] l]; cbn.
  2: { right; right. split_and!; [done..|]. exists ""%string. split; [done|]. destruct sink; [by destruct (decodeJSON _)|done]. }
  unfold act_bind at 1, act_lift. destruct (decodeJSON body) as [req|e]; cbn.
  2: { right; right. split_and!; [done..|]. exists ""%string. split; [done|]. by destruct sink. }
  destruct (_ || _); cbn.
  { right; right. split_and!; [done..|]. exists ""%string. split; [done|]. by destruct sink. }
  unfold act_bind at 1. edestruct (read_spec (ByUsername rls (cr_Username req))) as (x & db' & -> & Hx).
  destruct x as [u|[]]; cbn; try solve [auto].
  - destruct (ByUsername_Ok _ _ _ (Hx u eq_refl)) as (id & row & _ & _ & ->). unfold act_bind at 1. cbn.
    destruct (bcrypt_Compare _ _); cbn.
    + unfold act_bind at 1. edestruct issueTokens_spec as (x & w' & -> & _). destruct x as [resp|e]; [|cbn; auto].
      unfold act_bind at 1, recordAudit. destruct (sink_append _ _ _ _) as [[|] kept]; cbn; auto.
    + unfold act_bind. edestruct recordAudit_denied as (y & w' & -> & Et & El & Ec & Ea). cbn.
      right; right. rewrite Et, El, Ec, Ea. split_and!; [done..|]. exists (uuid_String id). split; [right; by exists id|]. by destruct sink.
  - unfold act_bind at 1. cbn. unfold act_bind. edestruct recordAudit_denied as (y & w' & -> & Et & El & Ec & Ea). cbn.
    right; right. rewrite Et, El, Ec, Ea. split_and!; [done..|]. exists ""%string. split; [done|]. by destruct sink.
Qed.

Lemma ByID_Ok id db u : ByID rls id db = Ok u ->
  exists uid row, uuid_Parse id = Some uid /\ ud_rows db !! uid = Some row /\ u = scanUser uid row.
Proof.
  unfold ByID. destruct (uuid_Parse id) as [uid|]; [|done].
  destruct (filter _ _) as [|[k row] l] eqn:E; [done|]. intros [= <-]. exists uid, row. split; [done|].
  assert ((k, row) ∈ filter (fun kv : uuid * UserRow => kv.1 = uid) (seen rls (Some (uuid_String uid)) db)) as Hin by (rewrite E; left).
  apply list_elem_of_filter in Hin as [Hn Hin%seen_elem]. simpl in *. by subst.
Qed.

(** The claims of a row are of a shape the verifier accepts. *)
Lemma row_claims_shape id row : users_check row = true -> uuid_String id <> "" ->
  (forall ws, ur_Workspace row = Some ws -> uuid_String ws <> "") -> validateClaimsShape (claims_of (scanUser id row)) = true.
Proof.
  unfold users_check, validateClaimsShape, claims_of, RoleFor. cbn [cl_ID cl_Role cl_WorkspaceID scanUser u_ID u_IsFounder u_Role u_WorkspaceID].
  intros [[[Hv Hf%eqb_prop]%andb_true_iff Hw]%andb_true_iff Hn]%andb_true_iff Hid%String.eqb_neq Hws. rewrite Hv, Hid.
  destruct (ur_IsFounder row); simpl in *.
  - bool_prop. match goal with X : ur_Workspace row = None |- _ => by rewrite X end.
  - destruct (ur_Workspace row) as [ws|] eqn:E; [|done]. specialize (Hws ws eq_refl). apply String.eqb_neq in Hws.
    symmetry in Hf. apply bool_decide_eq_false in Hf. by destruct (ur_Role row); simpl; rewrite ?Hws.
Qed.

Lemma Login_granted r body w resp w' :
  respond (login r body) w = (resp, w') -> is_success (status resp) = true ->
  exists req t id row, resp = Answered 200 (Tokens t) /\ decodeJSON (R := AuthAnswer) body = Ok req /\
    ud_rows (tt_others (env (S (w_at w))) (w_db w)) !! id = Some row /\ ur_Username row = cr_Username req /\
    bcrypt_Compare (ur_PasswordHash row) (cr_Password req) = true /\
    access_for (scanUser id row) (tr_Access t) /\ live_refresh (uuid_String id) (tr_Refresh t) (w_tokens w') /\
    last_recorded w' (uuid_String id) "auth.login" "success" "issued".
Proof.
  unfold respond, Login. unfold act_bind at 1, limit. destruct (RateLimiter_Allow _ _ _ _ _) as [[] l]; cbn; [|refused].
  unfold act_bind at 1, act_lift. unfold decodeJSON. destruct (bd_first body) as [req|]; [destruct (bd_more body)|]; cbn; [refused| |refused].
  destruct (_ || _); cbn; [refused|].
  unfold act_bind at 1. match goal with |- context [read env ?op ?w0] => destruct (read_spec op w0) as (x & db' & -> & Hx) end.
  destruct x as [u|e]; cbn in *.
  2: { destruct e; refused. }
  destruct (ByUsername_Ok _ _ _ (Hx u eq_refl)) as (id & row & Hrow & Hname & ->).
  unfold act_bind at 1. cbn. destruct (bcrypt_Compare _ _) eqn:Hc; cbn.
  2: { refused. }
  unfold act_bind at 1. edestruct issueTokens_spec as (x & w1 & -> & _ & _ & _ & _ & Ht). destruct x as [t|e]; [|refused].
  destruct Ht as [Ha Hl]. unfold act_bind at 1.
  edestruct recordAudit_spec as (x & w2 & -> & _ & Htok & _ & _ & Hrec). destruct x as [|e]; [|refused].
  intros [= <- <-] _. exists req, t, id, row. rewrite Htok. done.
Qed.

Abbreviation refresh := (RefreshHandler env draw_token draw_header rls iter_tokens iter_limits sink).
Abbreviation logout := (Logout env draw_token draw_header iter_limits sink).
Abbreviation bootstrap := (Bootstrap env draw_row draw_header rls iter_limits founderUsername founderPassword sink).

(** A rotation was given for a live token of the table. *)
Lemma Refresh_Ok t token m new m' : Refresh iter_tokens jwt_SignRefresh jwt_ParseRefresh t token m = (Ok new, m') ->
  exists rt userID, m !! hashToken token = Some rt /\ st_Used rt = false /\ st_Revoked rt = false /\
    jwt_ParseRefresh (au_clock t 0) token = Ok userID /\ live_refresh userID new m'.
Proof.
  unfold Refresh, Refresh_check, Refresh_read. destruct (jwt_ParseRefresh _ _) as [userID|]; [|done].
  unfold StoreGet. destruct (m !! hashToken token) as [rt|] eqn:Hm; [|done]. destruct (st_Used rt) eqn:Hu; [done|]. destruct (st_Revoked rt) eqn:Hr; [done|].
  simpl. destruct (_ <? _)%Z; [done|]. unfold Refresh_rotate. destruct (Save _ _ _ _) as [[|] m1]; [|done].
  intros Hi. exists rt, userID. split_and!; [done..|]. by eapply issueRefreshToken_live.
Qed.

Lemma refresh_granted r body w resp w' :
  respond (refresh r body) w = (resp, w') -> is_success (status resp) = true ->
  exists req t subject id row rt userID, resp = Answered 200 (Tokens t) /\ decodeJSON (R := AuthAnswer) body = Ok req /\
    jwt_Subject (tt_now (env (S (w_at w)))) (rr_Token req) = Ok subject /\ uuid_Parse subject = Some id /\
    ud_rows (tt_others (env (S (S (w_at w)))) (w_db w)) !! id = Some row /\
    w_tokens w !! hashToken (rr_Token req) = Some rt /\ st_Used rt = false /\ st_Revoked rt = false /\
    access_for (scanUser id row) (tr_Access t) /\ live_refresh userID (tr_Refresh t) (w_tokens w') /\
    (exists now, jwt_ParseRefresh now (rr_Token req) = Ok userID) /\
    last_recorded w' (uuid_String id) "auth.refresh" "success" "rotated".
Proof.
  unfold respond, RefreshHandler. unfold act_bind at 1, limit. destruct (RateLimiter_Allow _ _ _ _ _) as [[] l]; cbn; [|refused].
  unfold act_bind at 1, act_lift. unfold decodeJSON. destruct (bd_first body) as [req|]; [destruct (bd_more body)|]; cbn; [refused| |refused].
  destruct (String.eqb _ _); cbn; [refused|]. unfold act_bind at 1. cbn.
  unfold SubjectFromRefreshToken. destruct (jwt_Subject _ _) as [subject|] eqn:Hs; [|refused]. destruct subject as [|c cs]; [refused|].
  unfold act_bind at 1. match goal with |- context [read env ?op ?w0] => destruct (read_spec op w0) as (x & db' & -> & Hx) end.
  destruct x as [u|e]; cbn in *; [|destruct e; refused].
  destruct (ByID_Ok _ _ _ (Hx u eq_refl)) as (id & row & Hid & Hrow & ->).
  unfold act_bind at 1, tokens. destruct (Refresh _ _ _ _ _ _) as [[new|e] m] eqn:Hr; cbn; [|refused].
  destruct (Refresh_Ok _ _ _ _ _ Hr) as (rt & userID & Hrt & Hu & Hrv & Hp & Hl).
  unfold act_bind at 1, GenerateAccessTokenWithPermissions. destruct (jwt_SignAccess _) as [access|] eqn:Ha; [|refused].
  unfold act_bind. edestruct recordAudit_spec as (x & w2 & -> & _ & Htok & _ & _ & Hrec). destruct x as [|e]; [|refused].
  intros [= <- <-] _. exists req, (mkTokens access accessTokenTTLSeconds new), (String c cs), id, row, rt, userID. rewrite Htok.
  split_and!; try done; first [by eexists _, _ | by eexists _].
Qed.

Lemma logout_done r body w resp w' :
  respond (logout r body) w = (resp, w') -> is_success (status resp) = true ->
  exists req, resp = Answered 204 NoContent /\ decodeJSON (R := AuthAnswer) body = Ok req /\
    w_tokens w' = RevokeRefreshToken (rr_Token req) (w_tokens w) /\ last_recorded w' "" "auth.logout" "success" "revoked".
Proof.
  unfold respond, Logout. unfold act_bind at 1, limit. destruct (RateLimiter_Allow _ _ _ _ _) as [[] l]; cbn; [|refused].
  unfold act_bind at 1, act_lift. unfold decodeJSON. destruct (bd_first body) as [req|]; [destruct (bd_more body)|]; cbn; [refused| |refused].
  destruct (String.eqb _ _); cbn; [refused|]. unfold act_bind at 1. cbn.
  unfold act_bind. edestruct recordAudit_spec as (x & w2 & -> & _ & Htok & _ & _ & Hrec). destruct x as [|e]; [|refused].
  intros [= <- <-] _. exists req. by rewrite Htok.
Qed.

Lemma Users_Create_Ok id u now db u' db' : u_Role u = RoleFounder -> u_IsFounder u = true -> users_ok db ->
  Users_Create rls id u now db = Ok (u', db') ->
  users_ok db' /\ u_ID u' = uuid_String id /\ (forall j rj, ud_rows db !! j = Some rj -> ur_IsFounder rj = false) /\
  exists row, ud_rows db' = <[id := row]> (ud_rows db) /\ ur_IsFounder row = true /\ ur_Username row = u_Username u /\
    ur_PasswordHash row = u_PasswordHash u.
Proof.
  intros Hrole Hf Hok. unfold Users_Create. assert (RoleFor u = RoleFounder) as Hr by (unfold RoleFor; by rewrite Hf).
  rewrite Hr, bool_decide_eq_true_2 by done. cbn [String.eqb res_bind]. cbv zeta. intros Hi. apply res_bind_Ok in Hi as (db1 & Hi & [= <- <-]).
  destruct (insert_user_ok _ _ _ _ _ Hok Hi) as (Hok' & Hrows & _ & Hcl). split; [done|]. split; [done|]. split.
  - intros j rj Hj. specialize (Hcl j rj Hj). unfold clashes in Hcl. apply orb_false_iff in Hcl as [_ Hcl]. cbn in Hcl. by rewrite Hf in Hcl.
  - eexists. split; [exact Hrows|]. done.
Qed.

(** ** The table under requests *)

Definition has_founder (db : UserDB) : Prop := exists id row, ud_rows db !! id = Some row /\ ur_IsFounder row = true.

(** The constraints hold, and a founder stays. *)
Definition users_move (db db' : UserDB) : Prop := (users_ok db -> users_ok db') /\ (users_ok db -> has_founder db -> has_founder db').

#[local] Instance users_move_preorder : PreOrder users_move.
Proof. split; [by split|]. intros a b c [? ?] [? ?]. split; auto. Qed.

Hypothesis others_move : forall n db, users_move db (tt_others (env n) db).

Definition moves (s s' : World) : Prop := users_move (w_db s) (w_db s').
#[local] Instance moves_preorder : PreOrder moves.
Proof. unfold moves. split; [intros s; reflexivity|]. intros a b c. apply transitivity. Qed.

Lemma create_moves id u now db u' db' : u_Role u = RoleFounder -> u_IsFounder u = true ->
  Users_Create rls id u now db = Ok (u', db') -> users_move db db'.
Proof.
  intros Hr Hf Hc. split; intros Hok; destruct (Users_Create_Ok _ _ _ _ _ _ Hr Hf Hok Hc) as (Hok' & _ & _ & row & Hrows & Hfr & _); [done|].
  intros _. exists id, row. by rewrite Hrows, lookup_insert_eq.
Qed.

Lemma tx_moves {A} (op : time -> UserDB -> res user_err (A * UserDB)) :
  (forall now db a db', op now db = Ok (a, db') -> users_move db db') -> preserves moves (tx env op).
Proof.
  intros Hop w. unfold tx. destruct (run_tx _ _ _ _) as [x db'] eqn:Hr. unfold moves. simpl.
  apply (f_equal snd) in Hr. simpl in Hr. rewrite <-Hr. apply run_tx_rel; [apply _|apply others_move|]. intros a s'. apply Hop.
Qed.

Lemma read_moves {A} (op : UserDB -> res user_err A) : preserves moves (read env op).
Proof. apply tx_moves. intros now db a db' Ho. apply res_bind_Ok in Ho as (? & _ & [= _ <-]). reflexivity. Qed.

(** What leaves the table alone. *)
Lemma still_moves {A} (m : act World (Response AuthAnswer) A) : (forall w, w_db (m w).2 = w_db w) -> preserves moves m.
Proof. intros Hm w. unfold moves. rewrite Hm. reflexivity. Qed.

Lemma limit_moves route rule r : preserves moves (limit env iter_limits route rule r).
Proof. apply still_moves. intros w. unfold limit. by destruct (RateLimiter_Allow _ _ _ _ _). Qed.
Lemma tokens_moves {A} f : preserves moves (tokens (A := A) env draw_token f).
Proof. apply still_moves. intros w. unfold tokens. by destruct (f _ _). Qed.
Lemma at_now_moves : preserves moves (at_now env).
Proof. by apply still_moves. Qed.
Lemma compare_moves h p : preserves moves (CheckPasswordHash h p).
Proof. by apply still_moves. Qed.
Lemma access_moves a b c d : preserves moves (GenerateAccessTokenWithPermissions env draw_token a b c d).
Proof. by apply still_moves. Qed.
Lemma audit_moves r rec : preserves moves (recordAudit draw_header sink r rec).
Proof. apply still_moves. intros w. unfold recordAudit. by destruct (sink_append _ _ _ _). Qed.
Lemma issue_moves u : preserves moves (issue_tokens u).
Proof. apply still_moves. intros w. by destruct (issueTokens_spec u w) as (x & w' & -> & Hdb & _). Qed.

#[local] Hint Resolve read_moves limit_moves tokens_moves at_now_moves compare_moves access_moves audit_moves issue_moves : preserves.

Ltac moving :=
  repeat first
    [ progress auto with preserves typeclass_instances
    | apply preserves_bind; [apply _ | |intro]
    | apply preserves_lift; apply _ | apply preserves_ret; apply _ | apply preserves_fail; apply _
    | case_match ].

Inductive auth_request : Type :=
| ReqBootstrap (r : Request)
| ReqLogin (r : Request) (body : Body credentialsRequest)
| ReqRefresh (r : Request) (body : Body refreshRequest)
| ReqLogout (r : Request) (body : Body refreshRequest)
| ReqMe (r : Request).

Definition serve_auth (q : auth_request) : handler World AuthAnswer :=
  match q with
  | ReqBootstrap r => bootstrap r
  | ReqLogin r body => login r body
  | ReqRefresh r body => refresh r body
  | ReqLogout r body => logout r body
  | ReqMe r => Me env rls r
  end.

Lemma bootstrap_moves r : preserves moves (bootstrap r).
Proof.
  unfold Bootstrap. moving. apply tx_moves. intros now db u db' Hc. eapply create_moves; [| |exact Hc]; done.
Qed.

Lemma serve_auth_moves q : preserves moves (serve_auth q).
Proof. destruct q; simpl; [apply bootstrap_moves|unfold Login|unfold RefreshHandler|unfold Logout|unfold Me]; moving. Qed.

Lemma respond_moves q w : users_move (w_db w) (w_db (respond (serve_auth q) w).2).
Proof. pose proof (serve_auth_moves q w) as Hm. unfold moves in Hm. unfold respond. by destruct (serve_auth q w) as [[]]. Qed.

Lemma tx_run {A} (op : time -> UserDB -> res user_err (A * UserDB)) w : exists x db',
  tx env op w = (Ok x, mkWorld db' (w_tokens w) (w_limits w) (w_audit w) (w_compared w) (S (w_at w))) /\
  forall a, x = Ok a -> op (tt_now (env (w_at w))) (tt_others (env (w_at w)) (w_db w)) = Ok (a, db').
Proof.
  unfold tx. destruct (run_tx _ _ _ _) as [x db'] eqn:Hr. eexists _, _. split; [done|]. intros a ->. by apply run_tx_Ok in Hr.
Qed.

(** A founder is created in a table without one. *)
Lemma bootstrap_created r w resp w' :
  respond (bootstrap r) w = (resp, w') -> is_success (status resp) = true -> users_ok (w_db w) ->
  resp = Answered 201 Initialized /\ ~ has_founder (w_db w) /\
  exists id row, ud_rows (w_db w') !! id = Some row /\ ur_IsFounder row = true /\ ur_Username row = founderUsername /\
    (exists n, bcrypt_Generate n founderPassword = Ok (ur_PasswordHash row)) /\
    last_recorded w' (uuid_String id) "auth.bootstrap" "success" "founder_created".
Proof.
  unfold respond, Bootstrap. unfold act_bind at 1, limit. destruct (RateLimiter_Allow _ _ _ _ _) as [[] l]; cbn; [|refused].
  destruct (_ || _); cbn; [refused|]. unfold act_bind at 1. cbn. destruct (bcrypt_Generate _ _) as [hash|] eqn:Hg; [|refused].
  unfold act_bind at 1. match goal with |- context [tx env ?op ?w0] => destruct (tx_run op w0) as (x & db' & -> & Hx) end.
  destruct x as [u|e]; [|destruct e; refused]. specialize (Hx u eq_refl).
  unfold act_bind. edestruct recordAudit_spec as (x & w2 & -> & Hdb & _ & _ & _ & Hrec). destruct x as [|e]; [|refused].
  intros [= <- <-] _ Hok. split; [done|]. cbn in Hx, Hdb.
  destruct (others_move (S (S (w_at w))) (w_db w)) as [Hok1 Hstay]. specialize (Hok1 Hok).
  edestruct Users_Create_Ok as (_ & Hu & Hno & row & Hrows & Hf & Hn & Hp); [| |exact Hok1|exact Hx|]; [done..|]. split.
  - intros Hfo. destruct (Hstay Hok Hfo) as (j & rj & Hj & Hfj). by rewrite (Hno j rj Hj) in Hfj.
  - exists (draw_row (S (w_at w))), row. rewrite Hdb, Hrows, lookup_insert_eq, <-Hu.
    split_and!; [done..| |exact Hrec]. eexists. rewrite Hp. exact Hg.
Qed.

(** The answers of a run, latest last, and where it ends. *)
Fixpoint serve_all (qs : list auth_request) (w : World) : list (Response AuthAnswer) * World :=
  match qs with
  | [] => ([], w)
  | q :: qs' => let '(resp, w') := respond (serve_auth q) w in let '(l, w'') := serve_all qs' w' in (resp :: l, w'')
  end.

Definition created (resp : Response AuthAnswer) : bool := match resp with Answered s Initialized => (s =? 201)%Z | _ => false end.

Lemma other_not_created q w : match q with ReqBootstrap _ => False | _ => True end -> created (respond (serve_auth q) w).1 = false.
Proof.
  intros Hq. destruct (respond (serve_auth q) w) as [resp w'] eqn:E. simpl. destruct (is_success (status resp)) eqn:Es.
  - destruct q; simpl in E; [done|..].
    + by destruct (Login_granted _ _ _ _ _ E Es) as (? & ? & ? & ? & -> & _).
    + by destruct (refresh_granted _ _ _ _ _ E Es) as (? & ? & ? & ? & ? & ? & ? & -> & _).
    + by destruct (logout_done _ _ _ _ _ E Es) as (? & -> & _).
    + revert E. unfold respond, Me. destruct (FromRequest r); [|refused]. unfold act_bind.
      match goal with |- context [read env ?op ?w0] => destruct (read_spec op w0) as (x & db' & -> & _) end.
      destruct x as [u|[]]; refused.
  - destruct resp as [s a|]; [|done]. destruct a; try done. simpl in *. by destruct (Z.eqb_spec s 201) as [->|].
Qed.

Lemma serve_all_ok qs w : users_ok (w_db w) ->
  let '(l, w') := serve_all qs w in
  users_ok (w_db w') /\ length (filter (fun resp => created resp = true) l) <= 1 /\
  (has_founder (w_db w) -> length (filter (fun resp => created resp = true) l) = 0 /\ has_founder (w_db w')).
Proof.
  revert w. induction qs as [|q qs IH]; intros w Hok; simpl; [split_and!; auto; lia|].
  pose proof (respond_moves q w) as [Hok' Hstay]. pose proof (other_not_created q w) as Hother.
  destruct (respond (serve_auth q) w) as [resp w1] eqn:E. simpl in *. specialize (IH w1 (Hok' Hok)).
  destruct (serve_all qs w1) as [l w2]. destruct IH as (Hok2 & Hle & Hf). split; [done|].
  rewrite filter_cons. case_decide as Hc; simpl.
  - destruct q as [r| | | |]; try (rewrite Hother in Hc by done; done).
    assert (is_success (status resp) = true) as Hs by (destruct resp as [s []|]; try done; simpl in Hc; by apply Z.eqb_eq in Hc as ->).
    destruct (bootstrap_created _ _ _ _ E Hs Hok) as (-> & Hno & id & row & Hrow & Hfr & _).
    destruct (Hf ltac:(by exists id, row)) as [-> _]. split; [lia|done].
  - split; [done|]. intros Hfo. by apply Hf, Hstay.
Qed.
End props.

(** ** What is promised *)

(** A token the service signed is parsed back to what was signed, until the
    second it expires in; and it is printable text without spaces. *)
Class JwtLaws `{Jwt} : Prop := {
  jwt_parse_signed c token now : jwt_SignAccess c = Ok token -> (ac_IssuedAt c <= now)%Z -> (now + Second <= ac_ExpiresAt c)%Z ->
    jwt_ParseAccess now token = Ok (ac_Claims c);
  jwt_text c token : jwt_SignAccess c = Ok token -> token <> "" /\ Forall (fun b => solid b = true) (bytes token)
}.

Lemma TrimSpace_printable s : Forall (fun b => solid b = true) (bytes s) -> TrimSpace s = s.
Proof.
  intros Hs. apply TrimSpace_solid; intros b Hb.
  - destruct (bytes s); [done|]. injection Hb as ->. by apply Forall_cons in Hs as [? _].
  - apply last_Some_elem_of in Hb. rewrite Forall_forall in Hs. by apply Hs.
Qed.

Lemma bearer_claims token verify :
  token <> "" -> Forall (fun b => solid b = true) (bytes token) -> BearerClaims ("Bearer " +:+ token) verify = verify token.
Proof.
  intros Hne Hs. unfold BearerClaims. rewrite TrimSpace_solid.
  - unfold HasPrefix. rewrite bytes_app, has_prefix_app. change 7 with (length (bytes "Bearer ")). rewrite drop_app_length, of_bytes_bytes.
    rewrite TrimSpace_printable by done. by apply String.eqb_neq in Hne as ->.
  - intros b. rewrite bytes_app. by intros [= <-].
  - intros b Hb. rewrite bytes_app in Hb. destruct (bytes token) as [|x l] eqn:E; [|].
    + apply (f_equal of_bytes) in E. rewrite of_bytes_bytes in E. done.
    + rewrite last_app_cons in Hb. rewrite Forall_forall in Hs. by apply Hs, last_Some_elem_of.
Qed.

(** C30. Refused sign-ins are alike.  Whatever identities there are in the users
    table, whatever tokens are stored and whatever was recorded: two attempts
    with the same request at the same moment that both end without a session
    and without a server error get the same answer, move the rate limiter the
    same way, touch no token, and have bcrypt compare the same password exactly
    once - against a decoy when nobody has that name.  Both are recorded or
    neither is, and their records are the same function of the request's
    headers, the moment and an actor - nobody, or the identifier of a row -: the
    name and the password, which are in the body, are in neither. *)
Theorem login_refusals_alike `{UuidText, UuidParse, StoredTime, Bcrypt, Jwt} env draw_token draw_header rls iter_tokens iter_limits
    dummyHash sink r body wa wb :
  let login := Login env draw_token draw_header rls iter_tokens iter_limits dummyHash sink r body in
  let '(ra, wa') := respond login wa in let '(rb, wb') := respond login wb in
  w_limits wa = w_limits wb -> w_at wa = w_at wb ->
  status ra <> 200%Z -> status ra <> 500%Z -> status rb <> 200%Z -> status rb <> 500%Z ->
  ra = rb /\ w_limits wa' = w_limits wb' /\ w_tokens wa' = w_tokens wa /\ w_tokens wb' = w_tokens wb /\
  (exists compared, map snd (w_compared wa') = compared ++ map snd (w_compared wa) /\
    map snd (w_compared wb') = compared ++ map snd (w_compared wb) /\
    (ra = invalid_credentials -> exists req, decodeJSON (R := AuthAnswer) body = Ok req /\ compared = [cr_Password req])) /\
  exists (recorded : bool) n actor_a actor_b, actor_text actor_a /\ actor_text actor_b /\
    w_audit wa' = (if recorded then [denied_record draw_header n r actor_a] else []) ++ w_audit wa /\
    w_audit wb' = (if recorded then [denied_record draw_header n r actor_b] else []) ++ w_audit wb.
Proof.
  intros login. pose proof (login_refused env draw_token draw_header rls iter_tokens iter_limits dummyHash sink r body wa) as Ha.
  pose proof (login_refused env draw_token draw_header rls iter_tokens iter_limits dummyHash sink r body wb) as Hb. subst login. cbv zeta in Ha, Hb.
  destruct (respond _ wa) as [ra wa'], (respond _ wb) as [rb wb']. intros El Et ???.
  destruct Ha as [|[|(-> & -> & -> & Hca & aa & Haa & ->)]]; [done..|]. destruct Hb as [|[|(-> & -> & -> & Hcb & ab & Hab & ->)]]; [done..|].
  unfold admitted_by in *. rewrite El, Et in *. split; [done|]. split; [done|]. split; [done|]. split; [done|]. split; [|by eexists _, _, aa, ab].
  eexists. split; [exact Hca|]. split; [exact Hcb|]. unfold login_refusal, login_compares.
  destruct (RateLimiter_Allow _ _ _ _ _).1; [|done]. destruct (decodeJSON body) as [req|e] eqn:Hd; [by eexists|].
  unfold decodeJSON in Hd. by repeat case_match; simplify_eq.
Qed.

(** A session carries the identity of the database.  A sign-in that succeeds
    presented the name of a row of the users table and a password its hash
    matches; until it expires the bearer token is accepted and gives exactly
    that row's identity, role and workspace with the permissions of the role;
    the refresh token is stored under its digest, live, for that identity; and
    the latest record of the audit chain is the sign-in. *)
Theorem session_carries_row `{UuidText, UuidParse, StoredTime, Bcrypt, JwtLaws} env draw_token draw_header rls iter_tokens iter_limits
    dummyHash sink r body w resp w' :
  respond (Login env draw_token draw_header rls iter_tokens iter_limits dummyHash sink r body) w = (resp, w') ->
  is_success (status resp) = true ->
  users_ok (tt_others (env (S (w_at w))) (w_db w)) -> (forall u, uuid_String u <> "") ->
  exists req t id row, resp = Answered 200 (Tokens t) /\ decodeJSON (R := AuthAnswer) body = Ok req /\
    ud_rows (tt_others (env (S (w_at w))) (w_db w)) !! id = Some row /\ ur_Username row = cr_Username req /\
    bcrypt_Compare (ur_PasswordHash row) (cr_Password req) = true /\
    (exists from, forall now r', (from <= now)%Z -> (now + Second <= from + 15 * Minute)%Z ->
       rq_Header r' "Authorization" = "Bearer " +:+ tr_Access t ->
       RequireAuth (A := AuthAnswer) now r' = Ok (WithClaims r' (claims_of (scanUser id row)))) /\
    live_refresh (uuid_String id) (tr_Refresh t) (w_tokens w') /\
    last_recorded w' (uuid_String id) "auth.login" "success" "issued".
Proof.
  intros Hl Hs [Hcheck _] Hne.
  edestruct Login_granted as (req & t & id & row & -> & Hd & Hrow & Hn & Hc & Ha & Hlive & Hrec); [exact Hl|exact Hs|].
  exists req, t, id, row. split_and!; try done. destruct Ha as (from & jti & Hsign). exists from. intros now r' Hfrom Hto Hh.
  pose proof Hsign as [Hnt Hsolid]%jwt_text. unfold RequireAuth. rewrite Hh.
  destruct (String.eqb_spec ("Bearer " +:+ tr_Access t) "") as [|_]; [done|]. rewrite bearer_claims by done. unfold VerifyAccessToken.
  erewrite jwt_parse_signed; [|exact Hsign|done|done]. cbn [ac_Claims]. rewrite row_claims_shape; [done|by eapply Hcheck|apply Hne|intros; apply Hne].
Qed.

(** A refresh follows the database.  When a refresh succeeds, the token it was
    given is in the table and was neither used nor revoked; the new access token
    is signed over the role and workspace its subject has in the users table at
    that moment, whatever the old one said; the new refresh token is live; and
    the latest record of the chain is the rotation.  An identity that is gone, or
    a subject that is none, gets no token and consumes none. *)
Theorem refresh_follows_identity `{UuidText, UuidParse, StoredTime, Bcrypt, Jwt} env draw_token draw_header rls iter_tokens iter_limits sink r body w :
  let '(resp, w') := respond (RefreshHandler env draw_token draw_header rls iter_tokens iter_limits sink r body) w in
  let db := tt_others (env (S (S (w_at w)))) (w_db w) in
  (is_success (status resp) = true ->
   exists req t subject id row rt userID, resp = Answered 200 (Tokens t) /\ decodeJSON (R := AuthAnswer) body = Ok req /\
     jwt_Subject (tt_now (env (S (w_at w)))) (rr_Token req) = Ok subject /\ uuid_Parse subject = Some id /\ ud_rows db !! id = Some row /\
     w_tokens w !! hashToken (rr_Token req) = Some rt /\ st_Used rt = false /\ st_Revoked rt = false /\
     access_for (scanUser id row) (tr_Access t) /\ live_refresh userID (tr_Refresh t) (w_tokens w') /\
     (exists now, jwt_ParseRefresh now (rr_Token req) = Ok userID) /\
     last_recorded w' (uuid_String id) "auth.refresh" "success" "rotated") /\
  (forall req subject, decodeJSON (R := AuthAnswer) body = Ok req -> jwt_Subject (tt_now (env (S (w_at w)))) (rr_Token req) = Ok subject ->
     (forall id, uuid_Parse subject = Some id -> ud_rows db !! id = None) -> is_success (status resp) = false /\ w_tokens w' = w_tokens w).
Proof.
  destruct (respond _ w) as [resp w'] eqn:Hr. cbv zeta. split; [by eapply refresh_granted|].
  intros req subject Hd Hsub Hgone. split.
  - apply not_true_iff_false. intros Hs.
    edestruct refresh_granted as (req' & t & subject' & id & row & rt & u & _ & Hd' & Hsub' & Hid & Hrow & _); [exact Hr|exact Hs|].
    rewrite Hd in Hd'. injection Hd' as <-. rewrite Hsub in Hsub'. injection Hsub' as <-. by rewrite (Hgone id Hid) in Hrow.
  - revert Hr. unfold respond, RefreshHandler. unfold act_bind at 1, limit.
    destruct (RateLimiter_Allow _ _ _ _ _) as [[] l]; cbn; [|refused]. unfold act_bind at 1, act_lift. rewrite Hd. cbn.
    destruct (String.eqb _ _); cbn; [refused|]. unfold act_bind at 1. cbn. unfold SubjectFromRefreshToken. rewrite Hsub.
    destruct subject as [|c cs]; [refused|]. unfold act_bind at 1.
    match goal with |- context [read env ?op ?w0] => destruct (read_spec env op w0) as (x & db' & -> & Hx) end.
    destruct x as [u|[]]; [|refused..]. destruct (ByID_Ok _ _ _ _ (Hx u eq_refl)) as (id & row & Hid & Hrow & _).
    cbn in Hrow. by rewrite (Hgone id Hid) in Hrow.
Qed.

(** C31. One founder.  Under any sequence of authentication requests, and whatever
    other processes commit in between that keeps the constraints and leaves a
    founder in place: the table keeps its constraints, so that there is never a
    second founder, names are unique, a founder has no workspace and everyone
    else has one; at most one bootstrap is ever answered with success, and none
    when there is a founder already. *)
Theorem single_founder `{UuidText, UuidParse, StoredTime, Bcrypt, Jwt} env draw_row draw_token draw_header rls iter_tokens iter_limits
    founderUsername founderPassword dummyHash sink qs w :
  (forall n db, users_move db (tt_others (env n) db)) -> users_ok (w_db w) ->
  let '(l, w') := serve_all env draw_row draw_token draw_header rls iter_tokens iter_limits founderUsername founderPassword dummyHash sink qs w in
  (forall id row, ud_rows (w_db w') !! id = Some row -> ValidRole (ur_Role row) = true /\
     (ur_IsFounder row = true <-> ur_Role row = RoleFounder) /\ (ur_IsFounder row = true <-> ur_Workspace row = None)) /\
  (forall i j ri rj, ud_rows (w_db w') !! i = Some ri -> ud_rows (w_db w') !! j = Some rj ->
     (ur_IsFounder ri = true /\ ur_IsFounder rj = true) \/ ur_Username ri = ur_Username rj -> i = j) /\
  length (filter (fun resp => created resp = true) l) <= 1 /\
  (has_founder (w_db w) -> length (filter (fun resp => created resp = true) l) = 0 /\ has_founder (w_db w')).
Proof.
  intros Hothers Hok. pose proof (serve_all_ok env draw_row draw_token draw_header rls iter_tokens iter_limits founderUsername
    founderPassword dummyHash sink Hothers qs w Hok) as Hall.
  destruct (serve_all _ _ _ _ _ _ _ _ _ _ _ _ _) as [l w']. destruct Hall as ([Hc Hu] & Hle & Hf). split_and!; [| |done|done].
  - intros id row Hrow. specialize (Hc id row Hrow). unfold users_check in Hc.
    apply andb_true_iff in Hc as [[[Hv Hr%eqb_prop]%andb_true_iff Hw]%andb_true_iff Hn]. split; [done|]. rewrite Hr. split; [apply bool_decide_eq_true|].
    rewrite Hr in Hw, Hn. destruct (bool_decide (ur_Role row = RoleFounder)); simpl in *; bool_prop; [tauto|]. split; [done|]. intros E. by rewrite E in *.
  - intros i j ri rj Hi Hj Hsame. apply (Hu i j ri rj Hi Hj). unfold clashes. apply orb_true_iff. destruct Hsame as [[-> ->]|E]; [by right|left].
    by apply String.eqb_eq.
Qed.

(** ** A concrete service *)

(** Identifiers as one zero more than their value, so that none is empty. *)
#[local] Instance zeros : UuidText := fun u => String.string_of_list_ascii (replicate (S (N.to_nat u)) (char_of 48)).
#[local] Instance zeros_parse : UuidParse := fun s =>
  if forallb (Z.eqb 48) (bytes s) && negb (String.eqb s "") then Some (N.of_nat (String.length s - 1)) else None.
#[local] Instance demo_time : StoredTime := microseconds.

Lemma zeros_nonempty u : uuid_String u <> "".
Proof. by unfold uuid_String, zeros. Qed.

(** A hash that shows its password, and a signer for two identities. *)
#[local] Instance demo_bcrypt : Bcrypt := {
  bcrypt_Generate n p := Ok ("$" +:+ p);
  bcrypt_Compare h p := String.eqb h ("$" +:+ p)
}.

Definition ada_row : UserRow := mkUserRow "ada" "$lovelace" "Ada" "" false RoleWorkspaceAdmin (Some 7%N) 0 0.
Definition grace_row : UserRow := mkUserRow "grace" "$hopper" "Grace" "" false RoleWorkspaceMember (Some 8%N) 0 0.
Definition demo_users : UserDB := mkUserDB {[ 2%N := ada_row; 3%N := grace_row ]} {[ 7%N; 8%N ]}.

#[local] Instance claims_eq_dec : EqDecision Claims.
Proof. solve_decision. Defined.

#[local] Instance demo_jwt : Jwt := {
  jwt_SignAccess c := if decide (ac_Claims c = claims_of (scanUser 2 ada_row)) then Ok "access-ada"%string else Err "no key"%string;
  jwt_ParseAccess now s := if String.eqb s "access-ada" then Ok (claims_of (scanUser 2 ada_row)) else Err "malformed"%string;
  jwt_SignRefresh c := Ok ("refresh-" +:+ rc_ID c);
  jwt_ParseRefresh now s := if HasPrefix s "refresh-" then Ok (uuid_String 2) else Err "malformed"%string;
  jwt_Subject now s := if HasPrefix s "refresh-" then Ok (uuid_String 2) else Err "malformed"%string
}.

#[local] Instance demo_jwt_laws : JwtLaws.
Proof.
  split.
  - intros c token now Hs _ _. simpl in *. destruct (decide _) as [E|]; [|done]. injection Hs as <-. by rewrite E.
  - intros c token Hs. simpl in Hs. destruct (decide _); [|done]. injection Hs as <-. split; [done|]. repeat constructor.
Qed.

Definition alone_env : nat -> TxTick UserDB := fun n => mkTxTick (Z.of_nat n * 1000) (fun db => db) NoFault.
Definition demo_row : nat -> uuid := fun n => N.of_nat (100 + n).
Definition demo_token : nat -> string := fun n => uuid_String (N.of_nat n).
Definition demo_header : nat -> bool -> string := fun n b => uuid_String (N.of_nat n).
Definition demo_request : Request := mkRequest "203.0.113.9:4711" (fun _ => ""%string) "" (fun _ => ""%string) None.
Definition demo_start : World := mkWorld demo_users ∅ (NewRateLimiter 0) [] [] 0.
Definition demo_login (u p : string) : handler World AuthAnswer :=
  Login alone_env demo_token demo_header true map_to_list map_to_list "$decoy" (Some (fun _ => None)) demo_request
    (mkBody (Some (mkCredentials u p)) false).

Lemma demo_users_ok : users_ok demo_users.
Proof.
  split.
  - intros id row Hrow. revert id row Hrow. change (map_Forall (fun _ row => users_check row = true) (ud_rows demo_users)).
    apply (bool_decide_unpack _). by vm_compute.
  - intros i j ri rj Hi Hj. revert j rj Hj. revert i ri Hi.
    change (map_Forall (fun i ri => map_Forall (fun j rj => clashes ri rj = true -> i = j) (ud_rows demo_users)) (ud_rows demo_users)).
    apply (bool_decide_unpack _). by vm_compute.
Qed.

Lemma login_refusals_alike_witness :
  let '(ra, wa) := respond (demo_login "ada" "wrong") demo_start in
  let '(rb, wb) := respond (demo_login "ada" "wrong") (mkWorld (mkUserDB ∅ ∅) ∅ (NewRateLimiter 0) [] [] 0) in
  ra = invalid_credentials /\ ra = rb /\ map snd (w_compared wa) = ["wrong"%string] /\
  map fst (w_compared wa) = ["$lovelace"%string] /\ map fst (w_compared wb) = ["$decoy"%string].
Proof.
  pose proof (login_refusals_alike alone_env demo_token demo_header true map_to_list map_to_list "$decoy" (Some (fun _ => None))
    demo_request (mkBody (Some (mkCredentials "ada" "wrong")) false) demo_start (mkWorld (mkUserDB ∅ ∅) ∅ (NewRateLimiter 0) [] [] 0)) as Hp.
  cbv zeta in Hp. unfold demo_login.
  match goal with |- let '(_, _) := ?a in let '(_, _) := ?b in _ =>
    assert (a.1 = invalid_credentials /\ map snd (w_compared a.2) = ["wrong"%string] /\ map fst (w_compared a.2) = ["$lovelace"%string] /\
            b.1 = invalid_credentials /\ map fst (w_compared b.2) = ["$decoy"%string]) as (H1 & H2 & H3 & H4 & H5)
      by (split_and!; vm_compute; reflexivity);
    destruct a as [ra wa], b as [rb wb] end.
  simpl in H1, H4. subst ra rb.
  destruct Hp as [E _]; [done..|]. by split_and!.
Defined.

Lemma session_carries_row_witness :
  let '(resp, w') := respond (demo_login "ada" "lovelace") demo_start in
  exists t, resp = Answered 200 (Tokens t) /\ tr_Access t = "access-ada" /\
    live_refresh (uuid_String 2) (tr_Refresh t) (w_tokens w') /\ cl_WorkspaceID (claims_of (scanUser 2 ada_row)) = uuid_String 7.
Proof.
  pose proof (session_carries_row alone_env demo_token demo_header true map_to_list map_to_list "$decoy" (Some (fun _ => None))
    demo_request (mkBody (Some (mkCredentials "ada" "lovelace")) false) demo_start) as Hp.
  match goal with |- let '(_, _) := ?a in _ =>
    assert (is_success (status a.1) = true /\ exists t, a.1 = Answered 200 (Tokens t) /\ tr_Access t = "access-ada") as (Hs & t & Ht & Hacc)
      by (split; [vm_compute; reflexivity|eexists; split; vm_compute; reflexivity]);
    change (respond _ demo_start) with a in Hp; destruct a as [resp w'] end.
  destruct (Hp _ _ eq_refl Hs demo_users_ok zeros_nonempty) as (req & t' & id & row & Hr & Hd & Hrow & Hname & _ & _ & Hlive & _).
  simpl in Ht. rewrite Ht in Hr. injection Hr as <-. exists t. split_and!; [exact Ht|exact Hacc| |reflexivity].
  injection Hd as <-. destruct demo_users_ok as [_ Hu].
  rewrite (Hu 2%N id ada_row row); [exact Hlive|reflexivity|exact Hrow|]. unfold clashes. rewrite Hname. reflexivity.
Defined.

Definition demo_signed_in : World := (respond (demo_login "ada" "lovelace") demo_start).2.
Definition demo_refresh (token : string) : handler World AuthAnswer :=
  RefreshHandler alone_env demo_token demo_header true map_to_list map_to_list (Some (fun _ => None)) demo_request
    (mkBody (Some (mkRefresh token)) false).
(** The refresh token of that sign-in. *)
Definition demo_issued : string :=
  match (respond (demo_login "ada" "lovelace") demo_start).1 with Answered _ (Tokens t) => tr_Refresh t | _ => "" end.

Lemma refresh_follows_identity_witness :
  let '(resp, w') := respond (demo_refresh demo_issued) demo_signed_in in
  exists t, resp = Answered 200 (Tokens t) /\ last_recorded w' (uuid_String 2) "auth.refresh" "success" "rotated".
Proof.
  pose proof (refresh_follows_identity alone_env demo_token demo_header true map_to_list map_to_list (Some (fun _ => None))
    demo_request (mkBody (Some (mkRefresh demo_issued)) false) demo_signed_in) as Hp.
  match goal with |- let '(_, _) := ?a in _ =>
    assert (is_success (status a.1) = true) as Hs by (vm_compute; reflexivity);
    change (respond _ demo_signed_in) with a in Hp; destruct a as [resp w'] end.
  destruct Hp as [Hp _]. destruct (Hp Hs) as (req & t & subject & id & row & rt & userID & Ht & Hd & Hsub & Hid & _ & _ & _ & _ & _ & _ & _ & Hrec).
  exists t. split; [exact Ht|].
  assert (subject = uuid_String 2) as -> by (injection Hd as <-; vm_compute in Hsub; injection Hsub as <-; vm_compute; reflexivity).
  assert (id = 2%N) as -> by (vm_compute in Hid; congruence). exact Hrec.
Defined.

(** Two bootstraps, the first on an empty table. *)
Definition demo_sink : Sink := Some (fun _ => None).
Definition demo_bootstraps (sink : Sink) : list (Response AuthAnswer) * World :=
  serve_all alone_env demo_row demo_token demo_header true map_to_list map_to_list "root" "secret" "$decoy" sink
    [ReqBootstrap demo_request; ReqBootstrap demo_request] (mkWorld (mkUserDB ∅ ∅) ∅ (NewRateLimiter 0) [] [] 0).

Lemma empty_users_ok : users_ok (mkUserDB ∅ ∅).
Proof. split; [intros id row|intros i j ri rj]; simpl; by rewrite lookup_empty. Qed.

Lemma single_founder_witness :
  map status (demo_bootstraps demo_sink).1 = [201; 409]%Z /\
  let '(l, w') := demo_bootstraps demo_sink in length (filter (fun resp => created resp = true) l) <= 1.
Proof.
  split; [vm_compute; reflexivity|]. unfold demo_bootstraps.
  pose proof (single_founder alone_env demo_row demo_token demo_header true map_to_list map_to_list "root" "secret" "$decoy" demo_sink
    [ReqBootstrap demo_request; ReqBootstrap demo_request] (mkWorld (mkUserDB ∅ ∅) ∅ (NewRateLimiter 0) [] [] 0)) as Hp.
  destruct (serve_all _ _ _ _ _ _ _ _ _ _ _ _ _) as [l w']. apply Hp; [|exact empty_users_ok]. intros n db. by split.
Defined.

(** ** What fails *)

(** The founder is in the table before the audit record is written: when the
    sink fails at that moment the request is a server error, and the retry it
    asks for is answered that there is a founder already.  No record of the
    creation is ever written. *)
Example bootstrap_unaudited_founder :
  let '(l, w') := demo_bootstraps (Some (fun n => if Nat.eqb n 3 then Some "down"%string else None)) in
  map status l = [500; 409]%Z /\ map ur_IsFounder (map snd (map_to_list (ud_rows (w_db w')))) = [true] /\
  map (fun a => (i_Outcome (aa_Record a), aa_Detail a)) (w_audit w') = [("denied", "already_initialized")]%string.
Proof. vm_compute. by split_and!. Qed.

#[local] Instance StoredRefreshToken_eq_dec : EqDecision StoredRefreshToken.
Proof. solve_decision. Defined.

(** A token its holder signed out is not a replay: it was never used, and its
    family is left alone.  It is recorded as one all the same. *)
Example logged_out_token_recorded_as_replay :
  let w1 := (respond (Logout alone_env demo_token demo_header map_to_list (Some (fun _ => None)) demo_request
                        (mkBody (Some (mkRefresh demo_issued)) false)) demo_signed_in).2 in
  let '(resp, w2) := respond (demo_refresh demo_issued) w1 in
  resp = invalid_token /\ map aa_Detail (firstn 1 (w_audit w2)) = ["replay_detected"%string] /\
  option_map st_Used (w_tokens w1 !! hashToken demo_issued) = Some false /\ bool_decide (w_tokens w2 = w_tokens w1) = true.
Proof. vm_compute. by split_and!. Qed.
