(* ===== verification/Memory.v ===== *)
(** * internal/memory: the workspace-scoped memory bank

    bank.go and bank_service.go over the Redis adapter
    (infrastructure/redis/memory.go) and the persistent audit sink
    (infrastructure/auditstore/adapters.go). *)

From S2P Require Import Prelude GoLib GoText AuditChain.

(** ** bank.go *)

Inductive err : Type :=
| ErrWorkspaceRequired
| ErrInvalidLayer
| ErrInvalidKey
| ErrSecretRejected
| ErrValueTooLarge
| ErrInvalidTTL
| ErrRateLimited
| ErrNotFound
| ErrRedis (msg : string)
| ErrAudit (e : audit_err)
| ErrActorID.

Inductive MemoryLayer : Type :=
| LayerSession | LayerLongTerm | LayerWorkspace | LayerOrganizational | LayerOther (n : Z).

#[export] Instance MemoryLayer_eq_dec : EqDecision MemoryLayer.
Proof. solve_decision. Defined.

Definition MaxKeyLength : nat := 256.
Definition MaxValueBytes : nat := N.to_nat (64 * 1024).
Definition MaxTTL : duration := (90 * 24 * 60 * Minute)%Z.
Definition DefaultTTL : duration := (24 * 60 * Minute)%Z.

Definition ValidLayer (l : MemoryLayer) : bool := match l with LayerOther _ => false | _ => true end.

Definition layerString (l : MemoryLayer) : string :=
  match l with
  | LayerSession => "session"
  | LayerLongTerm => "longterm"
  | LayerWorkspace => "workspace"
  | LayerOrganizational => "org"
  | LayerOther _ => "unknown"
  end.

Definition validateKey (key : string) : option err :=
  let trimmed := TrimSpace key in
  if String.eqb trimmed "" || negb (String.eqb trimmed key) then Some ErrInvalidKey
  else if Nat.ltb MaxKeyLength (String.length key) then Some ErrInvalidKey
  else if ContainsAny key [0; 13; 10; 47]%Z then Some ErrInvalidKey
  else if HasPrefix key "workspace:" || HasPrefix key "org:" then Some ErrInvalidKey
  else None.

(** ** bank_service.go: the policies *)

Definition isWordByte (b : Z) : bool :=
  ((97 <=? b) && (b <=? 122) || (48 <=? b) && (b <=? 57) || (b =? 95))%Z.

(** The loop of [hasTokenBoundary]. *)
Fixpoint boundary_from (fuel : nat) (s prefix : list Z) (from : nat) : option bool :=
  match fuel with
  | O => None
  | S fuel' =>
      match index_of prefix (drop from s) with
      | None => Some false
      | Some i =>
          let idx := i + from in
          if Nat.eqb idx 0 || negb (isWordByte (nth (idx - 1) s 0%Z)) then Some true
          else boundary_from fuel' s prefix (idx + 1)
      end
  end.

Definition hasTokenBoundary (s prefix : string) : bool :=
  match boundary_from (S (length (bytes s))) (bytes s) (bytes prefix) 0 with Some b => b | None => false end.

Section policies.
Context `{UuidText, RuneLower}.

Definition secret_markers : list string := ["-----begin"; "bearer "; "api_key="; "apikey="; "secret="].
Definition key_prefixes : list string := ["sk-"; "pk-"].

Definition isSecretShaped (value : string) : bool :=
  let low := ToLower (TrimSpace value) in
  if String.eqb low "" then false
  else existsb (Contains low) secret_markers || existsb (hasTokenBoundary low) key_prefixes.

Definition partitionKey (workspaceID : uuid) (layer : MemoryLayer) (key : string) : string :=
  if bool_decide (layer = LayerOrganizational) then "org:" +:+ key
  else "workspace:" +:+ uuid_String workspaceID +:+ ":" +:+ layerString layer +:+ ":" +:+ key.
End policies.

(** *** The write throttle *)

Record throttle : Type := mkThrottle { th_window : duration; th_limit : Z; th_hits : gmap uuid (list time) }.

Definition newThrottle (limit : Z) : throttle :=
  mkThrottle Second (if (limit <=? 0)%Z then 100 else limit)%Z ∅.

Definition throttle_Allow (workspaceID : uuid) (now : time) (t : throttle) : bool * throttle :=
  let timestamps := default [] (th_hits t !! workspaceID) in
  let kept := filter (fun ts => (now - th_window t < ts)%Z) timestamps in
  if (th_limit t <=? Z.of_nat (length kept))%Z
  then (false, mkThrottle (th_window t) (th_limit t) (<[workspaceID := kept]> (th_hits t)))
  else (true, mkThrottle (th_window t) (th_limit t) (<[workspaceID := kept ++ [now]]> (th_hits t))).

(** ** infrastructure/redis/memory.go *)

(** A value and the instant it expires at, if any. *)
Record Cell : Type := mkCell { c_value : string; c_expires : option time }.
Abbreviation Cells := (gmap string Cell) (only parsing).

Definition fresh_at (now : time) (c : Cell) : bool :=
  match c_expires c with Some e => (now <? e)%Z | None => true end.

(** The client module rounds an expiration to what the protocol carries, and
    turns the bytes of a reply into a slice that may be nil when it is empty. *)
Class RedisTTL : Type := redis_ttl : duration -> duration.
Class RedisReply : Type := reply_bytes : string -> option string.
Class RedisLaws `{RedisTTL, RedisReply} : Prop := {
  redis_ttl_pos t : (0 < t)%Z -> (0 < redis_ttl t)%Z;
  reply_bytes_nonempty s : s <> ""%string -> reply_bytes s = Some s
}.

Section redis.
Context `{RedisTTL, RedisReply}.

Definition expires_at (ttl : duration) (now : time) : option time :=
  if (ttl =? 0)%Z then None else Some (now + redis_ttl ttl)%Z.

Definition redis_store (key value : string) (ttl : duration) (now : time) (cells : Cells) : res err (unit * Cells) :=
  Ok (tt, <[key := mkCell value (expires_at ttl now)]> cells).

(** The value, nil where the client made it nil. *)
Definition redis_retrieve (key : string) (now : time) (cells : Cells) : res err (option string * Cells) :=
  match cells !! key with
  | Some c => if fresh_at now c then Ok (reply_bytes (c_value c), cells) else Err ErrNotFound
  | None => Err ErrNotFound
  end.

Definition redis_del (key : string) (now : time) (cells : Cells) : res err (unit * Cells) := Ok (tt, delete key cells).
End redis.

(** ** bank_service.go: the facade *)

Record Ctx : Type := mkCtx { cx_actor : string; cx_trace : string; cx_span : string }.
Definition actorTypeOf (cx : Ctx) : string := if String.eqb (cx_actor cx) "" then "system" else "user".

Record AuditRecord : Type := mkAudit {
  ma_EventType : string; ma_ActorType : string; ma_ActorID : string; ma_ConstitutionalPrinciple : string;
  ma_Outcome : string; ma_WorkspaceID : string; ma_Layer : string; ma_Key : string; ma_TraceID : string; ma_SpanID : string
}.

Record Event : Type := mkEvent { me_Type : string; me_Workspace : uuid; me_Layer : string; me_Key : string }.

(** One step of the environment: the Redis server and the audit database. *)
Record Tick : Type := mkTick { t_redis : TxTick Cells; t_audit : AuditTick }.

Record World : Type := mkWorld {
  w_cells : Cells;
  w_audit : Table;
  w_throttle : throttle;
  w_events : list Event;
  w_at : nat
}.

Section bank.
Context `{UuidText, UuidParse, RuneLower, RedisTTL, RedisReply}.
Variable secret : list Z.            (* the key of the audit tags *)
Variable env : nat -> Tick.

Definition redis {A} (op : time -> Cells -> res err (A * Cells)) : act World err A := fun w =>
  let '(r, cells) := run_tx ErrRedis (t_redis (env (w_at w))) op (w_cells w) in
  (r, mkWorld cells (w_audit w) (w_throttle w) (w_events w) (S (w_at w))).

(** [parseID]: what does not parse is dropped. *)
Definition parseID (s : string) : uuid :=
  if String.eqb s "" then uuid_Nil else default uuid_Nil (uuid_Parse s).

(** [MemorySink.RecordError] *)
Definition RecordError (rec : AuditRecord) : act World err unit := fun w =>
  match (if String.eqb (ma_ActorID rec) "" then Some uuid_Nil else uuid_Parse (ma_ActorID rec)),
        (if String.eqb (ma_WorkspaceID rec) "" then Some None else option_map Some (uuid_Parse (ma_WorkspaceID rec))) with
  | Some actor, Some ws =>
      let '(r, tbl) := Append secret (t_audit (env (w_at w)))
        (mkRecord (ma_EventType rec) (ma_ActorType rec) actor "memory_cell" uuid_Nil (ma_Outcome rec)
           (ma_ConstitutionalPrinciple rec) ws (parseID (ma_TraceID rec)) (parseID (ma_SpanID rec))) (w_audit w) in
      (match r with Ok _ => Ok tt | Err e => Err (ErrAudit e) end,
       mkWorld (w_cells w) tbl (w_throttle w) (w_events w) (S (w_at w)))
  | _, _ => (Err ErrActorID, w)
  end.

(** [recordAudit] with the persistent sink. *)
Definition recordAudit (cx : Ctx) (ev principle outcome : string) (ws : uuid) (layer : MemoryLayer) (key : string)
    (traced : bool) : act World err unit :=
  RecordError (mkAudit ev (actorTypeOf cx) (cx_actor cx) principle outcome (uuid_String ws) (layerString layer) key
    (if traced then cx_trace cx else "") (if traced then cx_span cx else "")).

Definition allow (ws : uuid) : act World err bool := fun w =>
  let '(b, t) := throttle_Allow ws (tt_now (t_redis (env (w_at w)))) (w_throttle w) in
  (Ok b, mkWorld (w_cells w) (w_audit w) t (w_events w) (S (w_at w))).

(** The sink's own error is discarded. *)
Definition emit (e : Event) : act World err unit :=
  act_mod (fun w => mkWorld (w_cells w) (w_audit w) (w_throttle w) (e :: w_events w) (w_at w)).

Definition clamp_ttl (ttl : duration) : duration := if (MaxTTL <? ttl)%Z then MaxTTL else ttl.

Definition Write (cx : Ctx) (workspaceID : uuid) (layer : MemoryLayer) (key value : string) (ttl : duration)
  : act World err unit :=
  require! negb (workspaceID =? uuid_Nil)%N else ErrWorkspaceRequired ;;
  require! ValidLayer layer else ErrInvalidLayer ;;
  match validateKey key with
  | Some e => act_fail e
  | None =>
      require! negb (Nat.ltb MaxValueBytes (String.length value)) else ErrValueTooLarge ;;
      require! negb (isSecretShaped value) else ErrSecretRejected ;;
      require! (0 <=? ttl)%Z else ErrInvalidTTL ;;
      allowed <~ allow workspaceID ;;
      require! allowed else ErrRateLimited ;;
      let cell := partitionKey workspaceID layer key in
      r <~ act_try (redis (redis_store cell value (clamp_ttl ttl))) ;;
      match r with
      | Err e =>
          act_try (recordAudit cx "memory.write" "Security by Design" "failed" workspaceID layer key true) ;;! act_fail e
      | Ok _ =>
          a <~ act_try (recordAudit cx "memory.write" "Privacy by Design" "success" workspaceID layer key true) ;;
          match a with
          | Err e => act_try (redis (redis_del cell)) ;;! act_fail e
          | Ok _ => emit (mkEvent "memory.written" workspaceID (layerString layer) key)
          end
      end
  end.

Definition Read (cx : Ctx) (workspaceID : uuid) (layer : MemoryLayer) (key : string) : act World err string :=
  require! negb (workspaceID =? uuid_Nil)%N else ErrWorkspaceRequired ;;
  require! ValidLayer layer else ErrInvalidLayer ;;
  match validateKey key with
  | Some e => act_fail e
  | None =>
      out <~ redis (redis_retrieve (partitionKey workspaceID layer key)) ;;
      match out with
      | None => act_fail ErrNotFound
      | Some value =>
          recordAudit cx "memory.read" "Minimal Disclosure" "success" workspaceID layer key true ;;! act_ret value
      end
  end.

Definition Delete (cx : Ctx) (workspaceID : uuid) (layer : MemoryLayer) (key : string) : act World err unit :=
  require! negb (workspaceID =? uuid_Nil)%N else ErrWorkspaceRequired ;;
  require! ValidLayer layer else ErrInvalidLayer ;;
  match validateKey key with
  | Some e => act_fail e
  | None =>
      redis (redis_del (partitionKey workspaceID layer key)) ;;!
      recordAudit cx "memory.delete" "Privacy by Design" "success" workspaceID layer key false
  end.
End bank.
