(* ===== verification/MemoryProps.v ===== *)
(** * What the memory bank guarantees

    Cells of different workspaces, layers and keys are different Redis keys, a
    call touches its own cell only, what is stored passed the policies, a
    reader gets back what was written, and the write throttle is a sliding
    window. *)

From S2P Require Import Prelude GoLib GoText AuditChain Memory.

(** ** The secret filter *)

(** [prefix] opens a token of [s]: it stands at the start or after a byte that
    cannot be part of a word. *)
Definition opens_token (s prefix : list Z) : Prop :=
  exists i, i <= length s /\ has_prefix prefix (drop i s) = true /\
    (i = 0 \/ exists b, s !! (i - 1) = Some b /\ isWordByte b = false).

Lemma boundary_from_spec fuel s prefix from :
  prefix <> [] -> from <= length s -> length s - from < fuel ->
  exists b, boundary_from fuel s prefix from = Some b /\
    (b = true <-> exists i, from <= i /\ i <= length s /\ has_prefix prefix (drop i s) = true /\
       (i = 0 \/ exists c, s !! (i - 1) = Some c /\ isWordByte c = false)).
Proof.
  intros Hne. revert from. induction fuel as [|fuel IH]; intros from Hle Hfuel; [lia|]. cbn [boundary_from].
  pose proof (index_of_spec prefix (drop from s)) as Hi. destruct (index_of prefix (drop from s)) as [i|].
  - destruct Hi as (Hile & Hat & Hbefore). rewrite length_drop in Hile. rewrite drop_drop in Hat.
    replace (i + from) with (from + i) by lia.
    destruct (Nat.eqb_spec (from + i) 0) as [E|E].
    { exists true. split; [done|]. split; [|done]. intros _. exists (from + i). split_and!; [lia..|done|]. by left. }
    assert (from + i - 1 < length s) as [c Hc]%lookup_lt_is_Some by lia.
    rewrite (nth_lookup_Some _ _ _ _ Hc). cbn [orb]. destruct (isWordByte c) eqn:Hw; cbn [negb].
    + assert (from + i < length s) as Hlt.
      { apply has_prefix_spec in Hat as [r Hr]. apply (f_equal length) in Hr.
        rewrite length_drop, length_app in Hr. destruct prefix; [done|]. simpl in Hr. lia. }
      destruct (IH (from + i + 1)) as (b & -> & Hb); [lia..|]. exists b. split; [done|]. rewrite Hb.
      split; intros (j & Hj & Hjl & Hjat & Hjb).
      * exists j. split_and!; [lia|done..].
      * exists j. split_and!; [|done..]. destruct (decide (j = from + i)) as [->|Hji].
        { destruct Hjb as [?|(c' & Hc' & Hw')]; [lia|]. congruence. }
        destruct (decide (from + i < j)) as [?|Hlt']; [lia|]. exfalso.
        specialize (Hbefore (j - from) ltac:(lia)). rewrite drop_drop in Hbefore.
        replace (from + (j - from)) with j in Hbefore by lia. congruence.
    + exists true. split; [done|]. split; [|done]. intros _. exists (from + i).
      split_and!; [lia..|done|]. right. by exists c.
  - exists false. split; [done|]. split; [done|]. intros (j & Hj & Hjl & Hjat & _).
    specialize (Hi (j - from)). rewrite length_drop, drop_drop in Hi.
    replace (from + (j - from)) with j in Hi by lia. rewrite Hi in Hjat; [done|lia].
Qed.

Lemma hasTokenBoundary_spec s prefix :
  prefix <> ""%string -> hasTokenBoundary s prefix = true <-> opens_token (bytes s) (bytes prefix).
Proof.
  intros Hne. unfold hasTokenBoundary.
  destruct (boundary_from_spec (S (length (bytes s))) (bytes s) (bytes prefix) 0) as (b & -> & Hb); [|lia..|].
  - by destruct prefix.
  - rewrite Hb. unfold opens_token. split.
    + intros (i & _ & ?). by exists i.
    + intros (i & ?). exists i. split; [lia|done].
Qed.

(** The credential filter is what its comment says.  The search loop always
    ends, and a value is refused exactly when, spaces trimmed and letters
    lowered, it contains one of the marker phrases anywhere or one of the
    provider prefixes at the start of a token. *)
Theorem secret_filter_exact `{RuneLower} value :
  isSecretShaped value = true <->
    (exists m, m ∈ secret_markers /\ occurs (bytes m) (bytes (ToLower (TrimSpace value)))) \/
    (exists p, p ∈ key_prefixes /\ opens_token (bytes (ToLower (TrimSpace value))) (bytes p)).
Proof.
  unfold isSecretShaped. set (low := ToLower (TrimSpace value)).
  assert (existsb (Contains low) secret_markers || existsb (hasTokenBoundary low) key_prefixes = true <->
    (exists m, m ∈ secret_markers /\ occurs (bytes m) (bytes low)) \/
    (exists p, p ∈ key_prefixes /\ opens_token (bytes low) (bytes p))) as Hiff.
  { rewrite orb_true_iff, !existsb_exists. setoid_rewrite Contains_spec. setoid_rewrite <-list_elem_of_In.
    apply or_iff_compat_l. split; intros (p & Hp & Ho); exists p; (split; [done|]).
    - apply hasTokenBoundary_spec in Ho; [done|]. intros ->. set_solver.
    - apply hasTokenBoundary_spec; [|done]. intros ->. set_solver. }
  destruct (String.eqb_spec low "") as [E|E]; [|done]. rewrite <-Hiff, E. by vm_compute.
Qed.

(** ** The write throttle *)

(** The instants at which [ws] was admitted, in order. *)
Fixpoint admissions (ws : uuid) (calls : list (uuid * time)) (t : throttle) : list time :=
  match calls with
  | [] => []
  | (ws', now) :: calls' =>
      let '(ok, t') := throttle_Allow ws' now t in
      (if ok && bool_decide (ws' = ws) then [now] else []) ++ admissions ws calls' t'
  end.

(** What the throttle remembers of a workspace: its admissions after some
    instant the window has passed. *)
Definition remembers (ws : uuid) (past : list time) (last : time) (t : throttle) : Prop :=
  exists since, (since <= last - th_window t)%Z /\
    default [] (th_hits t !! ws) = filter (fun x => (since < x)%Z) past.

Definition within (w : duration) (x : time) (past : list time) : nat :=
  length (filter (fun y => (x - w < y <= x)%Z) past).

Lemma filter_later a b (l : list time) :
  (a <= b)%Z -> filter (fun x => (b < x)%Z) (filter (fun x => (a < x)%Z) l) = filter (fun x => (b < x)%Z) l.
Proof.
  intros Hab. rewrite list_filter_filter. apply list_filter_iff. intros x. lia.
Qed.

Lemma throttle_step ws ws' now past last t ok t' :
  throttle_Allow ws' now t = (ok, t') -> (0 < th_window t)%Z -> (last <= now)%Z -> remembers ws past last t ->
  remembers ws (past ++ (if ok && bool_decide (ws' = ws) then [now] else [])) now t' /\
  th_window t' = th_window t /\ th_limit t' = th_limit t /\
  (ok && bool_decide (ws' = ws) = true ->
     (Z.of_nat (length (filter (fun x => (now - th_window t < x)%Z) past)) < th_limit t)%Z).
Proof.
  intros Ha Hw Hle (since & Hsince & Hhits). unfold throttle_Allow in Ha.
  destruct (decide (ws' = ws)) as [->|Hne].
  - rewrite Hhits, filter_later in Ha by lia. rewrite bool_decide_eq_true_2, andb_true_r by done.
    destruct (Z.leb_spec (th_limit t) (Z.of_nat (length (filter (fun x => (now - th_window t < x)%Z) past)))) as [Hc|Hc];
      injection Ha as <- <-; (split_and!; [|done..]); exists (now - th_window t)%Z; simpl;
      rewrite lookup_insert_eq; (split; [lia|]); simpl; [by rewrite app_nil_r|].
    rewrite filter_app. f_equal. by rewrite filter_cons_True by lia.
  - rewrite bool_decide_eq_false_2, andb_false_r, app_nil_r by done.
    destruct (_ <=? _)%Z; injection Ha as <- <-; (split_and!; [|done..]); exists since; simpl;
      rewrite lookup_insert_ne by done; (split; [lia|done]).
Qed.

Lemma within_snoc w x past now :
  (forall y, (within w y past <= within w y (past ++ [now]))%nat) /\
  within w x (past ++ [now]) =
    if bool_decide (x - w < now <= x)%Z then within w x past + 1 else within w x past.
Proof.
  split; [intros y; unfold within; rewrite filter_app, length_app; lia|].
  unfold within. rewrite filter_app, length_app. case_bool_decide as Hin.
  - by rewrite filter_cons_True.
  - rewrite filter_cons_False by done. simpl. lia.
Qed.

Lemma admissions_bound ws calls : forall t past last,
  (0 < th_window t)%Z -> (0 <= th_limit t)%Z -> remembers ws past last t -> Sorted Z.le (last :: map snd calls) ->
  (forall x, (Z.of_nat (within (th_window t) x past) <= th_limit t)%Z) ->
  forall x, (Z.of_nat (within (th_window t) x (past ++ admissions ws calls t)) <= th_limit t)%Z.
Proof.
  induction calls as [|[ws' now] calls IH]; intros t past last Hw Hl Hr Hs Hb x; cbn [admissions].
  { by rewrite app_nil_r. }
  destruct (throttle_Allow ws' now t) as [ok t'] eqn:Ha. apply Sorted_inv in Hs as [Hs Hd].
  apply HdRel_inv in Hd. simpl in Hd.
  destruct (throttle_step ws ws' now past last t ok t' Ha Hw Hd Hr) as (Hr' & Ew & El & Hlt).
  rewrite app_assoc, <-Ew, <-El. apply (IH t' _ now); [by rewrite Ew|by rewrite El|done|done|].
  intros y. rewrite Ew, El. destruct (ok && bool_decide (ws' = ws)); [|rewrite app_nil_r; apply Hb].
  rewrite (proj2 (within_snoc _ y past now)). case_bool_decide as Hin; [|apply Hb].
  specialize (Hlt eq_refl). enough (within (th_window t) y past <=
    length (filter (fun x => (now - th_window t < x)%Z) past))%nat by lia.
  apply length_filter_le. intros z. lia.
Qed.

(** The memory throttle is a sliding window: however the calls of the
    workspaces interleave, as long as the clock does not run backwards, a
    workspace is admitted at most [limit] times (100, where the limit given is
    not positive) in any second. *)
Theorem write_throttle_window ws limit calls x :
  Sorted Z.le (map snd calls) ->
  (Z.of_nat (within Second x (admissions ws calls (newThrottle limit))) <= if limit <=? 0 then 100 else limit)%Z.
Proof.
  intros Hs. destruct calls as [|[ws0 t0] calls]; [unfold within; simpl; case_match; lia|].
  apply (admissions_bound ws ((ws0, t0) :: calls) (newThrottle limit) [] t0); simpl.
  - unfold Second. lia.
  - case_match; lia.
  - exists (t0 - Second)%Z. simpl. by rewrite lookup_empty.
  - by constructor; [|constructor].
  - intros y. unfold within. simpl. case_match; lia.
Qed.

(** ** Cell names *)

(** The text form of an identifier has no colon. *)
Class UuidColonFree `{UuidText} : Prop := uuid_no_colon u : 58%Z ∉ bytes (uuid_String u).

Lemma layerString_inj l l' :
  ValidLayer l = true -> ValidLayer l' = true -> layerString l = layerString l' -> l = l'.
Proof. by destruct l, l'. Qed.

Lemma layerString_no_colon l : 58%Z ∉ bytes (layerString l).
Proof. destruct l; apply (bool_decide_unpack _); by vm_compute. Qed.

Section names.
Context `{UuidTextLaws} `{!UuidColonFree}.

(** Different cells have different names. *)
Lemma partitionKey_inj ws layer key ws' layer' key' :
  ValidLayer layer = true -> ValidLayer layer' = true -> layer <> LayerOrganizational ->
  partitionKey ws layer key = partitionKey ws' layer' key' -> ws = ws' /\ layer = layer' /\ key = key'.
Proof.
  intros Hv Hv' Hne. unfold partitionKey. rewrite bool_decide_eq_false_2 by done.
  case_bool_decide as Ho; intros Heq%(f_equal bytes); [discriminate Heq|].
  rewrite !bytes_app in Heq. apply (inj (app (bytes "workspace:"))) in Heq. simpl in Heq.
  apply split_at_sep in Heq as [Hu Heq]; [|apply uuid_no_colon..].
  apply split_at_sep in Heq as [Hl Hk]; [|apply layerString_no_colon..].
  split_and!; [by apply (inj uuid_String), bytes_inj|by apply layerString_inj, bytes_inj|by apply bytes_inj].
Qed.
End names.

(** ** Calls *)

Inductive Call : Type :=
| CallWrite (cx : Ctx) (ws : uuid) (layer : MemoryLayer) (key value : string) (ttl : duration)
| CallRead (cx : Ctx) (ws : uuid) (layer : MemoryLayer) (key : string)
| CallDelete (cx : Ctx) (ws : uuid) (layer : MemoryLayer) (key : string).

Definition call_target (c : Call) : uuid * MemoryLayer * string :=
  match c with
  | CallWrite _ ws layer key _ _ | CallRead _ ws layer key | CallDelete _ ws layer key => (ws, layer, key)
  end.

Section calls.
Context `{UuidText, UuidParse, RuneLower, RedisTTL, RedisReply}.
Variable secret : list Z.
Variable env : nat -> Tick.

Definition serve (c : Call) (w : World) : World :=
  match c with
  | CallWrite cx ws layer key value ttl => (Write secret env cx ws layer key value ttl w).2
  | CallRead cx ws layer key => (Read secret env cx ws layer key w).2
  | CallDelete cx ws layer key => (Delete secret env cx ws layer key w).2
  end.

Definition serve_all (cs : list Call) (w : World) : World := fold_left (fun w c => serve c w) cs w.

(** A relation between the cells before and after. *)
Definition cells_rel (R : Cells -> Cells -> Prop) (w w' : World) : Prop := R (w_cells w) (w_cells w').

#[local] Instance cells_rel_preorder R `{!PreOrder R} : PreOrder (cells_rel R).
Proof.
  split; unfold cells_rel.
  - intros w. apply reflexivity.
  - intros a b c Hab Hbc. by etrans.
Qed.

Section rel.
Context (R : Cells -> Cells -> Prop) `{!PreOrder R}.
Hypothesis others : forall n cells, R cells (tt_others (t_redis (env n)) cells).

Lemma rel_redis {A} (op : time -> Cells -> res err (A * Cells)) :
  (forall now cells a cells', op now cells = Ok (a, cells') -> R cells cells') -> preserves (cells_rel R) (redis env op).
Proof.
  intros Hop w. unfold redis, cells_rel.
  pose proof (run_tx_rel R ErrRedis (t_redis (env (w_at w))) op (w_cells w) (others _ _)) as Hr.
  destruct (run_tx _ _ _ _) as [r cells]. simpl in *. apply Hr. intros a cells' Ho. by eapply Hop.
Qed.

Lemma rel_silent {A} (m : act World err A) : (forall w, w_cells (m w).2 = w_cells w) -> preserves (cells_rel R) m.
Proof. intros Hm w. unfold cells_rel. by rewrite Hm. Qed.

Lemma rel_audit cx ev p o ws l k traced : preserves (cells_rel R) (recordAudit secret env cx ev p o ws l k traced).
Proof.
  apply rel_silent. intros w. unfold recordAudit, RecordError.
  repeat case_match; simplify_eq; done.
Qed.

Lemma rel_allow ws : preserves (cells_rel R) (allow env ws).
Proof. apply rel_silent. intros w. unfold allow. by destruct (throttle_Allow _ _ _). Qed.

Lemma rel_emit (e : Event) : preserves (cells_rel R) (emit e).
Proof. by apply rel_silent. Qed.

#[local] Hint Resolve rel_audit rel_allow rel_emit cells_rel_preorder : preserves.
Ltac pres := intros; auto with preserves.

(** What relates the cells across every command of a call relates them across
    the call. *)
Lemma serve_rel c w :
  (forall ws layer key, call_target c = (ws, layer, key) ->
     ws <> uuid_Nil -> ValidLayer layer = true -> validateKey key = None -> forall cells,
     R cells (delete (partitionKey ws layer key) cells) /\
     forall value ttl now, String.length value <= MaxValueBytes -> isSecretShaped value = false -> (0 <= ttl)%Z ->
       R cells (<[partitionKey ws layer key := mkCell value (expires_at (clamp_ttl ttl) now)]> cells)) ->
  R (w_cells w) (w_cells (serve c w)).
Proof.
  intros Hc. destruct c as [cx ws layer key value ttl|cx ws layer key|cx ws layer key]; cbn [serve];
    specialize (Hc ws layer key eq_refl).
  - enough (preserves (cells_rel R) (Write secret env cx ws layer key value ttl)) as Hp by apply Hp.
    unfold Write. destruct (N.eqb_spec ws uuid_Nil) as [|Hws]; cbn [negb]; [pres|].
    destruct (ValidLayer layer) eqn:Hl; [|pres]. destruct (validateKey key) eqn:Hk; [auto with preserves|].
    destruct (Nat.ltb_spec MaxValueBytes (String.length value)) as [|Hlen]; cbn [negb]; [pres|].
    destruct (isSecretShaped value) eqn:Hsec; cbn [negb]; [pres|].
    destruct (Z.leb_spec 0 ttl) as [Httl|]; [|pres]. specialize (Hc Hws eq_refl eq_refl).
    assert (preserves (cells_rel R) (redis env (redis_del (partitionKey ws layer key)))) as Hdel.
    { apply rel_redis. intros now cells a cells' [= <- <-]. apply Hc. }
    assert (preserves (cells_rel R) (redis env (redis_store (partitionKey ws layer key) value (clamp_ttl ttl)))) as Hset.
    { apply rel_redis. intros now cells a cells' [= <- <-]. by apply Hc. }
    apply (preserves_bind (cells_rel R)); [pres|]. intros allowed. apply (preserves_if (cells_rel R)); [|auto with preserves].
    apply (preserves_bind (cells_rel R)); [by apply (preserves_try (cells_rel R))|]. intros [r|e].
    + apply (preserves_bind (cells_rel R)); [apply (preserves_try (cells_rel R)); pres|]. intros [a|e]; [auto with preserves|].
      apply (preserves_bind (cells_rel R)); [by apply (preserves_try (cells_rel R))|]. pres.
    + apply (preserves_bind (cells_rel R)); [apply (preserves_try (cells_rel R)); pres|]. auto with preserves.
  - enough (preserves (cells_rel R) (Read secret env cx ws layer key)) as Hp by apply Hp.
    unfold Read. apply (preserves_if (cells_rel R)); [|pres]. apply (preserves_if (cells_rel R)); [|auto with preserves].
    destruct (validateKey key); [pres|]. apply (preserves_bind (cells_rel R)); [ |].
    + apply rel_redis. intros now cells a cells'. unfold redis_retrieve. repeat case_match; try done. by intros [= _ <-].
    + intros [v|]; [|pres]. apply (preserves_bind (cells_rel R)); [auto with preserves|]. auto with preserves.
  - enough (preserves (cells_rel R) (Delete secret env cx ws layer key)) as Hp by apply Hp.
    unfold Delete. destruct (N.eqb_spec ws uuid_Nil) as [|Hws]; cbn [negb]; [pres|].
    destruct (ValidLayer layer) eqn:Hl; [|pres]. destruct (validateKey key) eqn:Hk; [auto with preserves|].
    apply (preserves_bind (cells_rel R)); [ |intros; pres].
    apply rel_redis. intros now cells a cells' [= <- <-]. by apply Hc.
Qed.
End rel.

(** *** The policies hold of everything stored *)

Definition vetted (cells : Cells) : Prop := map_Forall (fun name c =>
  (exists ws layer key, name = partitionKey ws layer key /\ ws <> uuid_Nil /\ ValidLayer layer = true /\ validateKey key = None) /\
  String.length (c_value c) <= MaxValueBytes /\ isSecretShaped (c_value c) = false) cells.

Definition keeps_vetted (cells cells' : Cells) : Prop := vetted cells -> vetted cells'.
#[local] Instance keeps_vetted_preorder : PreOrder keeps_vetted.
Proof. split; unfold keeps_vetted; [by intros a|]. intros a b c Hab Hbc Ha. by apply Hbc, Hab. Qed.

Lemma serve_vetted c w :
  (forall n cells, keeps_vetted cells (tt_others (t_redis (env n)) cells)) ->
  vetted (w_cells w) -> vetted (w_cells (serve c w)).
Proof.
  intros Ho. change (keeps_vetted (w_cells w) (w_cells (serve c w))). apply (serve_rel keeps_vetted Ho).
  intros ws layer key _ Hws Hl Hk cells. split.
  - intros Hv name x Hx. apply lookup_delete_Some in Hx as [_ Hx]. by apply Hv.
  - intros value ttl now Hlen Hsec _ Hv name x Hx. apply lookup_insert_Some in Hx as [[<- <-]|[_ Hx]]; [|by apply Hv].
    split; [|done]. by exists ws, layer, key.
Qed.

(** *** A call touches its own cell only *)

Definition same_at (name : string) (cells cells' : Cells) : Prop := cells !! name = cells' !! name.
#[local] Instance same_at_preorder name : PreOrder (same_at name).
Proof. split; unfold same_at; [by intros a|]. intros a b c Hab Hbc. by rewrite Hab. Qed.

Lemma serve_other `{!UuidTextLaws, !UuidColonFree} c w ws layer key :
  (forall n cells, tt_others (t_redis (env n)) cells !! partitionKey ws layer key = cells !! partitionKey ws layer key) ->
  ValidLayer layer = true -> layer <> LayerOrganizational -> call_target c <> (ws, layer, key) ->
  w_cells (serve c w) !! partitionKey ws layer key = w_cells w !! partitionKey ws layer key.
Proof.
  intros Ho Hl Hne Hc. symmetry.
  apply (serve_rel (same_at (partitionKey ws layer key))).
  - intros n cells. symmetry. apply Ho.
  - intros ws' layer' key' Ht _ Hl' _ cells.
    assert (partitionKey ws' layer' key' <> partitionKey ws layer key) as Hd.
    { intros E. symmetry in E. apply partitionKey_inj in E as (-> & -> & ->); [|done..]. by apply Hc. }
    unfold same_at. split; [by rewrite lookup_delete_ne|]. intros. by rewrite lookup_insert_ne.
Qed.

Lemma serve_all_other `{!UuidTextLaws, !UuidColonFree} cs w ws layer key :
  (forall n cells, tt_others (t_redis (env n)) cells !! partitionKey ws layer key = cells !! partitionKey ws layer key) ->
  ValidLayer layer = true -> layer <> LayerOrganizational -> Forall (fun c => call_target c <> (ws, layer, key)) cs ->
  w_cells (serve_all cs w) !! partitionKey ws layer key = w_cells w !! partitionKey ws layer key.
Proof.
  intros Ho Hl Hne Hcs. revert w. induction Hcs as [|c cs Hc _ IH]; intros w; [done|].
  cbn [serve_all fold_left]. unfold serve_all in IH. rewrite IH. by apply serve_other.
Qed.
End calls.

(** ** What a call leaves and returns *)

Lemma validateKey_err key e : validateKey key = Some e -> e = ErrInvalidKey.
Proof.
  unfold validateKey. destruct (_ || _); [naive_solver|]. destruct (Nat.ltb _ _); [naive_solver|].
  destruct (ContainsAny _ _); [naive_solver|]. destruct (_ || _); naive_solver.
Qed.

Section outcome.
Context `{UuidText, UuidParse, RuneLower, RedisTTL, RedisReply}.
Variable secret : list Z.
Variable env : nat -> Tick.

(** The instant the SET of a write that begins at step [n] runs at. *)
Definition set_time (n : nat) : time := tt_now (t_redis (env (S n))).

Lemma recordAudit_cells cx ev p o ws l k traced w :
  w_cells (recordAudit secret env cx ev p o ws l k traced w).2 = w_cells w.
Proof. unfold recordAudit, RecordError. repeat case_match; simplify_eq; done. Qed.

Lemma recordAudit_err cx ev p o ws l k traced w e :
  (recordAudit secret env cx ev p o ws l k traced w).1 = Err e -> e = ErrActorID \/ exists e', e = ErrAudit e'.
Proof. unfold recordAudit, RecordError. repeat case_match; simplify_eq; naive_solver. Qed.



(** The part of a write behind the policies and the throttle. *)
Definition write_rest (cx : Ctx) (ws : uuid) (layer : MemoryLayer) (key value : string) (ttl : duration) : act World err unit :=
  r <~ act_try (redis env (redis_store (partitionKey ws layer key) value (clamp_ttl ttl))) ;;
  match r with
  | Err e =>
      act_try (recordAudit secret env cx "memory.write" "Security by Design" "failed" ws layer key true) ;;! act_fail e
  | Ok _ =>
      a <~ act_try (recordAudit secret env cx "memory.write" "Privacy by Design" "success" ws layer key true) ;;
      match a with
      | Err e => act_try (redis env (redis_del (partitionKey ws layer key))) ;;! act_fail e
      | Ok _ => emit (mkEvent "memory.written" ws (layerString layer) key)
      end
  end.

Definition refused (e : err) : Prop := match e with ErrAudit _ | ErrActorID => False | _ => True end.

Lemma allow_run ws w :
  exists ok w', allow env ws w = (Ok ok, w') /\ w_cells w' = w_cells w /\ w_audit w' = w_audit w /\ w_at w' = S (w_at w).
Proof. unfold allow. destruct (throttle_Allow _ _ _) as [ok t]. by eexists _, (mkWorld _ _ _ _ _). Qed.

(** What a policy or the throttle answers. *)
Definition declined (e : err) : Prop := match e with ErrAudit _ | ErrActorID | ErrRedis _ => False | _ => True end.

(** The early returns of a write. *)
Ltac refuse := left; eexists; split_and!; [|reflexivity..]; done.

Lemma Write_cases cx ws layer key value ttl w :
  (exists e, declined e /\ (Write secret env cx ws layer key value ttl w).1 = Err e /\
     w_cells (Write secret env cx ws layer key value ttl w).2 = w_cells w /\
     w_audit (Write secret env cx ws layer key value ttl w).2 = w_audit w) \/
  (ValidLayer layer = true /\ validateKey key = None /\ ws <> uuid_Nil /\ exists w',
     w_cells w' = w_cells w /\ w_audit w' = w_audit w /\ w_at w' = S (w_at w) /\
     Write secret env cx ws layer key value ttl w = write_rest cx ws layer key value ttl w').
Proof.
  unfold Write. destruct (N.eqb_spec ws uuid_Nil) as [|Hws]; cbn [negb]; [refuse|].
  destruct (ValidLayer layer) eqn:Hl; [|refuse].
  destruct (validateKey key) as [e|] eqn:Hk.
  { apply validateKey_err in Hk as ->. refuse. }
  destruct (Nat.ltb _ _); [refuse|]. destruct (isSecretShaped value); [refuse|].
  destruct (0 <=? ttl)%Z; [|refuse]. cbn [negb].
  destruct (allow_run ws w) as (ok & w' & Ha & E1 & E2 & E3). erewrite !act_bind_run by exact Ha.
  destruct ok; [|left; exists ErrRateLimited; by split_and!]. right. split_and!; [done..|]. by exists w'.
Qed.

Lemma redis_run {A} (op : time -> Cells -> res err (A * Cells)) w r cells :
  run_tx ErrRedis (t_redis (env (w_at w))) op (w_cells w) = (r, cells) ->
  redis env op w = (r, mkWorld cells (w_audit w) (w_throttle w) (w_events w) (S (w_at w))).
Proof. unfold redis. by intros ->. Qed.

Lemma run_reliable {A} (t : TxTick Cells) (op : time -> Cells -> res err (A * Cells)) cells a cells' :
  tt_fault t = NoFault -> op (tt_now t) (tt_others t cells) = Ok (a, cells') ->
  run_tx ErrRedis t op cells = (Ok a, cells').
Proof. intros Hf Ho. unfold run_tx. by rewrite Hf, Ho. Qed.

(** A write that reports success left its value in the cell. *)
Lemma Write_Ok cx ws layer key value ttl w w' :
  (forall n cells, tt_others (t_redis (env n)) cells !! partitionKey ws layer key = cells !! partitionKey ws layer key) ->
  Write secret env cx ws layer key value ttl w = (Ok tt, w') ->
  ws <> uuid_Nil /\ ValidLayer layer = true /\ validateKey key = None /\
  w_cells w' !! partitionKey ws layer key = Some (mkCell value (expires_at (clamp_ttl ttl) (set_time (w_at w)))).
Proof.
  intros Ho Hw. destruct (Write_cases cx ws layer key value ttl w) as [(e & _ & He & _)|Hc]; [by rewrite Hw in He|].
  destruct Hc as (Hl & Hk & Hws & w0 & _ & _ & Hat & Heq). split_and!; [done..|]. rewrite Heq in Hw. clear Heq.
  unfold write_rest in Hw. destruct (run_tx ErrRedis (t_redis (env (w_at w0)))
    (redis_store (partitionKey ws layer key) value (clamp_ttl ttl)) (w_cells w0)) as [r cells] eqn:Hr.
  erewrite act_bind_run in Hw by (apply act_try_run; by apply redis_run).
  destruct r as [u|e].
  2:{ unfold act_bind, act_try in Hw. by destruct (recordAudit _ _ _ _ _ _ _ _ _ _ _). }
  apply run_tx_Ok in Hr. unfold redis_store in Hr. injection Hr as _ <-.
  destruct (recordAudit secret env cx "memory.write" "Privacy by Design" "success" ws layer key true
    (mkWorld (<[partitionKey ws layer key := mkCell value (expires_at (clamp_ttl ttl) (tt_now (t_redis (env (w_at w0)))))]>
       (tt_others (t_redis (env (w_at w0))) (w_cells w0))) (w_audit w0) (w_throttle w0) (w_events w0) (S (w_at w0))))
    as [a w1] eqn:Ha.
  erewrite act_bind_run in Hw by (by apply act_try_run). destruct a as [u'|e].
  - injection Hw as <-. simpl. pose proof (f_equal (fun x => w_cells x.2) Ha) as Hc. simpl in Hc.
    rewrite recordAudit_cells in Hc. rewrite <-Hc. simpl. rewrite lookup_insert_eq. unfold set_time. by rewrite Hat.
  - unfold act_bind, act_try in Hw. by destruct (redis _ _ _).
Qed.

(** A read of a live cell. *)
Lemma Read_live `{!RedisLaws} cx ws layer key w c :
  ws <> uuid_Nil -> ValidLayer layer = true -> validateKey key = None ->
  (forall n cells, tt_others (t_redis (env n)) cells !! partitionKey ws layer key = cells !! partitionKey ws layer key) ->
  tt_fault (t_redis (env (w_at w))) = NoFault ->
  w_cells w !! partitionKey ws layer key = Some c -> c_value c <> ""%string ->
  fresh_at (tt_now (t_redis (env (w_at w)))) c = true ->
  (Read secret env cx ws layer key w).1 = Ok (c_value c) \/
  exists e, (Read secret env cx ws layer key w).1 = Err e /\ ~ refused e.
Proof.
  intros Hws Hl Hk Ho Hf Hc Hv Hfresh. unfold Read. rewrite (proj2 (N.eqb_neq ws uuid_Nil)) by done. rewrite Hl, Hk.
  cbn [negb]. erewrite act_bind_run.
  2:{ apply redis_run, run_reliable; [done|]. unfold redis_retrieve. rewrite Ho, Hc, Hfresh.
      rewrite reply_bytes_nonempty by done. reflexivity. }
  cbv beta iota. match goal with |- context [act_bind ?m ?f ?w'] => destruct (m w') as [[u|e] w1] eqn:Hm end.
  - erewrite act_bind_run by exact Hm. by left.
  - erewrite act_bind_err by exact Hm. right. exists e. split; [done|]. apply (f_equal fst) in Hm.
    apply recordAudit_err in Hm as [->|[e' ->]]; naive_solver.
Qed.
End outcome.

(** A workspace reads back what it wrote.  When a write reports success, then
    whatever calls anyone makes afterwards on other cells - the same key in
    another workspace or layer included - and whatever other processes do to
    other cells, a later read of the cell returns exactly the value written,
    until its lifetime ends (a lifetime of zero never does), or reports that its
    own audit record could not be kept. *)
Theorem memory_reads_back `{UuidTextLaws, UuidParse, RuneLower, RedisLaws} `{!UuidColonFree}
    secret env cx ws layer key value ttl w w1 cs cx' :
  (forall n cells, tt_others (t_redis (env n)) cells !! partitionKey ws layer key = cells !! partitionKey ws layer key) ->
  layer <> LayerOrganizational -> value <> ""%string ->
  Write secret env cx ws layer key value ttl w = (Ok tt, w1) ->
  Forall (fun c => call_target c <> (ws, layer, key)) cs ->
  let w2 := serve_all secret env cs w1 in
  tt_fault (t_redis (env (w_at w2))) = NoFault ->
  ttl = 0%Z \/ (tt_now (t_redis (env (w_at w2))) < set_time env (w_at w) + redis_ttl (clamp_ttl ttl))%Z ->
  (Read secret env cx' ws layer key w2).1 = Ok value \/
  exists e, (Read secret env cx' ws layer key w2).1 = Err e /\ ~ refused e.
Proof.
  intros Ho Hne Hv Hw Hcs w2 Hf Httl. destruct (Write_Ok secret env cx ws layer key value ttl w w1 Ho Hw) as (Hws & Hl & Hk & Hc).
  rewrite <-(serve_all_other secret env cs w1 ws layer key) in Hc by done. fold w2 in Hc.
  destruct (Read_live secret env cx' ws layer key w2 _ Hws Hl Hk Ho Hf Hc Hv) as [?|?]; [|by left|by right].
  unfold fresh_at, expires_at. cbn [c_expires]. destruct (Z.eqb_spec (clamp_ttl ttl) 0) as [|Hz]; [done|].
  apply Z.ltb_lt. destruct Httl as [->|?]; [by destruct Hz|done].
Qed.

(** Workspaces are isolated.  No call of one workspace, whatever its layer, key
    and value, changes a session, long-term or workspace cell of another. *)
Theorem memory_isolated `{UuidTextLaws, UuidParse, RuneLower, RedisTTL, RedisReply} `{!UuidColonFree}
    secret env c w ws layer key :
  (forall n cells, tt_others (t_redis (env n)) cells !! partitionKey ws layer key = cells !! partitionKey ws layer key) ->
  ValidLayer layer = true -> layer <> LayerOrganizational -> (call_target c).1.1 <> ws ->
  w_cells (serve secret env c w) !! partitionKey ws layer key = w_cells w !! partitionKey ws layer key.
Proof. intros Ho Hl Hne Hc. apply serve_other; try done. by intros E; rewrite E in Hc. Qed.

(** Everything stored passed the policies.  Whatever calls are made, with Redis
    and the audit database failing at any point, every cell is named after a
    validated key of a real workspace, its value is within the size bound and
    is not shaped like a credential. *)
Theorem memory_vetted `{UuidText, UuidParse, RuneLower, RedisTTL, RedisReply} secret env cs w :
  (forall n cells, vetted cells -> vetted (tt_others (t_redis (env n)) cells)) ->
  vetted (w_cells w) -> vetted (w_cells (serve_all secret env cs w)).
Proof.
  intros Ho. revert w. induction cs as [|c cs IH]; intros w Hw; [done|].
  cbn [serve_all fold_left]. by apply IH, serve_vetted.
Qed.





(** ** Concrete runs *)

#[local] Hint Extern 0 UuidText => exact unary_uuid : typeclass_instances.
#[local] Hint Extern 0 UuidTextLaws => exact unary_uuid_laws : typeclass_instances.
#[local] Hint Extern 0 UuidParse => exact unary_parse : typeclass_instances.

Lemma unary_colon_free : @UuidColonFree unary_uuid.
Proof.
  intros u. unfold uuid_String, unary_uuid. rewrite bytes_of_list.
  intros (a & Ha & Hin)%list_elem_of_fmap. apply elem_of_replicate in Hin as [-> _]. by vm_compute in Ha.
Qed.
#[local] Hint Extern 0 UuidColonFree => exact unary_colon_free : typeclass_instances.

(** Code points beyond ASCII are left alone. *)
#[local] Instance demo_lower : RuneLower := fun r => r.
#[local] Instance whole_ttl : RedisTTL := fun t => t.
#[local] Instance whole_reply : RedisReply := Some.
#[local] Instance whole_laws : RedisLaws.
Proof. by split. Qed.

Definition mem_key : list Z := bytes "secret".
Definition mem_time (s : Z) : UTC := mkUTC 2026 3 9 7 5 s 0.

(** The audit database fails at the steps where [down]. *)
Definition mem_env (down : nat -> bool) : nat -> Tick := fun n =>
  mkTick (mkTxTick (Z.of_nat n * Second) (fun c => c) NoFault)
    (AuditChain.mkTick (N.of_nat n + 100) (N.of_nat n + 200) (mem_time (Z.of_nat n)) (fun t => t)
       (if down n then FailBegin "connection refused" else NoFault)).

#[local] Opaque sha256_Sum256 hmac_sha256.

Definition mem_boot : World :=
  mkWorld ∅ (NewStore mem_key (AuditChain.mkTick 1 2 (mem_time 1) (fun t => t) NoFault)
               (AuditChain.mkTick 3 4 (mem_time 2) (fun t => t) NoFault) []).2 (newThrottle 100) [] 0.

Definition up : nat -> bool := fun _ => false.
Definition founder : Ctx := Memory.mkCtx "0000" "" "".

Definition mem_written : World := (Write mem_key (mem_env up) founder 7 LayerWorkspace "tone" "warm and direct" 0 mem_boot).2.



Definition rivals : list Call :=
  [CallWrite founder 8 LayerWorkspace "tone" "cold" 60; CallDelete founder 7 LayerSession "tone";
   CallWrite founder 7 LayerOrganizational "tone" "house style" 0].

Lemma memory_reads_back_witness :
  (Read mem_key (mem_env up) founder 7 LayerWorkspace "tone" (serve_all mem_key (mem_env up) rivals mem_written)).1
    = Ok "warm and direct"%string \/
  exists e, (Read mem_key (mem_env up) founder 7 LayerWorkspace "tone" (serve_all mem_key (mem_env up) rivals mem_written)).1
    = Err e /\ ~ refused e.
Proof.
  apply (memory_reads_back mem_key (mem_env up) founder 7 LayerWorkspace "tone" "warm and direct" 0 mem_boot mem_written rivals founder).
  - done.
  - done.
  - done.
  - by vm_compute.
  - apply (bool_decide_unpack _). by vm_compute.
  - by vm_compute.
  - by left.
Defined.

Lemma memory_isolated_witness :
  w_cells (serve mem_key (mem_env up) (CallDelete founder 8 LayerWorkspace "tone") mem_written) !! partitionKey 7 LayerWorkspace "tone"
    = w_cells mem_written !! partitionKey 7 LayerWorkspace "tone".
Proof. by apply memory_isolated. Defined.

Lemma memory_vetted_witness :
  vetted (w_cells (serve_all mem_key (mem_env up)
    [CallWrite founder 7 LayerSession "note" "Bearer abc" 0; CallWrite founder 7 LayerSession "note" "sky-high" 5] mem_boot)).
Proof. apply memory_vetted; [done|]. intros name c Hc. by vm_compute in Hc. Defined.

Lemma write_throttle_window_witness :
  admissions 7 [(7%N, 0%Z); (7%N, 10%Z); (8%N, 20%Z); (7%N, 1000000005%Z); (7%N, 1000000011%Z)] (newThrottle 2)
    = [0; 10; 1000000005; 1000000011]%Z /\
  (Z.of_nat (within Second 1000000011 (admissions 7
     [(7%N, 0%Z); (7%N, 10%Z); (8%N, 20%Z); (7%N, 1000000005%Z); (7%N, 1000000011%Z)] (newThrottle 2))) <= 2)%Z.
Proof.
  split; [by vm_compute|].
  apply (write_throttle_window 7 2 [(7%N, 0%Z); (7%N, 10%Z); (8%N, 20%Z); (7%N, 1000000005%Z); (7%N, 1000000011%Z)] 1000000011).
  apply (bool_decide_unpack _). by vm_compute.
Defined.
