(* ===== verification/MemoryHttp.v ===== *)
(** * The memory routes: internal/api/memory_handlers.go

    One cell is read or written, over the memory bank. *)

From S2P Require Import Prelude GoLib GoText Rbac Authz AuditChain Memory Http Surface.

Record memoryWriteRequest : Type := mkMemoryWrite { mw_Value : option string; mw_TTLSeconds : option Z }.
Record memoryResponse : Type := mkMemoryResponse {
  mp_Layer : string; mp_Key : string; mp_Value : string; mp_WorkspaceID : string; mp_TTLSeconds : option Z
}.

Definition layerForHTTP (raw : string) : option MemoryLayer :=
  if String.eqb raw "session" then Some LayerSession
  else if String.eqb raw "longterm" then Some LayerLongTerm
  else if String.eqb raw "workspace" then Some LayerWorkspace
  else None.

Definition layerName (l : MemoryLayer) : string :=
  match l with
  | LayerSession => "session" | LayerLongTerm => "longterm" | LayerWorkspace => "workspace"
  | LayerOrganizational | LayerOther _ => "unknown"
  end.

Section memory.
Context `{UuidText, UuidParse, RuneLower, RedisTTL, RedisReply}.
Variable secret : list Z.
Variable env : nat -> Tick.
Variable draw_header : nat -> bool -> string.
Variable sink : Sink.
Variable r : Request.

Abbreviation M := (act (Front World) (Response memoryResponse)).

(** The identifiers [middleware.ExtractContextValues] draws here, when it does. *)
Definition context_values (s : Front World) : ContextValues := ExtractContextValues (draw_header (fr_at s)) r.

(** [failAudit]: nothing without a sink or for an actor that is no identifier,
    and the sink's own error is dropped. *)
Definition failAudit (claims : Claims) (action detail : string) : M unit := fun s =>
  match uuid_Parse (cl_ID claims) with
  | None => (Ok tt, s)
  | Some actor =>
      let rec := mkRecord ("memory." +:+ action) "user" actor "memory_route" uuid_Nil "failed" "Security by Design" None uuid_Nil uuid_Nil in
      let '(_, kept) := sink_append sink (fr_at s) (mkAudited (correlated true (context_values s) rec) detail) (fr_audit s) in
      (Ok tt, mkFront (fr_svc s) kept (S (fr_at s)))
  end.

Definition audited_refusal {B} (claims : Claims) (action detail : string) (answer : Response memoryResponse) : M B :=
  failAudit claims action detail ;;! act_fail answer.

Definition scope (action : string) : M (Claims * uuid) :=
  match FromRequest r with
  | None => act_fail (Refused 401 "unauthorized")
  | Some claims =>
      check! ValidRole (cl_Role claims) else audited_refusal claims action "unsupported_role" forbidden ;;
      match uuid_Parse (cl_ID claims) with
      | None => audited_refusal claims action "invalid_actor_claim" forbidden
      | Some _ =>
          match WorkspaceFromClaims claims with
          | None => audited_refusal claims action "no_workspace_context" forbidden
          | Some binding =>
              match uuid_Parse binding with
              | None => audited_refusal claims action "invalid_workspace_claim" forbidden
              | Some ws => act_ret (claims, ws)
              end
          end
      end
  end.

Definition path (claims : Claims) (action : string) : M (MemoryLayer * string) :=
  match layerForHTTP (rq_PathValue r "layer") with
  | None => audited_refusal claims action "invalid_layer" (Refused 400 "invalid memory layer")
  | Some layer =>
      let key := rq_PathValue r "key" in
      check! negb (blank key) else audited_refusal claims action "invalid_key" (Refused 400 "invalid memory key") ;;
      act_ret (layer, key)
  end.

Definition memoryError {B} (claims : Claims) (action : string) (e : Memory.err) : M B :=
  match e with
  | ErrNotFound => audited_refusal claims action "not_found" (Refused 404 "memory entry not found")
  | ErrInvalidLayer | ErrInvalidKey | ErrValueTooLarge | ErrSecretRejected | ErrInvalidTTL =>
      audited_refusal claims action "invalid_request" (Refused 400 "invalid memory request")
  | ErrRateLimited => audited_refusal claims action "rate_limited" (Refused 429 "memory write rate limit exceeded")
  | _ => audited_refusal claims action "internal_error" internal_error
  end.

(** A call of the bank on behalf of the caller, with the request's trace. *)
Definition banking {B} (claims : Claims) (action : string) (m : Ctx -> act World Memory.err B) : M B := fun s =>
  let cv := context_values s in
  let '(x, w) := m (mkCtx (cl_ID claims) (cv_TraceID cv) (cv_SpanID cv)) (fr_svc s) in
  (match x with Ok b => act_ret b | Err e => memoryError claims action e end) (mkFront w (fr_audit s) (S (fr_at s))).

Definition Read : handler (Front World) memoryResponse :=
  cw <~ scope "read" ;;
  let '(claims, ws) := cw in
  check! String.eqb (rq_RawQuery r) ""
    else audited_refusal claims "read" "unknown_parameter" (Refused 400 "memory read does not accept query parameters") ;;
  lk <~ path claims "read" ;;
  let '(layer, key) := lk in
  value <~ banking claims "read" (fun cx => Memory.Read secret env cx ws layer key) ;;
  act_ret (Answered 200 (mkMemoryResponse (layerName layer) key value (uuid_String ws) None)).

(** The lifetime asked for, in nanoseconds. *)
Definition ttl_of (claims : Claims) (req : memoryWriteRequest) : M duration :=
  match mw_TTLSeconds req with
  | None => act_ret DefaultTTL
  | Some seconds =>
      check! (0 <=? seconds)%Z && (seconds <=? go_div MaxTTL Second)%Z
        else audited_refusal claims "write" "invalid_ttl" (Refused 400 "ttl_seconds is outside the supported range") ;;
      act_ret (seconds * Second)%Z
  end.

Definition Write (body : Body memoryWriteRequest) : handler (Front World) memoryResponse :=
  cw <~ scope "write" ;;
  let '(claims, ws) := cw in
  check! String.eqb (rq_RawQuery r) ""
    else audited_refusal claims "write" "unknown_parameter" (Refused 400 "memory write does not accept query parameters") ;;
  lk <~ path claims "write" ;;
  let '(layer, key) := lk in
  req <~ decoded body (audited_refusal claims "write" "malformed_body") ;;
  match mw_Value req with
  | None => audited_refusal claims "write" "missing_value" (Refused 400 "value is required")
  | Some value =>
      ttl <~ ttl_of claims req ;;
      banking claims "write" (fun cx => Memory.Write secret env cx ws layer key value ttl) ;;!
      act_ret (Answered 200 (mkMemoryResponse (layerName layer) key value (uuid_String ws) (Some (go_div ttl Second))))
  end.
End memory.
