(* ===== verification/MemoryHttpProps.v ===== *)
(** * What the memory routes guarantee

    A request is refused, or is the one call of the bank its claims and path
    name; what a workspace puts it gets back. *)

From S2P Require Import Prelude GoLib GoText Rbac Authz AuditChain Memory MemoryProps Http Surface MemoryHttp.

Inductive MemoryRequest : Type :=
| HGetCell (r : Http.Request)
| HPutCell (r : Http.Request) (body : Body memoryWriteRequest).

Definition memory_request (q : MemoryRequest) : Http.Request := match q with HGetCell r | HPutCell r _ => r end.

(** The answer to an error of the bank. *)
Definition error_answer (e : Memory.err) : Response memoryResponse :=
  match e with
  | ErrNotFound => Refused 404 "memory entry not found"
  | ErrInvalidLayer | ErrInvalidKey | ErrValueTooLarge | ErrSecretRejected | ErrInvalidTTL => Refused 400 "invalid memory request"
  | ErrRateLimited => Refused 429 "memory write rate limit exceeded"
  | _ => internal_error
  end.

(** Refused before the bank is called. *)
Definition turned_away (resp : Response memoryResponse) : Prop :=
  exists code msg, resp = Refused code msg /\ code ∈ [400; 401; 403]%Z.

(** The cell a request names: the workspace of its claims, the layer and the
    key of its path. *)
Definition cell_of `{UuidParse} (r : Http.Request) : option (uuid * MemoryLayer * string) :=
  '(_, ws) ← caller r; layer ← layerForHTTP (rq_PathValue r "layer"); Some (ws, layer, rq_PathValue r "key").

Section routes.
Context `{UuidText, UuidParse, RuneLower, RedisTTL, RedisReply}.
Variable secret : list Z.
Variable env : nat -> Tick.
Variable draw_header : nat -> bool -> string.
Variable sink : Sink.

Definition memory_route (q : MemoryRequest) : handler (Front World) memoryResponse :=
  match q with
  | HGetCell r => MemoryHttp.Read secret env draw_header sink r
  | HPutCell r body => MemoryHttp.Write secret env draw_header sink r body
  end.

(** The lifetime a body asks for. *)
Definition asked_ttl (req : memoryWriteRequest) : duration := match mw_TTLSeconds req with Some s => (s * Second)%Z | None => DefaultTTL end.

(** [q] is the call [c] of the bank, made by the user of the claims; [shows] is
    the answer of a success. *)
Definition calls (q : MemoryRequest) (s s' : Front World) (resp : Response memoryResponse) : Prop :=
  exists claims ws layer cx, caller (memory_request q) = Some (claims, ws) /\
    layerForHTTP (rq_PathValue (memory_request q) "layer") = Some layer /\ cx_actor cx = cl_ID claims /\
    let key := rq_PathValue (memory_request q) "key" in
    let shown value ttl := Answered 200 (mkMemoryResponse (layerName layer) key value (uuid_String ws) ttl) in
    match q with
    | HGetCell _ =>
        let '(x, w) := Memory.Read secret env cx ws layer key (fr_svc s) in
        fr_svc s' = w /\ match x with Ok value => resp = shown value None | Err e => resp = error_answer e end
    | HPutCell _ body => exists req value, bd_first body = Some req /\ mw_Value req = Some value /\
        let '(x, w) := Memory.Write secret env cx ws layer key value (asked_ttl req) (fr_svc s) in
        fr_svc s' = w /\ match x with Ok _ => resp = shown value (Some (go_div (asked_ttl req) Second)) | Err e => resp = error_answer e end
    end.

Lemma safe_audited_in {B} w0 r (G : Response memoryResponse -> Prop) claims action detail resp (Φ : B -> Prop) :
  G resp -> safe (eq w0) G (audited_refusal draw_header sink r claims action detail resp) Φ.
Proof.
  intros Hr s Hs. unfold audited_refusal, failAudit, act_bind. destruct (uuid_Parse _); [|done].
  by destruct (sink_append _ _ _ _).
Qed.

Lemma away code msg : code ∈ [400; 401; 403]%Z -> turned_away (Refused code msg).
Proof. by eexists _, _. Qed.

#[local] Ltac refused := apply safe_audited_in, away; rewrite !elem_of_cons; by auto.

Section quiet.
Variable w0 : World.
Variable r : Http.Request.

Lemma safe_memory_scope action : safe (eq w0) turned_away (MemoryHttp.scope draw_header sink r action) (fun cw => caller r = Some cw).
Proof.
  unfold MemoryHttp.scope, caller. destruct (FromRequest r) as [claims|]; [|apply safe_answer, away; rewrite !elem_of_cons; by auto].
  destruct (ValidRole _); [|refused]. destruct (uuid_Parse (cl_ID claims)); [|refused].
  destruct (WorkspaceFromClaims claims); [|refused]. destruct (uuid_Parse _); [by apply safe_ret|refused].
Qed.

Lemma safe_path claims action :
  safe (eq w0) turned_away (path draw_header sink r claims action)
    (fun lk => layerForHTTP (rq_PathValue r "layer") = Some lk.1 /\ rq_PathValue r "key" = lk.2).
Proof.
  unfold path. destruct (layerForHTTP _); [|refused]. destruct (negb _); [by apply safe_ret|refused].
Qed.

Lemma safe_body claims (body : Body memoryWriteRequest) :
  safe (eq w0) turned_away (decoded body (audited_refusal draw_header sink r claims "write" "malformed_body")) (fun req => bd_first body = Some req).
Proof.
  unfold decoded, decodeJSON, invalid_body. destruct (bd_first body); [destruct (bd_more body)|]; [refused|by apply safe_ret|refused].
Qed.

Lemma safe_ttl claims req : safe (eq w0) turned_away (ttl_of draw_header sink r claims req) (fun ttl => ttl = asked_ttl req).
Proof. unfold ttl_of, asked_ttl. destruct (mw_TTLSeconds req); [|by apply safe_ret]. destruct (_ && _); [by apply safe_ret|refused]. Qed.


Lemma safe_memoryError {B} claims action e (Φ : B -> Prop) :
  safe (eq w0) (eq (error_answer e)) (memoryError draw_header sink r claims action e) Φ.
Proof. unfold memoryError. destruct e; by apply safe_audited_in. Qed.
End quiet.
Lemma banking_cases {B} r claims action (m : Ctx -> act World Memory.err B) (shown : B -> Response memoryResponse) s :
  let '(resp, s') := respond (act_bind (banking draw_header sink r claims action m) (fun b => act_ret (shown b))) s in
  exists cx, cx_actor cx = cl_ID claims /\
    let '(x, w) := m cx (fr_svc s) in
    fr_svc s' = w /\ match x with Ok b => resp = shown b | Err e => resp = error_answer e end.
Proof.
  unfold respond, act_bind, banking. cbv zeta. set (cx := Memory.mkCtx _ _ _).
  destruct (m cx (fr_svc s)) as [[b|e] w] eqn:Em; cbn [act_ret].
  - exists cx. rewrite Em. done.
  - destruct (quiet_in (eq (error_answer e)) (memoryError (B := B) draw_header sink r claims action e) (fun _ => False) (mkFront w (fr_audit s) (S (fr_at s))))
      as [(resp & s' & -> & Hr & Hw)|(b & s' & _ & [] & _)]; [intros w0; apply safe_memoryError|].
    exists cx. rewrite Em. done.
Qed.

Lemma route_cases q s :
  let '(resp, s') := respond (memory_route q) s in (fr_svc s' = fr_svc s /\ turned_away resp) \/ calls q s s' resp.
Proof.
  set (P := fun resp s' => (fr_svc s' = fr_svc s /\ turned_away resp) \/ calls q s s' resp).
  assert (forall (m : handler (Front World) memoryResponse) s1, fr_svc s1 = fr_svc s -> (forall w, safe (eq w) turned_away m (fun _ => False)) ->
    let '(resp, s') := respond m s1 in P resp s') as Hrefuse.
  { intros m s1 E Hm. destruct (respond_only turned_away m s1 Hm) as [Hr E']. destruct (respond m s1) as [resp s']. left. simpl in *. by rewrite E'. }
  assert (forall resp s1 s', fr_svc s1 = fr_svc s -> turned_away resp -> fr_svc s' = fr_svc s1 -> P resp s') as Hstop.
  { intros resp s1 s' E Hr E'. left. by rewrite E'. }
  destruct q as [r|r body]; cbn [memory_route]; unfold MemoryHttp.Read, MemoryHttp.Write.
  - eapply (respond_quiet turned_away P); [intros w; apply safe_memory_scope|by intros; eapply Hstop|]. intros [claims ws] s1 Hc E1.
    destruct (String.eqb _ _); [|apply Hrefuse; [done|intros w; refused]].
    eapply (respond_quiet turned_away P); [intros w; apply safe_path|intros; by eapply (Hstop _ s1); [|done|]|]. intros [layer key] s2 [Hl Hk] E2. simpl in Hl, Hk. subst key.
    pose proof (banking_cases r claims "read" (fun cx => Memory.Read secret env cx ws layer (rq_PathValue r "key"))
      (fun v => Answered 200 (mkMemoryResponse (layerName layer) (rq_PathValue r "key") v (uuid_String ws) None)) s2) as Hb.
    destruct (respond _ s2) as [resp s']. destruct Hb as (cx & Ha & Hx). right. exists claims, ws, layer, cx. by rewrite E2, E1 in Hx.
  - eapply (respond_quiet turned_away P); [intros w; apply safe_memory_scope|by intros; eapply Hstop|]. intros [claims ws] s1 Hc E1.
    destruct (String.eqb _ _); [|apply Hrefuse; [done|intros w; refused]].
    eapply (respond_quiet turned_away P); [intros w; apply safe_path|intros; by eapply (Hstop _ s1); [|done|]|]. intros [layer key] s2 [Hl Hk] E2. simpl in Hl, Hk. subst key.
    rewrite E1 in E2.
    eapply (respond_quiet turned_away P); [intros w; apply safe_body|intros; by eapply (Hstop _ s2); [|done|]|]. intros req s3 Hreq E3. rewrite E2 in E3.
    destruct (mw_Value req) as [value|] eqn:Hv; [|apply Hrefuse; [done|intros w; refused]].
    eapply (respond_quiet turned_away P); [intros w; apply safe_ttl|intros; by eapply (Hstop _ s3); [|done|]|]. intros ttl s4 -> E4. rewrite E3 in E4.
    pose proof (banking_cases r claims "write" (fun cx => Memory.Write secret env cx ws layer (rq_PathValue r "key") value (asked_ttl req))
      (fun _ => Answered 200 (mkMemoryResponse (layerName layer) (rq_PathValue r "key") value (uuid_String ws) (Some (go_div (asked_ttl req) Second)))) s4) as Hb.
    destruct (respond _ s4) as [resp s']. destruct Hb as (cx & Ha & Hx). right. exists claims, ws, layer, cx. rewrite E4 in Hx.
    split_and!; [done..|]. by exists req, value.
Qed.
Definition serve_requests (qs : list MemoryRequest) (s : Front World) : Front World :=
  foldl (fun s q => (respond (memory_route q) s).2) s qs.

(** A request that reaches the bank is a call on the cell it names. *)
Lemma route_serves q s :
  fr_svc (respond (memory_route q) s).2 = fr_svc s \/
  exists c, fr_svc (respond (memory_route q) s).2 = serve secret env c (fr_svc s) /\ cell_of (memory_request q) = Some (call_target c).
Proof.
  pose proof (route_cases q s) as Hc. destruct (respond _ s) as [resp s']. simpl.
  destruct Hc as [[E _]|(claims & ws & layer & cx & Hc & Hl & _ & Hx)]; [by left|]. right. unfold cell_of. rewrite Hc. simpl. rewrite Hl. simpl.
  destruct q as [r|r body]; simpl in *.
  - exists (CallRead cx ws layer (rq_PathValue r "key")). simpl. destruct (Memory.Read _ _ _ _ _ _ _). by destruct Hx as [<- _].
  - destruct Hx as (req & value & _ & _ & Hx). exists (CallWrite cx ws layer (rq_PathValue r "key") value (asked_ttl req)). simpl.
    destruct (Memory.Write _ _ _ _ _ _ _ _ _). by destruct Hx as [<- _].
Qed.

Lemma cell_of_tenant r ws layer key : cell_of r = Some (ws, layer, key) -> ValidLayer layer = true /\ layer <> LayerOrganizational.
Proof.
  unfold cell_of, layerForHTTP. destruct (caller r) as [[claims ws']|]; [|done]. simpl. repeat case_match; try done; by intros [= <- <- <-].
Qed.

Lemma serve_requests_calls `{!UuidTextLaws} `{!UuidColonFree} qs : forall s ws layer key,
  (forall n cells, tt_others (t_redis (env n)) cells !! partitionKey ws layer key = cells !! partitionKey ws layer key) ->
  Forall (fun q => cell_of (memory_request q) <> Some (ws, layer, key)) qs ->
  exists cs, fr_svc (serve_requests qs s) = serve_all secret env cs (fr_svc s) /\ Forall (fun c => call_target c <> (ws, layer, key)) cs.
Proof.
  induction qs as [|q qs IH]; intros s ws layer key Ho Hq; [by exists []|]. inversion_clear Hq as [|? ? Hq1 Hqs].
  destruct (IH (respond (memory_route q) s).2 ws layer key Ho Hqs) as (cs & E & Hcs).
  destruct (route_serves q s) as [E1|(c & E1 & Hc)]; rewrite E1 in E; [by exists cs|].
  exists (c :: cs). split; [exact E|]. constructor; [|done]. intros Ht. by rewrite Hc, Ht in Hq1.
Qed.
End routes.

(** What is put is got.  When a member's PUT of a non-empty value is answered as
    a success, then whatever requests anyone makes on other cells - the same
    key in another workspace or layer included - a GET of the cell by any member
    of the workspace answers exactly that value while its lifetime lasts, unless
    it is turned away before the bank or its audit record could not be kept; it
    is never answered 404. *)
Theorem put_is_got `{UuidTextLaws, UuidParse, RuneLower, RedisLaws} `{!UuidColonFree} secret env draw_header sink
    r body req ws layer key value s qs r' :
  (forall n cells, tt_others (t_redis (env n)) cells !! partitionKey ws layer key = cells !! partitionKey ws layer key) ->
  cell_of r = Some (ws, layer, key) -> cell_of r' = Some (ws, layer, key) ->
  bd_first body = Some req -> mw_Value req = Some value -> value <> ""%string ->
  let run q s := respond (memory_route secret env draw_header sink q) s in
  let '(put, s1) := run (HPutCell r body) s in
  is_success (status put) = true ->
  Forall (fun q => cell_of (memory_request q) <> Some (ws, layer, key)) qs ->
  let s2 := serve_requests secret env draw_header sink qs s1 in
  let now := tt_now (t_redis (env (w_at (fr_svc s2)))) in
  tt_fault (t_redis (env (w_at (fr_svc s2)))) = NoFault ->
  asked_ttl req = 0%Z \/ (now < set_time env (w_at (fr_svc s)) + redis_ttl (clamp_ttl (asked_ttl req)))%Z ->
  let get := (run (HGetCell r') s2).1 in
  get = Answered 200 (mkMemoryResponse (layerName layer) key value (uuid_String ws) None) \/ turned_away get \/ get = internal_error.
Proof.
  intros Ho Hr Hr' Hb Hv Hne run. destruct (cell_of_tenant r ws layer key Hr) as [_ Horg].
  pose proof (route_cases secret env draw_header sink (HPutCell r body) s) as Hput. unfold run.
  destruct (respond _ s) as [put s1]. intros Hok Hqs Hf Httl. set (s2 := serve_requests secret env draw_header sink qs s1) in *.
  destruct Hput as [[_ (code & msg & -> & Hcode)]|(claims & ws1 & layer1 & cx & Hc & Hl & _ & req1 & value1 & Hb1 & Hv1 & Hx)].
  { exfalso. revert Hok. rewrite !elem_of_cons in Hcode. destruct Hcode as [->|[->|[->|Hn]]]; [done..|by apply not_elem_of_nil in Hn]. }
  rewrite Hb in Hb1. injection Hb1 as <-. rewrite Hv in Hv1. injection Hv1 as <-. simpl in Hc, Hl, Hx.
  unfold cell_of in Hr. rewrite Hc in Hr. simpl in Hr. rewrite Hl in Hr. injection Hr as -> -> Hkey. rewrite Hkey in Hx.
  destruct (Memory.Write _ _ _ _ _ _ _ _ _) as [[u|e] w1] eqn:HW; destruct Hx as [Ew Hx]; [|by rewrite Hx in Hok; destruct e].
  destruct u. destruct (serve_requests_calls secret env draw_header sink qs s1 ws layer key Ho Hqs) as (cs & E2 & Hcs). fold s2 in E2. rewrite Ew in E2. clear run.
  pose proof (route_cases secret env draw_header sink (HGetCell r') s2) as Hget.
  destruct (respond _ s2) as [resp s3]. simpl. destruct Hget as [[_ Ha]|(claims' & ws2 & layer2 & cx' & Hc' & Hl' & _ & Hx')]; [by right; left|].
  simpl in Hc', Hl', Hx'. unfold cell_of in Hr'. rewrite Hc' in Hr'. simpl in Hr'. rewrite Hl' in Hr'. injection Hr' as -> -> Hkey'. rewrite Hkey' in Hx'.
  destruct (memory_reads_back secret env cx ws layer key value (asked_ttl req) (fr_svc s) w1 cs cx') as [HR|(e & HR & Hne')];
    [done|done|done|done|done|by rewrite <-E2|by rewrite <-E2|..].
  - rewrite <-E2 in HR. destruct (Memory.Read _ _ _ _ _ _ _) as [x w3]. simpl in HR. subst x. left. apply Hx'.
  - rewrite <-E2 in HR. destruct (Memory.Read _ _ _ _ _ _ _) as [x w3]. simpl in HR. subst x. right. right.
    destruct Hx' as [_ ->]. destruct e; try done; by destruct Hne'.
Qed.

(** ** Concrete runs *)

#[local] Hint Extern 0 UuidText => exact unary_uuid : typeclass_instances.
#[local] Hint Extern 0 UuidTextLaws => exact unary_uuid_laws : typeclass_instances.
#[local] Hint Extern 0 UuidParse => exact unary_parse : typeclass_instances.
#[local] Hint Extern 0 UuidColonFree => exact unary_colon_free : typeclass_instances.
#[local] Hint Extern 0 RuneLower => exact demo_lower : typeclass_instances.
#[local] Hint Extern 0 RedisTTL => exact whole_ttl : typeclass_instances.
#[local] Hint Extern 0 RedisReply => exact whole_reply : typeclass_instances.
#[local] Hint Extern 0 RedisLaws => exact whole_laws : typeclass_instances.
#[local] Opaque sha256_Sum256 hmac_sha256.

(** A member of a workspace asks for a cell. *)
Definition member_of (id ws : string) : Claims := mkClaims id RoleWorkspaceMember ws ∅.
Definition cell_ask (claims : Claims) (layer key : string) : Http.Request :=
  mkRequest "203.0.113.9:4711" (fun _ => ""%string) "" (fun name => if String.eqb name "layer" then layer else key) (Some claims).
Definition put_body (value : string) (ttl : option Z) : Body memoryWriteRequest := mkBody (Some (mkMemoryWrite (Some value) ttl)) false.
Definition mem_front : Front World := mkFront mem_boot [] 0.
Abbreviation run := (fun q s => respond (memory_route mem_key (mem_env up) (fun _ _ => ""%string) (Some (fun _ => None)) q) s).

Definition ada : Claims := member_of (uuid_String 3) (uuid_String 7).
Definition eve : Claims := member_of (uuid_String 4) (uuid_String 8).
Definition tone_put : Body memoryWriteRequest := put_body "warm and direct" (Some 60%Z).
Definition others_cells : list MemoryRequest :=
  [HPutCell (cell_ask eve "workspace" "tone") (put_body "cold" None); HPutCell (cell_ask ada "session" "tone") (put_body "brisk" (Some 1%Z))].

Definition put_run : Response memoryResponse * Front World := run (HPutCell (cell_ask ada "workspace" "tone") tone_put) mem_front.
Definition got_run : Response memoryResponse :=
  (run (HGetCell (cell_ask ada "workspace" "tone"))
     (serve_requests mem_key (mem_env up) (fun _ _ => ""%string) (Some (fun _ => None)) others_cells put_run.2)).1.

Lemma put_is_got_witness :
  status put_run.1 = 200%Z /\ got_run = Answered 200 (mkMemoryResponse "workspace" "tone" "warm and direct" (uuid_String 7) None).
Proof.
  assert (status put_run.1 = 200%Z) as Hput by (vm_compute; reflexivity). split; [exact Hput|].
  pose proof (put_is_got mem_key (mem_env up) (fun _ _ => ""%string) (Some (fun _ => None)) (cell_ask ada "workspace" "tone") tone_put
    (mkMemoryWrite (Some "warm and direct"%string) (Some 60%Z)) 7 LayerWorkspace "tone" "warm and direct" mem_front others_cells
    (cell_ask ada "workspace" "tone") (fun _ _ => eq_refl) eq_refl eq_refl eq_refl eq_refl ltac:(discriminate)) as Hp. cbv beta zeta in Hp.
  change (respond (memory_route _ _ _ _ (HPutCell _ _)) _) with put_run in Hp. rewrite (surjective_pairing put_run) in Hp.
  specialize (Hp ltac:(rewrite Hput; reflexivity) ltac:(apply (bool_decide_unpack _); vm_compute; reflexivity)
    ltac:(vm_compute; reflexivity) ltac:(right; vm_compute; reflexivity)).
  change (respond _ _).1 with got_run in Hp. assert (status got_run = 200%Z) as Hg by (vm_compute; reflexivity).
  destruct Hp as [Hp|[(code & msg & E & Hc)|E]]; [exact Hp| |]; rewrite E in Hg; [|discriminate Hg]. simpl in Hg. subst code.
  revert Hc. rewrite !elem_of_cons. intros [?|[?|[?|Hn]]]; [discriminate..|by apply not_elem_of_nil in Hn].
Defined.

(** ** What is not as it is said to be *)

(** A caller whose identifier is none is turned away, and the record that is to
    say so is never written: it would name that identifier. *)
Definition letters_refused : UuidParse := fun s => if String.eqb s "ada" then None else unary_parse s.
Example invalid_actor_unrecorded :
  let '(resp, s) := respond (memory_route (H0 := letters_refused) mem_key (mem_env up) (fun _ _ => ""%string) (Some (fun _ => None))
    (HGetCell (cell_ask (member_of "ada" (uuid_String 7)) "workspace" "tone"))) mem_front in
  status resp = 403%Z /\ fr_audit s = [].
Proof. vm_compute. by split. Qed.

(** A lifetime of zero is answered as zero seconds; the cell never expires. *)
Example zero_lifetime_never_expires :
  let '(resp, s) := run (HPutCell (cell_ask ada "workspace" "tone") (put_body "kept" (Some 0%Z))) mem_front in
  resp = Answered 200 (mkMemoryResponse "workspace" "tone" "kept" (uuid_String 7) (Some 0%Z)) /\
  c_expires <$> w_cells (fr_svc s) !! partitionKey 7 LayerWorkspace "tone" = Some None.
Proof. vm_compute. by split. Qed.
