(* ===== verification/AuditRead.v ===== *)
(** * Reading the audit chain

    The rows of audit_events, written and scanned (infrastructure/auditstore/
    store.go), with the redaction of their details (internal/audit/store.go);
    internal/audit/read.go, infrastructure/auditstore/read.go and the handlers of
    internal/api/audit_handlers.go. *)

From S2P Require Import Prelude GoLib GoText Json Rbac Authz AuditChain Http.

(** ** internal/audit/store.go: RedactDetails *)

Definition secretKeys : list string :=
  ["password"; "passwd"; "pwd"; "secret"; "token"; "jwt"; "credential"; "authorization"; "auth_header"; "cookie";
   "session"; "api_key"; "apikey"; "access_key"; "private_key"; "refresh"; "signature"; "hash"]%string.

(** What a detail holds: any value of the caller, or the placeholder. *)
Inductive detail (V : Type) : Type := Given (v : V) | Redacted.
Arguments Given {V}.
Arguments Redacted {V}.

Definition secret_key `{RuneLower} (k : string) : bool := existsb (Contains (ToLower k)) secretKeys.

Definition RedactDetails `{RuneLower} {V} (details : gmap string (detail V)) : gmap string (detail V) :=
  map_imap (fun k v => Some (if secret_key k then Redacted else v)) details.

(** ** encoding/base64, as encoding/json writes and reads a slice of bytes *)

Definition b64_alphabet : list Z := bytes "ABCDEFGHIJKLMNOPQRSTUVWXYZabcdefghijklmnopqrstuvwxyz0123456789+/".
Definition b64_char (n : Z) : Z := nth (Z.to_nat n) b64_alphabet 0%Z.
Definition b64_value (c : Z) : option Z := option_map (fun p => Z.of_nat p.1) (list_find (fun d => d = c) b64_alphabet).

Fixpoint b64_encode (l : list Z) : list Z :=
  match l with
  | a :: b :: c :: l' =>
      b64_char (a / 4) :: b64_char (a mod 4 * 16 + b / 16) :: b64_char (b mod 16 * 4 + c / 64) :: b64_char (c mod 64) :: b64_encode l'
  | [a; b] => [b64_char (a / 4); b64_char (a mod 4 * 16 + b / 16); b64_char (b mod 16 * 4); 61%Z]
  | [a] => [b64_char (a / 4); b64_char (a mod 4 * 16); 61%Z; 61%Z]
  | [] => []
  end.

(** Of a text without line breaks, which the decoder skips. *)
Fixpoint b64_groups (l : list Z) : option (list Z) :=
  match l with
  | [] => Some []
  | p :: q :: r :: s :: l' =>
      v ← b64_value p; w ← b64_value q;
      if (r =? 61)%Z then
        (if (s =? 61)%Z && bool_decide (l' = []) then Some [v * 4 + w / 16]%Z else None)
      else
        x ← b64_value r;
        if (s =? 61)%Z then
          (if bool_decide (l' = []) then Some [v * 4 + w / 16; w mod 16 * 16 + x / 4]%Z else None)
        else
          y ← b64_value s; rest ← b64_groups l';
          Some (v * 4 + w / 16 :: w mod 16 * 16 + x / 4 :: x mod 4 * 64 + y :: rest)%Z
  | _ => None
  end.
Definition b64_decode (s : string) : option (list Z) :=
  b64_groups (filter (fun b => negb ((b =? 10)%Z || (b =? 13)%Z) = true) (bytes s)).

Example b64_some : of_bytes (b64_encode (bytes "Man, Ma")) = "TWFuLCBNYQ=="%string. Proof. reflexivity. Qed.

(** A slice that is nil is written as null, which leaves one as it is; a list of
    numbers is read as well. *)
Definition Marshal_bytes (l : list Z) : Json := match l with [] => JNull | _ => JString (of_bytes (b64_encode l)) end.
Definition uint8_of (v : Json) : option Z :=
  match v with
  | JNumber t => match parse_unsigned (bytes t) with Some n => if (n <=? 255)%Z then Some n else None | None => None end
  | JNull => Some 0%Z
  | _ => None
  end.
Definition Unmarshal_bytes (v : Json) : option (list Z) :=
  match v with JNull => Some [] | JString s => b64_decode s | JArray l => mapM uint8_of l | _ => None end.

(** ** The rows of audit_events (infrastructure/auditstore/store.go) *)

Record EventRow (V : Type) : Type := mkEventRow {
  er_id : uuid; er_event_id : uuid; er_workspace_id : option uuid;
  er_timestamp : UTC; er_timestamp_canonical : option string;
  er_trace_id : option uuid; er_span_id : option uuid;
  er_actor_type : string; er_actor_id : option uuid; er_target_type : string; er_target_id : option uuid;
  er_event_type : string; er_outcome : string; er_outcome_details : option (gmap string (detail V));
  er_constitutional_principle : string; er_digital_signature : option Json;
  er_hash_chain_parent : option uuid; er_hash_chain_value : option (list Z); er_genesis : option bool
}.
Arguments mkEventRow {V}.
Arguments er_id {V}. Arguments er_event_id {V}. Arguments er_workspace_id {V}. Arguments er_timestamp {V}.
Arguments er_timestamp_canonical {V}. Arguments er_trace_id {V}. Arguments er_span_id {V}. Arguments er_actor_type {V}.
Arguments er_actor_id {V}. Arguments er_target_type {V}. Arguments er_target_id {V}. Arguments er_event_type {V}.
Arguments er_outcome {V}. Arguments er_outcome_details {V}. Arguments er_constitutional_principle {V}.
Arguments er_digital_signature {V}. Arguments er_hash_chain_parent {V}. Arguments er_hash_chain_value {V}. Arguments er_genesis {V}.

(** [time.Parse(time.RFC3339Nano, s)], in UTC. *)
Class GoTimeNano : Type := parse_RFC3339Nano : string -> option UTC.

Definition nullUUID (u : uuid) : option uuid := if (u =? uuid_Nil)%N then None else Some u.
Definition TruncateMicro (t : UTC) : UTC :=
  mkUTC (t_year t) (t_month t) (t_day t) (t_hour t) (t_min t) (t_sec t) (t_nsec t - t_nsec t mod 1000).

Inductive scan_err : Type := BadColumn (name : string) | NoCanonicalTimestamp (event : uuid) | BadTimestamp (event : uuid) | BadSignature (event : uuid).

Section rows.
Context {V : Type} `{RuneLower, GoTimeNano, UuidText}.
Variable key : list Z.
(** A record: what is hashed, its workspace, and its details, which marshal. *)
Definition Recorded : Type := AuditInput * gmap string (detail V).

Definition workspaceArg (rec : option Recorded) : option uuid := rec ← rec; i_WorkspaceID rec.1.

Definition insertTx (ev : AuditEvent) (rec : option Recorded) : EventRow V :=
  mkEventRow (e_ID ev) (e_EventID ev) (workspaceArg rec)
    (TruncateMicro (e_Timestamp ev)) (Some (Format (e_Timestamp ev)))
    (nullUUID (e_TraceID ev)) (nullUUID (e_SpanID ev))
    (e_ActorType ev) (nullUUID (e_ActorID ev)) (e_TargetType ev) (nullUUID (e_TargetID ev))
    (e_EventType ev) (e_Outcome ev)
    (rec ← rec; if bool_decide (RedactDetails rec.2 = ∅) then None else Some (RedactDetails rec.2))
    (e_ConstitutionalPrinciple ev) (Some (Marshal_bytes (e_DigitalSignature ev)))
    (nullUUID (e_HashParent ev)) (Some (e_HashValue ev)) (Some (e_Genesis ev)).

Definition or_nil (u : option uuid) : uuid := default uuid_Nil u.

Definition scanRow (r : EventRow V) : res scan_err AuditEvent :=
  match er_genesis r with
  | None => Err (BadColumn "genesis")
  | Some genesis =>
      let canonical := default ""%string (er_timestamp_canonical r) in
      guard! negb (String.eqb canonical "") else NoCanonicalTimestamp (er_event_id r) in
      match parse_RFC3339Nano canonical with
      | None => Err (BadTimestamp (er_event_id r))
      | Some ts =>
          match (match er_digital_signature r with None => Some [] | Some v => Unmarshal_bytes v end) with
          | None => Err (BadSignature (er_event_id r))
          | Some sig =>
              Ok (AuditChain.mkEvent (er_id r) (er_event_id r) ts (or_nil (er_trace_id r)) (or_nil (er_span_id r))
                    (er_actor_type r) (or_nil (er_actor_id r)) (er_target_type r) (or_nil (er_target_id r))
                    (er_event_type r) (er_outcome r) (or_nil (er_hash_chain_parent r))
                    (default [] (er_hash_chain_value r)) sig genesis (er_constitutional_principle r))
          end
      end
  end.

(** The table in the order of seq. *)
Definition loadHeadTx (rows : list (EventRow V)) : res scan_err (option AuditEvent) :=
  match last rows with None => Ok None | Some r => try! ev := scanRow r in Ok (Some ev) end.

Fixpoint Store_Chain (rows : list (EventRow V)) : res scan_err (list AuditEvent) :=
  match rows with
  | [] => Ok []
  | r :: rows' => try! ev := scanRow r in try! l := Store_Chain rows' in Ok (ev :: l)
  end.
Definition Store_Verify (rows : list (EventRow V)) : res scan_err bool :=
  try! events := Store_Chain rows in Ok (VerifyHashChain key events).

Definition lift_scan {A} (r : res scan_err A) : res audit_err A :=
  match r with Ok a => Ok a | Err _ => Err (ErrDB "scan") end.

(** [New] and [Append] on the rows; [others] is what other writers leave before
    the lock is granted. *)
Definition locked_rows {A} (others : list (EventRow V) -> list (EventRow V)) (f : Fault)
    (op : list (EventRow V) -> res audit_err (A * list (EventRow V))) (rows : list (EventRow V)) : res audit_err A * list (EventRow V) :=
  run_tx ErrDB (mkTxTick 0 others f) (fun _ => op) rows.

Definition Append_rows (others : list (EventRow V) -> list (EventRow V)) (t : AuditTick) (rec : Recorded) (rows : list (EventRow V))
    : res audit_err AuditEvent * list (EventRow V) :=
  let i := rec.1 in
  if String.eqb (i_EventType i) "" || String.eqb (i_Outcome i) "" || String.eqb (i_Principle i) ""
  then (Err ErrIncomplete, rows)
  else locked_rows others (at_fault t) (fun rows =>
    try! head := lift_scan (loadHeadTx rows) in
    match head with
    | None => Err ErrNoGenesis
    | Some head =>
        let ev := AppendEvent key head (i_EventType i) (i_ActorType i) (i_ActorID i) (i_TargetType i)
                    (i_TargetID i) (i_Outcome i) (i_Principle i) (at_id t) (at_event t) (at_now t) in
        Ok (ev, rows ++ [insertTx ev (Some rec)])
    end) rows.

Definition NewStore_rows (others1 others2 : list (EventRow V) -> list (EventRow V)) (t1 t2 : AuditTick) (rows : list (EventRow V))
    : res audit_err AuditEvent * list (EventRow V) :=
  match locked_rows others1 (at_fault t1) (fun rows => try! head := lift_scan (loadHeadTx rows) in Ok (head, rows)) rows with
  | (Err e, rows) => (Err e, rows)
  | (Ok (Some head), rows) => (Ok head, rows)
  | (Ok None, rows) =>
      let genesis := GenesisEvent key "Security by Design" (at_id t2) (at_event t2) (at_now t2) in
      locked_rows others2 (at_fault t2) (fun rows => Ok (genesis, rows ++ [insertTx genesis None])) rows
  end.
End rows.

(** ** internal/audit/read.go *)

Record EventView : Type := mkView {
  v_Seq : Z; v_EventID : uuid; v_Timestamp : UTC; v_Workspace : option uuid; v_TraceID : option uuid;
  v_SpanID : option uuid; v_ActorType : string; v_ActorID : option uuid; v_TargetType : string;
  v_TargetID : option uuid; v_EventType : string; v_Outcome : string; v_ConstitutionalPrinciple : string;
  v_Genesis : bool
}.

Definition DefaultPageSize : Z := 50.
Definition MaxPageSize : Z := 200.
Definition maxFilterRunes : nat := 64.

Record Query : Type := mkQuery {
  aq_Workspace : option uuid; aq_EventType : string; aq_Outcome : string; aq_ActorType : string;
  aq_BeforeSeq : Z; aq_Limit : Z
}.

Inductive read_err : Type := ErrFilterTooLong | ErrRead (msg : string).

Definition Normalize (q : Query) : res read_err Query :=
  let limit := if (aq_Limit q <=? 0)%Z then DefaultPageSize else aq_Limit q in
  let limit := if (MaxPageSize <? limit)%Z then MaxPageSize else limit in
  guard! forallb (fun v => rune_count v <=? maxFilterRunes)%nat [aq_EventType q; aq_Outcome q; aq_ActorType q]
    else ErrFilterTooLong in
  Ok (mkQuery (aq_Workspace q) (aq_EventType q) (aq_Outcome q) (aq_ActorType q) (aq_BeforeSeq q) limit).

(** ** infrastructure/auditstore/read.go *)

(** A row of audit_events: its sequence number, the event and its workspace. *)
Record Row : Type := mkRow { rw_Seq : Z; rw_Event : AuditEvent; rw_Workspace : option uuid }.

(** [collectEventViews] of one row.  The canonical timestamp text parses back to
    the instant it was made from. *)
Definition view_of (r : Row) : EventView :=
  let e := rw_Event r in
  mkView (rw_Seq r) (e_EventID e) (e_Timestamp e) (rw_Workspace r) (nullUUID (e_TraceID e)) (nullUUID (e_SpanID e))
    (e_ActorType e) (nullUUID (e_ActorID e)) (e_TargetType e) (nullUUID (e_TargetID e)) (e_EventType e) (e_Outcome e)
    (e_ConstitutionalPrinciple e) (e_Genesis e).

Definition given (filter value : string) : bool := String.eqb filter "" || String.eqb value filter.

(** The conditions [buildQuery] joins. *)
Definition selects (q : Query) (r : Row) : bool :=
  match aq_Workspace q with Some ws => bool_decide (rw_Workspace r = Some ws) | None => true end
  && given (aq_EventType q) (e_EventType (rw_Event r)) && given (aq_Outcome q) (e_Outcome (rw_Event r))
  && given (aq_ActorType q) (e_ActorType (rw_Event r))
  && ((aq_BeforeSeq q <=? 0) || (rw_Seq r <? aq_BeforeSeq q))%Z.

(** ORDER BY seq DESC *)
Definition later (a b : Row) : Prop := (rw_Seq b <= rw_Seq a)%Z.
#[export] Instance later_dec a b : Decision (later a b).
Proof. unfold later. apply _. Defined.

Definition run_query (q : Query) (rows : list Row) : res read_err (list EventView) :=
  guard! text_ok (aq_EventType q) && text_ok (aq_Outcome q) && text_ok (aq_ActorType q) else ErrRead "22021" in
  Ok (map view_of (take (Z.to_nat (aq_Limit q)) (merge_sort later (filter (fun r => selects q r = true) rows)))).

(** What the table holds when a statement runs, or why it cannot. *)
Abbreviation Snapshot := (res read_err (list Row)) (only parsing).

Definition Reader_List (q : Query) (db : Snapshot) : res read_err (list EventView) :=
  try! q := Normalize q in try! rows := db in run_query q rows.

(** Row-level security shows a workspace its own rows and those of no workspace. *)
Definition visible (ws : uuid) (r : Row) : bool :=
  match rw_Workspace r with Some w => (w =? ws)%N | None => true end.

Definition Reader_ListForWorkspace (workspaceID : uuid) (q : Query) (db : Snapshot) : res read_err (list EventView) :=
  try! q := Normalize q in
  let q := mkQuery (Some workspaceID) (aq_EventType q) (aq_Outcome q) (aq_ActorType q) (aq_BeforeSeq q) (aq_Limit q) in
  try! rows := db in run_query q (filter (fun r => visible workspaceID r = true) rows).

Definition Reader_VerifyChain `{UuidText} (key : list Z) (db : Snapshot) : res read_err (bool * Z) :=
  try! rows := db in Ok (VerifyHashChain key (map rw_Event rows), Z.of_nat (length rows)).

(** ** internal/api/audit_handlers.go *)

Inductive Reply : Type :=
| RPage (events : list EventView) (next_cursor : string) (limit : Z)
| RVerification (verified : bool) (events_checked head_seq : Z)
| RError (status : Z) (msg : string).

Definition known_params : list string := ["event_type"; "outcome"; "actor_type"; "limit"; "before_seq"]%string.

Definition parse_bound (v msg : string) : res Reply Z :=
  if String.eqb v "" then Ok 0%Z
  else match ParseInt v with
       | Some n => guard! (0 <=? n)%Z else RError 400 msg in Ok n
       | None => Err (RError 400 msg)
       end.

Definition parseAuditQuery (vs : Values) : res Reply Query :=
  match find (fun kv => negb (existsb (String.eqb kv.1) known_params)) vs with
  | Some (key, _) => Err (RError 400 ("unsupported query parameter: " +:+ key))
  | None =>
      try! limit := parse_bound (values_Get "limit" vs) "limit must be a non-negative integer" in
      try! before := parse_bound (values_Get "before_seq" vs) "before_seq must be a non-negative integer" in
      match Normalize (mkQuery None (TrimSpace (values_Get "event_type" vs)) (TrimSpace (values_Get "outcome" vs))
                         (TrimSpace (values_Get "actor_type" vs)) before limit) with
      | Ok q => Ok q
      | Err _ => Err (RError 400 "audit: filter exceeds 64 characters")
      end
  end.

Definition newAuditPage (events : list EventView) (limit : Z) : Reply :=
  RPage events
    (match last events with
     | Some v => if (Z.of_nat (length events) =? limit)%Z && (0 <? limit)%Z then strconv_Itoa (v_Seq v) else ""
     | None => ""
     end) limit.

Definition serverError : Reply := RError 500 "internal error".
Definition forbidden : Reply := RError 403 "forbidden".
Definition unauthorized : Reply := RError 401 "unauthorized".

(** A handler that stops early answers with what it stopped with. *)
Definition answer (r : res Reply Reply) : Reply := match r with Ok a => a | Err a => a end.

Definition or_500 {A} (r : res read_err A) : res Reply A := match r with Ok a => Ok a | Err _ => Err serverError end.

Definition ListOrg (claims : option Claims) (vs : Values) (db : Snapshot) : Reply :=
  match claims with
  | None => unauthorized
  | Some c => answer (
      guard! bool_decide (cl_Role c = RoleFounder) else forbidden in
      try! q := parseAuditQuery vs in
      try! events := or_500 (Reader_List q db) in
      Ok (newAuditPage events (aq_Limit q)))
  end.

Section handlers.
Context `{UuidText, UuidParse}.

Definition ListForWorkspace (claims : option Claims) (path : string) (vs : Values) (db : Snapshot) : Reply :=
  match claims with
  | None => unauthorized
  | Some c => answer (
      try! q := parseAuditQuery vs in
      match uuid_Parse path with
      | None => Err (RError 400 "invalid workspace id")
      | Some pathID =>
          if bool_decide (cl_Role c = RoleFounder) then
            let q := mkQuery (Some pathID) (aq_EventType q) (aq_Outcome q) (aq_ActorType q) (aq_BeforeSeq q) (aq_Limit q) in
            try! events := or_500 (Reader_List q db) in
            Ok (newAuditPage events (aq_Limit q))
          else
            match WorkspaceFromClaims c with
            | None => Err forbidden
            | Some binding =>
                guard! String.eqb binding (uuid_String pathID) else forbidden in
                try! events := or_500 (Reader_ListForWorkspace pathID q db) in
                Ok (newAuditPage events (aq_Limit q))
            end
      end)
  end.

(** Two reads of the table: [db] for the chain and [db'] for its head. *)
Definition Verification (key : list Z) (claims : option Claims) (db db' : Snapshot) : Reply :=
  match claims with
  | None => unauthorized
  | Some c => answer (
      guard! bool_decide (cl_Role c = RoleFounder) else forbidden in
      try! p := or_500 (Reader_VerifyChain key db) in
      let head :=
        if (0 <? p.2)%Z then
          match Reader_List (mkQuery None "" "" "" 0 1) db' with
          | Ok (v :: _) => v_Seq v
          | _ => 0%Z
          end
        else 0%Z in
      Ok (RVerification p.1 p.2 head))
  end.
End handlers.
