(* ===== verification/AuditReadProps.v ===== *)
(** * What reading the audit chain guarantees

    Pages walked by their cursors are the history, newest first, while events
    are appended; readers of one workspace see that workspace only; which
    requests end in a server error; and the rows implement the chain. *)

From S2P Require Import Prelude GoLib GoText Json Rbac Authz AuditChain AuditProps Http AuditRead.

(** ** The table and its order *)

Definition before_row (a b : Row) : Prop := (rw_Seq a < rw_Seq b)%Z.
#[export] Instance before_row_trans : Transitive before_row.
Proof. intros a b c. unfold before_row. lia. Qed.
#[export] Instance later_total : Total later.
Proof. intros a b. unfold later. lia. Qed.
#[export] Instance later_trans : Transitive later.
Proof. intros a b c. unfold later. lia. Qed.

(** Sequence numbers grow along the table and fit their column. *)
Definition numbered (rows : list Row) : Prop :=
  StronglySorted before_row rows /\ Forall (fun r => 0 < rw_Seq r < 2 ^ 63)%Z rows.

Lemma sorted_same a b rows :
  StronglySorted before_row rows -> a ∈ rows -> b ∈ rows -> rw_Seq a = rw_Seq b -> a = b.
Proof.
  induction 1 as [|x l Hl IH Hx]; [set_solver|]. rewrite Forall_forall in Hx. unfold before_row in Hx.
  intros [->|Ha]%elem_of_cons [->|Hb]%elem_of_cons Heq; [done| | |by apply IH].
  - apply Hx in Hb. lia.
  - apply Hx in Ha. lia.
Qed.

(** ORDER BY seq DESC of a table in the order of its sequence is its reverse. *)
Lemma order_desc P `{forall x, Decision (P x)} rows :
  StronglySorted before_row rows -> merge_sort later (filter P rows) = filter P (reverse rows).
Proof.
  intros Hs. rewrite filter_reverse. apply (StronglySorted_unique_strong later).
  - intros a b Ha Hb Hab Hba. rewrite merge_sort_Permutation in Ha. apply list_elem_of_filter in Ha as [_ Ha].
    rewrite elem_of_reverse in Hb. apply list_elem_of_filter in Hb as [_ Hb]. unfold later in *. eapply sorted_same; [done..|lia].
  - apply Sorted_StronglySorted, Sorted_merge_sort; apply _.
  - rewrite <-(list_fmap_id (reverse _)). eapply (StronglySorted_fmap id (flip before_row)).
    + unfold later, before_row. simpl. lia.
    + by apply StronglySorted_reverse, StronglySorted_filter.
  - rewrite merge_sort_Permutation. symmetry. apply reverse_Permutation.
Qed.

(** ** Parsing the query string *)

Lemma parse_bound_Itoa z msg : (0 <= z < 2 ^ 63)%Z -> parse_bound (strconv_Itoa z) msg = Ok z.
Proof.
  intros Hz. unfold parse_bound.
  destruct (String.eqb_spec (strconv_Itoa z) "") as [E|_].
  { pose proof (ParseInt_Itoa z ltac:(unfold in_int64; lia)) as Hp. by rewrite E in Hp. }
  rewrite ParseInt_Itoa by (unfold in_int64; lia). by rewrite (proj2 (Z.leb_le 0 z)) by lia.
Qed.

Lemma Normalize_Ok q q' :
  Normalize q = Ok q' ->
  (1 <= aq_Limit q' <= 200)%Z /\ aq_Workspace q' = aq_Workspace q /\ aq_BeforeSeq q' = aq_BeforeSeq q /\
  Normalize q' = Ok q' /\
  forall b, Normalize (mkQuery (aq_Workspace q) (aq_EventType q) (aq_Outcome q) (aq_ActorType q) b (aq_Limit q)) =
    Ok (mkQuery (aq_Workspace q') (aq_EventType q') (aq_Outcome q') (aq_ActorType q') b (aq_Limit q')).
Proof.
  unfold Normalize, DefaultPageSize, MaxPageSize. cbn [aq_Workspace aq_EventType aq_Outcome aq_ActorType aq_BeforeSeq aq_Limit].
  intros [Hf Hq]%guard_Ok. injection Hq as <-.
  cbn [aq_Workspace aq_EventType aq_Outcome aq_ActorType aq_BeforeSeq aq_Limit]. rewrite Hf.
  set (l := (if 200 <? _ then _ else _)%Z).
  assert (1 <= l <= 200)%Z as Hl.
  { subst l. destruct (Z.leb_spec (aq_Limit q) 0); [simpl; lia|]. destruct (Z.ltb_spec 200 (aq_Limit q)); lia. }
  split_and!; [lia..|done|done| |done].
  rewrite (proj2 (Z.leb_gt l 0)), (proj2 (Z.ltb_ge 200 l)) by lia. done.
Qed.

(** The query with a cursor. *)
Definition with_before (b : Z) (q : Query) : Query :=
  mkQuery (aq_Workspace q) (aq_EventType q) (aq_Outcome q) (aq_ActorType q) b (aq_Limit q).

Lemma parse_with_cursor params q (cursor : string) b :
  parseAuditQuery params = Ok q -> parse_bound cursor "before_seq must be a non-negative integer" = Ok b ->
  parseAuditQuery (("before_seq"%string, [cursor]) :: params) = Ok (with_before b q).
Proof.
  unfold parseAuditQuery. cbn [find fst]. change (existsb (String.eqb "before_seq") known_params) with true. cbn [negb].
  destruct (find _ params) as [[? ?]|]; [done|].
  change (values_Get "limit" (("before_seq"%string, [cursor]) :: params)) with (values_Get "limit" params).
  change (values_Get "before_seq" (("before_seq"%string, [cursor]) :: params)) with cursor.
  change (values_Get "event_type" (("before_seq"%string, [cursor]) :: params)) with (values_Get "event_type" params).
  change (values_Get "outcome" (("before_seq"%string, [cursor]) :: params)) with (values_Get "outcome" params).
  change (values_Get "actor_type" (("before_seq"%string, [cursor]) :: params)) with (values_Get "actor_type" params).
  intros (l & -> & Hq)%res_bind_Ok Hb. apply res_bind_Ok in Hq as (b0 & _ & Hq). rewrite Hb. cbn [res_bind].
  destruct (Normalize _) as [q'|e] eqn:Hn; [|done]. injection Hq as ->.
  apply Normalize_Ok in Hn as (_ & _ & _ & _ & Hn). cbn [aq_Workspace aq_EventType aq_Outcome aq_ActorType aq_Limit] in Hn.
  by rewrite Hn.
Qed.

(** ** Walking the pages *)

Section walk.
Variables (c : Claims) (params : list (string * list string)) (q : Query).

(** A founder who follows the cursors, the [n]-th request answered from the
    [n]-th state of the table. *)
Fixpoint walk (dbs : nat -> list Row) (fuel n : nat) (cursor : string) : option (list EventView) :=
  match fuel with
  | O => None
  | S fuel' =>
      match ListOrg (Some c) (("before_seq"%string, [cursor]) :: params) (Ok (dbs n)) with
      | RPage events next _ =>
          if String.eqb next "" then Some events else option_map (app events) (walk dbs fuel' (S n) next)
      | _ => None
      end
  end.

Hypothesis founder : cl_Role c = RoleFounder.
Hypothesis parsed : parseAuditQuery params = Ok q.
Hypothesis readable : text_ok (aq_EventType q) && text_ok (aq_Outcome q) && text_ok (aq_ActorType q) = true.

Definition page_size : nat := Z.to_nat (aq_Limit q).

Lemma parsed_normal : (1 <= aq_Limit q <= 200)%Z /\ Normalize q = Ok q.
Proof.
  unfold parseAuditQuery in parsed. destruct (find _ _) as [[? ?]|]; [done|].
  apply res_bind_Ok in parsed as (l & _ & Hq). apply res_bind_Ok in Hq as (b & _ & Hq).
  destruct (Normalize _) as [q'|e] eqn:Hn; [|done]. injection Hq as ->.
  apply Normalize_Ok in Hn as (? & _ & _ & ? & _). done.
Qed.

Lemma ListOrg_page cursor b rows :
  StronglySorted before_row rows -> parse_bound cursor "before_seq must be a non-negative integer" = Ok b ->
  ListOrg (Some c) (("before_seq"%string, [cursor]) :: params) (Ok rows) =
    newAuditPage (map view_of (take page_size (filter (fun r => selects (with_before b q) r = true) (reverse rows)))) (aq_Limit q).
Proof.
  intros Hs Hb. unfold ListOrg. rewrite bool_decide_eq_true_2 by done. cbn [answer].
  rewrite (parse_with_cursor params q cursor b parsed Hb). cbn [res_bind].
  destruct parsed_normal as [_ Hn]. apply Normalize_Ok in Hn as (_ & _ & _ & _ & Hn). specialize (Hn b).
  unfold Reader_List, with_before. rewrite Hn. cbn [res_bind]. unfold run_query.
  cbn [aq_EventType aq_Outcome aq_ActorType aq_Limit]. rewrite readable, order_desc by done. reflexivity.
Qed.

(** What the cursor [b] leaves of the history of the first table. *)
Definition history (rows : list Row) : list Row := filter (fun r => selects (with_before 0 q) r = true) (reverse rows).

Lemma selects_before b r : (0 < b)%Z ->
  selects (with_before b q) r = true <-> (rw_Seq r < b)%Z /\ selects (with_before 0 q) r = true.
Proof.
  intros Hb. unfold selects, with_before. cbn [aq_Workspace aq_EventType aq_Outcome aq_ActorType aq_BeforeSeq].
  rewrite !andb_true_iff, !orb_true_iff, !Z.leb_le, !Z.ltb_lt. intuition lia.
Qed.

(** The rows the cursor of a row of the first table selects in a later one. *)
Lemma history_after rows more A x B :
  numbered (rows ++ more) -> history rows = A ++ x :: B ->
  filter (fun r => selects (with_before (rw_Seq x) q) r = true) (reverse (rows ++ more)) = B.
Proof.
  intros [Hs Hpos] HB. apply StronglySorted_app in Hs as (Hcross & Hs1 & _).
  assert (x ∈ rows) as Hx.
  { assert (x ∈ history rows) as Hx by (rewrite HB; set_solver). unfold history in Hx.
    apply list_elem_of_filter in Hx as [_ Hx]. by rewrite elem_of_reverse in Hx. }
  assert (0 < rw_Seq x)%Z as Hpx by (rewrite Forall_forall in Hpos; apply Hpos; set_solver).
  rewrite reverse_app, filter_app.
  assert (filter (fun r => selects (with_before (rw_Seq x) q) r = true) (reverse more) = []) as ->.
  { apply filter_none, Forall_forall. intros r Hr. rewrite elem_of_reverse in Hr. rewrite selects_before by done.
    intros [Hlt _]. specialize (Hcross x r Hx Hr). unfold before_row in Hcross. lia. }
  cbn [app]. trans (filter (fun r => rw_Seq r < rw_Seq x)%Z (history rows)).
  { unfold history. rewrite list_filter_filter. apply list_filter_iff. intros r. by apply selects_before. }
  assert (StronglySorted (flip before_row) (history rows)) as Hd.
  { by apply StronglySorted_filter, StronglySorted_reverse. }
  rewrite HB in Hd |- *. apply StronglySorted_app in Hd as (Hcr & _ & Hd). apply StronglySorted_inv in Hd as [_ Hd].
  rewrite filter_app, filter_cons_False by lia. rewrite (filter_none _ A).
  - apply filter_all. eapply Forall_impl; [exact Hd|]. unfold before_row. simpl. lia.
  - apply Forall_forall. intros y Hy. specialize (Hcr y x Hy ltac:(set_solver)). unfold before_row in Hcr. simpl in Hcr. lia.
Qed.

(** A table that only grows. *)
Definition appended (dbs : nat -> list Row) : Prop :=
  (forall n, numbered (dbs n)) /\ forall n, exists more, dbs (S n) = dbs n ++ more.

Lemma appended_from dbs n : appended dbs -> exists more, dbs n = dbs 0 ++ more.
Proof.
  intros [_ Hg]. induction n as [|n [m1 IH]]; [exists []; by rewrite app_nil_r|].
  destruct (Hg n) as [m2 ->]. exists (m1 ++ m2). by rewrite IH, app_assoc.
Qed.

(** The rest [B] of the history is what the walk still returns. *)
Lemma walk_rest dbs fuel : forall n cursor b B,
  appended dbs -> parse_bound cursor "before_seq must be a non-negative integer" = Ok b ->
  (exists A, history (dbs 0) = A ++ B) ->
  filter (fun r => selects (with_before b q) r = true) (reverse (dbs n)) = B -> length B < fuel ->
  walk dbs fuel n cursor = Some (map view_of B).
Proof.
  induction fuel as [|fuel IH]; intros n cursor b B Hd Hb [A HA] HB Hfuel; [lia|]. cbn [walk].
  rewrite (ListOrg_page cursor b) by (done || apply Hd). rewrite HB. unfold newAuditPage.
  destruct parsed_normal as [Hl _]. rewrite length_map, length_take. fold page_size.
  assert (Z.of_nat page_size = aq_Limit q) as Hpl by (unfold page_size; lia).
  assert (1 <= page_size) as Hps by lia.
  destruct (decide (page_size <= length B)) as [Hfull|Hshort].
  - destruct (lookup_lt_is_Some_2 B (page_size - 1) ltac:(lia)) as [x Hx].
    assert (take page_size B = take (page_size - 1) B ++ [x]) as Htake.
    { replace page_size with (S (page_size - 1)) at 1 by lia. by apply take_S_r. }
    rewrite Htake, map_app, last_app. cbn [map last]. rewrite Nat.min_l by lia.
    rewrite (proj2 (Z.eqb_eq _ _) Hpl), (proj2 (Z.ltb_lt 0 (aq_Limit q))) by lia. cbn [andb]. cbn [v_Seq view_of].
    destruct (appended_from dbs (S n) Hd) as [more Hmore].
    assert (0 <= rw_Seq x < 2 ^ 63)%Z as Hpx.
    { destruct Hd as [Hnum _]. destruct (Hnum 0) as [_ Hp]. rewrite Forall_forall in Hp.
      assert (x ∈ history (dbs 0)) as Hin by (rewrite HA; apply elem_of_app; right; by eapply list_elem_of_lookup_2).
      apply list_elem_of_filter in Hin as [_ Hin]. rewrite elem_of_reverse in Hin. specialize (Hp _ Hin). lia. }
    destruct (String.eqb_spec (strconv_Itoa (rw_Seq x)) "") as [E|_].
    { pose proof (ParseInt_Itoa (rw_Seq x) ltac:(unfold in_int64; lia)) as Hp. by rewrite E in Hp. }
    pose proof (take_drop_middle B (page_size - 1) x Hx) as HBx.
    rewrite (IH (S n) (strconv_Itoa (rw_Seq x)) (rw_Seq x) (drop page_size B)); cycle 1.
    + done.
    + by apply parse_bound_Itoa.
    + exists (A ++ take page_size B). by rewrite HA, <-app_assoc, take_drop.
    + rewrite Hmore. apply (history_after (dbs 0) more (A ++ take (page_size - 1) B) x).
      * rewrite <-Hmore. apply Hd.
      * rewrite HA, <-app_assoc. f_equal. rewrite <-HBx at 1. by replace (S (page_size - 1)) with page_size by lia.
    + rewrite length_drop. lia.
    + cbn [option_map]. f_equal. change [view_of x] with (map view_of [x]). by rewrite <-map_app, <-Htake, <-map_app, take_drop.
  - rewrite take_ge by lia. rewrite Nat.min_r by lia.
    rewrite (proj2 (Z.eqb_neq (Z.of_nat (length B)) (aq_Limit q))) by lia. cbn [andb].
    by destruct (last (map view_of B)).
Qed.
End walk.

(** A walk of the audit pages is the history.  A founder asks for a filtered
    page and follows the cursors while events are being appended: after as many
    requests as there were matching events, plus one, the pages together are
    exactly the matching events of the table the first request saw, newest
    first, none missing, none twice. *)
Theorem audit_walk_exact c params q dbs :
  cl_Role c = RoleFounder -> parseAuditQuery params = Ok q -> aq_BeforeSeq q = 0%Z ->
  text_ok (aq_EventType q) && text_ok (aq_Outcome q) && text_ok (aq_ActorType q) = true -> appended dbs ->
  let found := filter (fun r => selects q r = true) (reverse (dbs 0)) in
  walk c params dbs (S (length found)) 0 "" = Some (map view_of found).
Proof.
  intros Hc Hp Hb Ht Hd found.
  assert (found = filter (fun r => selects (with_before 0 q) r = true) (reverse (dbs 0))) as Hfound.
  { subst found. apply list_filter_iff. intros r. destruct q as [w e o a b l]. simpl in Hb. by subst b. }
  apply (walk_rest c params q Hc Hp Ht dbs _ 0 "" 0 found Hd); [done| |done|lia].
  exists []. symmetry. exact Hfound.
Qed.

(** ** Refused queries *)

Lemma parse_bound_error v msg e : parse_bound v msg = Err e -> e = RError 400 msg.
Proof.
  unfold parse_bound. destruct (String.eqb v ""); [done|]. destruct (ParseInt v) as [n|]; [|by intros [= <-]].
  destruct (0 <=? n)%Z; [done|by intros [= <-]].
Qed.

Lemma parse_error vs e : parseAuditQuery vs = Err e -> exists msg, e = RError 400 msg.
Proof.
  unfold parseAuditQuery. destruct (find _ _) as [[k ?]|]; [intros [= <-]; by eexists|].
  intros [Hl|(l & _ & [Hb|(b & _ & Hn)]%res_bind_Err)]%res_bind_Err.
  - by apply parse_bound_error in Hl as ->; eexists.
  - by apply parse_bound_error in Hb as ->; eexists.
  - destruct (Normalize _); [done|]. injection Hn as <-. by eexists.
Qed.

Lemma parse_normal vs q : parseAuditQuery vs = Ok q -> Normalize q = Ok q.
Proof.
  unfold parseAuditQuery. destruct (find _ _) as [[? ?]|]; [done|].
  intros (l & _ & Hq)%res_bind_Ok. apply res_bind_Ok in Hq as (b & _ & Hq).
  destruct (Normalize _) as [q'|e] eqn:Hn; [|done]. injection Hq as ->. by apply Normalize_Ok in Hn as (_ & _ & _ & ? & _).
Qed.

(** ** Who sees what *)

Lemma run_query_views q rows views :
  run_query q rows = Ok views ->
  Forall (fun v => exists r, v = view_of r /\ r ∈ rows /\ selects q r = true) views /\
  (Z.of_nat (length views) <= Z.max 0 (aq_Limit q))%Z.
Proof.
  unfold run_query. intros [_ Hq]%guard_Ok. injection Hq as <-. split.
  - apply Forall_forall. intros v (r & -> & Hr)%list_elem_of_fmap. exists r. split; [done|].
    apply (subseteq_take (Z.to_nat (aq_Limit q))) in Hr. rewrite merge_sort_Permutation in Hr.
    by apply list_elem_of_filter in Hr as [? ?].
  - rewrite length_map, length_take. lia.
Qed.

Lemma Reader_views q rows views :
  Reader_List q (Ok rows) = Ok views ->
  Forall (fun v => exists r, v = view_of r /\ r ∈ rows /\ aq_Workspace q = None \/
    exists r ws, v = view_of r /\ r ∈ rows /\ aq_Workspace q = Some ws /\ rw_Workspace r = Some ws) views /\
  (Z.of_nat (length views) <= 200)%Z.
Proof.
  unfold Reader_List. intros (q' & Hn & Hr)%res_bind_Ok. cbn [res_bind] in Hr. apply Normalize_Ok in Hn as (Hl & Hw & _).
  apply run_query_views in Hr as [Hv Hlen]. split; [|lia]. eapply Forall_impl; [exact Hv|].
  intros v (r & -> & Hr & Hs). rewrite <-Hw. unfold selects in Hs. exists r.
  destruct (aq_Workspace q') as [ws|]; [|by left]. right. exists r, ws. by bool_prop.
Qed.

Section confined.
Context `{UuidText, UuidParse}.

(** One workspace's audit page shows one workspace.  If the route answers a
    caller with a page, the path names a workspace, every event on the page is
    a stored event of that workspace, there are at most 200 of them, and the
    caller is a founder or its own verified claims are bound to that very
    workspace. *)
Theorem audit_page_confined claims path vs rows views next limit :
  ListForWorkspace claims path vs (Ok rows) = RPage views next limit ->
  exists c ws, claims = Some c /\ uuid_Parse path = Some ws /\
    (cl_Role c = RoleFounder \/
     (cl_Role c = RoleWorkspaceAdmin \/ cl_Role c = RoleWorkspaceMember) /\ cl_WorkspaceID c = uuid_String ws) /\
    (Z.of_nat (length views) <= 200)%Z /\
    Forall (fun v => exists r, v = view_of r /\ r ∈ rows /\ rw_Workspace r = Some ws) views.
Proof.
  unfold ListForWorkspace. destruct claims as [c|]; [|done]. unfold answer.
  destruct (parseAuditQuery vs) as [q|e] eqn:Hp; cbn [res_bind].
  2:{ by destruct (parse_error vs e Hp) as [msg ->]. }
  destruct (uuid_Parse path) as [ws|]; [|done]. case_bool_decide as Hf.
  - set (q' := mkQuery _ _ _ _ _ _). destruct (Reader_List q' (Ok rows)) as [views'|e] eqn:Hr; [|done].
    cbn [or_500 res_bind]. unfold newAuditPage. intros [= <- _ _]. exists c, ws. split_and!; [done|done|by left|..].
    + by apply Reader_views in Hr as [_ ?].
    + apply Reader_views in Hr as [Hv _]. eapply Forall_impl; [exact Hv|].
      intros v (r & [(? & ? & ?)|(r' & ws' & ? & ? & [= <-] & ?)]); [done|by exists r'].
  - destruct (WorkspaceFromClaims c) as [binding|] eqn:Hb; [|done].
    destruct (String.eqb_spec binding (uuid_String ws)) as [->|]; [|done].
    unfold Reader_ListForWorkspace. destruct (Normalize q) as [q'|e] eqn:Hn; [|done]. cbn [res_bind].
    destruct (run_query _ _) as [views'|e] eqn:Hr; [|done]. cbn [or_500 res_bind]. unfold newAuditPage. intros [= <- _ _].
    exists c, ws. apply Normalize_Ok in Hn as (Hl & _). apply run_query_views in Hr as [Hv Hlen]. cbn [aq_Limit] in Hlen.
    split_and!; [done|done| |lia|].
    + right. unfold WorkspaceFromClaims in Hb. destruct (cl_Role c); try done;
        (destruct (String.eqb _ _); [done|]); injection Hb as ->; (split; [|done]); [by left|by right].
    + eapply Forall_impl; [exact Hv|]. intros v (r & -> & [_ Hr]%list_elem_of_filter & Hs). exists r.
      unfold selects in Hs. cbn [aq_Workspace] in Hs. by bool_prop.
Qed.
End confined.

(** ** Errors *)

(** What a founder's request can end in.  With the database answering, a
    malformed query is a client error and any other gives a page - except that
    a filter that is not text PostgreSQL accepts (a NUL byte, malformed UTF-8)
    passes the validation and comes back as a server error. *)
Theorem audit_error_classes c vs rows :
  cl_Role c = RoleFounder ->
  match ListOrg (Some c) vs (Ok rows) with
  | RPage _ _ _ => exists q, parseAuditQuery vs = Ok q /\ text_ok (aq_EventType q) && text_ok (aq_Outcome q) && text_ok (aq_ActorType q) = true
  | RError status msg =>
      (status = 400%Z /\ parseAuditQuery vs = Err (RError 400 msg)) \/
      (status = 500%Z /\ exists q, parseAuditQuery vs = Ok q /\
         text_ok (aq_EventType q) && text_ok (aq_Outcome q) && text_ok (aq_ActorType q) = false)
  | RVerification _ _ _ => False
  end.
Proof.
  intros Hc. unfold ListOrg. rewrite bool_decide_eq_true_2 by done. cbn [answer].
  destruct (parseAuditQuery vs) as [q|e] eqn:Hp; cbn [res_bind].
  - unfold Reader_List. rewrite (parse_normal vs q Hp). cbn [res_bind]. unfold run_query.
    destruct (text_ok (aq_EventType q) && text_ok (aq_Outcome q) && text_ok (aq_ActorType q)) eqn:Ht; simpl.
    + by exists q.
    + right. split; [done|]. by exists q.
  - destruct (parse_error vs e Hp) as [msg ->]. by left.
Qed.

(** ** Redaction *)

(** The redaction keeps the keys, hides every value under a key that names a
    credential, leaves the others, and is idempotent. *)
Lemma RedactDetails_lookup `{RuneLower} {V} (details : gmap string (detail V)) k :
  RedactDetails details !! k = option_map (fun v => if secret_key k then Redacted else v) (details !! k).
Proof. unfold RedactDetails. rewrite map_lookup_imap. by destruct (details !! k). Qed.

Lemma RedactDetails_idem `{RuneLower} {V} (details : gmap string (detail V)) :
  RedactDetails (RedactDetails details) = RedactDetails details.
Proof. apply map_eq. intros k. rewrite !RedactDetails_lookup. destruct (details !! k); simpl; [by case_match|done]. Qed.

(** ** The rows are the table *)

Lemma b64_values : Forall (fun n => b64_value (b64_char n) = Some n /\ is_byte (b64_char n) /\ b64_char n <> 61 /\ b64_char n <> 10 /\ b64_char n <> 13)%Z
  (map Z.of_nat (seq 0 64)).
Proof. apply (bool_decide_unpack _). vm_compute. exact I. Qed.

Lemma b64_char_spec n : (0 <= n < 64)%Z ->
  b64_value (b64_char n) = Some n /\ is_byte (b64_char n) /\ b64_char n <> 61%Z /\ b64_char n <> 10%Z /\ b64_char n <> 13%Z.
Proof.
  intros Hn. pose proof b64_values as Hf. rewrite Forall_forall in Hf. apply Hf. apply list_elem_of_fmap.
  exists (Z.to_nat n). split; [lia|]. apply elem_of_seq. lia.
Qed.

(** A text of characters of the alphabet and padding. *)
Definition b64_text (c : Z) : Prop := is_byte c /\ c <> 10%Z /\ c <> 13%Z.
Lemma b64_char_text n : (0 <= n < 64)%Z -> b64_text (b64_char n).
Proof. intros (_ & Hb & _ & H10 & H13)%b64_char_spec. by split. Qed.

(** What three bytes come to, and back. *)
Lemma sextets a b c : is_byte a -> is_byte b -> is_byte c ->
  ((0 <= a / 4 < 64) /\ (0 <= a mod 4 * 16 < 64) /\ (0 <= a mod 4 * 16 + b / 16 < 64) /\ (0 <= b mod 16 * 4 < 64) /\
   (0 <= b mod 16 * 4 + c / 64 < 64) /\ (0 <= c mod 64 < 64) /\
   a / 4 * 4 + (a mod 4 * 16) / 16 = a /\ a / 4 * 4 + (a mod 4 * 16 + b / 16) / 16 = a /\
   (a mod 4 * 16 + b / 16) mod 16 * 16 + (b mod 16 * 4) / 4 = b /\
   (a mod 4 * 16 + b / 16) mod 16 * 16 + (b mod 16 * 4 + c / 64) / 4 = b /\
   (b mod 16 * 4 + c / 64) mod 4 * 64 + c mod 64 = c)%Z.
Proof. unfold is_byte. intros Ha Hb Hc. split_and!; Z.to_euclidean_division_equations; lia. Qed.

Lemma b64_three (P : list Z -> Prop) :
  P [] -> (forall a, P [a]) -> (forall a b, P [a; b]) -> (forall a b c l, P l -> P (a :: b :: c :: l)) -> forall l, P l.
Proof.
  intros H0 H1 H2 H3 l. enough (forall n k, length k <= n -> P k) as Hn by by eapply Hn. clear l.
  induction n as [|n IH]; intros [|a [|b [|c k]]] Hk; simpl in Hk; try done; try lia. apply H3, IH. lia.
Qed.

Lemma b64_encode_text l : Forall is_byte l -> Forall b64_text (b64_encode l).
Proof.
  assert (b64_text 61) as Hpad by (by unfold b64_text, is_byte; lia).
  induction l as [|a|a b|a b c l IH] using b64_three; rewrite ?Forall_cons; intros Hl; simpl; [done| | |].
  1: destruct Hl as [Ha _]; destruct (sextets a 0 0) as (?&?&_); [done|by unfold is_byte..|].
  2: destruct Hl as (Ha & Hb & _); destruct (sextets a b 0) as (?&_&?&?&_); [done|done|by unfold is_byte|].
  3: destruct Hl as (Ha & Hb & Hc & Hl); destruct (sextets a b c) as (?&_&?&_&?&?&_); [done..|].
  all: repeat (constructor; [first [by apply b64_char_text|done]|]); try done. by apply IH.
Qed.

Lemma b64_groups_encode l : Forall is_byte l -> b64_groups (b64_encode l) = Some l.
Proof.
  induction l as [|a|a b|a b c l IH] using b64_three; rewrite ?Forall_cons; intros Hl; simpl; [done| | |].
  - destruct Hl as [Ha _]. destruct (sextets a 0 0) as (H1&H2&_&_&_&_&E&_); [done|by unfold is_byte..|].
    destruct (b64_char_spec _ H1) as [-> _], (b64_char_spec _ H2) as [-> _]. simpl. by rewrite E.
  - destruct Hl as (Ha & Hb & _). destruct (sextets a b 0) as (H1&_&H2&H3&_&_&_&E&E'&_); [done|done|by unfold is_byte|].
    destruct (b64_char_spec _ H1) as [-> _], (b64_char_spec _ H2) as [-> _], (b64_char_spec _ H3) as (-> & _ & Hn & _).
    apply Z.eqb_neq in Hn. simpl. rewrite Hn. simpl. by rewrite E, E'.
  - destruct Hl as (Ha & Hb & Hc & Hl). destruct (sextets a b c) as (H1&_&H2&_&H3&H4&_&E&_&E'&E''); [done..|].
    destruct (b64_char_spec _ H1) as [-> _], (b64_char_spec _ H2) as [-> _], (b64_char_spec _ H3) as (-> & _ & Hn & _),
      (b64_char_spec _ H4) as (-> & _ & Hn' & _).
    apply Z.eqb_neq in Hn, Hn'. simpl. rewrite Hn, Hn'. simpl. rewrite (IH Hl). simpl. by rewrite E, E', E''.
Qed.

Lemma Unmarshal_Marshal l : Forall is_byte l -> Unmarshal_bytes (Marshal_bytes l) = Some l.
Proof.
  intros Hl. destruct l as [|a l'] eqn:El; [done|]. rewrite <- El in *. replace (Marshal_bytes l) with (JString (of_bytes (b64_encode l))) by by rewrite El.
  simpl. unfold b64_decode. pose proof (b64_encode_text l Hl) as Ht. rewrite bytes_of_bytes by (eapply Forall_impl; [exact Ht|by intros c []]).
  rewrite filter_all; [by apply b64_groups_encode|].
  eapply Forall_impl; [exact Ht|]. intros c (_ & H1 & H2). apply negb_true_iff, orb_false_iff. by rewrite !Z.eqb_neq.
Qed.

(** The instants of the years 0 to 9999, and what time.Parse makes of the text
    of one. *)
Definition leap (y : Z) : bool := ((y mod 4 =? 0) && negb (y mod 100 =? 0) || (y mod 400 =? 0))%Z.
Definition days_in (y m : Z) : Z :=
  if (m =? 2)%Z then (if leap y then 29 else 28)%Z else if bool_decide (m ∈ [4; 6; 9; 11]%Z) then 30%Z else 31%Z.
Definition valid_utc (t : UTC) : Prop :=
  (0 <= t_year t < 10000 /\ 1 <= t_month t <= 12 /\ 1 <= t_day t <= days_in (t_year t) (t_month t) /\
   0 <= t_hour t < 24 /\ 0 <= t_min t < 60 /\ 0 <= t_sec t < 60 /\ 0 <= t_nsec t < 1000000000)%Z.
Class GoTimeNanoLaws `{GoTimeNano} : Prop := format_parsed t : valid_utc t -> parse_RFC3339Nano (Format t) = Some t.

Section rows.
Context {V : Type} `{RuneLower, GoTimeNanoLaws, UuidText}.
Variable key : list Z.
Implicit Types (rows : list (EventRow V)) (tbl : Table).

Lemma or_nil_null u : or_nil (nullUUID u) = u.
Proof. unfold or_nil, nullUUID. by destruct (N.eqb_spec u uuid_Nil) as [->|]. Qed.

Lemma Format_nonempty t : String.eqb (Format t) "" = false.
Proof. reflexivity. Qed.

(** What is inserted is read back. *)
Lemma scanRow_insertTx ev (rec : option (Recorded (V := V))) :
  valid_utc (e_Timestamp ev) -> Forall is_byte (e_DigitalSignature ev) -> scanRow (insertTx ev rec) = Ok ev.
Proof.
  intros Ht Hs. unfold scanRow, insertTx. cbn -[Format Marshal_bytes]. rewrite Format_nonempty. cbn -[Format Marshal_bytes].
  rewrite format_parsed, Unmarshal_Marshal, !or_nil_null by done. by destruct ev.
Qed.

(** The rows stand for a table of events. *)
Definition represents rows tbl : Prop := Forall2 (fun r p => scanRow r = Ok p.1 /\ er_workspace_id r = p.2) rows tbl.

Lemma represents_head rows tbl : represents rows tbl -> loadHeadTx rows = Ok (loadHead tbl).
Proof.
  intros Hr. unfold loadHeadTx, loadHead. pose proof (Forall2_length _ _ _ Hr) as Hlen. rewrite (last_lookup rows), Hlen.
  destruct (last tbl) as [p|] eqn:Hp; rewrite last_lookup in Hp.
  - destruct (Forall2_lookup_r _ _ _ _ _ Hr Hp) as (r & -> & Hs & _). by rewrite Hs.
  - by rewrite (lookup_ge_None_2 rows) by (apply lookup_ge_None in Hp; lia).
Qed.

Lemma represents_chain rows tbl : represents rows tbl -> Store_Chain rows = Ok (Chain tbl).
Proof. induction 1 as [|r p rows tbl [Hs _] _ IH]; [done|]. simpl. rewrite Hs. simpl. rewrite IH. done. Qed.

Lemma represents_append rows tbl ev (rec : option (Recorded (V := V))) :
  represents rows tbl -> valid_utc (e_Timestamp ev) -> Forall is_byte (e_DigitalSignature ev) ->
  represents (rows ++ [insertTx ev rec]) (tbl ++ [(ev, workspaceArg rec)]).
Proof. intros Hr Ht Hs. apply Forall2_app; [done|]. constructor; [|constructor]. split; [by apply scanRow_insertTx|done]. Qed.
End rows.

(** C15. The rows of PostgreSQL are the chain.  With the nullable columns, the text of
    the instant and the JSON of the tag in between, the store appends, opens and
    verifies as if it kept the events themselves: started on rows that stand for
    a table, against other writers that do too, an append and a start answer the
    same and leave rows that stand for the table they leave, and the verification
    reads exactly that chain. *)
Theorem rows_refine_chain {V} `{RuneLower, GoTimeNanoLaws, UuidText} key (rows : list (EventRow V)) tbl :
  represents rows tbl ->
  Store_Verify key rows = Ok (Verify key tbl) /\
  (forall others t (rec : Recorded), valid_utc (at_now t) -> represents (others rows) (at_others t tbl) ->
     let '(r, rows') := Append_rows key others t rec rows in
     let '(r', tbl') := Append key t rec.1 tbl in
     r = r' /\ represents rows' tbl') /\
  (forall others1 others2 t1 t2, valid_utc (at_now t2) ->
     (forall rows tbl, represents rows tbl -> represents (others1 rows) (at_others t1 tbl) /\ represents (others2 rows) (at_others t2 tbl)) ->
     let '(r, rows') := NewStore_rows key others1 others2 t1 t2 rows in
     let '(r', tbl') := NewStore key t1 t2 tbl in
     r = r' /\ represents rows' tbl').
Proof.
  intros Hr. split_and!.
  - unfold Store_Verify. by rewrite (represents_chain rows tbl Hr).
  - intros others t rec Ht Ho. unfold Append_rows, Append, locked_rows, locked, run_tx. destruct (_ || _); [done|]. simpl.
    rewrite (represents_head _ _ Ho). simpl. destruct (at_fault t) as [|m|[] m]; [|done| |]; destruct (loadHead _) as [head|]; simpl; try done.
    all: split; [done|]; apply (represents_append _ _ _ (Some rec)); [done..|apply sha256_Sum256_byte].
  - intros others1 others2 t1 t2 Ht Ho. unfold NewStore_rows, NewStore, locked_rows, locked, run_tx. simpl.
    destruct (Ho _ _ Hr) as [Hr1 _]. rewrite (represents_head _ _ Hr1). simpl.
    destruct (at_fault t1) as [|m|[] m]; try done. all: destruct (loadHead _) as [head|]; try done; simpl.
    destruct (Ho _ _ Hr1) as [_ Hr2]. destruct (at_fault t2) as [|m|[] m]; try done; split; try done.
    all: apply (represents_append _ _ _ None); [done..|apply sha256_Sum256_byte].
Qed.

(** Of a row only what the event takes from it is verified: its workspace, its
    details and its column of microseconds may be rewritten, which moves a record
    between the histories of two workspaces. *)
Lemma unbound_columns {V} `{RuneLower, GoTimeNano, UuidText} key (rows : list (EventRow V))
    (ws : EventRow V -> option uuid) (at_ : EventRow V -> UTC) (details : EventRow V -> option (gmap string (detail V))) :
  let edited (r : EventRow V) := mkEventRow (er_id r) (er_event_id r) (ws r) (at_ r) (er_timestamp_canonical r)
    (er_trace_id r) (er_span_id r) (er_actor_type r) (er_actor_id r) (er_target_type r) (er_target_id r) (er_event_type r)
    (er_outcome r) (details r) (er_constitutional_principle r) (er_digital_signature r) (er_hash_chain_parent r)
    (er_hash_chain_value r) (er_genesis r) in
  Store_Verify key (map edited rows) = Store_Verify key rows.
Proof.
  intros edited. unfold Store_Verify. assert (Store_Chain (map edited rows) = Store_Chain rows) as ->; [|done].
  induction rows as [|r rows IH]; [done|]. simpl. by rewrite IH.
Qed.

(** A reader of the text of an instant, field by field. *)
Definition undigits (l : list Z) : Z := fold_left (fun z d => z * 10 + (d - 48))%Z l 0%Z.
Definition read_field {A} (n : nat) (l : list Z) (k : Z -> list Z -> A) : A := k (undigits (take n l)) (drop (S n) l).
Definition read_fraction (l : list Z) : Z := undigits (take 9 (drop 1 (take (length l - 1) l) ++ replicate 9 48%Z)).
#[local] Instance positional : GoTimeNano := fun s =>
  read_field 4 (bytes s) (fun y l => read_field 2 l (fun mo l => read_field 2 l (fun d l => read_field 2 l (fun h l =>
  read_field 2 l (fun mi l => Some (mkUTC y mo d h mi (undigits (take 2 l)) (read_fraction (drop 2 l)))))))).

Lemma undigits_digits n z : (0 <= z < 10 ^ Z.of_nat n)%Z -> undigits (digits n z) = z.
Proof.
  revert z. induction n as [|n IH]; intros z Hz; [unfold undigits; simpl in *; lia|].
  rewrite Nat2Z.inj_succ, Z.pow_succ_r in Hz by lia. unfold undigits in *. simpl. rewrite fold_left_app. simpl.
  rewrite IH by (split; [apply Z.div_pos; lia|apply Z.div_lt_upper_bound; lia]). pose proof (Z.div_mod z 10). lia.
Qed.

Lemma read_field_digits {A} n z sep l (k : Z -> list Z -> A) :
  (0 <= z < 10 ^ Z.of_nat n)%Z -> read_field n (digits n z ++ [sep] ++ l) k = k z l.
Proof.
  intros Hz. unfold read_field. rewrite take_app_length' by (by rewrite digits_length). rewrite undigits_digits by done.
  replace (S n) with (length (digits n z ++ [sep])) by (rewrite length_app, digits_length; simpl; lia).
  by rewrite (assoc_L (++)), drop_app_length.
Qed.

Lemma read_fraction_fraction z : (0 <= z < 1000000000)%Z -> read_fraction (fraction z ++ [90%Z]) = z.
Proof.
  intros Hz. unfold read_fraction. rewrite length_app, Nat.add_sub, take_app_length.
  assert (drop 1 (fraction z) = strip_zeros (digits 9 z)) as -> by (unfold fraction; by destruct (strip_zeros _)).
  destruct (strip_zeros_pad (digits 9 z)) as [Hp Hl]. rewrite digits_length in Hp, Hl.
  rewrite take_app, take_ge, take_replicate by done. rewrite Nat.min_l by lia. rewrite <- Hp. by apply undigits_digits.
Qed.

#[local] Instance positional_laws : GoTimeNanoLaws.
Proof.
  intros t (Hy & Hmo & Hd & Hh & Hmi & Hs & Hn).
  assert (1 <= t_day t < 100)%Z as Hd' by (unfold days_in in Hd; repeat case_match; lia). unfold parse_RFC3339Nano, positional, Format.
  rewrite bytes_of_bytes by (repeat match goal with |- Forall _ (_ ++ _) => apply Forall_app; split end;
     first [apply digits_byte | apply fraction_byte | by repeat constructor]).
  rewrite !read_field_digits by (simpl; lia). rewrite take_app_length' by (by rewrite digits_length).
  rewrite drop_app_length' by (by rewrite digits_length). rewrite undigits_digits, read_fraction_fraction by (simpl; lia). by destruct t.
Qed.

(** ** Concrete runs *)

#[local] Hint Extern 0 UuidText => exact unary_uuid : typeclass_instances.
#[local] Hint Extern 0 UuidParse => exact unary_parse : typeclass_instances.

Definition read_event (id : uuid) (outcome : string) : AuditEvent :=
  AuditChain.mkEvent id id (mkUTC 2026 3 9 7 5 0 0) 0 0 "user" 4 "execution" 5 "execution.admit" outcome 0 [] [] false "Human Oversight".
Definition read_row (seq : Z) (ws : option uuid) (outcome : string) : Row :=
  mkRow seq (read_event (Z.to_N seq) outcome) ws.
Definition read_rows : list Row :=
  [read_row 2 None "genesis"; read_row 3 (Some 7%N) "success"; read_row 5 (Some 8%N) "success"; read_row 6 (Some 7%N) "denied";
   read_row 9 (Some 7%N) "success"].

(** One event is appended before every request after the first. *)
Definition growing (n : nat) : list Row :=
  read_rows ++ map (fun i => read_row (10 + Z.of_nat i) (Some 7%N) "success") (seq 0 n).

Definition a_founder : Claims := mkClaims "0000" RoleFounder "" ∅.
Definition a_member : Claims := mkClaims "0000" RoleWorkspaceMember "0000000" ∅.

Lemma StronglySorted_numbers b k :
  StronglySorted before_row (map (fun i => read_row (10 + Z.of_nat i) (Some 7%N) "success") (seq b k)).
Proof.
  revert b. induction k as [|k IH]; intros b; [constructor|]. cbn [seq map]. constructor; [apply IH|].
  apply Forall_forall. intros r (i & -> & Hi)%list_elem_of_fmap. apply elem_of_seq in Hi.
  unfold before_row, read_row. simpl. lia.
Qed.

(** The first three states of the growing table. *)
Definition demo_dbs (n : nat) : list Row := growing (Nat.min 2 n).

Lemma demo_appended : appended demo_dbs.
Proof.
  split.
  - intros n. split.
    + unfold demo_dbs, growing. apply StronglySorted_app. split_and!.
      * intros x y Hx (i & -> & Hi)%list_elem_of_fmap. unfold before_row.
        assert (Forall (fun r => rw_Seq r < 10)%Z read_rows) as Hr by (repeat (constructor; [simpl; lia|]); constructor).
        rewrite Forall_forall in Hr. specialize (Hr x Hx). simpl. lia.
      * repeat (constructor; [|repeat (constructor; [unfold before_row; simpl; lia|])]); constructor.
      * apply StronglySorted_numbers.
    + apply Forall_app. split; [repeat (constructor; [simpl; lia|]); constructor|].
      apply Forall_forall. intros r (i & -> & Hi%elem_of_seq)%list_elem_of_fmap. simpl. lia.
  - intros [|[|n]]; [exists [read_row 10 (Some 7%N) "success"]; reflexivity|exists [read_row 11 (Some 7%N) "success"]; reflexivity|].
    exists []. rewrite app_nil_r. reflexivity.
Qed.

Lemma audit_walk_exact_witness :
  option_map (map v_Seq) (walk a_founder [("limit", ["2"]); ("outcome", ["success"])]%string demo_dbs 4 0 "") = Some [9; 5; 3]%Z.
Proof.
  assert (parseAuditQuery [("limit", ["2"]); ("outcome", ["success"])]%string = Ok (mkQuery None "" "success" "" 0 2)) as Hp
    by reflexivity.
  pose proof (audit_walk_exact a_founder _ _ demo_dbs eq_refl Hp eq_refl eq_refl demo_appended) as Hw.
  cbv zeta in Hw. change 4 with (S (length (filter (fun r => selects (mkQuery None "" "success" "" 0 2) r = true)
    (reverse (demo_dbs 0))))). rewrite Hw. reflexivity.
Defined.

Lemma audit_page_confined_witness :
  exists c ws, Some a_member = Some c /\ uuid_Parse "0000000" = Some ws /\
    (cl_Role c = RoleFounder \/
     (cl_Role c = RoleWorkspaceAdmin \/ cl_Role c = RoleWorkspaceMember) /\ cl_WorkspaceID c = uuid_String ws) /\
    (Z.of_nat (length (map view_of [read_row 9 (Some 7%N) "success"; read_row 6 (Some 7%N) "denied"])) <= 200)%Z /\
    Forall (fun v => exists r, v = view_of r /\ r ∈ read_rows /\ rw_Workspace r = Some ws)
      (map view_of [read_row 9 (Some 7%N) "success"; read_row 6 (Some 7%N) "denied"]).
Proof. apply (audit_page_confined (Some a_member) "0000000" [("limit", ["2"])]%string read_rows _ "6" 2). reflexivity. Defined.

Lemma audit_error_classes_witness :
  ListOrg (Some a_founder) [("outcome"%string, [of_bytes [255%Z]])] (Ok read_rows) = RError 500 "internal error" /\
  ((500%Z = 400%Z /\ parseAuditQuery [("outcome"%string, [of_bytes [255%Z]])] = Err (RError 400 "internal error")) \/
   (500%Z = 500%Z /\ exists q, parseAuditQuery [("outcome"%string, [of_bytes [255%Z]])] = Ok q /\
      text_ok (aq_EventType q) && text_ok (aq_Outcome q) && text_ok (aq_ActorType q) = false)).
Proof.
  split; [reflexivity|].
  exact (audit_error_classes a_founder [("outcome"%string, [of_bytes [255%Z]])] read_rows eq_refl).
Defined.

(** A database opened and written to, with a credential among the details. *)
#[local] Instance same_rune : RuneLower := fun r => r.
Definition same_rows (rows : list (EventRow unit)) : list (EventRow unit) := rows.
Definition with_key : Recorded (V := unit) := (demo_record "success", {[ "api_key" := Given tt; "attempt" := Given tt ]}%string).
Definition opened : list (EventRow unit) :=
  (NewStore_rows demo_key same_rows same_rows (demo_tick 0 1 alone) (demo_tick 1 2 alone) []).2.

Lemma rows_refine_chain_witness :
  represents opened demo_boot /\ Store_Verify demo_key opened = Ok true /\
  let '(r, rows) := Append_rows demo_key same_rows (demo_tick 2 3 alone) with_key opened in
  is_ok r = true /\ represents rows demo_one /\
  option_map er_outcome_details (last rows) = Some (Some {[ "api_key" := Redacted; "attempt" := Given tt ]}%string).
Proof.
  assert (represents opened demo_boot) as Hr.
  { destruct (rows_refine_chain demo_key ([] : list (EventRow unit)) [] ltac:(constructor)) as (_ & _ & Hn).
    specialize (Hn same_rows same_rows (demo_tick 0 1 alone) (demo_tick 1 2 alone)).
    unfold opened, demo_boot. destruct (NewStore_rows _ _ _ _ _ _), (NewStore _ _ _ _) as [??].
    apply Hn; [by apply (bool_decide_unpack _); vm_compute|done]. }
  destruct (rows_refine_chain demo_key opened demo_boot Hr) as (Hv & Ha & _). split; [exact Hr|]. split.
  - rewrite Hv. by vm_compute.
  - pose (after := Append_rows demo_key same_rows (demo_tick 2 3 alone) with_key opened).
    assert (is_ok after.1 = true /\ option_map er_outcome_details (last after.2) =
      Some (Some {[ "api_key" := Redacted; "attempt" := Given tt ]}%string)) as [H1 H2] by (vm_compute; split; reflexivity).
    specialize (Ha same_rows (demo_tick 2 3 alone) with_key). fold after in Ha |- *. destruct after as [r rows].
    change (demo_one) with ((Append demo_key (demo_tick 2 3 alone) with_key.1 demo_boot).2).
    destruct (Append _ _ _ _) as [r' tbl']. destruct Ha as [_ Hrep]; [by apply (bool_decide_unpack _); vm_compute|exact Hr|].
    split; [exact H1|]. split; [exact Hrep|exact H2].
Defined.
